(* ===== verification/_CoqProject ===== *)
-Q . S2P
Prelude.v
Bytes.v
NList.v
Bitmap.v
Machine.v
Mips.v
MipsMult.v
MipsProofs.v
Interrupt.v
InterruptProofs.v
AddrSpace.v
AddrSpaceProofs.v
Processes.v
Sched.v
SchedProofs.v
Storage.v
FileHdr.v
OpenFile.v
Directory.v
FileSys.v
FileSysProofs.v
FileSysSpec.v
Disk.v
DiskProofs.v
Unix.v
StubFS.v
UserMem.v
STable.v
Exception.v
SimWorld.v
ExceptionProofs.v
FileCalls.v
SysCalls.v
ProcTable.v
ProcTableProofs.v
ProcTableSpec.v
Console.v
ConsoleProofs.v
Network.v
NetworkProofs.v
Execute.v
ExecuteProofs.v
Coff.v
CoffProofs.v
Stacks.v
FsTest.v
Boot.v
BootKernel.v
Switch.v
SwitchSnake.v
Disasm.v
UserLib.v
UserPrograms.v
ProgTest.v
NetTest.v
Interp.v
