(* ===== verification/Prelude.v ===== *)
(** * A verification of Nachos 3.4 (marucube35/n4ch0s)

    ** The program

    Nachos is an instructional operating system.  One UNIX process contains the
    simulated workstation (code/machine: a MIPS processor, memory, interrupts
    and devices) and the kernel that runs on it (code/threads, code/userprog,
    code/filesys, code/network).  Simulated time advances with each user
    instruction and each time the kernel enables interrupts; device interrupts
    are events in a list sorted by time.  Kernel threads switch only in Sleep,
    Yield and Finish; an interrupt handler may ask for a Yield on return.  User
    programs enter the kernel through ExceptionHandler.  The kernel the user
    programs run on is built with FILESYS_STUB: files are UNIX files; the
    directory filesys/ has the implementation on the simulated disk.

    ** Files of the development and the sources they model

    - Prelude, Bytes: outcomes, machine integers, arrays, bytes of words.
    - NList: threads/list.cc at the level of its pointers.
    - Bitmap: userprog/bitmap.cc; the interface BitAlloc and its laws.
    - Machine, Mips, MipsMult, MipsProofs: machine/machine.cc, translate.cc,
      mipssim.cc.
    - Interrupt, InterruptProofs: machine/interrupt.cc, timer.cc, stats.h.
    - AddrSpace, AddrSpaceProofs, Processes: userprog/addrspace.cc, and the
      composition of loading, translation and execution.
    - Sched, SchedProofs: threads/thread.cc, scheduler.cc, synch.cc with the
      interrupt level, and StartProcess_2 of userprog/pcb.cc, as a step relation
      over the code of the threads, which is a parameter: it may call any of these,
      run user instructions, set the level and overwrite its own stack.
    - Execute, ExecuteProofs: bin/execute.c, the stand-alone interpreter, and
      its simulation of the simulated processor.
    - Coff, CoffProofs: bin/coff2noff.c and coff2flat.c, composed with the
      loader.
    - Storage, FileHdr, OpenFile, Directory, FileSys, FileSysProofs, FileSysSpec:
      filesys/ on any storage that satisfies SectorLaws.
    - FsTest: filesys/fstest.cc on the contract of FileSysSpec.
    - Disk, DiskProofs: machine/disk.cc and filesys/synchdisk.cc, which satisfy
      SectorLaws.
    - Stacks: c++example, two stacks behind one interface.
    - Unix, StubFS: machine/sysdep.cc and the inline FileSystem and OpenFile of
      the stub.
    - UserMem, STable, Exception, SimWorld, ExceptionProofs, FileCalls, SysCalls:
      userprog/exception.cc and stable.cc; SimWorld is a concrete world the
      theorems are tried on.
    - ProcTable, ProcTableProofs, ProcTableSpec: userprog/ptable.cc and pcb.cc.
    - Boot, BootKernel: threads/main.cc, system.cc, utility.cc and threadtest.cc:
      the command line in every build, the construction of the kernel and its
      destruction, and the first test run on it.
    - Switch, SwitchSnake: threads/switch.c, switch.h and Thread::StackAllocate,
      instruction by instruction, for the i386, the MIPS and the HP PA-RISC.
    - Disasm: bin/d.c, opstrings.c, disasm.c and the tracing of mipssim.cc.
    - Interp: bin/main.c and system.c, the stand-alone interpreter as a program.
    - UserLib, UserPrograms: test/start.c as machine code, sort.c and matmult.c.
    - ProgTest, NetTest: userprog/progtest.cc and network/nettest.cc.
    - Console, ConsoleProofs: machine/console.cc and threads/synchcons.cc.
    - Network, NetworkProofs: machine/network.cc, network/post.cc and
      threads/synchlist.cc.

    ** What the theorems show

    - Lists and bit maps: the pointer and bit level operations implement finite
      sequences and finite sets.
    - Processor: every instruction keeps the machine well formed, traps are
      precise, memory outside the page table of the process is untouched, Mult
      gives the 64-bit product, arithmetic traps exactly on overflow.
    - Address spaces: the loaded program is the one in the file, frames of
      different processes are disjoint, and no instruction of one process changes
      what another sees.
    - Two interpreters: bin/execute.c runs in lock step with mipssim.cc on every
      instruction and operand on which the two programs do not differ, load
      delay included; the predicate [agrees] says which these are.
    - Executables: coff2noff accepts every well-formed COFF file, with or without
      data, and what the compiler put into it is what a process finds in its
      memory, if it is linked at address 0 and there is room.
    - Time: OneTick and Idle terminate and fire exactly the due interrupts in
      order of time.
    - Threads: under every scheduling the kernel fails only through an overwritten
      stack fencepost, a semaphore that does not exist or one at the largest int,
      and never for code that avoids these; each thread is in one place,
      semaphores count and lose no wakeup, and context switches are transparent to
      user programs.
    - File system: every sequence of calls refines a finite map from names to
      contents, on the abstract store and on the simulated disk, and the files
      survive a restart; each request to the synchronous disk takes one interrupt
      and its latency, which is bounded; Copy and Print of
      fstest.cc compose to the identity, and its performance test cannot succeed.
    - System calls: whatever is called, only the caller's memory, r2 and the
      program counters change; data written through a file or the console is read
      back; bad pointers stop the machine.
    - Process table: the invariant of the table under every interleaving, what
      Join returns, that the exchange of Join and Exit always completes, and two
      ways to break it.
    - Console: a line typed is read back whatever the pace of the keyboard, and
      what is written is displayed, in bounded time.
    - Network: mail boxes are queues; nothing is changed, lost (unless the network
      drops it), repeated or reordered, no assertion fails, and mail on the way
      arrives.

    - Start-up: a command line of flags means what its flags mean, in every build
      without THREADS, and a build with THREADS ignores it; when Initialize has enabled
      interrupts the main thread is the only one, and whatever it does from there
      on, the constructors of the devices included, the theorems on threads
      apply; Cleanup deletes each object once, but for the statistics and the main
      thread.
    - Context switch: what Sched assumes of SWITCH holds of the assembly code: a
      thread returns from SWITCH with its registers when it is switched to again,
      and a new thread enables interrupts, runs its function and finishes.
    - Disassemblers: the trace of the processor and bin/d.c name every instruction
      alike, their operands correspond but for a list of exceptions, and the
      address d.c prints is where the processor goes.
    - User programs: a stub traps with its code and, but for the calls on
      semaphores, returns to its caller with the result; those skip the return and
      run into the next stub; multiply computes the product of the matrices, and sort.c does not
      sort.
    - Tests: the console test echoes what is typed, the two threads of threadtest.cc
      alternate, MailTest prints the letters of the other machine in order, and the
      first process starts at location 0 with clear registers.
    - Stand-alone interpreter: a system call with pointers into memory changes
      register 1 and the buffer of a read only, and the loop over the options ends.

    Properties that record a defect of the code state what the code does.

    ** Conventions

    A function of the source returns an [outcome]: a value, a failed ASSERT, the
    halt of the machine, undefined behaviour, or a loop that hit its bound.  ints
    are integers of Z, wrapped by [s32] and [u32] where the source may overflow
    and the result is used; signed overflow that C++ leaves undefined is [Undef]
    where the code can reach it (V at INT_MAX, the sums of ReadAt and WriteAt).
    new with a negative size aborts.  What new returns before it is written is a
    parameter (Uninit, or an argument called garbage).  The host is little endian
    with signed char.

    Loops that the source bounds by data are structural; the others take fuel,
    and theorems prove that it is enough: the number of pending interrupts plus
    one for CheckIfDue, 32 for Mult, 2 for P and Sleep with one thread and one
    device request, 10 for the digits of an int, the number of arguments for the
    loops over a command line, the capacity plus one for the stack tests.

    Interfaces between components are classes: BitAlloc (bit maps), SectorStore
    (disk), Unix and Host (host calls of the kernel and of the stand-alone
    interpreter), Handler (device simulators), Semaphores and
    Services (what system calls use of threads, console and processes); each has
    a class of laws and an instance that satisfies them.

    ** Not modelled

    In Sched the clock and the list of pending interrupts: a handler may run
    whenever interrupts are on or the machine idles (Interrupt and the files of the
    devices have the times).  In a system call that blocks, what other processes do
    to memory meanwhile: the class Services types the calls on the globals only.
    Printing, DEBUG output and the debugger; signals, guard pages and random
    numbers of the host; the SPARC part of switch.c, which works through the register
    windows and a trap of the host kernel; bin/out.c, which prints symbol tables
    in the format of system headers; the histograms of bin/execute.c, which
    nothing calls; threads/stdarg.h, a header of the compiler; and the user
    programs of code/test that only make system calls. *)

From Stdlib Require Import ZArith Lia Bool.
From stdpp Require Export base tactics option list list_numbers numbers gmap.

#[global] Set Default Goal Selector "!".

Local Open Scope Z_scope.

(** ** Outcomes of C++ code

    A call either returns ([Ok]), fails an [ASSERT] ([Aborted]: Abort() dumps
    core), shuts the simulated machine down ([Halted]: Interrupt::Halt never
    returns), runs into behaviour C++ leaves undefined ([Undef]: a NULL or
    dangling pointer, an index out of range, a trapping division), or reaches
    the bound put on a loop that the source leaves unbounded ([NoFuel]). *)
Inductive outcome (A : Type) : Type :=
| Ok (a : A)
| Aborted
| Halted
| Undef
| NoFuel.

Arguments Ok {A} a.
Arguments Aborted {A}.
Arguments Halted {A}.
Arguments Undef {A}.
Arguments NoFuel {A}.

Definition is_Ok {A} (o : outcome A) : bool :=
  match o with Ok _ => true | _ => false end.

#[export] Instance outcome_ret : MRet outcome := @Ok.

#[export] Instance outcome_bind : MBind outcome := λ _ _ f o,
  match o with
  | Ok a => f a
  | Aborted => Aborted
  | Halted => Halted
  | Undef => Undef
  | NoFuel => NoFuel
  end.

#[export] Instance outcome_fmap : FMap outcome := λ _ _ f o,
  match o with
  | Ok a => Ok (f a)
  | Aborted => Aborted
  | Halted => Halted
  | Undef => Undef
  | NoFuel => NoFuel
  end.

#[export] Instance outcome_eq_dec {A} `{EqDecision A} : EqDecision (outcome A).
Proof. solve_decision. Defined.

(** The ASSERT macro of threads/utility.h: a false condition calls Abort(). *)
Definition ASSERT (condition : bool) : outcome unit :=
  if condition then Ok tt else Aborted.

(** ** State passing: code that reads and writes an object of type [S]. *)
Definition ST (S A : Type) : Type := S → outcome (A * S).

#[export] Instance st_ret {S} : MRet (ST S) := λ _ a s, Ok (a, s).

#[export] Instance st_bind {S} : MBind (ST S) := λ _ _ f m s,
  match m s with
  | Ok (a, s') => f a s'
  | Aborted => Aborted
  | Halted => Halted
  | Undef => Undef
  | NoFuel => NoFuel
  end.

Definition st_get {S} : ST S S := λ s, Ok (s, s).

Definition st_put {S} (s' : S) : ST S unit := λ _, Ok (tt, s').

Definition st_modify {S} (f : S → S) : ST S unit := λ s, Ok (tt, f s).

Definition st_reads {S A} (f : S → A) : ST S A := λ s, Ok (f s, s).

Definition st_lift {S A} (o : outcome A) : ST S A := λ s,
  match o with
  | Ok a => Ok (a, s)
  | Aborted => Aborted
  | Halted => Halted
  | Undef => Undef
  | NoFuel => NoFuel
  end.

(** ** Counted loops: [for (x in l) acc = f(acc, x)] with early failure. *)
Fixpoint foldM {A B} (f : A → B → outcome A) (acc : A) (l : list B) : outcome A :=
  match l with
  | [] => Ok acc
  | x :: l' => match f acc x with
               | Ok acc' => foldM f acc' l'
               | Aborted => Aborted
               | Halted => Halted
               | Undef => Undef
               | NoFuel => NoFuel
               end
  end.

(** ** Arrays: indexing is checked, an index out of range is undefined. *)
Definition in_range (i n : Z) : bool := (0 <=? i) && (i <? n).

Definition aget {A} (l : list A) (i : Z) : outcome A :=
  if 0 <=? i then
    match l !! Z.to_nat i with Some x => Ok x | None => Undef end
  else Undef.

Definition aset {A} (l : list A) (i : Z) (x : A) : outcome (list A) :=
  if in_range i (Z.of_nat (length l)) then Ok (<[Z.to_nat i := x]> l) else Undef.

(** [bytes_at l off n]: the [n] cells of [l] from [off]. *)
Definition bytes_at {A} (l : list A) (off n : Z) : list A :=
  take (Z.to_nat n) (drop (Z.to_nat off) l).

(** [blit l off src]: [l] with its cells from [off] on overwritten by [src]
    (what bcopy(src, &l[off], |src|) leaves in [l] when the range fits). *)
Definition blit {A} (l : list A) (off : nat) (src : list A) : list A :=
  take off l ++ src ++ drop (off + length src) l.

(** ** 32-bit integers: [int] is [s32], [unsigned int] is [u32]; conversions
    and overflow wrap around in two's complement. *)
Definition u32 (z : Z) : Z := z mod 2 ^ 32.

Definition s32 (z : Z) : Z := (z + 2 ^ 31) mod 2 ^ 32 - 2 ^ 31.

Definition int32 (z : Z) : Prop := - 2 ^ 31 <= z < 2 ^ 31.

Definition int32b (z : Z) : bool := (- 2 ^ 31 <=? z) && (z <? 2 ^ 31).

(** (char) of an int on the i386 host: char is a signed byte. *)
Definition schar (z : Z) : Z := (z + 128) mod 256 - 128.

(** divRoundDown and divRoundUp of threads/utility.h; C division truncates. *)
Definition divRoundDown (n s : Z) : Z := Z.quot n s.

Definition divRoundUp (n s : Z) : Z :=
  Z.quot n s + (if Z.rem n s >? 0 then 1 else 0).

(** ** Lemmas on outcomes and loops *)

Lemma bind_Ok_inv {A B} (o : outcome A) (f : A → outcome B) b :
  o ≫= f = Ok b → ∃ a, o = Ok a ∧ f a = Ok b.
Proof. destruct o; simpl; intros; simplify_eq; eauto. Qed.

Lemma st_bind_Ok_inv {S A B} (m : ST S A) (f : A → ST S B) s b s' :
  (m ≫= f) s = Ok (b, s') → ∃ a s1, m s = Ok (a, s1) ∧ f a s1 = Ok (b, s').
Proof.
  unfold mbind, st_bind. destruct (m s) as [[a s1]| | | |]; intros; simplify_eq; eauto.
Qed.

(** Running one step of a computation whose result is known. *)
Lemma st_bind_eq {S A B} (m : ST S A) (f : A → ST S B) s a s' :
  m s = Ok (a, s') → (m ≫= f) s = f a s'.
Proof. unfold mbind, st_bind. by intros ->. Qed.

Lemma st_lift_bind {S A B} (o : outcome A) (f : A → ST S B) s a :
  o = Ok a → (st_lift o ≫= f) s = f a s.
Proof. by intros ->. Qed.

Lemma foldM_app {A B} (f : A → B → outcome A) acc l1 l2 :
  foldM f acc (l1 ++ l2) = foldM f acc l1 ≫= λ a, foldM f a l2.
Proof.
  revert acc; induction l1 as [|x l1 IH]; intros acc; simpl; [done|].
  destruct (f acc x); simpl; auto.
Qed.

(** Two outcomes of the same kind, with related results. *)
Definition orel {A B} (R : A → B → Prop) (o1 : outcome A) (o2 : outcome B) : Prop :=
  match o1, o2 with
  | Ok a, Ok b => R a b
  | Aborted, Aborted | Halted, Halted | Undef, Undef | NoFuel, NoFuel => True
  | _, _ => False
  end.

Lemma orel_bind {A B A' B'} (R : A → B → Prop) (Q : A' → B' → Prop) o1 o2 f g :
  orel R o1 o2 → (∀ a b, R a b → orel Q (f a) (g b)) → orel Q (o1 ≫= f) (o2 ≫= g).
Proof. destruct o1, o2; simpl; try done. intros; auto. Qed.

Lemma orel_refl {A} (R : A → A → Prop) `{!Reflexive R} o : orel R o o.
Proof. by destruct o; simpl. Qed.

Lemma orel_Ok_l {A B} (R : A → B → Prop) a o2 :
  orel R (Ok a) o2 → ∃ b, o2 = Ok b ∧ R a b.
Proof. destruct o2; simpl; try done. eauto. Qed.

(** A loop invariant: established before the loop and kept by each iteration,
    it holds after it, and the loop returns. *)
Lemma foldM_inv {A B} (P : A → Prop) (f : A → B → outcome A) l acc :
  P acc →
  (∀ a x, x ∈ l → P a → ∃ a', f a x = Ok a' ∧ P a') →
  ∃ acc', foldM f acc l = Ok acc' ∧ P acc'.
Proof.
  revert acc; induction l as [|x l IH]; intros acc HP Hstep; simpl; [eauto|].
  destruct (Hstep acc x) as (a' & -> & HP'); [set_solver|done|].
  apply IH; [done|]. intros a y Hy. apply Hstep. set_solver.
Qed.

(** The same with the index: the invariant may speak of the part of the list
    already treated. *)
Lemma foldM_inv_pre {A B} (P : list B → A → Prop) (f : A → B → outcome A) l pre acc :
  P pre acc →
  (∀ l1 x l2 a, l = l1 ++ x :: l2 → P (pre ++ l1) a →
     ∃ a', f a x = Ok a' ∧ P (pre ++ l1 ++ [x]) a') →
  ∃ acc', foldM f acc l = Ok acc' ∧ P (pre ++ l) acc'.
Proof.
  revert pre acc; induction l as [|x l IH]; intros pre acc HP Hstep; simpl.
  { rewrite app_nil_r. eauto. }
  destruct (Hstep [] x l acc) as (a' & -> & HP'); [done|by rewrite app_nil_r|].
  destruct (IH (pre ++ [x]) a') as (acc' & -> & HQ).
  - by simpl in HP'.
  - intros l1 y l2 a -> HPa.
    destruct (Hstep (x :: l1) y l2 a) as (a2 & Hf & Ha2); [done| |].
    { by rewrite <- app_assoc in HPa. }
    exists a2. split; [done|]. by rewrite <- app_assoc.
  - exists acc'. split; [done|]. by rewrite <- app_assoc in HQ.
Qed.

(** ** Lemmas on arrays *)

Lemma in_range_true i n : in_range i n = true ↔ 0 <= i < n.
Proof. unfold in_range. rewrite andb_true_iff, Z.leb_le, Z.ltb_lt. lia. Qed.

Lemma aget_Ok {A} (l : list A) i x :
  aget l i = Ok x ↔ 0 <= i ∧ l !! Z.to_nat i = Some x.
Proof.
  unfold aget. destruct (Z.leb_spec 0 i); [|split; [done|lia]].
  destruct (l !! Z.to_nat i); split; intros; destruct_and?; simplify_eq; auto.
Qed.

Lemma aget_in_range {A} (l : list A) i :
  0 <= i < Z.of_nat (length l) → ∃ x, aget l i = Ok x ∧ l !! Z.to_nat i = Some x.
Proof.
  intros Hi. destruct (lookup_lt_is_Some_2 l (Z.to_nat i)) as [x Hx]; [lia|].
  exists x. split; [apply aget_Ok; split; [lia|done]|done].
Qed.

Lemma aset_in_range {A} (l : list A) i x :
  0 <= i < Z.of_nat (length l) → aset l i x = Ok (<[Z.to_nat i := x]> l).
Proof. intros Hi. unfold aset. apply in_range_true in Hi. by rewrite Hi. Qed.

Lemma aset_Ok {A} (l : list A) i x l' :
  aset l i x = Ok l' → 0 <= i < Z.of_nat (length l) ∧ l' = <[Z.to_nat i := x]> l.
Proof.
  unfold aset. destruct (in_range _ _) eqn:E; [|done].
  apply in_range_true in E as Hi. intros. by simplify_eq.
Qed.

Lemma length_blit {A} (l : list A) off src :
  (off + length src <= length l)%nat → length (blit l off src) = length l.
Proof. intros. unfold blit. rewrite !length_app, length_take, length_drop. lia. Qed.

Lemma lookup_blit {A} (l : list A) off src i :
  (off + length src <= length l)%nat →
  blit l off src !! i =
    if decide (off <= i < off + length src)%nat then src !! (i - off)%nat else l !! i.
Proof.
  intros Hle. unfold blit. case_decide as Hi.
  - rewrite lookup_app_r; rewrite length_take; [|lia].
    rewrite lookup_app_l by lia. f_equal; lia.
  - destruct (decide (i < off)%nat).
    + rewrite lookup_app_l by (rewrite length_take; lia). apply lookup_take_lt. lia.
    + rewrite lookup_app_r; rewrite length_take; [|lia].
      rewrite lookup_app_r by lia. rewrite lookup_drop. f_equal. lia.
Qed.

Lemma bytes_at_length {A} (l : list A) off n :
  0 <= off → 0 <= n → off + n <= Z.of_nat (length l) →
  length (bytes_at l off n) = Z.to_nat n.
Proof. intros. unfold bytes_at. rewrite length_take, length_drop. lia. Qed.

Lemma lookup_bytes_at {A} (l : list A) off n i :
  0 <= off → (i < Z.to_nat n)%nat →
  bytes_at l off n !! i = l !! (Z.to_nat off + i)%nat.
Proof. intros. unfold bytes_at. rewrite lookup_take_lt, lookup_drop by lia. done. Qed.

(** ** Lemmas on machine integers *)

Lemma u32_range z : 0 <= u32 z < 2 ^ 32.
Proof. apply Z.mod_pos_bound. lia. Qed.

Lemma s32_range z : int32 (s32 z).
Proof.
  unfold int32, s32. pose proof (Z.mod_pos_bound (z + 2 ^ 31) (2 ^ 32)). lia.
Qed.

Lemma s32_id z : int32 z → s32 z = z.
Proof. unfold int32, s32. intros. rewrite Z.mod_small; lia. Qed.

Lemma u32_id z : 0 <= z < 2 ^ 32 → u32 z = z.
Proof. apply Z.mod_small. Qed.

Lemma s32_eqm z : ∃ k, s32 z = z + k * 2 ^ 32.
Proof.
  exists (- ((z + 2 ^ 31) / 2 ^ 32)). unfold s32.
  rewrite Z.mod_eq by lia. lia.
Qed.

Lemma u32_eqm z : ∃ k, u32 z = z + k * 2 ^ 32.
Proof. exists (- (z / 2 ^ 32)). unfold u32. rewrite Z.mod_eq by lia. lia. Qed.

Lemma u32_add_mul z k : u32 (z + k * 2 ^ 32) = u32 z.
Proof. apply Z.mod_add. lia. Qed.

Lemma s32_add_mul z k : s32 (z + k * 2 ^ 32) = s32 z.
Proof.
  unfold s32. replace (z + k * 2 ^ 32 + 2 ^ 31) with (z + 2 ^ 31 + k * 2 ^ 32) by lia.
  rewrite Z.mod_add; lia.
Qed.

Lemma s32_u32 z : s32 (u32 z) = s32 z.
Proof. destruct (u32_eqm z) as [k ->]. apply s32_add_mul. Qed.

Lemma u32_s32 z : u32 (s32 z) = u32 z.
Proof. destruct (s32_eqm z) as [k ->]. apply u32_add_mul. Qed.

(** A value read as unsigned is the value itself, or itself plus 2^32. *)
Lemma u32_of_int32 z : int32 z → u32 z = if 0 <=? z then z else z + 2 ^ 32.
Proof.
  unfold int32, u32. intros. destruct (Z.leb_spec 0 z).
  - apply Z.mod_small. lia.
  - rewrite <- (Z.mod_add z 1) by lia. apply Z.mod_small. lia.
Qed.

Lemma s32_of_u32 z : 0 <= z < 2 ^ 32 → s32 z = if z <? 2 ^ 31 then z else z - 2 ^ 32.
Proof.
  unfold s32. intros. destruct (Z.ltb_spec z (2 ^ 31)).
  - rewrite Z.mod_small; lia.
  - rewrite <- (Z.mod_add _ (-1)) by lia. rewrite Z.mod_small; lia.
Qed.

Lemma schar_range z : - 128 <= schar z < 128.
Proof. unfold schar. pose proof (Z.mod_pos_bound (z + 128) 256). lia. Qed.

Lemma schar_int32 z : int32 (schar z).
Proof. pose proof (schar_range z). unfold int32. lia. Qed.

Lemma divRoundUp_spec n s :
  0 <= n → 0 < s → divRoundUp n s = (n + s - 1) / s.
Proof.
  intros Hn Hs. unfold divRoundUp.
  rewrite Z.quot_div_nonneg, Z.rem_mod_nonneg by lia.
  pose proof (Z.div_mod n s). pose proof (Z.mod_pos_bound n s).
  destruct (Z.gtb_spec (n mod s) 0) as [Hm|Hm].
  - apply Z.div_unique with (n mod s - 1); lia.
  - apply Z.div_unique with (n mod s + s - 1); lia.
Qed.

(** Enough units: [divRoundUp n s] blocks of [s] hold [n], one fewer does not. *)
Lemma divRoundUp_bounds n s :
  0 <= n → 0 < s → n <= divRoundUp n s * s < n + s.
Proof.
  intros. rewrite divRoundUp_spec by lia.
  pose proof (Z.div_mod (n + s - 1) s). pose proof (Z.mod_pos_bound (n + s - 1) s). lia.
Qed.

(** ** Bits *)

Lemma testbit_u32 z n : 0 <= n < 32 → Z.testbit (u32 z) n = Z.testbit z n.
Proof. intros. unfold u32. apply Z.mod_pow2_bits_low. lia. Qed.

Lemma testbit_u32_high z n : 32 <= n → Z.testbit (u32 z) n = false.
Proof. intros. unfold u32. apply Z.mod_pow2_bits_high. lia. Qed.

Lemma testbit_31_neg z : int32 z → Z.testbit z 31 = (z <? 0).
Proof.
  intros Hz. unfold int32 in Hz. destruct (Z.ltb_spec z 0).
  - apply Z.testbit_true; [lia|].
    replace (z / 2 ^ 31) with (-1); [done|].
    apply Z.div_unique with (z + 2 ^ 31); lia.
  - apply Z.testbit_false; [lia|]. rewrite Z.div_small by lia. done.
Qed.

Lemma land_pow2_eqb z n : 0 <= n → (Z.land z (2 ^ n) =? 0) = negb (Z.testbit z n).
Proof.
  intros Hn. destruct (Z.testbit z n) eqn:E; simpl.
  - apply Z.eqb_neq. intros H. apply (f_equal (λ x, Z.testbit x n)) in H.
    rewrite Z.land_spec, Z.pow2_bits_true, E, Z.testbit_0_l in H by lia. done.
  - apply Z.eqb_eq. apply Z.bits_inj'. intros i Hi.
    rewrite Z.land_spec, Z.testbit_0_l, Z.pow2_bits_eqb by lia.
    destruct (Z.eqb_spec n i); subst; [by rewrite E|by rewrite andb_false_r].
Qed.

(** ** Sequences of indices *)

Lemma seqZ_split n i : 0 <= i < n → seqZ 0 n = seqZ 0 i ++ i :: seqZ (i + 1) (n - i - 1).
Proof.
  intros. replace n with (i + (n - i)) at 1 by lia. rewrite seqZ_app by lia.
  f_equal. rewrite seqZ_cons by lia. rewrite Z.add_0_l. unfold Z.succ, Z.pred.
  do 2 f_equal; lia.
Qed.

Lemma seqZ_split_inv n l1 x l2 :
  seqZ 0 n = l1 ++ x :: l2 → l1 = seqZ 0 x ∧ 0 <= x < n.
Proof.
  intros H.
  assert (Hx : seqZ 0 n !! length l1 = Some x).
  { rewrite H. by apply list_lookup_middle. }
  apply lookup_seqZ in Hx as [-> Hlt]. split; [|lia].
  assert (Hl : l1 = take (length l1) (seqZ 0 n)) by (rewrite H; by rewrite take_app_length).
  rewrite Hl at 1. apply list_eq. intros i.
  destruct (decide (i < length l1)%nat).
  - rewrite lookup_take_lt by lia. rewrite !lookup_seqZ_lt by lia. done.
  - rewrite lookup_take_ge by lia. symmetry. apply lookup_seqZ_ge. lia.
Qed.

(** A counted loop [for (i = 0; i < n; i++)] with an invariant on the index. *)
Lemma foldM_seqZ {A} (P : Z → A → Prop) (f : A → Z → outcome A) n acc :
  0 <= n → P 0 acc →
  (∀ i a, 0 <= i < n → P i a → ∃ a', f a i = Ok a' ∧ P (i + 1) a') →
  ∃ acc', foldM f acc (seqZ 0 n) = Ok acc' ∧ P n acc'.
Proof.
  intros Hn H0 Hstep.
  destruct (foldM_inv_pre (λ l a, P (Z.of_nat (length l)) a) f (seqZ 0 n) [] acc)
    as (acc' & Hf & HP); [done| |].
  - intros l1 x l2 a Hl HP. apply seqZ_split_inv in Hl as [-> Hx]. simpl in *.
    rewrite length_seqZ, Z2Nat.id in HP by lia.
    destruct (Hstep x a Hx HP) as (a' & Ha & HP'). exists a'. split; [done|].
    rewrite length_app, length_seqZ. simpl. replace (Z.of_nat (Z.to_nat x + 1)) with (x + 1) by lia. done.
  - exists acc'. simpl in HP. rewrite length_seqZ, Z2Nat.id in HP by lia. done.
Qed.

Lemma foldM_fmap {A B C} (f : A → B → outcome A) (g : C → B) acc l :
  foldM f acc (g <$> l) = foldM (λ a x, f a (g x)) acc l.
Proof. revert acc; induction l as [|x l IH]; intros acc; simpl; [done|]. by destruct (f acc (g x)). Qed.

(** The same for a loop [for (i = m; i < m + n; i++)]. *)
Lemma foldM_seqZ_from {A} (P : Z → A → Prop) (f : A → Z → outcome A) m n acc :
  0 <= n → P m acc →
  (∀ i a, m <= i < m + n → P i a → ∃ a', f a i = Ok a' ∧ P (i + 1) a') →
  ∃ acc', foldM f acc (seqZ m n) = Ok acc' ∧ P (m + n) acc'.
Proof.
  intros Hn H0 Hstep. replace (seqZ m n) with (Z.add m <$> seqZ 0 n)
    by (rewrite fmap_add_seqZ; f_equal; lia).
  rewrite foldM_fmap. apply (foldM_seqZ (λ i a, P (m + i) a)); [done|by rewrite Z.add_0_r|].
  intros i a Hi HP. destruct (Hstep (m + i) a) as (a' & Hf & HP'); [lia|done|].
  exists a'. split; [done|]. by rewrite Z.add_assoc.
Qed.

(** ** Filters *)

Lemma filter_none {A} (P : A → Prop) `{!∀ x, Decision (P x)} (l : list A) :
  Forall (λ x, ¬ P x) l → filter P l = [].
Proof. induction 1; [done|]. by rewrite filter_cons_False. Qed.

Lemma filter_all {A} (P : A → Prop) `{!∀ x, Decision (P x)} (l : list A) :
  Forall P l → filter P l = l.
Proof. induction 1 as [|x l Hx _ IH]; [done|]. by rewrite filter_cons_True, IH. Qed.

(** ** Automation *)

Create HintDb nachos.
Create Rewrite HintDb nachos.
#[export] Hint Resolve u32_range s32_range schar_int32 schar_range : nachos.
#[export] Hint Rewrite s32_u32 u32_s32 : nachos.

(** Split on every boolean integer test of the goal or a hypothesis. *)
Ltac case_Z :=
  repeat match goal with
  | |- context [ (?a <=? ?b)%Z ] => destruct (Z.leb_spec a b)
  | |- context [ (?a <? ?b)%Z ] => destruct (Z.ltb_spec a b)
  | |- context [ (?a =? ?b)%Z ] => destruct (Z.eqb_spec a b)
  | |- context [ (?a >? ?b)%Z ] => destruct (Z.gtb_spec a b)
  | |- context [ (?a >=? ?b)%Z ] => destruct (Z.geb_spec a b)
  end.

(** Invert a chain of binds that returned. *)
Ltac inv_ok :=
  repeat match goal with
  | H : mbind _ _ = Ok _ |- _ =>
      let a := fresh "a" in let Ha := fresh "Ha" in
      apply bind_Ok_inv in H as (a & Ha & H)
  | H : Ok _ = Ok _ |- _ => injection H as H
  | H : ASSERT ?b = Ok _ |- _ =>
      let Hb := fresh "Hassert" in
      destruct b eqn:Hb; simpl in H; [clear H|discriminate H]
  | H : Aborted = Ok _ |- _ => discriminate H
  | H : Halted = Ok _ |- _ => discriminate H
  | H : Undef = Ok _ |- _ => discriminate H
  | H : NoFuel = Ok _ |- _ => discriminate H
  end.

(** Run one step of a computation: [Hr : r = (m ≫= f) s] with [H : m s = Ok _]
    (or with [H : o = Ok _] where [m] is [st_lift o]); [H] is used up. *)
Ltac st_run Hr H :=
  first [ apply (λ e, eq_trans e (st_bind_eq _ _ _ _ _ H)) in Hr
        | apply (λ e, eq_trans e (st_lift_bind _ _ _ _ H)) in Hr ];
  clear H; cbv beta iota in Hr.
