(* ===== verification/Bytes.v ===== *)
(** * Byte representation of integers

    Nachos moves integers between memory, registers and disk sectors by
    casting pointers, on a little-endian host (HOST_i386).  A byte is an
    integer in [0, 256); a word is stored least significant byte first. *)

From Stdlib Require Import ZArith Lia.
From S2P Require Import Prelude.

Local Open Scope Z_scope.

Definition byte (b : Z) : Prop := 0 <= b < 256.

(** The [n] bytes of [w], least significant first. *)
Fixpoint le_split (n : nat) (w : Z) : list Z :=
  match n with
  | O => []
  | S n => w mod 256 :: le_split n (w / 256)
  end.

(** The unsigned value of a sequence of bytes, least significant first. *)
Fixpoint le_combine (bs : list Z) : Z :=
  match bs with
  | [] => 0
  | b :: bs => b + 256 * le_combine bs
  end.

(** An array of 32-bit words seen as bytes, and back. *)
Definition words_to_bytes (ws : list Z) : list Z := ws ≫= le_split 4.

Fixpoint bytes_to_words (n : nat) (bs : list Z) : list Z :=
  match n with
  | O => []
  | S n => le_combine (take 4 bs) :: bytes_to_words n (drop 4 bs)
  end.

(** ** Lemmas *)

Lemma le_split_length n w : length (le_split n w) = n.
Proof. revert w; induction n; intros; simpl; auto. Qed.

Lemma le_split_bytes n w : Forall byte (le_split n w).
Proof.
  revert w; induction n; intros w; simpl; constructor; auto.
  unfold byte. apply Z.mod_pos_bound. lia.
Qed.

Lemma le_combine_range bs :
  Forall byte bs → 0 <= le_combine bs < 2 ^ (8 * Z.of_nat (length bs)).
Proof.
  induction 1 as [|b bs Hb _ IH]; simpl length; [simpl; lia|].
  rewrite Nat2Z.inj_succ, Z.mul_succ_r, Z.pow_add_r by lia.
  change (2 ^ 8) with 256. unfold byte in Hb. simpl le_combine. lia.
Qed.

Lemma le_combine_split n w :
  0 <= w < 2 ^ (8 * Z.of_nat n) → le_combine (le_split n w) = w.
Proof.
  revert w; induction n as [|n IH]; intros w Hw; [simpl in *; lia|].
  simpl le_split. simpl le_combine.
  rewrite Nat2Z.inj_succ, Z.mul_succ_r, Z.pow_add_r in Hw by lia.
  change (2 ^ 8) with 256 in Hw. rewrite IH.
  - pose proof (Z.div_mod w 256). lia.
  - split; [apply Z.div_pos; lia|]. apply Z.div_lt_upper_bound; lia.
Qed.

Lemma le_split_combine bs :
  Forall byte bs → le_split (length bs) (le_combine bs) = bs.
Proof.
  induction 1 as [|b bs Hb _ IH]; simpl; [done|]. unfold byte in Hb.
  rewrite (Z.mul_comm 256), Z.mod_add, Z.mod_small, Z.div_add, Z.div_small by lia.
  by rewrite Z.add_0_l, IH.
Qed.

Lemma words_to_bytes_length ws : length (words_to_bytes ws) = (4 * length ws)%nat.
Proof.
  induction ws as [|w ws IH]; [done|]. unfold words_to_bytes in *.
  rewrite bind_cons, length_app, IH, le_split_length. simpl. lia.
Qed.

Lemma words_to_bytes_bytes ws : Forall byte (words_to_bytes ws).
Proof.
  induction ws as [|w ws IH]; [constructor|]. unfold words_to_bytes in *.
  rewrite bind_cons. apply Forall_app. split; [apply le_split_bytes|done].
Qed.

Lemma bytes_to_words_length n bs : length (bytes_to_words n bs) = n.
Proof. revert bs; induction n; intros; simpl; auto. Qed.

(** Storing an array of words and loading it again gives the array. *)
Lemma bytes_words_roundtrip ws :
  Forall (λ w, 0 <= w < 2 ^ 32) ws →
  bytes_to_words (length ws) (words_to_bytes ws) = ws.
Proof.
  induction 1 as [|w ws Hw _ IH]; [done|].
  unfold words_to_bytes in *. rewrite bind_cons. cbn [bytes_to_words length].
  rewrite take_app_le, drop_app_le by (rewrite le_split_length; lia).
  rewrite take_ge, drop_ge by (rewrite le_split_length; lia).
  rewrite app_nil_l, IH. f_equal. apply le_combine_split. simpl. lia.
Qed.

Lemma bytes_to_words_range n bs :
  Forall byte bs → (4 * n <= length bs)%nat →
  Forall (λ w, 0 <= w < 2 ^ 32) (bytes_to_words n bs).
Proof.
  revert bs; induction n as [|n IH]; intros bs Hb Hlen; simpl; [constructor|].
  assert (Ht : Forall byte (take 4 bs)) by (by apply Forall_take).
  constructor.
  - pose proof (le_combine_range _ Ht) as Hr. rewrite length_take in Hr.
    replace (4 `min` length bs)%nat with 4%nat in Hr by lia. done.
  - apply IH; [by apply Forall_drop|rewrite length_drop; lia].
Qed.

(** Loading words from bytes and storing them again gives the bytes. *)
Lemma words_bytes_roundtrip n bs :
  Forall byte bs → length bs = (4 * n)%nat →
  words_to_bytes (bytes_to_words n bs) = bs.
Proof.
  revert bs; induction n as [|n IH]; intros bs Hb Hlen.
  { by destruct bs. }
  unfold words_to_bytes in *. cbn [bytes_to_words]. rewrite bind_cons, IH.
  - assert (Ht : length (take 4 bs) = 4%nat) by (rewrite length_take; lia).
    replace (le_split 4 (le_combine (take 4 bs)))
      with (le_split (length (take 4 bs)) (le_combine (take 4 bs))) by (by rewrite Ht).
    rewrite le_split_combine by (by apply Forall_take). apply take_drop.
  - by apply Forall_drop.
  - rewrite length_drop. lia.
Qed.

(** ** Memory from new: [uninit n] is what [new char[n]] holds before it is
    written; nothing is known of it but that it is [n] bytes. *)
Class Uninit := {
  uninit : Z → list Z;
  uninit_length n : length (uninit n) = Z.to_nat n;
  uninit_bytes n : Forall byte (uninit n);
}.

(** One such memory, for examples. *)
#[export, refine] Instance uninit_zero : Uninit | 100 := {
  uninit n := replicate (Z.to_nat n) 0;
}.
Proof.
  - intros n. apply length_replicate.
  - intros n. apply Forall_replicate. unfold byte. lia.
Defined.
