(* ===== verification/NList.v ===== *)
(** * threads/list.cc: the singly linked list with keys

    The list is modelled at the level of its pointers: a heap of
    [ListElement]s, the [List] header with its [first] and [last] pointers, and
    one definition per member function.  The abstract list of the section
    [Spec] (a sequence of key/item pairs) is what the clients of the list
    (scheduler, semaphores, pending interrupts) compute with; the theorems at
    the end show that every pointer operation implements it. *)

From Stdlib Require Import ZArith Lia Sorting.Sorted Lists.List.
From stdpp Require Import sorting.
From S2P Require Import Prelude.

Local Open Scope Z_scope.

(** ** The heap and the two classes of threads/list.h *)

Definition loc := positive.

(** class ListElement: next, key and item; a "void *" is an address, NULL is 0. *)
Record ListElement := mkListElement {
  next : option loc;
  key : Z;
  item : Z;
}.

Abbreviation heap := (gmap loc ListElement).

(** class List: first and last, NULL for an empty list. *)
Record List := mkList {
  List_first : option loc;
  List_last : option loc;
}.

(** Reading through a pointer: NULL and dangling pointers are undefined. *)
Definition deref (h : heap) (p : option loc) : outcome ListElement :=
  match p with
  | Some q => match h !! q with Some e => Ok e | None => Undef end
  | None => Undef
  end.

(** p->next = n *)
Definition store_next (h : heap) (p : option loc) (n : option loc) : outcome heap :=
  match p with
  | Some q => match h !! q with
              | Some e => Ok (<[q := mkListElement n (key e) (item e)]> h)
              | None => Undef
              end
  | None => Undef
  end.

(** ** Member functions *)

(** new ListElement(itemPtr, sortKey): next starts as NULL. *)
Definition new_ListElement (itemPtr sortKey : Z) (h : heap) : loc * heap :=
  let e := fresh (dom h) in (e, <[e := mkListElement None sortKey itemPtr]> h).

Definition List_new : List := mkList None None.

Definition IsEmpty (l : List) : bool :=
  match List_first l with None => true | Some _ => false end.

Definition Append (l : List) (itemPtr : Z) (h : heap) : outcome (List * heap) :=
  let '(element, h) := new_ListElement itemPtr 0 h in
  if IsEmpty l then Ok (mkList (Some element) (Some element), h)
  else
    h ← store_next h (List_last l) (Some element);
    Ok (mkList (List_first l) (Some element), h).

Definition Prepend (l : List) (itemPtr : Z) (h : heap) : outcome (List * heap) :=
  let '(element, h) := new_ListElement itemPtr 0 h in
  if IsEmpty l then Ok (mkList (Some element) (Some element), h)
  else
    h ← store_next h (Some element) (List_first l);
    Ok (mkList (Some element) (List_last l), h).

(** The search loop of SortedInsert: the element to insert after, or None when
    the walk reaches the last element.  [fuel] bounds the length of the walk. *)
Fixpoint find_pos (fuel : nat) (h : heap) (ptr : option loc) (sortKey : Z)
  : outcome (option loc) :=
  match fuel with
  | O => NoFuel
  | S fuel =>
      e ← deref h ptr;
      match next e with
      | None => Ok None
      | Some n =>
          en ← deref h (Some n);
          if sortKey <? key en then Ok ptr
          else find_pos fuel h (Some n) sortKey
      end
  end.

Definition SortedInsert (l : List) (itemPtr sortKey : Z) (h : heap)
  : outcome (List * heap) :=
  let '(element, h) := new_ListElement itemPtr sortKey h in
  if IsEmpty l then Ok (mkList (Some element) (Some element), h)
  else
    efirst ← deref h (List_first l);
    if sortKey <? key efirst then
      h ← store_next h (Some element) (List_first l);
      Ok (mkList (Some element) (List_last l), h)
    else
      pos ← find_pos (size h) h (List_first l) sortKey;
      match pos with
      | Some ptr =>
          ep ← deref h (Some ptr);
          h ← store_next h (Some element) (next ep);
          h ← store_next h (Some ptr) (Some element);
          Ok (l, h)
      | None =>
          h ← store_next h (List_last l) (Some element);
          Ok (mkList (List_first l) (Some element), h)
      end.

(** SortedRemove(&key): the item (NULL when the list is empty), the key stored
    through the pointer (nothing is stored when the list is empty). *)
Definition SortedRemove (l : List) (h : heap)
  : outcome ((Z * option Z) * (List * heap)) :=
  if IsEmpty l then Ok ((0, None), (l, h))
  else
    element ← deref h (List_first l);
    let thing := item element in
    let l' := if decide (List_first l = List_last l) then mkList None None
              else mkList (next element) (List_last l) in
    match List_first l with
    | Some e => Ok ((thing, Some (key element)), (l', delete e h))
    | None => Undef
    end.

Definition Remove (l : List) (h : heap) : outcome (Z * (List * heap)) :=
  r ← SortedRemove l h; Ok (r.1.1, r.2).

(** Mapcar(func): func, as a state transformer, applied to each item in order. *)
Fixpoint Mapcar_loop {S} (fuel : nat) (func : S → Z → S) (h : heap) (s : S)
    (ptr : option loc) : outcome S :=
  match fuel with
  | O => NoFuel
  | S fuel =>
      match ptr with
      | None => Ok s
      | Some _ => e ← deref h ptr; Mapcar_loop fuel func h (func s (item e)) (next e)
      end
  end.

Definition Mapcar {S} (func : S → Z → S) (s : S) (l : List) (h : heap) : outcome S :=
  Mapcar_loop (Datatypes.S (size h)) func h s (List_first l).

(** ~List: while (Remove() != NULL) ; *)
Fixpoint List_delete_loop (fuel : nat) (l : List) (h : heap) : outcome (List * heap) :=
  match fuel with
  | O => NoFuel
  | S fuel =>
      r ← Remove l h;
      if r.1 =? 0 then Ok r.2 else List_delete_loop fuel r.2.1 r.2.2
  end.

Definition List_delete (l : List) (h : heap) : outcome (List * heap) :=
  List_delete_loop (S (size h)) l h.

Arguments store_next _ _ _ : simpl never.

(** ** What the list represents *)

Section Spec.
Context {A : Type}.

(** The position SortedInsert promises: before the first larger key, so after
    every element with the same key. *)
Fixpoint sorted_insert (k : Z) (x : A) (xs : list (Z * A)) : list (Z * A) :=
  match xs with
  | [] => [(k, x)]
  | (k', x') :: xs' =>
      if k <? k' then (k, x) :: xs else (k', x') :: sorted_insert k x xs'
  end.

Definition key_le (a b : Z * A) : Prop := a.1 <= b.1.

Abbreviation sorted := (StronglySorted key_le).

Lemma sorted_insert_perm k x xs : sorted_insert k x xs ≡ₚ (k, x) :: xs.
Proof.
  induction xs as [|[k' x'] xs IH]; simpl; [done|].
  destruct (k <? k'); [done|]. rewrite IH. constructor.
Qed.

Lemma sorted_insert_head k k' x x' xs :
  sorted ((k', x') :: xs) → k < k' → sorted ((k, x) :: (k', x') :: xs).
Proof.
  intros Hs Hk. apply StronglySorted_inv in Hs as Hs'. destruct Hs' as [_ Hall].
  constructor; [done|]. constructor; [unfold key_le; simpl; lia|].
  eapply Forall_impl; [exact Hall|]. unfold key_le. intros []; simpl; lia.
Qed.

Lemma sorted_insert_sorted k x xs : sorted xs → sorted (sorted_insert k x xs).
Proof.
  induction xs as [|[k' x'] xs IH]; simpl; intros Hs; [repeat constructor|].
  destruct (Z.ltb_spec k k'); [by apply sorted_insert_head|].
  apply StronglySorted_inv in Hs as [Hs Hall]. constructor; [auto|].
  rewrite Forall_forall in Hall |- *. intros y. rewrite sorted_insert_perm.
  rewrite elem_of_cons. intros [->|Hy]; [unfold key_le; simpl; lia|auto].
Qed.

(** First in, first out among equal keys. *)
Lemma sorted_insert_stable k x xs :
  sorted xs →
  filter (λ e, e.1 = k) (sorted_insert k x xs) = filter (λ e, e.1 = k) xs ++ [(k, x)].
Proof.
  induction xs as [|[k' x'] xs IH]; simpl; intros Hs.
  { rewrite filter_cons_True; [done|done]. }
  apply StronglySorted_inv in Hs as [Hs Hall]. destruct (Z.ltb_spec k k').
  - assert (Hno : filter (λ e, e.1 = k) ((k', x') :: xs) = []).
    { apply filter_none. constructor; [simpl; lia|].
      eapply Forall_impl; [exact Hall|]. unfold key_le. intros []; simpl; lia. }
    rewrite Hno, filter_cons_True by done. by rewrite Hno.
  - destruct (decide (k' = k)) as [->|Hne].
    + rewrite !filter_cons_True by done. by rewrite IH.
    + rewrite !filter_cons_False by done. by apply IH.
Qed.

End Spec.

(** [lseg h ls xs n]: the elements at [ls] hold [xs] in order, each points to
    the one behind it and the last one to [n]. *)
Definition hd_or (ls : list loc) (n : option loc) : option loc :=
  match ls with [] => n | p :: _ => Some p end.

Fixpoint lseg (h : heap) (ls : list loc) (xs : list (Z * Z)) (n : option loc) : Prop :=
  match ls, xs with
  | [], [] => True
  | p :: ls', (k, x) :: xs' =>
      h !! p = Some (mkListElement (hd_or ls' n) k x) ∧ lseg h ls' xs' n
  | _, _ => False
  end.

(** The list header [l] represents the sequence [xs], stored at [ls]. *)
Record repr (h : heap) (l : List) (ls : list loc) (xs : list (Z * Z)) : Prop := {
  repr_seg : lseg h ls xs None;
  repr_nodup : NoDup ls;
  repr_first : List_first l = head ls;
  repr_last : List_last l = last ls;
}.

(** An operation leaves every other element of the heap as it is. *)
Definition frame (h h' : heap) (ls : list loc) : Prop :=
  ∀ q, q ∉ ls → h' !! q = h !! q.

Lemma lseg_length h ls xs n : lseg h ls xs n → length ls = length xs.
Proof.
  revert xs; induction ls as [|p ls IH]; intros [|[k x] xs]; simpl; try done.
  intros [_ H]. f_equal. by apply IH.
Qed.

Lemma lseg_app h l1 l2 x1 x2 n :
  length l1 = length x1 →
  lseg h (l1 ++ l2) (x1 ++ x2) n ↔ lseg h l1 x1 (hd_or l2 n) ∧ lseg h l2 x2 n.
Proof.
  revert x1; induction l1 as [|p l1 IH]; intros [|[k x] x1]; simpl; try done.
  { intros _. tauto. }
  intros Hlen. rewrite IH by lia.
  replace (hd_or (l1 ++ l2) n) with (hd_or l1 (hd_or l2 n)) by (by destruct l1).
  tauto.
Qed.

Lemma lseg_frame h h' ls xs n :
  (∀ q, q ∈ ls → h' !! q = h !! q) → lseg h ls xs n → lseg h' ls xs n.
Proof.
  revert xs; induction ls as [|p ls IH]; intros [|[k x] xs] Heq; simpl; try done.
  intros [Hp Hs]. split; [rewrite Heq; [done|set_solver]|].
  apply IH; [set_solver|done].
Qed.

Lemma lseg_dom h ls xs n : lseg h ls xs n → ∀ p, p ∈ ls → is_Some (h !! p).
Proof.
  revert xs; induction ls as [|q ls IH]; intros [|[k x] xs]; simpl; try done.
  { intros _ p Hp. set_solver. }
  intros [Hq Hs] p [->|Hp]%elem_of_cons; [rewrite Hq; eauto|]. by eapply IH.
Qed.

Lemma lseg_size h ls xs n : NoDup ls → lseg h ls xs n → (length ls <= size h)%nat.
Proof.
  intros Hnd Hs. rewrite <- (size_list_to_set (C:=gset loc)) by done.
  rewrite <- size_dom. apply subseteq_size. intros p Hp.
  apply elem_of_list_to_set in Hp. apply elem_of_dom. by eapply lseg_dom.
Qed.

Lemma fresh_not_in h ls xs n : lseg h ls xs n → fresh (dom h) ∉ ls.
Proof.
  intros Hs Hin. eapply lseg_dom in Hs; [|exact Hin].
  apply elem_of_dom in Hs. by apply (is_fresh (dom h)) in Hs.
Qed.

Lemma fresh_None (h : heap) : h !! fresh (dom h) = None.
Proof. apply not_elem_of_dom. apply is_fresh. Qed.

Lemma repr_IsEmpty h l ls xs : repr h l ls xs → IsEmpty l = true ↔ xs = [].
Proof.
  intros [Hs _ Hf _]. unfold IsEmpty. rewrite Hf. apply lseg_length in Hs.
  destruct ls, xs; simpl in *; try done.
Qed.

Lemma head_app_some {B} (l1 l2 : list B) : l1 ≠ [] → head (l1 ++ l2) = head l1.
Proof. by destruct l1. Qed.

Lemma hd_or_snoc l1 (p : loc) n : hd_or (l1 ++ [p]) n = hd_or l1 (Some p).
Proof. by destruct l1. Qed.

(** Appending a fresh element behind the last one. *)
Lemma lseg_snoc h ls xs k x e p kp xp :
  lseg h (ls ++ [p]) (xs ++ [(kp, xp)]) None →
  NoDup (ls ++ [p]) → e ∉ ls ++ [p] → length ls = length xs →
  lseg (<[p := mkListElement (Some e) kp xp]> (<[e := mkListElement None k x]> h))
    ((ls ++ [p]) ++ [e]) ((xs ++ [(kp, xp)]) ++ [(k, x)]) None.
Proof.
  intros Hs Hnd He Hlen. apply NoDup_app in Hnd as (Hnd & Hdis & _).
  assert (e ≠ p) by set_solver.
  apply lseg_app in Hs as [Hs Hp]; [|done].
  rewrite <- !app_assoc. apply lseg_app; [done|]. split.
  - simpl. eapply lseg_frame; [|exact Hs]. intros q Hq.
    rewrite !lookup_insert_ne; set_solver.
  - simpl. split; [by rewrite lookup_insert_eq|]. split; [|done].
    rewrite lookup_insert_ne by done. by rewrite lookup_insert_eq.
Qed.

Lemma last_snoc_inv {B} (l : list B) x : last l = Some x → ∃ l', l = l' ++ [x].
Proof. intros H. by apply last_Some in H. Qed.

(** Non-empty lists split off their last element on both sides. *)
Lemma repr_last_inv h l ls xs :
  repr h l ls xs → xs ≠ [] →
  ∃ ls' p xs' kp xp, ls = ls' ++ [p] ∧ xs = xs' ++ [(kp, xp)] ∧
    length ls' = length xs' ∧ List_last l = Some p.
Proof.
  intros [Hs _ _ Hl] Hne. apply lseg_length in Hs.
  destruct (exists_last Hne) as (xs' & [kp xp] & ->).
  assert (Hls : ls ≠ []) by (destruct ls; [rewrite length_app in Hs; simpl in Hs; lia|done]).
  destruct (exists_last Hls) as (ls' & p & ->).
  rewrite last_snoc in Hl. rewrite !length_app in Hs; simpl in Hs.
  exists ls', p, xs', kp, xp. repeat split; [lia|done].
Qed.

(** The state after the new element is linked behind the last one. *)
Lemma repr_snoc h l ls xs k x e p kp xp :
  repr h l (ls ++ [p]) (xs ++ [(kp, xp)]) → length ls = length xs →
  e ∉ ls ++ [p] →
  repr (<[p := mkListElement (Some e) kp xp]> (<[e := mkListElement None k x]> h))
    (mkList (List_first l) (Some e)) ((ls ++ [p]) ++ [e])
    ((xs ++ [(kp, xp)]) ++ [(k, x)]).
Proof.
  intros [Hs Hnd Hf Hl] Hlen He. split; simpl.
  - by apply lseg_snoc.
  - apply NoDup_app. split; [done|]. split; [set_solver|apply NoDup_singleton].
  - rewrite Hf. rewrite (head_app_some (ls ++ [p])); [done|by destruct ls].
  - by rewrite last_snoc.
Qed.

(** The new element alone in an empty list. *)
Lemma repr_single h k x :
  repr (<[fresh (dom h) := mkListElement None k x]> h)
    (mkList (Some (fresh (dom h))) (Some (fresh (dom h)))) [fresh (dom h)] [(k, x)].
Proof.
  split; simpl; [by rewrite lookup_insert_eq|apply NoDup_singleton|done|done].
Qed.

(** The new element before the first one. *)
Lemma repr_cons h l ls xs k x e p :
  repr h l ls xs → List_first l = Some p → e ∉ ls →
  repr (<[e := mkListElement (Some p) k x]> (<[e := mkListElement None k x]> h))
    (mkList (Some e) (List_last l)) (e :: ls) ((k, x) :: xs).
Proof.
  intros [Hs Hnd Hf Hl] Hp He. rewrite Hf in Hp.
  destruct ls as [|p' ls]; simplify_eq/=.
  rewrite insert_insert_eq. split.
  - split; [by rewrite lookup_insert_eq|]. eapply lseg_frame; [|exact Hs].
    intros q Hq. rewrite lookup_insert_ne; set_solver.
  - by constructor.
  - done.
  - by rewrite Hl.
Qed.

Lemma store_next_insert h e k x n n' :
  store_next (<[e := mkListElement n k x]> h) (Some e) n' =
    Ok (<[e := mkListElement n' k x]> (<[e := mkListElement n k x]> h)).
Proof. unfold store_next. by rewrite lookup_insert_eq. Qed.

(** Linking behind the last element of a represented list. *)
Lemma store_next_last h l ls xs e k x p kp xp :
  repr h l (ls ++ [p]) (xs ++ [(kp, xp)]) → length ls = length xs → e ∉ ls ++ [p] →
  store_next (<[e := mkListElement None k x]> h) (Some p) (Some e) =
    Ok (<[p := mkListElement (Some e) kp xp]> (<[e := mkListElement None k x]> h)).
Proof.
  intros [Hs _ _ _] Hlen He. apply lseg_app in Hs as [_ [Hp _]]; [|done].
  unfold store_next. rewrite lookup_insert_ne by set_solver. by rewrite Hp.
Qed.

Definition new_at (h h' : heap) (e : loc) : Prop := h !! e = None ∧ is_Some (h' !! e).

(** List::Append puts the item behind all others. *)
Lemma Append_spec h l ls xs x :
  repr h l ls xs →
  ∃ l' h' e, Append l x h = Ok (l', h') ∧ h !! e = None ∧ e ∉ ls ∧
    repr h' l' (ls ++ [e]) (xs ++ [(0, x)]) ∧ frame h h' (e :: ls).
Proof.
  intros Hr. pose proof (fresh_not_in _ _ _ _ (repr_seg _ _ _ _ Hr)) as He.
  pose proof (fresh_None h). unfold Append, new_ListElement.
  destruct (decide (xs = [])) as [->|Hne].
  - pose proof Hr as Hr'. apply repr_IsEmpty in Hr' as [_ ->]; [|done].
    pose proof (lseg_length _ _ _ _ (repr_seg _ _ _ _ Hr)). destruct ls; [|done].
    do 3 eexists. split; [done|]. split; [done|]. split; [done|].
    split; [apply repr_single|]. intros q Hq. rewrite lookup_insert_ne; set_solver.
  - destruct (IsEmpty l) eqn:E; [apply (repr_IsEmpty _ _ _ _ Hr) in E; done|].
    destruct (repr_last_inv _ _ _ _ Hr Hne) as (ls' & p & xs' & kp & xp & -> & -> & Hlen & Hl).
    rewrite Hl, (store_next_last _ _ _ _ _ _ _ _ _ _ Hr Hlen He). simpl.
    do 3 eexists. split; [done|]. split; [done|]. split; [done|].
    split; [by apply repr_snoc|]. intros q Hq. rewrite !lookup_insert_ne; set_solver.
Qed.

(** List::Prepend puts the item before all others. *)
Lemma Prepend_spec h l ls xs x :
  repr h l ls xs →
  ∃ l' h' e, Prepend l x h = Ok (l', h') ∧ h !! e = None ∧ e ∉ ls ∧
    repr h' l' (e :: ls) ((0, x) :: xs) ∧ frame h h' (e :: ls).
Proof.
  intros Hr. pose proof (fresh_not_in _ _ _ _ (repr_seg _ _ _ _ Hr)) as He.
  pose proof (fresh_None h). unfold Prepend, new_ListElement, IsEmpty.
  destruct (List_first l) as [p|] eqn:E.
  - rewrite store_next_insert. simpl.
    do 3 eexists. split; [done|]. split; [done|]. split; [done|].
    split; [by apply repr_cons|].
    intros q Hq. rewrite insert_insert_eq, lookup_insert_ne; set_solver.
  - assert (Hxs : xs = []) by (apply (repr_IsEmpty _ _ _ _ Hr); unfold IsEmpty; by rewrite E).
    subst xs. pose proof (lseg_length _ _ _ _ (repr_seg _ _ _ _ Hr)). destruct ls; [|done].
    do 3 eexists. split; [done|]. split; [done|]. split; [done|].
    split; [apply repr_single|]. intros q Hq. rewrite lookup_insert_ne; set_solver.
Qed.

(** The search loop finds the last element whose key is not larger. *)
Lemma find_pos_spec fuel h p ls kp xp xs k (x : Z) :
  lseg h (p :: ls) ((kp, xp) :: xs) None → (length ls < fuel)%nat →
  (find_pos fuel h (Some p) k = Ok None ∧ sorted_insert k x xs = xs ++ [(k, x)]) ∨
  (∃ l1 q q' l2 x1 kq xq x2,
     find_pos fuel h (Some p) k = Ok (Some q) ∧
     p :: ls = l1 ++ q :: q' :: l2 ∧ (kp, xp) :: xs = x1 ++ (kq, xq) :: x2 ∧
     length l1 = length x1 ∧
     (kp, xp) :: sorted_insert k x xs = x1 ++ (kq, xq) :: (k, x) :: x2).
Proof.
  revert p ls kp xp xs; induction fuel as [|fuel IH]; intros p ls kp xp xs; [lia|].
  intros [Hp Hs] Hf; simpl. rewrite Hp; simpl.
  destruct ls as [|p' ls], xs as [|[k' x'] xs]; simpl in Hs; try done; simpl.
  { left. auto. }
  destruct Hs as [Hp' Hs]. rewrite Hp'; simpl. destruct (Z.ltb_spec k k').
  - right. by exists [], p, p', ls, [], kp, xp, ((k', x') :: xs).
  - destruct (IH p' ls k' x' xs) as [[Hfp Hins]|H']; [done|simpl in *; lia| |].
    + left. split; [done|]. by rewrite Hins.
    + right. destruct H' as (l1 & q & q' & l2 & x1 & kq & xq & x2 & Hfp & Hl & Hx & Hlen & Hins).
      exists (p :: l1), q, q', l2, ((kp, xp) :: x1), kq, xq, x2.
      rewrite Hl, Hx, Hins. simpl. rewrite Hlen. auto.
Qed.

(** Linking the new element between two neighbours. *)
Lemma repr_middle h l l1 q q' l2 x1 kq xq x2 k x e :
  repr h l (l1 ++ q :: q' :: l2) (x1 ++ (kq, xq) :: x2) → length l1 = length x1 →
  e ∉ l1 ++ q :: q' :: l2 →
  let he := <[e := mkListElement None k x]> h in
  repr (<[q := mkListElement (Some e) kq xq]> (<[e := mkListElement (Some q') k x]> he))
    l (l1 ++ q :: e :: q' :: l2) (x1 ++ (kq, xq) :: (k, x) :: x2).
Proof.
  intros [Hs Hnd Hf Hl] Hlen He he. unfold he. rewrite insert_insert_eq.
  apply lseg_app in Hs as [H1 [Hq H2]]; [|done].
  apply NoDup_app in Hnd as (Hnd1 & Hdis & Hnd2).
  inversion_clear Hnd2 as [|? ? Hq2 Hnd3].
  assert (Hfr : ∀ r ls xs n, (∀ a, a ∈ ls → a ≠ e ∧ a ≠ q) → lseg h ls xs n →
    lseg (<[q := mkListElement (Some e) kq xq]> (<[e := r]> h)) ls xs n).
  { intros r ls xs n Hne. apply lseg_frame. intros a Ha.
    destruct (Hne a Ha). by rewrite !lookup_insert_ne. }
  split.
  - apply lseg_app; [done|]. split; [apply Hfr; [set_solver|done]|].
    split; [by rewrite lookup_insert_eq|]. split.
    { rewrite lookup_insert_ne by set_solver. by rewrite lookup_insert_eq. }
    apply Hfr; [set_solver|done].
  - apply NoDup_app. split; [done|]. split; [set_solver|].
    constructor; [set_solver|]. constructor; [set_solver|done].
  - rewrite Hf. by destruct l1.
  - rewrite Hl, !last_app. done.
Qed.

Lemma repr_frame_new h l ls xs e r :
  repr h l ls xs → e ∉ ls → repr (<[e := r]> h) l ls xs.
Proof.
  intros [Hs Hnd Hf Hl] He. split; [|done|done|done].
  eapply lseg_frame; [|exact Hs]. intros q Hq. rewrite lookup_insert_ne; set_solver.
Qed.

(** SortedInsert into a list whose first key is not larger: the search loop. *)
Lemma SortedInsert_walk h l p ls kp xp xs k x e :
  repr h l (p :: ls) ((kp, xp) :: xs) → e ∉ p :: ls → h !! e = None →
  let he := <[e := mkListElement None k x]> h in
  ∃ l' h' ls',
    (pos ← find_pos (size he) he (List_first l) k;
     match pos with
     | Some ptr =>
         ep ← deref he (Some ptr);
         h ← store_next he (Some e) (next ep);
         h ← store_next h (Some ptr) (Some e);
         Ok (l, h)
     | None =>
         h ← store_next he (List_last l) (Some e);
         Ok (mkList (List_first l) (Some e), h)
     end) = Ok (l', h') ∧
    repr h' l' ls' ((kp, xp) :: sorted_insert k x xs) ∧ ls' ≡ₚ e :: p :: ls ∧
    frame h h' (e :: p :: ls).
Proof.
  intros Hr He HeN he. pose proof (repr_frame_new _ _ _ _ _ (mkListElement None k x) Hr He) as Hrh.
  assert (Hsz : size he = S (size h)) by (by apply map_size_insert_None).
  pose proof (lseg_size _ _ _ _ (repr_nodup _ _ _ _ Hr) (repr_seg _ _ _ _ Hr)) as Hle.
  simpl in Hle. pose proof (repr_first _ _ _ _ Hr) as Hf. simpl in Hf. rewrite Hf.
  destruct (find_pos_spec (size he) he p ls kp xp xs k x) as [[Hfp Hins]|Hfp];
    [apply Hrh|lia| |].
  - rewrite Hfp; simpl.
    destruct (repr_last_inv _ _ _ _ Hr ltac:(done))
      as (ls' & q & xs' & kq & xq & Hls & Hxs & Hlen & Hl).
    rewrite Hl. unfold he. rewrite Hls, Hxs in Hr. rewrite Hls in He.
    rewrite (store_next_last _ _ _ _ _ _ _ _ _ _ Hr Hlen He). simpl.
    eexists _, _, _. split; [done|]. rewrite Hins, app_comm_cons, Hxs, <- Hf. split.
    { by apply repr_snoc. }
    split; [rewrite Hls; symmetry; apply Permutation_cons_append|].
    intros a Ha. rewrite Hls in Ha. rewrite !lookup_insert_ne; set_solver.
  - destruct Hfp as (l1 & q & q' & l2 & x1 & kq & xq & x2 & Hfp & Hls & Hxs & Hlen & Hins).
    rewrite Hfp; simpl. rewrite Hls, Hxs in Hr. rewrite Hls in He.
    pose proof (repr_seg _ _ _ _ Hr) as Hs. apply lseg_app in Hs as [_ [Hq _]]; [|done].
    simpl in Hq.
    assert (Hqe : he !! q = Some (mkListElement (Some q') kq xq)).
    { unfold he. rewrite lookup_insert_ne; [done|set_solver]. }
    rewrite Hqe; simpl. unfold he. rewrite store_next_insert; simpl.
    unfold store_next. rewrite !(lookup_insert_ne _ e q) by set_solver.
    rewrite Hq; simpl.
    eexists _, _, _. split; [done|]. rewrite Hins. split.
    { apply repr_middle; done. }
    split; [rewrite Hls; solve_Permutation|].
    intros a Ha. rewrite Hls in Ha. rewrite !lookup_insert_ne; set_solver.
Qed.

Lemma SortedInsert_spec h l ls xs x k :
  repr h l ls xs →
  ∃ l' h' e ls', SortedInsert l x k h = Ok (l', h') ∧ h !! e = None ∧
    repr h' l' ls' (sorted_insert k x xs) ∧ ls' ≡ₚ e :: ls ∧ frame h h' (e :: ls).
Proof.
  intros Hr. pose proof (fresh_not_in _ _ _ _ (repr_seg _ _ _ _ Hr)) as He.
  pose proof (fresh_None h) as HN. unfold SortedInsert, new_ListElement.
  set (e := fresh (dom h)) in *.
  pose proof (repr_seg _ _ _ _ Hr) as Hs. pose proof (repr_first _ _ _ _ Hr) as Hf.
  destruct ls as [|p ls], xs as [|[kp xp] xs]; simpl in Hs; try done.
  - unfold IsEmpty. rewrite Hf; simpl. exists (mkList (Some e) (Some e)). do 3 eexists.
    split; [done|]. split; [done|]. split; [apply repr_single|]. split; [done|].
    intros q Hq. rewrite lookup_insert_ne; set_solver.
  - unfold IsEmpty. rewrite Hf; simpl. destruct Hs as [Hp Hs].
    rewrite lookup_insert_ne by set_solver. rewrite Hp; simpl.
    destruct (Z.ltb_spec k kp) as [Hk|Hk].
    + rewrite store_next_insert; simpl. do 4 eexists.
      split; [done|]. split; [done|]. split; [by apply repr_cons|]. split; [done|].
      intros q Hq. rewrite insert_insert_eq, lookup_insert_ne; set_solver.
    + destruct (SortedInsert_walk h l p ls kp xp xs k x e) as (l' & h' & ls' & Heq & H1 & H2 & H3);
        [done|done|done|].
      rewrite Hf in Heq. simpl in Heq. rewrite Heq. eauto 10.
Qed.

(** SortedRemove takes the first element off. *)
Lemma SortedRemove_spec h l p ls k x xs :
  repr h l (p :: ls) ((k, x) :: xs) →
  ∃ l', SortedRemove l h = Ok ((x, Some k), (l', delete p h)) ∧
    repr (delete p h) l' ls xs.
Proof.
  intros [[Hp Hs] Hnd Hf Hl]. unfold SortedRemove, IsEmpty.
  rewrite Hf; simpl. rewrite Hp; simpl. eexists. split; [done|].
  inversion_clear Hnd as [|? ? Hnp Hnd'].
  assert (Hs' : lseg (delete p h) ls xs None).
  { eapply lseg_frame; [|exact Hs]. intros q Hq. rewrite lookup_delete_ne; set_solver. }
  rewrite Hl. case_decide as Hd.
  - destruct ls as [|q ls]; [by split|].
    exfalso. apply Hnp. apply last_Some_elem_of.
    rewrite last_cons in Hd. simpl in *. destruct (last (q :: ls)) eqn:E; [congruence|].
    by apply last_None in E.
  - split; simpl; [done|done|by destruct ls|].
    rewrite last_cons in Hl |- *. destruct ls as [|q ls]; [done|].
    by destruct (last (q :: ls)) eqn:E; [|apply last_None in E].
Qed.

Lemma SortedRemove_empty h l ls :
  repr h l ls [] → SortedRemove l h = Ok ((0, None), (l, h)).
Proof.
  intros Hr. unfold SortedRemove. apply repr_IsEmpty in Hr as [_ ->]; done.
Qed.

Lemma Mapcar_loop_spec {S} (func : S → Z → S) fuel h ls xs s :
  lseg h ls xs None → (length ls < fuel)%nat →
  Mapcar_loop fuel func h s (head ls) = Ok (foldl func s xs.*2).
Proof.
  revert ls xs s; induction fuel as [|fuel IH]; intros ls xs s Hs Hf; [lia|].
  destruct ls as [|p ls], xs as [|[k x] xs]; simpl in *; try done.
  destruct Hs as [Hp Hs]. rewrite Hp; simpl.
  specialize (IH ls xs (func s x) Hs ltac:(lia)). by destruct ls.
Qed.

Lemma List_delete_loop_spec fuel h l ls xs :
  repr h l ls xs → Forall (λ e, e.2 ≠ 0) xs → (length ls < fuel)%nat →
  ∃ h', List_delete_loop fuel l h = Ok (List_new, h') ∧
    (∀ q, q ∈ ls → h' !! q = None) ∧ frame h h' ls.
Proof.
  revert h l ls xs; induction fuel as [|fuel IH]; intros h l ls xs Hr Hnz Hf; [lia|].
  pose proof (lseg_length _ _ _ _ (repr_seg _ _ _ _ Hr)) as Hlen.
  destruct ls as [|p ls], xs as [|[k x] xs]; try done.
  - simpl. unfold Remove. rewrite (SortedRemove_empty _ _ _ Hr). simpl.
    exists h. destruct Hr as [_ _ H1 H2]. destruct l; simpl in *; subst.
    split; [done|]. split; [set_solver|done].
  - destruct (SortedRemove_spec _ _ _ _ _ _ _ Hr) as (l' & Hsr & Hr').
    inversion_clear Hnz as [|? ? Hx Hnz'].
    destruct (IH (delete p h) l' ls xs Hr' Hnz') as (h' & Hd & Hgone & Hfr);
      [simpl in *; lia|].
    simpl. unfold Remove. rewrite Hsr. simpl.
    destruct (Z.eqb_spec x 0); [done|]. exists h'. split; [done|].
    pose proof (repr_nodup _ _ _ _ Hr) as Hnd. inversion_clear Hnd as [|? ? Hnp _].
    split.
    + intros q [->|Hq]%elem_of_cons; [|by apply Hgone].
      rewrite Hfr by done. apply lookup_delete_eq.
    + intros q Hq. rewrite Hfr by set_solver. apply lookup_delete_ne. set_solver.
Qed.

(** ** Properties *)

(** C40: SortedInsert implements the stable sorted insertion at the level of the
    pointers: it returns (the walk over the list ends), the list afterwards
    represents the old elements with the new one placed behind every element
    whose key is not larger, it uses one fresh ListElement and writes no
    element of any other list, and it keeps a sorted list sorted with equal
    keys in order of arrival. *)
Theorem SortedInsert_refines h l ls xs x k :
  repr h l ls xs →
  ∃ l' h' e ls', SortedInsert l x k h = Ok (l', h') ∧ h !! e = None ∧
    repr h' l' ls' (sorted_insert k x xs) ∧ ls' ≡ₚ e :: ls ∧ frame h h' (e :: ls) ∧
    (StronglySorted key_le xs →
     StronglySorted key_le (sorted_insert k x xs) ∧
     filter (λ a, a.1 = k) (sorted_insert k x xs) = filter (λ a, a.1 = k) xs ++ [(k, x)]).
Proof.
  intros Hr. destruct (SortedInsert_spec _ _ _ _ x k Hr) as (l' & h' & e & ls' & H).
  destruct_and? H. exists l', h', e, ls'. split_and!; try done.
  auto using sorted_insert_sorted, sorted_insert_stable.
Qed.

(** A heap with the elements 1 -> 2 holding keys 3 and 7. *)
Definition demo_heap : heap :=
  {[ 1%positive := mkListElement (Some 2%positive) 3 30;
     2%positive := mkListElement None 7 70 ]}.

Definition demo_list : List := mkList (Some 1%positive) (Some 2%positive).

Lemma demo_repr : repr demo_heap demo_list [1%positive; 2%positive] [(3, 30); (7, 70)].
Proof.
  split; [by repeat split|apply (bool_decide_unpack _); vm_compute; exact I|done|done].
Defined.

Lemma SortedInsert_refines_witness :
  ∃ l' h' e ls', SortedInsert demo_list 50 5 demo_heap = Ok (l', h') ∧
    demo_heap !! e = None ∧ repr h' l' ls' [(3, 30); (5, 50); (7, 70)].
Proof.
  destruct (SortedInsert_refines demo_heap demo_list [1%positive; 2%positive]
              [(3, 30); (7, 70)] 50 5 demo_repr) as (l' & h' & e & ls' & H1 & H2 & H3 & _).
  exists l', h', e, ls'. auto.
Defined.

(** SortedRemove on a sorted list returns the first element with the
    smallest key, stores that key through keyPtr, frees exactly that
    ListElement and leaves the rest in order; on an empty list it returns NULL,
    stores nothing and changes nothing. *)
Theorem SortedRemove_refines h l ls xs :
  repr h l ls xs →
  match xs with
  | [] => SortedRemove l h = Ok ((0, None), (l, h))
  | (k, x) :: xs' =>
      ∃ p ls' l', ls = p :: ls' ∧
        SortedRemove l h = Ok ((x, Some k), (l', delete p h)) ∧
        repr (delete p h) l' ls' xs' ∧
        (StronglySorted key_le xs → Forall (λ e, k <= e.1) xs' ∧ StronglySorted key_le xs')
  end.
Proof.
  intros Hr. destruct xs as [|[k x] xs]; [by apply SortedRemove_empty with ls|].
  pose proof (lseg_length _ _ _ _ (repr_seg _ _ _ _ Hr)). destruct ls as [|p ls]; [done|].
  destruct (SortedRemove_spec _ _ _ _ _ _ _ Hr) as (l' & H1 & H2).
  exists p, ls, l'. split_and!; try done.
  intros [Hs Hall]%StronglySorted_inv. split; [|done].
  eapply Forall_impl; [exact Hall|]. done.
Qed.

Lemma SortedRemove_refines_witness :
  SortedRemove demo_list demo_heap =
    Ok ((30, Some 3), (mkList (Some 2%positive) (Some 2%positive), delete 1%positive demo_heap)).
Proof.
  destruct (SortedRemove_refines demo_heap demo_list [1%positive; 2%positive]
              [(3, 30); (7, 70)] demo_repr) as (p & ls' & l' & Hls & H & _).
  injection Hls as <- <-. rewrite H. vm_compute in H. injection H as <-. reflexivity.
Defined.

(** Append and Remove make a first-in-first-out queue, and Mapcar visits
    its items in queue order: what Append adds is returned by Remove after
    everything that was there before, no other list is touched, and the
    destructor frees all the ListElements (of a list that holds no NULL item,
    where "while (Remove() != NULL)" stops only at the end). *)
Theorem List_queue h l ls xs x :
  repr h l ls xs →
  (∃ l' h' e, Append l x h = Ok (l', h') ∧ repr h' l' (ls ++ [e]) (xs ++ [(0, x)]) ∧
     frame h h' (e :: ls)) ∧
  (∀ S (func : S → Z → S) s, Mapcar func s l h = Ok (foldl func s xs.*2)) ∧
  (∀ k y xs', xs = (k, y) :: xs' →
     ∃ p l' ls', Remove l h = Ok (y, (l', delete p h)) ∧ repr (delete p h) l' ls' xs') ∧
  (Forall (λ e, e.2 ≠ 0) xs →
     ∃ h', List_delete l h = Ok (List_new, h') ∧
       (∀ q, q ∈ ls → h' !! q = None) ∧ frame h h' ls).
Proof.
  intros Hr. pose proof (repr_seg _ _ _ _ Hr) as Hs.
  pose proof (lseg_size _ _ _ _ (repr_nodup _ _ _ _ Hr) Hs) as Hsz. split_and!.
  - destruct (Append_spec _ _ _ _ x Hr) as (l' & h' & e & H). destruct_and? H. eauto 10.
  - intros S func s. unfold Mapcar. rewrite (repr_first _ _ _ _ Hr).
    apply Mapcar_loop_spec; [done|lia].
  - intros k y xs' ->. pose proof (lseg_length _ _ _ _ Hs). destruct ls as [|p ls]; [done|].
    destruct (SortedRemove_spec _ _ _ _ _ _ _ Hr) as (l' & H1 & H2).
    exists p, l', ls. unfold Remove. rewrite H1. done.
  - intros Hnz. apply List_delete_loop_spec with xs; [done|done|lia].
Qed.

Lemma List_queue_witness :
  ∃ h', List_delete demo_list demo_heap = Ok (List_new, h') ∧ h' !! 1%positive = None.
Proof.
  destruct (List_queue demo_heap demo_list [1%positive; 2%positive]
              [(3, 30); (7, 70)] 99 demo_repr) as (_ & _ & _ & Hd).
  destruct Hd as (h' & H1 & H2 & _); [by repeat constructor|].
  exists h'. split; [done|]. apply H2. set_solver.
Defined.
