(* ===== verification/Bitmap.v ===== *)
(** * userprog/bitmap.cc: bit maps packed into an array of unsigned ints

    [BitMap] and its operations, on 32-bit words with shifts and masks.  The
    class [BitAlloc] is what the clients (free disk sectors, physical frames,
    process and semaphore tables) use of a bit map, [BitAllocLaws] what they may
    rely on: a bit map is a finite set of used numbers below its size.  The
    instance at the end shows that [BitMap] keeps that promise. *)

From Stdlib Require Import ZArith Lia Bool.
From S2P Require Import Prelude Bytes.

Local Open Scope Z_scope.

Definition BitsInByte : Z := 8.
Definition BitsInWord : Z := 32.

(** class BitMap *)
Record BitMap := mkBitMap {
  numBits : Z;
  numWords : Z;
  map : list Z;
}.

(** 1 << (which % BitsInWord), as the mask applied to an unsigned word. *)
Definition bit_mask (which : Z) : Z := u32 (Z.shiftl 1 (Z.rem which BitsInWord)).

Definition Mark (b : BitMap) (which : Z) : outcome BitMap :=
  _ ← ASSERT ((which >=? 0) && (which <? numBits b));
  w ← aget (map b) (Z.quot which BitsInWord);
  m ← aset (map b) (Z.quot which BitsInWord) (Z.lor w (bit_mask which));
  Ok (mkBitMap (numBits b) (numWords b) m).

Definition Clear (b : BitMap) (which : Z) : outcome BitMap :=
  _ ← ASSERT ((which >=? 0) && (which <? numBits b));
  w ← aget (map b) (Z.quot which BitsInWord);
  m ← aset (map b) (Z.quot which BitsInWord)
        (Z.land w (u32 (Z.lnot (Z.shiftl 1 (Z.rem which BitsInWord)))));
  Ok (mkBitMap (numBits b) (numWords b) m).

Definition Test (b : BitMap) (which : Z) : outcome bool :=
  _ ← ASSERT ((which >=? 0) && (which <? numBits b));
  w ← aget (map b) (Z.quot which BitsInWord);
  Ok (negb (Z.land w (bit_mask which) =? 0)).

(** BitMap(nitems): [garbage] is what the new array holds before it is cleared. *)
Definition BitMap_new (garbage : list Z) (nitems : Z) : outcome BitMap :=
  let nw := divRoundUp nitems BitsInWord in
  foldM Clear (mkBitMap nitems nw (take (Z.to_nat nw) garbage)) (seqZ 0 nitems).

(** The loop of Find over the remaining bit numbers. *)
Fixpoint Find_loop (b : BitMap) (js : list Z) : outcome (Z * BitMap) :=
  match js with
  | [] => Ok (-1, b)
  | i :: js =>
      t ← Test b i;
      if negb t then b ← Mark b i; Ok (i, b) else Find_loop b js
  end.

Definition Find (b : BitMap) : outcome (Z * BitMap) := Find_loop b (seqZ 0 (numBits b)).

Definition NumClear (b : BitMap) : outcome Z :=
  foldM (λ (count i : Z), t ← Test b i; Ok (if negb t then count + 1 else count))
    0 (seqZ 0 (numBits b)).

(** Print: the numbers of the bits that are set, in the order printed. *)
Definition Print_bits (b : BitMap) : outcome (list Z) :=
  foldM (λ (out : list Z) (i : Z), t ← Test b i; Ok (if (t : bool) then out ++ [i] else out))
    [] (seqZ 0 (numBits b)).

(** FetchFrom and WriteBack move the words as raw bytes at offset 0 of a file. *)
Definition FetchFrom_bytes (b : BitMap) (bs : list Z) : BitMap :=
  mkBitMap (numBits b) (numWords b) (bytes_to_words (Z.to_nat (numWords b)) bs).

Definition WriteBack_bytes (b : BitMap) : list Z :=
  words_to_bytes (take (Z.to_nat (numWords b)) (map b)).

(** ** The interface to the clients *)

Class BitAlloc (B : Type) := {
  ba_Mark : B → Z → outcome B;
  ba_Clear : B → Z → outcome B;
  ba_Test : B → Z → outcome bool;
  ba_Find : B → outcome (Z * B);
  ba_NumClear : B → outcome Z;
}.

Class BitAllocLaws (B : Type) `{BitAlloc B} := {
  ba_ok : B → Prop;
  ba_size : B → Z;
  ba_used : B → gset Z;
  ba_used_range b i : ba_ok b → i ∈ ba_used b → 0 <= i < ba_size b;
  ba_Test_law b i : ba_ok b →
    ba_Test b i = if in_range i (ba_size b) then Ok (bool_decide (i ∈ ba_used b)) else Aborted;
  ba_Mark_law b i : ba_ok b → 0 <= i < ba_size b →
    ∃ b', ba_Mark b i = Ok b' ∧ ba_ok b' ∧ ba_size b' = ba_size b ∧
      ba_used b' = {[i]} ∪ ba_used b;
  ba_Clear_law b i : ba_ok b → 0 <= i < ba_size b →
    ∃ b', ba_Clear b i = Ok b' ∧ ba_ok b' ∧ ba_size b' = ba_size b ∧
      ba_used b' = ba_used b ∖ {[i]};
  ba_NumClear_law b : ba_ok b →
    ba_NumClear b = Ok (ba_size b - Z.of_nat (size (ba_used b)));
  ba_Find_law b : ba_ok b →
    (Z.of_nat (size (ba_used b)) < ba_size b ∧
     ∃ i b', ba_Find b = Ok (i, b') ∧ ba_ok b' ∧ ba_size b' = ba_size b ∧
       0 <= i < ba_size b ∧ i ∉ ba_used b ∧ (∀ j, 0 <= j < i → j ∈ ba_used b) ∧
       ba_used b' = {[i]} ∪ ba_used b) ∨
    (Z.of_nat (size (ba_used b)) = ba_size b ∧ ba_Find b = Ok (-1, b));
}.

#[export] Instance BitMap_alloc : BitAlloc BitMap := {
  ba_Mark := Mark; ba_Clear := Clear; ba_Test := Test;
  ba_Find := Find; ba_NumClear := NumClear;
}.

(** ** Well-formed bit maps and the set they stand for *)

Record wf (b : BitMap) : Prop := {
  wf_bits : 0 <= numBits b;
  wf_words : numWords b = divRoundUp (numBits b) BitsInWord;
  wf_length : Z.of_nat (length (map b)) = numWords b;
  wf_range : Forall (λ w, 0 <= w < 2 ^ 32) (map b);
}.

(** Bit [i] of the packed array. *)
Definition bit (b : BitMap) (i : Z) : bool :=
  match map b !! Z.to_nat (i / 32) with
  | Some w => Z.testbit w (i mod 32)
  | None => false
  end.

Definition used (b : BitMap) : gset Z :=
  list_to_set (filter (λ i, bit b i = true) (seqZ 0 (numBits b))).

Lemma elem_of_used b i : i ∈ used b ↔ 0 <= i < numBits b ∧ bit b i = true.
Proof.
  unfold used. rewrite elem_of_list_to_set, list_elem_of_filter, elem_of_seqZ.
  intuition lia.
Qed.

Lemma word_index b i : wf b → 0 <= i < numBits b →
  0 <= i / 32 < Z.of_nat (length (map b)).
Proof.
  intros Hwf Hi. rewrite (wf_length _ Hwf), (wf_words _ Hwf).
  split; [apply Z.div_pos; lia|]. unfold BitsInWord.
  pose proof (divRoundUp_bounds (numBits b) 32). apply Z.div_lt_upper_bound; lia.
Qed.

Lemma quot32 i : 0 <= i → Z.quot i BitsInWord = i / 32.
Proof. intros. unfold BitsInWord. apply Z.quot_div_nonneg; lia. Qed.

Lemma rem32 i : 0 <= i → Z.rem i BitsInWord = i mod 32.
Proof. intros. unfold BitsInWord. apply Z.rem_mod_nonneg; lia. Qed.

Lemma bit_mask_pow i : 0 <= i → bit_mask i = 2 ^ (i mod 32).
Proof.
  intros Hi. unfold bit_mask. rewrite rem32, Z.shiftl_1_l by done.
  apply u32_id. pose proof (Z.mod_pos_bound i 32).
  split; [apply Z.pow_nonneg; lia|]. apply Z.pow_lt_mono_r; lia.
Qed.

Lemma guard_true b i : 0 <= i < numBits b → (i >=? 0) && (i <? numBits b) = true.
Proof. intros. rewrite andb_true_iff, Z.geb_le, Z.ltb_lt. lia. Qed.

Lemma guard_in_range i n : (i >=? 0) && (i <? n) = in_range i n.
Proof. unfold in_range. by rewrite Z.geb_leb. Qed.

(** The word of a bit, and its update. *)
Lemma word_of b i : wf b → 0 <= i < numBits b →
  ∃ w, aget (map b) (Z.quot i BitsInWord) = Ok w ∧
       map b !! Z.to_nat (i / 32) = Some w ∧ 0 <= w < 2 ^ 32 ∧
       ∀ w', aset (map b) (Z.quot i BitsInWord) w' = Ok (<[Z.to_nat (i / 32) := w']> (map b)).
Proof.
  intros Hwf Hi. rewrite quot32 by lia. pose proof (word_index b i Hwf Hi) as Hr.
  destruct (aget_in_range (map b) (i / 32) Hr) as (w & Hw & Hl).
  exists w. split; [done|]. split; [done|]. split.
  - pose proof (wf_range _ Hwf) as Hall. rewrite Forall_lookup in Hall. apply (Hall _ _ Hl).
  - intros w'. by apply aset_in_range.
Qed.

Lemma wf_set_word b n w :
  wf b → 0 <= w < 2 ^ 32 →
  wf (mkBitMap (numBits b) (numWords b) (<[n := w]> (map b))).
Proof.
  intros [H1 H2 H3 H4] Hw. split; simpl; try done.
  - by rewrite length_insert.
  - by apply Forall_insert.
Qed.

Lemma same_word i j : 0 <= i → 0 <= j →
  Z.to_nat (i / 32) = Z.to_nat (j / 32) → i mod 32 = j mod 32 → i = j.
Proof.
  intros Hi Hj H1 H2. assert (i / 32 = j / 32).
  { apply Z2Nat.inj; [apply Z.div_pos; lia|apply Z.div_pos; lia|done]. }
  rewrite (Z.div_mod i 32), (Z.div_mod j 32) by lia. congruence.
Qed.

(** ** The operations on the set *)

Lemma bit_mask_set w i : 0 <= i → 0 <= w < 2 ^ 32 →
  0 <= Z.lor w (bit_mask i) < 2 ^ 32 ∧
  ∀ n, 0 <= n → Z.testbit (Z.lor w (bit_mask i)) n = Z.testbit w n || (i mod 32 =? n).
Proof.
  intros Hi Hw. rewrite bit_mask_pow by done.
  pose proof (Z.mod_pos_bound i 32 ltac:(lia)) as Hm. split.
  - split; [apply Z.lor_nonneg; split; [lia|apply Z.pow_nonneg; lia]|].
    rewrite <- (Z.mod_small w (2 ^ 32)) by done.
    assert (Hp : 2 ^ (i mod 32) = 2 ^ (i mod 32) mod 2 ^ 32).
    { symmetry. apply Z.mod_small.
      split; [apply Z.pow_nonneg; lia|apply Z.pow_lt_mono_r; lia]. }
    rewrite Hp, <- !Z.land_ones, <- Z.land_lor_distr_l, Z.land_ones by lia.
    apply Z.mod_pos_bound. lia.
  - intros n Hn. rewrite Z.lor_spec, Z.pow2_bits_eqb by lia. done.
Qed.

Lemma bit_mask_clear w i : 0 <= i → 0 <= w < 2 ^ 32 →
  let m := u32 (Z.lnot (Z.shiftl 1 (Z.rem i BitsInWord))) in
  0 <= Z.land w m < 2 ^ 32 ∧
  ∀ n, 0 <= n < 32 → Z.testbit (Z.land w m) n = Z.testbit w n && negb (i mod 32 =? n).
Proof.
  intros Hi Hw m. unfold m. rewrite rem32, Z.shiftl_1_l by done.
  pose proof (Z.mod_pos_bound i 32 ltac:(lia)) as Hm. split.
  - split; [apply Z.land_nonneg; lia|]. unfold u32.
    rewrite <- Z.land_ones, Z.land_assoc, Z.land_ones by lia. apply Z.mod_pos_bound. lia.
  - intros n Hn. rewrite Z.land_spec, testbit_u32, Z.lnot_spec, Z.pow2_bits_eqb by lia.
    done.
Qed.

Lemma bit_set_word b i w' j :
  wf b → 0 <= i < numBits b → 0 <= j →
  bit (mkBitMap (numBits b) (numWords b) (<[Z.to_nat (i / 32) := w']> (map b))) j =
    if decide (Z.to_nat (i / 32) = Z.to_nat (j / 32)) then Z.testbit w' (j mod 32) else bit b j.
Proof.
  intros Hwf Hi Hj. unfold bit; simpl. pose proof (word_index b i Hwf Hi).
  case_decide as E.
  - rewrite <- E, list_lookup_insert_eq by lia. done.
  - by rewrite list_lookup_insert_ne.
Qed.

Lemma bit_word b w j : map b !! Z.to_nat (j / 32) = Some w → bit b j = Z.testbit w (j mod 32).
Proof. unfold bit. by intros ->. Qed.

Lemma Mark_ok b i : wf b → 0 <= i < numBits b →
  ∃ b', Mark b i = Ok b' ∧ wf b' ∧ numBits b' = numBits b ∧
    ∀ j, 0 <= j → bit b' j = bit b j || (i =? j).
Proof.
  intros Hwf Hi. destruct (word_of b i Hwf Hi) as (w & Hget & Hl & Hw & Hset).
  unfold Mark. rewrite guard_true by done; simpl. rewrite Hget; simpl. rewrite Hset; simpl.
  destruct (bit_mask_set w i ltac:(lia) Hw) as [Hr Hbits].
  eexists. split; [done|]. split; [by apply wf_set_word|]. split; [done|].
  intros j Hj. rewrite bit_set_word by done. case_decide as E.
  - pose proof (Z.mod_pos_bound j 32 ltac:(lia)).
    rewrite Hbits by lia. rewrite E in Hl. rewrite (bit_word _ _ _ Hl). f_equal.
    destruct (Z.eqb_spec i j) as [->|Hne]; [by rewrite Z.eqb_refl|].
    apply Z.eqb_neq. intros Hm. apply Hne. apply same_word; [lia|lia|done|done].
  - destruct (Z.eqb_spec i j) as [->|]; [done|by rewrite orb_false_r].
Qed.

Lemma Clear_ok b i : wf b → 0 <= i < numBits b →
  ∃ b', Clear b i = Ok b' ∧ wf b' ∧ numBits b' = numBits b ∧
    ∀ j, 0 <= j → bit b' j = bit b j && negb (i =? j).
Proof.
  intros Hwf Hi. destruct (word_of b i Hwf Hi) as (w & Hget & Hl & Hw & Hset).
  unfold Clear. rewrite guard_true by done; simpl. rewrite Hget; simpl. rewrite Hset; simpl.
  destruct (bit_mask_clear w i ltac:(lia) Hw) as [Hr Hbits].
  eexists. split; [done|]. split; [by apply wf_set_word|]. split; [done|].
  intros j Hj. rewrite bit_set_word by done. case_decide as E.
  - pose proof (Z.mod_pos_bound j 32 ltac:(lia)).
    rewrite Hbits by lia. rewrite E in Hl. rewrite (bit_word _ _ _ Hl). do 2 f_equal.
    destruct (Z.eqb_spec i j) as [->|Hne]; [by rewrite Z.eqb_refl|].
    apply Z.eqb_neq. intros Hm. apply Hne. apply same_word; [lia|lia|done|done].
  - destruct (Z.eqb_spec i j) as [->|]; [done|by rewrite andb_true_r].
Qed.

Lemma Test_ok b i : wf b →
  Test b i = if in_range i (numBits b) then Ok (bit b i) else Aborted.
Proof.
  intros Hwf. unfold Test. rewrite guard_in_range.
  destruct (in_range i (numBits b)) eqn:E; [|done]. apply in_range_true in E; simpl.
  destruct (word_of b i Hwf E) as (w & Hget & Hl & _). rewrite Hget; simpl.
  rewrite bit_mask_pow, land_pow2_eqb by (try apply Z.mod_pos_bound; lia).
  by rewrite negb_involutive, (bit_word _ _ _ Hl).
Qed.

Lemma Mark_used b i : wf b → 0 <= i < numBits b →
  ∃ b', Mark b i = Ok b' ∧ wf b' ∧ numBits b' = numBits b ∧ used b' = {[i]} ∪ used b.
Proof.
  intros Hwf Hi. destruct (Mark_ok b i Hwf Hi) as (b' & H1 & H2 & H3 & Hb).
  exists b'. split_and!; [done..|]. apply set_eq. intros j.
  rewrite elem_of_union, elem_of_singleton, !elem_of_used, H3.
  destruct (decide (0 <= j)); [|intuition lia].
  rewrite Hb, orb_true_iff, Z.eqb_eq by done. intuition lia.
Qed.

Lemma Clear_used b i : wf b → 0 <= i < numBits b →
  ∃ b', Clear b i = Ok b' ∧ wf b' ∧ numBits b' = numBits b ∧ used b' = used b ∖ {[i]}.
Proof.
  intros Hwf Hi. destruct (Clear_ok b i Hwf Hi) as (b' & H1 & H2 & H3 & Hb).
  exists b'. split_and!; [done..|]. apply set_eq. intros j.
  rewrite elem_of_difference, elem_of_singleton, !elem_of_used, H3.
  destruct (decide (0 <= j)); [|intuition lia].
  rewrite Hb, andb_true_iff, negb_true_iff, Z.eqb_neq by done. intuition lia.
Qed.

Lemma Test_used b i : wf b →
  Test b i = if in_range i (numBits b) then Ok (bool_decide (i ∈ used b)) else Aborted.
Proof.
  intros Hwf. rewrite Test_ok by done. destruct (in_range i (numBits b)) eqn:E; [|done].
  apply in_range_true in E. f_equal. symmetry. destruct (bit b i) eqn:Hb.
  - apply bool_decide_eq_true. by apply elem_of_used.
  - apply bool_decide_eq_false. rewrite elem_of_used. intros [_ ?]. congruence.
Qed.

(** ** Counting and searching *)

Lemma length_filter_compl {A} (P : A → Prop) `{!∀ x, Decision (P x)} (l : list A) :
  (length (filter P l) + length (filter (λ x, ¬ P x) l) = length l)%nat.
Proof.
  induction l as [|x l IH]; [done|].
  rewrite !filter_cons.
  destruct (decide (P x)), (decide (¬ P x)); simpl; (contradiction || lia).
Qed.

Lemma NoDup_seqZ m n : NoDup (seqZ m n).
Proof. unfold seqZ. apply NoDup_fmap_2; [intros ???; lia|apply NoDup_seq]. Qed.

Lemma size_used b : size (used b) = length (filter (λ i, bit b i = true) (seqZ 0 (numBits b))).
Proof. unfold used. apply size_list_to_set. apply NoDup_filter, NoDup_seqZ. Qed.

Lemma NumClear_loop b l c : wf b → Forall (λ i, 0 <= i < numBits b) l →
  foldM (λ (count i : Z), t ← Test b i; Ok (if negb t then count + 1 else count)) c l =
    Ok (c + Z.of_nat (length (filter (λ i, ¬ bit b i = true) l))).
Proof.
  intros Hwf Hl. revert c; induction Hl as [|i l Hi _ IH]; intros c; simpl.
  { by rewrite Z.add_0_r. }
  rewrite Test_ok by done. apply in_range_true in Hi as ->. simpl. rewrite IH.
  f_equal. rewrite filter_cons. destruct (bit b i); case_decide; simpl; (lia || congruence).
Qed.

Lemma seqZ_in_range n : Forall (λ i, 0 <= i < n) (seqZ 0 n).
Proof. apply Forall_forall. intros i Hi. apply elem_of_seqZ in Hi. lia. Qed.

Lemma NumClear_used b : wf b →
  NumClear b = Ok (numBits b - Z.of_nat (size (used b))).
Proof.
  intros Hwf. unfold NumClear. rewrite NumClear_loop by (done || apply seqZ_in_range).
  pose proof (length_filter_compl (λ i, bit b i = true) (seqZ 0 (numBits b))) as H.
  rewrite length_seqZ in H. rewrite size_used. pose proof (wf_bits _ Hwf). f_equal. lia.
Qed.

Lemma used_size_le b : wf b → Z.of_nat (size (used b)) <= numBits b.
Proof.
  intros Hwf. rewrite size_used.
  pose proof (length_filter (λ i, bit b i = true) (seqZ 0 (numBits b))) as H.
  rewrite length_seqZ in H. pose proof (wf_bits _ Hwf). lia.
Qed.

Lemma used_full b : wf b →
  (∀ i, 0 <= i < numBits b → i ∈ used b) ↔ Z.of_nat (size (used b)) = numBits b.
Proof.
  intros Hwf. pose proof (wf_bits _ Hwf).
  pose proof (length_filter_compl (λ i, bit b i = true) (seqZ 0 (numBits b))) as Hc.
  rewrite length_seqZ in Hc. rewrite size_used. split.
  - intros Hall. rewrite (filter_none (λ x, ¬ bit b x = true)) in Hc; [simpl in Hc; lia|].
    eapply Forall_impl; [apply seqZ_in_range|]. intros i Hi Hn. apply Hn.
    apply Hall in Hi. by apply elem_of_used in Hi as [_ ?].
  - intros Hsz i Hi. apply elem_of_used. split; [done|].
    assert (Hnil : filter (λ x, ¬ bit b x = true) (seqZ 0 (numBits b)) = []).
    { apply nil_length_inv. lia. }
    destruct (bit b i) eqn:E; [done|]. exfalso.
    apply (filter_nil_not_elem_of _ _ i Hnil); [by rewrite E|]. apply elem_of_seqZ. lia.
Qed.

Lemma Find_loop_spec b i : wf b → 0 <= i → (∀ j, 0 <= j < i → j ∈ used b) →
  (∃ k, i <= k < numBits b ∧ k ∉ used b ∧ (∀ j, 0 <= j < k → j ∈ used b) ∧
     Find_loop b (seqZ i (numBits b - i)) = (b' ← Mark b k; Ok (k, b'))) ∨
  ((∀ j, 0 <= j < numBits b → j ∈ used b) ∧
   Find_loop b (seqZ i (numBits b - i)) = Ok (-1, b)).
Proof.
  intros Hwf. remember (Z.to_nat (numBits b - i)) as n eqn:Hn. revert i Hn.
  induction n as [|n IH]; intros i Hn Hi Hbelow.
  - right. split; [intros; apply Hbelow; lia|]. by rewrite seqZ_nil by lia.
  - rewrite seqZ_cons by lia. simpl. rewrite Test_used by done.
    rewrite (proj2 (in_range_true i (numBits b))) by lia. simpl.
    case_bool_decide as Hu; simpl.
    + destruct (IH (Z.succ i)) as [(k & H1 & H2 & H3 & H4)|[H1 H2]].
      * lia.
      * lia.
      * intros j Hj. destruct (decide (j = i)) as [->|]; [done|]. apply Hbelow. lia.
      * left. exists k. split; [lia|]. split; [done|]. split; [done|].
        by replace (Z.pred (numBits b - i)) with (numBits b - Z.succ i) by lia.
      * right. split; [done|].
        by replace (Z.pred (numBits b - i)) with (numBits b - Z.succ i) by lia.
    + left. exists i. split; [lia|]. auto.
Qed.

Lemma Find_used b : wf b →
  (Z.of_nat (size (used b)) < numBits b ∧
   ∃ i b', Find b = Ok (i, b') ∧ wf b' ∧ numBits b' = numBits b ∧ 0 <= i < numBits b ∧
     i ∉ used b ∧ (∀ j, 0 <= j < i → j ∈ used b) ∧ used b' = {[i]} ∪ used b) ∨
  (Z.of_nat (size (used b)) = numBits b ∧ Find b = Ok (-1, b)).
Proof.
  intros Hwf. unfold Find.
  destruct (Find_loop_spec b 0 Hwf) as [(k & H1 & H2 & H3 & H4)|[H1 H2]]; [lia|lia| |].
  - left. rewrite Z.sub_0_r in H4.
    destruct (Mark_used b k Hwf H1) as (b' & HM & Hwf' & Hn & Hu).
    rewrite HM in H4. split.
    + pose proof (used_size_le b Hwf). pose proof (used_full b Hwf) as [_ Hfull].
      destruct (decide (Z.of_nat (size (used b)) = numBits b)) as [E|]; [|lia].
      exfalso. apply H2. by apply (Hfull E).
    + exists k, b'. auto 10.
  - right. rewrite Z.sub_0_r in H2. split; [by apply used_full|done].
Qed.

#[export] Instance BitMap_laws : BitAllocLaws BitMap.
Proof.
  refine {| ba_ok := wf; ba_size := numBits; ba_used := used |}.
  - intros b i _ Hi. by apply elem_of_used in Hi as [? _].
  - apply Test_used.
  - apply Mark_used.
  - apply Clear_used.
  - apply NumClear_used.
  - apply Find_used.
Defined.

(** The loop of the constructor clears every bit whatever the array held. *)
Lemma BitMap_new_loop b l : wf b → Forall (λ i, 0 <= i < numBits b) l →
  ∃ b', foldM Clear b l = Ok b' ∧ wf b' ∧ numBits b' = numBits b ∧
    ∀ j, 0 <= j → bit b' j = bit b j && negb (bool_decide (j ∈ l)).
Proof.
  intros Hwf Hl. revert b Hwf Hl; induction l as [|i l IH]; intros b Hwf Hl; cbn [foldM].
  { exists b. split_and!; [done..|]. intros. by rewrite bool_decide_eq_false_2, andb_true_r by set_solver. }
  inversion_clear Hl as [|? ? Hi Hl'].
  destruct (Clear_ok b i Hwf Hi) as (b1 & -> & Hwf1 & Hn1 & Hb1).
  destruct (IH b1 Hwf1) as (b2 & -> & Hwf2 & Hn2 & Hb2); [by rewrite Hn1|].
  exists b2. split_and!; [done|done|congruence|]. intros j Hj. rewrite Hb2, Hb1 by done.
  rewrite <- andb_assoc. f_equal. rewrite <- negb_orb. f_equal.
  destruct (Z.eqb_spec i j) as [->|Hne]; simpl.
  - symmetry. apply bool_decide_eq_true_2. set_solver.
  - apply bool_decide_ext. set_solver.
Qed.

Lemma BitMap_new_ok garbage nitems :
  0 <= nitems → divRoundUp nitems BitsInWord <= Z.of_nat (length garbage) →
  Forall (λ w, 0 <= w < 2 ^ 32) garbage →
  ∃ b, BitMap_new garbage nitems = Ok b ∧ wf b ∧ numBits b = nitems ∧ used b = ∅.
Proof.
  intros Hn Hlen Hg. pose proof (divRoundUp_bounds nitems 32 Hn ltac:(lia)).
  unfold BitMap_new, BitsInWord in *.
  set (b0 := mkBitMap _ _ _).
  assert (Hwf : wf b0).
  { split; simpl; [done|done|rewrite length_take; lia|by apply Forall_take]. }
  destruct (BitMap_new_loop b0 (seqZ 0 nitems) Hwf) as (b & H1 & H2 & H3 & Hb);
    [apply seqZ_in_range|].
  exists b. split_and!; [done|done|done|]. apply set_eq. intros j.
  rewrite elem_of_used, H3. simpl. split; [|set_solver]. intros [Hj Hbit].
  rewrite Hb, bool_decide_eq_true_2, andb_false_r in Hbit; [done| |lia].
  apply elem_of_seqZ. lia.
Qed.

(** The bytes a bit map writes to its file, read back, give the same bit map. *)
Lemma bitmap_file_roundtrip b b0 rest :
  wf b → numBits b0 = numBits b → numWords b0 = numWords b →
  FetchFrom_bytes b0 (WriteBack_bytes b ++ rest) = b.
Proof.
  intros Hwf Hb Hw. pose proof (wf_length _ Hwf) as Hlen. unfold FetchFrom_bytes, WriteBack_bytes.
  rewrite Hb, Hw. rewrite take_ge by lia.
  replace (bytes_to_words (Z.to_nat (numWords b)) (words_to_bytes (map b) ++ rest))
    with (map b); [by destruct b|].
  replace (Z.to_nat (numWords b)) with (length (map b)) by lia.
  pose proof (wf_range _ Hwf) as Hr. clear -Hr.
  induction Hr as [|w ws Hw _ IH]; [done|]. cbn [length bytes_to_words].
  unfold words_to_bytes in *. rewrite bind_cons, <- app_assoc.
  rewrite take_app_le, drop_app_le by (rewrite le_split_length; lia).
  rewrite take_ge, drop_ge by (rewrite le_split_length; lia).
  rewrite app_nil_l, <- IH. f_equal. symmetry. apply le_combine_split. simpl. lia.
Qed.

(** ** Properties *)

(** The constructor, whatever the freshly allocated array holds, yields a
    well-formed bit map of nitems bits with every bit clear. *)
Theorem BitMap_new_all_clear garbage nitems :
  0 <= nitems → divRoundUp nitems BitsInWord <= Z.of_nat (length garbage) →
  Forall (λ w, 0 <= w < 2 ^ 32) garbage →
  ∃ b, BitMap_new garbage nitems = Ok b ∧ wf b ∧ numBits b = nitems ∧
    (∀ i, 0 <= i < nitems → Test b i = Ok false) ∧ NumClear b = Ok nitems.
Proof.
  intros Hn Hlen Hg.
  destruct (BitMap_new_ok garbage nitems Hn Hlen Hg) as (b & H1 & H2 & H3 & H4).
  exists b. split_and!; [done|done|done| |].
  - intros i Hi. rewrite Test_used, H3, H4 by done.
    apply in_range_true in Hi as ->. by rewrite bool_decide_eq_false_2 by set_solver.
  - rewrite NumClear_used, H3, H4, size_empty by done. f_equal. simpl. lia.
Qed.

Lemma BitMap_new_all_clear_witness :
  ∃ b, BitMap_new [4294967295; 12345; 7] 40 = Ok b ∧ Test b 33 = Ok false.
Proof.
  destruct (BitMap_new_all_clear [4294967295; 12345; 7] 40) as (b & H1 & _ & _ & H2 & _).
  - lia.
  - vm_compute. discriminate.
  - repeat constructor; lia.
  - exists b. split; [done|]. apply H2. lia.
Defined.

(** Mark, Clear and Test behave as on a set of bit numbers: inside the
    range, Mark sets and Clear resets exactly the bit named and no other (the
    neighbours in the same 32-bit word included), keeping the map well-formed;
    outside it all three fail their ASSERT. *)
Theorem BitMap_set_semantics b i j :
  wf b → 0 <= j < numBits b →
  (0 <= i < numBits b →
     (∃ b1, Mark b i = Ok b1 ∧ wf b1 ∧
        Test b1 j = (if i =? j then Ok true else Test b j)) ∧
     (∃ b2, Clear b i = Ok b2 ∧ wf b2 ∧
        Test b2 j = (if i =? j then Ok false else Test b j))) ∧
  (¬ 0 <= i < numBits b → Mark b i = Aborted ∧ Clear b i = Aborted ∧ Test b i = Aborted).
Proof.
  intros Hwf Hj. apply in_range_true in Hj as Hjr. split.
  - intros Hi. split.
    + destruct (Mark_ok b i Hwf Hi) as (b1 & H1 & H2 & H3 & Hb). exists b1.
      split_and!; [done|done|]. rewrite !Test_ok, H3, Hjr, Hb by (done || lia).
      destruct (i =? j); [by rewrite orb_true_r|by rewrite orb_false_r].
    + destruct (Clear_ok b i Hwf Hi) as (b2 & H1 & H2 & H3 & Hb). exists b2.
      split_and!; [done|done|]. rewrite !Test_ok, H3, Hjr, Hb by (done || lia).
      destruct (i =? j); [by rewrite andb_false_r|by rewrite andb_true_r].
  - intros Hi. assert (Hg : (i >=? 0) && (i <? numBits b) = false).
    { rewrite guard_in_range. destruct (in_range i (numBits b)) eqn:E; [|done].
      by apply in_range_true in E. }
    unfold Mark, Clear, Test. rewrite Hg. done.
Qed.

Definition demo_bitmap : BitMap := mkBitMap 40 2 [4294967295; 3].

Lemma demo_bitmap_wf : wf demo_bitmap.
Proof. split; [simpl; lia|vm_compute; done|done|repeat constructor; lia]. Defined.

Lemma BitMap_set_semantics_witness :
  ∃ b1, Mark demo_bitmap 36 = Ok b1 ∧ Test b1 36 = Ok true.
Proof.
  destruct (BitMap_set_semantics demo_bitmap 36 36 demo_bitmap_wf) as [H _]; [simpl; lia|].
  destruct H as [(b1 & H1 & _ & H3) _]; [simpl; lia|]. exists b1. auto.
Defined.

(** Find returns the smallest clear bit and marks it, so that one bit
    fewer is clear afterwards; it returns -1, changing nothing, exactly when
    NumClear is zero. *)
Theorem Find_first_clear b :
  wf b →
  ∃ n, NumClear b = Ok n ∧ 0 <= n ∧
  ((0 < n ∧ ∃ i b', Find b = Ok (i, b') ∧ wf b' ∧ 0 <= i < numBits b ∧
      Test b i = Ok false ∧ (∀ j, 0 <= j < i → Test b j = Ok true) ∧
      Test b' i = Ok true ∧ (∀ j, j ≠ i → Test b' j = Test b j) ∧
      NumClear b' = Ok (n - 1)) ∨
   (n = 0 ∧ Find b = Ok (-1, b))).
Proof.
  intros Hwf. exists (numBits b - Z.of_nat (size (used b))).
  pose proof (used_size_le b Hwf). split; [by apply NumClear_used|]. split; [lia|].
  destruct (Find_used b Hwf) as [(Hlt & i & b' & H1 & H2 & H3 & H4 & H5 & H6 & H7)|[H1 H2]].
  - left. split; [lia|]. exists i, b'. apply in_range_true in H4 as Hr.
    rewrite !Test_used, H3, Hr, H7 by done. split; [done|]. split; [done|]. split; [done|].
    split; [by rewrite bool_decide_eq_false_2|]. split.
    { intros j Hj. rewrite Test_used by done.
      rewrite (proj2 (in_range_true j (numBits b))) by lia.
      by rewrite bool_decide_eq_true_2 by (apply H6; lia). }
    split; [by rewrite bool_decide_eq_true_2 by set_solver|]. split.
    { intros j Hj. rewrite !Test_used, H3, H7 by done. destruct (in_range j _); [|done].
      f_equal. apply bool_decide_ext. set_solver. }
    rewrite NumClear_used, H3, H7 by done. rewrite size_union, size_singleton by set_solver.
    f_equal. lia.
  - right. split; [lia|done].
Qed.

Lemma Find_first_clear_witness : ∃ b', Find demo_bitmap = Ok (34, b').
Proof.
  destruct (Find_first_clear demo_bitmap demo_bitmap_wf) as (n & Hn & _ & [H|H]).
  - destruct H as (_ & i & b' & H1 & _). exists b'. rewrite H1. vm_compute in H1.
    injection H1 as <- _. reflexivity.
  - vm_compute in Hn. destruct H as [-> _]. discriminate.
Defined.

(** A bit map written back to its file and fetched again (into a map of
    the same size, from a file that may be longer) is the same bit map. *)
Theorem BitMap_file_roundtrip b b0 rest :
  wf b → numBits b0 = numBits b → numWords b0 = numWords b →
  FetchFrom_bytes b0 (WriteBack_bytes b ++ rest) = b ∧
  Z.of_nat (length (WriteBack_bytes b)) = 4 * numWords b.
Proof.
  intros Hwf Hb Hw. split; [by apply bitmap_file_roundtrip|].
  unfold WriteBack_bytes. pose proof (wf_length _ Hwf).
  rewrite words_to_bytes_length, take_ge by lia. lia.
Qed.

Lemma BitMap_file_roundtrip_witness :
  FetchFrom_bytes (mkBitMap 40 2 [0; 0]) (WriteBack_bytes demo_bitmap ++ [1; 2]) = demo_bitmap.
Proof. apply (BitMap_file_roundtrip demo_bitmap _ _ demo_bitmap_wf); reflexivity. Defined.
