(* ===== verification/Machine.v ===== *)
(** * machine/machine.cc and machine/translate.cc: registers, memory, translation

    The simulated workstation as user programs see it: 40 registers, physical
    memory as an array of bytes, and the translation of virtual addresses
    through a linear page table or a TLB.  A page table belongs to an address
    space and the machine only points to it, so the tables are kept in a store
    ([ptables]) and [pageTable] is a key of it: what translation writes into an
    entry (use, dirty) stays in the address space's table. *)

From Stdlib Require Import ZArith Lia Bool.
From S2P Require Import Prelude Bytes.

Local Open Scope Z_scope.

(** ** Constants of machine/machine.h and machine/disk.h *)

Definition SectorSize : Z := 512.
Definition PageSize : Z := SectorSize.
Definition NumPhysPages : Z := 128.
Definition MemorySize : Z := NumPhysPages * PageSize.
Definition TLBSize : Z := 4.

Definition StackReg : Z := 29.
Definition RetAddrReg : Z := 31.
Definition NumGPRegs : Z := 32.
Definition HiReg : Z := 32.
Definition LoReg : Z := 33.
Definition PCReg : Z := 34.
Definition NextPCReg : Z := 35.
Definition PrevPCReg : Z := 36.
Definition LoadReg : Z := 37.
Definition LoadValueReg : Z := 38.
Definition BadVAddrReg : Z := 39.
Definition NumTotalRegs : Z := 40.

Inductive ExceptionType :=
| NoException
| SyscallException
| PageFaultException
| ReadOnlyException
| BusErrorException
| AddressErrorException
| OverflowException
| IllegalInstrException
| NumExceptionTypes.

#[export] Instance ExceptionType_eq_dec : EqDecision ExceptionType.
Proof. solve_decision. Defined.

(** class TranslationEntry of machine/translate.h *)
Record TranslationEntry := mkTE {
  virtualPage : Z;
  physicalPage : Z;
  valid : bool;
  readOnly : bool;
  use : bool;
  dirty : bool;
}.

(** class Machine: the CPU and memory state. *)
Record Machine := mkMachine {
  registers : list Z;
  mainMemory : list Z;
  tlb : option (list TranslationEntry);
  pageTable : option Z;
  pageTableSize : Z;
  ptables : gmap Z (list TranslationEntry);
  singleStep : bool;
}.

Definition set_registers (m : Machine) (r : list Z) : Machine :=
  mkMachine r (mainMemory m) (tlb m) (pageTable m) (pageTableSize m) (ptables m) (singleStep m).

Definition set_memory (m : Machine) (mem : list Z) : Machine :=
  mkMachine (registers m) mem (tlb m) (pageTable m) (pageTableSize m) (ptables m) (singleStep m).

Definition set_tlb (m : Machine) (t : list TranslationEntry) : Machine :=
  mkMachine (registers m) (mainMemory m) (Some t) (pageTable m) (pageTableSize m)
    (ptables m) (singleStep m).

Definition set_ptables (m : Machine) (p : gmap Z (list TranslationEntry)) : Machine :=
  mkMachine (registers m) (mainMemory m) (tlb m) (pageTable m) (pageTableSize m) p (singleStep m).

(** machine->pageTable = pt; machine->pageTableSize = n; *)
Definition load_page_table (m : Machine) (pt : option Z) (n : Z) : Machine :=
  mkMachine (registers m) (mainMemory m) (tlb m) pt n (ptables m) (singleStep m).

(** ** Byte order: the host is little endian (HOST_i386); the other branch of
    the #ifdef swaps the bytes. *)

Definition HOST_IS_BIG_ENDIAN : bool := false.

Definition WordToHost_on (big_endian : bool) (word : Z) : Z :=
  if big_endian then
    Z.lor (Z.lor (Z.lor (Z.land (Z.shiftr word 24) 0x000000ff)
                        (Z.land (Z.shiftr word 8) 0x0000ff00))
                 (Z.land (u32 (Z.shiftl word 8)) 0x00ff0000))
          (Z.land (u32 (Z.shiftl word 24)) 0xff000000)
  else word.

Definition ShortToHost_on (big_endian : bool) (shortword : Z) : Z :=
  if big_endian then
    Z.lor (Z.land (Z.shiftl shortword 8) 0xff00) (Z.land (Z.shiftr shortword 8) 0x00ff)
  else shortword.

Definition WordToHost (word : Z) : Z := WordToHost_on HOST_IS_BIG_ENDIAN word.
Definition ShortToHost (shortword : Z) : Z := ShortToHost_on HOST_IS_BIG_ENDIAN shortword.
Definition WordToMachine (word : Z) : Z := WordToHost word.
Definition ShortToMachine (shortword : Z) : Z := ShortToHost shortword.

(** ** Registers *)

(** Machine::Machine without USE_TLB: zeroed registers and memory, no table. *)
Definition Machine_new (debug : bool) : Machine :=
  mkMachine (replicate (Z.to_nat NumTotalRegs) 0) (replicate (Z.to_nat MemorySize) 0)
    None None 0 ∅ debug.

(** ... and with USE_TLB: a TLB of invalid entries. *)
Definition Machine_new_tlb (garbage : TranslationEntry) (debug : bool) : Machine :=
  set_tlb (Machine_new debug)
    (replicate (Z.to_nat TLBSize)
       (mkTE (virtualPage garbage) (physicalPage garbage) false (readOnly garbage)
          (use garbage) (dirty garbage))).

Definition ReadRegister (m : Machine) (num : Z) : outcome Z :=
  _ ← ASSERT ((num >=? 0) && (num <? NumTotalRegs));
  aget (registers m) num.

Definition WriteRegister (m : Machine) (num value : Z) : outcome Machine :=
  _ ← ASSERT ((num >=? 0) && (num <? NumTotalRegs));
  r ← aset (registers m) num value;
  Ok (set_registers m r).

(** registers[n] and registers[n] = v where n is a constant of the source or a
    5-bit field of an instruction. *)
Definition reg (m : Machine) (n : Z) : Z := default 0 (registers m !! Z.to_nat n).

Definition set_reg (m : Machine) (n v : Z) : Machine :=
  set_registers m (<[Z.to_nat n := v]> (registers m)).

(** Machine::DelayedLoad: registers[registers[LoadReg]] = registers[LoadValueReg];
    the index is data, so it is checked. *)
Definition DelayedLoad (m : Machine) (nextReg nextValue : Z) : outcome Machine :=
  r ← aset (registers m) (reg m LoadReg) (reg m LoadValueReg);
  let m := set_registers m r in
  let m := set_reg m LoadReg nextReg in
  let m := set_reg m LoadValueReg nextValue in
  Ok (set_reg m 0 0).

(** ** Translation *)

(** What Translate returns: an exception, or NoException with *physAddr set. *)
Inductive translation :=
| Fault (e : ExceptionType)
| Phys (physAddr : Z).

(** Where the entry lives: pageTable[vpn] or tlb[i]. *)
Inductive entry_loc :=
| InTable (vpn : Z)
| InTlb (i : Z).

(** The search loop over the TLB entries. *)
Fixpoint find_tlb (t : list TranslationEntry) (vpn : Z) (is_ : list Z)
  : outcome (option (Z * TranslationEntry)) :=
  match is_ with
  | [] => Ok None
  | i :: is_ =>
      e ← aget t i;
      if valid e && (u32 (virtualPage e) =? vpn) then Ok (Some (i, e))
      else find_tlb t vpn is_
  end.

(** The table of the running address space. *)
Definition current_table (m : Machine) : outcome (list TranslationEntry) :=
  match pageTable m with
  | Some p => match ptables m !! p with Some t => Ok t | None => Undef end
  | None => Undef
  end.

Definition find_entry (m : Machine) (vpn : Z)
  : outcome (ExceptionType + entry_loc * TranslationEntry) :=
  match tlb m with
  | None =>
      if vpn >=? pageTableSize m then Ok (inl AddressErrorException)
      else
        t ← current_table m;
        e ← aget t vpn;
        if negb (valid e) then Ok (inl PageFaultException)
        else Ok (inr (InTable vpn, e))
  | Some t =>
      r ← find_tlb t vpn (seqZ 0 TLBSize);
      match r with
      | None => Ok (inl PageFaultException)
      | Some (i, e) => Ok (inr (InTlb i, e))
      end
  end.

Definition store_entry (m : Machine) (l : entry_loc) (e : TranslationEntry) : outcome Machine :=
  match l with
  | InTable vpn =>
      t ← current_table m;
      t ← aset t vpn e;
      match pageTable m with
      | Some p => Ok (set_ptables m (<[p := t]> (ptables m)))
      | None => Undef
      end
  | InTlb i =>
      match tlb m with
      | Some t => t ← aset t i e; Ok (set_tlb m t)
      | None => Undef
      end
  end.

Definition misaligned (virtAddr size : Z) : bool :=
  ((size =? 4) && negb (Z.land virtAddr 3 =? 0)) ||
  ((size =? 2) && negb (Z.land virtAddr 1 =? 0)).

Definition is_NULL {A} (p : option A) : bool :=
  match p with None => true | Some _ => false end.

Definition Translate (m : Machine) (virtAddr size : Z) (writing : bool)
  : outcome (translation * Machine) :=
  if misaligned virtAddr size then Ok (Fault AddressErrorException, m)
  else
    _ ← ASSERT (is_NULL (tlb m) || is_NULL (pageTable m));
    _ ← ASSERT (negb (is_NULL (tlb m)) || negb (is_NULL (pageTable m)));
    let vpn := u32 virtAddr / PageSize in
    let offset := u32 virtAddr mod PageSize in
    r ← find_entry m vpn;
    match r with
    | inl exc => Ok (Fault exc, m)
    | inr (l, entry) =>
        if readOnly entry && writing then Ok (Fault ReadOnlyException, m)
        else
          let pageFrame := u32 (physicalPage entry) in
          if pageFrame >=? NumPhysPages then Ok (Fault BusErrorException, m)
          else
            m ← store_entry m l
                  (mkTE (virtualPage entry) (physicalPage entry) (valid entry)
                     (readOnly entry) true (dirty entry || writing));
            let physAddr := pageFrame * PageSize + offset in
            _ ← ASSERT ((physAddr >=? 0) && (physAddr + size <=? MemorySize));
            Ok (Phys physAddr, m)
    end.

(** ** Reading and writing memory

    An exception is returned to the caller as the pair RaiseException is called
    with; the caller of ReadMem and WriteMem then gets FALSE. *)

Definition mem_bytes (m : Machine) (a n : Z) : outcome (list Z) :=
  if (0 <=? a) && (a + n <=? Z.of_nat (length (mainMemory m)))
  then Ok (bytes_at (mainMemory m) a n) else Undef.

Definition mem_store (m : Machine) (a : Z) (bs : list Z) : outcome Machine :=
  if (0 <=? a) && (a + Z.of_nat (length bs) <=? Z.of_nat (length (mainMemory m)))
  then Ok (set_memory m (blit (mainMemory m) (Z.to_nat a) bs)) else Undef.

(** The value read at a physical address: a char is sign-extended, a short is
    unsigned, a word becomes an int. *)
Definition load_value (bs : list Z) (size : Z) : outcome Z :=
  if size =? 1 then Ok (schar (le_combine bs))
  else if size =? 2 then Ok (ShortToHost (le_combine bs))
  else if size =? 4 then Ok (s32 (WordToHost (le_combine bs)))
  else Aborted.

(** The bytes a value is stored as. *)
Definition store_bytes (size value : Z) : outcome (list Z) :=
  if size =? 1 then Ok (le_split 1 (Z.land value 0xff))
  else if size =? 2 then Ok (le_split 2 (ShortToMachine (Z.land value 0xffff)))
  else if size =? 4 then Ok (le_split 4 (WordToMachine (u32 value)))
  else Aborted.

Definition ReadMem (m : Machine) (addr size : Z)
  : outcome ((ExceptionType * Z + Z) * Machine) :=
  '(tr, m) ← Translate m addr size false;
  match tr with
  | Fault exc => Ok (inl (exc, addr), m)
  | Phys pa =>
      bs ← mem_bytes m pa size;
      v ← load_value bs size;
      Ok (inr v, m)
  end.

Definition WriteMem (m : Machine) (addr size value : Z)
  : outcome ((ExceptionType * Z + unit) * Machine) :=
  '(tr, m) ← Translate m addr size true;
  match tr with
  | Fault exc => Ok (inl (exc, addr), m)
  | Phys pa =>
      bs ← store_bytes size value;
      m ← mem_store m pa bs;
      Ok (inr tt, m)
  end.

(** ** Equality up to the use and dirty bits

    Translation records use and dirty in the entry it finds, so two runs agree
    only up to those bits.  [te_equiv] lifts to tables and stores of tables
    through stdpp's setoids. *)

#[export] Instance te_equiv : Equiv TranslationEntry := λ e1 e2,
  virtualPage e1 = virtualPage e2 ∧ physicalPage e1 = physicalPage e2 ∧
  valid e1 = valid e2 ∧ readOnly e1 = readOnly e2.

#[export] Instance te_equivalence : Equivalence (≡@{TranslationEntry}).
Proof.
  split.
  - by intros [].
  - intros [] [] (?&?&?&?); by split_and!.
  - intros [] [] [] (?&?&?&?) (?&?&?&?); split_and!; simpl in *; congruence.
Qed.

(** The same translations are installed. *)
Record same_map (m1 m2 : Machine) : Prop := {
  sm_tlb : tlb m1 ≡ tlb m2;
  sm_pt : pageTable m1 = pageTable m2;
  sm_size : pageTableSize m1 = pageTableSize m2;
  sm_tables : ptables m1 ≡ ptables m2;
}.

#[export] Instance same_map_equivalence : Equivalence same_map.
Proof.
  split.
  - intros m; by split.
  - intros m1 m2 [H1 H2 H3 H4]; split; [by symmetry..].
  - intros m1 m2 m3 [] []; split; etrans; eauto.
Qed.

#[export] Instance is_NULL_proper {A} `{Equiv A} :
  Proper ((≡) ==> (=)) (@is_NULL A).
Proof. by intros ?? []. Qed.

Lemma aget_proper (t1 t2 : list TranslationEntry) i :
  t1 ≡ t2 → orel (≡) (aget t1 i) (aget t2 i).
Proof.
  intros Ht. unfold aget. destruct (0 <=? i); [|done].
  pose proof (list_lookup_proper (Z.to_nat i) _ _ Ht) as Hl. by inversion Hl.
Qed.

Lemma aset_proper (t1 t2 : list TranslationEntry) i e1 e2 :
  t1 ≡ t2 → e1 ≡ e2 → orel (≡) (aset t1 i e1) (aset t2 i e2).
Proof.
  intros Ht He. unfold aset. rewrite (Forall2_length _ _ _ (proj1 (list_equiv_Forall2 _ _) Ht)).
  destruct (in_range _ _); [|done]. simpl. by apply list_insert_proper.
Qed.

Lemma current_table_proper m1 m2 :
  same_map m1 m2 → orel (≡) (current_table m1) (current_table m2).
Proof.
  intros [_ Hp _ Ht]. unfold current_table. rewrite <- Hp.
  destruct (pageTable m1) as [p|]; [|done].
  pose proof (lookup_proper p _ _ Ht) as Hl. by inversion Hl.
Qed.

Lemma find_tlb_proper (t1 t2 : list TranslationEntry) vpn js : t1 ≡ t2 →
  orel (λ a b, option_Forall2 (λ x y, x.1 = y.1 ∧ x.2 ≡ y.2) a b)
    (find_tlb t1 vpn js) (find_tlb t2 vpn js).
Proof.
  intros Ht. induction js as [|i js IH]; simpl; [constructor|].
  eapply orel_bind; [by apply aget_proper|].
  intros e1 e2 He. pose proof He as (Hv & _ & Hval & _). rewrite Hv, Hval.
  destruct (_ && _); [|done]. simpl. by constructor.
Qed.

Definition entry_rel (a b : ExceptionType + entry_loc * TranslationEntry) : Prop :=
  match a, b with
  | inl e1, inl e2 => e1 = e2
  | inr (l1, t1), inr (l2, t2) => l1 = l2 ∧ t1 ≡ t2
  | _, _ => False
  end.

Lemma find_entry_proper m1 m2 vpn :
  same_map m1 m2 → orel entry_rel (find_entry m1 vpn) (find_entry m2 vpn).
Proof.
  intros Hm. unfold find_entry. pose proof (sm_tlb _ _ Hm) as Ht.
  destruct Ht as [t1 t2 Ht|].
  - eapply orel_bind; [by apply find_tlb_proper|].
    intros a b [[i1 e1] [i2 e2] [Hi He]|]; simpl in *; [by subst|done].
  - rewrite (sm_size _ _ Hm). destruct (_ >=? _); [done|].
    eapply orel_bind; [by apply current_table_proper|]. intros t1 t2 Ht.
    eapply orel_bind; [by apply aget_proper|]. intros e1 e2 He.
    pose proof He as (_ & _ & Hv & _). rewrite Hv. by destruct (valid e2).
Qed.

Lemma store_entry_proper m1 m2 l e1 e2 :
  same_map m1 m2 → e1 ≡ e2 → orel same_map (store_entry m1 l e1) (store_entry m2 l e2).
Proof.
  intros Hm He. destruct l as [vpn|i]; simpl.
  - eapply orel_bind; [by apply current_table_proper|]. intros t1 t2 Ht.
    eapply orel_bind; [by apply aset_proper|]. intros t1' t2' Ht'.
    rewrite <- (sm_pt _ _ Hm). destruct (pageTable m1) as [p|] eqn:E; [|done]. simpl.
    destruct Hm as [H1 H2 H3 H4]. split; simpl; try done.
    by apply insert_proper.
  - pose proof (sm_tlb _ _ Hm) as [t1 t2 Ht|]; [|done].
    eapply orel_bind; [by apply aset_proper|]. intros t1' t2' Ht'. simpl.
    destruct Hm as [H1 H2 H3 H4]. split; simpl; try done. by constructor.
Qed.

(** Translation gives the same answer on machines with the same translations. *)
Lemma Translate_proper m1 m2 a s w :
  same_map m1 m2 →
  orel (λ x y, x.1 = y.1 ∧ same_map x.2 y.2) (Translate m1 a s w) (Translate m2 a s w).
Proof.
  intros Hm. unfold Translate. destruct (misaligned a s); [done|].
  rewrite (sm_pt _ _ Hm). rewrite (is_NULL_proper _ _ (sm_tlb _ _ Hm)).
  eapply orel_bind; [by apply (orel_refl (=))|]. intros _ _ _.
  eapply orel_bind; [by apply (orel_refl (=))|]. intros _ _ _.
  eapply orel_bind; [by apply find_entry_proper|].
  intros [x1|[l1 e1]] [x2|[l2 e2]] Hx; simpl in Hx; try done; [by subst|].
  destruct Hx as [-> (H1 & H2 & H3 & H4)]. rewrite H4, H2.
  destruct (_ && _); [done|]. destruct (_ >=? _); [done|].
  eapply orel_bind; [apply store_entry_proper; [done|]; by split_and!|].
  intros m1' m2' Hm'. eapply orel_bind; [by apply (orel_refl (=))|]. done.
Qed.

(** ** What translation does *)

Lemma insert_equiv_id (t : list TranslationEntry) i e e' :
  t !! i = Some e → e' ≡ e → <[i := e']> t ≡ t.
Proof.
  intros Hi He. pose proof (list_insert_id t i e Hi) as Hid.
  transitivity (<[i := e]> t); [by apply list_insert_proper|by rewrite Hid].
Qed.

(** The tables installed fit the registers that describe them. *)
Definition wf_tr (m : Machine) : Prop :=
  match tlb m with
  | None => ∃ p t, pageTable m = Some p ∧ ptables m !! p = Some t ∧
              Z.of_nat (length t) = pageTableSize m
  | Some t => pageTable m = None ∧ Z.of_nat (length t) = TLBSize
  end.

Lemma find_tlb_total t vpn js :
  Forall (λ i, 0 <= i < Z.of_nat (length t)) js →
  ∃ r, find_tlb t vpn js = Ok r ∧
    match r with Some (i, e) => aget t i = Ok e ∧ valid e = true ∧ u32 (virtualPage e) = vpn
               | None => True end.
Proof.
  induction 1 as [|i js Hi _ IH]; simpl; [by exists None|].
  destruct (aget_in_range t i Hi) as (e & He & _). rewrite He; simpl.
  destruct (valid e && _) eqn:E; [|done].
  apply andb_true_iff in E as [E1 E2%Z.eqb_eq]. by exists (Some (i, e)).
Qed.

Lemma find_tlb_aget t vpn js i e :
  find_tlb t vpn js = Ok (Some (i, e)) → aget t i = Ok e.
Proof.
  induction js as [|j js IH]; simpl; [intros [=]|]. intros Hf.
  apply bind_Ok_inv in Hf as (ej & Hj & Hf). destruct (_ && _); [by simplify_eq|auto].
Qed.

Lemma find_tlb_valid t vpn js i e :
  find_tlb t vpn js = Ok (Some (i, e)) → valid e = true.
Proof.
  induction js as [|j js IH]; simpl; [intros [=]|]. intros Hf.
  apply bind_Ok_inv in Hf as (ej & Hj & Hf). destruct (valid ej) eqn:Hv; [|auto].
  destruct (_ =? _); [by simplify_eq/=|auto].
Qed.

Lemma vpn_range a : 0 <= u32 a / PageSize.
Proof. apply Z.div_pos; [apply u32_range|]. done. Qed.

Lemma find_entry_total m a : wf_tr m → ∃ r, find_entry m (u32 a / PageSize) = Ok r.
Proof.
  intros Hwf. unfold find_entry, wf_tr in *. pose proof (vpn_range a).
  destruct (tlb m) as [t|].
  - destruct Hwf as [_ Hlen].
    destruct (find_tlb_total t (u32 a / PageSize) (seqZ 0 TLBSize)) as (r & -> & _).
    { apply Forall_forall. intros i Hi%elem_of_seqZ. lia. }
    simpl. destruct r as [[]|]; eauto.
  - destruct Hwf as (p & t & Hp & Ht & Hlen). destruct (Z.geb_spec (u32 a / PageSize) (pageTableSize m)); [eauto|].
    unfold current_table. rewrite Hp, Ht; simpl.
    destruct (aget_in_range t (u32 a / PageSize)) as (e & -> & _); [lia|]. simpl.
    destruct (negb _); eauto.
Qed.

(** Writing back an entry found, changed in use and dirty only. *)
Lemma store_entry_found m vpn l e e' :
  find_entry m vpn = Ok (inr (l, e)) → e' ≡ e →
  ∃ m', store_entry m l e' = Ok m' ∧ same_map m m' ∧ registers m' = registers m ∧
    mainMemory m' = mainMemory m.
Proof.
  unfold find_entry. intros Hf He. destruct (tlb m) as [t|] eqn:Et.
  - apply bind_Ok_inv in Hf as ([[i e0]|] & Hf & H); [|done]. injection H as <- <-.
    cbn [store_entry]. apply find_tlb_aget in Hf as Hi.
    rewrite Et. apply aget_Ok in Hi as [Hi0 Hi]. pose proof (lookup_lt_Some _ _ _ Hi).
    rewrite aset_in_range by lia. simpl. eexists. split; [done|]. split; [|done].
    split; simpl; [|done|done|done]. rewrite Et. constructor.
    symmetry. by eapply insert_equiv_id.
  - destruct (vpn >=? _); [done|]. apply bind_Ok_inv in Hf as (t & Ht & Hf).
    apply bind_Ok_inv in Hf as (e0 & He0 & Hf). destruct (negb _); [done|]. simplify_eq/=.
    rewrite Ht; simpl. apply aget_Ok in He0 as [Hi0 Hi]. pose proof (lookup_lt_Some _ _ _ Hi).
    rewrite aset_in_range by lia. simpl. unfold current_table in Ht.
    destruct (pageTable m) as [p|] eqn:Ep; [|done].
    destruct (ptables m !! p) as [t0|] eqn:Et0; simplify_eq/=.
    eexists. split; [done|]. split; [|done]. split; simpl; [done|done|done|].
    intros q. destruct (decide (p = q)) as [Hpq|]; [subst q|by rewrite lookup_insert_ne].
    rewrite lookup_insert_eq, Et0. constructor. symmetry. by eapply insert_equiv_id.
Qed.

Lemma aligned_offset a s :
  s = 1 ∨ s = 2 ∨ s = 4 → misaligned a s = false →
  (u32 a mod PageSize) mod s = 0 ∧ u32 a mod PageSize + s <= PageSize.
Proof.
  intros Hs Hal.
  assert (Hm : (u32 a mod PageSize) mod s = 0).
  { unfold misaligned in Hal. unfold u32, PageSize, SectorSize.
    destruct Hs as [-> | [-> | ->]]; simpl in Hal; [apply Z.mod_1_r| |].
    - apply negb_false_iff, Z.eqb_eq in Hal.
      change 1 with (Z.ones 1) in Hal. rewrite Z.land_ones in Hal by lia.
      change (2 ^ 1) with 2 in Hal.
      rewrite <- (Znumtheory.Zmod_div_mod 2 512), <- (Znumtheory.Zmod_div_mod 2 (2 ^ 32));
        [done|lia|lia|exists (2 ^ 31); lia|lia|lia|exists 256; lia].
    - rewrite orb_false_r in Hal. apply negb_false_iff, Z.eqb_eq in Hal.
      change 3 with (Z.ones 2) in Hal. rewrite Z.land_ones in Hal by lia.
      change (2 ^ 2) with 4 in Hal.
      rewrite <- (Znumtheory.Zmod_div_mod 4 512), <- (Znumtheory.Zmod_div_mod 4 (2 ^ 32));
        [done|lia|lia|exists (2 ^ 30); lia|lia|lia|exists 128; lia]. }
  split; [done|].
  pose proof (Z.mod_pos_bound (u32 a) PageSize ltac:(done)) as Hb.
  unfold PageSize, SectorSize in *. set (o := u32 a mod 512) in *.
  pose proof (Z.div_mod o s). destruct Hs as [-> | [-> | ->]]; lia.
Qed.

(** Everything a successful or failing translation guarantees. *)
Lemma Translate_spec m a s w :
  wf_tr m → s = 1 ∨ s = 2 ∨ s = 4 →
  ∃ r m', Translate m a s w = Ok (r, m') ∧ same_map m m' ∧
    registers m' = registers m ∧ mainMemory m' = mainMemory m ∧
    match r with
    | Fault e => m' = m ∧ e ≠ NoException ∧ e ≠ SyscallException
    | Phys p =>
        ∃ l e, find_entry m (u32 a / PageSize) = Ok (inr (l, e)) ∧
          (readOnly e && w = false) ∧ 0 <= u32 (physicalPage e) < NumPhysPages ∧
          p = u32 (physicalPage e) * PageSize + u32 a mod PageSize ∧
          p mod s = 0 ∧ u32 a mod PageSize + s <= PageSize
    end.
Proof.
  intros Hwf Hs. unfold Translate. destruct (misaligned a s) eqn:Hal; [by eexists _, m; split_and!|].
  assert (HA : is_NULL (tlb m) || is_NULL (pageTable m) = true ∧
               negb (is_NULL (tlb m)) || negb (is_NULL (pageTable m)) = true).
  { unfold wf_tr in Hwf. destruct (tlb m).
    - destruct Hwf as [-> _]. done.
    - destruct Hwf as (p & t & -> & _). done. }
  destruct HA as [-> ->]. simpl.
  destruct (find_entry_total m a Hwf) as [r Hr]. rewrite Hr; simpl.
  destruct r as [exc|[l e]].
  { do 2 eexists. split; [done|]. split; [done|]. split; [done|]. split; [done|]. split; [done|].
    unfold find_entry in Hr. destruct (tlb m) as [t|].
    - apply bind_Ok_inv in Hr as ([[]|] & _ & H); by simplify_eq.
    - destruct (_ >=? _); [by simplify_eq|]. inv_ok. destruct (negb _); by simplify_eq. }
  destruct (readOnly e && w) eqn:Hro; [by eexists _, m; split_and!|].
  destruct (Z.geb_spec (u32 (physicalPage e)) NumPhysPages) as [Hp|Hp]; [by eexists _, m; split_and!|].
  destruct (store_entry_found m _ l e
    (mkTE (virtualPage e) (physicalPage e) (valid e) (readOnly e) true (dirty e || w)) Hr)
    as (m' & Hst & Hsm & Hreg & Hmem); [by split_and!|]. rewrite Hst; simpl.
  destruct (aligned_offset a s Hs Hal) as [Hoff Hend].
  pose proof (u32_range (physicalPage e)) as Hpp.
  pose proof (Z.mod_pos_bound (u32 a) PageSize ltac:(done)) as Hb.
  assert (Hin : (u32 (physicalPage e) * PageSize + u32 a mod PageSize >=? 0) &&
    (u32 (physicalPage e) * PageSize + u32 a mod PageSize + s <=? MemorySize) = true).
  { rewrite andb_true_iff, Z.geb_le, Z.leb_le. unfold MemorySize, NumPhysPages, PageSize, SectorSize in *. lia. }
  rewrite Hin; simpl. do 2 eexists. split; [done|]. split; [done|]. split; [done|]. split; [done|].
  exists l, e. split; [done|]. split; [done|]. split; [lia|]. split; [done|]. split; [|done].
  rewrite <- Z.add_mod_idemp_r by (destruct Hs as [-> | [-> | ->]]; done).
  rewrite Hoff, Z.add_0_r. unfold PageSize, SectorSize.
  destruct Hs as [-> | [-> | ->]].
  - apply Z.mod_1_r.
  - replace (u32 (physicalPage e) * 512) with (u32 (physicalPage e) * 256 * 2) by lia.
    by apply Z.mod_mul.
  - replace (u32 (physicalPage e) * 512) with (u32 (physicalPage e) * 128 * 4) by lia.
    by apply Z.mod_mul.
Qed.

(** ** Memory access *)

(** Memory is MemorySize bytes. *)
Definition wf_mem (m : Machine) : Prop :=
  Z.of_nat (length (mainMemory m)) = MemorySize ∧ Forall byte (mainMemory m).

(** The value a variable of [s] bytes holds after [v] was stored in it, as
    ReadMem returns it. *)
Definition truncated (s v : Z) : Z :=
  if s =? 1 then schar v else if s =? 2 then v mod 2 ^ 16 else s32 v.

(** [frame] may be written by the running program. *)
Definition writable_frame (m : Machine) (frame : Z) : Prop :=
  ∃ vpn l e, find_entry m vpn = Ok (inr (l, e)) ∧ readOnly e = false ∧
    u32 (physicalPage e) = frame.

Lemma Translate_fits m a s w p m' :
  wf_tr m → s = 1 ∨ s = 2 ∨ s = 4 → Translate m a s w = Ok (Phys p, m') →
  0 <= p ∧ p + s <= MemorySize.
Proof.
  intros Hwf Hs Htr. destruct (Translate_spec m a s w Hwf Hs) as (r & m2 & H & _ & _ & _ & Hr).
  rewrite Htr in H. injection H as <- <-. destruct Hr as (l & e & _ & _ & Hpp & -> & _ & Hoff).
  pose proof (Z.mod_pos_bound (u32 a) PageSize ltac:(done)).
  unfold MemorySize, NumPhysPages, PageSize, SectorSize in *. lia.
Qed.

(** A translation granted for writing is granted for reading. *)
Lemma Translate_write_read m a s p m' :
  Translate m a s true = Ok (Phys p, m') →
  ∃ m'', Translate m a s false = Ok (Phys p, m'') ∧ same_map m' m''.
Proof.
  unfold Translate. destruct (misaligned a s); [done|]. intros H.
  apply bind_Ok_inv in H as (u1 & -> & H). apply bind_Ok_inv in H as (u2 & -> & H). simpl.
  apply bind_Ok_inv in H as (r & Hr & H). rewrite Hr; simpl.
  destruct r as [|[l e]]; [done|]. rewrite andb_false_r, andb_true_r in *.
  destruct (readOnly e); [done|]. destruct (_ >=? _); [done|].
  apply bind_Ok_inv in H as (m1 & Hst & H). apply bind_Ok_inv in H as (u3 & Ha & H).
  injection H as <- <-.
  assert (Hp : orel same_map
    (store_entry m l (mkTE (virtualPage e) (physicalPage e) (valid e) false true (dirty e || true)))
    (store_entry m l (mkTE (virtualPage e) (physicalPage e) (valid e) false true (dirty e || false)))).
  { apply store_entry_proper; [done|by split_and!]. }
  rewrite Hst in Hp. apply orel_Ok_l in Hp as (m2 & -> & Hm2). simpl.
  rewrite Ha; simpl. eauto.
Qed.

Lemma mem_store_Ok m a bs :
  0 <= a → a + Z.of_nat (length bs) <= Z.of_nat (length (mainMemory m)) →
  mem_store m a bs = Ok (set_memory m (blit (mainMemory m) (Z.to_nat a) bs)).
Proof.
  intros. unfold mem_store. destruct (Z.leb_spec 0 a), (Z.leb_spec (a + Z.of_nat (length bs))
    (Z.of_nat (length (mainMemory m)))); try lia. done.
Qed.

Lemma mem_bytes_Ok m a n :
  0 <= a → a + n <= Z.of_nat (length (mainMemory m)) →
  mem_bytes m a n = Ok (bytes_at (mainMemory m) a n).
Proof.
  intros. unfold mem_bytes. destruct (Z.leb_spec 0 a), (Z.leb_spec (a + n)
    (Z.of_nat (length (mainMemory m)))); try lia. done.
Qed.

(** Storing never fails for the three sizes, and what is loaded back is the
    value truncated to the size. *)
Lemma store_load s v :
  s = 1 ∨ s = 2 ∨ s = 4 →
  ∃ bs, store_bytes s v = Ok bs ∧ Z.of_nat (length bs) = s ∧ Forall byte bs ∧
    load_value bs s = Ok (truncated s v).
Proof.
  intros Hs. unfold store_bytes, load_value, truncated, ShortToMachine, ShortToHost,
    WordToMachine, WordToHost, ShortToHost_on, WordToHost_on, HOST_IS_BIG_ENDIAN.
  destruct Hs as [-> | [-> | ->]]; cbn [Z.eqb Pos.eqb]; eexists; split_and!;
    try reflexivity; try apply le_split_bytes; try (by rewrite le_split_length).
  - change 0xff with (Z.ones 8). rewrite Z.land_ones by lia.
    rewrite le_combine_split by (apply Z.mod_pos_bound; lia). f_equal.
    unfold schar. change (2 ^ 8) with 256. by rewrite Zplus_mod_idemp_l.
  - change 0xffff with (Z.ones 16). rewrite Z.land_ones by lia.
    rewrite le_combine_split by (apply Z.mod_pos_bound; lia). done.
  - rewrite le_combine_split by apply u32_range. by rewrite s32_u32.
Qed.

Lemma bytes_at_blit {A} (l : list A) a bs :
  0 <= a → a + Z.of_nat (length bs) <= Z.of_nat (length l) →
  bytes_at (blit l (Z.to_nat a) bs) a (Z.of_nat (length bs)) = bs.
Proof.
  intros Ha Hl. unfold bytes_at, blit. rewrite drop_app_length' by (rewrite length_take; lia).
  rewrite take_app_length' by lia. done.
Qed.

Lemma find_entry_same m1 m2 vpn l e :
  same_map m1 m2 → find_entry m1 vpn = Ok (inr (l, e)) →
  ∃ e', find_entry m2 vpn = Ok (inr (l, e')) ∧ e ≡ e'.
Proof.
  intros Hm Hf. pose proof (find_entry_proper m1 m2 vpn Hm) as Hp. rewrite Hf in Hp.
  apply orel_Ok_l in Hp as ([|[l' e']] & -> & Hr); [done|]. destruct Hr as [<- He]. eauto.
Qed.

(** What a store does: it faults and changes nothing, or it writes the bytes of
    the value at the physical address. *)
Lemma WriteMem_spec m a s v :
  wf_tr m → wf_mem m → s = 1 ∨ s = 2 ∨ s = 4 →
  ∃ r m', WriteMem m a s v = Ok (r, m') ∧ same_map m m' ∧ registers m' = registers m ∧
    match r with
    | inl (e, b) => m' = m ∧ b = a ∧ e ≠ NoException ∧ e ≠ SyscallException
    | inr _ => ∃ p bs m1, Translate m a s true = Ok (Phys p, m1) ∧ store_bytes s v = Ok bs ∧
        Z.of_nat (length bs) = s ∧ 0 <= p ∧ p + s <= MemorySize ∧ m' = set_memory m1 (mainMemory m') ∧
        mainMemory m' = blit (mainMemory m) (Z.to_nat p) bs
    end.
Proof.
  intros Hwf [Hlen Hby] Hs. unfold WriteMem.
  destruct (Translate_spec m a s true Hwf Hs) as (r & m1 & Htr & Hsm & Hreg & Hmem & Hr).
  rewrite Htr; simpl. destruct r as [e|p].
  - destruct Hr as (-> & He1 & He2). eexists (inl _), m. by split_and!.
  - destruct (Translate_fits m a s true p m1 Hwf Hs Htr) as [Hp0 Hp1].
    destruct (store_load s v Hs) as (bs & Hbs & Hbl & Hbb & _). rewrite Hbs; simpl.
    rewrite mem_store_Ok by (rewrite ?Hmem, ?Hbl, ?Hlen; lia). simpl.
    eexists _, _. split; [done|]. split; [|split; [done|]].
    + destruct Hsm. by split.
    + exists p, bs, m1. rewrite Hmem. by split_and!.
Qed.

Lemma find_entry_valid m vpn l e : find_entry m vpn = Ok (inr (l, e)) → valid e = true.
Proof.
  unfold find_entry. intros Hf. destruct (tlb m) as [t|].
  - apply bind_Ok_inv in Hf as ([[i e0]|] & Hf & H); [|done]. injection H as <- <-.
    by eapply find_tlb_valid.
  - destruct (_ >=? _); [done|]. inv_ok. destruct (valid a0) eqn:Hv; [|done]. by simplify_eq/=.
Qed.

Lemma find_entry_fault m vpn e :
  find_entry m vpn = Ok (inl e) → e = PageFaultException ∨ e = AddressErrorException.
Proof.
  unfold find_entry. intros Hf. destruct (tlb m) as [t|].
  - apply bind_Ok_inv in Hf as ([[i e0]|] & Hf & H); [done|]. simplify_eq. auto.
  - destruct (_ >=? _); [simplify_eq; auto|]. inv_ok. destruct (negb _); simplify_eq. auto.
Qed.

Lemma Translate_fault_kind m a s w e m' :
  Translate m a s w = Ok (Fault e, m') →
  e ∈ [PageFaultException; ReadOnlyException; BusErrorException; AddressErrorException].
Proof.
  unfold Translate. destruct (misaligned a s); intros H; [injection H as <- <-; set_solver|].
  inv_ok. destruct a2 as [exc|[l en]].
  - apply find_entry_fault in Ha1. simplify_eq. set_solver.
  - destruct (_ && _); [injection H as <- <-; set_solver|].
    destruct (_ >=? _); [injection H as <- <-; set_solver|]. by inv_ok.
Qed.

Lemma store_entry_memory m l e m' : store_entry m l e = Ok m' → mainMemory m' = mainMemory m.
Proof.
  destruct l; simpl; intros H.
  - inv_ok. destruct (pageTable m); by simplify_eq/=.
  - destruct (tlb m); [|done]. inv_ok. by subst.
Qed.

Lemma Translate_memory m a s w r m' :
  Translate m a s w = Ok (r, m') → mainMemory m' = mainMemory m.
Proof.
  unfold Translate. destruct (misaligned a s); intros H; [by simplify_eq|].
  inv_ok. destruct a2 as [exc|[l en]]; [by simplify_eq|].
  destruct (_ && _); [by simplify_eq|]. destruct (_ >=? _); [by simplify_eq|].
  inv_ok. simplify_eq. by eapply store_entry_memory.
Qed.

Lemma writable_frame_same m1 m2 f :
  same_map m1 m2 → writable_frame m1 f ↔ writable_frame m2 f.
Proof.
  assert (Hi : ∀ m1 m2, same_map m1 m2 → writable_frame m1 f → writable_frame m2 f).
  { intros ? m2' Hm (vpn & l & e & Hf & Hro & Hfr).
    destruct (find_entry_same _ m2' vpn l e Hm Hf) as (e' & Hf' & (_ & Hp & _ & Hr)).
    exists vpn, l, e'. rewrite <- Hr, <- Hp. done. }
  intros Hm. split; apply Hi; [done|by symmetry].
Qed.

(** A store touches only the frames of writable pages. *)
Lemma WriteMem_frame m a s v r m' :
  wf_tr m → wf_mem m → s = 1 ∨ s = 2 ∨ s = 4 →
  WriteMem m a s v = Ok (r, m') →
  wf_mem m' ∧ same_map m m' ∧ registers m' = registers m ∧
  ∀ i, ¬ writable_frame m (Z.of_nat i / PageSize) → mainMemory m' !! i = mainMemory m !! i.
Proof.
  intros Hwf Hmem Hs HW.
  destruct (WriteMem_spec m a s v Hwf Hmem Hs) as (r0 & m0 & H & Hsm & Hreg & Hr).
  rewrite HW in H. injection H as <- <-.
  destruct r as [[e b]|]; [by destruct Hr as [-> _]|].
  destruct Hr as (p & bs & m1 & Htr & Hbs & Hl & Hp0 & Hp1 & _ & Hm').
  destruct Hmem as [Hlen Hby]. split; [|split; [done|split; [done|]]].
  { unfold wf_mem. rewrite Hm', length_blit by lia. split; [done|].
    destruct (store_load s v Hs) as (bs' & Hbs' & _ & Hbb & _). rewrite Hbs in Hbs'.
    injection Hbs' as <-. unfold blit.
    apply Forall_app; split; [by apply Forall_take|].
    apply Forall_app; split; [done|by apply Forall_drop]. }
  intros i Hi. rewrite Hm', lookup_blit by lia. case_decide as Hd; [|done].
  destruct Hi. destruct (Translate_spec m a s true Hwf Hs) as (r & m2 & H & _ & _ & _ & Hr).
  rewrite Htr in H. injection H as <- <-. destruct Hr as (l & e & Hf & Hro & Hpp & -> & _ & Hoff).
  exists (u32 a / PageSize), l, e. split; [done|]. split; [by rewrite andb_true_r in Hro|].
  apply Z.div_unique with (Z.of_nat i - u32 (physicalPage e) * PageSize); [|lia].
  pose proof (Z.mod_pos_bound (u32 a) PageSize ltac:(done)). lia.
Qed.

(** A load returns a value of its size and changes no register or memory cell. *)
Lemma ReadMem_spec m a s :
  wf_tr m → wf_mem m → s = 1 ∨ s = 2 ∨ s = 4 →
  ∃ r m', ReadMem m a s = Ok (r, m') ∧ same_map m m' ∧ registers m' = registers m ∧
    mainMemory m' = mainMemory m ∧
    match r with
    | inl (e, b) => m' = m ∧ b = a ∧ e ≠ NoException ∧ e ≠ SyscallException
    | inr v => int32 v
    end.
Proof.
  intros Hwf [Hlen Hby] Hs. unfold ReadMem.
  destruct (Translate_spec m a s false Hwf Hs) as (r & m1 & Htr & Hsm & Hreg & Hmem & Hr).
  rewrite Htr; simpl. destruct r as [e|p].
  - destruct Hr as (-> & He1 & He2). eexists (inl _), m. by split_and!.
  - destruct (Translate_fits m a s false p m1 Hwf Hs Htr) as [Hp0 Hp1].
    rewrite mem_bytes_Ok by (rewrite ?Hmem, ?Hlen; lia). simpl.
    assert (Hb : Forall byte (bytes_at (mainMemory m1) p s)).
    { rewrite Hmem. by apply Forall_take, Forall_drop. }
    pose proof (bytes_at_length (mainMemory m1) p s) as Hbl.
    pose proof (le_combine_range _ Hb) as Hc. rewrite Hbl in Hc by (rewrite ?Hmem, ?Hlen; lia).
    assert (Hld : ∃ v, load_value (bytes_at (mainMemory m1) p s) s = Ok v ∧ int32 v).
    { unfold load_value, ShortToHost, WordToHost, ShortToHost_on, WordToHost_on, HOST_IS_BIG_ENDIAN.
      destruct Hs as [-> | [-> | ->]]; cbn [Z.eqb Pos.eqb]; eexists; (split; [done|]).
      - apply schar_int32.
      - unfold int32. change (2 ^ (8 * Z.of_nat (Z.to_nat 2))) with 65536 in Hc. lia.
      - apply s32_range. }
    destruct Hld as (v & -> & Hv). simpl. eexists (inr _), m1. by split_and!.
Qed.

(** ** Theorems *)

(** C28: on a machine whose page table or TLB is installed, Translate never
    fails an assertion and never reads outside the table.  It changes at most
    the use and dirty bits of the tables.  A fault is one of the memory
    exceptions and changes nothing; a translation gives an aligned physical
    range inside one frame of physical memory, the frame of the valid entry
    found for the page, and never grants writing through a read-only entry. *)
Theorem Translate_safe m a s w :
  wf_tr m → s = 1 ∨ s = 2 ∨ s = 4 →
  ∃ r m', Translate m a s w = Ok (r, m') ∧ same_map m m' ∧
    registers m' = registers m ∧ mainMemory m' = mainMemory m ∧
    match r with
    | Fault e => m' = m ∧ e ∈ [PageFaultException; ReadOnlyException; BusErrorException;
                               AddressErrorException]
    | Phys p =>
        0 <= p ∧ p + s <= MemorySize ∧ p mod s = 0 ∧ p / PageSize = (p + s - 1) / PageSize ∧
        ∃ l e, find_entry m (u32 a / PageSize) = Ok (inr (l, e)) ∧ valid e = true ∧
          u32 (physicalPage e) = p / PageSize ∧ (w = true → readOnly e = false)
    end.
Proof.
  intros Hwf Hs. destruct (Translate_spec m a s w Hwf Hs) as (r & m' & Htr & Hsm & Hreg & Hmem & Hr).
  exists r, m'. split_and!; try done. destruct r as [e|p].
  - destruct Hr as (-> & H1 & H2). split; [done|]. eapply Translate_fault_kind; eauto.
  - destruct (Translate_fits m a s w p m' Hwf Hs Htr) as [Hp0 Hp1].
    destruct Hr as (l & e & Hf & Hro & Hpp & -> & Hal & Hoff).
    pose proof (Z.mod_pos_bound (u32 a) PageSize ltac:(done)) as Hb.
    assert (Hd : ∀ x, 0 <= x < PageSize →
      (u32 (physicalPage e) * PageSize + x) / PageSize = u32 (physicalPage e)).
    { intros x Hx. rewrite Z.div_add_l, Z.div_small by lia. lia. }
    rewrite Hd by done. rewrite <- Z.add_assoc, <- Z.add_sub_assoc, Z.add_assoc.
    rewrite <- !Z.add_assoc. rewrite Hd by lia. split_and!; try lia; try done.
    exists l, e. split_and!; try done; [by eapply find_entry_valid|].
    intros ->. by rewrite andb_true_r in Hro.
Qed.

(** A two-page address space: page 0 read-only on frame 5, page 1 on frame 3. *)
Definition demo_table : list TranslationEntry :=
  [mkTE 0 5 true true false false; mkTE 1 3 true false false false].

Definition demo_machine : Machine :=
  load_page_table (set_ptables (Machine_new false) {[ 0 := demo_table ]}) (Some 0) 2.

Lemma demo_wf_tr : wf_tr demo_machine.
Proof. exists 0, demo_table. by split_and!. Qed.

Lemma demo_wf_mem : wf_mem demo_machine.
Proof.
  split; cbn [demo_machine mainMemory load_page_table set_ptables Machine_new].
  - rewrite length_replicate. by apply Z2Nat.id.
  - by apply Forall_replicate.
Qed.

Definition stored {A} (o : outcome ((ExceptionType * Z + unit) * A)) : bool :=
  match o with Ok (inr _, _) => true | _ => false end.

Lemma demo_store v :
  stored (WriteMem demo_machine 514 2 v) = true →
  ∃ m', WriteMem demo_machine 514 2 v = Ok (inr tt, m').
Proof. destruct (WriteMem demo_machine 514 2 v) as [[[|[]] m']| | | |]; try done. eauto. Qed.

Lemma Translate_safe_witness :
  wf_tr demo_machine ∧ ∃ r m', Translate demo_machine 516 4 true = Ok (r, m') ∧ same_map demo_machine m'.
Proof.
  split; [exact demo_wf_tr|].
  destruct (Translate_safe demo_machine 516 4 true demo_wf_tr ltac:(auto)) as (r & m' & H & Hs & _).
  exists r, m'. split; [exact H|exact Hs].
Defined.

(** C29: a value written by WriteMem is the value the next ReadMem of the same
    address and size returns, truncated to the size (a byte is read back
    sign-extended, a half word zero-extended). *)
Theorem WriteMem_ReadMem m a s v m' :
  wf_tr m → wf_mem m → s = 1 ∨ s = 2 ∨ s = 4 →
  WriteMem m a s v = Ok (inr tt, m') →
  ∃ m'', ReadMem m' a s = Ok (inr (truncated s v), m'') ∧ mainMemory m'' = mainMemory m'.
Proof.
  intros Hwf Hmem Hs HW.
  destruct (WriteMem_spec m a s v Hwf Hmem Hs) as (r & m0 & H & Hsm & _ & Hr).
  rewrite HW in H. injection H as <- <-. destruct Hr as (p & bs & m1 & Htr & Hbs & Hl & Hp0 & Hp1 & Hm' & Hm).
  destruct (Translate_write_read _ _ _ _ _ Htr) as (m2 & Htr2 & _).
  pose proof (Translate_proper m m' a s false Hsm) as Hp. rewrite Htr2 in Hp.
  apply orel_Ok_l in Hp as ([r3 m3] & Htr3 & Hr3 & _). simpl in Hr3. subst r3.
  assert (Hmm : mainMemory m3 = mainMemory m') by (eapply Translate_memory; eauto).
  destruct Hmem as [Hlen _]. unfold ReadMem. rewrite Htr3; simpl.
  assert (Hlen' : length (mainMemory m3) = length (mainMemory m)).
  { rewrite Hmm, Hm, length_blit; [done|]. lia. }
  rewrite mem_bytes_Ok by (rewrite ?Hlen', ?Hlen; lia). simpl.
  destruct (store_load s v Hs) as (bs' & Hbs' & _ & _ & Hld). rewrite Hbs in Hbs'. injection Hbs' as <-.
  assert (Hb : bytes_at (blit (mainMemory m) (Z.to_nat p) bs) p s = bs).
  { pose proof (bytes_at_blit (mainMemory m) p bs) as Hb. rewrite Hl in Hb. apply Hb; lia. }
  rewrite Hmm, Hm, Hb, Hld; simpl.
  exists m3. by rewrite Hmm.
Qed.

Lemma WriteMem_ReadMem_witness :
  ∃ m', WriteMem demo_machine 514 2 0x12345 = Ok (inr tt, m') ∧
    ∃ m'', ReadMem m' 514 2 = Ok (inr 0x2345, m'').
Proof.
  destruct (demo_store 0x12345 ltac:(vm_compute; reflexivity)) as [m' Hm'].
  exists m'. split; [exact Hm'|].
  destruct (WriteMem_ReadMem demo_machine 514 2 0x12345 m') as (m'' & H & _);
    [exact demo_wf_tr|exact demo_wf_mem|auto|exact Hm'|].
  exists m''. exact H.
Defined.

(** Memory protection.  A store by a user program leaves every byte outside
    the frames its writable pages are mapped to unchanged, whatever address it
    uses, and it does not change which frames those are. *)
Theorem WriteMem_isolated m a s v r m' i :
  wf_tr m → wf_mem m → s = 1 ∨ s = 2 ∨ s = 4 →
  WriteMem m a s v = Ok (r, m') →
  (¬ writable_frame m (Z.of_nat i / PageSize) → mainMemory m' !! i = mainMemory m !! i) ∧
  (∀ f, writable_frame m f ↔ writable_frame m' f).
Proof.
  intros Hwf Hmem Hs HW.
  destruct (WriteMem_frame m a s v r m' Hwf Hmem Hs HW) as (_ & Hsm & _ & Hi).
  split; [apply Hi|]. intros f. by apply writable_frame_same.
Qed.

Lemma WriteMem_isolated_witness :
  ∃ m', WriteMem demo_machine 514 2 7 = Ok (inr tt, m') ∧
    mainMemory m' !! 100%nat = mainMemory demo_machine !! 100%nat.
Proof.
  destruct (demo_store 7 ltac:(vm_compute; reflexivity)) as [m' Hm'].
  exists m'. split; [exact Hm'|].
  destruct (WriteMem_isolated demo_machine 514 2 7 (inr tt) m' 100%nat) as [H _];
    [exact demo_wf_tr|exact demo_wf_mem|auto|exact Hm'|].
  apply H. intros (vpn & l & e & Hf & Hro & Hfr). unfold find_entry in Hf. simpl in Hf.
  destruct (vpn >=? 2); [discriminate|]. unfold aget in Hf.
  destruct (0 <=? vpn); [|discriminate]. destruct (Z.to_nat vpn) as [|[|n]]; simpl in Hf;
    [injection Hf as <- <-; discriminate|injection Hf as <- <-; discriminate|discriminate].
Defined.
