(* ===== verification/Mips.v ===== *)
(** * machine/mipssim.cc, machine/mipssim.h: the MIPS instruction interpreter

    Instruction::Decode, Machine::OneInstruction with its switch over the
    opcodes, Mult and the part of Machine::RaiseException that runs before the
    kernel's handler.  The switch is modelled in source order by a chain of
    definitions, each of which handles a block of consecutive cases and hands
    the remaining opcodes to the next one. *)

From Stdlib Require Import ZArith Lia Bool.
From S2P Require Import Prelude Bytes Machine.

Local Open Scope Z_scope.

(** The OP_* constants, with SPECIAL and BCOND, in the order of their values. *)
Inductive OpCode :=
| OP_ADD | OP_ADDI | OP_ADDIU | OP_ADDU | OP_AND | OP_ANDI | OP_BEQ | OP_BGEZ
| OP_BGEZAL | OP_BGTZ | OP_BLEZ | OP_BLTZ | OP_BLTZAL | OP_BNE
| OP_DIV | OP_DIVU | OP_J | OP_JAL | OP_JALR | OP_JR
| OP_LB | OP_LBU | OP_LH | OP_LHU | OP_LUI | OP_LW | OP_LWL | OP_LWR
| OP_MFHI | OP_MFLO | OP_MTHI | OP_MTLO | OP_MULT | OP_MULTU | OP_NOR | OP_OR | OP_ORI
| OP_RFE | OP_SB | OP_SH | OP_SLL | OP_SLLV | OP_SLT | OP_SLTI | OP_SLTIU | OP_SLTU
| OP_SRA | OP_SRAV | OP_SRL | OP_SRLV | OP_SUB | OP_SUBU | OP_SW | OP_SWL | OP_SWR
| OP_XOR | OP_XORI | OP_SYSCALL | OP_UNIMP | OP_RES
| SPECIAL | BCOND.

#[export] Instance OpCode_eq_dec : EqDecision OpCode.
Proof. solve_decision. Defined.

Inductive Format := IFMT | JFMT | RFMT.

#[export] Instance Format_eq_dec : EqDecision Format.
Proof. solve_decision. Defined.

Definition IndexToAddr (x : Z) : Z := s32 (Z.shiftl x 2).
Definition SIGN_BIT : Z := 0x80000000.
Definition R31 : Z := 31.

(** Indexed by bits 31:26 of the instruction. *)
Definition opTable : list (OpCode * Format) :=
  [(SPECIAL, RFMT); (BCOND, IFMT); (OP_J, JFMT); (OP_JAL, JFMT);
   (OP_BEQ, IFMT); (OP_BNE, IFMT); (OP_BLEZ, IFMT); (OP_BGTZ, IFMT);
   (OP_ADDI, IFMT); (OP_ADDIU, IFMT); (OP_SLTI, IFMT); (OP_SLTIU, IFMT);
   (OP_ANDI, IFMT); (OP_ORI, IFMT); (OP_XORI, IFMT); (OP_LUI, IFMT);
   (OP_UNIMP, IFMT); (OP_UNIMP, IFMT); (OP_UNIMP, IFMT); (OP_UNIMP, IFMT);
   (OP_RES, IFMT); (OP_RES, IFMT); (OP_RES, IFMT); (OP_RES, IFMT);
   (OP_RES, IFMT); (OP_RES, IFMT); (OP_RES, IFMT); (OP_RES, IFMT);
   (OP_RES, IFMT); (OP_RES, IFMT); (OP_RES, IFMT); (OP_RES, IFMT);
   (OP_LB, IFMT); (OP_LH, IFMT); (OP_LWL, IFMT); (OP_LW, IFMT);
   (OP_LBU, IFMT); (OP_LHU, IFMT); (OP_LWR, IFMT); (OP_RES, IFMT);
   (OP_SB, IFMT); (OP_SH, IFMT); (OP_SWL, IFMT); (OP_SW, IFMT);
   (OP_RES, IFMT); (OP_RES, IFMT); (OP_SWR, IFMT); (OP_RES, IFMT);
   (OP_UNIMP, IFMT); (OP_UNIMP, IFMT); (OP_UNIMP, IFMT); (OP_UNIMP, IFMT);
   (OP_RES, IFMT); (OP_RES, IFMT); (OP_RES, IFMT); (OP_RES, IFMT);
   (OP_UNIMP, IFMT); (OP_UNIMP, IFMT); (OP_UNIMP, IFMT); (OP_UNIMP, IFMT);
   (OP_RES, IFMT); (OP_RES, IFMT); (OP_RES, IFMT); (OP_RES, IFMT)].

(** Indexed by the funct field of SPECIAL instructions. *)
Definition specialTable : list OpCode :=
  [OP_SLL; OP_RES; OP_SRL; OP_SRA; OP_SLLV; OP_RES; OP_SRLV; OP_SRAV;
   OP_JR; OP_JALR; OP_RES; OP_RES; OP_SYSCALL; OP_UNIMP; OP_RES; OP_RES;
   OP_MFHI; OP_MTHI; OP_MFLO; OP_MTLO; OP_RES; OP_RES; OP_RES; OP_RES;
   OP_MULT; OP_MULTU; OP_DIV; OP_DIVU; OP_RES; OP_RES; OP_RES; OP_RES;
   OP_ADD; OP_ADDU; OP_SUB; OP_SUBU; OP_AND; OP_OR; OP_XOR; OP_NOR;
   OP_RES; OP_RES; OP_SLT; OP_SLTU; OP_RES; OP_RES; OP_RES; OP_RES;
   OP_RES; OP_RES; OP_RES; OP_RES; OP_RES; OP_RES; OP_RES; OP_RES;
   OP_RES; OP_RES; OP_RES; OP_RES; OP_RES; OP_RES; OP_RES; OP_RES].

(** class Instruction *)
Record Instruction := mkInstr {
  opCode : OpCode;
  rs : Z;
  rt : Z;
  rd : Z;
  extra : Z;
}.

(** Instruction::Decode; [value] is the unsigned instruction word. *)
Definition Decode (value : Z) : Instruction :=
  let rs := Z.land (Z.shiftr value 21) 0x1f in
  let rt := Z.land (Z.shiftr value 16) 0x1f in
  let rd := Z.land (Z.shiftr value 11) 0x1f in
  let '(op, format) :=
    default (OP_RES, IFMT) (opTable !! Z.to_nat (Z.land (Z.shiftr value 26) 0x3f)) in
  let extra :=
    match format with
    | IFMT => let extra := Z.land value 0xffff in
              if negb (Z.land extra 0x8000 =? 0) then s32 (Z.lor extra 0xffff0000) else extra
    | RFMT => Z.land (Z.shiftr value 6) 0x1f
    | JFMT => Z.land value 0x3ffffff
    end in
  let op :=
    match op with
    | SPECIAL => default OP_RES (specialTable !! Z.to_nat (Z.land value 0x3f))
    | BCOND =>
        let i := Z.land value 0x1f0000 in
        if i =? 0 then OP_BLTZ
        else if i =? 0x10000 then OP_BGEZ
        else if i =? 0x100000 then OP_BLTZAL
        else if i =? 0x110000 then OP_BGEZAL
        else OP_UNIMP
    | op => op
    end in
  mkInstr op rs rt rd extra.

(** ** Mult *)

Record mult_state := mkMult { mu_a : Z; bLo : Z; bHi : Z; lo : Z; hi : Z }.

(** The loop over a's bits; [n] iterations are left. *)
Fixpoint Mult_loop (n : nat) (s : mult_state) : mult_state :=
  match n with
  | O => s
  | S n =>
      let '(mkMult a bLo bHi lo hi) := s in
      let next lo hi :=
        let bHi := u32 (Z.shiftl bHi 1) in
        let bHi := if negb (Z.land bLo 0x80000000 =? 0) then Z.lor bHi 1 else bHi in
        Mult_loop n (mkMult (Z.shiftr a 1) (u32 (Z.shiftl bLo 1)) bHi lo hi) in
      if negb (Z.land a 1 =? 0) then
        let lo := u32 (lo + bLo) in
        let hi := if lo <? bLo then u32 (hi + 1) else hi in
        let hi := u32 (hi + bHi) in
        if Z.land (u32 a) 0xfffffffe =? 0 then mkMult a bLo bHi lo hi
        else next lo hi
      else next lo hi
  end.

(** Mult(a, b, signedArith, hiPtr, loPtr): the pair ( *hiPtr, *loPtr ). *)
Definition Mult (a b : Z) (signedArith : bool) : Z * Z :=
  if (a =? 0) || (b =? 0) then (0, 0)
  else
    let '(negative, a, b) :=
      if signedArith then
        let '(negative, a) := if a <? 0 then (true, s32 (- a)) else (false, a) in
        let '(negative, b) := if b <? 0 then (negb negative, s32 (- b)) else (negative, b) in
        (negative, a, b)
      else (false, a, b) in
    let s := Mult_loop 32 (mkMult a (u32 b) 0 0 0) in
    let '(hi, lo) :=
      if negative : bool then
        let hi := u32 (Z.lnot (hi s)) in
        let lo := u32 (Z.lnot (lo s)) in
        let lo := u32 (lo + 1) in
        (if lo =? 0 then u32 (hi + 1) else hi, lo)
      else (hi s, lo s) in
    (s32 hi, s32 lo).

(** ** One instruction *)

(** How the switch ends: by [break], with the pending load and the next pc, or
    by [return] after an exception was raised. *)
Inductive exec_result :=
| Break (m : Machine) (pcAfter nextLoadReg nextLoadValue : Z)
| Raise (m : Machine) (which : ExceptionType) (badVAddr : Z).

Section Switch.
Context (instr : Instruction) (pcAfter : Z).

Definition break_ (m : Machine) : outcome exec_result := Ok (Break m pcAfter 0 0).
Definition jump_ (m : Machine) (pc : Z) : outcome exec_result := Ok (Break m pc 0 0).

(** registers[r] = v; break; *)
Definition assign (m : Machine) (r v : Z) : outcome exec_result := break_ (set_reg m r v).

(** if (!machine->ReadMem(addr, size, &value)) return; *)
Definition reading (m : Machine) (addr size : Z) (k : Z → Machine → outcome exec_result) :=
  '(r, m) ← ReadMem m addr size;
  match r with
  | inl (e, bad) => Ok (Raise m e bad)
  | inr value => k value m
  end.

(** if (!machine->WriteMem(addr, size, value)) return; break; *)
Definition writing (m : Machine) (addr size value : Z) : outcome exec_result :=
  '(r, m) ← WriteMem m addr size value;
  match r with
  | inl (e, bad) => Ok (Raise m e bad)
  | inr _ => break_ m
  end.

(** case OP_RES, OP_UNIMP, default *)
Definition exec_rest (m : Machine) : outcome exec_result :=
  match opCode instr with
  | OP_SYSCALL => Ok (Raise m SyscallException 0)
  | OP_XOR => assign m (rd instr) (Z.lxor (reg m (rs instr)) (reg m (rt instr)))
  | OP_XORI => assign m (rt instr) (Z.lxor (reg m (rs instr)) (Z.land (extra instr) 0xffff))
  | OP_RES | OP_UNIMP => Ok (Raise m IllegalInstrException 0)
  | _ => Aborted
  end.

(** case OP_SUB to case OP_SWR *)
Definition exec_SUB_SWR (m : Machine) : outcome exec_result :=
  match opCode instr with
  | OP_SUB =>
      let diff := s32 (reg m (rs instr) - reg m (rt instr)) in
      if negb (Z.land (Z.lxor (reg m (rs instr)) (reg m (rt instr))) SIGN_BIT =? 0) &&
         negb (Z.land (Z.lxor (reg m (rs instr)) diff) SIGN_BIT =? 0)
      then Ok (Raise m OverflowException 0)
      else assign m (rd instr) diff
  | OP_SUBU => assign m (rd instr) (s32 (reg m (rs instr) - reg m (rt instr)))
  | OP_SW => writing m (s32 (reg m (rs instr) + extra instr)) 4 (reg m (rt instr))
  | OP_SWL =>
      let tmp := s32 (reg m (rs instr) + extra instr) in
      _ ← ASSERT (Z.land tmp 3 =? 0);
      reading m (Z.land tmp (Z.lnot 3)) 4 (λ value m,
        let r := reg m (rt instr) in
        let value :=
          match Z.land tmp 3 with
          | 0 => r
          | 1 => s32 (Z.lor (Z.land value 0xff000000) (Z.land (Z.shiftr r 8) 0xffffff))
          | 2 => s32 (Z.lor (Z.land value 0xffff0000) (Z.land (Z.shiftr r 16) 0xffff))
          | _ => s32 (Z.lor (Z.land value 0xffffff00) (Z.land (Z.shiftr r 24) 0xff))
          end in
        writing m (Z.land tmp (Z.lnot 3)) 4 value)
  | OP_SWR =>
      let tmp := s32 (reg m (rs instr) + extra instr) in
      _ ← ASSERT (Z.land tmp 3 =? 0);
      reading m (Z.land tmp (Z.lnot 3)) 4 (λ value m,
        let r := reg m (rt instr) in
        let value :=
          match Z.land tmp 3 with
          | 0 => s32 (Z.lor (Z.land value 0xffffff) (Z.shiftl r 24))
          | 1 => s32 (Z.lor (Z.land value 0xffff) (Z.shiftl r 16))
          | 2 => s32 (Z.lor (Z.land value 0xff) (Z.shiftl r 8))
          | _ => r
          end in
        writing m (Z.land tmp (Z.lnot 3)) 4 value)
  | _ => exec_rest m
  end.

Definition b2z (b : bool) : Z := if b then 1 else 0.

(** case OP_MFHI to case OP_SRLV *)
Definition exec_MFHI_SRLV (m : Machine) : outcome exec_result :=
  let rs_ := reg m (rs instr) in
  let rt_ := reg m (rt instr) in
  let mult (signedArith : bool) :=
    let '(h, l) := Mult rs_ rt_ signedArith in
    break_ (set_reg (set_reg m HiReg h) LoReg l) in
  match opCode instr with
  | OP_MFHI => assign m (rd instr) (reg m HiReg)
  | OP_MFLO => assign m (rd instr) (reg m LoReg)
  | OP_MTHI => assign m HiReg rs_
  | OP_MTLO => assign m LoReg rs_
  | OP_MULT => mult true
  | OP_MULTU => mult false
  | OP_NOR => assign m (rd instr) (Z.lnot (Z.lor rs_ rt_))
  | OP_OR => assign m (rd instr) (Z.lor rs_ rs_)
  | OP_ORI => assign m (rt instr) (Z.lor rs_ (Z.land (extra instr) 0xffff))
  | OP_SB => writing m (s32 (rs_ + extra instr)) 1 rt_
  | OP_SH => writing m (s32 (rs_ + extra instr)) 2 rt_
  | OP_SLL => assign m (rd instr) (s32 (Z.shiftl rt_ (extra instr)))
  | OP_SLLV => assign m (rd instr) (s32 (Z.shiftl rt_ (Z.land rs_ 0x1f)))
  | OP_SLT => assign m (rd instr) (b2z (rs_ <? rt_))
  | OP_SLTI => assign m (rt instr) (b2z (rs_ <? extra instr))
  | OP_SLTIU => assign m (rt instr) (b2z (u32 rs_ <? u32 (extra instr)))
  | OP_SLTU => assign m (rd instr) (b2z (u32 rs_ <? u32 rt_))
  | OP_SRA => assign m (rd instr) (Z.shiftr rt_ (extra instr))
  | OP_SRAV => assign m (rd instr) (Z.shiftr rt_ (Z.land rs_ 0x1f))
  | OP_SRL => assign m (rd instr) (Z.shiftr rt_ (extra instr))
  | OP_SRLV => assign m (rd instr) (Z.shiftr rt_ (Z.land rs_ 0x1f))
  | _ => exec_SUB_SWR m
  end.

(** nextLoadReg = instr->rt; nextLoadValue = value; break; *)
Definition loading (m : Machine) (value : Z) : outcome exec_result :=
  Ok (Break m pcAfter (rt instr) value).

(** The value the pending load leaves in rt (LWL and LWR merge into it). *)
Definition pending_rt (m : Machine) : Z :=
  if reg m LoadReg =? rt instr then reg m LoadValueReg else reg m (rt instr).

(** case OP_LB to case OP_LWR *)
Definition exec_LB_LWR (m : Machine) : outcome exec_result :=
  let tmp := s32 (reg m (rs instr) + extra instr) in
  match opCode instr with
  | OP_LB | OP_LBU =>
      reading m tmp 1 (λ value m,
        if negb (Z.land value 0x80 =? 0) && bool_decide (opCode instr = OP_LB)
        then loading m (s32 (Z.lor value 0xffffff00))
        else loading m (Z.land value 0xff))
  | OP_LH | OP_LHU =>
      if negb (Z.land tmp 1 =? 0) then Ok (Raise m AddressErrorException tmp)
      else reading m tmp 2 (λ value m,
        if negb (Z.land value 0x8000 =? 0) && bool_decide (opCode instr = OP_LH)
        then loading m (s32 (Z.lor value 0xffff0000))
        else loading m (Z.land value 0xffff))
  | OP_LUI => assign m (rt instr) (s32 (Z.shiftl (extra instr) 16))
  | OP_LW =>
      if negb (Z.land tmp 3 =? 0) then Ok (Raise m AddressErrorException tmp)
      else reading m tmp 4 (λ value m, loading m value)
  | OP_LWL =>
      _ ← ASSERT (Z.land tmp 3 =? 0);
      reading m tmp 4 (λ value m,
        let next := pending_rt m in
        loading m (match Z.land tmp 3 with
                   | 0 => value
                   | 1 => s32 (Z.lor (Z.land next 0xff) (Z.shiftl value 8))
                   | 2 => s32 (Z.lor (Z.land next 0xffff) (Z.shiftl value 16))
                   | _ => s32 (Z.lor (Z.land next 0xffffff) (Z.shiftl value 24))
                   end))
  | OP_LWR =>
      _ ← ASSERT (Z.land tmp 3 =? 0);
      reading m tmp 4 (λ value m,
        let next := pending_rt m in
        loading m (match Z.land tmp 3 with
                   | 0 => s32 (Z.lor (Z.land next 0xffffff00) (Z.land (Z.shiftr value 24) 0xff))
                   | 1 => s32 (Z.lor (Z.land next 0xffff0000) (Z.land (Z.shiftr value 16) 0xffff))
                   | 2 => s32 (Z.lor (Z.land next 0xff000000) (Z.land (Z.shiftr value 8) 0xffffff))
                   | _ => value
                   end))
  | _ => exec_MFHI_SRLV m
  end.

(** case OP_DIV to case OP_JR; a case without [break] falls into the next. *)
Definition exec_DIV_JR (m : Machine) : outcome exec_result :=
  let rs_ := reg m (rs instr) in
  let rt_ := reg m (rt instr) in
  let link (r : Z) := set_reg m r (s32 (reg m NextPCReg + 4)) in
  let j (m : Machine) :=
    jump_ m (s32 (Z.lor (Z.land (u32 pcAfter) 0xf0000000) (u32 (IndexToAddr (extra instr))))) in
  let jr (m : Machine) := jump_ m (reg m (rs instr)) in
  match opCode instr with
  | OP_DIV =>
      if rt_ =? 0 then break_ (set_reg (set_reg m LoReg 0) HiReg 0)
      else if (rs_ =? - 2 ^ 31) && (rt_ =? -1) then Undef
      else break_ (set_reg (set_reg m LoReg (Z.quot rs_ rt_)) HiReg (Z.rem rs_ rt_))
  | OP_DIVU =>
      if u32 rt_ =? 0 then break_ (set_reg (set_reg m LoReg 0) HiReg 0)
      else break_ (set_reg (set_reg m LoReg (s32 (u32 rs_ / u32 rt_))) HiReg
                     (s32 (u32 rs_ mod u32 rt_)))
  | OP_JAL => j (link R31)
  | OP_J => j m
  | OP_JALR => jr (link (rd instr))
  | OP_JR => jr m
  | _ => exec_LB_LWR m
  end.

(** case OP_ADD to case OP_BNE *)
Definition exec_ADD_BNE (m : Machine) : outcome exec_result :=
  let rs_ := reg m (rs instr) in
  let rt_ := reg m (rt instr) in
  let branch (m : Machine) (taken : bool) :=
    if taken then jump_ m (s32 (reg m NextPCReg + IndexToAddr (extra instr))) else break_ m in
  let link := set_reg m R31 (s32 (reg m NextPCReg + 4)) in
  let bgez (m : Machine) := branch m (Z.land (reg m (rs instr)) SIGN_BIT =? 0) in
  let bltz (m : Machine) := branch m (negb (Z.land (reg m (rs instr)) SIGN_BIT =? 0)) in
  match opCode instr with
  | OP_ADD =>
      let sum := s32 (rs_ + rt_) in
      if negb (negb (Z.land (Z.lxor rs_ rt_) SIGN_BIT =? 0)) &&
         negb (Z.land (Z.lxor rs_ sum) SIGN_BIT =? 0)
      then Ok (Raise m OverflowException 0)
      else assign m (rd instr) sum
  | OP_ADDI =>
      let sum := s32 (rs_ + extra instr) in
      if negb (negb (Z.land (Z.lxor rs_ (extra instr)) SIGN_BIT =? 0)) &&
         negb (Z.land (Z.lxor (extra instr) sum) SIGN_BIT =? 0)
      then Ok (Raise m OverflowException 0)
      else assign m (rt instr) sum
  | OP_ADDIU => assign m (rt instr) (s32 (rs_ + extra instr))
  | OP_ADDU => assign m (rd instr) (s32 (rs_ + rt_))
  | OP_AND => assign m (rd instr) (Z.land rs_ rt_)
  | OP_ANDI => assign m (rt instr) (Z.land rs_ (Z.land (extra instr) 0xffff))
  | OP_BEQ => branch m (rs_ =? rt_)
  | OP_BGEZAL => bgez link
  | OP_BGEZ => bgez m
  | OP_BGTZ => branch m (rs_ >? 0)
  | OP_BLEZ => branch m (rs_ <=? 0)
  | OP_BLTZAL => bltz link
  | OP_BLTZ => bltz m
  | OP_BNE => branch m (negb (rs_ =? rt_))
  | _ => exec_DIV_JR m
  end.
End Switch.

(** Machine::RaiseException up to the call of the kernel's ExceptionHandler. *)
Definition RaiseException (m : Machine) (badVAddr : Z) : outcome Machine :=
  DelayedLoad (set_reg m BadVAddrReg badVAddr) 0 0.

(** What OneInstruction leaves to its caller: nothing, or the exception the
    kernel has to handle. *)
Inductive step_result :=
| Next
| Trap (which : ExceptionType).

Definition OneInstruction (m : Machine) : outcome (step_result * Machine) :=
  '(raw, m) ← ReadMem m (reg m PCReg) 4;
  match raw with
  | inl (e, bad) => m ← RaiseException m bad; Ok (Trap e, m)
  | inr raw =>
      let instr := Decode (u32 raw) in
      let pcAfter := s32 (reg m NextPCReg + 4) in
      r ← exec_ADD_BNE instr pcAfter m;
      match r with
      | Raise m e bad => m ← RaiseException m bad; Ok (Trap e, m)
      | Break m pcAfter nextLoadReg nextLoadValue =>
          m ← DelayedLoad m nextLoadReg nextLoadValue;
          let m := set_reg m PrevPCReg (reg m PCReg) in
          let m := set_reg m PCReg (reg m NextPCReg) in
          Ok (Next, set_reg m NextPCReg pcAfter)
      end
  end.
