(* ===== verification/MipsMult.v ===== *)
(** * The multiplication loop of machine/mipssim.cc computes the 64-bit product *)

From Stdlib Require Import ZArith Lia Bool.
From S2P Require Import Prelude Bytes Machine Mips.

Local Open Scope Z_scope.

(** A double word as the pair of words that hold it. *)
Definition dw (h l : Z) : Z := h * 2 ^ 32 + l.

Definition word (z : Z) : Prop := 0 <= z < 2 ^ 32.

Lemma dw_inj h l h' l' : word l → word l' → dw h l = dw h' l' → h = h' ∧ l = l'.
Proof. unfold word, dw. lia. Qed.

Lemma land_1 a : (Z.land a 1 =? 0) = negb (Z.odd a).
Proof. change 1 with (2 ^ 0). rewrite land_pow2_eqb by lia. by rewrite Z.bit0_odd. Qed.

Lemma div2_odd a : a = 2 * Z.shiftr a 1 + (if Z.odd a then 1 else 0).
Proof. rewrite <- Z.div2_spec. pose proof (Z.div2_odd a). destruct (Z.odd a); simpl in *; lia. Qed.

(** lo += bLo with its carry, and hi += bHi: addition of double words. *)
Lemma dw_add h l bh bl :
  word h → word l → word bh → word bl →
  let l' := u32 (l + bl) in
  let h' := u32 ((if l' <? bl then u32 (h + 1) else h) + bh) in
  word h' ∧ word l' ∧ dw h' l' = (dw h l + dw bh bl) mod 2 ^ 64.
Proof.
  intros Hh Hl Hbh Hbl l' h'. split; [apply u32_range|]. split; [apply u32_range|].
  unfold word, dw in *.
  assert (Hl' : l' = l + bl - (if l' <? bl then 2 ^ 32 else 0)).
  { unfold l', u32. destruct (Z.ltb_spec (l + bl) (2 ^ 32)).
    - rewrite Z.mod_small by lia. destruct (Z.ltb_spec (l + bl) bl); lia.
    - replace (l + bl) with (l + bl - 2 ^ 32 + 1 * 2 ^ 32) by lia.
      rewrite Z.mod_add, Z.mod_small by lia. destruct (Z.ltb_spec (l + bl - 2 ^ 32) bl); lia. }
  pose proof (u32_range (l + bl)) as Hr. fold l' in Hr.
  assert (Hh' : ∃ k, h' = h + (if l' <? bl then 1 else 0) + bh + k * 2 ^ 32).
  { unfold h'. destruct (l' <? bl).
    - destruct (u32_eqm (u32 (h + 1) + bh)) as [k1 ->], (u32_eqm (h + 1)) as [k2 ->].
      exists (k1 + k2). lia.
    - destruct (u32_eqm (h + bh)) as [k1 ->]. exists k1. lia. }
  pose proof (u32_range ((if l' <? bl then u32 (h + 1) else h) + bh)) as Hr'. fold h' in Hr'.
  destruct Hh' as [k Hk]. apply Z.mod_unique with (- k); [lia|].
  destruct (l' <? bl); lia.
Qed.

(** Shifting the pair (bHi, bLo) left by one bit doubles the double word. *)
Lemma dw_double bh bl :
  word bh → word bl →
  let bh1 := u32 (Z.shiftl bh 1) in
  let bh' := if negb (Z.land bl 0x80000000 =? 0) then Z.lor bh1 1 else bh1 in
  let bl' := u32 (Z.shiftl bl 1) in
  word bh' ∧ word bl' ∧ dw bh' bl' = (2 * dw bh bl) mod 2 ^ 64.
Proof.
  intros Hbh Hbl bh1 bh' bl'. unfold word, dw in *.
  assert (Hbit : negb (Z.land bl 0x80000000 =? 0) = (2 ^ 31 <=? bl)).
  { change 0x80000000 with (2 ^ 31). rewrite land_pow2_eqb, negb_involutive by lia.
    rewrite Z.testbit_odd, Z.shiftr_div_pow2 by lia. destruct (Z.leb_spec (2 ^ 31) bl).
    - replace (bl / 2 ^ 31) with 1; [done|]. apply Z.div_unique with (bl - 2 ^ 31); lia.
    - by rewrite Z.div_small by lia. }
  assert (H1 : bh1 = (2 * bh) mod 2 ^ 32).
  { unfold bh1, u32. rewrite Z.shiftl_mul_pow2 by lia. f_equal. lia. }
  assert (Hl : bl' = 2 * bl - (if 2 ^ 31 <=? bl then 2 ^ 32 else 0)).
  { unfold bl', u32. rewrite Z.shiftl_mul_pow2 by lia. destruct (Z.leb_spec (2 ^ 31) bl).
    - replace (bl * 2 ^ 1) with (2 * bl - 2 ^ 32 + 1 * 2 ^ 32) by lia.
      rewrite Z.mod_add, Z.mod_small; lia.
    - rewrite Z.mod_small; lia. }
  assert (Hh : bh' = bh1 + (if 2 ^ 31 <=? bl then 1 else 0)).
  { unfold bh'. rewrite Hbit. destruct (2 ^ 31 <=? bl); [|lia].
    assert (Hno : Z.land bh1 1 = 0).
    { apply Z.eqb_eq. rewrite land_1. apply negb_true_iff.
      rewrite <- Z.bit0_odd. unfold bh1.
      rewrite testbit_u32, Z.shiftl_mul_pow2, Z.mul_pow2_bits_low by lia. done. }
    rewrite <- Z.lxor_lor, <- Z.add_nocarry_lxor by done. done. }
  assert (Hev : ∃ q, bh1 = 2 * q ∧ 0 <= bh1 < 2 ^ 32 ∧ ∃ k, bh1 = 2 * bh + k * 2 ^ 32).
  { rewrite H1. pose proof (Z.mod_pos_bound (2 * bh) (2 ^ 32)).
    rewrite (Z.mod_eq (2 * bh)) in * by lia. exists (bh - 2 ^ 31 * (2 * bh / 2 ^ 32)).
    split; [lia|]. split; [lia|]. exists (- (2 * bh / 2 ^ 32)). lia. }
  destruct Hev as (q & Hq & Hr & k & Hk).
  split; [destruct (2 ^ 31 <=? bl); lia|].
  split; [destruct (Z.leb_spec (2 ^ 31) bl); lia|].
  apply Z.mod_unique with (- k); [destruct (Z.leb_spec (2 ^ 31) bl); lia|].
  destruct (Z.leb_spec (2 ^ 31) bl); lia.
Qed.

(** No bit but the lowest is left. *)
Lemma land_fffffffe a : int32 a → (Z.land (u32 a) 0xfffffffe =? 0) = (a =? 0) || (a =? 1).
Proof.
  intros Ha. pose proof (u32_range a) as Hr.
  assert (Hd : (Z.land (u32 a) 0xfffffffe =? 0) = (u32 a / 2 =? 0)).
  { apply eq_true_iff_eq. rewrite !Z.eqb_eq. split; intros H.
    - apply Z.bits_inj'. intros n Hn. rewrite Z.bits_0.
      change (u32 a / 2) with (u32 a / 2 ^ 1). rewrite Z.div_pow2_bits by lia.
      destruct (Z.ltb_spec (n + 1) 32); [|apply testbit_u32_high; lia].
      apply (f_equal (λ z, Z.testbit z (n + 1))) in H. rewrite Z.land_spec, Z.bits_0 in H.
      change 0xfffffffe with (Z.ones 31 * 2 ^ 1) in H. rewrite Z.mul_pow2_bits in H by lia.
      rewrite Z.ones_spec_low, andb_true_r in H by lia. done.
    - assert (Hs : u32 a = 0 ∨ u32 a = 1) by (Z.to_euclidean_division_equations; lia). by destruct Hs as [-> | ->]. }
  rewrite Hd. rewrite u32_of_int32 in * by done. unfold int32 in Ha.
  apply eq_true_iff_eq. rewrite orb_true_iff, !Z.eqb_eq. destruct (Z.leb_spec 0 a);
    Z.to_euclidean_division_equations; lia.
Qed.

(** The loop adds a's remaining [n] bits times the shifted b, modulo 2^64. *)
Lemma Mult_loop_spec n s :
  int32 (mu_a s) → word (bLo s) → word (bHi s) → word (lo s) → word (hi s) →
  let s' := Mult_loop n s in
  word (hi s') ∧ word (lo s') ∧
  dw (hi s') (lo s') =
    (dw (hi s) (lo s) + (mu_a s mod 2 ^ Z.of_nat n) * dw (bHi s) (bLo s)) mod 2 ^ 64.
Proof.
  revert s; induction n as [|n IH]; intros [a bl bh l h]; cbn [mu_a bLo bHi lo hi];
    intros Ha Hbl Hbh Hl Hh.
  { change (2 ^ Z.of_nat 0) with 1. rewrite Z.mod_1_r. simpl. unfold word, dw in *.
    split; [done|]. split; [done|]. rewrite Z.mod_small; lia. }
  cbn [Mult_loop]. rewrite land_1, negb_involutive.
  destruct (dw_double bh bl Hbh Hbl) as (Hbh' & Hbl' & Hd).
  destruct (dw_add h l bh bl Hh Hl Hbh Hbl) as (Hh' & Hl' & Hs).
  set (bh' := if negb (Z.land bl 0x80000000 =? 0) then _ else _) in *.
  set (bl' := u32 (Z.shiftl bl 1)) in *.
  assert (Ha2 : int32 (Z.shiftr a 1)).
  { unfold int32 in *. pose proof (div2_odd a). destruct (Z.odd a); lia. }
  assert (Hmod : a mod 2 ^ Z.of_nat (S n) =
    2 * (Z.shiftr a 1 mod 2 ^ Z.of_nat n) + (if Z.odd a then 1 else 0)).
  { rewrite Nat2Z.inj_succ, Z.pow_succ_r by lia.
    symmetry. apply Z.mod_unique with (Z.shiftr a 1 / 2 ^ Z.of_nat n).
    - pose proof (Z.mod_pos_bound (Z.shiftr a 1) (2 ^ Z.of_nat n) ltac:(lia)).
      destruct (Z.odd a); lia.
    - pose proof (Z.div_mod (Z.shiftr a 1) (2 ^ Z.of_nat n) ltac:(lia)).
      rewrite (div2_odd a) at 1. destruct (Z.odd a); lia. }
  assert (Hstep : ∀ x y, (x mod 2 ^ 64 + y * ((2 * dw bh bl) mod 2 ^ 64)) mod 2 ^ 64 =
    (x + y * (2 * dw bh bl)) mod 2 ^ 64).
  { intros x y. rewrite Zplus_mod_idemp_l. rewrite <- Zplus_mod_idemp_r.
    rewrite Zmult_mod_idemp_r, Zplus_mod_idemp_r. done. }
  destruct (Z.odd a) eqn:Hodd.
  - set (l1 := u32 (l + bl)) in *. set (h1 := u32 ((if l1 <? bl then u32 (h + 1) else h) + bh)) in *.
    rewrite land_fffffffe by done. destruct (_ || _) eqn:E.
    + cbn [hi lo]. split; [done|]. split; [done|]. rewrite Hs.
      assert (a = 1) as ->.
      { apply orb_true_iff in E as [->%Z.eqb_eq|?%Z.eqb_eq]; done. }
      rewrite Hmod. change (Z.shiftr 1 1) with 0. rewrite Z.mod_0_l by lia. f_equal. lia.
    + destruct (IH (mkMult (Z.shiftr a 1) bl' bh' l1 h1)) as (H1 & H2 & H3); try done.
      split; [done|]. split; [done|]. rewrite H3. cbn [mu_a bLo bHi lo hi]. rewrite Hs, Hd, Hstep, Hmod.
      f_equal. lia.
  - destruct (IH (mkMult (Z.shiftr a 1) bl' bh' l h)) as (H1 & H2 & H3); try done.
    split; [done|]. split; [done|]. rewrite H3. cbn [mu_a bLo bHi lo hi]. rewrite Hd.
    rewrite <- Zplus_mod_idemp_l. rewrite Hstep, Hmod. f_equal. lia.
Qed.

(** The whole loop on two words: their unsigned product. *)
Lemma Mult_loop_32 a b :
  int32 a → word b →
  let s := Mult_loop 32 (mkMult a b 0 0 0) in
  word (hi s) ∧ word (lo s) ∧ dw (hi s) (lo s) = u32 a * b.
Proof.
  intros Ha Hb s.
  destruct (Mult_loop_spec 32 (mkMult a b 0 0 0)) as (H1 & H2 & H3); cbn [mu_a bLo bHi lo hi];
    try done. split; [done|]. split; [done|]. fold s in H3. rewrite H3. cbn [mu_a bLo bHi lo hi].
  change (a mod 2 ^ Z.of_nat 32) with (u32 a). unfold dw. rewrite Z.mul_0_l, !Z.add_0_l.
  apply Z.mod_small. pose proof (u32_range a). unfold word in Hb.
  assert (u32 a * b <= (2 ^ 32 - 1) * (2 ^ 32 - 1)) by (apply Z.mul_le_mono_nonneg; lia). lia.
Qed.

(** The complement-and-increment at the end of Mult negates a double word. *)
Lemma dw_negate h l :
  word h → word l →
  let l' := u32 (u32 (Z.lnot l) + 1) in
  let h' := if l' =? 0 then u32 (u32 (Z.lnot h) + 1) else u32 (Z.lnot h) in
  word h' ∧ word l' ∧ ∃ k, dw h' l' = - dw h l + k * 2 ^ 64.
Proof.
  intros Hh Hl l' h'. unfold word, dw in *.
  assert (Hnot : ∀ z, 0 <= z < 2 ^ 32 → u32 (Z.lnot z) = 2 ^ 32 - 1 - z).
  { intros z Hz. unfold Z.lnot. rewrite <- (u32_add_mul _ 1).
    rewrite u32_id; lia. }
  assert (Hl' : l' = if l =? 0 then 0 else 2 ^ 32 - l).
  { unfold l'. rewrite Hnot by done. destruct (Z.eqb_spec l 0) as [->|].
    - done.
    - rewrite u32_id; lia. }
  assert (Hh' : h' = if l =? 0 then (if h =? 0 then 0 else 2 ^ 32 - h) else 2 ^ 32 - 1 - h).
  { unfold h'. rewrite Hl', !Hnot by done. destruct (Z.eqb_spec l 0).
    - rewrite Z.eqb_refl. destruct (Z.eqb_spec h 0) as [->|]; [done|]. rewrite u32_id; lia.
    - destruct (Z.eqb_spec (2 ^ 32 - l) 0); [lia|done]. }
  rewrite Hl', Hh'. destruct (Z.eqb_spec l 0), (Z.eqb_spec h 0); split; try lia; split; try lia.
  - exists 0. lia.
  - exists 1. lia.
  - exists 1. lia.
  - exists 1. lia.
Qed.

(** The two register values read back as one signed double word. *)
Lemma dw_signed h l p :
  word h → word l → - 2 ^ 63 <= p < 2 ^ 63 → (∃ k, dw h l = p + k * 2 ^ 64) →
  dw (s32 h) (u32 (s32 l)) = p.
Proof.
  unfold word, dw. intros Hh Hl Hp [k Hk]. rewrite u32_s32, (u32_id l) by done.
  rewrite s32_of_u32 by done. destruct (Z.ltb_spec h (2 ^ 31)); lia.
Qed.

Lemma abs_words a : int32 a → u32 (if a <? 0 then s32 (- a) else a) = Z.abs a.
Proof.
  unfold int32. intros. destruct (Z.ltb_spec a 0).
  - rewrite u32_s32, u32_id by lia. lia.
  - rewrite u32_id by lia. lia.
Qed.

(** The signed case: multiply the magnitudes, then fix the sign. *)
Lemma Mult_signed_part a b :
  int32 a → int32 b →
  let '(h, l) :=
    let '(negative, a, b) :=
      let '(negative, a) := if a <? 0 then (true, s32 (- a)) else (false, a) in
      let '(negative, b) := if b <? 0 then (negb negative, s32 (- b)) else (negative, b) in
      (negative, a, b) in
    let s := Mult_loop 32 (mkMult a (u32 b) 0 0 0) in
    let '(hi, lo) :=
      if negative : bool then
        let hi := u32 (Z.lnot (hi s)) in
        let lo := u32 (Z.lnot (lo s)) in
        let lo := u32 (lo + 1) in
        (if lo =? 0 then u32 (hi + 1) else hi, lo)
      else (hi s, lo s) in
    (s32 hi, s32 lo) in
  int32 h ∧ int32 l ∧ dw h (u32 l) = a * b.
Proof.
  intros Ha Hb.
  set (a1 := if a <? 0 then s32 (- a) else a). set (b1 := if b <? 0 then s32 (- b) else b).
  set (neg := xorb (a <? 0) (b <? 0)).
  assert (Hs : (let '(negative, a) := if a <? 0 then (true, s32 (- a)) else (false, a) in
      let '(negative, b) := if b <? 0 then (negb negative, s32 (- b)) else (negative, b) in
      (negative, a, b)) = (neg, a1, b1)).
  { unfold neg, a1, b1. by destruct (a <? 0), (b <? 0). }
  rewrite Hs. assert (Ha1 : int32 a1).
  { unfold a1. destruct (a <? 0); [apply s32_range|done]. }
  destruct (Mult_loop_32 a1 (u32 b1) Ha1 (u32_range _)) as (H1 & H2 & H3).
  set (s := Mult_loop 32 _) in *. cbv zeta.
  assert (Hp : dw (hi s) (lo s) = Z.abs a * Z.abs b).
  { rewrite H3. unfold a1, b1. by rewrite !abs_words. }
  assert (Hab : Z.abs a * Z.abs b <= 2 ^ 31 * 2 ^ 31).
  { unfold int32 in *. apply Z.mul_le_mono_nonneg; lia. }
  assert (Hsign : a * b = (if neg then - 1 else 1) * (Z.abs a * Z.abs b)).
  { unfold neg. destruct (Z.ltb_spec a 0), (Z.ltb_spec b 0); simpl;
      rewrite ?(Z.abs_neq a), ?(Z.abs_neq b), ?(Z.abs_eq a), ?(Z.abs_eq b) by lia; lia. }
  assert (Hpos : 0 <= Z.abs a * Z.abs b) by lia.
  destruct neg.
  - destruct (dw_negate (hi s) (lo s) H1 H2) as (G1 & G2 & k & G3).
    split; [apply s32_range|]. split; [apply s32_range|].
    apply dw_signed; [done|done|lia|]. exists k. lia.
  - split; [apply s32_range|]. split; [apply s32_range|].
    apply dw_signed; [done|done|lia|]. exists 0. lia.
Qed.

Lemma Mult_product a b :
  int32 a → int32 b →
  (let '(h, l) := Mult a b true in int32 h ∧ int32 l ∧ dw h (u32 l) = a * b) ∧
  (let '(h, l) := Mult a b false in
     int32 h ∧ int32 l ∧ dw (u32 h) (u32 l) = u32 a * u32 b).
Proof.
  intros Ha Hb. split; unfold Mult; destruct ((a =? 0) || (b =? 0)) eqn:E0.
  1, 3: unfold int32, dw; apply orb_true_iff in E0 as [->%Z.eqb_eq | ->%Z.eqb_eq]; simpl;
    rewrite ?Z.mul_0_r; done.
  - apply Mult_signed_part; done.
  - destruct (Mult_loop_32 a (u32 b) Ha (u32_range b)) as (H1 & H2 & H3). cbv zeta in *.
    split; [apply s32_range|]. split; [apply s32_range|].
    rewrite !u32_s32, !(u32_id (lo _)), !(u32_id (hi _)) by done. done.
Qed.

(** C24: the shift-and-add loop of Mult computes the exact double-length
    product.  The Hi and Lo registers, read as one 64-bit number, hold the
    signed product of the operands (OP_MULT) or the product of the operands
    read as unsigned (OP_MULTU), for all operands, the most negative integer
    and zero included. *)
Theorem Mult_exact a b :
  int32 a → int32 b →
  (let '(h, l) := Mult a b true in int32 h ∧ int32 l ∧ dw h (u32 l) = a * b) ∧
  (let '(h, l) := Mult a b false in
     int32 h ∧ int32 l ∧ dw (u32 h) (u32 l) = u32 a * u32 b).
Proof. apply Mult_product. Qed.

Lemma Mult_exact_witness :
  int32 (- 2 ^ 31) ∧ (let '(h, l) := Mult (- 2 ^ 31) (-3) true in dw h (u32 l) = 3 * 2 ^ 31).
Proof.
  split; [unfold int32; lia|].
  destruct (Mult_exact (- 2 ^ 31) (-3)) as [H _]; [unfold int32; lia|unfold int32; lia|].
  destruct (Mult (- 2 ^ 31) (-3) true) as [h l]. destruct H as (_ & _ & H). exact H.
Defined.
