(* ===== verification/MipsProofs.v ===== *)
(** * Theorems on the instruction interpreter of machine/mipssim.cc

    The invariant of the register file, that every instruction keeps it, that
    exceptions are precise, that a user instruction writes only to its own
    frames, the load delay, and the overflow tests of the arithmetic cases. *)

From Stdlib Require Import ZArith Lia Bool.
From S2P Require Import Prelude Bytes Machine Mips MipsMult.

Local Open Scope Z_scope.

(** ** Integers stay in range *)

(** An int is determined by its 32 low bits: the others repeat bit 31. *)
Lemma int32_bits z : int32 z ↔ ∀ n, 31 <= n → Z.testbit z n = Z.testbit z 31.
Proof.
  split.
  - unfold int32. intros Hz n Hn. rewrite testbit_31_neg by done.
    destruct (Z.ltb_spec z 0).
    + apply Z.testbit_true; [lia|]. replace (z / 2 ^ n) with (-1); [done|].
      apply Z.div_unique with (z + 2 ^ n); [|lia].
      assert (2 ^ 31 <= 2 ^ n) by (apply Z.pow_le_mono_r; lia). lia.
    + apply Z.testbit_false; [lia|]. rewrite Z.div_small; [done|].
      assert (2 ^ 31 <= 2 ^ n) by (apply Z.pow_le_mono_r; lia). lia.
  - intros Hb. replace z with (s32 z); [apply s32_range|].
    apply Z.bits_inj'. intros n Hn. destruct (Z.ltb_spec n 32).
    + rewrite <- (testbit_u32 (s32 z)), u32_s32, testbit_u32 by lia. done.
    + rewrite (Hb n) by lia. pose proof (s32_range z) as Hs.
      assert (H31 : Z.testbit (s32 z) 31 = Z.testbit z 31).
      { rewrite <- (testbit_u32 (s32 z)), u32_s32, testbit_u32 by lia. done. }
      rewrite <- H31, testbit_31_neg by done. unfold int32 in Hs.
      assert (2 ^ 31 <= 2 ^ n) by (apply Z.pow_le_mono_r; lia).
      destruct (Z.ltb_spec (s32 z) 0).
      * apply Z.testbit_true; [lia|]. replace (s32 z / 2 ^ n) with (-1); [done|].
        apply Z.div_unique with (s32 z + 2 ^ n); lia.
      * apply Z.testbit_false; [lia|]. by rewrite Z.div_small by lia.
Qed.

Lemma int32_land a b : int32 a → int32 b → int32 (Z.land a b).
Proof.
  rewrite !int32_bits. intros Ha Hb n Hn. by rewrite !Z.land_spec, (Ha n), (Hb n).
Qed.

Lemma int32_lor a b : int32 a → int32 b → int32 (Z.lor a b).
Proof.
  rewrite !int32_bits. intros Ha Hb n Hn. by rewrite !Z.lor_spec, (Ha n), (Hb n).
Qed.

Lemma int32_lxor a b : int32 a → int32 b → int32 (Z.lxor a b).
Proof.
  rewrite !int32_bits. intros Ha Hb n Hn. by rewrite !Z.lxor_spec, (Ha n), (Hb n).
Qed.

Lemma int32_lnot a : int32 a → int32 (Z.lnot a).
Proof. unfold int32, Z.lnot. lia. Qed.

Lemma int32_shiftr a n : int32 a → 0 <= n → int32 (Z.shiftr a n).
Proof.
  unfold int32. intros Ha Hn. rewrite Z.shiftr_div_pow2 by done.
  assert (0 < 2 ^ n) by lia. split.
  - apply Z.div_le_lower_bound; nia.
  - apply Z.div_lt_upper_bound; nia.
Qed.

Lemma int32_small k : - 2 ^ 31 <= k < 2 ^ 31 → int32 k.
Proof. done. Qed.

Lemma int32_b2z b : int32 (b2z b).
Proof. by destruct b. Qed.

Lemma int32_quot a b :
  int32 a → int32 b → b ≠ 0 → ¬ (a = - 2 ^ 31 ∧ b = -1) → int32 (Z.quot a b).
Proof.
  unfold int32. intros Ha Hb Hnz Hov.
  destruct (Z.eqb_spec b (-1)) as [->|Hb1].
  { change (-1) with (- (1)). rewrite Z.quot_opp_r, Z.quot_1_r by lia. lia. }
  destruct (Z.eqb_spec b 1) as [->|Hb2]; [rewrite Z.quot_1_r; lia|].
  pose proof (Z.quot_abs a b Hnz) as Hq.
  assert (Hle : Z.abs a ÷ Z.abs b < 2 ^ 31).
  { rewrite Z.quot_div_nonneg by lia. apply Z.div_lt_upper_bound; [lia|].
    assert (2 * 2 ^ 31 <= Z.abs b * 2 ^ 31) by (apply Z.mul_le_mono_nonneg_r; lia). lia. }
  lia.
Qed.

Lemma int32_rem a b : int32 a → int32 b → b ≠ 0 → int32 (Z.rem a b).
Proof.
  unfold int32. intros Ha Hb Hnz. pose proof (Z.rem_bound_abs a b Hnz). lia.
Qed.

Lemma land_31_range z : 0 <= Z.land z 0x1f < 32.
Proof.
  change 0x1f with (Z.ones 5). rewrite Z.land_ones by lia. apply Z.mod_pos_bound. lia.
Qed.

#[export] Hint Resolve int32_land int32_lor int32_lxor int32_lnot int32_shiftr int32_b2z : nachos.
#[export] Hint Extern 1 (int32 (Zpos _)) => (apply int32_small; lia) : nachos.
#[export] Hint Extern 1 (int32 0) => (apply int32_small; lia) : nachos.
#[export] Hint Extern 1 (0 <= _) => (apply land_31_range || lia) : nachos.
#[export] Hint Extern 1 (_ <= _ < _) => (apply land_31_range || lia) : nachos.

(** ** The register file *)

Record wf_regs (m : Machine) : Prop := {
  wr_length : length (registers m) = Z.to_nat NumTotalRegs;
  wr_int32 : Forall int32 (registers m);
  wr_zero : reg m 0 = 0;
  wr_load : 0 <= reg m LoadReg < NumGPRegs;
}.

(** A machine that runs a user program. *)
Record wf_machine (m : Machine) : Prop := {
  wm_regs : wf_regs m;
  wm_tr : wf_tr m;
  wm_mem : wf_mem m;
}.

Lemma reg_int32 m n : Forall int32 (registers m) → int32 (reg m n).
Proof.
  intros Hf. unfold reg. destruct (registers m !! Z.to_nat n) as [v|] eqn:E; simpl.
  - by eapply Forall_lookup_1 in Hf.
  - by apply int32_small.
Qed.

Lemma length_set_reg m n v : length (registers (set_reg m n v)) = length (registers m).
Proof. apply length_insert. Qed.

Lemma set_reg_int32 m n v :
  Forall int32 (registers m) → int32 v → Forall int32 (registers (set_reg m n v)).
Proof. intros. by apply Forall_insert. Qed.

Lemma reg_set_reg m n v k :
  0 <= n < Z.of_nat (length (registers m)) → 0 <= k →
  reg (set_reg m n v) k = if k =? n then v else reg m k.
Proof.
  intros Hn Hk. unfold reg, set_reg; cbn [registers set_registers].
  destruct (Z.eqb_spec k n) as [->|Hne].
  - by rewrite list_lookup_insert_eq by lia.
  - by rewrite list_lookup_insert_ne by lia.
Qed.

Lemma wf_tr_same m m' : same_map m m' → wf_tr m → wf_tr m'.
Proof.
  intros [Ht Hp Hs Htab]. unfold wf_tr. rewrite <- Hp, <- Hs.
  destruct Ht as [t1 t2 Ht|].
  - intros [-> Hl]. split; [done|].
    by rewrite <- (Forall2_length _ _ _ (proj1 (list_equiv_Forall2 _ _) Ht)).
  - intros (p & t & Hpt & Htt & Hl). pose proof (lookup_proper p _ _ Htab) as Hlk.
    rewrite Htt in Hlk. inversion Hlk as [x y Hxy Hx Hy|]; subst.
    exists p, y. split_and!; [done|done|].
    by rewrite <- (Forall2_length _ _ _ (proj1 (list_equiv_Forall2 _ _) Hxy)).
Qed.

(** ** What the switch leaves *)

(** The effect of an instruction on memory: only frames the program may write
    change, and the translations stay. *)
Record mem_step (m m' : Machine) : Prop := {
  ms_map : same_map m m';
  ms_mem : wf_mem m';
  ms_frame : ∀ i, ¬ writable_frame m (Z.of_nat i / PageSize) →
    mainMemory m' !! i = mainMemory m !! i;
}.

(** [break]: general registers, Hi and Lo may have changed. *)
Definition exec_ok (m : Machine) (r : exec_result) : Prop :=
  match r with
  | Break m' pc lr lv =>
      mem_step m m' ∧ length (registers m') = length (registers m) ∧
      Forall int32 (registers m') ∧ int32 pc ∧ int32 lv ∧ 0 <= lr < NumGPRegs ∧
      ∀ k, PCReg <= k → reg m' k = reg m k
  | Raise m' e bad =>
      same_map m m' ∧ registers m' = registers m ∧ mainMemory m' = mainMemory m ∧ int32 bad
  end.

Definition unaligned_op (op : OpCode) : bool :=
  match op with OP_LWL | OP_LWR | OP_SWL | OP_SWR => true | _ => false end.

(** The two ways out other than a result: an assertion of the unaligned loads
    and stores, and the division the host traps on. *)
Definition exec_post (instr : Instruction) (m : Machine) (o : outcome exec_result) : Prop :=
  match o with
  | Ok r => exec_ok m r
  | Aborted => unaligned_op (opCode instr) = true ∧
      Z.land (s32 (reg m (rs instr) + extra instr)) 3 ≠ 0
  | Undef => opCode instr = OP_DIV ∧ reg m (rs instr) = - 2 ^ 31 ∧ reg m (rt instr) = -1
  | Halted | NoFuel => False
  end.

(** What Decode guarantees of an instruction. *)
Record wf_instr (instr : Instruction) : Prop := {
  wi_rs : 0 <= rs instr < NumGPRegs;
  wi_rt : 0 <= rt instr < NumGPRegs;
  wi_rd : 0 <= rd instr < NumGPRegs;
  wi_extra : int32 (extra instr);
  wi_op : opCode instr ≠ OP_RFE ∧ opCode instr ≠ SPECIAL ∧ opCode instr ≠ BCOND;
  wi_shamt : opCode instr ∈ [OP_SLL; OP_SRA; OP_SRL] → 0 <= extra instr < 32;
}.

(** Reading memory first changes nothing of what is promised. *)
Lemma wf_machine_same m m' :
  same_map m m' → registers m' = registers m → mainMemory m' = mainMemory m →
  wf_machine m → wf_machine m'.
Proof.
  intros Hs Hr Hmm [[Hl Hf Hz Hld] Htr [Hlen Hby]]. split.
  - unfold reg in *. split; unfold reg; by rewrite Hr.
  - by eapply wf_tr_same.
  - by split; rewrite Hmm.
Qed.

Lemma exec_post_same instr m m' o :
  same_map m m' → registers m' = registers m → mainMemory m' = mainMemory m →
  exec_post instr m' o → exec_post instr m o.
Proof.
  intros Hs Hr Hmm. unfold exec_post, reg. rewrite Hr. destruct o as [r| | | |]; try done.
  unfold exec_ok, reg. rewrite Hr, Hmm. destruct r as [m2 pc lr lv|m2 e bad].
  - intros ([Hs2 Hm2 Hf2] & ?). split; [|done]. split; [by etrans|done|].
    intros i Hi. rewrite Hf2, Hmm; [done|]. by rewrite <- writable_frame_same.
  - intros (Hs2 & ?). split; [by etrans|done].
Qed.

Section Exec.
Context (instr : Instruction) (pcAfter : Z) (m : Machine).
Context (Hi : wf_instr instr) (Hpc : int32 pcAfter) (Hm : wf_machine m).

Lemma mem_step_refl : mem_step m m.
Proof. destruct Hm. by split. Qed.

Lemma Forall_regs : Forall int32 (registers m).
Proof. apply Hm. Qed.

Lemma reg_ok n : int32 (reg m n).
Proof. apply reg_int32, Forall_regs. Qed.

Lemma break_ok : exec_post instr m (break_ pcAfter m).
Proof.
  simpl. split_and!; try done; [apply mem_step_refl|apply Forall_regs].
Qed.

Lemma assign2_ok r1 v1 r2 v2 pc :
  0 <= r1 < PCReg → 0 <= r2 < PCReg → int32 v1 → int32 v2 → int32 pc →
  exec_post instr m (jump_ (set_reg (set_reg m r1 v1) r2 v2) pc).
Proof.
  intros H1 H2 Hv1 Hv2 Hpc'. pose proof (wr_length _ (wm_regs _ Hm)) as Hl.
  unfold PCReg, NumTotalRegs in *. simpl. split_and!; try done.
  - destruct mem_step_refl as [Hs [? ?] Hf]. split; [|by split|done]. by split.
  - by rewrite !length_insert.
  - apply Forall_insert; [|done]. apply Forall_insert; [|done]. apply Forall_regs.
  - unfold PCReg. intros k Hk. rewrite reg_set_reg by (rewrite ?length_set_reg, ?Hl; lia).
    rewrite reg_set_reg by (rewrite ?Hl; lia).
    destruct (Z.eqb_spec k r2), (Z.eqb_spec k r1); [lia..|done].
Qed.

Lemma assign1_ok r v pc :
  0 <= r < PCReg → int32 v → int32 pc → exec_post instr m (jump_ (set_reg m r v) pc).
Proof.
  intros Hr Hv Hpc'. pose proof (assign2_ok r v r v pc Hr Hr Hv Hv Hpc') as H.
  replace (set_reg (set_reg m r v) r v) with (set_reg m r v) in H; [done|].
  unfold set_reg, set_registers; simpl. by rewrite list_insert_insert_eq.
Qed.

Lemma assign_ok r v : 0 <= r < PCReg → int32 v → exec_post instr m (assign pcAfter m r v).
Proof. intros. by apply assign1_ok. Qed.

Lemma jump_ok pc : int32 pc → exec_post instr m (jump_ m pc).
Proof.
  intros. simpl. split_and!; try done; [apply mem_step_refl|apply Forall_regs].
Qed.

Lemma raise_ok e bad : int32 bad → exec_post instr m (Ok (Raise m e bad)).
Proof. intros. simpl. by split_and!. Qed.

Lemma writing_ok addr size value :
  int32 addr → size = 1 ∨ size = 2 ∨ size = 4 →
  exec_post instr m (writing pcAfter m addr size value).
Proof.
  intros Ha Hs. destruct Hm as [[Hl Hf Hz Hld] Htr Hmem]. unfold writing.
  destruct (WriteMem_spec m addr size value Htr Hmem Hs) as (r & m' & HW & Hsm & Hreg & Hr).
  destruct (WriteMem_frame m addr size value r m' Htr Hmem Hs HW) as (Hmem' & _ & _ & Hfr).
  rewrite HW; simpl. destruct r as [[e b]|].
  - destruct Hr as (-> & -> & _). by split_and!.
  - simpl. unfold reg. rewrite Hreg. by split_and!.
Qed.

Lemma reading_ok addr size k :
  int32 addr → size = 1 ∨ size = 2 ∨ size = 4 →
  (∀ v m', int32 v → same_map m m' → registers m' = registers m →
     mainMemory m' = mainMemory m → exec_post instr m (k v m')) →
  exec_post instr m (reading m addr size k).
Proof.
  intros Ha Hs Hk. destruct Hm as [[Hl Hf Hz Hld] Htr Hmem]. unfold reading.
  destruct (ReadMem_spec m addr size Htr Hmem Hs) as (r & m' & -> & Hsm & Hreg & Hmm & Hr).
  simpl. destruct r as [[e b]|v].
  - destruct Hr as (-> & -> & _). by split_and!.
  - by apply Hk.
Qed.

Lemma loading_ok m' v :
  same_map m m' → registers m' = registers m → mainMemory m' = mainMemory m →
  int32 v → exec_post instr m (loading instr pcAfter m' v).
Proof.
  intros Hs Hr Hmm Hv. destruct Hm as [[Hl Hf Hz Hld] Htr [Hlen Hby]]. simpl.
  unfold reg. rewrite Hr. destruct Hi. split_and!; try done; try lia.
  split; [done|by split; rewrite Hmm|]. intros. by rewrite Hmm.
Qed.
End Exec.

Lemma Mult_int32 a b sg : ∃ h l, Mult a b sg = (h, l) ∧ int32 h ∧ int32 l.
Proof.
  unfold Mult. destruct (_ || _); [by exists 0, 0|].
  destruct (if sg then _ else _) as [[neg a'] b'].
  destruct (if neg then _ else _) as [h l]. exists (s32 h), (s32 l).
  split_and!; try done; apply s32_range.
Qed.

(** ** The cases of the switch *)

(** Close the case of an instruction that assigns a register, jumps, raises an
    exception or accesses memory. *)
Ltac exec_case :=
  lazymatch goal with
  | |- exec_post _ _ (break_ _ (set_reg (set_reg _ _ _) _ _)) => apply assign2_ok
  | |- exec_post _ _ (break_ _ (set_reg _ _ _)) => apply assign1_ok
  | |- exec_post _ _ (break_ _ _) => apply break_ok
  | |- exec_post _ _ (assign _ _ _ _) => apply assign_ok
  | |- exec_post _ _ (jump_ (set_reg _ _ _) _) => apply assign1_ok
  | |- exec_post _ _ (jump_ _ _) => apply jump_ok
  | |- exec_post _ _ (Ok (Raise _ _ _)) => apply raise_ok
  | |- exec_post _ _ (writing _ _ _ _ _) => apply writing_ok
  | |- exec_post _ _ (loading _ _ _ _) => apply loading_ok
  | |- exec_post _ _ (if ?b then _ else _) => destruct b eqn:?; exec_case
  end.

Ltac exec_side :=
  try done; unfold PCReg, NumGPRegs, HiReg, LoReg, R31 in *;
  eauto 6 using reg_ok, reg_int32, Forall_regs with nachos lia.

(** The definition that handles an opcode, in the order of the chain. *)
Definition op_block (op : OpCode) : nat :=
  match op with
  | OP_ADD | OP_ADDI | OP_ADDIU | OP_ADDU | OP_AND | OP_ANDI | OP_BEQ | OP_BGEZ
  | OP_BGEZAL | OP_BGTZ | OP_BLEZ | OP_BLTZ | OP_BLTZAL | OP_BNE => 0
  | OP_DIV | OP_DIVU | OP_J | OP_JAL | OP_JALR | OP_JR => 1
  | OP_LB | OP_LBU | OP_LH | OP_LHU | OP_LUI | OP_LW | OP_LWL | OP_LWR => 2
  | OP_SUB | OP_SUBU | OP_SW | OP_SWL | OP_SWR => 4
  | OP_XOR | OP_XORI | OP_SYSCALL | OP_UNIMP | OP_RES => 5
  | OP_RFE | SPECIAL | BCOND => 6
  | _ => 3
  end.

(** Case analysis on the opcode; the ones of other blocks go. *)
Ltac op_cases H :=
  match type of H with context [op_block ?o] =>
    destruct o eqn:?; cbn [op_block] in H; try (exfalso; lia)
  end.

Section Cases.
Context (instr : Instruction) (pcAfter : Z) (m : Machine).
Context (Hi : wf_instr instr) (Hpc : int32 pcAfter) (Hm : wf_machine m).

Lemma assert_aligned (k : outcome exec_result) :
  unaligned_op (opCode instr) = true →
  (Z.land (s32 (reg m (rs instr) + extra instr)) 3 = 0 → exec_post instr m k) →
  exec_post instr m (ASSERT (Z.land (s32 (reg m (rs instr) + extra instr)) 3 =? 0) ≫= λ _, k).
Proof.
  intros Hop Hk. destruct (Z.eqb_spec (Z.land (s32 (reg m (rs instr) + extra instr)) 3) 0); simpl; auto.
Qed.

Lemma exec_rest_ok :
  op_block (opCode instr) = 5%nat → exec_post instr m (exec_rest instr pcAfter m).
Proof.
  intros Hop. unfold exec_rest. destruct Hi as [? ? ? ? _ _].
  op_cases Hop; exec_case; exec_side.
Qed.

Lemma exec_SUB_SWR_ok :
  (4 <= op_block (opCode instr) <= 5)%nat → exec_post instr m (exec_SUB_SWR instr pcAfter m).
Proof.
  intros Hop. unfold exec_SUB_SWR. destruct Hi as [? ? ? ? _ _].
  pose proof exec_rest_ok as Hrest.
  op_cases Hop; try (apply Hrest; done).
  1-3: exec_case; exec_side.
  all: apply assert_aligned; [by rewrite Heqo|intros _].
  all: apply reading_ok; [done|exec_side|exec_side|].
  all: intros v m' Hv Hs Hr Hmm; eapply exec_post_same; [exact Hs|done|done|].
  all: apply writing_ok; [done|by eapply wf_machine_same|exec_side|exec_side].
Qed.

Lemma exec_MFHI_SRLV_ok :
  (3 <= op_block (opCode instr) <= 5)%nat → exec_post instr m (exec_MFHI_SRLV instr pcAfter m).
Proof.
  intros Hop. unfold exec_MFHI_SRLV. destruct Hi as [? ? ? ? _ Hsh].
  pose proof exec_SUB_SWR_ok as Hrest.
  destruct (Mult_int32 (reg m (rs instr)) (reg m (rt instr)) true) as (h1 & l1 & -> & Hh1 & Hl1).
  destruct (Mult_int32 (reg m (rs instr)) (reg m (rt instr)) false) as (h2 & l2 & -> & Hh2 & Hl2).
  op_cases Hop; try (apply Hrest; cbn [op_block]; lia); try (destruct Hsh as [Hs0 Hs1]; [by repeat constructor|]).
  all: exec_case; exec_side.
Qed.

Lemma exec_LB_LWR_ok :
  (2 <= op_block (opCode instr) <= 5)%nat → exec_post instr m (exec_LB_LWR instr pcAfter m).
Proof.
  intros Hop. unfold exec_LB_LWR. destruct Hi as [? ? ? ? _ _].
  pose proof exec_MFHI_SRLV_ok as Hrest.
  assert (Htmp : int32 (s32 (reg m (rs instr) + extra instr))) by apply s32_range.
  assert (Hread : ∀ size f, size = 1 ∨ size = 2 ∨ size = 4 →
    (∀ v m', int32 v → registers m' = registers m → int32 (f v m')) →
    exec_post instr m (reading m (s32 (reg m (rs instr) + extra instr)) size
      (λ v m', loading instr pcAfter m' (f v m')))).
  { intros size f Hs Hf. apply reading_ok; [done|done|done|].
    intros v m' Hv Hsm Hr Hmm. apply loading_ok; auto. }
  assert (Hbits : ∀ (c : Z → bool) size f g, size = 1 ∨ size = 2 ∨ size = 4 →
    (∀ v, int32 v → int32 (f v)) → (∀ v, int32 v → int32 (g v)) →
    exec_post instr m (reading m (s32 (reg m (rs instr) + extra instr)) size
      (λ v m', if c v then loading instr pcAfter m' (f v) else loading instr pcAfter m' (g v)))).
  { intros c size f g Hs Hf Hg. apply reading_ok; [done|done|done|].
    intros v m' Hv Hsm Hr Hmm. destruct (c v); apply loading_ok; auto. }
  op_cases Hop; try (apply Hrest; cbn [op_block]; lia).
  1-2: apply Hbits; eauto with nachos.
  1-2: destruct (negb _); [exec_case; done|apply Hbits; eauto with nachos].
  1: exec_case; exec_side.
  1: destruct (negb _); [exec_case; done|apply (Hread 4 (λ v _, v)); eauto].
  all: apply assert_aligned; [by rewrite Heqo|intros ->].
  all: cbv zeta; apply Hread; [auto|intros v m' Hv Hr; eauto with nachos].
Qed.

Lemma exec_DIV_JR_ok :
  (1 <= op_block (opCode instr) <= 5)%nat → exec_post instr m (exec_DIV_JR instr pcAfter m).
Proof.
  intros Hop. unfold exec_DIV_JR. pose proof Hi as [? ? ? ? _ _].
  pose proof exec_LB_LWR_ok as Hrest.
  op_cases Hop; try (apply Hrest; cbn [op_block]; lia).
  - destruct (Z.eqb_spec (reg m (rt instr)) 0) as [|Hnz]; [exec_case; exec_side|].
    destruct (Z.eqb_spec (reg m (rs instr)) (- 2 ^ 31)), (Z.eqb_spec (reg m (rt instr)) (-1)); simpl andb;
      cbv iota; [done|..]; exec_case; exec_side;
      try (apply int32_quot; [apply reg_ok; done|apply reg_ok; done|done|lia]);
      try (apply int32_rem; [apply reg_ok; done|apply reg_ok; done|done]).
  - destruct (u32 _ =? 0); exec_case; exec_side.
  - exec_case; exec_side.
  - exec_case; exec_side.
  - exec_case; exec_side. apply reg_int32, set_reg_int32; [apply Forall_regs; done|apply s32_range].
  - exec_case; exec_side.
Qed.

Lemma exec_ADD_BNE_ok :
  (op_block (opCode instr) <= 5)%nat → exec_post instr m (exec_ADD_BNE instr pcAfter m).
Proof.
  intros Hop. unfold exec_ADD_BNE. pose proof Hi as [? ? ? ? _ _].
  pose proof exec_DIV_JR_ok as Hrest.
  op_cases Hop; try (apply Hrest; cbn [op_block]; lia).
  all: try exec_case; exec_side.
Qed.
End Cases.

(** ** Decoding *)

Lemma land_ones_mod z n : 0 <= n → Z.land z (Z.ones n) = z mod 2 ^ n.
Proof. intros. by apply Z.land_ones. Qed.

(** Sign extension of a 16-bit immediate. *)
Lemma sign_extend x :
  0 <= x < 2 ^ 16 →
  (if negb (Z.land x 0x8000 =? 0) then s32 (Z.lor x 0xffff0000) else x) =
  if x <? 2 ^ 15 then x else x - 2 ^ 16.
Proof.
  intros Hx. change 0x8000 with (2 ^ 15). rewrite land_pow2_eqb, negb_involutive by lia.
  assert (Hb : Z.testbit x 15 = negb (x <? 2 ^ 15)).
  { rewrite Z.testbit_odd, Z.shiftr_div_pow2 by lia. destruct (Z.ltb_spec x (2 ^ 15)).
    - by rewrite Z.div_small by lia.
    - replace (x / 2 ^ 15) with 1; [done|]. apply Z.div_unique with (x - 2 ^ 15); lia. }
  rewrite Hb. destruct (Z.ltb_spec x (2 ^ 15)); [done|]. cbn [negb].
  assert (Hl : Z.land x 0xffff0000 = 0).
  { apply Z.bits_inj'. intros n Hn. rewrite Z.land_spec, Z.bits_0.
    change 0xffff0000 with (Z.ones 16 * 2 ^ 16). destruct (Z.ltb_spec n 16).
    - by rewrite Z.mul_pow2_bits_low, andb_false_r by lia.
    - replace x with (x mod 2 ^ 16) by (apply Z.mod_small; lia).
      by rewrite Z.mod_pow2_bits_high by lia. }
  rewrite <- Z.lxor_lor, <- Z.add_nocarry_lxor by done.
  rewrite s32_of_u32 by lia. destruct (Z.ltb_spec (x + 0xffff0000) (2 ^ 31)); lia.
Qed.

(** The rows of opTable that are not decoded further. *)
Definition plain_op (op : OpCode) : Prop := op ≠ SPECIAL ∧ op ≠ BCOND.

Lemma opTable_rows :
  Forall (λ r : OpCode * Format, r.1 ≠ OP_RFE ∧ (r.1 = SPECIAL → r.2 = RFMT) ∧
    r.1 ∉ [OP_SLL; OP_SRA; OP_SRL]) opTable.
Proof. apply (bool_decide_unpack _). by vm_compute. Qed.

Lemma specialTable_rows :
  Forall (λ op, op ≠ OP_RFE ∧ op ≠ SPECIAL ∧ op ≠ BCOND) specialTable.
Proof. apply (bool_decide_unpack _). by vm_compute. Qed.

Lemma Forall_default {A} (P : A → Prop) l n d : Forall P l → P d → P (default d (l !! n)).
Proof.
  intros Hl Hd. destruct (l !! n) eqn:E; simpl; [|done]. by eapply Forall_lookup_1 in Hl.
Qed.

Lemma Decode_wf v : wf_instr (Decode v).
Proof.
  unfold Decode.
  pose proof (Forall_default _ _ (Z.to_nat (Z.land (Z.shiftr v 26) 0x3f)) (OP_RES, IFMT) opTable_rows)
    as Hrow. pose proof (Forall_default _ _ (Z.to_nat (Z.land v 0x3f)) OP_RES specialTable_rows) as Hsp.
  destruct (default _ (opTable !! _)) as [op fmt]. cbn [fst snd] in Hrow.
  destruct Hrow as (Hrfe & Hfmt & Hnsh); [split_and!; try done; set_solver|].
  destruct Hsp as (Hs1 & Hs2 & Hs3); [done|].
  assert (Hext : int32 (match fmt with
    | IFMT => if negb (Z.land (Z.land v 0xffff) 0x8000 =? 0)
              then s32 (Z.lor (Z.land v 0xffff) 0xffff0000) else Z.land v 0xffff
    | RFMT => Z.land (Z.shiftr v 6) 0x1f | JFMT => Z.land v 0x3ffffff end)).
  { destruct fmt.
    - change 0xffff with (Z.ones 16). rewrite land_ones_mod by lia.
      pose proof (Z.mod_pos_bound v (2 ^ 16) ltac:(lia)). rewrite sign_extend by lia.
      unfold int32. destruct (_ <? _); lia.
    - change 0x3ffffff with (Z.ones 26). rewrite land_ones_mod by lia.
      pose proof (Z.mod_pos_bound v (2 ^ 26) ltac:(lia)). unfold int32. lia.
    - pose proof (land_31_range (Z.shiftr v 6)). unfold int32. lia. }
  split; cbn [rs rt rd extra opCode]; try apply land_31_range; try done.
  - destruct op; try done; repeat case_match; done.
  - destruct (decide (op = SPECIAL)) as [->|Hns].
    + rewrite (Hfmt eq_refl) in *. intros _. apply land_31_range.
    + intros Hin. exfalso. destruct op; try done; revert Hin; repeat case_match; set_solver.
Qed.

(** ** One instruction *)

Lemma DelayedLoad_spec m nr nv :
  length (registers m) = Z.to_nat NumTotalRegs → 0 <= reg m LoadReg < NumGPRegs →
  Forall int32 (registers m) → int32 nr → int32 nv →
  ∃ m', DelayedLoad m nr nv = Ok m' ∧ m' = set_registers m (registers m') ∧
    length (registers m') = Z.to_nat NumTotalRegs ∧ Forall int32 (registers m') ∧
    ∀ k, 0 <= k < NumTotalRegs →
      reg m' k = if k =? 0 then 0 else if k =? LoadValueReg then nv else if k =? LoadReg then nr
                 else if k =? reg m LoadReg then reg m LoadValueReg else reg m k.
Proof.
  intros Hl Hr Hf Hnr Hnv. unfold DelayedLoad, NumGPRegs, NumTotalRegs in *.
  assert (Hlz : Z.of_nat (length (registers m)) = 40) by (rewrite Hl; done).
  rewrite aset_in_range by lia. cbn [mbind outcome_bind].
  fold (set_reg m (reg m LoadReg) (reg m LoadValueReg)).
  eexists. split; [done|]. split; [done|]. split.
  { rewrite !length_set_reg. done. }
  split.
  { repeat apply set_reg_int32; try done. by apply reg_int32. }
  intros k Hk. do 4 (rewrite reg_set_reg by (rewrite ?length_set_reg, ?Hlz; unfold LoadReg, LoadValueReg in *; lia)).
  done.
Qed.

(** The instruction about to run. *)
Definition fetched (m : Machine) (instr : Instruction) : Prop :=
  ∃ raw m1, ReadMem m (reg m PCReg) 4 = Ok (inr raw, m1) ∧ instr = Decode (u32 raw).

(** The instruction cannot be simulated: an unaligned LWL, LWR, SWL or SWR
    (ASSERT in the source), or INT_MIN / -1 (a trap of the host). *)
Definition stuck (m : Machine) (instr : Instruction) : Prop :=
  (unaligned_op (opCode instr) = true ∧ Z.land (s32 (reg m (rs instr) + extra instr)) 3 ≠ 0) ∨
  (opCode instr = OP_DIV ∧ reg m (rs instr) = - 2 ^ 31 ∧ reg m (rt instr) = -1).

(** The registers after a trap: the pending load is done and the bad address
    recorded; every other register is as it was. *)
Definition precise (m m' : Machine) : Prop :=
  mainMemory m' = mainMemory m ∧
  ∀ k, 0 <= k < BadVAddrReg →
    reg m' k = if (k =? LoadValueReg) || (k =? LoadReg) then 0
               else if (k =? reg m LoadReg) && negb (k =? 0) then reg m LoadValueReg
               else reg m k.

Record step_ok (m : Machine) (r : step_result) (m' : Machine) : Prop := {
  so_regs : wf_regs m';
  so_mem : mem_step m m';
  so_load : reg m LoadReg ≠ 0 → reg m' (reg m LoadReg) = reg m LoadValueReg;
  so_pc : r = Next → reg m' PCReg = reg m NextPCReg ∧ reg m' PrevPCReg = reg m PCReg;
  so_trap : r ≠ Next → precise m m';
}.

Lemma RaiseException_ok m m1 e bad :
  wf_machine m → same_map m m1 → registers m1 = registers m → mainMemory m1 = mainMemory m →
  int32 bad → ∃ m', RaiseException m1 bad = Ok m' ∧ step_ok m (Trap e) m'.
Proof.
  intros Hm Hs Hr Hmm Hbad. destruct (wf_machine_same m m1 Hs Hr Hmm Hm) as [[Hl Hf Hz Hld] Htr Hmem].
  assert (Hreg : ∀ k, reg m1 k = reg m k) by (intros; unfold reg; by rewrite Hr).
  assert (Hlz : Z.of_nat (length (registers m1)) = 40) by (rewrite Hl; done).
  assert (Hlr : reg (set_reg m1 BadVAddrReg bad) LoadReg = reg m LoadReg).
  { rewrite reg_set_reg, Hreg by (rewrite ?Hlz; unfold LoadReg, BadVAddrReg; lia). done. }
  destruct (DelayedLoad_spec (set_reg m1 BadVAddrReg bad) 0 0) as (m' & HD & Hm' & Hl' & Hf' & Hk).
  { by rewrite length_set_reg. }
  { by rewrite Hlr, <- Hreg. }
  { by apply set_reg_int32. }
  1-2: by apply int32_small.
  assert (Hk' : ∀ k, 0 <= k < BadVAddrReg → reg m' k = if k =? 0 then 0 else
    if k =? LoadValueReg then 0 else if k =? LoadReg then 0 else
    if k =? reg m LoadReg then reg m LoadValueReg else reg m k).
  { intros k Hrange. rewrite Hk by (unfold NumTotalRegs, BadVAddrReg in *; lia). rewrite Hlr.
    rewrite !reg_set_reg, !Hreg by (rewrite ?Hlz; unfold LoadValueReg, BadVAddrReg in *; lia).
    destruct (Z.eqb_spec k BadVAddrReg); [lia|]. done. }
  rewrite Hreg in Hld. rewrite Hreg in Hz.
  exists m'. split; [done|]. unfold BadVAddrReg in *. split.
  - split; [done|done|by rewrite Hk'|]. rewrite Hk' by (unfold LoadReg; lia). done.
  - rewrite Hm'. destruct Hs. split; [by split|by split; apply Hmem|]. intros. simpl. by rewrite Hmm.
  - intros Hnz. unfold NumGPRegs, LoadValueReg, LoadReg in *. rewrite Hk' by lia.
    case_Z; try lia; done.
  - done.
  - intros _. split; [rewrite Hm'; simpl; done|]. intros k Hrange. rewrite Hk' by done.
    destruct (Z.eqb_spec k 0) as [->|]; [|by destruct (k =? LoadValueReg), (k =? LoadReg), (k =? reg m LoadReg)].
    simpl. by rewrite andb_false_r.
Qed.

Lemma wf_op_block instr : wf_instr instr → (op_block (opCode instr) <= 5)%nat.
Proof.
  intros [_ _ _ _ (H1 & H2 & H3) _]. destruct (opCode instr); cbn [op_block]; by try lia.
Qed.

Lemma Break_ok m m2 pc lr lv :
  wf_machine m → exec_ok m (Break m2 pc lr lv) →
  match m3 ← DelayedLoad m2 lr lv;
    let m3 := set_reg m3 PrevPCReg (reg m3 PCReg) in
    let m3 := set_reg m3 PCReg (reg m3 NextPCReg) in
    Ok (Next, set_reg m3 NextPCReg pc) with
  | Ok (r, m') => step_ok m r m'
  | _ => False
  end.
Proof.
  intros Hm ([Hs Hmem Hfr] & Hl & Hf & Hpc & Hlv & Hlr & Hk).
  pose proof (wm_regs _ Hm) as [Hl0 _ Hz Hld]. rewrite Hl0 in Hl.
  assert (HLR : reg m2 LoadReg = reg m LoadReg) by (apply Hk; done).
  destruct (DelayedLoad_spec m2 lr lv) as (m3 & -> & Hm3 & Hl3 & Hf3 & Hk3); try done.
  { by rewrite HLR. }
  { unfold int32, NumGPRegs in *. lia. }
  cbn [mbind outcome_bind]. cbv zeta. unfold NumTotalRegs in *.
  assert (Hlz : Z.of_nat (length (registers m3)) = 40) by (rewrite Hl3; done).
  assert (HK : ∀ k, 0 <= k < 40 → reg (set_reg (set_reg (set_reg m3 PrevPCReg (reg m3 PCReg)) PCReg
     (reg (set_reg m3 PrevPCReg (reg m3 PCReg)) NextPCReg)) NextPCReg pc) k =
     if k =? NextPCReg then pc else if k =? PCReg then reg m NextPCReg
     else if k =? PrevPCReg then reg m PCReg else reg m3 k).
  { intros k Hrange. unfold PrevPCReg, PCReg, NextPCReg, LoadReg, LoadValueReg, NumGPRegs in *.
    do 4 rewrite reg_set_reg by (rewrite ?length_set_reg, ?Hlz; lia).
    rewrite !Hk3 by lia. rewrite HLR, !Hk by lia. case_Z; try lia; done. }
  set (m' := set_reg _ NextPCReg pc) in *.
  split.
  - split.
    + unfold m'. by rewrite !length_set_reg.
    + unfold m'. repeat apply set_reg_int32; try done; apply reg_int32; [done|].
      apply set_reg_int32; [done|by apply reg_int32].
    + rewrite HK by lia. rewrite Hk3 by lia. done.
    + rewrite HK by (unfold LoadReg; lia). rewrite Hk3 by (unfold LoadReg; lia). done.
  - unfold m'. rewrite Hm3. destruct Hs. split; [by split|done|done].
  - intros Hnz. unfold PrevPCReg, PCReg, NextPCReg, LoadReg, LoadValueReg, NumGPRegs in *.
    rewrite HK by lia. rewrite Hk3 by lia. rewrite HLR, !Hk by lia. case_Z; try lia; done.
  - intros _. rewrite !HK by (unfold PCReg, PrevPCReg; lia). done.
  - done.
Qed.

Lemma OneInstruction_spec m :
  wf_machine m →
  match OneInstruction m with
  | Ok (r, m') => step_ok m r m'
  | Aborted | Undef => ∃ instr, fetched m instr ∧ stuck m instr
  | Halted | NoFuel => False
  end.
Proof.
  intros Hm. unfold OneInstruction.
  destruct (ReadMem_spec m (reg m PCReg) 4 (wm_tr _ Hm) (wm_mem _ Hm) ltac:(auto))
    as (r & m1 & HR & Hs & Hr & Hmm & Hv). rewrite HR; cbn [mbind outcome_bind].
  destruct r as [[e bad]|raw].
  { destruct Hv as (-> & -> & _).
    destruct (RaiseException_ok m m e (reg m PCReg)) as (m' & -> & Hok); try done.
    apply reg_ok; done. }
  assert (Hm1 : wf_machine m1) by by eapply wf_machine_same.
  assert (Hreg : ∀ k, reg m1 k = reg m k) by (intros; unfold reg; by rewrite Hr).
  pose proof (Decode_wf (u32 raw)) as Hi.
  pose proof (exec_ADD_BNE_ok (Decode (u32 raw)) (s32 (reg m1 NextPCReg + 4)) m1 Hi
    ltac:(apply s32_range) Hm1) as Hex.
  apply (exec_post_same _ m m1) in Hex; [|done..|]; last first.
  { by apply wf_op_block. }
  destruct (exec_ADD_BNE _ _ _) as [x| | | |]; cbn [mbind outcome_bind exec_post] in *; try done.
  - destruct x as [m2 pc lr lv|m2 e bad].
    + pose proof (Break_ok m m2 pc lr lv Hm Hex) as Hb. cbv zeta in Hb.
      by destruct (DelayedLoad m2 lr lv).
    + destruct Hex as (H1 & H2 & H3 & H4).
      by destruct (RaiseException_ok m m2 e bad) as (m' & -> & Hok).
  - exists (Decode (u32 raw)). split; [by exists raw, m1|by left].
  - exists (Decode (u32 raw)). split; [by exists raw, m1|by right].
Qed.

(** ** Theorems *)

(** C27: every instruction keeps the machine well formed.  From a machine with a
    valid register file (40 ints, R0 zero, a pending load into a general
    register), installed translations and physical memory of MemorySize bytes,
    OneInstruction returns such a machine again, whatever word is fetched and
    whether or not it traps; the only exceptions are the unaligned LWL, LWR,
    SWL, SWR the source asserts against and the quotient INT_MIN / -1. *)
Theorem OneInstruction_invariant m :
  wf_machine m →
  (∃ r m', OneInstruction m = Ok (r, m') ∧ wf_machine m' ∧ same_map m m') ∨
  (∃ instr, fetched m instr ∧ stuck m instr).
Proof.
  intros Hm. pose proof (OneInstruction_spec m Hm) as H.
  destruct (OneInstruction m) as [[r m']| | | |]; auto; [|done|done].
  left. exists r, m'. destruct H as [Hr [Hs Hmem _] _ _ _]. split; [done|]. split; [|done].
  split; [done| |done]. by eapply wf_tr_same, Hm.
Qed.

Lemma demo_wf_machine : wf_machine demo_machine.
Proof.
  split; [|exact demo_wf_tr|exact demo_wf_mem]. split; [done| |done|done].
  cbn [demo_machine load_page_table set_ptables registers Machine_new].
  apply Forall_replicate. by apply int32_small.
Qed.

Lemma OneInstruction_invariant_witness :
  wf_machine demo_machine ∧
  ((∃ r m', OneInstruction demo_machine = Ok (r, m') ∧ wf_machine m' ∧ same_map demo_machine m') ∨
   (∃ instr, fetched demo_machine instr ∧ stuck demo_machine instr)).
Proof. split; [exact demo_wf_machine|apply (OneInstruction_invariant demo_machine demo_wf_machine)]. Defined.

(** Isolation of user programs.  Whatever instruction a user program
    executes, every byte of physical memory outside the frames that its own
    writable pages map to keeps its value. *)
Theorem OneInstruction_isolated m r m' i :
  wf_machine m → OneInstruction m = Ok (r, m') →
  ¬ writable_frame m (Z.of_nat i / PageSize) → mainMemory m' !! i = mainMemory m !! i.
Proof.
  intros Hm Hst. pose proof (OneInstruction_spec m Hm) as H. rewrite Hst in H.
  destruct H as [_ [_ _ Hf] _ _ _]. apply Hf.
Qed.

(** The demo machine with a pending load of 7 into r5 and a given pc. *)
Definition demo_at (pc : Z) : Machine :=
  set_reg (set_reg (set_reg demo_machine PCReg pc) LoadReg 5) LoadValueReg 7.

Lemma demo_at_wf pc : int32 pc → wf_machine (demo_at pc).
Proof.
  intros Hpc. destruct demo_wf_machine as [[Hl Hf Hz Hld] Htr Hmem].
  assert (Hlz : Z.of_nat (length (registers demo_machine)) = 40) by done.
  split; [|exact Htr|exact Hmem]. split; [done| | |].
  - by repeat apply set_reg_int32.
  - unfold demo_at, PCReg, LoadReg, LoadValueReg.
    rewrite !reg_set_reg by (rewrite ?length_set_reg, ?Hlz; lia). done.
  - unfold demo_at, PCReg, LoadReg, LoadValueReg.
    rewrite !reg_set_reg by (rewrite ?length_set_reg, ?Hlz; lia). done.
Qed.

Definition is_Next (o : outcome (step_result * Machine)) : bool :=
  match o with Ok (Next, _) => true | _ => false end.

Definition is_Trap (o : outcome (step_result * Machine)) : bool :=
  match o with Ok (Trap AddressErrorException, _) => true | _ => false end.

Lemma is_Next_Ok o : is_Next o = true → ∃ m', o = Ok (Next, m').
Proof. destruct o as [[[] m']| | | |]; try done. eauto. Qed.

Lemma is_Trap_Ok o : is_Trap o = true → ∃ m', o = Ok (Trap AddressErrorException, m').
Proof. destruct o as [[[|[]] m']| | | |]; try done. eauto. Qed.

Lemma OneInstruction_isolated_witness :
  ∃ m', OneInstruction (demo_at 4) = Ok (Next, m') ∧
    (¬ writable_frame (demo_at 4) 0 → mainMemory m' !! 9%nat = mainMemory (demo_at 4) !! 9%nat).
Proof.
  destruct (is_Next_Ok (OneInstruction (demo_at 4)) ltac:(vm_compute; reflexivity)) as [m' H].
  exists m'. split; [exact H|].
  apply (OneInstruction_isolated (demo_at 4) Next m' 9%nat); [|exact H].
  apply demo_at_wf. apply int32_small; lia.
Defined.

(** C26: exceptions are precise.  When an instruction traps, memory and every
    register but the bad-address register are as before it, except that the
    load pending from the previous instruction has been completed; in
    particular the program counters still name the instruction, so that it is
    restarted after the handler. *)
Theorem OneInstruction_precise m e m' :
  wf_machine m → OneInstruction m = Ok (Trap e, m') →
  precise m m' ∧ reg m' PCReg = reg m PCReg ∧ reg m' NextPCReg = reg m NextPCReg.
Proof.
  intros Hm Hst. pose proof (OneInstruction_spec m Hm) as H. rewrite Hst in H.
  destruct H as [_ _ _ _ Ht]. destruct Ht as [Hmm Hk]; [done|].
  pose proof (wr_load _ (wm_regs _ Hm)) as Hld.
  split; [by split|]. unfold BadVAddrReg, PCReg, NextPCReg, LoadReg, LoadValueReg, NumGPRegs in *.
  rewrite !Hk by lia. split; case_Z; try lia; done.
Qed.

Lemma OneInstruction_precise_witness :
  ∃ m', OneInstruction (demo_at 6) = Ok (Trap AddressErrorException, m') ∧
    reg m' PCReg = reg (demo_at 6) PCReg.
Proof.
  destruct (is_Trap_Ok (OneInstruction (demo_at 6)) ltac:(vm_compute; reflexivity)) as [m' H].
  exists m'. split; [exact H|].
  apply (OneInstruction_precise (demo_at 6) AddressErrorException m'); [|exact H].
  apply demo_at_wf. apply int32_small; lia.
Defined.

(** The load delay slot.  A load pending in LoadReg and LoadValueReg is in
    its register after the next instruction, whether that instruction
    completes or traps and even if it writes the register itself; and a
    completed instruction moves the program counter to NextPC, so the
    instruction after a branch is always executed. *)
Theorem OneInstruction_delay m r m' :
  wf_machine m → OneInstruction m = Ok (r, m') →
  (reg m LoadReg ≠ 0 → reg m' (reg m LoadReg) = reg m LoadValueReg) ∧
  (r = Next → reg m' PCReg = reg m NextPCReg ∧ reg m' PrevPCReg = reg m PCReg).
Proof.
  intros Hm Hst. pose proof (OneInstruction_spec m Hm) as H. rewrite Hst in H.
  destruct H as [_ _ Hl Hp _]. by split.
Qed.

Lemma OneInstruction_delay_witness :
  ∃ m', OneInstruction (demo_at 4) = Ok (Next, m') ∧ reg m' 5 = 7.
Proof.
  destruct (is_Next_Ok (OneInstruction (demo_at 4)) ltac:(vm_compute; reflexivity)) as [m' H].
  exists m'. split; [exact H|].
  destruct (OneInstruction_delay (demo_at 4) Next m') as [Hl _]; [|exact H|].
  - apply demo_at_wf. apply int32_small; lia.
  - apply Hl. vm_compute. discriminate.
Defined.

(** The sign test of the source on the exclusive or of two ints. *)
Lemma sign_lxor a b :
  int32 a → int32 b → (Z.land (Z.lxor a b) SIGN_BIT =? 0) = eqb (a <? 0) (b <? 0).
Proof.
  intros Ha Hb. change SIGN_BIT with (2 ^ 31). rewrite land_pow2_eqb by lia.
  rewrite Z.lxor_spec, !testbit_31_neg by done. by destruct (a <? 0), (b <? 0).
Qed.

(** The wrapped result has the wrong sign exactly when the sum does not fit. *)
Lemma add_overflow a b :
  int32 a → int32 b →
  eqb (a <? 0) (b <? 0) && negb (eqb (a <? 0) (s32 (a + b) <? 0)) = negb (int32b (a + b)).
Proof.
  intros Ha Hb. unfold int32, int32b in *.
  destruct (s32_eqm (a + b)) as [k Hk]. pose proof (s32_range (a + b)) as Hs.
  rewrite Hk in *. unfold int32 in Hs. case_Z; simpl; try done; lia.
Qed.

Lemma sub_overflow a b :
  int32 a → int32 b →
  negb (eqb (a <? 0) (b <? 0)) && negb (eqb (a <? 0) (s32 (a - b) <? 0)) = negb (int32b (a - b)).
Proof.
  intros Ha Hb. unfold int32, int32b in *.
  destruct (s32_eqm (a - b)) as [k Hk]. pose proof (s32_range (a - b)) as Hs.
  rewrite Hk in *. unfold int32 in Hs. case_Z; simpl; try done; lia.
Qed.

(** OP_SUB is not among the cases of the earlier blocks. *)
Lemma exec_SUB_reached instr pcAfter m :
  opCode instr = OP_SUB → exec_ADD_BNE instr pcAfter m = exec_SUB_SWR instr pcAfter m.
Proof.
  intros Hop. unfold exec_ADD_BNE. rewrite Hop. unfold exec_DIV_JR. rewrite Hop.
  unfold exec_LB_LWR. rewrite Hop. unfold exec_MFHI_SRLV. rewrite Hop. done.
Qed.

(** The result the MIPS manual gives for trapping arithmetic. *)
Definition checked (m : Machine) (pcAfter dest v : Z) : outcome exec_result :=
  if int32b v then assign pcAfter m dest v else Ok (Raise m OverflowException 0).

(** ADD, ADDI and SUB trap exactly on signed overflow.  The sign-bit tests
    of the source decide whether the mathematical result fits in 32 bits: if it
    does the destination receives it, otherwise OverflowException is raised and
    nothing changes. *)
Theorem arith_overflow instr pcAfter m :
  wf_instr instr → wf_machine m →
  let a := reg m (rs instr) in
  let b := reg m (rt instr) in
  (opCode instr = OP_ADD → exec_ADD_BNE instr pcAfter m = checked m pcAfter (rd instr) (a + b)) ∧
  (opCode instr = OP_ADDI →
     exec_ADD_BNE instr pcAfter m = checked m pcAfter (rt instr) (a + extra instr)) ∧
  (opCode instr = OP_SUB → exec_ADD_BNE instr pcAfter m = checked m pcAfter (rd instr) (a - b)).
Proof.
  intros Hi Hm a b. pose proof (reg_ok m Hm (rs instr)) as Ha. pose proof (reg_ok m Hm (rt instr)) as Hb.
  fold a in Ha. fold b in Hb. pose proof (wi_extra _ Hi) as He. unfold checked.
  assert (Hc : ∀ x, int32b x = true → s32 x = x).
  { intros x Hx. apply s32_id. unfold int32b in Hx. unfold int32. lia. }
  split_and!; intros Hop.
  - unfold exec_ADD_BNE. rewrite Hop. fold a b. cbv zeta.
    rewrite !sign_lxor, negb_involutive, add_overflow by (done || apply s32_range).
    destruct (int32b (a + b)) eqn:E; simpl; [by rewrite Hc|done].
  - unfold exec_ADD_BNE. rewrite Hop. fold a. cbv zeta.
    rewrite (Z.add_comm a). rewrite !sign_lxor, negb_involutive by (done || apply s32_range).
    replace (eqb (a <? 0) (extra instr <? 0)) with (eqb (extra instr <? 0) (a <? 0))
      by (by destruct (a <? 0), (extra instr <? 0)).
    rewrite add_overflow by done.
    destruct (int32b (extra instr + a)) eqn:E; simpl; [by rewrite Hc|done].
  - rewrite exec_SUB_reached by done. unfold exec_SUB_SWR. rewrite Hop. fold a b. cbv zeta.
    rewrite !sign_lxor, sub_overflow by (done || apply s32_range).
    destruct (int32b (a - b)) eqn:E; simpl; [by rewrite Hc|done].
Qed.

(** add r3,r5,r5 with r5 = 2^30: the sum 2^31 does not fit. *)
Lemma arith_overflow_witness :
  let m := set_reg demo_machine 5 (2 ^ 30) in
  let instr := mkInstr OP_ADD 5 5 3 0 in
  wf_instr instr ∧ exec_ADD_BNE instr 4 m = Ok (Raise m OverflowException 0).
Proof.
  intros m instr.
  assert (Hi : wf_instr instr).
  { split; try (unfold NumGPRegs; simpl; lia); try done. }
  split; [exact Hi|].
  destruct (arith_overflow instr 4 m Hi) as [H _]; [|exact (H eq_refl)].
  destruct demo_wf_machine as [[Hl Hf Hz Hld] Htr Hmem].
  split; [|exact Htr|exact Hmem]. split; [reflexivity| |reflexivity|vm_compute; split; congruence].
  apply set_reg_int32; [exact Hf|apply int32_small; lia].
Defined.

(** ** Instruction formats *)

(** The three instruction formats of the MIPS architecture. *)
Definition encode_R (rs rt rd shamt funct : Z) : Z :=
  rs * 2 ^ 21 + rt * 2 ^ 16 + rd * 2 ^ 11 + shamt * 2 ^ 6 + funct.

Definition encode_I (op rs rt imm : Z) : Z :=
  op * 2 ^ 26 + rs * 2 ^ 21 + rt * 2 ^ 16 + imm mod 2 ^ 16.

Definition encode_J (op target : Z) : Z := op * 2 ^ 26 + target.

Lemma field_R rs rt rd sh f :
  0 <= rs < 32 → 0 <= rt < 32 → 0 <= rd < 32 → 0 <= sh < 32 → 0 <= f < 64 →
  let v := encode_R rs rt rd sh f in
  v / 2 ^ 26 mod 2 ^ 6 = 0 ∧ v / 2 ^ 21 mod 2 ^ 5 = rs ∧ v / 2 ^ 16 mod 2 ^ 5 = rt ∧
  v / 2 ^ 11 mod 2 ^ 5 = rd ∧ v / 2 ^ 6 mod 2 ^ 5 = sh ∧ v mod 2 ^ 6 = f.
Proof.
  intros ????? v. unfold v, encode_R. split_and!; Z.to_euclidean_division_equations; lia.
Qed.

Lemma field_I op rs rt imm :
  0 <= op < 64 → 0 <= rs < 32 → 0 <= rt < 32 →
  let v := encode_I op rs rt imm in
  v / 2 ^ 26 mod 2 ^ 6 = op ∧ v / 2 ^ 21 mod 2 ^ 5 = rs ∧ v / 2 ^ 16 mod 2 ^ 5 = rt ∧
  v mod 2 ^ 16 = imm mod 2 ^ 16.
Proof.
  intros ??? v. unfold v, encode_I. split_and!; Z.to_euclidean_division_equations; lia.
Qed.

Lemma field_J op t :
  0 <= op < 64 → 0 <= t < 2 ^ 26 →
  let v := encode_J op t in v / 2 ^ 26 mod 2 ^ 6 = op ∧ v mod 2 ^ 26 = t.
Proof.
  intros ?? v. unfold v, encode_J. split; Z.to_euclidean_division_equations; lia.
Qed.

(** Decode written with quotients and remainders. *)
Lemma Decode_arith v :
  Decode v =
  let '(op, format) := default (OP_RES, IFMT) (opTable !! Z.to_nat (v / 2 ^ 26 mod 2 ^ 6)) in
  let imm := v mod 2 ^ 16 in
  mkInstr
    (match op with
     | SPECIAL => default OP_RES (specialTable !! Z.to_nat (v mod 2 ^ 6))
     | BCOND => opCode (Decode v)
     | op => op
     end)
    (v / 2 ^ 21 mod 2 ^ 5) (v / 2 ^ 16 mod 2 ^ 5) (v / 2 ^ 11 mod 2 ^ 5)
    (match format with
     | IFMT => if imm <? 2 ^ 15 then imm else imm - 2 ^ 16
     | RFMT => v / 2 ^ 6 mod 2 ^ 5
     | JFMT => v mod 2 ^ 26
     end).
Proof.
  unfold Decode. change 0x3f with (Z.ones 6). change 0x1f with (Z.ones 5).
  change 0xffff with (Z.ones 16). change 0x3ffffff with (Z.ones 26).
  rewrite !land_ones_mod, !Z.shiftr_div_pow2 by lia.
  rewrite sign_extend by (apply Z.mod_pos_bound; lia).
  destruct (default (OP_RES, IFMT) _) as [op fmt]. f_equal. by destruct op.
Qed.

(** Decode inverts the MIPS instruction formats: for R-format words the
    opcode of the funct field, three register numbers and the shift amount come
    out; for I-format words the opcode, two registers and the sign-extended
    16-bit immediate; for J-format words the opcode and the 26-bit target. *)
Theorem Decode_encode r_s r_t r_d sh f op imm t :
  0 <= r_s < 32 → 0 <= r_t < 32 → 0 <= r_d < 32 → 0 <= sh < 32 → 0 <= f < 64 →
  0 <= op < 64 → - 2 ^ 15 <= imm < 2 ^ 15 → 0 <= t < 2 ^ 26 →
  (∀ o, specialTable !! Z.to_nat f = Some o →
     Decode (encode_R r_s r_t r_d sh f) = mkInstr o r_s r_t r_d sh) ∧
  (∀ o, opTable !! Z.to_nat op = Some (o, IFMT) → plain_op o →
     let i := Decode (encode_I op r_s r_t imm) in
     opCode i = o ∧ rs i = r_s ∧ rt i = r_t ∧ extra i = imm) ∧
  (∀ o, opTable !! Z.to_nat op = Some (o, JFMT) → plain_op o →
     let i := Decode (encode_J op t) in opCode i = o ∧ extra i = t).
Proof.
  intros Hs Ht Hd Hsh Hf Hop Himm Htt. split_and!; intros o Ho.
  - rewrite Decode_arith. destruct (field_R r_s r_t r_d sh f) as (-> & -> & -> & -> & -> & ->); try done.
    cbn [opTable]. simpl default. by rewrite Ho.
  - intros [Hp1 Hp2]. rewrite Decode_arith.
    destruct (field_I op r_s r_t imm) as (-> & -> & -> & ->); try done. rewrite Ho. simpl default.
    cbn [opCode rs rt extra]. split; [by destruct o|]. split; [done|]. split; [done|].
    destruct (Z.ltb_spec (imm mod 2 ^ 16) (2 ^ 15)); Z.to_euclidean_division_equations; lia.
  - intros [Hp1 Hp2]. rewrite Decode_arith.
    destruct (field_J op t) as (-> & ->); try done. rewrite Ho. simpl default.
    cbn [opCode extra]. split; [by destruct o|done].
Qed.

(** addiu r29,r29,-24 *)
Lemma Decode_encode_witness :
  extra (Decode (encode_I 9 29 29 (-24))) = -24 ∧ Decode (encode_R 4 5 2 0 32) = mkInstr OP_ADD 4 5 2 0.
Proof.
  destruct (Decode_encode 29 29 0 0 0 9 (-24) 0) as (_ & HI & _); try lia.
  destruct (Decode_encode 4 5 2 0 32 0 0 0) as (HR & _); try lia.
  split; [apply (HI OP_ADDIU); [reflexivity|split; discriminate]|apply HR; reflexivity].
Defined.
