(* ===== verification/Interrupt.v ===== *)
(** * machine/interrupt.cc, machine/timer.cc, machine/stats.h: simulated time

    The interrupt controller: the enable level, the list of pending interrupts
    sorted by time, the simulated clock, and the timer device.  [pending] is
    the sequence the sorted List object represents (see NList for the list
    itself and the proof that SortedInsert and SortedRemove act on it as
    [sorted_insert] and as the removal of the head).  The functions of the
    device simulators are called through [call], and what they may do is the
    interface [HandlerLaws], which the timer is proved to satisfy.  OneTick and
    SetLevel return to their caller whether the current thread has to yield:
    the context switch itself is in Sched. *)

From Stdlib Require Import ZArith Lia Bool.
From S2P Require Import Prelude NList Bytes Machine.

Local Open Scope Z_scope.

Inductive IntStatus := IntOff | IntOn.
Inductive MachineStatus := IdleMode | SystemMode | UserMode.
Inductive IntType :=
| TimerInt | DiskInt | ConsoleWriteInt | ConsoleReadInt | NetworkSendInt | NetworkRecvInt.

#[export] Instance IntStatus_eq_dec : EqDecision IntStatus.
Proof. solve_decision. Defined.
#[export] Instance MachineStatus_eq_dec : EqDecision MachineStatus.
Proof. solve_decision. Defined.
#[export] Instance IntType_eq_dec : EqDecision IntType.
Proof. solve_decision. Defined.

(** ** machine/stats.h *)

Definition UserTick : Z := 1.
Definition SystemTick : Z := 10.
Definition RotationTime : Z := 500.
Definition SeekTime : Z := 500.
Definition ConsoleTime : Z := 100.
Definition NetworkTime : Z := 100.
Definition TimerTicks : Z := 100.

Record Statistics := mkStats {
  totalTicks : Z;
  idleTicks : Z;
  systemTicks : Z;
  userTicks : Z;
  numDiskReads : Z;
  numDiskWrites : Z;
  numConsoleCharsRead : Z;
  numConsoleCharsWritten : Z;
  numPageFaults : Z;
  numPacketsSent : Z;
  numPacketsRecvd : Z;
}.

Definition Statistics_new : Statistics := mkStats 0 0 0 0 0 0 0 0 0 0 0.

Definition set_ticks (t : Statistics) (total idle system user : Z) : Statistics :=
  mkStats total idle system user (numDiskReads t) (numDiskWrites t) (numConsoleCharsRead t)
    (numConsoleCharsWritten t) (numPageFaults t) (numPacketsSent t) (numPacketsRecvd t).

Section Interrupt.
(** [H]: the functions handlers point to; [W]: the rest of the system, which
    handlers may change. *)
Context {H W : Type}.

Record PendingInterrupt := mkPending {
  handler : H;
  arg : Z;
  when : Z;
  type : IntType;
}.

Record Interrupt := mkInterrupt {
  level : IntStatus;
  pending : list (Z * PendingInterrupt);
  inHandler : bool;
  yieldOnReturn : bool;
  status : MachineStatus;
}.

(** The globals interrupt, stats and machine, and everything else. *)
Record Sys := mkSys {
  interrupt : Interrupt;
  stats : Statistics;
  machine : option Machine;
  rest : W;
}.

Definition set_int (s : Sys) (i : Interrupt) : Sys := mkSys i (stats s) (machine s) (rest s).
Definition set_stats (s : Sys) (t : Statistics) : Sys := mkSys (interrupt s) t (machine s) (rest s).
Definition set_machine (s : Sys) (m : option Machine) : Sys := mkSys (interrupt s) (stats s) m (rest s).

Definition set_pending (s : Sys) (p : list (Z * PendingInterrupt)) : Sys :=
  let i := interrupt s in
  set_int s (mkInterrupt (level i) p (inHandler i) (yieldOnReturn i) (status i)).

(** interrupt->setStatus(st) *)
Definition setStatus (s : Sys) (st : MachineStatus) : Sys :=
  let i := interrupt s in
  set_int s (mkInterrupt (level i) (pending i) (inHandler i) (yieldOnReturn i) st).

Definition set_inHandler (s : Sys) (b : bool) : Sys :=
  let i := interrupt s in
  set_int s (mkInterrupt (level i) (pending i) b (yieldOnReturn i) (status i)).

Definition set_yieldOnReturn (s : Sys) (b : bool) : Sys :=
  let i := interrupt s in
  set_int s (mkInterrupt (level i) (pending i) (inHandler i) b (status i)).

Definition now (s : Sys) : Z := totalTicks (stats s).

Definition Interrupt_new : Interrupt := mkInterrupt IntOff [] false false SystemMode.

Definition ChangeLevel (s : Sys) (new : IntStatus) : Sys :=
  let i := interrupt s in
  set_int s (mkInterrupt new (pending i) (inHandler i) (yieldOnReturn i) (status i)).

Definition Schedule (s : Sys) (handler : H) (arg fromNow : Z) (type : IntType) : outcome Sys :=
  let when := s32 (now s + fromNow) in
  let toOccur := mkPending handler arg when type in
  _ ← ASSERT (fromNow >? 0);
  Ok (set_pending s (sorted_insert when toOccur (pending (interrupt s)))).

Definition YieldOnReturn (s : Sys) : outcome Sys :=
  _ ← ASSERT (inHandler (interrupt s));
  Ok (set_yieldOnReturn s true).

(** Halt: Cleanup() never returns. *)
Definition Halt {A} (s : Sys) : outcome A := Halted.

(** if (machine != NULL) machine->DelayedLoad(0, 0); *)
Definition finish_load (s : Sys) : outcome Sys :=
  match machine s with
  | None => Ok s
  | Some m => m ← DelayedLoad m 0 0; Ok (set_machine s (Some m))
  end.

Context (call : H → Z → Sys → outcome Sys).

(** The end of CheckIfDue: run the handler. *)
Definition fire (toOccur : PendingInterrupt) (s : Sys) : outcome Sys :=
  let old := status (interrupt s) in
  s ← finish_load s;
  let s := set_inHandler s true in
  let s := setStatus s SystemMode in
  s ← call (handler toOccur) (arg toOccur) s;
  let s := setStatus s old in
  Ok (set_inHandler s false).

Definition CheckIfDue (advanceClock : bool) (s : Sys) : outcome (bool * Sys) :=
  _ ← ASSERT (bool_decide (level (interrupt s) = IntOff));
  match pending (interrupt s) with
  | [] => Ok (false, s)
  | (when, toOccur) :: others =>
      let s := set_pending s others in
      let run (s : Sys) :=
        if bool_decide (status (interrupt s) = IdleMode) && bool_decide (type toOccur = TimerInt) &&
           bool_decide (pending (interrupt s) = [])
        then Ok (false, set_pending s (sorted_insert when toOccur (pending (interrupt s))))
        else s ← fire toOccur s; Ok (true, s) in
      if advanceClock && (when >? now s) then
        let t := stats s in
        run (set_stats s (set_ticks t when (s32 (idleTicks t + (when - totalTicks t)))
                            (systemTicks t) (userTicks t)))
      else if when >? now s then
        Ok (false, set_pending s (sorted_insert when toOccur (pending (interrupt s))))
      else run s
  end.

(** while (CheckIfDue(FALSE)) ; *)
Fixpoint CheckIfDue_loop (fuel : nat) (s : Sys) : outcome Sys :=
  match fuel with
  | O => NoFuel
  | S fuel =>
      '(fired, s) ← CheckIfDue false s;
      if (fired : bool) then CheckIfDue_loop fuel s else Ok s
  end.

Definition loop_fuel (s : Sys) : nat := S (length (pending (interrupt s))).

Definition advance (s : Sys) : Sys :=
  let t := stats s in
  match status (interrupt s) with
  | SystemMode =>
      set_stats s (set_ticks t (s32 (totalTicks t + SystemTick)) (idleTicks t)
                     (s32 (systemTicks t + SystemTick)) (userTicks t))
  | _ =>
      set_stats s (set_ticks t (s32 (totalTicks t + UserTick)) (idleTicks t)
                     (systemTicks t) (s32 (userTicks t + UserTick)))
  end.

(** OneTick up to the yield; [true] asks the caller to run Yield in the current
    thread, with [status] SystemMode, and to restore the status then. *)
Definition OneTick (s : Sys) : outcome (bool * Sys) :=
  let s := advance s in
  let s := ChangeLevel s IntOff in
  s ← CheckIfDue_loop (loop_fuel s) s;
  let s := ChangeLevel s IntOn in
  if yieldOnReturn (interrupt s)
  then Ok (true, setStatus (set_yieldOnReturn s false) SystemMode)
  else Ok (false, s).

(** SetLevel: the old level, and whether the caller has to yield. *)
Definition SetLevel (s : Sys) (new : IntStatus) : outcome (IntStatus * bool * Sys) :=
  let old := level (interrupt s) in
  _ ← ASSERT (bool_decide (new = IntOff) || negb (inHandler (interrupt s)));
  let s := ChangeLevel s new in
  if bool_decide (new = IntOn) && bool_decide (old = IntOff) then
    '(y, s) ← OneTick s; Ok (old, y, s)
  else Ok (old, false, s).

Definition Enable (s : Sys) : outcome (bool * Sys) :=
  '(_, y, s) ← SetLevel s IntOn; Ok (y, s).

Definition Idle (s : Sys) : outcome Sys :=
  let s := setStatus s IdleMode in
  '(fired, s) ← CheckIfDue true s;
  if (fired : bool) then
    s ← CheckIfDue_loop (loop_fuel s) s;
    Ok (setStatus (set_yieldOnReturn s false) SystemMode)
  else Halt s.

End Interrupt.

Arguments PendingInterrupt : clear implicits.
Arguments Interrupt : clear implicits.
Arguments Sys : clear implicits.

(** ** machine/timer.cc *)

Section Timer.
Context {H W : Type}.

Record Timer := mkTimer { randomize : bool; timer_handler : H; timer_arg : Z }.

(** [random] is what Random() returns: a non-negative int. *)
Definition TimeOfNextInterrupt (t : Timer) (random : Z) : Z :=
  if randomize t then 1 + Z.rem random (TimerTicks * 2) else TimerTicks.

(** The constructor schedules the first interrupt; [TimerHandler] names
    TimerHandler and [this] the object. *)
Definition Timer_new (TimerHandler : H) (this : Z) (handler : H) (callArg : Z) (doRandom : bool)
    (random : Z) (s : Sys H W) : outcome (Timer * Sys H W) :=
  let t := mkTimer doRandom handler callArg in
  s ← Schedule s TimerHandler this (TimeOfNextInterrupt t random) TimerInt;
  Ok (t, s).

(** TimerInterruptHandler of threads/system.cc. *)
Definition TimerInterruptHandler (s : Sys H W) : outcome (Sys H W) :=
  if bool_decide (status (interrupt s) ≠ IdleMode) then YieldOnReturn s else Ok s.

(** TimerExpired with the kernel's handler. *)
Definition TimerExpired (TimerHandler : H) (this : Z) (t : Timer) (random : Z) (s : Sys H W)
  : outcome (Sys H W) :=
  s ← Schedule s TimerHandler this (TimeOfNextInterrupt t random) TimerInt;
  TimerInterruptHandler s.
End Timer.

Arguments Timer : clear implicits.
