(* ===== verification/InterruptProofs.v ===== *)
(** * Theorems on simulated time: interrupts fire when due, in time order

    The interface [HandlerLaws] of the device simulators, the invariant of the
    pending list, what OneTick, SetLevel and Idle do, and the timer as an
    instance of the interface. *)

From Stdlib Require Import ZArith Lia Bool Sorted.
From S2P Require Import Prelude NList Bytes Machine Interrupt.

Local Open Scope Z_scope.

(** The load registers name a register. *)
Definition load_ok (m : Machine) : Prop :=
  length (registers m) = Z.to_nat NumTotalRegs ∧ 0 <= reg m LoadReg < NumTotalRegs.

Lemma DelayedLoad_total m : load_ok m → ∃ m', DelayedLoad m 0 0 = Ok m' ∧ load_ok m'.
Proof.
  intros [Hl Hr]. unfold DelayedLoad.
  assert (Hlz : Z.of_nat (length (registers m)) = NumTotalRegs) by (rewrite Hl; done).
  rewrite aset_in_range by lia. cbn [mbind outcome_bind]. eexists. split; [done|].
  split; cbn [set_reg set_registers registers].
  - by rewrite !length_insert.
  - unfold reg. cbn [set_reg set_registers registers]. unfold LoadReg, LoadValueReg, NumTotalRegs in *.
    rewrite list_lookup_insert_ne by lia. rewrite list_lookup_insert_ne by lia.
    rewrite list_lookup_insert_eq by (rewrite length_insert; lia). simpl. lia.
Qed.

Section Laws.
Context {H W : Type}.
Implicit Types (s : Sys H W).

(** What a handler may do to the controller: schedule later interrupts and ask
    for a yield. *)
Record handler_effect s s' : Prop := {
  he_level : level (interrupt s') = level (interrupt s);
  he_inHandler : inHandler (interrupt s') = inHandler (interrupt s);
  he_status : status (interrupt s') = status (interrupt s);
  he_now : now s' = now s;
  he_machine : machine s' = machine s;
  he_pending : ∃ new, Forall (λ e, now s < e.1) new ∧
    pending (interrupt s') =
      foldl (λ p e, sorted_insert e.1 e.2 p) (pending (interrupt s)) new;
}.

(** The interface of the device simulators, as the controller sees it: called
    with interrupts off and inside a handler, a device returns, keeps its own
    invariant [ok], and has a [handler_effect].  [horizon] bounds how far ahead
    it schedules, so that the 32-bit clock does not wrap. *)
Class HandlerLaws (call : H → Z → Sys H W → outcome (Sys H W)) (ok : W → Prop) (horizon : Z) : Prop := {
  horizon_pos : 0 <= horizon;
  call_effect h a s :
    level (interrupt s) = IntOff → inHandler (interrupt s) = true →
    status (interrupt s) = SystemMode → int32 (now s) → now s + horizon < 2 ^ 31 → ok (rest s) →
    ∃ s', call h a s = Ok s' ∧ handler_effect s s' ∧ ok (rest s');
}.

Lemma insert_after_due n k (x : PendingInterrupt H) due later :
  Forall (λ e : Z * PendingInterrupt H, e.1 <= n) due → n < k →
  sorted_insert k x (due ++ later) = due ++ sorted_insert k x later.
Proof.
  intros Hd Hk. induction Hd as [|[k' x'] due Hk' _ IH]; [done|].
  simpl in *. destruct (Z.ltb_spec k k'); [lia|]. by rewrite IH.
Qed.

Lemma inserts_after_due n (new due later : list (Z * PendingInterrupt H)) :
  Forall (λ e, e.1 <= n) due → Forall (λ e, n < e.1) new →
  foldl (λ p e, sorted_insert e.1 e.2 p) (due ++ later) new =
  due ++ foldl (λ p e, sorted_insert e.1 e.2 p) later new.
Proof.
  intros Hd Hn. revert later. induction Hn as [|[k x] new Hk _ IH]; intros later; [done|].
  simpl in *. rewrite (insert_after_due n) by done. apply IH.
Qed.

Lemma inserts_perm (new p : list (Z * PendingInterrupt H)) :
  foldl (λ p e, sorted_insert e.1 e.2 p) p new ≡ₚ new ++ p.
Proof.
  revert p. induction new as [|[k x] new IH]; intros p; [done|]. simpl.
  rewrite IH, sorted_insert_perm. by rewrite Permutation_middle.
Qed.

Lemma inserts_sorted (new p : list (Z * PendingInterrupt H)) :
  StronglySorted key_le p →
  StronglySorted key_le (foldl (λ p e, sorted_insert e.1 e.2 p) p new).
Proof.
  revert p. induction new as [|[k x] new IH]; intros p Hp; [done|]. simpl.
  by apply IH, sorted_insert_sorted.
Qed.

(** A sorted list is its due part followed by its future part. *)
Lemma split_due n (p : list (Z * PendingInterrupt H)) :
  StronglySorted key_le p →
  ∃ due later, p = due ++ later ∧ Forall (λ e, e.1 <= n) due ∧ Forall (λ e, n < e.1) later ∧
    due = filter (λ e, e.1 <= n) p.
Proof.
  induction 1 as [|[k x] p Hs (due & later & -> & Hd & Hl & Hf) Hall].
  { by exists [], []. }
  destruct (Z.leb_spec k n).
  - exists ((k, x) :: due), later. split_and!; try done; [by constructor|].
    rewrite filter_cons_True by done. by rewrite <- Hf.
  - exists [], ((k, x) :: due ++ later). split_and!; try done.
    + constructor; [simpl; lia|]. eapply Forall_impl; [exact Hall|].
      unfold key_le. intros []; simpl; lia.
    + symmetry. apply filter_none. constructor; [simpl; lia|]. eapply Forall_impl; [exact Hall|].
      unfold key_le. intros []; simpl; lia.
Qed.

(** The two outcomes of a check outside IdleMode. *)
Lemma CheckIfDue_due call s w e others :
  level (interrupt s) = IntOff → status (interrupt s) ≠ IdleMode →
  pending (interrupt s) = (w, e) :: others → w <= now s →
  CheckIfDue call false s = s' ← fire call e (set_pending s others); Ok (true, s').
Proof.
  intros Hl Hst Hp Hw. unfold CheckIfDue. rewrite Hl, bool_decide_eq_true_2 by done. simpl. rewrite Hp.
  change (now (set_pending s others)) with (now s). destruct (Z.gtb_spec w (now s)); [lia|].
  by rewrite (bool_decide_eq_false_2 _ Hst).
Qed.

Lemma CheckIfDue_future (call : H → Z → Sys H W → outcome (Sys H W)) s w e others :
  level (interrupt s) = IntOff → pending (interrupt s) = (w, e) :: others → now s < w →
  CheckIfDue call false s =
  Ok (false, set_pending (set_pending s others) (sorted_insert w e others)).
Proof.
  intros Hl Hp Hw. unfold CheckIfDue. rewrite Hl, bool_decide_eq_true_2 by done. simpl. rewrite Hp.
  change (now (set_pending s others)) with (now s). by destruct (Z.gtb_spec w (now s)); [|lia].
Qed.

Context `{HL : HandlerLaws call ok horizon}.

(** Everything the controller relies on. *)
Record wf_sys s : Prop := {
  ws_sorted : StronglySorted key_le (pending (interrupt s));
  ws_now : 0 <= now s ∧ now s + horizon < 2 ^ 31;
  ws_machine : ∀ m, machine s = Some m → load_ok m;
  ws_ok : ok (rest s);
}.

(** Serving the first pending interrupt. *)
Definition serve s (e : Z * PendingInterrupt H) : outcome (Sys H W) :=
  fire call e.2 (set_pending s (tail (pending (interrupt s)))).

Lemma finish_load_ok s :
  (∀ m, machine s = Some m → load_ok m) →
  ∃ s', finish_load s = Ok s' ∧ (∀ m, machine s' = Some m → load_ok m) ∧
    interrupt s' = interrupt s ∧ stats s' = stats s ∧ rest s' = rest s.
Proof.
  intros Hm. unfold finish_load. destruct (machine s) as [m|] eqn:E.
  - destruct (DelayedLoad_total m) as (m' & -> & Hm'); [auto|]. simpl.
    eexists. split; [done|]. simpl. split_and!; try done. intros ? [= <-]. done.
  - exists s. rewrite E. by split_and!.
Qed.

(** Running one handler keeps the controller well formed; only future
    interrupts are added. *)
Lemma fire_ok e s :
  wf_sys s → level (interrupt s) = IntOff →
  ∃ s', fire call e s = Ok s' ∧ wf_sys s' ∧ level (interrupt s') = IntOff ∧
    inHandler (interrupt s') = false ∧ status (interrupt s') = status (interrupt s) ∧
    now s' = now s ∧
    ∃ new, Forall (λ e, now s < e.1) new ∧
      pending (interrupt s') =
        foldl (λ p e, sorted_insert e.1 e.2 p) (pending (interrupt s)) new.
Proof.
  intros [Hs Hn Hm Hok] Hlev. unfold fire.
  destruct (finish_load_ok s Hm) as (s1 & -> & Hm1 & Hi1 & Ht1 & Hr1). cbn [mbind outcome_bind].
  pose proof horizon_pos as Hh.
  assert (Hn1 : now s1 = now s) by (unfold now; by rewrite Ht1).
  destruct (call_effect (handler e) (arg e) (setStatus (set_inHandler s1 true) SystemMode))
    as (s2 & Hc & [He1 He2 He3 He4 He5 He6] & Hok2).
  { simpl. by rewrite Hi1. }
  { done. }
  { done. }
  { change (int32 (now s1)). rewrite Hn1. unfold int32. lia. }
  { change (now s1 + horizon < 2 ^ 31). rewrite Hn1. lia. }
  { simpl. by rewrite Hr1. }
  rewrite Hc. cbn [mbind outcome_bind]. eexists. split; [done|].
  simpl in He1, He2, He3, He5, He6. change (now s2 = now s1) in He4.
  destruct He6 as (new & Hnew & Hp). change (Forall (λ e, now s1 < e.1) new) in Hnew.
  rewrite Hi1 in *. rewrite Hn1 in *. split_and!; try done.
  - split; simpl.
    + rewrite Hp. by apply inserts_sorted.
    + change (0 <= now s2 ∧ now s2 + horizon < 2 ^ 31). by rewrite He4.
    + intros m Hm2. apply Hm1. by rewrite <- He5.
    + done.
  - simpl. by rewrite He1.
  - by exists new.
Qed.

Lemma put_back_ok s w t others :
  wf_sys s → pending (interrupt s) = (w, t) :: others →
  wf_sys (set_pending (set_pending s others) (sorted_insert w t others)).
Proof.
  intros [Hs Hn Hm Hok] Hp. rewrite Hp in Hs. apply StronglySorted_inv in Hs as [Hs _].
  split; try done. simpl. by apply sorted_insert_sorted.
Qed.

(** The loop serves the due interrupts in list order and nothing else. *)
Lemma CheckIfDue_loop_spec due later fuel s :
  wf_sys s → level (interrupt s) = IntOff → status (interrupt s) ≠ IdleMode →
  pending (interrupt s) = due ++ later →
  Forall (λ e, e.1 <= now s) due → Forall (λ e, now s < e.1) later → (length due < fuel)%nat →
  ∃ s1 s', CheckIfDue_loop call fuel s = Ok s' ∧ foldM serve s due = Ok s1 ∧
    s' = set_pending s1 (pending (interrupt s')) ∧
    pending (interrupt s') ≡ₚ pending (interrupt s1) ∧ wf_sys s' ∧
    level (interrupt s') = IntOff ∧
    (inHandler (interrupt s) = false → inHandler (interrupt s') = false) ∧
    status (interrupt s') = status (interrupt s) ∧ now s' = now s ∧
    Forall (λ e, now s < e.1) (pending (interrupt s')) ∧ later ⊆+ pending (interrupt s').
Proof.
  revert later fuel s. induction due as [|[k e] due IH]; intros later [|fuel] s Hwf Hlev Hst Hp Hd Hl Hf;
    simpl in Hf; try lia.
  - simpl in Hp. exists s. cbn [CheckIfDue_loop foldM]. unfold CheckIfDue.
    rewrite Hlev, bool_decide_eq_true_2 by done. cbn [mbind outcome_bind ASSERT].
    destruct later as [|[w t] later]; rewrite Hp.
    { exists s. cbn [mbind outcome_bind]. split_and!; try done.
      - by destruct s as [[]].
      - by rewrite Hp.
      - by rewrite Hp.
      - apply submseteq_nil_l. }
    cbn [andb]. apply Forall_cons in Hl as [Hw Hl]. simpl in Hw.
    change (now (set_pending s later)) with (now s).
    destruct (Z.gtb_spec w (now s)); [|lia]. cbn [mbind outcome_bind].
    eexists. split; [done|]. split; [done|]. split; [done|].
    assert (Hpm : sorted_insert w t later ≡ₚ (w, t) :: later) by apply sorted_insert_perm.
    destruct Hwf as [Hs Hn Hm Hok]. rewrite Hp in Hs. apply StronglySorted_inv in Hs as [Hs _].
    split_and!; try done.
    + split; try done. simpl. by apply sorted_insert_sorted.
    + simpl. rewrite Hpm. by constructor.
    + simpl. by rewrite Hpm.
  - cbn [CheckIfDue_loop foldM]. unfold CheckIfDue.
    rewrite Hlev, bool_decide_eq_true_2 by done. cbn [mbind outcome_bind ASSERT]. rewrite Hp.
    cbn [app andb]. change (now (set_pending s (due ++ later))) with (now s).
    apply Forall_cons in Hd as [Hk Hd]. simpl in Hk. destruct (Z.gtb_spec k (now s)); [lia|].
    cbn [set_pending set_int interrupt status]. rewrite (bool_decide_eq_false_2 _ Hst). cbn [andb].
    unfold serve at 1. rewrite Hp. cbn [tail app snd].
    assert (Hwf1 : wf_sys (set_pending s (due ++ later))).
    { destruct Hwf as [Hs Hn Hm Hok]. split; try done. simpl. rewrite Hp in Hs.
      by apply StronglySorted_inv in Hs as [Hs _]. }
    destruct (fire_ok e _ Hwf1 Hlev) as (s2 & -> & Hwf2 & Hlev2 & Hin2 & Hst2 & Hn2 & new & Hnew & Hp2).
    cbn [mbind outcome_bind].
    change (now (set_pending s (due ++ later))) with (now s) in Hn2, Hnew. simpl in Hst2, Hp2.
    rewrite (inserts_after_due (now s)) in Hp2 by done.
    destruct (IH (foldl (λ p e, sorted_insert e.1 e.2 p) later new) fuel s2)
      as (s1 & s' & H1 & H2 & H3 & H4 & H5 & H6 & H7 & H8 & H9 & H10 & H11); try done.
    { by rewrite Hst2. }
    { by rewrite Hn2. }
    { rewrite Hn2, inserts_perm. apply Forall_app. by split. }
    { lia. }
    exists s1, s'. rewrite Hst2 in H8. rewrite Hn2 in H9, H10. split_and!; try done; auto.
    etrans; [|exact H11]. rewrite inserts_perm. by apply submseteq_inserts_l.
Qed.

(** The loop also ends in IdleMode, where it may leave the timer in the list. *)
Lemma CheckIfDue_loop_total due later fuel s :
  wf_sys s → level (interrupt s) = IntOff → pending (interrupt s) = due ++ later →
  Forall (λ e, e.1 <= now s) due → Forall (λ e, now s < e.1) later → (length due < fuel)%nat →
  ∃ s', CheckIfDue_loop call fuel s = Ok s' ∧ wf_sys s' ∧ now s' = now s ∧
    level (interrupt s') = IntOff ∧
    (inHandler (interrupt s) = false → inHandler (interrupt s') = false).
Proof.
  revert later fuel s. induction due as [|[k e] due IH]; intros later [|fuel] s Hwf Hlev Hp Hd Hl Hf;
    simpl in Hf; try lia; cbn [CheckIfDue_loop]; unfold CheckIfDue;
    rewrite Hlev, bool_decide_eq_true_2 by done; cbn [mbind outcome_bind ASSERT].
  - destruct later as [|[w t] later]; rewrite Hp; [by exists s|].
    cbn [app andb]. apply Forall_cons in Hl as [Hw Hl]. simpl in Hw.
    change (now (set_pending s later)) with (now s). destruct (Z.gtb_spec w (now s)); [|lia].
    cbn [mbind outcome_bind]. eexists. split; [done|]. split_and!; try done. by apply put_back_ok.
  - rewrite Hp. cbn [app andb]. change (now (set_pending s (due ++ later))) with (now s).
    apply Forall_cons in Hd as [Hk Hd]. simpl in Hk. destruct (Z.gtb_spec k (now s)); [lia|].
    destruct (_ && _).
    { cbn [mbind outcome_bind]. eexists. split; [done|]. split_and!; try done.
      by apply put_back_ok. }
    destruct (fire_ok e (set_pending s (due ++ later)))
      as (s2 & -> & Hwf2 & Hlev2 & Hin2 & Hst2 & Hn2 & new & Hnew & Hp2); [|done|].
    { destruct Hwf as [Hs Hn Hm Hok]. split; try done. simpl. rewrite Hp in Hs.
      by apply StronglySorted_inv in Hs as [Hs _]. }
    cbn [mbind outcome_bind].
    change (now (set_pending s (due ++ later))) with (now s) in Hn2, Hnew. simpl in Hp2.
    rewrite (inserts_after_due (now s)) in Hp2 by done.
    destruct (IH (foldl (λ p e, sorted_insert e.1 e.2 p) later new) fuel s2)
      as (s' & H1 & H2 & H3 & H4 & H5); try done.
    { by rewrite Hn2. }
    { rewrite Hn2, inserts_perm. apply Forall_app. by split. }
    { lia. }
    exists s'. rewrite Hn2 in H3. split_and!; auto.
Qed.

Definition tick s : Z :=
  if bool_decide (status (interrupt s) = SystemMode) then SystemTick else UserTick.

Lemma advance_now s : int32 (now s + tick s) → now (advance s) = now s + tick s.
Proof.
  unfold advance, tick, now. intros Hi. destruct (status (interrupt s)); simpl in *; by rewrite s32_id.
Qed.

Lemma advance_interrupt s :
  interrupt (advance s) = interrupt s ∧ machine (advance s) = machine s ∧ rest (advance s) = rest s.
Proof. unfold advance. by destruct (status (interrupt s)). Qed.

(** OneTick: returns, advances the clock and serves what is due. *)
Lemma OneTick_spec s :
  wf_sys s → inHandler (interrupt s) = false → status (interrupt s) ≠ IdleMode →
  now s + tick s + horizon < 2 ^ 31 →
  let due := filter (λ e, e.1 <= now s + tick s) (pending (interrupt s)) in
  let later := filter (λ e, ¬ e.1 <= now s + tick s) (pending (interrupt s)) in
  ∃ y s' s1, OneTick call s = Ok (y, s') ∧
    now s' = now s + tick s ∧ wf_sys s' ∧ level (interrupt s') = IntOn ∧
    inHandler (interrupt s') = false ∧ yieldOnReturn (interrupt s') = false ∧
    status (interrupt s') = (if (y : bool) then SystemMode else status (interrupt s)) ∧
    foldM serve (ChangeLevel (advance s) IntOff) due = Ok s1 ∧
    pending (interrupt s') ≡ₚ pending (interrupt s1) ∧
    later ⊆+ pending (interrupt s') ∧
    Forall (λ e, now s' < e.1) (pending (interrupt s')).
Proof.
  intros Hwf Hin Hst Hb due later. pose proof Hwf as [Hs [Hn0 Hn1] Hm Hok]. pose proof horizon_pos as Hh.
  assert (Htick : 0 <= tick s) by (unfold tick, SystemTick, UserTick; case_bool_decide; lia).
  assert (Hnow : now (advance s) = now s + tick s) by (apply advance_now; unfold int32; lia).
  destruct (advance_interrupt s) as (Hi & Hmc & Hr).
  set (s0 := ChangeLevel (advance s) IntOff).
  assert (Hn0' : now s0 = now s + tick s) by done.
  assert (Hwf0 : wf_sys s0).
  { split; simpl; rewrite ?Hi, ?Hmc, ?Hr; try done. rewrite Hn0'. lia. }
  assert (Hp0 : pending (interrupt s0) = pending (interrupt s)) by (simpl; by rewrite Hi).
  destruct (split_due (now s + tick s) (pending (interrupt s)) Hs) as (d & l & Hsplit & Hd & Hl & Hdue).
  assert (Hlater : later = l).
  { unfold later. rewrite Hsplit, filter_app, filter_none, filter_all; [done|..];
      eapply Forall_impl; eauto; intros []; simpl; lia. }
  destruct (CheckIfDue_loop_spec d l (loop_fuel s0) s0)
    as (s1 & s' & H1 & H2 & H3 & H4 & H5 & H6 & H7 & H8 & H9 & H10 & H11).
  { done. }
  { done. }
  { simpl. by rewrite Hi. }
  { by rewrite Hp0. }
  { by rewrite Hn0'. }
  { by rewrite Hn0'. }
  { unfold loop_fuel. rewrite Hp0, Hsplit, length_app. lia. }
  unfold OneTick. fold s0. rewrite H1. cbn [mbind outcome_bind].
  rewrite Hn0' in H9, H10. simpl in H8, H7. rewrite Hi in H8, H7.
  exists (yieldOnReturn (interrupt (ChangeLevel s' IntOn))).
  destruct (yieldOnReturn (interrupt (ChangeLevel s' IntOn))) eqn:Hy; eexists _, s1;
    (split; [done|]); fold due in Hdue; rewrite Hlater, <- Hdue.
  all: split_and!; try done; auto.
  all: try (destruct H5; by split).
  all: change (Forall (λ e, now s' < e.1) (pending (interrupt s'))); by rewrite H9.
Qed.

(** C25: OneTick fires exactly the interrupts that are due, in time order.  It
    returns for any devices that satisfy the handler interface (the while loop
    ends within one iteration per pending interrupt, since handlers schedule
    only into the future); the clock advances by the tick of the current mode;
    the handlers served are those of the pending interrupts whose time has come,
    in the order of the list; no other pending interrupt is lost, and afterwards
    none is due.  Interrupts are enabled again and no handler is active. *)
Theorem OneTick_fires_due s :
  wf_sys s → inHandler (interrupt s) = false → status (interrupt s) ≠ IdleMode →
  now s + tick s + horizon < 2 ^ 31 →
  let due := filter (λ e, e.1 <= now s + tick s) (pending (interrupt s)) in
  let later := filter (λ e, ¬ e.1 <= now s + tick s) (pending (interrupt s)) in
  ∃ y s' s1, OneTick call s = Ok (y, s') ∧
    now s' = now s + tick s ∧ wf_sys s' ∧ level (interrupt s') = IntOn ∧
    inHandler (interrupt s') = false ∧ yieldOnReturn (interrupt s') = false ∧
    status (interrupt s') = (if (y : bool) then SystemMode else status (interrupt s)) ∧
    foldM serve (ChangeLevel (advance s) IntOff) due = Ok s1 ∧
    pending (interrupt s') ≡ₚ pending (interrupt s1) ∧
    later ⊆+ pending (interrupt s') ∧
    Forall (λ e, now s' < e.1) (pending (interrupt s')).
Proof. exact (OneTick_spec s). Qed.

(** CheckIfDue once the clock is right, and Idle after it. *)
Definition CheckIfDue_run (w : Z) (toOccur : PendingInterrupt H) s : outcome (bool * Sys H W) :=
  if bool_decide (status (interrupt s) = IdleMode) && bool_decide (type toOccur = TimerInt) &&
     bool_decide (pending (interrupt s) = [])
  then Ok (false, set_pending s (sorted_insert w toOccur (pending (interrupt s))))
  else s ← fire call toOccur s; Ok (true, s).

Definition Idle_rest (o : outcome (bool * Sys H W)) : outcome (Sys H W) :=
  '(fired, s) ← o;
  if (fired : bool) then
    s ← CheckIfDue_loop call (loop_fuel s) s;
    Ok (setStatus (set_yieldOnReturn s false) SystemMode)
  else Halt s.

(** Idle.  With an empty ready list the controller jumps to the time of the
    next pending interrupt (never back), accounts the skipped time as idle,
    serves what is due and returns in SystemMode with no yield requested, so
    that the scheduler looks at the ready list again; if nothing is pending, or
    only the timer, it halts the machine. *)
Theorem Idle_next_interrupt s :
  wf_sys s → level (interrupt s) = IntOff → inHandler (interrupt s) = false →
  match pending (interrupt s) with
  | [] => Idle call s = Halted
  | (w, e) :: others =>
      w + horizon < 2 ^ 31 →
      if bool_decide (type e = TimerInt) && bool_decide (others = []) then Idle call s = Halted
      else ∃ s', Idle call s = Ok s' ∧ now s' = Z.max w (now s) ∧ wf_sys s' ∧
             status (interrupt s') = SystemMode ∧ yieldOnReturn (interrupt s') = false ∧
             level (interrupt s') = IntOff ∧ inHandler (interrupt s') = false
  end.
Proof.
  intros Hwf Hlev Hin. unfold Idle, CheckIfDue. cbn [setStatus set_int interrupt level pending].
  rewrite Hlev, bool_decide_eq_true_2 by done. cbn [mbind outcome_bind ASSERT].
  destruct (pending (interrupt s)) as [|[w e] others] eqn:Hp; [done|]. intros Hw.
  set (s0 := set_pending (setStatus s IdleMode) others).
  set (s1 := if w >? now s then set_stats s0 (set_ticks (stats s0) w
    (s32 (idleTicks (stats s0) + (w - totalTicks (stats s0)))) (systemTicks (stats s0))
    (userTicks (stats s0))) else s0).
  change (now s0) with (now s). cbn [andb].
  assert (Hn1 : now s1 = Z.max w (now s)).
  { unfold s1, now. destruct (Z.gtb_spec w (totalTicks (stats s))); simpl; lia. }
  assert (Hwf1 : wf_sys s1).
  { destruct Hwf as [Hs [Hn0 Hnh] Hm Hok]. rewrite Hp in Hs. apply StronglySorted_inv in Hs as [Hs _].
    split; [|rewrite Hn1; lia| |]; unfold s1; by destruct (w >? now s). }
  assert (Hlev1 : level (interrupt s1) = IntOff) by (unfold s1; by destruct (w >? now s)).
  assert (Hp1 : pending (interrupt s1) = others) by (unfold s1; by destruct (w >? now s)).
  assert (Hst1 : status (interrupt s1) = IdleMode) by (unfold s1; by destruct (w >? now s)).
  assert (Hgoal : if bool_decide (type e = TimerInt) && bool_decide (others = [])
     then Idle_rest (CheckIfDue_run w e s1) = Halted
     else ∃ s', Idle_rest (CheckIfDue_run w e s1) = Ok s' ∧ now s' = Z.max w (now s) ∧ wf_sys s' ∧
             status (interrupt s') = SystemMode ∧ yieldOnReturn (interrupt s') = false ∧
             level (interrupt s') = IntOff ∧ inHandler (interrupt s') = false).
  { unfold CheckIfDue_run. rewrite Hst1, Hp1, (bool_decide_eq_true_2 (IdleMode = IdleMode)) by done. cbn [andb].
    destruct (_ && _); [done|].
    destruct (fire_ok e s1 Hwf1 Hlev1) as (s2 & -> & Hwf2 & Hlev2 & Hin2 & _ & Hn2 & _).
    cbn [mbind outcome_bind Idle_rest].
    destruct (split_due (now s2) _ (ws_sorted _ Hwf2)) as (d & l & Hsplit & Hd & Hl & _).
    destruct (CheckIfDue_loop_total d l (loop_fuel s2) s2) as (s3 & -> & Hwf3 & Hn3 & Hlev3 & Hin3);
      try done.
    { unfold loop_fuel. rewrite Hsplit, length_app. lia. }
    cbn [mbind outcome_bind]. eexists. split; [done|]. split_and!; try done; auto.
    - change (now s3 = Z.max w (now s)). by rewrite Hn3, Hn2.
    - destruct Hwf3; by split. }
  revert Hgoal. unfold CheckIfDue_run, Idle_rest, s1. by destruct (w >? now s).
Qed.

End Laws.

(** ** The timer *)

(** A system whose only device is the timer; the rest of the state is the
    number the next call of Random() returns. *)
Definition timer_call (t : Timer unit) (h : unit) (this : Z) (s : Sys unit Z) : outcome (Sys unit Z) :=
  TimerExpired tt this t (rest s) s.

Lemma TimeOfNextInterrupt_range {H} (t : Timer H) random :
  0 <= random → 1 <= TimeOfNextInterrupt t random <= TimerTicks * 2.
Proof.
  intros Hr. unfold TimeOfNextInterrupt, TimerTicks. destruct (randomize t); [|lia].
  rewrite Z.rem_mod_nonneg by lia. pose proof (Z.mod_pos_bound random (100 * 2)). lia.
Qed.

Lemma TimerExpired_eq (t : Timer unit) this s :
  inHandler (interrupt s) = true → status (interrupt s) = SystemMode → 0 <= rest s →
  timer_call t tt this s =
  let w := s32 (now s + TimeOfNextInterrupt t (rest s)) in
  Ok (set_yieldOnReturn (set_pending s
        (sorted_insert w (mkPending tt this w TimerInt) (pending (interrupt s)))) true).
Proof.
  intros Hin Hst Hr. unfold timer_call, TimerExpired, Schedule.
  pose proof (TimeOfNextInterrupt_range t (rest s) Hr) as Hrange.
  destruct (Z.gtb_spec (TimeOfNextInterrupt t (rest s)) 0); [|lia]. cbn [ASSERT mbind outcome_bind].
  unfold TimerInterruptHandler. cbn [set_pending set_int interrupt status]. rewrite Hst.
  rewrite bool_decide_eq_true_2 by done. unfold YieldOnReturn. cbn [set_pending set_int interrupt inHandler].
  rewrite Hin. done.
Qed.

#[export] Instance Timer_laws t : HandlerLaws (timer_call t) (λ r, 0 <= r) (TimerTicks * 2).
Proof.
  split; [unfold TimerTicks; lia|]. intros [] a s Hlev Hin Hst Hnow Hb Hr.
  rewrite TimerExpired_eq by done. cbv zeta. eexists. split; [done|]. split; [|done].
  pose proof (TimeOfNextInterrupt_range t (rest s) Hr) as Hrange. unfold TimerTicks in *.
  split; try done.
  exists [(s32 (now s + TimeOfNextInterrupt t (rest s)),
    mkPending tt a (s32 (now s + TimeOfNextInterrupt t (rest s))) TimerInt)].
  split; [|done]. constructor; [|done]. simpl. rewrite s32_id; [lia|]. unfold int32 in *. lia.
Qed.

Definition demo_timer : Timer unit := mkTimer true tt 0.

(** User code at time 95 with the timer due at 96 and a disk interrupt at 500. *)
Definition demo_sys : Sys unit Z :=
  mkSys (mkInterrupt IntOn
           [(96, mkPending tt 7 96 TimerInt); (500, mkPending tt 9 500 DiskInt)] false false UserMode)
    (mkStats 95 0 90 5 0 0 0 0 0 0 0) None 42.

Lemma demo_sys_wf : @wf_sys unit Z (λ r, 0 <= r) (TimerTicks * 2) demo_sys.
Proof.
  split; simpl; try done. repeat constructor; unfold key_le; simpl; lia.
Qed.

Lemma OneTick_fires_due_witness :
  ∃ y s', OneTick (timer_call demo_timer) demo_sys = Ok (y, s') ∧ now s' = 96 ∧
    Forall (λ e, now s' < e.1) (pending (interrupt s')).
Proof.
  destruct (OneTick_fires_due (HL := Timer_laws demo_timer) demo_sys demo_sys_wf)
    as (y & s' & s1 & H1 & H2 & _ & _ & _ & _ & _ & _ & _ & _ & H3);
    [reflexivity|discriminate|vm_compute; reflexivity|].
  exists y, s'. split; [exact H1|]. split; [exact H2|exact H3].
Defined.

(** The same system with interrupts off and nothing to run. *)
Lemma Idle_next_interrupt_witness :
  ∃ s', Idle (timer_call demo_timer) (ChangeLevel demo_sys IntOff) = Ok s' ∧ now s' = 96.
Proof.
  assert (Hwf : @wf_sys unit Z (λ r, 0 <= r) (TimerTicks * 2) (ChangeLevel demo_sys IntOff)).
  { destruct demo_sys_wf. split; assumption. }
  pose proof (Idle_next_interrupt (HL := Timer_laws demo_timer) _ Hwf eq_refl eq_refl) as H.
  simpl in H. destruct H as (s' & H1 & H2 & _); [vm_compute; reflexivity|].
  exists s'. split; [exact H1|exact H2].
Defined.

(** Time slicing.  When the timer is the only device and its interrupt is
    due, the tick runs its handler, the current thread is asked to yield, and
    the next timer interrupt is set between 1 and 200 ticks ahead. *)
Theorem timer_slices t s w this :
  (∀ m, machine s = Some m → load_ok m) → 0 <= rest s → status (interrupt s) ≠ IdleMode →
  inHandler (interrupt s) = false → 0 <= now s → now s + tick s + TimerTicks * 2 < 2 ^ 31 →
  pending (interrupt s) = [(w, mkPending tt this w TimerInt)] → w <= now s + tick s →
  ∃ s' w', OneTick (timer_call t) s = Ok (true, s') ∧
    pending (interrupt s') = [(w', mkPending tt this w' TimerInt)] ∧
    now s' < w' <= now s' + TimerTicks * 2.
Proof.
  intros Hm Hr Hst Hin Hn0 Hb Hp Hw.
  assert (Htick : 0 <= tick s) by (unfold tick, SystemTick, UserTick; case_bool_decide; lia).
  assert (Hnow : now (advance s) = now s + tick s) by (apply advance_now; unfold int32, TimerTicks in *; lia).
  destruct (advance_interrupt s) as (Hi & Hmc & Hr').
  unfold OneTick. set (s0 := ChangeLevel (advance s) IntOff).
  assert (Hn0' : now s0 = now s + tick s) by done.
  assert (Hf : loop_fuel s0 = 2%nat) by (unfold loop_fuel; simpl; by rewrite Hi, Hp).
  rewrite Hf. cbn [CheckIfDue_loop].
  assert (Hp0 : pending (interrupt s0) = pending (interrupt s)) by (simpl; by rewrite Hi).
  assert (Hs0 : status (interrupt s0) = status (interrupt s)) by (simpl; by rewrite Hi).
  rewrite (CheckIfDue_due _ s0 w (mkPending tt this w TimerInt) []);
    [|done|by rewrite Hs0|by rewrite Hp0|lia].
  unfold fire at 1. cbn [set_pending set_int interrupt status]. rewrite Hs0.
  destruct (finish_load_ok (set_pending s0 [])) as (s1 & Hs1 & Hm1 & Hi1 & Ht1 & Hr1).
  { simpl. by rewrite Hmc. }
  fold (set_pending s0 []). rewrite Hs1. cbn [mbind outcome_bind handler arg].
  change (rest s1 = rest (advance s)) in Hr1. rewrite Hr' in Hr1.
  rewrite TimerExpired_eq; [|done|done|simpl; by rewrite Hr1]. cbn [mbind outcome_bind].
  assert (Hn1 : now s1 = now s + tick s) by (unfold now at 1; rewrite Ht1; exact Hn0').
  assert (Hrange : 1 <= TimeOfNextInterrupt t (rest s1) <= TimerTicks * 2)
    by (apply TimeOfNextInterrupt_range; by rewrite Hr1).
  set (w' := now s + tick s + TimeOfNextInterrupt t (rest s1)).
  assert (Hw' : s32 (now (setStatus (set_inHandler s1 true) SystemMode) +
    TimeOfNextInterrupt t (rest (setStatus (set_inHandler s1 true) SystemMode))) = w').
  { change (s32 (now s1 + TimeOfNextInterrupt t (rest s1)) = w'). rewrite Hn1, s32_id; [done|].
    unfold int32, TimerTicks in *. lia. }
  rewrite Hw'. set (s2 := set_inHandler _ false).
  assert (Hp2 : pending (interrupt s2) = [(w', mkPending tt this w' TimerInt)])
    by (simpl; by rewrite Hi1).
  rewrite (CheckIfDue_future _ s2 w' (mkPending tt this w' TimerInt) []); [|simpl; by rewrite Hi1|done|].
  2: { change (now s1 < w'). unfold w'. lia. }
  cbn [mbind outcome_bind]. simpl. eexists _, _. split; [done|]. split; [done|].
  change (now s1 < w' <= now s1 + TimerTicks * 2). unfold w'. lia.
Qed.

Lemma timer_slices_witness :
  let s := set_pending demo_sys [(96, mkPending tt 7 96 TimerInt)] in
  ∃ s' w', OneTick (timer_call demo_timer) s = Ok (true, s') ∧
    pending (interrupt s') = [(w', mkPending tt 7 w' TimerInt)].
Proof.
  intros s. destruct (timer_slices demo_timer s 96 7) as (s' & w' & H1 & H2 & _);
    [discriminate|vm_compute; discriminate|discriminate|reflexivity|vm_compute; discriminate
    |vm_compute; reflexivity|reflexivity|vm_compute; discriminate|].
  exists s', w'. split; [exact H1|exact H2].
Defined.
