(* ===== verification/AddrSpace.v ===== *)
(** * userprog/addrspace.cc: loading a program into an address space

    The constructor allocates one frame per page from the frame bitmap (through
    the interface [BitAlloc]), zeroes the frames, and copies the code and the
    initialised data of the executable into them page by page.  The executable
    is the byte sequence of the file (None when Open fails); ReadAt is the one
    of the UNIX-file OpenFile, which reads what the file has.  The constructor
    runs the allocation inside addrLock, so it is one atomic step for the other
    constructors. *)

From Stdlib Require Import ZArith Lia Bool.
From S2P Require Import Prelude Bytes Bitmap Machine.

Local Open Scope Z_scope.

Definition UserStackSize : Z := 1024.
Definition NOFFMAGIC : Z := 0xbadfad.

Record Segment := mkSegment { virtualAddr : Z; inFileAddr : Z; seg_size : Z }.

Record NoffHeader := mkNoff {
  noffMagic : Z;
  code : Segment;
  initData : Segment;
  uninitData : Segment;
}.

Definition sizeof_NoffHeader : Z := 40.

(** The header as it lies in the file: ten ints. *)
Definition header_of (bs : list Z) : NoffHeader :=
  let w (i : nat) := s32 (default 0 (bytes_to_words 10 bs !! i)) in
  mkNoff (w 0%nat) (mkSegment (w 1%nat) (w 2%nat) (w 3%nat))
    (mkSegment (w 4%nat) (w 5%nat) (w 6%nat)) (mkSegment (w 7%nat) (w 8%nat) (w 9%nat)).

Definition swap_int (w : Z) : Z := s32 (WordToHost (u32 w)).

Definition SwapSegment (s : Segment) : Segment :=
  mkSegment (swap_int (virtualAddr s)) (swap_int (inFileAddr s)) (swap_int (seg_size s)).

Definition SwapHeader (h : NoffHeader) : NoffHeader :=
  mkNoff (swap_int (noffMagic h)) (SwapSegment (code h)) (SwapSegment (initData h))
    (SwapSegment (uninitData h)).

(** class AddrSpace; [as_pageTable] names the table in [ptables]. *)
Record AddrSpace := mkSpace { as_pageTable : Z; numPages : Z }.

(** ReadAt(&mainMemory[dst], n, pos): what the file has of the range. *)
Definition read_into (m : Machine) (dst : Z) (file : list Z) (n pos : Z) : outcome Machine :=
  mem_store m dst (bytes_at file pos n).

(** pageTable[i].physicalPage *)
Definition frame_of (t : list TranslationEntry) (i : Z) : outcome Z :=
  e ← aget t i; Ok (physicalPage e).

Section Load.
Context {B : Type} `{BitAlloc B}.

(** One iteration of the allocation loop. *)
Definition alloc_page (st : Machine * B * list TranslationEntry) (i : Z)
  : outcome (Machine * B * list TranslationEntry) :=
  let '(m, b, t) := st in
  '(frame, b) ← ba_Find b;
  m ← mem_store m (frame * PageSize) (replicate (Z.to_nat PageSize) 0);
  Ok (m, b, t ++ [mkTE i frame true false false false]).

(** numCodePage, lastCodePageSize, numDataPage, lastDataPageSize and
    firstDataPageSize. *)
Record layout := mkLayout {
  numCodePage : Z;
  lastCodePageSize : Z;
  numDataPage : Z;
  lastDataPageSize : Z;
  firstDataPageSize : Z;
}.

Definition load_layout (h : NoffHeader) : layout :=
  let numCodePage := u32 (divRoundUp (seg_size (code h)) PageSize) in
  let lastCodePageSize := s32 (seg_size (code h) - (numCodePage - 1) * PageSize) in
  let tempDataSize := s32 (seg_size (initData h) - (PageSize - lastCodePageSize)) in
  if tempDataSize <? 0 then
    mkLayout numCodePage lastCodePageSize 0 0 (seg_size (initData h))
  else
    let numDataPage := u32 (divRoundUp tempDataSize PageSize) in
    mkLayout numCodePage lastCodePageSize numDataPage
      (s32 (tempDataSize - (numDataPage - 1) * PageSize)) (PageSize - lastCodePageSize).

(** The first loop: code pages. *)
Definition load_code (file : list Z) (h : NoffHeader) (l : layout) (t : list TranslationEntry)
    (m : Machine) : outcome Machine :=
  foldM (λ m i,
    if seg_size (code h) >? 0 then
      frame ← frame_of t i;
      read_into m (virtualAddr (code h) + frame * PageSize) file
        (if i <? numCodePage l - 1 then PageSize else lastCodePageSize l)
        (inFileAddr (code h) + i * PageSize)
    else Ok m) m (seqZ 0 (numCodePage l)).

(** The start of the data shares the last code page. *)
Definition load_first_data (file : list Z) (h : NoffHeader) (l : layout)
    (t : list TranslationEntry) (m : Machine) : outcome Machine :=
  if lastCodePageSize l <? PageSize then
    if firstDataPageSize l >? 0 then
      frame ← frame_of t (numCodePage l - 1);
      read_into m (virtualAddr (code h) + (frame * PageSize + lastCodePageSize l)) file
        (firstDataPageSize l) (inFileAddr (initData h))
    else Ok m
  else Ok m.

(** The second loop: the other data pages. *)
Definition load_data (file : list Z) (h : NoffHeader) (l : layout) (t : list TranslationEntry)
    (m : Machine) : outcome Machine :=
  foldM (λ m j,
    if seg_size (initData h) >? 0 then
      frame ← frame_of t (numCodePage l + j);
      read_into m (virtualAddr (code h) + frame * PageSize) file
        (if j <? numDataPage l - 1 then PageSize else lastDataPageSize l)
        (inFileAddr (initData h) + j * PageSize + firstDataPageSize l)
    else Ok m) m (seqZ 0 (numDataPage l)).

Definition load_program (file : list Z) (h : NoffHeader) (t : list TranslationEntry)
    (m : Machine) : outcome Machine :=
  let l := load_layout h in
  m ← load_code file h l t m;
  m ← load_first_data file h l t m;
  load_data file h l t m.

(** The size of the address space in pages. *)
Definition space_pages (h : NoffHeader) : Z :=
  divRoundUp (u32 (seg_size (code h) + seg_size (initData h) + seg_size (uninitData h)
                   + UserStackSize)) PageSize.

(** AddrSpace::AddrSpace.  [garbage] is the object before the constructor runs:
    when the file cannot be opened its fields stay as they are, and when memory
    runs out only numPages is set.  A file shorter than the header leaves part
    of noffH uninitialised. *)
Definition AddrSpace_new (executable : option (list Z)) (garbage : AddrSpace) (m : Machine) (b : B)
  : outcome (AddrSpace * Machine * B) :=
  match executable with
  | None => Ok (garbage, m, b)
  | Some file =>
      if Z.of_nat (length file) <? sizeof_NoffHeader then Undef else
      let h := header_of (bytes_at file 0 sizeof_NoffHeader) in
      let h := if negb (noffMagic h =? NOFFMAGIC) && (swap_int (noffMagic h) =? NOFFMAGIC)
               then SwapHeader h else h in
      _ ← ASSERT (noffMagic h =? NOFFMAGIC);
      let n := space_pages h in
      clear ← ba_NumClear b;
      if n >? u32 clear then Ok (mkSpace (as_pageTable garbage) 0, m, b)
      else
        '(m, b, t) ← foldM alloc_page (m, b, []) (seqZ 0 n);
        let p := fresh (dom (ptables m)) in
        let m := set_ptables m (<[p := t]> (ptables m)) in
        m ← load_program file h t m;
        Ok (mkSpace p n, m, b)
  end.
End Load.

(** AddrSpace::~AddrSpace: delete pageTable; deleting a table that is not there is
    undefined. *)
Definition AddrSpace_delete (a : AddrSpace) (m : Machine) : outcome Machine :=
  match ptables m !! as_pageTable a with
  | Some _ => Ok (set_ptables m (delete (as_pageTable a) (ptables m)))
  | None => Undef
  end.

Definition InitRegisters (a : AddrSpace) (m : Machine) : outcome Machine :=
  m ← foldM (λ m i, WriteRegister m i 0) m (seqZ 0 NumTotalRegs);
  m ← WriteRegister m PCReg 0;
  m ← WriteRegister m NextPCReg 4;
  WriteRegister m StackReg (s32 (numPages a * PageSize - 16)).

Definition SaveState (a : AddrSpace) (m : Machine) : Machine := m.

Definition RestoreState (a : AddrSpace) (m : Machine) : Machine :=
  load_page_table m (Some (as_pageTable a)) (numPages a).
