(* ===== verification/AddrSpaceProofs.v ===== *)
(** * Theorems on address spaces: frame allocation, program loading, isolation *)

From Stdlib Require Import ZArith Lia Bool.
From S2P Require Import Prelude Bytes Bitmap Machine AddrSpace.

Local Open Scope Z_scope.

(** ** The virtual memory a table shows *)

(** The physical address of virtual address [a]. *)
Definition vphys (t : list TranslationEntry) (a : Z) : option nat :=
  match t !! Z.to_nat (a / PageSize) with
  | Some e => Some (Z.to_nat (physicalPage e * PageSize + a mod PageSize))
  | None => None
  end.

Definition vbyte (t : list TranslationEntry) (m : Machine) (a : Z) : option Z :=
  match vphys t a with Some p => mainMemory m !! p | None => None end.

Definition frames (t : list TranslationEntry) : list Z := physicalPage <$> t.

(** Distinct frames of physical memory. *)
Definition wf_frames (t : list TranslationEntry) : Prop :=
  NoDup (frames t) ∧ Forall (λ f, 0 <= f < NumPhysPages) (frames t).

Lemma frame_lookup t i e :
  wf_frames t → t !! i = Some e → 0 <= physicalPage e < NumPhysPages.
Proof.
  intros [_ Hf] Hi. eapply (Forall_lookup_1 _ _ i) in Hf; [exact Hf|].
  unfold frames. by rewrite list_lookup_fmap, Hi.
Qed.

Lemma page_split a : 0 <= a → a = a / PageSize * PageSize + a mod PageSize ∧
  0 <= a mod PageSize < PageSize ∧ 0 <= a / PageSize.
Proof.
  intros Ha. pose proof (Z.div_mod a PageSize ltac:(done)).
  pose proof (Z.mod_pos_bound a PageSize ltac:(done)).
  pose proof (Z.div_pos a PageSize Ha ltac:(done)). lia.
Qed.

Lemma page_of f o : 0 <= o < PageSize → (f * PageSize + o) / PageSize = f ∧
  (f * PageSize + o) mod PageSize = o.
Proof.
  intros Ho. split.
  - rewrite Z.div_add_l, Z.div_small by (done || lia). lia.
  - rewrite Z.add_comm, Z.mod_add by done. apply Z.mod_small. lia.
Qed.

(** A physical range inside the frame of page [i] is a virtual range inside
    page [i], and of no other page. *)
Lemma vphys_range t i e o n a :
  wf_frames t → 0 <= i → t !! Z.to_nat i = Some e → 0 <= o → o + n <= PageSize → 0 <= a →
  ∀ p, vphys t a = Some p →
  (physicalPage e * PageSize + o <= Z.of_nat p < physicalPage e * PageSize + o + n ↔
   i * PageSize + o <= a < i * PageSize + o + n) ∧
  (i * PageSize + o <= a < i * PageSize + o + n →
   Z.of_nat p - (physicalPage e * PageSize + o) = a - (i * PageSize + o)).
Proof.
  intros Hwf Hi0 Hi Ho Hn Ha p Hp. unfold vphys in Hp.
  destruct (t !! Z.to_nat (a / PageSize)) as [e'|] eqn:He'; [|done]. injection Hp as <-.
  destruct (page_split a Ha) as (Hspl & Hmod & Hdiv).
  pose proof (frame_lookup t _ e Hwf Hi) as Hfe. pose proof (frame_lookup t _ e' Hwf He') as Hfe'.
  rewrite Z2Nat.id by (unfold PageSize, SectorSize in *; lia).
  assert (Hsame : physicalPage e = physicalPage e' ↔ i = a / PageSize).
  { split; [|intros Hia; by rewrite Hia, He' in Hi; simplify_eq].
    intros Heq. destruct Hwf as [Hnd _].
    assert (Z.to_nat i = Z.to_nat (a / PageSize)); [|lia].
    apply (NoDup_lookup (frames t) _ _ (physicalPage e)); [done|..]; unfold frames;
      rewrite list_lookup_fmap; [by rewrite Hi|by rewrite He', Heq]. }
  unfold PageSize, SectorSize in *. split; [split|]; intros Hr.
  - assert (physicalPage e = physicalPage e') by lia. rewrite Hspl. lia.
  - assert (i = a / 512) by lia. lia.
  - assert (i = a / 512) by lia. lia.
Qed.

(** ** Copying a piece of the file into a page *)

Lemma read_into_page t m file i e o n pos :
  wf_frames t → wf_mem m → Forall byte file → 0 <= i → t !! Z.to_nat i = Some e →
  0 <= o → 0 <= n → o + n <= PageSize → 0 <= pos → pos + n <= Z.of_nat (length file) →
  ∃ m', read_into m (physicalPage e * PageSize + o) file n pos = Ok m' ∧ wf_mem m' ∧
    m' = set_memory m (mainMemory m') ∧
    (∀ a, 0 <= a → vbyte t m' a =
       if decide (i * PageSize + o <= a < i * PageSize + o + n)
       then file !! Z.to_nat (pos + (a - (i * PageSize + o))) else vbyte t m a) ∧
    (∀ p, Z.of_nat p / PageSize ∉ frames t → mainMemory m' !! p = mainMemory m !! p).
Proof.
  intros Hwf [Hlen Hby] Hfile Hi0 Hi Ho Hn Hon Hpos Hpn. unfold read_into.
  pose proof (frame_lookup t _ e Hwf Hi) as Hfe.
  assert (Hbl : length (bytes_at file pos n) = Z.to_nat n) by (apply bytes_at_length; lia).
  assert (HM : physicalPage e * PageSize + o + n <= MemorySize)
    by (unfold MemorySize, NumPhysPages, PageSize, SectorSize in *; lia).
  assert (HP : 0 <= physicalPage e * PageSize + o) by (unfold PageSize, SectorSize in *; lia).
  rewrite mem_store_Ok by (rewrite ?Hbl, ?Hlen; lia).
  eexists. split; [done|]. split.
  { split; simpl; [rewrite length_blit by (rewrite Hbl; lia); done|].
    unfold blit. apply Forall_app; split; [by apply Forall_take|].
    apply Forall_app; split; [by apply Forall_take, Forall_drop|by apply Forall_drop]. }
  split; [done|]. split.
  - intros a Ha. unfold vbyte. destruct (vphys t a) as [p|] eqn:Hp.
    + destruct (vphys_range t i e o n a Hwf Hi0 Hi Ho Hon Ha p Hp) as [Hiff Hoff].
      simpl. rewrite lookup_blit by (rewrite Hbl; lia). rewrite Hbl.
      case_decide as H1; case_decide as H2; try done.
      * rewrite lookup_bytes_at by lia. f_equal. specialize (Hoff H2). lia.
      * destruct H2. apply Hiff. lia.
      * destruct H1. apply Hiff in H2. lia.
    + case_decide as H2; [|done]. exfalso. unfold vphys in Hp.
      assert (Hdiv : a / PageSize = i).
      { replace a with (i * PageSize + (a - i * PageSize)) by lia.
        apply page_of. unfold PageSize, SectorSize in *. lia. }
      by rewrite Hdiv, Hi in Hp.
  - intros p Hp. simpl. rewrite lookup_blit by (rewrite Hbl; lia). rewrite Hbl.
    case_decide as H1; [|done]. destruct Hp.
    replace (Z.of_nat p / PageSize) with (physicalPage e).
    { unfold frames. apply list_elem_of_lookup. exists (Z.to_nat i). by rewrite list_lookup_fmap, Hi. }
    symmetry. replace (Z.of_nat p) with
      (physicalPage e * PageSize + (Z.of_nat p - physicalPage e * PageSize)) by lia.
    apply page_of. unfold PageSize, SectorSize in *. lia.
Qed.

(** ** Loading the segments *)

(** An executable the loader can place: code at virtual address 0, data (if there
    is any) right after it, both inside the file, and sizes far below 2^31. *)
Record wf_exec (file : list Z) (h : NoffHeader) : Prop := {
  we_bytes : Forall byte file;
  we_virt : virtualAddr (code h) = 0;
  we_code : 0 <= seg_size (code h) ∧ 0 <= inFileAddr (code h) ∧
    inFileAddr (code h) + seg_size (code h) <= Z.of_nat (length file);
  we_data : 0 <= seg_size (initData h) ∧ (0 < seg_size (initData h) →
    0 <= inFileAddr (initData h) ∧
    inFileAddr (initData h) + seg_size (initData h) <= Z.of_nat (length file));
  we_bss : 0 <= seg_size (uninitData h);
  we_small : seg_size (code h) + seg_size (initData h) + seg_size (uninitData h) < 2 ^ 30;
}.

(** The program image: code, then initialised data, then zeros. *)
Definition image (file : list Z) (h : NoffHeader) (a : Z) : option Z :=
  if a <? seg_size (code h) then file !! Z.to_nat (inFileAddr (code h) + a)
  else if a <? seg_size (code h) + seg_size (initData h)
  then file !! Z.to_nat (inFileAddr (initData h) + (a - seg_size (code h)))
  else Some 0.

(** The image up to virtual address [k], zeros after it. *)
Definition image_upto (file : list Z) (h : NoffHeader) (k a : Z) : option Z :=
  if a <? k then image file h a else Some 0.

(** What the layout computes, in terms of the sizes. *)
Lemma load_layout_spec h :
  0 <= seg_size (code h) → 0 <= seg_size (initData h) →
  seg_size (code h) + seg_size (initData h) < 2 ^ 30 →
  let cs := seg_size (code h) in
  let ds := seg_size (initData h) in
  let l := load_layout h in
  let np := numCodePage l in
  0 <= np ∧ cs = (np - 1) * PageSize + lastCodePageSize l ∧ 0 < lastCodePageSize l <= PageSize ∧
  0 <= numDataPage l ∧ 0 <= firstDataPageSize l ∧ lastCodePageSize l + firstDataPageSize l <= PageSize ∧
  (np = 0 → lastCodePageSize l = PageSize ∧ firstDataPageSize l = 0) ∧
  (numDataPage l = 0 → ds = firstDataPageSize l) ∧
  (0 < numDataPage l → lastCodePageSize l + firstDataPageSize l = PageSize ∧
     0 < lastDataPageSize l <= PageSize ∧
     ds = firstDataPageSize l + (numDataPage l - 1) * PageSize + lastDataPageSize l).
Proof.
  intros Hc Hd Hsmall cs ds l np.
  pose proof (divRoundUp_bounds cs PageSize Hc ltac:(done)) as Hcb.
  assert (Hnp : u32 (divRoundUp cs PageSize) = divRoundUp cs PageSize).
  { apply u32_id. unfold PageSize, SectorSize in *. lia. }
  set (n := divRoundUp cs PageSize) in *.
  assert (Hlast : s32 (cs - (n - 1) * PageSize) = cs - (n - 1) * PageSize).
  { apply s32_id. unfold int32, PageSize, SectorSize in *. lia. }
  assert (Htmp : s32 (ds - (PageSize - (cs - (n - 1) * PageSize))) =
    ds - (PageSize - (cs - (n - 1) * PageSize))).
  { apply s32_id. unfold int32, PageSize, SectorSize in *. lia. }
  assert (Hl : l = if ds - (PageSize - (cs - (n - 1) * PageSize)) <? 0
    then mkLayout n (cs - (n - 1) * PageSize) 0 0 ds
    else let td := ds - (PageSize - (cs - (n - 1) * PageSize)) in
      let k := u32 (divRoundUp td PageSize) in
      mkLayout n (cs - (n - 1) * PageSize) k (s32 (td - (k - 1) * PageSize))
        (PageSize - (cs - (n - 1) * PageSize))).
  { unfold l, load_layout. fold cs ds n. cbv zeta. by rewrite !Hnp, !Hlast, !Htmp. }
  clearbody l. subst l. unfold np. clear np.
  destruct (Z.ltb_spec (ds - (PageSize - (cs - (n - 1) * PageSize))) 0) as [Hneg|Hpos].
  - cbn [numCodePage lastCodePageSize numDataPage firstDataPageSize lastDataPageSize].
    unfold PageSize, SectorSize in *. lia.
  - cbv zeta. set (td := ds - (PageSize - (cs - (n - 1) * PageSize))) in *.
    pose proof (divRoundUp_bounds td PageSize Hpos ltac:(done)) as Htb.
    assert (Hk : u32 (divRoundUp td PageSize) = divRoundUp td PageSize).
    { apply u32_id. unfold PageSize, SectorSize in *. lia. }
    rewrite Hk. set (k := divRoundUp td PageSize) in *. rewrite s32_id.
    2: { unfold int32, PageSize, SectorSize in *. lia. }
    cbn [numCodePage lastCodePageSize numDataPage firstDataPageSize lastDataPageSize].
    unfold td, PageSize, SectorSize in *. lia.
Qed.

(** A phase of the loader, as seen through the table. *)
Definition loaded (t : list TranslationEntry) (m0 m : Machine) (f : Z → option Z) : Prop :=
  wf_mem m ∧ m = set_memory m0 (mainMemory m) ∧
  (∀ a, 0 <= a < Z.of_nat (length t) * PageSize → vbyte t m a = f a) ∧
  (∀ p, Z.of_nat p / PageSize ∉ frames t → mainMemory m !! p = mainMemory m0 !! p).

Lemma loaded_ext t m0 m f g :
  (∀ a, 0 <= a < Z.of_nat (length t) * PageSize → f a = g a) → loaded t m0 m f → loaded t m0 m g.
Proof. intros Hfg (H1 & H2 & H3 & H4). split_and!; try done. intros a Ha. by rewrite H3, Hfg. Qed.

(** Extending the loaded part of the image by [n] bytes in page [i]. *)
Lemma load_piece t m0 m file h i o n pos :
  wf_frames t → Forall byte file → loaded t m0 m (image_upto file h (i * PageSize + o)) →
  0 <= i < Z.of_nat (length t) → 0 <= o → 0 <= n → o + n <= PageSize → 0 <= pos →
  pos + n <= Z.of_nat (length file) →
  (∀ a, i * PageSize + o <= a < i * PageSize + o + n →
     image file h a = file !! Z.to_nat (pos + (a - (i * PageSize + o)))) →
  ∃ m', (frame ← frame_of t i; read_into m (frame * PageSize + o) file n pos) = Ok m' ∧
    loaded t m0 m' (image_upto file h (i * PageSize + o + n)).
Proof.
  intros Hwf Hfile (Hm & Hm0 & Hv & Hfr) Hi Ho Hn Hon Hpos Hpn Himg.
  destruct (aget_in_range t i Hi) as (e & He & Hlk). unfold frame_of. rewrite He. cbn [mbind outcome_bind].
  destruct (read_into_page t m file i e o n pos) as (m' & -> & Hm' & Hset & Hv' & Hfr'); try done; [lia|].
  exists m'. split; [done|]. split_and!; try done.
  - rewrite Hset at 1. by rewrite Hm0.
  - intros a Ha. rewrite Hv' by lia. unfold image_upto. case_decide as H1.
    + destruct (Z.ltb_spec a (i * PageSize + o + n)); [|lia]. by rewrite Himg.
    + rewrite Hv by done. unfold image_upto.
      destruct (Z.ltb_spec a (i * PageSize + o)), (Z.ltb_spec a (i * PageSize + o + n)); try done; lia.
  - intros p Hp. by rewrite Hfr', Hfr.
Qed.

Section LoadProgram.
Context (file : list Z) (h : NoffHeader) (t : list TranslationEntry) (m0 : Machine).
Context (Hwf : wf_frames t) (He : wf_exec file h).
Context (Hfit : seg_size (code h) + seg_size (initData h) <= Z.of_nat (length t) * PageSize).

Let l := load_layout h.
Let cs := seg_size (code h).
Let ds := seg_size (initData h).

Lemma layout_facts :
  let np := numCodePage l in
  0 <= np ∧ cs = (np - 1) * PageSize + lastCodePageSize l ∧ 0 < lastCodePageSize l <= PageSize ∧
  0 <= numDataPage l ∧ 0 <= firstDataPageSize l ∧ lastCodePageSize l + firstDataPageSize l <= PageSize ∧
  (np = 0 → lastCodePageSize l = PageSize ∧ firstDataPageSize l = 0) ∧
  (numDataPage l = 0 → ds = firstDataPageSize l) ∧
  (0 < numDataPage l → lastCodePageSize l + firstDataPageSize l = PageSize ∧
     0 < lastDataPageSize l <= PageSize ∧
     ds = firstDataPageSize l + (numDataPage l - 1) * PageSize + lastDataPageSize l).
Proof. destruct He. apply load_layout_spec; lia. Qed.

Lemma image_code a : 0 <= a < cs → image file h a = file !! Z.to_nat (inFileAddr (code h) + a).
Proof. intros Ha. unfold image. fold cs. by destruct (Z.ltb_spec a cs); [|lia]. Qed.

Lemma image_data a :
  cs <= a < cs + ds → image file h a = file !! Z.to_nat (inFileAddr (initData h) + (a - cs)).
Proof.
  intros Ha. unfold image. fold cs ds.
  destruct (Z.ltb_spec a cs), (Z.ltb_spec a (cs + ds)); try lia. done.
Qed.

Lemma load_code_ok m :
  loaded t m0 m (image_upto file h 0) →
  ∃ m', load_code file h l t m = Ok m' ∧ loaded t m0 m' (image_upto file h cs).
Proof.
  intros Hm. pose proof layout_facts as (Hnp & Hcs & Hlc & _ & _ & _ & Hz & _).
  pose proof He as [Hby Hvirt (Hc0 & Hcf & Hcl) _ _ Hsmall]. unfold load_code. fold cs. fold cs in Hc0, Hcl.
  pose proof (proj1 (we_data _ _ He)) as Hds0. fold ds in Hds0. pose proof Hfit as Hfit'. fold cs ds in Hfit'.
  destruct (foldM_seqZ (λ i m, loaded t m0 m (image_upto file h (Z.min (i * PageSize) cs)))
    (λ m i, if cs >? 0 then
      frame ← frame_of t i;
      read_into m (virtualAddr (code h) + frame * PageSize) file
        (if i <? numCodePage l - 1 then PageSize else lastCodePageSize l)
        (inFileAddr (code h) + i * PageSize)
      else Ok m) (numCodePage l) m) as (m' & Hf & Hm'); [done| | |].
  - rewrite Z.mul_0_l, Z.min_l by lia. done.
  - intros i mi Hi HP. rewrite Hvirt.
    destruct (Z.gtb_spec cs 0) as [Hpos|]; [|unfold PageSize, SectorSize in *; lia].
    set (n := if i <? numCodePage l - 1 then PageSize else lastCodePageSize l).
    assert (Hn : 0 <= n <= PageSize ∧ Z.min ((i + 1) * PageSize) cs = i * PageSize + n).
    { unfold n. destruct (Z.ltb_spec i (numCodePage l - 1)); unfold PageSize, SectorSize in *; lia. }
    rewrite Z.min_l in HP by (unfold PageSize, SectorSize in *; lia).
    destruct (load_piece t m0 mi file h i 0 n (inFileAddr (code h) + i * PageSize))
      as (m' & Hr & Hl'); try done.
    + by rewrite Z.add_0_r.
    + unfold PageSize, SectorSize in *. lia.
    + lia.
    + unfold PageSize, SectorSize in *. lia.
    + unfold PageSize, SectorSize in *. lia.
    + unfold PageSize, SectorSize in *. lia.
    + intros a Ha. rewrite image_code by (unfold PageSize, SectorSize in *; lia). f_equal.
      unfold PageSize, SectorSize in *. lia.
    + exists m'. rewrite Z.add_0_r in Hl'. destruct Hn as [_ ->]. split; [|done].
      rewrite <- Hr. destruct (frame_of t i); cbn [mbind outcome_bind]; [|done..].
      by rewrite Z.add_0_l, Z.add_0_r.
  - exists m'. split; [done|]. rewrite Z.min_r in Hm' by (unfold PageSize, SectorSize in *; lia). done.
Qed.

Lemma load_first_data_ok m :
  loaded t m0 m (image_upto file h cs) →
  ∃ m', load_first_data file h l t m = Ok m' ∧
    loaded t m0 m' (image_upto file h (cs + firstDataPageSize l)).
Proof.
  intros Hm. pose proof layout_facts as (Hnp & Hcs & Hlc & Hnd & Hfd & Hsum & Hz & Hd0 & Hd1).
  pose proof He as [Hby Hvirt _ (Hd & Hdfl) _ _]. unfold load_first_data. fold ds in Hd, Hdfl.
  destruct (Z.ltb_spec (lastCodePageSize l) PageSize) as [Hlt|Hge].
  2: { exists m. split; [done|]. replace (firstDataPageSize l) with 0 by lia. by rewrite Z.add_0_r. }
  destruct (Z.gtb_spec (firstDataPageSize l) 0) as [Hpos|].
  2: { exists m. split; [done|]. replace (firstDataPageSize l) with 0 by lia. by rewrite Z.add_0_r. }
  assert (Hds : firstDataPageSize l <= ds).
  { destruct (Z.eqb_spec (numDataPage l) 0); [lia|].
    destruct Hd1 as (_ & Hld & ->); [lia|]. unfold PageSize, SectorSize in *. lia. }
  destruct (Hdfl ltac:(lia)) as [Hdf Hdl].
  rewrite Hvirt. destruct (load_piece t m0 m file h (numCodePage l - 1) (lastCodePageSize l)
    (firstDataPageSize l) (inFileAddr (initData h))) as (m' & Hr & Hl'); try done; try lia.
  - by rewrite <- Hcs.
  - pose proof Hfit as Hfit'. fold cs ds in Hfit'. unfold PageSize, SectorSize in *. lia.
  - intros a Ha. rewrite image_data by lia. f_equal. lia.
  - exists m'. rewrite <- Hcs in Hl'. split; [|done]. rewrite <- Hr.
    destruct (frame_of t _); cbn [mbind outcome_bind]; [|done..]. by rewrite Z.add_0_l.
Qed.

Lemma load_data_ok m :
  loaded t m0 m (image_upto file h (cs + firstDataPageSize l)) →
  ∃ m', load_data file h l t m = Ok m' ∧ loaded t m0 m' (image_upto file h (cs + ds)).
Proof.
  intros Hm. pose proof layout_facts as (Hnp & Hcs & Hlc & Hnd & Hfd & Hsum & Hz & Hd0 & Hd1).
  pose proof He as [Hby Hvirt _ (Hd & Hdfl) _ _]. unfold load_data. fold ds. fold ds in Hd, Hdfl.
  destruct (foldM_seqZ (λ j m, loaded t m0 m
      (image_upto file h (Z.min (cs + firstDataPageSize l + j * PageSize) (cs + ds))))
    (λ m j, if ds >? 0 then
      frame ← frame_of t (numCodePage l + j);
      read_into m (virtualAddr (code h) + frame * PageSize) file
        (if j <? numDataPage l - 1 then PageSize else lastDataPageSize l)
        (inFileAddr (initData h) + j * PageSize + firstDataPageSize l)
      else Ok m) (numDataPage l) m) as (m' & Hf & Hm'); [done| | |].
  - rewrite Z.mul_0_l, Z.add_0_r, Z.min_l; [done|].
    destruct (Z.eqb_spec (numDataPage l) 0); [lia|]. destruct Hd1 as (_ & ? & ->); [lia|].
    unfold PageSize, SectorSize in *. lia.
  - intros j mj Hj HP. destruct Hd1 as (Hfull & Hld & Hds); [lia|]. rewrite Hvirt.
    destruct (Z.gtb_spec ds 0) as [Hpos|]; [|unfold PageSize, SectorSize in *; lia].
    destruct (Hdfl Hpos) as [Hdf Hdl].
    set (n := if j <? numDataPage l - 1 then PageSize else lastDataPageSize l).
    assert (Hbase : cs + firstDataPageSize l + j * PageSize = (numCodePage l + j) * PageSize + 0)
      by (unfold PageSize, SectorSize in *; lia).
    assert (Hn : 0 <= n <= PageSize ∧
      Z.min (cs + firstDataPageSize l + (j + 1) * PageSize) (cs + ds) =
      (numCodePage l + j) * PageSize + 0 + n).
    { unfold n. destruct (Z.ltb_spec j (numDataPage l - 1)); unfold PageSize, SectorSize in *; lia. }
    rewrite Z.min_l in HP by (unfold PageSize, SectorSize in *; lia). rewrite Hbase in HP.
    pose proof Hfit as Hfit'. fold cs ds in Hfit'.
    destruct (load_piece t m0 mj file h (numCodePage l + j) 0 n
      (inFileAddr (initData h) + j * PageSize + firstDataPageSize l)) as (m' & Hr & Hl'); try done.
    + unfold PageSize, SectorSize in *. lia.
    + lia.
    + lia.
    + unfold PageSize, SectorSize in *. lia.
    + unfold PageSize, SectorSize in *. lia.
    + intros a Ha. rewrite image_data by (unfold PageSize, SectorSize in *; lia). f_equal.
      unfold PageSize, SectorSize in *. lia.
    + exists m'. destruct Hn as [_ ->]. split; [|done].
      rewrite <- Hr. destruct (frame_of t _); cbn [mbind outcome_bind]; [|done..].
      by rewrite Z.add_0_l, Z.add_0_r.
  - exists m'. split; [done|]. rewrite Z.min_r in Hm'; [done|].
    destruct (Z.eqb_spec (numDataPage l) 0); [lia|]. destruct Hd1 as (_ & ? & ->); [lia|].
    unfold PageSize, SectorSize in *. lia.
Qed.

Lemma load_program_ok m :
  loaded t m0 m (λ _, Some 0) →
  ∃ m', load_program file h t m = Ok m' ∧ loaded t m0 m' (image file h).
Proof.
  intros Hm. unfold load_program. fold l.
  destruct (load_code_ok m) as (m1 & -> & H1).
  { eapply loaded_ext; [|exact Hm]. intros a Ha. unfold image_upto.
    by destruct (Z.ltb_spec a 0); [lia|]. }
  cbn [mbind outcome_bind]. destruct (load_first_data_ok m1 H1) as (m2 & -> & H2).
  cbn [mbind outcome_bind]. destruct (load_data_ok m2 H2) as (m3 & -> & H3).
  exists m3. split; [done|]. eapply loaded_ext; [|exact H3]. intros a Ha.
  unfold image_upto, image. fold cs ds.
  destruct (Z.ltb_spec a (cs + ds)); [done|]. by destruct (Z.ltb_spec a cs); [destruct He; lia|].
Qed.
End LoadProgram.

(** ** Allocating the frames *)

(** A fresh table: page [i] is valid, writable, unused and clean. *)
Definition fresh_table (t : list TranslationEntry) : Prop :=
  ∀ i e, t !! i = Some e →
    virtualPage e = Z.of_nat i ∧ valid e = true ∧ readOnly e = false ∧ use e = false ∧ dirty e = false.

Section Alloc.
Context {B : Type} `{BitAllocLaws B}.

Record alloc_inv (m0 : Machine) (b0 : B) (i : Z) (st : Machine * B * list TranslationEntry) : Prop := {
  ai_length : Z.of_nat (length st.2) = i;
  ai_frames : wf_frames st.2;
  ai_table : fresh_table st.2;
  ai_ok : ba_ok st.1.2;
  ai_size : ba_size st.1.2 = NumPhysPages;
  ai_used : ba_used st.1.2 = list_to_set (frames st.2) ∪ ba_used b0;
  ai_new : Forall (λ f, f ∉ ba_used b0) (frames st.2);
  ai_loaded : loaded st.2 m0 st.1.1 (λ _, Some 0);
}.

(** The frames of a table with one more page. *)
Lemma frames_snoc t e : frames (t ++ [e]) = frames t ++ [physicalPage e].
Proof. unfold frames. by rewrite fmap_app. Qed.

Lemma vbyte_snoc_old t e m a :
  0 <= a < Z.of_nat (length t) * PageSize → vbyte (t ++ [e]) m a = vbyte t m a.
Proof.
  intros Ha. unfold vbyte, vphys. rewrite lookup_app_l; [done|].
  assert (a / PageSize < Z.of_nat (length t)) by (apply Z.div_lt_upper_bound; [done|lia]).
  pose proof (Z.div_pos a PageSize). lia.
Qed.

(** One iteration: a frame that was clear, zeroed. *)
Lemma alloc_page_ok m0 b0 i st :
  ba_ok b0 → ba_size b0 = NumPhysPages →
  alloc_inv m0 b0 i st → i < NumPhysPages - Z.of_nat (size (ba_used b0)) →
  ∃ st', alloc_page st i = Ok st' ∧ alloc_inv m0 b0 (i + 1) st'.
Proof.
  intros Hok0 Hsz0 Hinv Hi. destruct st as [[m b] t].
  destruct Hinv as [Hl Hfr Htab Hok Hsz Hus Hnew (Hm & Hm0 & Hv & Hout)]; cbn [fst snd] in *.
  destruct (ba_Find_law b Hok) as [(_ & f & b' & HF & Hok' & Hsz' & Hf & Hnin & _ & Hus')|[Hfull _]].
  2: { exfalso. rewrite Hus in Hfull.
    assert (Hle : (size (list_to_set (C := gset Z) (frames t) ∪ ba_used b0) <=
      length t + size (ba_used b0))%nat).
    { rewrite size_union_alt. pose proof (subseteq_size (ba_used b0 ∖ list_to_set (frames t)) (ba_used b0)).
      destruct Hfr as [Hnd _]. rewrite size_list_to_set by done. unfold frames at 1.
      rewrite length_fmap. set_solver by lia. }
    lia. }
  unfold alloc_page. rewrite HF. cbn [mbind outcome_bind].
  rewrite Hsz in Hf. rewrite Hus in Hnin. apply not_elem_of_union in Hnin as [Hnf Hn0].
  rewrite elem_of_list_to_set in Hnf.
  assert (Hfr' : wf_frames (t ++ [mkTE i f true false false false])).
  { destruct Hfr as [Hnd Hrange]. split; rewrite frames_snoc; cbn [physicalPage].
    - apply NoDup_app. split; [done|]. split; [set_solver|apply NoDup_singleton].
    - apply Forall_app. split; [done|]. by constructor. }
  assert (Hlast : (t ++ [mkTE i f true false false false]) !! Z.to_nat i =
    Some (mkTE i f true false false false)).
  { rewrite <- Hl, Nat2Z.id. apply list_lookup_middle. done. }
  destruct (read_into_page _ m (replicate (Z.to_nat PageSize) 0) i
    (mkTE i f true false false false) 0 PageSize 0 Hfr' Hm)
    as (m' & Hr & Hm' & Hset & Hv' & Hout'); try done; try lia.
  { by apply Forall_replicate. }
  assert (Hst : mem_store m (f * PageSize) (replicate (Z.to_nat PageSize) 0) = Ok m').
  { rewrite <- Hr. unfold read_into. cbn [physicalPage]. rewrite Z.add_0_r. f_equal. }
  rewrite Hst. cbn [mbind outcome_bind]. eexists. split; [done|].
  split; cbn [fst snd]; try done.
  - rewrite length_app. simpl. lia.
  - intros j e Hj. apply lookup_app_Some in Hj as [Hj|[Hj1 Hj2]]; [by apply Htab|].
    apply list_lookup_singleton_Some in Hj2 as [Hj2 <-]. cbn. split_and!; try done. lia.
  - by rewrite Hsz'.
  - rewrite Hus', Hus, frames_snoc, list_to_set_app_L. cbn [physicalPage]. set_solver.
  - rewrite frames_snoc. apply Forall_app. split; [done|]. by constructor.
  - split; [done|]. split; [rewrite Hset at 1; by rewrite Hm0|]. split.
    + intros a Ha. rewrite length_app in Ha. simpl in Ha. rewrite Hv' by lia.
      case_decide as Hd.
      * apply lookup_replicate_2. unfold PageSize, SectorSize in *. lia.
      * rewrite vbyte_snoc_old, Hv; [done|..]; unfold PageSize, SectorSize in *; lia.
    + intros p Hp. rewrite Hout' by done. apply Hout. rewrite frames_snoc in Hp. set_solver.
Qed.

Lemma alloc_loop_ok m0 b0 n :
  ba_ok b0 → ba_size b0 = NumPhysPages → wf_mem m0 →
  0 <= n <= NumPhysPages - Z.of_nat (size (ba_used b0)) →
  ∃ st, foldM alloc_page (m0, b0, []) (seqZ 0 n) = Ok st ∧ alloc_inv m0 b0 n st.
Proof.
  intros Hok Hsz Hm Hn. apply foldM_seqZ; [lia| |].
  - split; cbn [fst snd]; try done.
    + split; [apply NoDup_nil_2|constructor].
    + set_solver.
    + split_and!; try done; [by destruct m0|]. simpl. lia.
  - intros i st Hi Hinv. apply alloc_page_ok; try done. lia.
Qed.

(** What a successful construction guarantees. *)
Record new_space (file : list Z) (h : NoffHeader) (m : Machine) (b : B)
    (sp : AddrSpace) (m' : Machine) (b' : B) (t : list TranslationEntry) : Prop := {
  ns_pages : numPages sp = space_pages h ∧ Z.of_nat (length t) = numPages sp;
  ns_table : ptables m !! as_pageTable sp = None ∧
    ptables m' = <[as_pageTable sp := t]> (ptables m);
  ns_fresh : fresh_table t;
  ns_frames : wf_frames t ∧ Forall (λ f, f ∉ ba_used b) (frames t);
  ns_bitmap : ba_ok b' ∧ ba_size b' = NumPhysPages ∧
    ba_used b' = list_to_set (frames t) ∪ ba_used b;
  ns_image : ∀ a, 0 <= a < numPages sp * PageSize → vbyte t m' a = image file h a;
  ns_others : ∀ p, Z.of_nat p / PageSize ∉ frames t → mainMemory m' !! p = mainMemory m !! p;
  ns_mem : wf_mem m';
  ns_regs : registers m' = registers m ∧ tlb m' = tlb m ∧ pageTable m' = pageTable m ∧
    pageTableSize m' = pageTableSize m;
}.

(** The header the loader uses. *)
Definition exec_header (file : list Z) (h : NoffHeader) : Prop :=
  sizeof_NoffHeader <= Z.of_nat (length file) ∧
  h = header_of (bytes_at file 0 sizeof_NoffHeader) ∧ noffMagic h = NOFFMAGIC.

Lemma space_pages_bounds h :
  0 <= seg_size (code h) → 0 <= seg_size (initData h) → 0 <= seg_size (uninitData h) →
  seg_size (code h) + seg_size (initData h) + seg_size (uninitData h) < 2 ^ 30 →
  0 <= space_pages h ∧ seg_size (code h) + seg_size (initData h) <= space_pages h * PageSize.
Proof.
  intros ????. unfold space_pages. rewrite u32_id by (unfold UserStackSize; lia).
  pose proof (divRoundUp_bounds (seg_size (code h) + seg_size (initData h) + seg_size (uninitData h)
    + UserStackSize) PageSize) as Hb.
  unfold UserStackSize, PageSize, SectorSize in *. lia.
Qed.

Lemma AddrSpace_new_unfold file h g m b clear :
  exec_header file h → ba_NumClear b = Ok clear →
  AddrSpace_new (Some file) g m b =
  if space_pages h >? u32 clear then Ok (mkSpace (as_pageTable g) 0, m, b)
  else
    '(m, b, t) ← foldM alloc_page (m, b, []) (seqZ 0 (space_pages h));
    let p := fresh (dom (ptables m)) in
    let m := set_ptables m (<[p := t]> (ptables m)) in
    m ← load_program file h t m;
    Ok (mkSpace p (space_pages h), m, b).
Proof.
  intros (Hlen & Hh & Hmagic) Hc. unfold AddrSpace_new.
  destruct (Z.ltb_spec (Z.of_nat (length file)) sizeof_NoffHeader); [lia|].
  rewrite <- Hh, Hmagic, Z.eqb_refl. cbn [negb andb]. rewrite Hmagic, Z.eqb_refl.
  cbn [ASSERT mbind outcome_bind]. by rewrite Hc.
Qed.

Lemma AddrSpace_new_ok file h g m b :
  wf_mem m → ba_ok b → ba_size b = NumPhysPages → exec_header file h → wf_exec file h →
  space_pages h <= NumPhysPages - Z.of_nat (size (ba_used b)) →
  ∃ sp m' b' t, AddrSpace_new (Some file) g m b = Ok (sp, m', b') ∧ new_space file h m b sp m' b' t.
Proof.
  intros Hm Hok Hsz Hh He Hfit. pose proof He as [_ _ (Hc & _) (Hd & _) Hb Hsmall].
  destruct (space_pages_bounds h Hc Hd Hb Hsmall) as [Hp0 Hp1].
  rewrite (AddrSpace_new_unfold _ h _ _ _ _ Hh (ba_NumClear_law b Hok)). rewrite Hsz.
  rewrite u32_id by (unfold NumPhysPages in *; lia).
  destruct (Z.gtb_spec (space_pages h) (NumPhysPages - Z.of_nat (size (ba_used b)))); [lia|].
  destruct (alloc_loop_ok m b (space_pages h) Hok Hsz Hm ltac:(lia)) as ([[m1 b1] t] & -> & Hinv).
  destruct Hinv as [Hl Hfr Htab Hok1 Hsz1 Hus Hnew (Hm1 & Hm01 & Hv & Hout)]; cbn [fst snd] in *.
  cbn [mbind outcome_bind]. cbv zeta. set (p := fresh (dom (ptables m1))).
  assert (Hpt : ptables m1 = ptables m) by (rewrite Hm01; done).
  set (m2 := set_ptables m1 (<[p := t]> (ptables m1))).
  destruct (load_program_ok file h t (set_ptables m (<[p := t]> (ptables m1))) Hfr He ltac:(lia) m2)
    as (m3 & -> & (Hm3 & Hset & Hv3 & Hout3)).
  { split_and!; try done. unfold m2. rewrite Hm01 at 1. done. }
  cbn [mbind outcome_bind]. exists (mkSpace p (space_pages h)), m3, b1, t. split; [done|].
  split; cbn [numPages as_pageTable]; try done.
  - split.
    + rewrite <- Hpt. apply not_elem_of_dom. apply is_fresh.
    + rewrite Hset. simpl. by rewrite Hpt.
  - intros a Ha. apply Hv3. lia.
  - by rewrite Hset.
Qed.
End Alloc.

(** ** Theorems *)

(** The fields of an executable: 600 bytes of code (two pages), 8 bytes of data. *)
Definition demo_exec : list Z :=
  words_to_bytes [NOFFMAGIC; 0; 40; 600; 600; 640; 8; 608; 0; 16] ++
  replicate 600 170 ++ [1; 2; 3; 4; 5; 6; 7; 8].

Definition demo_header : NoffHeader :=
  mkNoff NOFFMAGIC (mkSegment 0 40 600) (mkSegment 600 640 8) (mkSegment 608 0 16).

Definition demo_bits : BitMap := mkBitMap 128 4 [7; 0; 0; 0].

Lemma demo_exec_header : exec_header demo_exec demo_header.
Proof. split; [vm_compute; discriminate|]. by split; vm_compute. Qed.

Lemma demo_exec_wf : wf_exec demo_exec demo_header.
Proof.
  split; try (vm_compute; repeat split; discriminate); [|done..].
  apply Forall_app. split; [apply words_to_bytes_bytes|]. apply Forall_app. split.
  - by apply Forall_replicate.
  - repeat constructor; done.
Qed.

Lemma demo_bits_ok : ba_ok demo_bits ∧ ba_size demo_bits = NumPhysPages.
Proof. split; [|done]. split; try done. repeat constructor; done. Qed.

(** C2: loading a program.  If the frame bitmap has room, the constructor
    succeeds: the new address space has as many pages as code, data and stack
    need; every page is valid and mapped to its own frame, one that was clear
    in the bitmap and is now marked; seen through the new page table the memory
    holds the code segment of the file, then its initialised data, then zeros,
    byte for byte; and no byte of any other frame, no other page table and no
    register changes. *)
Theorem AddrSpace_loads_program {B} `{BitAllocLaws B} file h g m (b : B) :
  wf_mem m → ba_ok b → ba_size b = NumPhysPages → exec_header file h → wf_exec file h →
  space_pages h <= NumPhysPages - Z.of_nat (size (ba_used b)) →
  ∃ sp m' b' t, AddrSpace_new (Some file) g m b = Ok (sp, m', b') ∧ new_space file h m b sp m' b' t.
Proof. apply AddrSpace_new_ok. Qed.

Lemma demo_fits :
  space_pages demo_header <= NumPhysPages - Z.of_nat (size (ba_used demo_bits)).
Proof. vm_compute. discriminate. Qed.

Lemma AddrSpace_loads_program_witness :
  ∃ sp m' b' t, AddrSpace_new (Some demo_exec) (mkSpace 0 0) demo_machine demo_bits = Ok (sp, m', b') ∧
    new_space demo_exec demo_header demo_machine demo_bits sp m' b' t.
Proof.
  apply (AddrSpace_loads_program demo_exec demo_header);
    [exact demo_wf_mem|exact (proj1 demo_bits_ok)|exact (proj2 demo_bits_ok)
    |exact demo_exec_header|exact demo_exec_wf|exact demo_fits].
Defined.

(** Not enough memory.  If the program needs more frames than are clear, or
    its file cannot be opened, nothing is allocated or written, and in the first
    case the space has no pages. *)
Theorem AddrSpace_no_memory {B} `{BitAllocLaws B} file h g m (b : B) :
  ba_ok b → ba_size b = NumPhysPages → exec_header file h →
  (NumPhysPages - Z.of_nat (size (ba_used b)) < space_pages h →
   ∃ sp, AddrSpace_new (Some file) g m b = Ok (sp, m, b) ∧ numPages sp = 0) ∧
  AddrSpace_new None g m b = Ok (g, m, b).
Proof.
  intros Hok Hsz Hh. split; [|done]. intros Hfull.
  rewrite (AddrSpace_new_unfold _ h _ _ _ _ Hh (ba_NumClear_law b Hok)). rewrite Hsz.
  assert (Hle : Z.of_nat (size (ba_used b)) <= NumPhysPages).
  { rewrite <- Hsz. destruct (ba_Find_law b Hok) as [[? _]|[? _]]; lia. }
  rewrite u32_id by (unfold NumPhysPages in *; lia).
  destruct (Z.gtb_spec (space_pages h) (NumPhysPages - Z.of_nat (size (ba_used b)))); [|lia].
  by exists (mkSpace (as_pageTable g) 0).
Qed.

(** All frames but one are taken. *)
Definition full_bits : BitMap := mkBitMap 128 4 [2 ^ 32 - 1; 2 ^ 32 - 1; 2 ^ 32 - 1; 2 ^ 31 - 1].

Lemma AddrSpace_no_memory_witness :
  ∃ sp, AddrSpace_new (Some demo_exec) (mkSpace 0 0) demo_machine full_bits =
    Ok (sp, demo_machine, full_bits) ∧ numPages sp = 0.
Proof.
  destruct (AddrSpace_no_memory demo_exec demo_header (mkSpace 0 0) demo_machine full_bits) as [Hn _].
  - split; try reflexivity; [vm_compute; discriminate|]. repeat constructor; vm_compute; congruence.
  - reflexivity.
  - exact demo_exec_header.
  - apply Hn. vm_compute. reflexivity.
Defined.
