(* ===== verification/Processes.v ===== *)
(** * Processes do not disturb each other

    Frame allocation (AddrSpace), translation (Machine) and the interpreter
    (Mips) together: the page tables of the live processes use disjoint frames,
    loading a program keeps that, and user code of one process never changes
    the memory another process sees. *)

From Stdlib Require Import ZArith Lia Bool.
From S2P Require Import Prelude Bytes Bitmap Machine Mips MipsProofs AddrSpace AddrSpaceProofs.

Local Open Scope Z_scope.

Section Processes.
Context {B : Type} `{BitAllocLaws B}.

(** The processes with page tables [ps] own disjoint sets of allocated frames. *)
Record processes_ok (m : Machine) (b : B) (ps : list Z) : Prop := {
  po_nodup : NoDup ps;
  po_table : ∀ p, p ∈ ps → ∃ t, ptables m !! p = Some t ∧ wf_frames t ∧
    Forall (λ f, f ∈ ba_used b) (frames t);
  po_disjoint : ∀ p q t u f, p ∈ ps → q ∈ ps → p ≠ q →
    ptables m !! p = Some t → ptables m !! q = Some u → f ∈ frames t → f ∉ frames u;
}.

Lemma te_equiv_frames (t u : list TranslationEntry) : t ≡ u → frames t = frames u.
Proof.
  intros Htu. apply list_equiv_Forall2 in Htu. unfold frames.
  induction Htu as [|e f t u (_ & Hp & _) _ IH]; [done|]. by rewrite !fmap_cons, Hp, IH.
Qed.

Lemma ptables_equiv_lookup (m m' : Machine) p t :
  ptables m ≡ ptables m' → ptables m !! p = Some t →
  ∃ t', ptables m' !! p = Some t' ∧ frames t' = frames t.
Proof.
  intros He Hp. pose proof (lookup_proper p _ _ He) as Hl. rewrite Hp in Hl.
  inversion Hl as [x y Hxy Hx Hy|]; subst. exists y. split; [done|]. symmetry. by apply te_equiv_frames.
Qed.

Lemma processes_ok_same m m' b ps :
  same_map m m' → processes_ok m b ps → processes_ok m' b ps.
Proof.
  intros Hs [Hnd Ht Hd]. pose proof (sm_tables _ _ Hs) as He. symmetry in He. split; [done|..].
  - intros p Hp. destruct (Ht p Hp) as (t & Hpt & Hwf & Hu).
    destruct (ptables_equiv_lookup m m' p t) as (t' & Ht' & Hf); [by symmetry|done|].
    exists t'. unfold wf_frames. rewrite Hf. split; [done|]. by split.
  - intros p q t u f Hp Hq Hpq Hpt Hqu Hf.
    destruct (ptables_equiv_lookup m' m p t He Hpt) as (t' & Ht' & Hft).
    destruct (ptables_equiv_lookup m' m q u He Hqu) as (u' & Hu' & Hfu).
    rewrite <- Hft in Hf. rewrite <- Hfu. by eapply (Hd p q).
Qed.

(** The frames the running process may write are those of its table. *)
Lemma writable_frame_current m p t f :
  tlb m = None → pageTable m = Some p → ptables m !! p = Some t → wf_frames t →
  writable_frame m f → f ∈ frames t.
Proof.
  intros Htlb Hp Ht Hwf (vpn & l & e & Hf & _ & <-). unfold find_entry in Hf. rewrite Htlb in Hf.
  destruct (_ >=? _); [done|]. unfold current_table in Hf. rewrite Hp, Ht in Hf. simpl in Hf.
  apply bind_Ok_inv in Hf as (e0 & He0 & Hf). destruct (negb _); [done|]. injection Hf as <- <-.
  apply aget_Ok in He0 as [_ He0]. pose proof (frame_lookup t _ e0 Hwf He0) as Hr.
  rewrite u32_id by (unfold NumPhysPages in *; lia).
  unfold frames. apply list_elem_of_lookup. exists (Z.to_nat vpn). by rewrite list_lookup_fmap, He0.
Qed.

(** What process [q] sees does not depend on bytes outside its frames. *)
Lemma vbyte_outside t u m m' a :
  frames t = frames u → wf_frames t → 0 <= a →
  (∀ i, Z.of_nat i / PageSize ∈ frames t → mainMemory m' !! i = mainMemory m !! i) →
  vbyte u m' a = vbyte t m a.
Proof.
  intros Hfr Hwf Ha Hm. unfold vbyte, vphys.
  assert (Hl : physicalPage <$> t !! Z.to_nat (a / PageSize) =
    physicalPage <$> u !! Z.to_nat (a / PageSize)).
  { unfold frames in Hfr. rewrite <- !list_lookup_fmap. by rewrite Hfr. }
  destruct (t !! Z.to_nat (a / PageSize)) as [e|] eqn:He, (u !! Z.to_nat (a / PageSize)) as [e'|];
    simpl in Hl; try done. injection Hl as Hpp. rewrite <- Hpp. apply Hm.
  pose proof (frame_lookup t _ e Hwf He) as Hr. destruct (page_split a Ha) as (_ & Hmod & _).
  rewrite Z2Nat.id by (unfold PageSize, SectorSize in *; lia).
  destruct (page_of (physicalPage e) (a mod PageSize) Hmod) as [-> _].
  unfold frames. apply list_elem_of_lookup. exists (Z.to_nat (a / PageSize)). by rewrite list_lookup_fmap, He.
Qed.

(** The machine runs process [p]. *)
Record runs (m : Machine) (p : Z) : Prop := {
  ru_wf : wf_machine m;
  ru_tlb : tlb m = None;
  ru_table : pageTable m = Some p;
}.

(** Consecutive user instructions, until one traps. *)
Inductive user_run : Machine → Machine → Prop :=
| ur_refl m : user_run m m
| ur_step m r m' m'' : OneInstruction m = Ok (r, m') → user_run m' m'' → user_run m m''.

Lemma same_map_runs m m' p :
  same_map m m' → wf_machine m' → runs m p → runs m' p.
Proof.
  intros [Ht Hp _ _] Hwf [_ Htlb Hpt]. split; [done| |by rewrite <- Hp].
  rewrite Htlb in Ht. by inversion Ht.
Qed.

(** One instruction, as another process sees it. *)
Lemma OneInstruction_other m r m' b ps p q u a :
  runs m p → processes_ok m b ps → p ∈ ps → q ∈ ps → p ≠ q → ptables m !! q = Some u → 0 <= a →
  OneInstruction m = Ok (r, m') →
  ∃ u', ptables m' !! q = Some u' ∧ vbyte u' m' a = vbyte u m a ∧
    runs m' p ∧ processes_ok m' b ps.
Proof.
  intros Hr Hok Hp Hq Hpq Hu Ha Hst. pose proof Hr as [Hwf Htlb Hpt].
  pose proof (OneInstruction_spec m Hwf) as Hsp. rewrite Hst in Hsp.
  destruct Hsp as [Hregs [Hs Hmem Hfr] _ _ _].
  destruct (po_table _ _ _ Hok p Hp) as (t & Ht & Hwft & _).
  destruct (po_table _ _ _ Hok q Hq) as (u0 & Hu0 & Hwfu & _). rewrite Hu in Hu0. injection Hu0 as <-.
  destruct (ptables_equiv_lookup m m' q u (sm_tables _ _ Hs) Hu) as (u' & Hu' & Hfu).
  exists u'. split; [done|]. split.
  - apply (vbyte_outside u u'); [done|done|done|]. intros i Hi. apply Hfr. intros Hw.
    eapply writable_frame_current in Hw; [|done..]. by eapply (po_disjoint _ _ _ Hok p q).
  - split; [|by eapply processes_ok_same]. eapply same_map_runs; [done| |done].
    split; [done| |done]. by eapply wf_tr_same, Hwf.
Qed.

(** C1: process isolation.  While the machine runs process p, any number of
    user instructions leaves every byte another process q sees through its own
    page table as it is, and the ownership of frames by the processes is kept. *)
Theorem process_isolation m m' b ps p q u a :
  runs m p → processes_ok m b ps → p ∈ ps → q ∈ ps → p ≠ q → ptables m !! q = Some u → 0 <= a →
  user_run m m' →
  ∃ u', ptables m' !! q = Some u' ∧ vbyte u' m' a = vbyte u m a ∧
    runs m' p ∧ processes_ok m' b ps.
Proof.
  intros Hr Hok Hp Hq Hpq Hu Ha Hrun. revert u Hr Hok Hu.
  induction Hrun as [m|m r m1 m2 Hst _ IH]; intros u Hr Hok Hu; [by exists u|].
  destruct (OneInstruction_other m r m1 b ps p q u a) as (u1 & Hu1 & Hv1 & Hr1 & Hok1); try done.
  destruct (IH u1 Hr1 Hok1 Hu1) as (u2 & Hu2 & Hv2 & Hr2 & Hok2).
  exists u2. rewrite Hv2. by split_and!.
Qed.

(** Loading keeps processes apart.  A successful AddrSpace constructor adds
    a process whose frames no other process has, and the other processes see
    the same memory as before. *)
Theorem loading_keeps_processes file h g m b ps :
  processes_ok m b ps → wf_mem m → ba_ok b → ba_size b = NumPhysPages → exec_header file h →
  wf_exec file h → space_pages h <= NumPhysPages - Z.of_nat (size (ba_used b)) →
  ∃ sp m' b', AddrSpace_new (Some file) g m b = Ok (sp, m', b') ∧
    processes_ok m' b' (as_pageTable sp :: ps) ∧
    ∀ q u a, q ∈ ps → ptables m !! q = Some u → 0 <= a →
      ptables m' !! q = Some u ∧ vbyte u m' a = vbyte u m a.
Proof.
  intros Hok Hmem Hb Hsz Hh He Hfit.
  destruct (AddrSpace_new_ok file h g m b) as (sp & m' & b' & t & Hnew & Hns); try done.
  destruct Hns as [_ [Hnone Htab] _ [Hwf Hfresh] (Hb' & Hsz' & Hus) _ Hout _ _].
  exists sp, m', b'. split; [done|].
  assert (Hne : ∀ q, q ∈ ps → as_pageTable sp ≠ q).
  { intros q Hq <-. destruct (po_table _ _ _ Hok _ Hq) as (u & Hu & _). by rewrite Hu in Hnone. }
  assert (Hdisj : ∀ q u f, q ∈ ps → ptables m !! q = Some u → f ∈ frames u → f ∉ frames t).
  { intros q u f Hq Hu Hf Hft. destruct (po_table _ _ _ Hok _ Hq) as (u0 & Hu0 & _ & Hused).
    rewrite Hu in Hu0. injection Hu0 as <-. rewrite Forall_forall in Hused, Hfresh.
    by apply (Hfresh f), Hused. }
  split.
  - split.
    + constructor; [|apply Hok]. intros Hin. by eapply Hne.
    + intros p [->|Hp]%elem_of_cons.
      * exists t. rewrite Htab, lookup_insert_eq, Hus. split_and!; try done.
        apply Forall_forall. intros f Hf. by apply elem_of_union_l, elem_of_list_to_set.
      * destruct (po_table _ _ _ Hok _ Hp) as (u & Hu & Hwu & Hused). exists u.
        rewrite Htab, lookup_insert_ne by auto. split_and!; try done.
        eapply Forall_impl; [exact Hused|]. intros f Hf. rewrite Hus. by apply elem_of_union_r.
    + intros p q tp tq f Hp Hq Hpq. rewrite Htab.
      apply elem_of_cons in Hp as [->|Hp]; apply elem_of_cons in Hq as [->|Hq]; [done|..].
      * rewrite lookup_insert_eq, lookup_insert_ne by auto. intros [= <-] Hu Hf Hfu.
        by eapply (Hdisj q).
      * rewrite lookup_insert_eq, lookup_insert_ne by auto. intros Hu [= <-] Hf.
        by eapply (Hdisj p).
      * rewrite !lookup_insert_ne by auto. by apply (po_disjoint _ _ _ Hok).
  - intros q u a Hq Hu Ha. split; [by rewrite Htab, lookup_insert_ne by auto|].
    destruct (po_table _ _ _ Hok _ Hq) as (u0 & Hu0 & Hwu & _). rewrite Hu in Hu0. injection Hu0 as <-.
    apply (vbyte_outside u u); try done. intros i Hi. apply Hout. by eapply Hdisj.
Qed.
End Processes.

(** ** Two processes: table 0 with frame 5 and table 1 with frame 3. *)

Definition two_machine : Machine :=
  load_page_table (set_ptables (Machine_new false)
    {[ 0 := [mkTE 0 5 true false false false]; 1 := [mkTE 0 3 true false false false] ]}) (Some 0) 1.

Definition two_bits : BitMap := mkBitMap 128 4 [40; 0; 0; 0].

Lemma two_bits_ok : ba_ok two_bits.
Proof. split; try done. repeat constructor; done. Qed.

Lemma two_mem : wf_mem two_machine.
Proof.
  split; cbn [two_machine mainMemory load_page_table set_ptables Machine_new].
  - rewrite length_replicate. by apply Z2Nat.id.
  - by apply Forall_replicate.
Qed.

Lemma two_runs : runs two_machine 0.
Proof.
  split; [|done|done]. split; [|by eexists 0, _|exact two_mem].
  split; [done| |done|done]. cbn [two_machine load_page_table set_ptables registers Machine_new].
  apply Forall_replicate. by apply int32_small.
Qed.

Lemma two_processes : processes_ok two_machine two_bits [0; 1].
Proof.
  split.
  - apply (bool_decide_unpack _). by vm_compute.
  - assert (H5 : 5 ∈ ba_used two_bits) by (apply (bool_decide_unpack _); by vm_compute).
    assert (H3 : 3 ∈ ba_used two_bits) by (apply (bool_decide_unpack _); by vm_compute).
    intros p [-> | [-> | []%not_elem_of_nil]%elem_of_cons]%elem_of_cons; eexists; (split; [done|]);
      (split; [|by repeat constructor]); (split; [apply NoDup_singleton|by repeat constructor]).
  - intros p q t u f Hp Hq Hpq Ht Hu Hf.
    apply elem_of_cons in Hp as [-> | [-> | []%not_elem_of_nil]%elem_of_cons];
      apply elem_of_cons in Hq as [-> | [-> | []%not_elem_of_nil]%elem_of_cons]; try done;
      vm_compute in Ht, Hu; injection Ht as <-; injection Hu as <-;
      apply elem_of_cons in Hf as [-> | []%not_elem_of_nil];
      apply (bool_decide_unpack _); by vm_compute.
Qed.

Lemma process_isolation_witness :
  ∃ m' u', user_run two_machine m' ∧ ptables m' !! 1 = Some u' ∧
    vbyte u' m' 17 = vbyte [mkTE 0 3 true false false false] two_machine 17.
Proof.
  destruct (is_Next_Ok (OneInstruction two_machine) ltac:(vm_compute; reflexivity)) as [m' Hm'].
  assert (Hrun : user_run two_machine m') by (eapply ur_step; [exact Hm'|constructor]).
  destruct (process_isolation two_machine m' two_bits [0; 1] 0 1 [mkTE 0 3 true false false false] 17)
    as (u' & Hu' & Hv & _);
    [exact two_runs|exact two_processes|repeat constructor|repeat constructor|discriminate|reflexivity|lia|exact Hrun|].
  exists m', u'. split; [exact Hrun|]. split; [exact Hu'|exact Hv].
Defined.

Lemma loading_keeps_processes_witness :
  ∃ sp m' b', AddrSpace_new (Some demo_exec) (mkSpace 0 0) two_machine two_bits = Ok (sp, m', b') ∧
    processes_ok m' b' (as_pageTable sp :: [0; 1]).
Proof.
  destruct (loading_keeps_processes demo_exec demo_header (mkSpace 0 0) two_machine two_bits [0; 1])
    as (sp & m' & b' & H1 & H2 & _);
    [exact two_processes|exact two_mem|exact two_bits_ok|reflexivity|exact demo_exec_header
    |exact demo_exec_wf|vm_compute; discriminate|].
  exists sp, m', b'. split; [exact H1|exact H2].
Defined.
