(* ===== verification/Sched.v ===== *)
(** * threads/thread.cc, threads/scheduler.cc, threads/synch.cc: kernel threads

    Threads, the ready list, context switches and semaphores.  A thread's own
    code is a parameter: [code] gives, for a control state of type [L], the
    next operation and how it goes on; that includes running user instructions,
    taking an address space (StartProcess_2), writing over the end of its own
    stack and setting the interrupt level.  A thread that does not run is
    suspended inside Scheduler::Run, called from P (through Sleep), from Yield
    or from Finish, or has not started yet; [th_susp] records which, so SWITCH
    is the resumption of the next thread at that point.  [ctl] is the control
    point of the running thread, and [intLevel] the level of the interrupt
    controller, which P, V, Fork, Yield and Finish set and restore.  Each of them
    runs with interrupts off, so it is one step up to the point where another
    thread runs; the hardware (interrupt handlers while a thread runs with
    interrupts on or while the machine idles, and time slices) makes the further
    steps of the relation [irq]. *)

From Stdlib Require Import ZArith Lia Bool.
From S2P Require Import Prelude Bytes Machine Interrupt AddrSpace.

Local Open Scope Z_scope.

Definition STACK_FENCEPOST : Z := 0xdeadbeef.

Inductive ThreadStatus := JUST_CREATED | RUNNING | READY | BLOCKED.

#[export] Instance ThreadStatus_eq_dec : EqDecision ThreadStatus.
Proof. solve_decision. Defined.

(** The events of a run: completed semaphore operations. *)
Inductive event := Tau | EvP (s : Z) | EvV (s : Z).

#[export] Instance event_eq_dec : EqDecision event.
Proof. solve_decision. Defined.

Section Kernel.
Context {L : Type}.

(** What a thread does next.  Apart from the calls into threads/: [OpUser] runs
    user instructions, of which only the effect on the registers counts here
    (each register becomes a function of the registers); [OpSpace] is
    StartProcess_2 (userprog/pcb.cc) with an executable whose page table is
    [table]; [OpStack] overwrites the word at the end of the thread's own stack;
    [OpSetLevel] is interrupt->SetLevel. *)
Inductive kop :=
| OpStep (next : L)
| OpP (sem : Z) (next : L)
| OpV (sem : Z) (next : L)
| OpYield (next : L)
| OpFork (func : L) (next : L)
| OpSpace (table : list TranslationEntry) (next : L)
| OpUser (f : Z → list Z → Z) (next : L)
| OpStack (w : Z) (next : L)
| OpSetLevel (now : IntStatus) (next : L)
| OpFinish.

(** Where a thread that does not run resumes, with the local oldLevel of P and
    Yield. *)
Inductive suspension :=
| AtThreadRoot (func : L)
| InP (sem : Z) (oldLevel : IntStatus) (next : L)
| InYield (oldLevel : IntStatus) (next : L)
| InFinish.

(** class Thread: [th_stack] is the word at the fencepost, None for the main
    thread, whose stack pointer is NULL. *)
Record Thread := mkThread {
  th_stack : option Z;
  th_status : ThreadStatus;
  userRegisters : list Z;
  th_space : option AddrSpace;
  th_susp : suspension;
}.

Record Semaphore := mkSem { value : Z; queue : list Z }.

(** The control point of the running thread: its own code, the test of the loop
    of P, the test of the loop of Sleep, or inside Interrupt::Idle. *)
Inductive control :=
| Exec (l : L)
| PLoop (sem : Z) (oldLevel : IntStatus) (l : L)
| SleepLoop
| Idling.

Record Kernel := mkKernel {
  threads : gmap Z Thread;
  currentThread : Z;
  ctl : control;
  readyList : list Z;
  threadToBeDestroyed : option Z;
  semaphores : gmap Z Semaphore;
  k_machine : Machine;
  intLevel : IntStatus;
  k_inHandler : bool;
}.

Definition set_threads (k : Kernel) (t : gmap Z Thread) : Kernel :=
  mkKernel t (currentThread k) (ctl k) (readyList k) (threadToBeDestroyed k) (semaphores k) (k_machine k) (intLevel k) (k_inHandler k).
Definition set_current (k : Kernel) (t : Z) : Kernel :=
  mkKernel (threads k) t (ctl k) (readyList k) (threadToBeDestroyed k) (semaphores k) (k_machine k) (intLevel k) (k_inHandler k).
Definition set_ctl (k : Kernel) (c : control) : Kernel :=
  mkKernel (threads k) (currentThread k) c (readyList k) (threadToBeDestroyed k) (semaphores k) (k_machine k) (intLevel k) (k_inHandler k).
Definition set_ready (k : Kernel) (r : list Z) : Kernel :=
  mkKernel (threads k) (currentThread k) (ctl k) r (threadToBeDestroyed k) (semaphores k) (k_machine k) (intLevel k) (k_inHandler k).
Definition set_tbd (k : Kernel) (d : option Z) : Kernel :=
  mkKernel (threads k) (currentThread k) (ctl k) (readyList k) d (semaphores k) (k_machine k) (intLevel k) (k_inHandler k).
Definition set_sems (k : Kernel) (s : gmap Z Semaphore) : Kernel :=
  mkKernel (threads k) (currentThread k) (ctl k) (readyList k) (threadToBeDestroyed k) s (k_machine k) (intLevel k) (k_inHandler k).
Definition set_kmachine (k : Kernel) (m : Machine) : Kernel :=
  mkKernel (threads k) (currentThread k) (ctl k) (readyList k) (threadToBeDestroyed k) (semaphores k) m (intLevel k) (k_inHandler k).
Definition set_level (k : Kernel) (v : IntStatus) : Kernel :=
  mkKernel (threads k) (currentThread k) (ctl k) (readyList k) (threadToBeDestroyed k) (semaphores k) (k_machine k) v (k_inHandler k).
Definition set_inHandler (k : Kernel) (h : bool) : Kernel :=
  mkKernel (threads k) (currentThread k) (ctl k) (readyList k) (threadToBeDestroyed k) (semaphores k) (k_machine k) (intLevel k) h.

Definition setStatus (t : Thread) (st : ThreadStatus) : Thread :=
  mkThread (th_stack t) st (userRegisters t) (th_space t) (th_susp t).
Definition set_userRegisters (t : Thread) (r : list Z) : Thread :=
  mkThread (th_stack t) (th_status t) r (th_space t) (th_susp t).
Definition set_susp (t : Thread) (s : suspension) : Thread :=
  mkThread (th_stack t) (th_status t) (userRegisters t) (th_space t) s.

Definition set_space (t : Thread) (a : option AddrSpace) : Thread :=
  mkThread (th_stack t) (th_status t) (userRegisters t) a (th_susp t).
Definition set_stack (t : Thread) (w : option Z) : Thread :=
  mkThread w (th_status t) (userRegisters t) (th_space t) (th_susp t).

(** *ptr for a Thread pointer: a deleted thread is not there. *)
Definition thread_at (k : Kernel) (t : Z) : outcome Thread :=
  match threads k !! t with Some th => Ok th | None => Undef end.

Definition sem_at (k : Kernel) (s : Z) : outcome Semaphore :=
  match semaphores k !! s with Some x => Ok x | None => Undef end.

Definition update (k : Kernel) (t : Z) (th : Thread) : Kernel :=
  set_threads k (<[t := th]> (threads k)).

(** Interrupt::SetLevel as the thread package uses it; what fires when the level
    goes back to IntOn is a step of its own ([irq]). *)
Definition kSetLevel (k : Kernel) (now : IntStatus) : outcome (IntStatus * Kernel) :=
  _ ← ASSERT (bool_decide (now = IntOff) || negb (k_inHandler k));
  Ok (intLevel k, set_level k now).

(** ** threads/thread.cc *)

(** Thread::Thread; [garbage] is what the register array holds. *)
Definition Thread_new (garbage : list Z) (func : L) : Thread :=
  mkThread None JUST_CREATED garbage None (AtThreadRoot func).

(** StackAllocate: the fencepost, and a frame that starts at ThreadRoot. *)
Definition StackAllocate (t : Thread) (func : L) : Thread :=
  mkThread (Some STACK_FENCEPOST) (th_status t) (userRegisters t) (th_space t) (AtThreadRoot func).

Definition CheckOverflow (t : Thread) : outcome unit :=
  match th_stack t with
  | None => Ok tt
  | Some w => ASSERT (w =? STACK_FENCEPOST)
  end.

Definition SaveUserState (m : Machine) (t : Thread) : outcome Thread :=
  regs ← foldM (λ regs i, v ← ReadRegister m i; Ok (regs ++ [v])) [] (seqZ 0 NumTotalRegs);
  Ok (set_userRegisters t regs).

Definition RestoreUserState (t : Thread) (m : Machine) : outcome Machine :=
  foldM (λ m i, v ← aget (userRegisters t) i; WriteRegister m i v) m (seqZ 0 NumTotalRegs).

(** Thread::~Thread *)
Definition Thread_delete (k : Kernel) (t : Z) : outcome Kernel :=
  th ← thread_at k t;
  k ← match th_space th with
      | Some a => m ← AddrSpace_delete a (k_machine k); Ok (set_kmachine k m)
      | None => Ok k
      end;
  _ ← ASSERT (negb (t =? currentThread k));
  Ok (set_threads k (delete t (threads k))).

(** ** threads/scheduler.cc *)

Definition ReadyToRun (k : Kernel) (t : Z) : outcome Kernel :=
  th ← thread_at k t;
  Ok (set_ready (update k t (setStatus th READY)) (readyList k ++ [t])).

Definition FindNextToRun (k : Kernel) : option Z * Kernel :=
  match readyList k with
  | [] => (None, k)
  | t :: r => (Some t, set_ready k r)
  end.

(** Run after SWITCH returned, in the context of the thread switched to. *)
Definition Run_tail (k : Kernel) : outcome Kernel :=
  k ← match threadToBeDestroyed k with
      | Some t => k ← Thread_delete k t; Ok (set_tbd k None)
      | None => Ok k
      end;
  th ← thread_at k (currentThread k);
  match th_space th with
  | Some a =>
      m ← RestoreUserState th (k_machine k);
      Ok (set_kmachine k (RestoreState a m))
  | None => Ok k
  end.

(** SWITCH: the next thread goes on where it was suspended.  A new thread
    starts in ThreadRoot, which enables interrupts and calls the function, and not
    in the rest of Run; Yield restores its level; P is still in Sleep. *)
Definition SWITCH (k : Kernel) (next : Z) : outcome Kernel :=
  th ← thread_at k next;
  match th_susp th with
  | AtThreadRoot func => '(_, k) ← kSetLevel k IntOn; Ok (set_ctl k (Exec func))
  | InP s old l => k ← Run_tail k; Ok (set_ctl k (PLoop s old l))
  | InYield old l => k ← Run_tail k; '(_, k) ← kSetLevel k old; Ok (set_ctl k (Exec l))
  | InFinish => Undef
  end.

Definition Run (k : Kernel) (nextThread : Z) : outcome Kernel :=
  let old := currentThread k in
  th ← thread_at k old;
  th ← match th_space th with
       | Some a => SaveUserState (k_machine k) th
       | None => Ok th
       end;
  let k := update k old th in
  _ ← CheckOverflow th;
  let k := set_current k nextThread in
  next ← thread_at k nextThread;
  let k := update k nextThread (setStatus next RUNNING) in
  SWITCH k nextThread.

(** Thread::Sleep up to its loop; [where_] is the caller Run will return to. *)
Definition Sleep (k : Kernel) (this : Z) (where_ : suspension) : outcome Kernel :=
  _ ← ASSERT (this =? currentThread k);
  _ ← ASSERT (bool_decide (intLevel k = IntOff));
  th ← thread_at k this;
  Ok (set_ctl (update k this (set_susp (setStatus th BLOCKED) where_)) SleepLoop).

(** The loop of Sleep: with an empty ready list, Idle is called. *)
Definition Sleep_loop (k : Kernel) : outcome Kernel :=
  match FindNextToRun k with
  | (None, k) => Ok (set_ctl k Idling)
  | (Some next, k) => Run k next
  end.

Definition Finish (k : Kernel) (this : Z) : outcome Kernel :=
  '(_, k) ← kSetLevel k IntOff;
  _ ← ASSERT (this =? currentThread k);
  Sleep (set_tbd k (Some (currentThread k))) this InFinish.

Definition Yield (k : Kernel) (this : Z) (l : L) : outcome Kernel :=
  '(oldLevel, k) ← kSetLevel k IntOff;
  _ ← ASSERT (this =? currentThread k);
  match FindNextToRun k with
  | (None, k) => '(_, k) ← kSetLevel k oldLevel; Ok (set_ctl k (Exec l))
  | (Some next, k) =>
      th ← thread_at k this;
      let k := update k this (set_susp th (InYield oldLevel l)) in
      k ← ReadyToRun k this;
      Run k next
  end.

(** new Thread, t->Fork(func, arg) *)
Definition Fork (k : Kernel) (func : L) (garbage : list Z) : outcome Kernel :=
  let t := fresh (dom (threads k)) in
  let th := Thread_new garbage func in
  let k := update k t (StackAllocate th func) in
  '(oldLevel, k) ← kSetLevel k IntOff;
  k ← ReadyToRun k t;
  '(_, k) ← kSetLevel k oldLevel;
  Ok k.

(** ** userprog/pcb.cc: the start of a forked process *)

(** StartProcess_2, where the constructor of the address space allocated
    [table]. *)
Definition start_space (k : Kernel) (table : list TranslationEntry) : outcome Kernel :=
  let m := k_machine k in
  let p := fresh (dom (ptables m)) in
  let space := mkSpace p (Z.of_nat (length table)) in
  let m := set_ptables m (<[p := table]> (ptables m)) in
  th ← thread_at k (currentThread k);
  let k := update k (currentThread k) (set_space th (Some space)) in
  m ← InitRegisters space m;
  Ok (set_kmachine k (RestoreState space m)).

(** User instructions: the register of a delayed load is named by five bits. *)
Definition user_regs (f : Z → list Z → Z) (regs : list Z) : list Z :=
  <[Z.to_nat LoadReg := f LoadReg regs `mod` NumGPRegs]> (map (λ i, f i regs) (seqZ 0 NumTotalRegs)).

(** ** threads/synch.cc *)

Definition Semaphore_new (initialValue : Z) : Semaphore := mkSem initialValue [].

(** P up to its loop. *)
Definition P (k : Kernel) (s : Z) (l : L) : outcome Kernel :=
  _ ← sem_at k s;
  '(oldLevel, k) ← kSetLevel k IntOff;
  Ok (set_ctl k (PLoop s oldLevel l)).

(** One evaluation of the while loop of P, and what follows when it exits. *)
Definition P_loop (k : Kernel) (s : Z) (oldLevel : IntStatus) (l : L) : outcome Kernel :=
  x ← sem_at k s;
  if value x =? 0 then
    let k := set_sems k (<[s := mkSem (value x) (queue x ++ [currentThread k])]> (semaphores k)) in
    Sleep k (currentThread k) (InP s oldLevel l)
  else
    let k := set_sems k (<[s := mkSem (value x - 1) (queue x)]> (semaphores k)) in
    '(_, k) ← kSetLevel k oldLevel;
    Ok (set_ctl k (Exec l)).

(** V; incrementing the largest int is undefined. *)
Definition V (k : Kernel) (s : Z) : outcome Kernel :=
  '(oldLevel, k) ← kSetLevel k IntOff;
  x ← sem_at k s;
  k ← match queue x with
      | [] => Ok k
      | t :: q => ReadyToRun (set_sems k (<[s := mkSem (value x) q]> (semaphores k))) t
      end;
  x ← sem_at k s;
  if value x =? 2 ^ 31 - 1 then Undef
  else
    let k := set_sems k (<[s := mkSem (value x + 1) (queue x)]> (semaphores k)) in
    '(_, k) ← kSetLevel k oldLevel;
    Ok k.

(** Lock and Condition are placeholders in this kernel. *)
Definition Lock_Acquire (k : Kernel) : outcome Kernel := Ok k.
Definition Lock_Release (k : Kernel) : outcome Kernel := Ok k.
Definition Condition_Wait (k : Kernel) : outcome Kernel := Aborted.
Definition Condition_Signal (k : Kernel) : outcome Kernel := Ok k.
Definition Condition_Broadcast (k : Kernel) : outcome Kernel := Ok k.

(** ** Steps of the kernel *)

Context (code : L → kop).

(** The next step of the running thread; Idle may return at any time. *)
Definition step (k : Kernel) : outcome Kernel :=
  match ctl k with
  | Exec l =>
      match code l with
      | OpStep l' => Ok (set_ctl k (Exec l'))
      | OpP s l' => P k s l'
      | OpV s l' => k ← V k s; Ok (set_ctl k (Exec l'))
      | OpYield l' => Yield k (currentThread k) l'
      | OpFork func l' =>
          k ← Fork k func (replicate (Z.to_nat NumTotalRegs) 0);
          Ok (set_ctl k (Exec l'))
      | OpSpace table l' => k ← start_space k table; Ok (set_ctl k (Exec l'))
      | OpUser f l' =>
          let m := k_machine k in
          Ok (set_ctl (set_kmachine k (set_registers m (user_regs f (registers m)))) (Exec l'))
      | OpStack w l' =>
          th ← thread_at k (currentThread k);
          Ok (set_ctl (update k (currentThread k) (set_stack th ((λ _, w) <$> th_stack th))) (Exec l'))
      | OpSetLevel now l' => '(_, k) ← kSetLevel k now; Ok (set_ctl k (Exec l'))
      | OpFinish => Finish k (currentThread k)
      end
  | PLoop s old l => P_loop k s old l
  | SleepLoop => Sleep_loop k
  | Idling => Ok (set_ctl k SleepLoop)
  end.

(** The completed semaphore operation of a step of the running thread. *)
Definition label (k : Kernel) : event :=
  match ctl k with
  | Exec l => match code l with OpV s _ => EvV s | _ => Tau end
  | PLoop s _ _ =>
      match semaphores k !! s with
      | Some x => if value x =? 0 then Tau else EvP s
      | None => Tau
      end
  | SleepLoop | Idling => Tau
  end.

(** Interrupt::CheckIfDue fires a handler, which calls V on a semaphore or does
    nothing to the threads; a delayed load of the user program is completed
    first.  Interrupts are off. *)
Definition run_handler (k : Kernel) (v : option Z) : outcome Kernel :=
  m ← DelayedLoad (k_machine k) 0 0;
  let k := set_inHandler (set_kmachine k m) true in
  k ← match v with Some s => V k s | None => Ok k end;
  Ok (set_inHandler k false).

Definition handler_event (v : option Z) : event :=
  match v with Some s => EvV s | None => Tau end.

(** Interrupt::OneTick turns interrupts off around the handlers. *)
Definition tick_handler (k : Kernel) (v : option Z) : outcome Kernel :=
  k ← run_handler (set_level k IntOff) v;
  Ok (set_level k IntOn).

(** OneTick after the handler of the timer asked for a yield. *)
Definition time_slice (k : Kernel) (l : L) : outcome Kernel :=
  k ← tick_handler k None;
  Yield k (currentThread k) l.

(** What the hardware does: an interrupt while a thread runs with interrupts on,
    a time slice, and an interrupt during Idle.  In Idle and in OneTick several
    handlers may run one after the other. *)
Inductive irq (k : Kernel) : event → Kernel → Prop :=
| irq_handler v l k' : ctl k = Exec l → intLevel k = IntOn → tick_handler k v = Ok k' →
    irq k (handler_event v) k'
| irq_slice l k' : ctl k = Exec l → intLevel k = IntOn → time_slice k l = Ok k' → irq k Tau k'
| irq_idle v k' : ctl k = Idling → run_handler k v = Ok k' → irq k (handler_event v) k'.

(** All steps. *)
Inductive kstep (k : Kernel) : event → Kernel → Prop :=
| ks_step k' : step k = Ok k' → kstep k (label k) k'
| ks_irq e k' : irq k e k' → kstep k e k'.

(** Runs, with the events in order. *)
Inductive ksteps (k : Kernel) : list event → Kernel → Prop :=
| kss_refl : ksteps k [] k
| kss_step es e k' k'' : ksteps k es k' → kstep k' e k'' → ksteps k (es ++ [e]) k''.

End Kernel.

Arguments kop : clear implicits.
Arguments suspension : clear implicits.
Arguments Thread : clear implicits.
Arguments control : clear implicits.
Arguments Kernel : clear implicits.
