(* ===== verification/SchedProofs.v ===== *)
(** * Theorems on kernel threads and semaphores

    The invariant of the kernel: every thread is in exactly one place (running,
    ready, in the queue of the semaphore it waits for, or finished), pointers on
    the lists are never dangling, semaphores neither go negative nor lose
    wakeups, and the user state of every program is on the machine or saved.  It
    is kept by every step, by time slices and by interrupts. *)

From Stdlib Require Import ZArith Lia Bool.
From S2P Require Import Prelude Bytes Machine Interrupt InterruptProofs AddrSpace Sched.

Local Open Scope Z_scope.

(** ** Registers *)

(** What an interrupt does to the registers: DelayedLoad(0, 0). *)
Definition load_completed (r : list Z) : list Z :=
  <[0%nat := 0]> (<[Z.to_nat LoadValueReg := 0]> (<[Z.to_nat LoadReg := 0]>
    (<[Z.to_nat (default 0 (r !! Z.to_nat LoadReg)) := default 0 (r !! Z.to_nat LoadValueReg)]> r))).

(** Forty registers, and the load registers name one of them. *)
Definition regs_ok (r : list Z) : Prop :=
  length r = Z.to_nat NumTotalRegs ∧ 0 <= default 0 (r !! Z.to_nat LoadReg) < NumTotalRegs.

Lemma DelayedLoad_completes m :
  regs_ok (registers m) → DelayedLoad m 0 0 = Ok (set_registers m (load_completed (registers m))).
Proof.
  intros [Hl Hr]. unfold DelayedLoad. rewrite aset_in_range; [done|]. rewrite Hl. exact Hr.
Qed.

Lemma load_completed_lookup r (i : nat) :
  length r = Z.to_nat NumTotalRegs →
  (i = 0 ∨ i = Z.to_nat LoadReg ∨ i = Z.to_nat LoadValueReg)%nat → load_completed r !! i = Some 0.
Proof.
  intros Hl Hi. unfold load_completed, LoadReg, LoadValueReg, NumTotalRegs in *.
  destruct Hi as [->|[->| ->]].
  - rewrite list_lookup_insert_eq; [done|]. rewrite !length_insert, Hl. lia.
  - do 2 rewrite list_lookup_insert_ne by lia.
    rewrite list_lookup_insert_eq; [done|]. rewrite !length_insert, Hl. lia.
  - rewrite list_lookup_insert_ne by lia.
    rewrite list_lookup_insert_eq; [done|]. rewrite !length_insert, Hl. lia.
Qed.

Lemma load_completed_ok r : regs_ok r → regs_ok (load_completed r).
Proof.
  intros [Hl Hr]. split; [unfold load_completed; by rewrite !length_insert|].
  rewrite load_completed_lookup by auto. done.
Qed.

(** Once no load is pending, interrupts do not change the registers. *)
Lemma load_completed_idem r : regs_ok r → load_completed (load_completed r) = load_completed r.
Proof.
  intros [Hl Hr]. unfold load_completed at 1.
  rewrite !(load_completed_lookup r) by auto. cbn [default].
  rewrite !(list_insert_id (load_completed r)); [done|..]; apply load_completed_lookup; auto.
Qed.

Lemma user_regs_ok f r : regs_ok (user_regs f r).
Proof.
  unfold user_regs. split; [by rewrite length_insert, length_map|].
  rewrite list_lookup_insert_eq by (rewrite length_map; apply (bool_decide_unpack _); vm_compute; done). cbn [default].
  pose proof (Z.mod_pos_bound (f LoadReg r) NumGPRegs eq_refl) as Hm. simpl.
  unfold NumGPRegs, NumTotalRegs in *. lia.
Qed.

Lemma WriteRegister_ok m i v :
  length (registers m) = Z.to_nat NumTotalRegs → 0 <= i < NumTotalRegs →
  WriteRegister m i v = Ok (set_registers m (<[Z.to_nat i := v]> (registers m))).
Proof.
  intros Hl Hi. unfold WriteRegister.
  destruct (Z.geb_spec i 0), (Z.ltb_spec i NumTotalRegs); try lia. cbn [andb ASSERT mbind outcome_bind].
  rewrite aset_in_range by (rewrite Hl; unfold NumTotalRegs in *; lia). done.
Qed.

Lemma ReadRegister_ok m i :
  length (registers m) = Z.to_nat NumTotalRegs → 0 <= i < NumTotalRegs →
  ∃ v, ReadRegister m i = Ok v ∧ registers m !! Z.to_nat i = Some v.
Proof.
  intros Hl Hi. unfold ReadRegister.
  destruct (Z.geb_spec i 0), (Z.ltb_spec i NumTotalRegs); try lia. cbn [andb ASSERT mbind outcome_bind].
  destruct (aget_in_range (registers m) i) as (v & -> & Hv); [rewrite Hl; unfold NumTotalRegs in *; lia|].
  eauto.
Qed.

(** InitRegisters zeroes the registers and sets the program counters and the
    stack pointer. *)
Lemma InitRegisters_regs a m :
  length (registers m) = Z.to_nat NumTotalRegs →
  ∃ r, InitRegisters a m = Ok (set_registers m r) ∧ regs_ok r.
Proof.
  intros Hl. unfold InitRegisters.
  destruct (foldM_seqZ (λ i m', ∃ regs, m' = set_registers m regs ∧
      length regs = Z.to_nat NumTotalRegs ∧ ∀ j, (j < Z.to_nat i)%nat → regs !! j = Some 0)
    (λ m i, WriteRegister m i 0) NumTotalRegs m) as (m' & -> & regs & -> & Hlr & Hz).
  - done.
  - exists (registers m). split; [by destruct m|]. split; [done|]. intros j Hj. change (Z.to_nat 0) with 0%nat in Hj. lia.
  - intros i m' Hi (regs & -> & Hlr & Hz). rewrite WriteRegister_ok by done. eexists. split; [done|].
    eexists. split; [done|]. split; [by rewrite length_insert|]. intros j Hj.
    destruct (decide (j = Z.to_nat i)) as [->|Hne].
    + apply list_lookup_insert_eq. change (registers (set_registers m regs)) with regs. rewrite Hlr.
      unfold NumTotalRegs in *. lia.
    + rewrite list_lookup_insert_ne by done. apply Hz. lia.
  - cbn [mbind outcome_bind]. do 2 (rewrite WriteRegister_ok by (cbn [registers set_registers]; rewrite ?length_insert; done); cbn [mbind outcome_bind]).
    rewrite WriteRegister_ok by (cbn [registers set_registers]; rewrite ?length_insert; done). eexists. split; [done|]. cbn [registers set_registers].
    split; [by rewrite !length_insert|]. do 3 rewrite list_lookup_insert_ne by done.
    rewrite Hz by (apply (bool_decide_unpack _); vm_compute; done). done.
Qed.

Section Inv.
Context {L : Type}.
Implicit Types (k : Kernel L) (th : Thread L) (t n s c : Z) (r : option Z) (ts : gmap Z (Thread L)).

(** Saving copies the 40 registers; restoring copies them back. *)
Lemma SaveUserState_ok m th :
  length (registers m) = Z.to_nat NumTotalRegs →
  SaveUserState m th = Ok (set_userRegisters th (registers m)).
Proof.
  intros Hl. unfold SaveUserState.
  destruct (foldM_seqZ (λ i regs, regs = take (Z.to_nat i) (registers m))
    (λ regs i, v ← ReadRegister m i; Ok (regs ++ [v])) NumTotalRegs []) as (regs & -> & ->).
  - done.
  - done.
  - intros i regs Hi ->. destruct (ReadRegister_ok m i Hl Hi) as (v & -> & Hv). simpl.
    eexists. split; [done|]. replace (Z.to_nat (i + 1)) with (S (Z.to_nat i)) by lia.
    symmetry. by apply take_S_r.
  - simpl. by rewrite take_ge by lia.
Qed.

Lemma RestoreUserState_ok m th :
  length (registers m) = Z.to_nat NumTotalRegs → length (userRegisters th) = Z.to_nat NumTotalRegs →
  RestoreUserState th m = Ok (set_registers m (userRegisters th)).
Proof.
  intros Hl Hu. unfold RestoreUserState.
  destruct (foldM_seqZ (λ i m', ∃ regs, m' = set_registers m regs ∧
      length regs = Z.to_nat NumTotalRegs ∧ take (Z.to_nat i) regs = take (Z.to_nat i) (userRegisters th))
    (λ m i, v ← aget (userRegisters th) i; WriteRegister m i v) NumTotalRegs m)
    as (m' & -> & regs & -> & Hlr & Ht).
  - done.
  - exists (registers m). by destruct m.
  - intros i m' Hi (regs & -> & Hlr & Ht).
    destruct (aget_in_range (userRegisters th) i) as (v & -> & Hv); [rewrite Hu; unfold NumTotalRegs in *; lia|].
    cbn [mbind outcome_bind]. rewrite WriteRegister_ok by done. eexists. split; [done|].
    exists (<[Z.to_nat i := v]> regs). split; [done|]. split; [by rewrite length_insert|].
    replace (Z.to_nat (i + 1)) with (S (Z.to_nat i)) by lia.
    rewrite (take_S_r _ _ v), (take_S_r (userRegisters th) _ v); [|done|].
    + f_equal. rewrite take_insert_ge by lia. done.
    + apply list_lookup_insert_eq. rewrite Hlr. unfold NumTotalRegs in *. lia.
  - f_equal. f_equal. rewrite !take_ge in Ht by lia. done.
Qed.

(** ** The invariant *)

Definition waits_for th s : Prop := ∃ old l, th_susp th = InP s old l.

(** Called Finish. *)
Definition finished th : Prop := th_status th = BLOCKED ∧ th_susp th = InFinish.

(** Where a thread that is not in hand is. *)
Definition placed (ready : list Z) (sems : gmap Z Semaphore) t th : Prop :=
  (th_status th = READY ∧ t ∈ ready ∧ th_susp th ≠ InFinish) ∨
  (th_status th = BLOCKED ∧ ∃ s x, waits_for th s ∧ sems !! s = Some x ∧ t ∈ queue x) ∨
  finished th.

(** [r] is the thread in hand: the running one, or the one being switched to. *)
Record places ts (ready : list Z) (sems : gmap Z Semaphore) (tbd : option Z) r : Prop := {
  pi_hand : ∀ t, r = Some t → is_Some (ts !! t);
  pi_place : ∀ t th, ts !! t = Some th → Some t ≠ r → placed ready sems t th;
  pi_ready : ∀ t, t ∈ ready → ∃ th, ts !! t = Some th ∧ th_status th = READY ∧ Some t ≠ r;
  pi_ready_nodup : NoDup ready;
  pi_queue : ∀ s x t, sems !! s = Some x → t ∈ queue x →
    ∃ th, ts !! t = Some th ∧ th_status th = BLOCKED ∧ waits_for th s ∧ Some t ≠ r;
  pi_queue_nodup : ∀ s x, sems !! s = Some x → NoDup (queue x);
  pi_value : ∀ s x, sems !! s = Some x → 0 <= value x < 2 ^ 31;
  pi_tbd : ∀ t, tbd = Some t → Some t ≠ r ∧ ∃ th, ts !! t = Some th ∧ finished th;
  pi_sem : ∀ t th s, ts !! t = Some th → waits_for th s → is_Some (sems !! s);
  pi_root : ∀ t th l, ts !! t = Some th → Some t ≠ r → th_susp th = AtThreadRoot l → th_space th = None;
}.

Definition pinv k r : Prop :=
  places (threads k) (readyList k) (semaphores k) (threadToBeDestroyed k) r.

(** User state: the current thread's registers are on the machine, those of the
    other programs are saved; every address space has its own page table. *)
Record uinv ts c (m : Machine) : Prop := {
  ui_regs : regs_ok (registers m);
  ui_length : ∀ t th, ts !! t = Some th → length (userRegisters th) = Z.to_nat NumTotalRegs;
  ui_saved : ∀ t th a, ts !! t = Some th → th_space th = Some a → t ≠ c → regs_ok (userRegisters th);
  ui_table : ∀ t th a, ts !! t = Some th → th_space th = Some a → is_Some (ptables m !! as_pageTable a);
  ui_own : ∀ t th a t' th' a', ts !! t = Some th → th_space th = Some a →
    ts !! t' = Some th' → th_space th' = Some a' → as_pageTable a = as_pageTable a' → t = t';
}.

Definition user_inv k : Prop := uinv (threads k) (currentThread k) (k_machine k).

(** The machine translates with the thread's page table. *)
Definition on_machine th (m : Machine) : Prop :=
  ∀ a, th_space th = Some a → pageTable m = Some (as_pageTable a) ∧ pageTableSize m = numPages a.

(** The current thread is in the loop of Sleep. *)
Definition asleep (c : control L) : bool :=
  match c with SleepLoop | Idling => true | _ => false end.

(** The invariant of the kernel. *)
Record kinv k : Prop := {
  ki_handler : k_inHandler k = false;
  ki_user : user_inv k;
  ki_asleep : asleep (ctl k) = true →
    intLevel k = IntOff ∧ pinv k None ∧ is_Some (threads k !! currentThread k);
  ki_awake : asleep (ctl k) = false → pinv k (Some (currentThread k)) ∧
    ∃ th, threads k !! currentThread k = Some th ∧ th_status th = RUNNING ∧ on_machine th (k_machine k);
  ki_test : ∀ s old l, ctl k = PLoop s old l → intLevel k = IntOff ∧ is_Some (semaphores k !! s);
}.

Lemma thread_at_Some k t th : threads k !! t = Some th → thread_at k t = Ok th.
Proof. unfold thread_at. by intros ->. Qed.

Lemma kSetLevel_ok k v : k_inHandler k = false → kSetLevel k v = Ok (intLevel k, set_level k v).
Proof. unfold kSetLevel. intros ->. by rewrite orb_true_r. Qed.

Lemma kSetLevel_off k : kSetLevel k IntOff = Ok (intLevel k, set_level k IntOff).
Proof. done. Qed.

Lemma assert_this c : ASSERT (c =? c) = Ok tt.
Proof. by rewrite Z.eqb_refl. Qed.

(** ** What a step leaves to the threads *)

(** The registers a thread's user program sees: those of the machine while it is
    the current thread, otherwise the saved ones. *)
Definition view k t th : list Z :=
  if bool_decide (currentThread k = t) then registers (k_machine k) else userRegisters th.

(** Unchanged, up to the completion of a delayed load by an interrupt. *)
Definition same_view (v v' : list Z) : Prop := v' = v ∨ v' = load_completed v.

(** Threads other than those of [stk] keep the word at the end of their stack, and
    new threads have the fencepost there; threads other than those of [usr] stay
    alive unless they have finished, and user programs keep their address space,
    its page table and their registers. *)
Definition tframe (stk usr : Z → Prop) k k' : Prop :=
  (∀ t th', threads k' !! t = Some th' → ¬ stk t →
     th_stack th' = Some STACK_FENCEPOST ∨
     ∃ th, threads k !! t = Some th ∧ th_stack th' = th_stack th) ∧
  (∀ t th, threads k !! t = Some th → ¬ finished th → ¬ usr t →
     ∃ th', threads k' !! t = Some th' ∧ ¬ finished th' ∧ th_space th' = th_space th ∧
       ∀ a, th_space th = Some a → same_view (view k t th) (view k' t th') ∧
         ptables (k_machine k') !! as_pageTable a = ptables (k_machine k) !! as_pageTable a).

Definition nobody : Z → Prop := λ _, False.

Lemma view_ok k t th a :
  user_inv k → threads k !! t = Some th → th_space th = Some a → regs_ok (view k t th).
Proof.
  intros [Hr _ Hs _ _] Ht Ha. unfold view. case_bool_decide as Hc; [done|].
  by apply (Hs t th a).
Qed.

Lemma tframe_refl stk usr k : tframe stk usr k k.
Proof. split; [eauto|]. intros t th Ht Hf _. exists th. split_and!; try done. intros a _. split; [by left|done]. Qed.

Lemma tframe_trans stk usr k1 k2 k3 :
  user_inv k1 → tframe stk usr k1 k2 → tframe stk usr k2 k3 → tframe stk usr k1 k3.
Proof.
  intros Hu [A1 A2] [B1 B2]. split.
  - intros t th3 H3 Hn. destruct (B1 t th3 H3 Hn) as [Hw|(th2 & H2 & Hw)]; [by left|].
    destruct (A1 t th2 H2 Hn) as [Hw'|(th1 & H1 & Hw')]; [left; congruence|].
    right. exists th1. split; [done|congruence].
  - intros t th1 H1 Hf Hn. destruct (A2 t th1 H1 Hf Hn) as (th2 & H2 & Hf2 & Hs2 & Hv2).
    destruct (B2 t th2 H2 Hf2 Hn) as (th3 & H3 & Hf3 & Hs3 & Hv3). exists th3.
    split_and!; try done; [congruence|]. intros a Ha.
    destruct (Hv2 a Ha) as [V2 T2]. destruct (Hv3 a ltac:(congruence)) as [V3 T3].
    split; [|congruence]. pose proof (view_ok k1 t th1 a Hu H1 Ha) as Hok. unfold same_view in *.
    destruct V2 as [V2|V2], V3 as [V3|V3]; rewrite V2 in V3; rewrite V3; auto.
    right. by apply load_completed_idem.
Qed.

Lemma tframe_weaken (stk stk' usr usr' : Z → Prop) k k' :
  (∀ t, stk t → stk' t) → (∀ t, usr t → usr' t) → tframe stk usr k k' → tframe stk' usr' k k'.
Proof. intros H1 H2 [A B]. split; eauto. Qed.

(** What a thread keeps when its status or the point where it is suspended
    change. *)
Definition same_user th th' : Prop :=
  th_stack th' = th_stack th ∧ th_space th' = th_space th ∧ userRegisters th' = userRegisters th.

Lemma tframe_update (usr : Z → Prop) k t th th' :
  threads k !! t = Some th → same_user th th' → (¬ finished th → finished th' → usr t) →
  tframe nobody usr k (update k t th').
Proof.
  intros Ht (E1 & E2 & E3) Hf. split.
  - intros t' th2 H2 _. right. simpl in H2. destruct (decide (t = t')) as [<-|Hne].
    + rewrite lookup_insert_eq in H2. injection H2 as <-. by exists th.
    + rewrite lookup_insert_ne in H2 by done. by exists th2.
  - intros t' th1 H1 Hf1 Hu. simpl. destruct (decide (t = t')) as [<-|Hne].
    + rewrite lookup_insert_eq. simplify_eq. exists th'. split_and!; try done; [by eauto|].
      intros a Ha. split; [|done]. left. unfold view. simpl. by rewrite E3.
    + rewrite lookup_insert_ne by done. exists th1. split_and!; try done. intros a Ha. split; [by left|done].
Qed.

Lemma uinv_update k t th th' :
  user_inv k → threads k !! t = Some th → same_user th th' → user_inv (update k t th').
Proof.
  intros [H1 H2 H3 H4 H5] Ht (E1 & E2 & E3).
  assert (Hb : ∀ t' th2, <[t := th']> (threads k) !! t' = Some th2 →
    ∃ th1, threads k !! t' = Some th1 ∧ th_space th2 = th_space th1 ∧ userRegisters th2 = userRegisters th1).
  { intros t' th2. destruct (decide (t = t')) as [<-|Hne].
    - rewrite lookup_insert_eq. intros [= <-]. by exists th.
    - rewrite lookup_insert_ne by done. eauto. }
  split; simpl; [done|..].
  - intros t' th2 (th1 & Hl & _ & ->)%Hb. eauto.
  - intros t' th2 a (th1 & Hl & Hs & ->)%Hb Ha. rewrite Hs in Ha. eauto.
  - intros t' th2 a (th1 & Hl & Hs & _)%Hb Ha. rewrite Hs in Ha. eauto.
  - intros t1 th1 a1 t2 th2 a2 (u1 & Hl1 & Hs1 & _)%Hb Ha1 (u2 & Hl2 & Hs2 & _)%Hb Ha2.
    rewrite Hs1 in Ha1. rewrite Hs2 in Ha2. eauto.
Qed.

(** ** Operations on the lists *)

(** The thread in hand is put on the ready list. *)
Lemma ReadyToRun_pinv k t th :
  pinv k (Some t) → threads k !! t = Some th → th_susp th ≠ InFinish →
  (∀ l, th_susp th = AtThreadRoot l → th_space th = None) →
  ReadyToRun k t = Ok (set_ready (update k t (setStatus th READY)) (readyList k ++ [t])) ∧
  pinv (set_ready (update k t (setStatus th READY)) (readyList k ++ [t])) None.
Proof.
  intros [Hh Hp Hr Hrn Hq Hqn Hv Ht Hse Hro] Hlk Hs Hrt. unfold ReadyToRun.
  rewrite (thread_at_Some _ _ _ Hlk). split; [done|].
  assert (Hne : ∀ t', Some t' ≠ Some t → t ≠ t') by congruence.
  split; simpl; try done.
  - intros t' th'. destruct (decide (t = t')) as [Heq|Hn]; [subst t'|].
    + rewrite lookup_insert_eq. intros [= <-] _. left. simpl. split_and!; try done. set_solver.
    + rewrite lookup_insert_ne by done. intros Hl _.
      destruct (Hp t' th' Hl) as [(H1 & H2 & H3)|[H1|H1]]; [congruence|left|by right; left|by right; right].
      split_and!; try done. set_solver.
  - intros t' [Hin| ->%list_elem_of_singleton]%elem_of_app.
    + destruct (Hr t' Hin) as (th' & H1 & H2 & H3). exists th'.
      rewrite lookup_insert_ne by auto. done.
    + exists (setStatus th READY). by rewrite lookup_insert_eq.
  - apply NoDup_app. split; [done|]. split; [|apply NoDup_singleton].
    intros t' Hin ->%list_elem_of_singleton. by destruct (Hr t Hin) as (? & _ & _ & ?).
  - intros s x t' Hx Hin. destruct (Hq s x t' Hx Hin) as (th' & H1 & H2 & H3 & H4).
    exists th'. rewrite lookup_insert_ne by auto. done.
  - intros t' Htbd. destruct (Ht t' Htbd) as (H0 & th' & H1 & H2). split; [done|].
    exists th'. rewrite lookup_insert_ne by auto. done.
  - intros t' th' s. destruct (decide (t = t')) as [Heq|Hn]; [subst t'|].
    + rewrite lookup_insert_eq. intros [= <-]. by apply (Hse t th s).
    + rewrite lookup_insert_ne by done. apply Hse.
  - intros t' th' l. destruct (decide (t = t')) as [Heq|Hn]; [subst t'|].
    + rewrite lookup_insert_eq. intros [= <-] _. by apply Hrt.
    + rewrite lookup_insert_ne by done. intros H1 _. apply (Hro t' th' l); [done|congruence].
Qed.

(** The head of the ready list is taken in hand. *)
Lemma FindNextToRun_pinv k n rest :
  pinv k None → readyList k = n :: rest →
  pinv (set_ready k rest) (Some n) ∧
  ∃ th, threads k !! n = Some th ∧ th_status th = READY ∧ th_susp th ≠ InFinish ∧
    ∀ l, th_susp th = AtThreadRoot l → th_space th = None.
Proof.
  intros [Hh Hp Hr Hrn Hq Hqn Hv Ht Hse Hro] Hrd. unfold pinv. simpl. rewrite Hrd in *.
  apply NoDup_cons in Hrn as [Hnin Hrn].
  destruct (Hr n ltac:(set_solver)) as (th & Hn & Hst & _).
  assert (Hsusp : th_susp th ≠ InFinish).
  { destruct (Hp n th Hn) as [(_ & _ & ?)|[[? _]|[? _]]]; congruence. }
  split; [|exists th; split_and!; try done; intros l; by apply (Hro n th l)]. split; try done.
  - intros t [= <-]. by exists th.
  - intros t' th' Hl Hne. destruct (Hp t' th' Hl) as [(H1 & H2 & H3)|H1]; [done| |by right].
    left. split_and!; try done. apply elem_of_cons in H2 as [->|?]; [congruence|done].
  - intros t' Hin. destruct (Hr t') as (th' & H1 & H2 & _); [set_solver|]. exists th'. split_and!; try done.
    intros [= ->]. done.
  - intros s x t' Hx Hin. destruct (Hq s x t' Hx Hin) as (th' & H1 & H2 & H3 & _). exists th'.
    split_and!; try done. intros [= ->]. congruence.
  - intros t' Htbd. destruct (Ht t' Htbd) as (_ & th' & H1 & [H2 H3]). split; [|by exists th'].
    intros [= ->]. congruence.
  - intros t' th' l H1 _ H2. by apply (Hro t' th' l).
Qed.

(** What placement depends on. *)
Definition same_place th th' : Prop :=
  th_status th' = th_status th ∧ th_susp th' = th_susp th ∧ th_space th' = th_space th.

(** Changing a thread's registers changes nothing; the thread in hand may also
    change its status, its space and where it resumes. *)
Lemma pinv_update k r t th th' :
  pinv k r → threads k !! t = Some th →
  (same_place th th' ∨ (r = Some t ∧ ∀ s, waits_for th' s → is_Some (semaphores k !! s))) →
  pinv (update k t th') r.
Proof.
  intros [Hh Hp Hr Hrn Hq Hqn Hv Ht Hse Hro] Hlk Hs.
  assert (Hcase : ∀ t' th2, <[t := th']> (threads k) !! t' = Some th2 → Some t' ≠ r →
    ∃ th1, threads k !! t' = Some th1 ∧ same_place th1 th2).
  { intros t' th2. destruct (decide (t = t')) as [Heq|Hn]; [subst t'|].
    - rewrite lookup_insert_eq. intros [= <-] Hne. destruct Hs as [Hs|[Hs _]]; [by exists th|by subst].
    - rewrite lookup_insert_ne by done. intros. by exists th2. }
  assert (Hback : ∀ t' th1, threads k !! t' = Some th1 → Some t' ≠ r →
    ∃ th2, <[t := th']> (threads k) !! t' = Some th2 ∧ same_place th1 th2).
  { intros t' th1 H1 Hne. destruct (decide (t = t')) as [Heq|Hn]; [subst t'|].
    - rewrite lookup_insert_eq. destruct Hs as [Hs|[Hs _]]; [|by subst]. simplify_eq. by exists th'.
    - rewrite lookup_insert_ne by done. by exists th1. }
  split; simpl; try done.
  - intros t' ->. destruct (decide (t = t')) as [Heq|Hn]; [subst t'; by rewrite lookup_insert_eq|].
    rewrite lookup_insert_ne by done. by apply Hh.
  - intros t' th2 H2 Hne. destruct (Hcase t' th2 H2 Hne) as (th1 & H1 & Hst & Hsu & _).
    pose proof (Hp t' th1 H1 Hne) as Hpl. unfold placed, finished, waits_for in *. by rewrite Hst, Hsu.
  - intros t' Hin. destruct (Hr t' Hin) as (th1 & H1 & H2 & H3).
    destruct (Hback t' th1 H1 H3) as (th2 & H4 & Hst & _). exists th2. by rewrite Hst.
  - intros s x t' Hx Hin. destruct (Hq s x t' Hx Hin) as (th1 & H1 & H2 & H3 & H4).
    destruct (Hback t' th1 H1 H4) as (th2 & H5 & Hst & Hsu & _). exists th2.
    unfold waits_for in *. by rewrite Hst, Hsu.
  - intros t' Htbd. destruct (Ht t' Htbd) as (H0 & th1 & H1 & H2). split; [done|].
    destruct (Hback t' th1 H1 H0) as (th2 & H4 & Hst & Hsu & _). exists th2. unfold finished in *. by rewrite Hst, Hsu.
  - intros t' th2 s H2 Hw. destruct (decide (t = t')) as [Heq|Hn].
    + subst t'. rewrite lookup_insert_eq in H2. injection H2 as <-.
      destruct Hs as [(_ & Hsu & _)|[_ Hs]]; [|by apply Hs].
      apply (Hse t th s); [done|]. unfold waits_for in *. by rewrite <- Hsu.
    + rewrite lookup_insert_ne in H2 by done. by apply (Hse t' th2 s).
  - intros t' th2 l H2 Hne Hsu2. destruct (Hcase t' th2 H2 Hne) as (th1 & H1 & _ & Hsu & ->).
    apply (Hro t' th1 l); [done|done|congruence].
Qed.

(** The finished thread and its address space are deleted: nothing refers to
    them. *)
Lemma delete_tbd_ok k t n :
  pinv k (Some n) → user_inv k → currentThread k = n → threadToBeDestroyed k = Some t →
  ∃ m, Thread_delete k t = Ok (set_threads (set_kmachine k m) (delete t (threads k))) ∧ t ≠ n ∧
    let k' := set_tbd (set_threads (set_kmachine k m) (delete t (threads k))) None in
    pinv k' (Some n) ∧ user_inv k' ∧ tframe nobody nobody k k'.
Proof.
  intros [Hh Hp Hr Hrn Hq Hqn Hv Ht Hse Hro] [U1 U2 U3 U4 U5] Hcur Htbd.
  destruct (Ht t Htbd) as (Hne & th & Hlk & Hfin). assert (Htn : t ≠ n) by congruence.
  assert (Hm : ∃ m, match th_space th with
      | Some a => m ← AddrSpace_delete a (k_machine k); Ok (set_kmachine k m) | None => Ok k end
      = Ok (set_kmachine k m) ∧ registers m = registers (k_machine k) ∧
      ∀ t' th' a, threads k !! t' = Some th' → th_space th' = Some a → t ≠ t' →
        ptables m !! as_pageTable a = ptables (k_machine k) !! as_pageTable a).
  { destruct (th_space th) as [a|] eqn:Ha.
    - unfold AddrSpace_delete. destruct (U4 t th a Hlk Ha) as [tb ->]. eexists. split; [done|]. split; [done|].
      intros t' th' a' H' Ha' Hn. simpl. apply lookup_delete_ne. intros Heq.
      apply Hn. by apply (U5 t th a t' th' a').
    - exists (k_machine k). split; [by destruct k|done]. }
  destruct Hm as (m & Hm & Hreg & Htab). exists m. split; [|split; [done|]].
  { unfold Thread_delete. rewrite (thread_at_Some _ _ _ Hlk). cbn [mbind outcome_bind]. rewrite Hm.
    cbn [mbind outcome_bind currentThread set_kmachine]. rewrite Hcur.
    assert (Ha : negb (t =? n) = true) by (by apply negb_true_iff, Z.eqb_neq). by rewrite Ha. }
  assert (Hdel : ∀ t' th', delete t (threads k) !! t' = Some th' ↔ t ≠ t' ∧ threads k !! t' = Some th').
  { intros. apply lookup_delete_Some. }
  cbv zeta. split_and!.
  - split; simpl; try done.
    + intros t' [= <-]. destruct (Hh n eq_refl) as [th' Hn]. exists th'. by apply Hdel.
    + intros t' th' [Hn Hl]%Hdel Hne'. exact (Hp t' th' Hl Hne').
    + intros t' Hin. destruct (Hr t' Hin) as (th' & H1 & H2 & H3). exists th'. rewrite Hdel.
      split_and!; try done. intros ->. destruct Hfin. congruence.
    + intros s x t' Hx Hin. destruct (Hq s x t' Hx Hin) as (th' & H1 & H2 & (o & l & H3) & H4). exists th'.
      rewrite Hdel. split_and!; try done; [|by exists o, l]. intros ->. destruct Hfin. congruence.
    + intros t' th' s [_ Hl]%Hdel. by apply (Hse t').
    + intros t' th' l [_ Hl]%Hdel. by apply (Hro t').
  - split; simpl; [by rewrite Hreg|..].
    + intros t' th' [_ Hl]%Hdel. eauto.
    + intros t' th' a [_ Hl]%Hdel. eauto.
    + intros t' th' a [Hn Hl]%Hdel Ha. rewrite (Htab t' th' a) by done. eauto.
    + intros t1 th1 a1 t2 th2 a2 [_ Hl1]%Hdel Ha1 [_ Hl2]%Hdel. eauto.
  - split; simpl.
    + intros t' th' [_ Hl]%Hdel _. eauto.
    + intros t' th' Hl Hf _. exists th'.
      assert (Hn : t ≠ t') by (intros <-; simplify_eq; done).
      split_and!; [by apply Hdel|done|done|]. intros a Ha. split; [|by apply (Htab t' th')].
      left. unfold view. simpl. by rewrite Hreg.
Qed.

(** The rest of Run after SWITCH: the finished thread goes, and the user state of
    the thread switched to is put back on the machine. *)
Lemma Run_tail_ok k n th :
  pinv k (Some n) → user_inv k → currentThread k = n → threads k !! n = Some th →
  ∃ k', Run_tail k = Ok k' ∧ pinv k' (Some n) ∧ threads k' !! n = Some th ∧
    currentThread k' = n ∧ readyList k' = readyList k ∧ semaphores k' = semaphores k ∧
    intLevel k' = intLevel k ∧ k_inHandler k' = k_inHandler k ∧
    (∀ t th', threads k' !! t = Some th' → threads k !! t = Some th') ∧ on_machine th (k_machine k') ∧
    ∃ k1, user_inv k1 ∧ tframe nobody nobody k k1 ∧ threads k1 = threads k' ∧ currentThread k1 = n ∧
      k_machine k' = (match th_space th with
                      | Some a => RestoreState a (set_registers (k_machine k1) (userRegisters th))
                      | None => k_machine k1 end).
Proof.
  intros Hinv Hu Hcur Hlk. unfold Run_tail.
  assert (Hdel : ∃ k1, match threadToBeDestroyed k with
      | Some t => k ← Thread_delete k t; Ok (set_tbd k None) | None => Ok k end = Ok k1 ∧
      pinv k1 (Some n) ∧ user_inv k1 ∧ tframe nobody nobody k k1 ∧ threads k1 !! n = Some th ∧
      currentThread k1 = n ∧ readyList k1 = readyList k ∧ semaphores k1 = semaphores k ∧
      intLevel k1 = intLevel k ∧ k_inHandler k1 = k_inHandler k ∧
      ∀ t th', threads k1 !! t = Some th' → threads k !! t = Some th').
  { destruct (threadToBeDestroyed k) as [t|] eqn:Htbd.
    - destruct (delete_tbd_ok k t n Hinv Hu Hcur Htbd) as (m & -> & Hne & Hp1 & Hu1 & Hf1).
      cbn [mbind outcome_bind]. eexists. split; [done|]. split_and!; try done; simpl.
      + by rewrite lookup_delete_ne.
      + by intros t' th' [_ H']%lookup_delete_Some.
    - exists k. split_and!; try done. apply tframe_refl. }
  destruct Hdel as (k1 & -> & Hp1 & Hu1 & Hf1 & Hlk1 & Hc1 & Hr1 & Hs1 & Hl1 & Hh1 & Hb1). cbn [mbind outcome_bind].
  rewrite Hc1, (thread_at_Some _ _ _ Hlk1). cbn [mbind outcome_bind].
  destruct (th_space th) as [a|] eqn:Ha.
  - pose proof (ui_length _ _ _ Hu1 n th Hlk1) as Hur.
    rewrite (RestoreUserState_ok _ _ (proj1 (ui_regs _ _ _ Hu1)) Hur). cbn [mbind outcome_bind].
    eexists. split; [done|]. split_and!; try done; [by intros a' [= <-]%(eq_trans (eq_sym Ha))|].
    by exists k1.
  - exists k1. split_and!; try done; [by intros a'; rewrite Ha|]. by exists k1.
Qed.

(** ** Context switches *)

Definition resumed (su : suspension L) : control L :=
  match su with
  | AtThreadRoot l | InYield _ l => Exec l
  | InP s old l => PLoop s old l
  | InFinish => SleepLoop
  end.

(** The current thread has overwritten the fencepost of its stack. *)
Definition overflowed k : Prop :=
  ∃ th w, threads k !! currentThread k = Some th ∧ th_stack th = Some w ∧ w ≠ STACK_FENCEPOST.

(** [k2] is [k] after Run saved the user state of the current thread and made [n]
    the current thread: every program's registers are saved. *)
Record saved k n k2 : Prop := {
  sv_threads : ∀ t th, threads k !! t = Some th → ∃ th2, threads k2 !! t = Some th2 ∧
    th_stack th2 = th_stack th ∧ th_space th2 = th_space th ∧ th_susp th2 = th_susp th ∧
    (finished th2 → finished th) ∧ (∀ a, th_space th = Some a → userRegisters th2 = view k t th);
  sv_back : ∀ t, is_Some (threads k2 !! t) → is_Some (threads k !! t);
  sv_machine : k_machine k2 = k_machine k;
  sv_current : currentThread k2 = n;
}.

Lemma Run_saves k n tho th :
  pinv k (Some n) → user_inv k → threads k !! currentThread k = Some tho → threads k !! n = Some th →
  th_susp th ≠ InFinish →
  (Run k n = Aborted ∧ overflowed k) ∨
  ∃ ts, let k2 := set_threads (set_current k n) ts in
    Run k n = SWITCH k2 n ∧ pinv k2 (Some n) ∧ user_inv k2 ∧ saved k n k2 ∧
    ∃ th2, ts !! n = Some th2 ∧ th_status th2 = RUNNING.
Proof.
  intros Hinv Hu Hold Hn Hsu. unfold Run. rewrite (thread_at_Some _ _ _ Hold). cbn [mbind outcome_bind].
  set (old := currentThread k) in *. pose proof Hu as [U1 U2 U3 U4 U5].
  assert (Hsave : ∃ tho', match th_space tho with Some a => SaveUserState (k_machine k) tho | None => Ok tho end
    = Ok tho' ∧ same_place tho tho' ∧ th_stack tho' = th_stack tho ∧
    length (userRegisters tho') = Z.to_nat NumTotalRegs ∧
    ∀ a, th_space tho = Some a → userRegisters tho' = registers (k_machine k)).
  { destruct (th_space tho) eqn:Hsp.
    - rewrite SaveUserState_ok by apply U1. eexists. split; [done|]. simpl. split_and!; try done. apply U1.
    - exists tho. split_and!; try done. by apply (U2 old). }
  destruct Hsave as (tho' & -> & Hsame & Hstk & Hlen & Hsaved). cbn [mbind outcome_bind].
  assert (Hchk : CheckOverflow tho' = Ok tt ∨ CheckOverflow tho' = Aborted ∧ overflowed k).
  { unfold CheckOverflow. rewrite Hstk. destruct (th_stack tho) as [w|] eqn:Hw; [|by left].
    destruct (Z.eqb_spec w STACK_FENCEPOST); [by left|right]. split; [done|]. by exists tho, w. }
  destruct Hchk as [-> |[-> Hov]]; [|left; by split]. right. cbn [mbind outcome_bind].
  pose proof (pinv_update k (Some n) old tho tho' Hinv Hold (or_introl Hsame)) as Hinv1.
  assert (Hn1 : ∃ th1, <[old := tho']> (threads k) !! n = Some th1 ∧ th_susp th1 = th_susp th).
  { destruct (decide (old = n)) as [Heq|Hne].
    - rewrite <- Heq, lookup_insert_eq. rewrite <- Heq in Hn. exists tho'. destruct Hsame as (_ & ? & _).
      simplify_eq. by split.
    - rewrite lookup_insert_ne by done. by exists th. }
  destruct Hn1 as (th1 & Hn1 & Hsu1).
  rewrite (thread_at_Some (set_current (update k old tho') n) n th1 Hn1). cbn [mbind outcome_bind].
  exists (<[n := setStatus th1 RUNNING]> (<[old := tho']> (threads k))). cbv zeta. split; [done|].
  assert (Hsv : saved k n (set_threads (set_current k n) (<[n := setStatus th1 RUNNING]> (<[old := tho']> (threads k))))).
  { assert (Hmid : ∀ t th0, threads k !! t = Some th0 → ∃ th2, <[old := tho']> (threads k) !! t = Some th2 ∧
      th_stack th2 = th_stack th0 ∧ th_space th2 = th_space th0 ∧ th_susp th2 = th_susp th0 ∧
      th_status th2 = th_status th0 ∧ (∀ a, th_space th0 = Some a → userRegisters th2 = view k t th0)).
    { intros t th0 Ht. unfold view. fold old. destruct (decide (old = t)) as [Heq|Hne].
      - subst t. rewrite lookup_insert_eq, bool_decide_true by done. destruct Hsame as (? & ? & ?). simplify_eq.
        by exists tho'.
      - rewrite lookup_insert_ne, bool_decide_false by done. by exists th0. }
    split; simpl; try done.
    - intros t th0 Ht. destruct (Hmid t th0 Ht) as (th2 & H2 & E1 & E2 & E3 & E4 & E5).
      destruct (decide (n = t)) as [Heq|Hne].
      + subst t. rewrite lookup_insert_eq. simplify_eq. eexists. split; [done|]. split_and!; try done.
        by intros [? _].
      + rewrite lookup_insert_ne by done. exists th2. split_and!; try done. unfold finished. by rewrite E3, E4.
    - intros t. rewrite !lookup_insert_is_Some. naive_solver. }
  split_and!; try done.
  - apply (pinv_update (set_current (update k old tho') n) (Some n) n th1 (setStatus th1 RUNNING) Hinv1 Hn1).
    right. split; [done|]. intros s Hw. exact (pi_sem _ _ _ _ _ Hinv1 n th1 s Hn1 Hw).
  - assert (Hb : ∀ t th2, <[n := setStatus th1 RUNNING]> (<[old := tho']> (threads k)) !! t = Some th2 →
      length (userRegisters th2) = Z.to_nat NumTotalRegs ∧ ∃ th0, threads k !! t = Some th0 ∧
        th_space th2 = th_space th0 ∧ ∀ a, th_space th0 = Some a → userRegisters th2 = view k t th0).
    { intros t th2 H2. split.
      - destruct (decide (n = t)) as [Heq|Hne];
          [subst t; rewrite lookup_insert_eq in H2; injection H2 as <-; simpl; revert Hn1; generalize n
          |rewrite lookup_insert_ne in H2 by done; revert H2; generalize t]; intros t'; 
          (destruct (decide (old = t')) as [Heq'|Hne'];
            [subst t'; rewrite lookup_insert_eq; by intros [= <-]|rewrite lookup_insert_ne by done; apply U2]).
      - destruct (sv_back _ _ _ Hsv t) as [th0 H0]; [by eexists|].
        destruct (sv_threads _ _ _ Hsv t th0 H0) as (th2' & H2' & _ & E2 & _ & _ & E5). exists th0.
        simpl in H2'. rewrite H2 in H2'. by injection H2' as <-. }
    split; simpl; [done|..].
    + intros t th2 [Hl _]%Hb. done.
    + intros t th2 a (_ & th0 & H0 & E2 & E5)%Hb Ha _. rewrite E2 in Ha. rewrite (E5 a Ha). by eapply view_ok.
    + intros t th2 a (_ & th0 & H0 & E2 & _)%Hb Ha. rewrite E2 in Ha. eauto.
    + intros t2 th2 a2 t3 th3 a3 (_ & u2 & H2 & E2 & _)%Hb Ha2 (_ & u3 & H3 & E3 & _)%Hb Ha3.
      rewrite E2 in Ha2. rewrite E3 in Ha3. eauto.
  - eexists. by rewrite lookup_insert_eq.
Qed.

(** A context switch: the only assertion that can fail is the one on the fencepost
    of the thread that gives up the processor; no pointer dangles, and no user
    program loses its state. *)
Lemma Run_ok k n th :
  pinv k (Some n) → user_inv k → k_inHandler k = false → intLevel k = IntOff →
  is_Some (threads k !! currentThread k) →
  threads k !! n = Some th → th_susp th ≠ InFinish →
  (∀ l, th_susp th = AtThreadRoot l → th_space th = None) →
  (Run k n = Aborted ∧ overflowed k) ∨
  ∃ k', Run k n = Ok k' ∧ kinv k' ∧ ctl k' = resumed (th_susp th) ∧
    readyList k' = readyList k ∧ semaphores k' = semaphores k ∧
    (∀ t th', threads k' !! t = Some th' → ∃ th0, threads k !! t = Some th0 ∧ th_susp th' = th_susp th0) ∧
    tframe nobody nobody k k'.
Proof.
  intros Hinv Hu Hih Hlev [tho Hold] Hn Hsu Hroot.
  destruct (Run_saves k n tho th Hinv Hu Hold Hn Hsu) as [?|(ts & Hrun & Hp2 & Hu2 & Hsv & th2 & Hn2 & Hst2)]; [by left|].
  right. set (k2 := set_threads (set_current k n) ts) in *. rewrite Hrun.
  destruct (sv_threads _ _ _ Hsv n th Hn) as (th2' & Hn2' & _ & Hspace & Hsusp & _ & Hregs).
  change (ts !! n = Some th2') in Hn2'. rewrite Hn2 in Hn2'. injection Hn2' as <-.
  assert (Hback : ∀ t th', threads k2 !! t = Some th' → ∃ th0, threads k !! t = Some th0 ∧
    th_stack th' = th_stack th0 ∧ th_susp th' = th_susp th0).
  { intros t th' Ht. destruct (sv_back _ _ _ Hsv t) as [th0 H0]; [by eexists|].
    destruct (sv_threads _ _ _ Hsv t th0 H0) as (th3 & H3 & E1 & _ & E3 & _). exists th0.
    rewrite Ht in H3. by injection H3 as <-. }
  unfold SWITCH. rewrite (thread_at_Some k2 n th2 Hn2). cbn [mbind outcome_bind]. rewrite Hsusp.
  assert (Hcase : (∃ l, th_susp th = AtThreadRoot l) ∨ ¬ ∃ l, th_susp th = AtThreadRoot l)
    by (destruct (th_susp th); [by eauto|right; by intros [? ?]..]).
  destruct Hcase as [[l Hl]|Hno].
  - rewrite Hl. rewrite kSetLevel_ok by done. cbn [mbind outcome_bind]. eexists. split; [done|].
    split_and!; try done.
    + split; simpl; try done. intros _. split; [exact Hp2|]. exists th2. split_and!; try done.
      intros a Ha. rewrite Hspace, (Hroot l Hl) in Ha. done.
    + intros t th' Ht. destruct (Hback t th' Ht) as (th0 & H0 & _ & E). eauto.
    + split.
      * intros t th' Ht _. right. destruct (Hback t th' Ht) as (th0 & H0 & E & _). eauto.
      * intros t th0 H0 Hf _. destruct (sv_threads _ _ _ Hsv t th0 H0) as (th3 & H3 & _ & E2 & _ & Hfin & Hr).
        exists th3. split_and!; try done; [by auto|]. intros a Ha. split; [|done]. left. rewrite <- (Hr a Ha).
        unfold view. simpl. rewrite bool_decide_false; [done|]. intros ->. simplify_eq.
        rewrite (Hroot l Hl) in Ha. done.
  - destruct (Run_tail_ok k2 n th2 Hp2 Hu2 eq_refl Hn2)
      as (k3 & Hrt & Hp3 & Hn3 & Hc3 & Hr3 & Hs3 & Hl3 & Hh3 & Hb3 & Hom & k1 & Hu1 & [_ Hk1] & Et1 & Ec1 & Em).
    rewrite Hrt. cbn [mbind outcome_bind].
    assert (Hu3 : user_inv k3).
    { destruct Hu1 as [V1 V2 V3 V4 V5]. rewrite Et1, Ec1 in *. unfold user_inv. rewrite Hc3.
      assert (Hpt : ptables (k_machine k3) = ptables (k_machine k1)) by (rewrite Em; by destruct (th_space th2)).
      split; try done; [|by rewrite Hpt]. rewrite Em. destruct (th_space th2) as [a|] eqn:Ha; [|done].
      simpl. rewrite (Hregs a) by congruence. eapply view_ok; [exact Hu|done|]. by rewrite <- Hspace. }
    assert (Hsusp3 : ∀ t th', threads k3 !! t = Some th' → ∃ th0, threads k !! t = Some th0 ∧ th_susp th' = th_susp th0).
    { intros t th' Ht. apply Hb3 in Ht. destruct (Hback t th' Ht) as (th0 & H0 & _ & E). eauto. }
    assert (Hf3 : tframe nobody nobody k k3).
    { split.
      - intros t th' Ht _. right. apply Hb3 in Ht. destruct (Hback t th' Ht) as (th0 & H0 & E & _). eauto.
      - intros t th0 H0 Hf _. destruct (sv_threads _ _ _ Hsv t th0 H0) as (th4 & H4 & _ & E2 & _ & Hfin & Hr).
        destruct (Hk1 t th4 H4) as (th5 & H5 & Hf5 & E5 & Hv5); [by auto|by intros []|].
        rewrite Et1 in H5. pose proof (Hb3 t th5 H5) as H5'. rewrite H4 in H5'. injection H5' as <-.
        exists th4. split_and!; try done. intros a Ha. destruct (Hv5 a ltac:(congruence)) as [_ Ht5]. split.
        + left. rewrite <- (Hr a Ha). unfold view. rewrite Hc3. case_bool_decide as Hd; [|done]. subst t.
          rewrite Em. change (ts !! n = Some th4) in H4. simplify_eq. rewrite E2, Ha. done.
        + rewrite Em, <- (sv_machine _ _ _ Hsv), <- Ht5. by destruct (th_space th2). }
    assert (Hki : ∀ (c : control L) v, asleep c = false → (∀ s old l, c = PLoop s old l → v = IntOff ∧ is_Some (semaphores k3 !! s)) →
      kinv (set_ctl (set_level k3 v) c)).
    { intros c v Hc Ht. split; simpl; try done; [by rewrite Hh3|rewrite Hc; done|].
      intros _. rewrite Hc3. split; [exact Hp3|]. by exists th2. }
    destruct (th_susp th) as [func|s old l|old l|] eqn:Hsusp'; [by destruct Hno; eauto| | |done].
    + eexists. split; [done|]. split_and!; try done.
      assert (Hk : kinv (set_ctl (set_level k3 (intLevel k3)) (PLoop s old l))).
      { apply Hki; [done|]. intros s' old' l' [= -> -> ->]. split; [by rewrite Hl3|].
        apply (pi_sem _ _ _ _ _ Hp3 n th2); [done|]. exists old', l'. done. }
      by destruct k3.
    + rewrite kSetLevel_ok by (by rewrite Hh3). cbn [mbind outcome_bind]. eexists. split; [done|].
      split_and!; try done. by apply Hki.
Qed.

(** ** Wakeups *)

Definition is_InP (su : suspension L) s : bool :=
  match su with InP s' _ _ => s' =? s | _ => false end.

(** [t] was woken from semaphore [s] and has not re-tested it yet. *)
Definition waiting k s t : bool :=
  match threads k !! t with Some th => is_InP (th_susp th) s | None => false end.

Lemma waiting_eq k s t th : threads k !! t = Some th → waiting k s t = is_InP (th_susp th) s.
Proof. unfold waiting. by intros ->. Qed.

Definition at_test (c : control L) s : nat :=
  match c with PLoop s' _ _ => if s' =? s then 1 else 0 | _ => 0 end.

(** The threads about to test semaphore [s]. *)
Definition woken k s : nat :=
  (length (filter (λ t, waiting k s t = true) (readyList k)) + at_test (ctl k) s)%nat.

(** No lost wakeup: while threads are queued, every unit of the value belongs
    to a thread that is about to test the semaphore. *)
Definition winv k : Prop :=
  ∀ s x, semaphores k !! s = Some x → queue x ≠ [] → value x <= Z.of_nat (woken k s).

Definition delta (e : event) s : Z :=
  match e with
  | Tau => 0
  | EvP s' => if s' =? s then -1 else 0
  | EvV s' => if s' =? s then 1 else 0
  end.

(** What a step with event [e] guarantees; [stk] and [usr] are the threads whose
    stack and whose user state it may change. *)
Record effect (stk usr : Z → Prop) k (e : event) k' : Prop := {
  ef_kinv : kinv k';
  ef_winv : winv k';
  ef_value : ∀ s x', semaphores k' !! s = Some x' →
    ∃ x, semaphores k !! s = Some x ∧ value x' = value x + delta e s;
  ef_sems : ∀ s, is_Some (semaphores k !! s) → is_Some (semaphores k' !! s);
  ef_frame : tframe stk usr k k';
}.

Lemma filter_waiting_ext k k' s (ts : list Z) :
  (∀ t, t ∈ ts → waiting k' s t = waiting k s t) →
  filter (λ t, waiting k' s t = true) ts = filter (λ t, waiting k s t = true) ts.
Proof.
  intros Hw. induction ts as [|t ts IH]; [done|].
  rewrite !filter_cons, (Hw t ltac:(set_solver)), IH by (intros; apply Hw; set_solver).
  done.
Qed.

Lemma woken_le k k' s extra :
  readyList k' = readyList k ++ extra → at_test (ctl k) s = 0%nat →
  (∀ t, t ∈ readyList k → waiting k' s t = waiting k s t) → (woken k s <= woken k' s)%nat.
Proof.
  intros Hr Hat Hw. unfold woken.
  rewrite Hr, Hat, filter_app, length_app, (filter_waiting_ext k k') by done. lia.
Qed.

Lemma woken_ctl k (c : control L) s :
  woken (set_ctl k c) s =
  (length (filter (λ t, waiting k s t = true) (readyList k)) + at_test c s)%nat.
Proof. reflexivity. Qed.

(** The same semaphores, and at least as many threads about to test each. *)
Lemma effect_tau stk usr k k' :
  kinv k' → semaphores k' = semaphores k → (∀ s, (woken k s <= woken k' s)%nat) → winv k →
  tframe stk usr k k' → effect stk usr k Tau k'.
Proof.
  intros Hk Hs Hw Hwi Hf. split; [done|..|done].
  - intros s x. rewrite Hs. intros Hx Hq. specialize (Hwi s x Hx Hq). specialize (Hw s). lia.
  - intros s x'. rewrite Hs. intros Hx. exists x'. split; [done|]. simpl. lia.
  - intros s. by rewrite Hs.
Qed.

(** In hand is the running thread, or nobody in the loop of Sleep. *)
Definition hand k : option Z := if asleep (ctl k) then None else Some (currentThread k).

Lemma kinv_pinv k : kinv k → pinv k (hand k).
Proof.
  intros [_ _ H1 H2 _]. unfold hand. destruct (asleep (ctl k)); [by apply H1|by apply H2].
Qed.

Lemma kinv_ready k t : kinv k → t ∈ readyList k → is_Some (threads k !! t).
Proof.
  intros Hk Hin. by destruct (pi_ready _ _ _ _ _ (kinv_pinv k Hk) t Hin) as (th & -> & _).
Qed.

(** Switching to thread [n], just taken from the ready list. *)
Lemma Run_effect k n th :
  pinv k (Some n) → user_inv k → k_inHandler k = false → intLevel k = IntOff →
  is_Some (threads k !! currentThread k) → threads k !! n = Some th → th_susp th ≠ InFinish →
  (∀ l, th_susp th = AtThreadRoot l → th_space th = None) →
  (Run k n = Aborted ∧ overflowed k) ∨
  ∃ k', Run k n = Ok k' ∧ kinv k' ∧ semaphores k' = semaphores k ∧ tframe nobody nobody k k' ∧
    ∀ s, woken k' s = (length (filter (λ t, waiting k s t = true) (n :: readyList k)))%nat.
Proof.
  intros Hp Hu Hih Hl Hc Hn Hsu Hro.
  destruct (Run_ok k n th Hp Hu Hih Hl Hc Hn Hsu Hro) as [?|(k' & Hr & Hk & Hctl & Hrd & Hs & Hf & Htf)]; [by left|].
  right. exists k'. split_and!; try done. intros s. unfold woken.
  rewrite (filter_waiting_ext k k').
  2: { intros t Ht. destruct (kinv_ready k' t Hk Ht) as [th' Ht']. destruct (Hf t th' Ht') as (th0 & H0 & E).
       by rewrite (waiting_eq k' s t th' Ht'), (waiting_eq k s t th0 H0), E. }
  assert (Hwn : waiting k s n = is_InP (th_susp th) s) by (unfold waiting; by rewrite Hn).
  rewrite Hrd, Hctl, filter_cons. case_decide as Hd; rewrite Hwn in Hd;
    destruct (th_susp th) as [|s' old l| |]; simpl in *; try done; destruct (s' =? s); simpl; try done; lia.
Qed.

Lemma sleep_loop_effect k :
  ctl k = SleepLoop → kinv k → winv k →
  (Sleep_loop k = Aborted ∧ overflowed k ∧ readyList k ≠ []) ∨
  ∃ k', Sleep_loop k = Ok k' ∧ effect nobody nobody k Tau k'.
Proof.
  intros Hctl [Hih Hu Hsl _ _] Hw. rewrite Hctl in Hsl. destruct (Hsl eq_refl) as (Hl & Hp & Hcur).
  unfold Sleep_loop, FindNextToRun. destruct (readyList k) as [|n rest] eqn:Hr.
  { right. eexists. split; [done|]. apply effect_tau; try done.
    - intros s. rewrite woken_ctl. unfold woken. rewrite Hctl. done.
    - exact (tframe_refl _ _ k). }
  destruct (FindNextToRun_pinv k n rest Hp Hr) as (Hp1 & th & Hn & _ & Hsu & Hro).
  destruct (Run_effect (set_ready k rest) n th) as [[Hab Hov]|(k' & Hrun & Hk' & Hs' & Hf & Hw')]; try done.
  { left. split_and!; done. }
  right. exists k'. split; [done|]. apply effect_tau; try done.
  intros s. rewrite Hw'. unfold woken. rewrite Hctl, Hr, Nat.add_0_r. reflexivity.
Qed.

Lemma idle_effect k :
  ctl k = Idling → kinv k → winv k → effect nobody nobody k Tau (set_ctl k SleepLoop).
Proof.
  intros Hctl [Hih Hu Hsl _ _] Hw. rewrite Hctl in Hsl. apply effect_tau; try done.
  - intros s. rewrite woken_ctl. unfold woken. rewrite Hctl. done.
  - exact (tframe_refl _ _ k).
Qed.

(** The running thread. *)
Lemma kinv_running k :
  asleep (ctl k) = false → kinv k →
  pinv k (Some (currentThread k)) ∧ user_inv k ∧ k_inHandler k = false ∧ currentThread k ∉ readyList k ∧
  ∃ th, threads k !! currentThread k = Some th ∧ th_status th = RUNNING ∧ on_machine th (k_machine k).
Proof.
  intros Hc [H1 H2 _ H4 _]. destruct (H4 Hc) as [Hp Hth]. split_and!; try done.
  intros Hin. by destruct (pi_ready _ _ _ _ _ Hp _ Hin) as (? & _ & _ & ?).
Qed.

(** The running thread goes on: nothing else changed. *)
Lemma exec_effect k k' l :
  asleep (ctl k) = false → (∀ s, at_test (ctl k) s = 0%nat) → kinv k → winv k →
  threads k' = threads k → currentThread k' = currentThread k → readyList k' = readyList k →
  threadToBeDestroyed k' = threadToBeDestroyed k → semaphores k' = semaphores k →
  k_machine k' = k_machine k → k_inHandler k' = k_inHandler k → ctl k' = Exec l →
  effect nobody nobody k Tau k'.
Proof.
  intros Hc Hat Hk Hw E1 E2 E3 E4 E5 E6 E7 E8.
  destruct (kinv_running k Hc Hk) as (Hp & Hu & Hih & _ & th & Ht & Hst & Hom).
  apply effect_tau; try done.
  - split; try done; try (by rewrite E8); try congruence.
    + unfold user_inv. by rewrite E1, E2, E6.
    + intros _. unfold pinv. rewrite E1, E2, E3, E4, E5, E6. split; [done|]. by exists th.
  - intros s. unfold woken, waiting. by rewrite E1, E3, E8, Hat.
  - unfold tframe, view. rewrite E1, E2, E6. exact (tframe_refl _ _ k).
Qed.

Lemma yield_effect k l :
  asleep (ctl k) = false → (∀ s, at_test (ctl k) s = 0%nat) → kinv k → winv k →
  (Yield k (currentThread k) l = Aborted ∧ overflowed k ∧ readyList k ≠ []) ∨
  ∃ k', Yield k (currentThread k) l = Ok k' ∧ effect nobody nobody k Tau k'.
Proof.
  intros Hc Hat Hk Hw. destruct (kinv_running k Hc Hk) as (Hp & Hu & Hih & Hcr & th & Ht & Hst & Hom).
  unfold Yield. rewrite kSetLevel_off. cbn [mbind outcome_bind currentThread set_level].
  rewrite assert_this. cbn [mbind outcome_bind]. unfold FindNextToRun. cbn [readyList set_level].
  destruct (readyList k) as [|n rest] eqn:Hr.
  { right. rewrite kSetLevel_ok by done. cbn [mbind outcome_bind]. eexists. split; [done|]. by eapply exec_effect. }
  set (c := currentThread k) in *. set (th1 := set_susp th (InYield (intLevel k) l)).
  set (k0 := set_level k IntOff). set (k1 := update k0 c th1).
  assert (Hp1 : pinv k1 (Some c)).
  { eapply (pinv_update k0); [exact Hp|exact Ht|]. right. split; [done|]. intros s (? & ? & ?). done. }
  destruct (ReadyToRun_pinv k1 c th1 Hp1) as [_ Hp2]; [unfold k1; simpl; by rewrite lookup_insert_eq|done|done|].
  set (th2 := setStatus th1 READY) in *. set (k2 := set_ready (update k1 c th2) (readyList k1 ++ [c])) in *.
  assert (Hr2 : readyList k2 = n :: (rest ++ [c])) by (unfold k2; simpl; by rewrite Hr).
  destruct (FindNextToRun_pinv k2 n (rest ++ [c]) Hp2 Hr2) as (Hp3 & thn & Hn & _ & Hsu & Hro).
  assert (Ht1 : threads k1 !! c = Some th1) by (unfold k1; simpl; by rewrite lookup_insert_eq).
  assert (Hu2 : user_inv k2) by (eapply (uinv_update k1); [eapply (uinv_update k0); [exact Hu|exact Ht|done]|exact Ht1|done]).
  assert (Hf2 : tframe nobody nobody k k2).
  { eapply (tframe_trans _ _ _ k1); [exact Hu|..].
    - apply (tframe_update nobody k0 c th th1 Ht); [done|]. intros _ [_ ?]. done.
    - apply (tframe_update nobody k1 c th1 th2 Ht1); [done|]. intros _ [_ ?]. done. }
  rewrite (thread_at_Some (set_ready k0 rest) c th Ht). cbn [mbind outcome_bind]. unfold ReadyToRun.
  rewrite (thread_at_Some _ c th1) by (simpl; by rewrite lookup_insert_eq). cbn [mbind outcome_bind].
  assert (Hcc : threads k2 !! c = Some th2) by (unfold k2; simpl; by rewrite lookup_insert_eq).
  destruct (Run_effect (set_ready k2 (rest ++ [c])) n thn Hp3 Hu2 Hih eq_refl (ex_intro _ th2 Hcc) Hn Hsu Hro) as
    [[Hab (thx & w & Hx & Hw1 & Hw2)]|(k' & Hrun & Hk' & Hs' & Hf' & Hw')].
  { left. split_and!; try done. change (threads k2 !! c = Some thx) in Hx. rewrite Hcc in Hx. injection Hx as <-.
    by exists th, w. }
  right. exists k'. split; [exact Hrun|]. apply effect_tau; try done.
  - intros s. rewrite Hw'. cbn [readyList set_ready]. unfold woken. rewrite Hat, Nat.add_0_r, Hr.
    rewrite <- (filter_waiting_ext k k2 s (n :: rest)).
    + rewrite app_comm_cons, filter_app, length_app. change (waiting (set_ready k2 (rest ++ [c])) s) with (waiting k2 s). lia.
    + intros t Hin. unfold waiting, k2, k1. simpl. rewrite !lookup_insert_ne; [done|..]; by intros ->.
  - eapply (tframe_trans _ _ _ k2); [exact Hu|exact Hf2|exact Hf'].
Qed.

(** The running thread goes to sleep, on a queue or for good. *)
Lemma sleep_kinv k su th :
  pinv k (Some (currentThread k)) → user_inv k → k_inHandler k = false → intLevel k = IntOff →
  threads k !! currentThread k = Some th → su = InFinish →
  Sleep k (currentThread k) su = Ok (set_ctl (update k (currentThread k) (set_susp (setStatus th BLOCKED) su)) SleepLoop) ∧
  kinv (set_ctl (update k (currentThread k) (set_susp (setStatus th BLOCKED) su)) SleepLoop).
Proof.
  intros Hp Hu Hih Hl Ht ->. unfold Sleep. rewrite assert_this, Hl. cbn [mbind outcome_bind].
  rewrite (thread_at_Some _ _ _ Ht). split; [done|].
  set (c := currentThread k) in *. set (th' := set_susp (setStatus th BLOCKED) InFinish).
  assert (Hp1 : pinv (update k c th') (Some c)).
  { apply (pinv_update k (Some c) c th th' Hp Ht). right. split; [done|]. by intros s (? & ? & ?). }
  split; simpl; try done.
  - by apply (uinv_update k c th th').
  - intros _. rewrite lookup_insert_eq. split_and!; [done| |by eexists].
    destruct Hp1 as [Hh Hpp Hr Hrn Hq Hqn Hv Htb Hse Hro]. split; simpl in *; try done.
    + intros t th2 H2 _. destruct (decide (c = t)) as [Heq|Hne].
      * subst t. rewrite lookup_insert_eq in H2. injection H2 as <-. right; by right.
      * apply (Hpp t th2 H2). congruence.
    + intros t Hin. destruct (Hr t Hin) as (th2 & ? & ? & _). by exists th2.
    + intros s x t Hx Hin. destruct (Hq s x t Hx Hin) as (th2 & ? & ? & ? & _). by exists th2.
    + intros t Htbd. destruct (Htb t Htbd) as (_ & th2 & ? & ?). split; [done|]. by exists th2.
    + intros t th2 l H2 _ Hs2. destruct (decide (c = t)) as [Heq|Hne].
      * subst t. rewrite lookup_insert_eq in H2. injection H2 as <-. done.
      * apply (Hro t th2 l H2); [congruence|done].
Qed.

Lemma finish_effect k :
  asleep (ctl k) = false → (∀ s, at_test (ctl k) s = 0%nat) → kinv k → winv k →
  ∃ k', Finish k (currentThread k) = Ok k' ∧ effect nobody (λ t, t = currentThread k) k Tau k'.
Proof.
  intros Hc Hat Hk Hw. destruct (kinv_running k Hc Hk) as (Hp & Hu & Hih & Hcr & th & Ht & Hst & Hom).
  unfold Finish. rewrite kSetLevel_off. cbn [mbind outcome_bind currentThread set_level].
  rewrite assert_this. cbn [mbind outcome_bind]. set (c := currentThread k) in *.
  (* the carcass is the running thread itself: asleep once Sleep returns *)
  set (k0 := set_tbd (set_level k IntOff) None).
  assert (Hp0 : pinv k0 (Some c)) by (destruct Hp; by split).
  destruct (sleep_kinv k0 InFinish th Hp0 Hu Hih eq_refl Ht eq_refl) as [_ Hk1].
  unfold Sleep. change (currentThread (set_tbd (set_level k IntOff) (Some c))) with c. rewrite assert_this.
  cbn [mbind outcome_bind]. rewrite bool_decide_true by done. cbn [ASSERT mbind outcome_bind].
  rewrite (thread_at_Some (set_tbd (set_level k IntOff) (Some c)) c th Ht). cbn [mbind outcome_bind]. eexists. split; [done|].
  apply effect_tau; try done.
  - destruct Hk1 as [K1 K2 K3 K4 K5]. split; simpl in *; try done. intros _.
    destruct (K3 eq_refl) as (_ & [Hh Hpp Hr Hrn Hq Hqn Hv Htb Hse Hro] & Hcur). split_and!; try done.
    split; simpl in *; try done.
    intros t [= <-]. split; [done|]. fold c. rewrite lookup_insert_eq. by eexists.
  - intros s. apply (woken_le _ _ _ []); [by rewrite app_nil_r|done|].
    intros t Hin. unfold waiting. simpl. rewrite lookup_insert_ne; [done|]. intros Heq. by rewrite <- Heq in Hin.
  - apply (tframe_update (λ t, t = c) k c th); [done|done|]. done.
Qed.

Lemma fork_effect k func garbage l :
  asleep (ctl k) = false → (∀ s, at_test (ctl k) s = 0%nat) → kinv k → winv k →
  length garbage = Z.to_nat NumTotalRegs →
  ∃ k', (k1 ← Fork k func garbage; Ok (set_ctl k1 (Exec l))) = Ok k' ∧ effect nobody nobody k Tau k'.
Proof.
  intros Hc Hat Hk Hw Hg. destruct (kinv_running k Hc Hk) as (Hp & Hu & Hih & Hcr & th & Ht & Hst & Hom).
  unfold Fork. set (t := fresh (dom (threads k))).
  assert (Hnew : threads k !! t = None) by (apply not_elem_of_dom, is_fresh).
  set (nt := StackAllocate _ func). set (c := currentThread k) in *.
  assert (Htc : t ≠ c) by congruence.
  rewrite kSetLevel_off. cbn [mbind outcome_bind].
  unfold ReadyToRun. rewrite (thread_at_Some _ t nt) by (simpl; by rewrite lookup_insert_eq).
  cbn [mbind outcome_bind]. rewrite kSetLevel_ok by done. cbn [mbind outcome_bind]. eexists. split; [done|].
  destruct Hp as [Hh Hpp Hr Hrn Hq Hqn Hv Htb Hse Hro]. destruct Hu as [U1 U2 U3 U4 U5].
  assert (Hold : ∀ t', is_Some (threads k !! t') → t ≠ t') by (intros t' [? ?] <-; congruence).
  set (ts := <[t := setStatus nt READY]> (<[t := nt]> (threads k))).
  assert (Hlk : ∀ t' th', threads k !! t' = Some th' → ts !! t' = Some th').
  { intros t' th' H'. assert (t ≠ t') by (apply Hold; by eexists). unfold ts. by rewrite !lookup_insert_ne. }
  assert (Hbk : ∀ t' th', ts !! t' = Some th' → (t' = t ∧ th' = setStatus nt READY) ∨ threads k !! t' = Some th').
  { intros t' th'. unfold ts. destruct (decide (t = t')) as [Heq|Hn].
    - subst t'. rewrite lookup_insert_eq. intros [= <-]. by left.
    - rewrite !lookup_insert_ne by done. by right. }
  apply effect_tau; try done.
  - split; simpl; try done; fold ts.
    + split; simpl; try done; fold ts.
      * intros t' th' [[_ ->]|H']%Hbk; [done|eauto].
      * intros t' th' a [[_ ->]|H']%Hbk Ha; [done|eauto].
      * intros t' th' a [[_ ->]|H']%Hbk Ha; [done|eauto].
      * intros t1 th1 a1 t2 th2 a2 [[_ ->]|H1]%Hbk Ha1 [[_ ->]|H2]%Hbk Ha2; [done..|eauto].
    + intros _. split; [|exists th; split; [exact (Hlk c th Ht)|done]].
      split; simpl; try done; fold ts.
      * intros t' [= <-]. exists th. exact (Hlk c th Ht).
      * intros t' th' [[-> ->]|H']%Hbk Hne; [left; split_and!; try done; set_solver|].
        destruct (Hpp t' th' H' Hne) as [(H1 & H2 & H3)|H1]; [left|by right].
        split_and!; try done. set_solver.
      * intros t' [Hin| ->%list_elem_of_singleton]%elem_of_app.
        -- destruct (Hr t' Hin) as (th' & H1 & H2 & H3). exists th'. split; [exact (Hlk t' th' H1)|done].
        -- exists (setStatus nt READY). unfold ts. rewrite lookup_insert_eq. split_and!; try done.
           intros [= Heq]. by apply Htc.
      * apply NoDup_app. split; [done|]. split; [|apply NoDup_singleton].
        intros t' Hin ->%list_elem_of_singleton. destruct (Hr t Hin) as (th' & H1 & _). congruence.
      * intros s x t' Hx Hin. destruct (Hq s x t' Hx Hin) as (th' & H1 & H2). exists th'.
        split; [exact (Hlk t' th' H1)|done].
      * intros t' H'. destruct (Htb t' H') as (H0 & th' & H1 & H2). split; [done|]. exists th'.
        split; [exact (Hlk t' th' H1)|done].
      * intros t' th' s [[_ ->]|H']%Hbk; [by intros (? & ? & ?)|]. by apply (Hse t').
      * intros t' th' l' [[_ ->]|H']%Hbk; [done|]. by apply (Hro t').
  - intros s. apply (woken_le _ _ _ [t]); [done|done|].
    intros t' Hin. destruct (Hr t' Hin) as (th' & H1 & _). rewrite (waiting_eq k s t' th' H1).
    apply waiting_eq. exact (Hlk t' th' H1).
  - split.
    + intros t' th' [[_ ->]|H']%Hbk _; [by left|by right; exists th'].
    + intros t' th' H' Hf _. exists th'. split_and!; [exact (Hlk t' th' H')|done|done|].
      intros a _. split; [by left|done].
Qed.

(** StartProcess_2: the running thread gets a page table of its own. *)
Lemma space_effect k table l :
  asleep (ctl k) = false → (∀ s, at_test (ctl k) s = 0%nat) → kinv k → winv k →
  ∃ k', (k1 ← start_space k table; Ok (set_ctl k1 (Exec l))) = Ok k' ∧
    effect nobody (λ t, t = currentThread k) k Tau k'.
Proof.
  intros Hc Hat Hk Hw. destruct (kinv_running k Hc Hk) as (Hp & Hu & Hih & Hcr & th & Ht & Hst & Hom).
  unfold start_space. set (m0 := k_machine k) in *. set (p := fresh (dom (ptables m0))).
  assert (Hnew : ptables m0 !! p = None) by (apply not_elem_of_dom, is_fresh).
  set (a := mkSpace p (Z.of_nat (length table))). set (c := currentThread k) in *.
  rewrite (thread_at_Some _ _ _ Ht). cbn [mbind outcome_bind].
  destruct Hu as [U1 U2 U3 U4 U5]. fold m0 c in U1, U3, U4.
  destruct (InitRegisters_regs a (set_ptables m0 (<[p := table]> (ptables m0)))) as (r & -> & Hr); [apply U1|].
  cbn [mbind outcome_bind]. eexists. split; [done|]. set (th' := set_space th (Some a)).
  assert (Hbk : ∀ t th2, <[c := th']> (threads k) !! t = Some th2 →
    (t = c ∧ th2 = th') ∨ (t ≠ c ∧ threads k !! t = Some th2)).
  { intros t th2. destruct (decide (c = t)) as [<-|Hne].
    - rewrite lookup_insert_eq. intros [= <-]. by left.
    - rewrite lookup_insert_ne by done. auto. }
  assert (Hdiff : ∀ t th2 a2, threads k !! t = Some th2 → th_space th2 = Some a2 → p ≠ as_pageTable a2).
  { intros t th2 a2 H2 Ha2 Heq. destruct (U4 t th2 a2 H2 Ha2) as [tb Htb]. congruence. }
  apply effect_tau; try done.
  - split; simpl; try done; fold c m0.
    + split; simpl; try done; fold c m0.
      * intros t th2 [[-> ->]|[_ H2]]%Hbk; [by apply (U2 c th)|eauto].
      * intros t th2 a2 [[-> ->]|[_ H2]]%Hbk Ha2 Hne; [done|eauto].
      * intros t th2 a2 [[-> ->]|[_ H2]]%Hbk Ha2; [injection Ha2 as <-; simpl; by rewrite lookup_insert_eq|].
        rewrite lookup_insert_ne by eauto. eauto.
      * intros t1 th1 a1 t2 th2 a2 [[-> ->]|[_ H1]]%Hbk Ha1 [[-> ->]|[_ H2]]%Hbk Ha2 Heq; simpl in *; simplify_eq.
        -- done.
        -- by destruct (Hdiff t2 th2 a2).
        -- by destruct (Hdiff t1 th1 a1).
        -- eauto.
    + intros _. split.
      * apply (pinv_update k (Some c) c th th' Hp Ht). right. split; [done|]. intros s Hws.
        exact (pi_sem _ _ _ _ _ Hp c th s Ht Hws).
      * exists th'. rewrite lookup_insert_eq. split_and!; try done. by intros a' [= <-].
  - intros s. apply (woken_le _ _ _ []); [by rewrite app_nil_r|done|].
    intros t Hin. unfold waiting. simpl. rewrite lookup_insert_ne; [done|]. intros Heq. by rewrite <- Heq in Hin.
  - split; simpl; fold c m0.
    + intros t th2 [[-> ->]|[_ H2]]%Hbk _; right; [by exists th|eauto].
    + intros t th2 H2 Hf Hne. exists th2. rewrite lookup_insert_ne by done. split_and!; try done.
      intros a2 Ha2. split; [|by rewrite lookup_insert_ne by eauto]. left. unfold view. simpl. fold c.
      by rewrite bool_decide_false by done.
Qed.

(** User instructions change the registers of the running program only. *)
Lemma user_effect k f l :
  asleep (ctl k) = false → (∀ s, at_test (ctl k) s = 0%nat) → kinv k → winv k →
  effect nobody (λ t, t = currentThread k) k Tau
    (set_ctl (set_kmachine k (set_registers (k_machine k) (user_regs f (registers (k_machine k))))) (Exec l)).
Proof.
  intros Hc Hat Hk Hw. destruct (kinv_running k Hc Hk) as (Hp & [U1 U2 U3 U4 U5] & Hih & Hcr & th & Ht & Hst & Hom).
  apply effect_tau; try done.
  - split; simpl; try done.
    + split; simpl; try done. apply user_regs_ok.
    + intros _. split; [exact Hp|]. by exists th.
  - intros s. rewrite woken_ctl. unfold woken. rewrite Hat. reflexivity.
  - split; simpl; [eauto|]. intros t th2 H2 Hf Hne. exists th2. split_and!; try done. intros a Ha.
    split; [|done]. left. unfold view. simpl. by rewrite bool_decide_false by done.
Qed.

(** Writing over the end of the stack. *)
Lemma stack_effect k w l :
  asleep (ctl k) = false → (∀ s, at_test (ctl k) s = 0%nat) → kinv k → winv k →
  ∃ k', (th ← thread_at k (currentThread k);
         Ok (set_ctl (update k (currentThread k) (set_stack th ((λ _, w) <$> th_stack th))) (Exec l))) = Ok k' ∧
    effect (λ t, t = currentThread k) nobody k Tau k'.
Proof.
  intros Hc Hat Hk Hw. destruct (kinv_running k Hc Hk) as (Hp & Hu & Hih & Hcr & th & Ht & Hst & Hom).
  set (c := currentThread k) in *. rewrite (thread_at_Some _ _ _ Ht). cbn [mbind outcome_bind].
  eexists. split; [done|]. set (th' := set_stack _ _).
  assert (Hbk : ∀ t th2, <[c := th']> (threads k) !! t = Some th2 →
    (t = c ∧ th2 = th') ∨ threads k !! t = Some th2).
  { intros t th2. destruct (decide (c = t)) as [<-|Hne].
    - rewrite lookup_insert_eq. intros [= <-]. by left.
    - rewrite lookup_insert_ne by done. by right. }
  assert (Hsp : ∀ t th2, <[c := th']> (threads k) !! t = Some th2 → ∃ th1, threads k !! t = Some th1 ∧
    th_space th2 = th_space th1 ∧ userRegisters th2 = userRegisters th1).
  { intros t th2 [[-> ->]|H2]%Hbk; [by exists th|by exists th2]. }
  destruct Hu as [U1 U2 U3 U4 U5]. apply effect_tau; try done.
  - split; simpl; try done; fold c.
    + split; simpl; try done; fold c.
      * intros t th2 (th1 & H1 & _ & ->)%Hsp. eauto.
      * intros t th2 a (th1 & H1 & -> & ->)%Hsp. eauto.
      * intros t th2 a (th1 & H1 & -> & _)%Hsp. eauto.
      * intros t1 th1 a1 t2 th2 a2 (u1 & H1 & -> & _)%Hsp Ha1 (u2 & H2 & -> & _)%Hsp. eauto.
    + intros _. split.
      * apply (pinv_update k (Some c) c th th' Hp Ht). by left.
      * exists th'. by rewrite lookup_insert_eq.
  - intros s. apply (woken_le _ _ _ []); [by rewrite app_nil_r|done|].
    intros t Hin. unfold waiting. simpl. rewrite lookup_insert_ne; [done|]. intros Heq. by rewrite <- Heq in Hin.
  - split; simpl; fold c.
    + intros t th2 [[-> ->]|H2]%Hbk Hne; [done|]. right. eauto.
    + intros t th2 H2 Hf _. destruct (decide (c = t)) as [<-|Hne].
      * rewrite lookup_insert_eq. exists th'. simplify_eq. split_and!; try done. intros a Ha. split; [by left|done].
      * rewrite lookup_insert_ne by done. exists th2. split_and!; try done. intros a Ha. split; [by left|done].
Qed.

(** ** Semaphores *)

(** Changing only the value of a semaphore. *)
Lemma pinv_value k r s x v :
  pinv k r → semaphores k !! s = Some x → 0 <= v < 2 ^ 31 →
  pinv (set_sems k (<[s := mkSem v (queue x)]> (semaphores k))) r.
Proof.
  intros [Hh Hpp Hr Hrn Hq Hqn Hv Htb Hse Hro] Hx Hvr.
  assert (Hb : ∀ s' x', <[s := mkSem v (queue x)]> (semaphores k) !! s' = Some x' →
    ∃ x0, semaphores k !! s' = Some x0 ∧ queue x' = queue x0 ∧ (value x' = v ∨ x' = x0)).
  { intros s' x'. destruct (decide (s = s')) as [Heq|Hns].
    - subst s'. rewrite lookup_insert_eq. intros [= <-]. exists x. auto.
    - rewrite lookup_insert_ne by done. intros. exists x'. auto. }
  split; simpl; try done.
  - intros t th2 H2 Hne. destruct (Hpp t th2 H2 Hne) as [H1|[(H1 & s' & x' & H3 & H4 & H5)|H1]];
      [by left| |by right; right]. right; left. split; [done|].
    destruct (decide (s = s')) as [Heq|Hns].
    + subst s'. rewrite Hx in H4. injection H4 as <-. exists s, (mkSem v (queue x)). by rewrite lookup_insert_eq.
    + exists s', x'. by rewrite lookup_insert_ne.
  - intros s' x' t (x0 & H0 & -> & _)%Hb. by apply Hq.
  - intros s' x' (x0 & H0 & -> & _)%Hb. by apply (Hqn s').
  - intros s' x' (x0 & H0 & _ & [->| ->])%Hb; [done|by apply (Hv s')].
  - intros t th s' Ht Hw. apply lookup_insert_is_Some'. right. by eapply Hse.
Qed.

(** The thread in hand, blocked in P(s), is put on the queue of [s]. *)
Lemma pinv_park k s x c th :
  pinv k (Some c) → semaphores k !! s = Some x → threads k !! c = Some th →
  th_status th = BLOCKED → waits_for th s →
  pinv (set_sems k (<[s := mkSem (value x) (queue x ++ [c])]> (semaphores k))) None.
Proof.
  intros [Hh Hpp Hr Hrn Hq Hqn Hv Htb Hse Hro] Hx Hc Hst Hwait.
  assert (Hcq : c ∉ queue x) by (intros Hin; by destruct (Hq s x c Hx Hin) as (? & _ & _ & _ & ?)).
  split; simpl; try done.
  - intros t th2 H2 _. destruct (decide (c = t)) as [Heq|Hne].
    + subst t. simplify_eq. right; left. split; [done|]. eexists s, _. rewrite lookup_insert_eq.
      split_and!; try done. simpl. set_solver.
    + destruct (Hpp t th2 H2) as [H1|[(H1 & s' & x' & H3 & H4 & H5)|H1]];
        [congruence|by left| |by right; right]. right; left. split; [done|].
      destruct (decide (s = s')) as [Heq|Hns].
      * subst s'. rewrite Hx in H4. injection H4 as <-. eexists s, _. rewrite lookup_insert_eq. split_and!; try done. simpl. set_solver.
      * exists s', x'. by rewrite lookup_insert_ne.
  - intros t Hin. destruct (Hr t Hin) as (th2 & ? & ? & _). by exists th2.
  - intros s' x' t. destruct (decide (s = s')) as [Heq|Hns].
    + subst s'. rewrite lookup_insert_eq. intros [= <-] [Hin| ->%list_elem_of_singleton]%elem_of_app.
      * destruct (Hq s x t Hx Hin) as (th2 & ? & ? & ? & _). by exists th2.
      * by exists th.
    + rewrite lookup_insert_ne by done. intros Hx' Hin.
      destruct (Hq s' x' t Hx' Hin) as (th2 & ? & ? & ? & _). by exists th2.
  - intros s' x'. destruct (decide (s = s')) as [Heq|Hns].
    + subst s'. rewrite lookup_insert_eq. intros [= <-]. simpl. apply NoDup_app.
      split; [by eapply Hqn|]. split; [|apply NoDup_singleton].
      by intros t Hin ->%list_elem_of_singleton.
    + rewrite lookup_insert_ne by done. apply Hqn.
  - intros s' x'. destruct (decide (s = s')) as [Heq|Hns].
    + subst s'. rewrite lookup_insert_eq. intros [= <-]. by apply (Hv s x).
    + rewrite lookup_insert_ne by done. apply Hv.
  - intros t Htbd. destruct (Htb t Htbd) as (_ & th2 & ? & ?). split; [done|]. by exists th2.
  - intros t th2 s' Ht Hw. apply lookup_insert_is_Some'. right. by eapply Hse.
  - intros t th2 l H2 _ Hs2. destruct (decide (c = t)) as [Heq|Hne].
    + subst t. simplify_eq. destruct Hwait as (? & ? & ?). congruence.
    + apply (Hro t th2 l H2); [congruence|done].
Qed.

(** The first thread of the queue of [s] becomes ready. *)
Lemma pinv_wake k r s x t th q :
  pinv k r → semaphores k !! s = Some x → queue x = t :: q → threads k !! t = Some th →
  pinv (set_ready (update (set_sems k (<[s := mkSem (value x) q]> (semaphores k))) t
          (setStatus th READY)) (readyList k ++ [t])) r.
Proof.
  intros [Hh Hpp Hr Hrn Hq Hqn Hv Htb Hse Hro] Hx Hqx Ht.
  destruct (Hq s x t Hx ltac:(rewrite Hqx; set_solver)) as (th0 & Ht0 & Hst & (o & l & Hw) & Hnr).
  rewrite Ht in Ht0. injection Ht0 as <-.
  pose proof (Hqn s x Hx) as Hnd. rewrite Hqx in Hnd. apply NoDup_cons in Hnd as [Htq Hnd].
  assert (Hlk : ∀ t' th', threads k !! t' = Some th' → th_status th' ≠ BLOCKED ∨ t ≠ t' →
    <[t := setStatus th READY]> (threads k) !! t' = Some th').
  { intros t' th' H' Hd. rewrite lookup_insert_ne; [done|]. intros <-. destruct Hd; congruence. }
  split; simpl; try done.
  - intros t' ->. destruct (Hh t' eq_refl) as [th' H']. exists th'. apply Hlk; [done|right; congruence].
  - intros t' th' H' Hne. destruct (decide (t = t')) as [Heq|Hn].
    + subst t'. rewrite lookup_insert_eq in H'. injection H' as <-. left. simpl.
      split_and!; [done|set_solver|congruence].
    + rewrite lookup_insert_ne in H' by done.
      destruct (Hpp t' th' H' Hne) as [(H1 & H2 & H3)|[(H1 & s' & x' & H3 & H4 & H5)|H1]];
        [left; split_and!; try done; simpl; set_solver| |by right; right].
      right; left. split; [done|]. destruct (decide (s = s')) as [Heq|Hns].
      * subst s'. rewrite Hx in H4. injection H4 as <-. eexists s, _. rewrite lookup_insert_eq. split_and!; try done.
        simpl. rewrite Hqx in H5. set_solver.
      * exists s', x'. by rewrite lookup_insert_ne.
  - intros t' [Hin| ->%list_elem_of_singleton]%elem_of_app.
    + destruct (Hr t' Hin) as (th' & H1 & H2 & H3). exists th'.
      rewrite (Hlk t' th' H1); [done|left; congruence].
    + exists (setStatus th READY). by rewrite lookup_insert_eq.
  - apply NoDup_app. split; [done|]. split; [|apply NoDup_singleton].
    intros t' Hin ->%list_elem_of_singleton. destruct (Hr t Hin) as (th' & H1 & H2 & _). congruence.
  - intros s' x' t' Hx' Hin.
    assert (Hor : ∃ x0, semaphores k !! s' = Some x0 ∧ t' ∈ queue x0 ∧ t ≠ t').
    { destruct (decide (s = s')) as [Heq|Hns].
      - subst s'. rewrite lookup_insert_eq in Hx'. injection Hx' as <-. exists x. rewrite Hqx.
        simpl in Hin. split_and!; [done|set_solver|congruence].
      - rewrite lookup_insert_ne in Hx' by done. exists x'. split_and!; try done. intros <-.
        destruct (Hq s' x' t Hx' Hin) as (th' & H1 & _ & (o' & l' & H2) & _). congruence. }
    destruct Hor as (x0 & H0 & Hin0 & Hne). destruct (Hq s' x0 t' H0 Hin0) as (th' & H1 & H2).
    exists th'. rewrite (Hlk t' th' H1); [done|by right].
  - intros s' x'. destruct (decide (s = s')) as [Heq|Hns];
      [subst s'; rewrite lookup_insert_eq; by intros [= <-]|rewrite lookup_insert_ne by done; apply Hqn].
  - intros s' x'. destruct (decide (s = s')) as [Heq|Hns].
    + subst s'. rewrite lookup_insert_eq. intros [= <-]. by apply (Hv s x).
    + rewrite lookup_insert_ne by done. apply Hv.
  - intros t' H'. destruct (Htb t' H') as (H0 & th' & H1 & [H2 H3]). split; [done|]. exists th'.
    rewrite (Hlk t' th' H1); [done|right; congruence].
  - intros t' th' s'. destruct (decide (t = t')) as [Heq|Hn]; [subst t'|].
    + rewrite lookup_insert_eq. intros [= <-] Hws. apply lookup_insert_is_Some'. right. by apply (Hse t th).
    + rewrite lookup_insert_ne by done. intros H' Hws. apply lookup_insert_is_Some'. right. by apply (Hse t' th').
  - intros t' th' l'. destruct (decide (t = t')) as [Heq|Hn]; [subst t'|].
    + rewrite lookup_insert_eq. intros [= <-]. by apply (Hro t th).
    + rewrite lookup_insert_ne by done. apply Hro.
Qed.

(** Bookkeeping of the values when only semaphore [s] is stored. *)
Lemma values_insert k e s x x' :
  semaphores k !! s = Some x → value x' = value x + delta e s → (∀ s', s ≠ s' → delta e s' = 0) →
  (∀ s' y', <[s := x']> (semaphores k) !! s' = Some y' →
    ∃ y, semaphores k !! s' = Some y ∧ value y' = value y + delta e s') ∧
  (∀ s', is_Some (semaphores k !! s') → is_Some (<[s := x']> (semaphores k) !! s')).
Proof.
  intros Hx Hv Hd. split; intros s'; destruct (decide (s = s')) as [Heq|Hns];
    try (subst s'; rewrite lookup_insert_eq); try rewrite lookup_insert_ne by done; try done.
  - intros y' [= <-]. by exists x.
  - intros y' Hy. exists y'. split; [done|]. rewrite Hd by done. lia.
Qed.

Lemma P_effect k s old l x :
  ctl k = PLoop s old l → semaphores k !! s = Some x → kinv k → winv k →
  ∃ k', P_loop k s old l = Ok k' ∧ effect nobody nobody k (if value x =? 0 then Tau else EvP s) k'.
Proof.
  intros Hctl Hx Hk Hw. destruct (ki_test _ Hk s old l Hctl) as [Hlev _].
  destruct (kinv_running k) as (Hp & Hu & Hih & Hcr & th & Ht & Hst & Hom); [by rewrite Hctl|done|].
  unfold P_loop, sem_at. rewrite Hx. cbn [mbind outcome_bind]. set (c := currentThread k) in *.
  pose proof (pi_value _ _ _ _ _ Hp s x Hx) as Hvx.
  assert (Hat : ∀ s' x', s ≠ s' → semaphores k !! s' = Some x' → queue x' ≠ [] →
    value x' <= Z.of_nat (length (filter (λ t, waiting k s' t = true) (readyList k)))).
  { intros s' x' Hns Hx' Hqe. pose proof (Hw s' x' Hx' Hqe) as Hle. unfold woken in Hle.
    rewrite Hctl in Hle. simpl in Hle. destruct (Z.eqb_spec s s'); [done|lia]. }
  destruct (Z.eqb_spec (value x) 0) as [Hv0|Hv0].
  - set (th' := set_susp (setStatus th BLOCKED) (InP s old l)).
    set (k1 := set_sems k (<[s := mkSem (value x) (queue x ++ [c])]> (semaphores k))).
    unfold Sleep. change (currentThread k1) with c. change (intLevel k1) with (intLevel k).
    rewrite assert_this, Hlev. cbn [mbind outcome_bind]. rewrite bool_decide_true by done.
    cbn [ASSERT mbind outcome_bind]. rewrite (thread_at_Some k1 c th Ht). cbn [mbind outcome_bind].
    eexists. split; [done|]. fold th'.
    assert (Hp2 : pinv (update k c th') (Some c)).
    { eapply (pinv_update k); [exact Hp|exact Ht|]. right. split; [done|]. intros s' (o & l' & [= <- _ _]).
      by exists x. }
    assert (Hp3 : pinv (set_sems (update k c th') (<[s := mkSem (value x) (queue x ++ [c])]> (semaphores k))) None).
    { apply (pinv_park (update k c th') s x c th' Hp2 Hx); [simpl; by rewrite lookup_insert_eq|done|by exists old, l]. }
    destruct (values_insert k Tau s x (mkSem (value x) (queue x ++ [c])) Hx) as [Hval Hsem]; [simpl; lia|done|].
    split; [|..|exact Hval|exact Hsem|].
    + split; simpl; try done; [by apply (uinv_update k c th th')|]. intros _. rewrite lookup_insert_eq.
      split_and!; [done|exact Hp3|by eexists].
    + intros s' x'. simpl. destruct (decide (s = s')) as [Heq|Hns].
      * subst s'. rewrite lookup_insert_eq. intros [= <-] _. simpl. lia.
      * rewrite lookup_insert_ne by done. intros Hx' Hqe. pose proof (Hat s' x' Hns Hx' Hqe) as Hle.
        unfold woken. simpl. rewrite (filter_waiting_ext k); [lia|].
        intros t Hin. unfold waiting. simpl. rewrite lookup_insert_ne; [done|].
        intros Heq. by rewrite <- Heq in Hin.
    + apply (tframe_update nobody k c th); [done|done|]. intros _ [_ ?]. done.
  - rewrite kSetLevel_ok by done. cbn [mbind outcome_bind]. eexists. split; [done|].
    destruct (values_insert k (EvP s) s x (mkSem (value x - 1) (queue x)) Hx) as [Hval Hsem].
    { simpl. rewrite Z.eqb_refl. lia. }
    { intros s' Hns. simpl. by destruct (Z.eqb_spec s s'). }
    split; [|..|exact Hval|exact Hsem|exact (tframe_refl _ _ k)].
    + split; simpl; try done. intros _. split; [|by exists th].
      exact (pinv_value k (Some c) s x (value x - 1) Hp Hx ltac:(lia)).
    + intros s' x'. simpl. unfold woken. simpl.
      match goal with |- context [waiting ?k' s'] => change (waiting k') with (waiting k) end.
      destruct (decide (s = s')) as [Heq|Hns].
      * subst s'. rewrite lookup_insert_eq. intros [= <-] Hqe. simpl in *.
        pose proof (Hw s x Hx Hqe) as Hle. unfold woken in Hle. rewrite Hctl in Hle. simpl in Hle.
        rewrite Z.eqb_refl in Hle. lia.
      * rewrite lookup_insert_ne by done. intros Hx' Hqe. pose proof (Hat s' x' Hns Hx' Hqe). lia.
Qed.

(** V outside or inside an interrupt handler. *)
Lemma V_pinv k r s x :
  pinv k r → user_inv k → (k_inHandler k = false ∨ intLevel k = IntOff) →
  semaphores k !! s = Some x → value x < 2 ^ 31 - 1 →
  ∃ k' q', V k s = Ok k' ∧ pinv k' r ∧ user_inv k' ∧ tframe nobody nobody k k' ∧
    (currentThread k' = currentThread k ∧ ctl k' = ctl k ∧ k_machine k' = k_machine k ∧
     intLevel k' = intLevel k ∧ k_inHandler k' = k_inHandler k) ∧
    semaphores k' = <[s := mkSem (value x + 1) q']> (semaphores k) ∧
    (∀ t th, threads k !! t = Some th → ∃ th', threads k' !! t = Some th' ∧
       th_susp th' = th_susp th ∧ (Some t = r → th' = th)) ∧
    ((queue x = [] ∧ q' = [] ∧ readyList k' = readyList k) ∨
     ∃ t th, queue x = t :: q' ∧ readyList k' = readyList k ++ [t] ∧
       threads k !! t = Some th ∧ waits_for th s).
Proof.
  intros Hp Hu Hlev Hx Hmax. pose proof (pi_value _ _ _ _ _ Hp s x Hx) as Hvx.
  unfold V, sem_at. rewrite kSetLevel_off. cbn [mbind outcome_bind semaphores set_level]. rewrite Hx.
  cbn [mbind outcome_bind]. set (k0 := set_level k IntOff).
  assert (Hback : ∀ k1, k_inHandler k1 = k_inHandler k →
    kSetLevel k1 (intLevel k) = Ok (intLevel k1, set_level k1 (intLevel k))).
  { intros k1 E. destruct Hlev as [Hl| ->]; [|done]. apply kSetLevel_ok. by rewrite E. }
  destruct (queue x) as [|t q] eqn:Hq.
  - cbn [mbind outcome_bind]. change (semaphores k0) with (semaphores k). rewrite Hx. cbn [mbind outcome_bind].
    destruct (Z.eqb_spec (value x) (2 ^ 31 - 1)); [lia|]. rewrite Hback by done. cbn [mbind outcome_bind].
    eexists _, []. split; [by rewrite Hq|].
    pose proof (pinv_value k r s x (value x + 1) Hp Hx ltac:(lia)) as Hp1. rewrite Hq in Hp1.
    split; [exact Hp1|]. split; [exact Hu|]. split; [exact (tframe_refl _ _ k)|].
    split_and!; try done; [|by left]. intros t th Ht. by exists th.
  - destruct (pi_queue _ _ _ _ _ Hp s x t Hx ltac:(rewrite Hq; set_solver)) as (th & Ht & Hst & Hwf & Hnr).
    pose proof (pinv_wake k0 r s x t th q Hp Hx Hq Ht) as Hp1.
    unfold ReadyToRun. rewrite (thread_at_Some (set_sems k0 _) t th Ht). cbn [mbind outcome_bind].
    set (k1 := set_ready _ _) in *.
    assert (Hx1 : semaphores k1 !! s = Some (mkSem (value x) q)) by (unfold k1; simpl; by rewrite lookup_insert_eq).
    change (set_ready _ _) with k1. rewrite Hx1. cbn [mbind outcome_bind value queue].
    destruct (Z.eqb_spec (value x) (2 ^ 31 - 1)); [lia|]. rewrite Hback by done. cbn [mbind outcome_bind].
    eexists _, q. split; [done|].
    pose proof (pinv_value k1 r s _ (value x + 1) Hp1 Hx1 ltac:(simpl; lia)) as Hp2. simpl in Hp2.
    split; [exact Hp2|]. split; [by apply (uinv_update k t th)|].
    split; [apply (tframe_update nobody k t th); [done|done|by intros _ [? _]]|].
    split; [done|]. split; [unfold k1; simpl; by rewrite insert_insert_eq|]. split.
    + intros t' th' H'. unfold k1; simpl. destruct (decide (t = t')) as [Heq|Hne].
      * subst t'. simplify_eq. rewrite lookup_insert_eq. eexists. split; [done|]. split; [done|]. congruence.
      * rewrite lookup_insert_ne by done. by exists th'.
    + right. by exists t, th.
Qed.

(** V would use a semaphore that does not exist, or overflow its value. *)
Definition V_fault k s : Prop :=
  match semaphores k !! s with None => True | Some x => value x = 2 ^ 31 - 1 end.

Lemma V_fault_Undef k s : V_fault k s → V k s = Undef.
Proof.
  unfold V_fault, V, sem_at. rewrite kSetLevel_off. cbn [mbind outcome_bind semaphores set_level].
  destruct (semaphores k !! s) as [x|] eqn:Hx; [|done]. intros Hmax.
  cbn [mbind outcome_bind]. destruct (queue x) as [|t q] eqn:Hq.
  - cbn [mbind outcome_bind semaphores set_level]. rewrite Hx. cbn [mbind outcome_bind]. by rewrite Hmax.
  - unfold ReadyToRun, thread_at. simpl. destruct (threads k !! t); [|done]. simpl.
    rewrite lookup_insert_eq. simpl. by rewrite Hmax.
Qed.

(** V from any state in which the thread in hand is as the kernel invariant says;
    [h] is whether it runs in an interrupt handler. *)
Lemma V_effect k s h :
  kinv k → winv k → (h = true → intLevel k = IntOff) →
  (V (set_inHandler k h) s = Undef ∧ V_fault k s) ∨
  ∃ k', V (set_inHandler k h) s = Ok k' ∧ effect nobody nobody k (EvV s) (set_inHandler k' false) ∧
    ctl k' = ctl k ∧ intLevel k' = intLevel k ∧ k_inHandler k' = h.
Proof.
  intros Hk Hw Hh. pose proof (kinv_pinv k Hk) as Hp.
  destruct (semaphores k !! s) as [x|] eqn:Hx.
  2: { left. assert (Hf : V_fault k s) by (unfold V_fault; by rewrite Hx). split; [|done]. by apply V_fault_Undef. }
  destruct (Z.eqb_spec (value x) (2 ^ 31 - 1)) as [Hmax|Hmax].
  { left. assert (Hf : V_fault k s) by (unfold V_fault; by rewrite Hx). split; [|done]. by apply V_fault_Undef. }
  right. pose proof (pi_value _ _ _ _ _ Hp s x Hx) as Hvx.
  destruct (V_pinv (set_inHandler k h) (hand k) s x) as
    (k' & q' & HV & Hp' & Hu' & Hf & (Hc & Hctl & Hm & Hl & Hih) & Hs & Hth & Hcase);
    [exact Hp|apply Hk|by (destruct h; [right; apply Hh|left])|exact Hx|lia|].
  exists k'. split; [done|]. split; [|done].
  change (semaphores (set_inHandler k h)) with (semaphores k) in Hs.
  destruct (values_insert k (EvV s) s x (mkSem (value x + 1) q') Hx) as [Hval Hsem].
  { simpl. by rewrite Z.eqb_refl. }
  { intros s' Hns. simpl. by destruct (Z.eqb_spec s s'). }
  simpl in Hc, Hctl, Hm, Hl, Hth, Hcase.
  assert (Hrd : ∃ extra, readyList k' = readyList k ++ extra ∧
    ∀ s', (woken k s' + length (filter (λ t, waiting k s' t = true) extra) <= woken k' s')%nat).
  { assert (Hwt : ∀ s' t, is_Some (threads k !! t) → waiting k' s' t = waiting k s' t).
    { intros s' t [th Ht]. destruct (Hth t th Ht) as (th' & Ht' & Hsu & _).
      by rewrite (waiting_eq k s' t th Ht), (waiting_eq k' s' t th' Ht'), Hsu. }
    destruct Hcase as [(_ & _ & Hrd)|(t & th & _ & Hrd & Ht & _)]; [exists []|exists [t]];
      (split; [by rewrite ?app_nil_r|]); intros s'; unfold woken; rewrite Hctl, Hrd.
    - rewrite (filter_waiting_ext k k') by (intros t Hin; apply Hwt; by apply kinv_ready). simpl. lia.
    - rewrite (filter_waiting_ext k k'); [rewrite filter_app, length_app; lia|].
      intros t' [Hin| ->%list_elem_of_singleton]%elem_of_app; apply Hwt; [by apply kinv_ready|by eexists]. }
  destruct Hrd as (extra & Hrd & Hwk). rewrite <- Hs in Hval, Hsem.
  split; [|..|exact Hval|exact Hsem|exact Hf].
  - destruct Hk as [K1 K2 K3 K4 K5]. unfold hand in *. split; simpl; try done.
    + rewrite Hctl, Hc, Hl. intros Has. rewrite Has in Hp'. destruct (K3 Has) as (HlO & _ & th & Ht).
      destruct (Hth _ th Ht) as (th' & Ht' & _). split_and!; [done|exact Hp'|by exists th'].
    + rewrite Hctl, Hc, Hm. intros Has. rewrite Has in Hp'. destruct (K4 Has) as (_ & th & Ht & Hst).
      split; [exact Hp'|]. rewrite Has in Hth. destruct (Hth _ th Ht) as (th' & Ht' & _ & Heq).
      exists th'. by rewrite (Heq eq_refl) in *.
    + rewrite Hctl, Hl. intros s' old l Hc'. destruct (K5 s' old l Hc') as [HlO Hso]. split; [done|by apply Hsem].
  - intros s' x'. simpl. rewrite Hs. specialize (Hwk s'). destruct (decide (s = s')) as [Heq|Hns].
    + subst s'. rewrite lookup_insert_eq. intros [= <-] Hqe. simpl in *.
      destruct Hcase as [(_ & -> & _)|(t & th & Hq & Hrd' & Ht & o & l & Hsu)]; [done|].
      assert (Hle : value x <= Z.of_nat (woken k s)) by (apply (Hw s x Hx); by rewrite Hq).
      rewrite Hrd in Hrd'. apply app_inv_head in Hrd' as ->.
      rewrite filter_cons_True in Hwk; [simpl in Hwk; change (woken (set_inHandler k' false) s) with (woken k' s); lia|].
      rewrite (waiting_eq k s t th Ht), Hsu. simpl. apply Z.eqb_refl.
    + rewrite lookup_insert_ne by done. intros Hx' Hqe. pose proof (Hw s' x' Hx' Hqe).
      change (woken (set_inHandler k' false) s') with (woken k' s'). lia.
Qed.

(** Changing the control point, the level or the user registers does not concern
    the semaphores. *)
Lemma effect_trans stk usr k e k1 k2 :
  user_inv k → effect nobody nobody k Tau k1 → effect stk usr k1 e k2 → effect stk usr k e k2.
Proof.
  intros Hu [_ _ V1 S1 F1] [Hk Hw V2 S2 F2]. split; try done.
  - intros s x2 H2. destruct (V2 s x2 H2) as (x1 & H1 & E2). destruct (V1 s x1 H1) as (x & Hx & E1).
    exists x. split; [done|]. simpl in E1. lia.
  - auto.
  - apply (tframe_trans _ _ _ k1); [done| |done]. eapply tframe_weaken; [..|exact F1]; by intros t [].
Qed.

Lemma effect_exec stk usr k e k' l v :
  effect stk usr k e k' → (∀ s, at_test (ctl k') s = 0%nat) → asleep (ctl k') = false →
  effect stk usr k e (set_ctl (set_level k' v) (Exec l)).
Proof.
  intros [Hk Hw Hv Hs Hf] Hat Has. split; try done.
  - destruct (kinv_running k' Has Hk) as (Hp & Hu & Hih & _ & Hth). by split.
  - intros s x Hx Hq. specialize (Hw s x Hx Hq). rewrite woken_ctl. unfold woken in Hw.
    rewrite Hat in Hw. exact Hw.
Qed.

(** An interrupt handler, in a state in which handlers run: interrupts are off. *)
Lemma run_handler_effect k v :
  kinv k → winv k → intLevel k = IntOff → (∀ s, at_test (ctl k) s = 0%nat) →
  (run_handler k v = Undef ∧ ∃ s, v = Some s ∧ V_fault k s) ∨
  ∃ k', run_handler k v = Ok k' ∧ effect nobody nobody k (handler_event v) k' ∧
    ctl k' = ctl k ∧ intLevel k' = IntOff.
Proof.
  intros Hk Hw Hl Hat. unfold run_handler. pose proof (ki_user _ Hk) as Hu.
  rewrite DelayedLoad_completes by apply Hu. cbn [mbind outcome_bind].
  set (k1 := set_kmachine k (set_registers (k_machine k) (load_completed (registers (k_machine k))))).
  assert (H1 : effect nobody nobody k Tau k1).
  { destruct Hk as [K1 [U1 U2 U3 U4 U5] K3 K4 K5]. apply effect_tau; try done.
    - split; try done. split; try done. by apply load_completed_ok.
    - split; [eauto|]. intros t th Ht Hf _. exists th. split_and!; try done. intros a Ha. split; [|done].
      unfold view. simpl. case_bool_decide; [by right|by left]. }
  destruct v as [s|]; [|right].
  - destruct (V_effect k1 s true) as [[-> Hf]|(k' & -> & He & Hc & Hl' & Hh)]; [apply H1|apply H1|done|..].
    + left. split; [done|]. by exists s.
    + right. cbn [mbind outcome_bind]. eexists. split; [done|]. split; [by eapply effect_trans|]. split; [done|].
      simpl. by rewrite Hl'.
  - cbn [mbind outcome_bind]. eexists. split; [done|]. split; [|done].
    destruct H1 as [[K1 K2 K3 K4 K5] A2 A3 A4 A5]. by split.
Qed.

Lemma tick_effect k v l :
  ctl k = Exec l → kinv k → winv k →
  (tick_handler k v = Undef ∧ ∃ s, v = Some s ∧ V_fault k s) ∨
  ∃ k', tick_handler k v = Ok k' ∧ effect nobody nobody k (handler_event v) k' ∧ ctl k' = Exec l ∧
    intLevel k' = IntOn.
Proof.
  intros Hctl Hk Hw. unfold tick_handler.
  assert (H0 : effect nobody nobody k Tau (set_level k IntOff)).
  { eapply exec_effect; try done; by rewrite Hctl. }
  destruct (run_handler_effect (set_level k IntOff) v) as [[-> Hf]|(k' & -> & He & Hc & _)];
    [apply H0|apply H0|done|by (intros s; simpl; rewrite Hctl)|by left|].
  right. cbn [mbind outcome_bind]. eexists. split; [done|]. simpl in Hc. rewrite Hctl in Hc. split; [|done].
  pose proof (effect_exec _ _ _ _ k' l IntOn (effect_trans _ _ _ _ _ _ (ki_user _ Hk) H0 He)) as H1.
  rewrite Hc in H1. specialize (H1 ltac:(done) eq_refl). destruct k'. simpl in Hc. by rewrite Hc.
Qed.

(** A time slice. *)
Lemma slice_effect k l :
  ctl k = Exec l → kinv k → winv k →
  (time_slice k l = Aborted ∧ overflowed k ∧ readyList k ≠ []) ∨
  ∃ k', time_slice k l = Ok k' ∧ effect nobody nobody k Tau k'.
Proof.
  intros Hctl Hk Hw. unfold time_slice.
  destruct (tick_effect k None l Hctl Hk Hw) as [[_ (? & ? & _)]|(k1 & Ht & He & Hc & _)]; [done|].
  rewrite Ht. cbn [mbind outcome_bind].
  assert (Hsame : threads k1 = threads k ∧ currentThread k1 = currentThread k ∧ readyList k1 = readyList k).
  { unfold tick_handler, run_handler in Ht.
    rewrite DelayedLoad_completes in Ht by apply (ki_user _ Hk). cbn [mbind outcome_bind] in Ht.
    injection Ht as <-. done. }
  destruct Hsame as (E1 & E2 & E3).
  destruct (yield_effect k1 l) as [(Hab & (th & w & H1 & H2) & H3)|(k2 & Hy & He2)];
    [by rewrite Hc|by (intros s; rewrite Hc)|apply He|apply He|..].
  - left. split_and!; [done|exists th, w; by rewrite <- E1, <- E2|by rewrite <- E3].
  - right. exists k2. split; [done|]. eapply effect_trans; [apply Hk|exact He|exact He2].
Qed.

Lemma inHandler_id k : k_inHandler k = false → set_inHandler k false = k.
Proof. destruct k. simpl. by intros ->. Qed.

Context (code : L → kop L).

(** The next operation of the running thread uses a semaphore that does not exist,
    or would overflow its value. *)
Definition sem_fault k : Prop :=
  ∃ l s l', ctl k = Exec l ∧
    ((code l = OpP s l' ∧ semaphores k !! s = None) ∨ (code l = OpV s l' ∧ V_fault k s)).

(** The current thread is about to give up the processor to another thread, and
    has overwritten the fencepost of its stack. *)
Definition stack_fault k : Prop :=
  overflowed k ∧ readyList k ≠ [] ∧
  (ctl k = SleepLoop ∨ ∃ l l', ctl k = Exec l ∧ code l = OpYield l').

(** The threads whose stack the step of the running thread may overwrite, and
    those whose user state it may change or that it may end. *)
Definition stack_step k t : Prop :=
  t = currentThread k ∧ ∃ l w l', ctl k = Exec l ∧ code l = OpStack w l'.

Definition user_step k t : Prop :=
  t = currentThread k ∧ ∃ l, ctl k = Exec l ∧
    ((∃ f l', code l = OpUser f l') ∨ (∃ table l', code l = OpSpace table l') ∨ code l = OpFinish).

Lemma step_effect k :
  kinv k → winv k →
  (∃ k', step code k = Ok k' ∧ effect (stack_step k) (user_step k) k (label code k) k') ∨
  (step code k = Undef ∧ sem_fault k) ∨ (step code k = Aborted ∧ stack_fault k).
Proof.
  intros Hk Hw. unfold step, label.
  assert (Hweak : ∀ stk usr e k', (∀ t, stk t → stack_step k t) → (∀ t, usr t → user_step k t) →
    effect stk usr k e k' → effect (stack_step k) (user_step k) k e k').
  { intros stk usr e k' H1 H2 [A1 A2 A3 A4 A5]. split; try done. by eapply tframe_weaken. }
  assert (Hnob : ∀ k' e, effect nobody nobody k e k' → effect (stack_step k) (user_step k) k e k')
    by (intros k' e; apply Hweak; by intros t []).
  destruct (ctl k) as [l|s old l| |] eqn:Hctl.
  - assert (Has : asleep (ctl k) = false) by by rewrite Hctl.
    assert (Hat : ∀ s, at_test (ctl k) s = 0%nat) by by rewrite Hctl.
    destruct (kinv_running k Has Hk) as (Hp & Hu & Hih & _ & _).
    assert (Hus : ∀ o, code l = o → ((∃ f l', o = OpUser f l') ∨ (∃ table l', o = OpSpace table l') ∨ o = OpFinish) →
      ∀ t, t = currentThread k → user_step k t).
    { intros o Ho Hor t ->. split; [done|]. exists l. split; [done|]. by rewrite Ho. }
    destruct (code l) as [l'|s l'|s l'|l'|func l'|table l'|f l'|w l'|now l'|] eqn:Hcode.
    + left. eexists. split; [done|]. apply Hnob. by eapply exec_effect.
    + unfold P, sem_at. destruct (semaphores k !! s) as [x|] eqn:Hx; cbn [mbind outcome_bind].
      2: { right; left. split; [done|]. exists l, s, l'. split; [done|]. left. by split. }
      rewrite kSetLevel_off. cbn [mbind outcome_bind]. left. eexists. split; [done|]. apply Hnob.
      destruct (kinv_running k Has Hk) as (_ & _ & _ & _ & th & Ht & Hst & Hom).
      apply effect_tau; try done.
      * split; simpl; try done; [intros _; split; [exact Hp|by exists th]|].
        intros s' old' l2 [= <- _ _]. by rewrite Hx.
      * intros s'. rewrite woken_ctl. unfold woken. rewrite Hat.
        change (waiting (set_level k IntOff)) with (waiting k). simpl. lia.
      * exact (tframe_refl _ _ k).
    + pose proof (inHandler_id k Hih) as Hk'.
      destruct (V_effect k s false Hk Hw ltac:(done)) as [[Hv Hf]|(k' & Hv & He & Hc & Hl & Hh)]; rewrite Hk' in Hv; rewrite Hv.
      * right; left. split; [done|]. exists l, s, l'. split; [done|]. right. by split.
      * cbn [mbind outcome_bind]. left. eexists. split; [done|]. apply Hnob.
        pose proof (effect_exec _ _ _ _ _ l' (intLevel k') He) as H1. simpl in H1. rewrite Hc, Hctl in H1.
        specialize (H1 ltac:(done) eq_refl). destruct k'. simpl in Hh. subst. exact H1.
    + destruct (yield_effect k l' Has Hat Hk Hw) as [(Hab & Hov & Hr)|(k' & Hy & He)].
      * right; right. split; [done|]. split_and!; try done. right. by exists l, l'.
      * left. exists k'. split; [done|]. by apply Hnob.
    + destruct (fork_effect k func (replicate (Z.to_nat NumTotalRegs) 0) l' Has Hat Hk Hw) as (k' & H1 & He); [done|].
      left. exists k'. split; [exact H1|]. by apply Hnob.
    + destruct (space_effect k table l' Has Hat Hk Hw) as (k' & H1 & He). left. exists k'. split; [exact H1|].
      eapply Hweak; [..|exact He]; [by intros t []|]. apply (Hus _ eq_refl). eauto.
    + left. eexists. split; [done|]. eapply Hweak; [..|by apply user_effect]; [by intros t []|].
      apply (Hus _ eq_refl). eauto.
    + destruct (stack_effect k w l' Has Hat Hk Hw) as (k' & H1 & He). left. exists k'. split; [exact H1|].
      eapply Hweak; [..|exact He]; [|by intros t []]. intros t ->. split; [done|]. by exists l, w, l'.
    + rewrite kSetLevel_ok by done. cbn [mbind outcome_bind]. left. eexists. split; [done|]. apply Hnob.
      by eapply exec_effect.
    + destruct (finish_effect k Has Hat Hk Hw) as (k' & H1 & He). left. exists k'. split; [exact H1|].
      eapply Hweak; [..|exact He]; [by intros t []|]. apply (Hus _ eq_refl). eauto.
  - destruct (ki_test _ Hk s old l Hctl) as [_ [x Hx]]. rewrite Hx.
    destruct (P_effect k s old l x Hctl Hx Hk Hw) as (k' & H1 & He). left. exists k'. split; [done|]. by apply Hnob.
  - destruct (sleep_loop_effect k Hctl Hk Hw) as [(Hab & Hov & Hr)|(k' & H1 & He)].
    + right; right. split; [done|]. split_and!; try done. by left.
    + left. exists k'. split; [done|]. by apply Hnob.
  - left. eexists. split; [done|]. apply Hnob. by apply idle_effect.
Qed.

Lemma irq_effect k e k' : kinv k → winv k → irq k e k' → effect nobody nobody k e k'.
Proof.
  intros Hk Hw Hst. destruct Hst as [v l k' Hctl Hl Hh|l k' Hctl Hl Hs|v k' Hctl Hh].
  - destruct (tick_effect k v l Hctl Hk Hw) as [[Hf _]|(k2 & H2 & He & _)]; [by rewrite Hh in Hf|].
    rewrite Hh in H2. by injection H2 as <-.
  - destruct (slice_effect k l Hctl Hk Hw) as [[Hf _]|(k2 & H2 & He)]; [by rewrite Hs in Hf|].
    rewrite Hs in H2. by injection H2 as <-.
  - destruct (ki_asleep _ Hk ltac:(by rewrite Hctl)) as (Hl & _).
    destruct (run_handler_effect k v Hk Hw Hl) as [[Hf _]|(k2 & H2 & He & _)];
      [by (intros s; rewrite Hctl)|by rewrite Hh in Hf|].
    rewrite Hh in H2. by injection H2 as <-.
Qed.

(** Every step of the relation has its effect. *)
Lemma kstep_effect k e k' :
  kinv k → winv k → kstep code k e k' → effect (stack_step k) (user_step k) k e k'.
Proof.
  intros Hk Hw [k2 Hst|e' k2 Hi].
  - destruct (step_effect k Hk Hw) as [(k3 & H3 & He)|[[Hf _]|[Hf _]]]; rewrite Hst in *; try done.
    by injection H3 as <-.
  - destruct (irq_effect k e' k2 Hk Hw Hi) as [A1 A2 A3 A4 A5]. split; try done.
    eapply tframe_weaken; [..|exact A5]; by intros t [].
Qed.

(** Over a run, the value of a semaphore counts its events. *)
Lemma ksteps_effect k es k' :
  kinv k → winv k → ksteps code k es k' →
  kinv k' ∧ winv k' ∧ (∀ s x', semaphores k' !! s = Some x' →
    ∃ x, semaphores k !! s = Some x ∧
      value x' = value x + foldr (λ e acc, delta e s + acc) 0 es) ∧
  ∀ s, is_Some (semaphores k !! s) → is_Some (semaphores k' !! s).
Proof.
  intros Hk Hw Hrun. induction Hrun as [|es e k1 k2 Hrun (Hk1 & Hw1 & IH & IHs) Hst].
  { split_and!; try done. intros s x Hx. exists x. simpl. split; [done|lia]. }
  destruct (kstep_effect k1 e k2 Hk1 Hw1 Hst) as [Hk2 Hw2 Hv2 Hs2 _]. split_and!; try done; [|by auto].
  intros s x2 Hx2. destruct (Hv2 s x2 Hx2) as (x1 & Hx1 & Hv). destruct (IH s x1 Hx1) as (x & Hx & Hv').
  exists x. split; [done|]. rewrite foldr_app. simpl. rewrite Hv, Hv'.
  assert (Hsum : ∀ (es : list event) a, foldr (λ e acc, delta e s + acc) a es =
    foldr (λ e acc, delta e s + acc) 0 es + a).
  { intros es' a. induction es' as [|e' es' IHe]; simpl; lia. }
  rewrite (Hsum es (delta e s + 0)). lia.
Qed.

(** Occurrences of an event. *)
Definition count (e : event) (es : list event) : Z :=
  Z.of_nat (length (filter (λ e', e' = e) es)).

Lemma delta_count s (es : list event) :
  foldr (λ e acc, delta e s + acc) 0 es = count (EvV s) es - count (EvP s) es.
Proof.
  unfold count. induction es as [|e es IH]; [done|]. cbn [foldr]. rewrite IH, !filter_cons.
  destruct e as [|s'|s']; simpl delta; try (destruct (Z.eqb_spec s' s) as [->|Hne]);
    repeat case_decide; simplify_eq; cbn [length]; lia.
Qed.

Lemma delta_bound s (es : list event) : foldr (λ e acc, delta e s + acc) 0 es <= Z.of_nat (length es).
Proof.
  induction es as [|e es IH]; [done|]. cbn [foldr length].
  assert (delta e s <= 1) by (destruct e as [|s'|s']; simpl; try destruct (s' =? s); lia). lia.
Qed.

(** All fenceposts are in place. *)
Definition fences k : Prop := ∀ t th, threads k !! t = Some th → CheckOverflow th = Ok tt.

Lemma fences_overflowed k : fences k → overflowed k → False.
Proof.
  intros Hf (th & w & Ht & Hw & Hne). specialize (Hf _ _ Ht). unfold CheckOverflow in Hf. rewrite Hw in Hf.
  by destruct (Z.eqb_spec w STACK_FENCEPOST).
Qed.

Lemma ksteps_fences k es k' :
  kinv k → winv k → ksteps code k es k' → (∀ l w l', code l ≠ OpStack w l') → fences k → fences k'.
Proof.
  intros Hk Hw Hrun Hno Hf. induction Hrun as [|es e k1 k2 Hrun IH Hst]; [done|].
  destruct (ksteps_effect k es k1 Hk Hw Hrun) as (Hk1 & Hw1 & _).
  destruct (kstep_effect k1 e k2 Hk1 Hw1 Hst) as [_ _ _ _ [Hs _]]. intros t th' Ht'.
  destruct (Hs t th' Ht') as [Hw'|(th & Ht & Hw')].
  - intros [_ (l & w & l' & _ & Hc)]. by apply (Hno l w l').
  - unfold CheckOverflow. by rewrite Hw'.
  - unfold CheckOverflow. rewrite Hw'. exact (IH t th Ht).
Qed.

(** ** Theorems *)

(** Every way a step can fail.  The running thread's next step: with Aborted only
    for an overwritten fencepost found at a context switch, with Undef only for a
    semaphore that does not exist or is at the largest int.  Likewise a time slice
    and an interrupt, at the points where the hardware makes them. *)
Definition step_safe k : Prop :=
  match step code k with
  | Ok _ => True | Aborted => stack_fault k | Undef => sem_fault k | _ => False
  end ∧
  (∀ l, ctl k = Exec l → intLevel k = IntOn →
     match time_slice k l with Ok _ => True | Aborted => overflowed k ∧ readyList k ≠ [] | _ => False end) ∧
  (∀ l v, ctl k = Exec l → intLevel k = IntOn →
     match tick_handler k v with Ok _ => True | Undef => ∃ s, v = Some s ∧ V_fault k s | _ => False end) ∧
  (∀ v, ctl k = Idling →
     match run_handler k v with Ok _ => True | Undef => ∃ s, v = Some s ∧ V_fault k s | _ => False end).

(** Code that stays within its stacks and uses the semaphores that there are, for
    a run of [n] steps. *)
Definition orderly k (n : nat) : Prop :=
  fences k ∧ (∀ l w l', code l ≠ OpStack w l') ∧
  (∀ l s l', code l = OpP s l' ∨ code l = OpV s l' → is_Some (semaphores k !! s)) ∧
  (∀ s x, semaphores k !! s = Some x → value x + Z.of_nat n < 2 ^ 31 - 1).

Lemma kinv_step_safe k : kinv k → winv k → step_safe k.
Proof.
  intros Hk Hw. split_and!.
  - by destruct (step_effect k Hk Hw) as [(k2 & -> & _)|[[-> ?]|[-> ?]]].
  - intros l Hctl _. by destruct (slice_effect k l Hctl Hk Hw) as [[-> ?]|(k2 & -> & _)].
  - intros l v Hctl _. by destruct (tick_effect k v l Hctl Hk Hw) as [[-> ?]|(k2 & -> & _)].
  - intros v Hctl. destruct (ki_asleep _ Hk ltac:(by rewrite Hctl)) as (Hl & _).
    by destruct (run_handler_effect k v Hk Hw Hl ltac:(by (intros s; rewrite Hctl))) as [[-> ?]|(k2 & -> & _)].
Qed.

(** C5: kernel safety.  Starting from a kernel that satisfies the invariant,
    whatever the threads do, however they are preempted and whatever interrupt
    handlers run, the invariant holds in every state reached, and a step of the
    running thread, a time slice or an interrupt can fail only in these ways: the
    thread that gives up the processor has overwritten the fencepost of its own
    stack (CheckOverflow aborts), or a semaphore that does not exist is used, or a
    V increments the largest int.  All other assertions hold: those of Finish,
    Yield and Sleep on currentThread, of Sleep on the interrupt level, of SetLevel
    on handlers and of ~Thread; no deleted thread is dispatched, woken, queued or
    deleted again, and no page table is deleted twice.  Code that stays within its
    stacks and uses existing semaphores never fails at all. *)
Theorem kernel_safe k es k' :
  kinv k → winv k → ksteps code k es k' →
  kinv k' ∧ winv k' ∧ step_safe k' ∧
  (orderly k (length es) →
     (∃ k'', step code k' = Ok k'') ∧
     ∀ l, ctl k' = Exec l → intLevel k' = IntOn → ∃ k'', time_slice k' l = Ok k'').
Proof.
  intros Hk Hw Hrun. destruct (ksteps_effect k es k' Hk Hw Hrun) as (Hk' & Hw' & Hv & Hs).
  pose proof (kinv_step_safe k' Hk' Hw') as Hsafe. split_and!; try done.
  intros (Hf & Hno & Hsem & Hmax). pose proof (ksteps_fences k es k' Hk Hw Hrun Hno Hf) as Hf'.
  destruct Hsafe as (S1 & S2 & _). split.
  - destruct (step code k') as [k2| | | |]; try done; [by exists k2|..]; exfalso.
    + by apply (fences_overflowed k' Hf'), S1.
    + destruct S1 as (l & s & l' & Hctl & Hor).
      destruct (Hs s) as [x' Hx']; [apply (Hsem l s l'); naive_solver|].
      destruct Hor as [[_ Hn]|[_ Hn]]; [congruence|]. unfold V_fault in Hn. rewrite Hx' in Hn.
      destruct (Hv s x' Hx') as (x & Hx & Hval). pose proof (delta_bound s es). specialize (Hmax s x Hx). lia.
  - intros l Hctl Hl. specialize (S2 l Hctl Hl). destruct (time_slice k' l) as [k2| | | |]; try done; [by exists k2|].
    exfalso. by apply (fences_overflowed k' Hf'), S2.
Qed.

(** C30: every thread is in exactly one place.  In every reachable state a thread
    is the running one, or on the ready list once, or on the queue of exactly
    one semaphore once, or finished: one of the four, and no two of them.  The
    ready list and the queues hold only live threads. *)
Theorem thread_in_one_place k es k' t th :
  kinv k → winv k → ksteps code k es k' → threads k' !! t = Some th →
  let running := asleep (ctl k') = false ∧ t = currentThread k' in
  let ready := t ∈ readyList k' in
  let queued s := ∃ x, semaphores k' !! s = Some x ∧ t ∈ queue x in
  let done_ := finished th in
  (running ∨ ready ∨ (∃ s, queued s) ∨ done_) ∧
  ¬ (running ∧ ready) ∧ (∀ s, ¬ (running ∧ queued s)) ∧ ¬ (running ∧ done_) ∧
  (∀ s, ¬ (ready ∧ queued s)) ∧ ¬ (ready ∧ done_) ∧ (∀ s, ¬ (queued s ∧ done_)) ∧
  (∀ s s', queued s → queued s' → s = s') ∧
  NoDup (readyList k') ∧ (∀ s x, semaphores k' !! s = Some x → NoDup (queue x)) ∧
  (∀ t', t' ∈ readyList k' → is_Some (threads k' !! t')) ∧
  (∀ s x t', semaphores k' !! s = Some x → t' ∈ queue x → is_Some (threads k' !! t')).
Proof.
  intros Hk Hw Hrun Ht. destruct (ksteps_effect k es k' Hk Hw Hrun) as (Hk' & _ & _).
  pose proof (kinv_pinv k' Hk') as [Hh Hp Hrd Hrn Hq Hqn Hv Htb Hse Hro].
  assert (Hr : asleep (ctl k') = false → hand k' = Some (currentThread k')) by (unfold hand; by intros ->).
  cbv zeta. split_and!; try done.
  - destruct (decide (Some t = hand k')) as [Heq|Hne].
    + left. unfold hand in Heq. destruct (asleep (ctl k')); [done|]. split; [done|congruence].
    + destruct (Hp t th Ht Hne) as [(_ & ? & _)|[(_ & s & x & _ & ? & ?)|H1]]; [auto| |by auto].
      right; right; left. exists s. by exists x.
  - intros [[Hc ->] Hin]. destruct (Hrd _ Hin) as (? & _ & _ & Hne). by rewrite (Hr Hc) in Hne.
  - intros s [[Hc ->] (x & Hx & Hin)]. destruct (Hq s x _ Hx Hin) as (? & _ & _ & _ & Hne).
    by rewrite (Hr Hc) in Hne.
  - intros [[Hc ->] [Hf _]]. destruct (ki_awake _ Hk' Hc) as (_ & th' & H1 & H2 & _). congruence.
  - intros s [Hin (x & Hx & Hinq)]. destruct (Hrd t Hin) as (th1 & H1 & H2 & _).
    destruct (Hq s x t Hx Hinq) as (th2 & H3 & H4 & _). congruence.
  - intros [Hin [Hb _]]. destruct (Hrd t Hin) as (th1 & H1 & H2 & _). congruence.
  - intros s [(x & Hx & Hin) [_ Hf]]. destruct (Hq s x t Hx Hin) as (th1 & H1 & _ & (o & l & H2) & _). congruence.
  - intros s s' (x & Hx & Hin) (x' & Hx' & Hin').
    destruct (Hq s x t Hx Hin) as (th1 & H1 & _ & (o & l & H2) & _).
    destruct (Hq s' x' t Hx' Hin') as (th2 & H3 & _ & (o' & l' & H4) & _). congruence.
  - intros t' Hin. by destruct (Hrd t' Hin) as (th' & -> & _).
  - intros s x t' Hx Hin. by destruct (Hq s x t' Hx Hin) as (th' & -> & _).
Qed.

(** C6: semaphores count.  At every point of every run the value of a semaphore
    is its initial value plus the completed V operations minus the completed P
    operations, and it is never negative: at most as many P operations complete
    as the initial value and the V operations allow.  With initial value 1 this
    is mutual exclusion. *)
Theorem semaphore_counts k es k' s x' :
  kinv k → winv k → ksteps code k es k' → semaphores k' !! s = Some x' →
  ∃ x, semaphores k !! s = Some x ∧
    value x' = value x + count (EvV s) es - count (EvP s) es ∧ 0 <= value x' ∧
    count (EvP s) es <= value x + count (EvV s) es.
Proof.
  intros Hk Hw Hrun Hx'. destruct (ksteps_effect k es k' Hk Hw Hrun) as (Hk' & _ & Hv & _).
  destruct (Hv s x' Hx') as (x & Hx & Hval). exists x. rewrite delta_count in Hval.
  pose proof (pi_value _ _ _ _ _ (kinv_pinv k' Hk') s x' Hx') as Hr.
  split_and!; try done; lia.
Qed.

(** C7: no lost wakeup.  If threads wait in the queue of a semaphore whose value
    is positive, then some thread woken from that queue (or arriving in P) is
    ready or running and about to test the value: the semaphore never stays
    available while its waiters sleep. *)
Theorem no_lost_wakeup k es k' s x :
  kinv k → winv k → ksteps code k es k' → semaphores k' !! s = Some x →
  queue x ≠ [] → 0 < value x →
  (∃ old l, ctl k' = PLoop s old l) ∨
  (∃ t th, t ∈ readyList k' ∧ threads k' !! t = Some th ∧ waits_for th s).
Proof.
  intros Hk Hw Hrun Hx Hq Hpos. destruct (ksteps_effect k es k' Hk Hw Hrun) as (_ & Hw' & _).
  pose proof (Hw' s x Hx Hq) as Hle. unfold woken in Hle.
  destruct (at_test (ctl k') s) eqn:Hat.
  - right. destruct (filter (λ t, waiting k' s t = true) (readyList k')) as [|t ts] eqn:Hf; [simpl in Hle; lia|].
    assert (Hin : t ∈ filter (λ t, waiting k' s t = true) (readyList k')) by (rewrite Hf; set_solver).
    apply list_elem_of_filter in Hin as [Hwt Hin]. unfold waiting in Hwt.
    destruct (threads k' !! t) as [th|] eqn:Ht; [|done]. exists t, th. split_and!; try done.
    destruct (th_susp th) as [|s' o l| |] eqn:Hs; try done. simpl in Hwt. apply Z.eqb_eq in Hwt as ->. by exists o, l.
  - left. destruct (ctl k') as [|s' o l| |]; try done. simpl in Hat. destruct (Z.eqb_spec s' s); [|done].
    subst s'. by exists o, l.
Qed.

(** Runs in which thread [t] itself runs no user instructions, starts no program
    and does not finish: it may block, yield, be preempted and do anything else in
    the kernel, and the others run as they like. *)
Inductive undisturbed t k : Kernel L → Prop :=
| ud_refl : undisturbed t k k
| ud_step k1 k2 : undisturbed t k k1 → step code k1 = Ok k2 → ¬ user_step k1 t → undisturbed t k k2
| ud_irq k1 e k2 : undisturbed t k k1 → irq k1 e k2 → undisturbed t k k2.

(** C31: context switches are transparent to user programs.  However often the
    thread of a user program gives up the processor (in P, in Yield or by a time
    slice) and whatever the other programs do to the machine meanwhile, it keeps
    its address space and its page table, and the registers its program sees, on
    the machine while it is the current thread and in its saved state otherwise,
    are the 40 registers it had, with at most its own delayed load completed by an
    interrupt; and whenever it runs, the machine translates with its page table. *)
Theorem user_state_preserved k k' t th a :
  kinv k → winv k → threads k !! t = Some th → ¬ finished th → th_space th = Some a →
  undisturbed t k k' →
  ∃ th', threads k' !! t = Some th' ∧ ¬ finished th' ∧ th_space th' = Some a ∧
    same_view (view k t th) (view k' t th') ∧
    ptables (k_machine k') !! as_pageTable a = ptables (k_machine k) !! as_pageTable a ∧
    (currentThread k' = t → asleep (ctl k') = false →
       pageTable (k_machine k') = Some (as_pageTable a) ∧ pageTableSize (k_machine k') = numPages a).
Proof.
  intros Hk Hw Ht Hf Ha Hrun.
  assert (Hall : kinv k' ∧ winv k' ∧ tframe (λ _, True) (λ t', t' ≠ t) k k').
  { induction Hrun as [|k1 k2 Hrun (Hk1 & Hw1 & F1) Hst Hno|k1 e k2 Hrun (Hk1 & Hw1 & F1) Hirq].
    - split_and!; try done. apply tframe_refl.
    - destruct (step_effect k1 Hk1 Hw1) as [(k3 & H3 & [A1 A2 _ _ A5])|[[Hf' _]|[Hf' _]]]; rewrite Hst in *; try done.
      injection H3 as <-. split_and!; try done. eapply tframe_trans; [apply Hk|exact F1|].
      eapply tframe_weaken; [..|exact A5]; [done|]. by intros t' Hu ->.
    - destruct (irq_effect k1 e k2 Hk1 Hw1 Hirq) as [A1 A2 _ _ A5]. split_and!; try done.
      eapply tframe_trans; [apply Hk|exact F1|]. eapply tframe_weaken; [..|exact A5]; [done|by intros t' []]. }
  destruct Hall as (Hk' & _ & _ & Hkeep). destruct (Hkeep t th Ht Hf) as (th' & Ht' & Hf' & Ha' & Hv); [by intros []|].
  destruct (Hv a Ha) as [Hview Htab]. exists th'. split_and!; try done; [congruence|].
  intros Hc Has. destruct (ki_awake _ Hk' Has) as (_ & th2 & H2 & _ & Hom). subst t.
  rewrite Ht' in H2. injection H2 as <-. apply Hom. congruence.
Qed.
End Inv.

(** ** Examples *)

(** Thread 0 calls V(7) and goes on; threads that start at 20 yield, run user
    instructions and yield again; the others finish. *)
Definition demo_code (l : Z) : kop Z :=
  if l =? 0 then OpV 7 1 else if l =? 1 then OpFork 3 2 else if l =? 2 then OpFork 3 3
  else if l =? 20 then OpYield 21 else if l =? 30 then OpUser (λ _ _, 9) 31 else if l =? 31 then OpYield 32
  else OpFinish.

Definition demo_thread (st : ThreadStatus) (sp : option AddrSpace) (v : Z) (su : suspension Z) : Thread Z :=
  mkThread (Some STACK_FENCEPOST) st (load_completed (replicate 40 v)) sp su.

(** A machine of which only the registers and one page table matter here. *)
Definition cpu : Machine := mkMachine (load_completed (replicate 40 7)) [] None (Some 4) 2 {[ 4 := [] ]} false.

(** Thread 0 runs; threads 1 and 2 wait for semaphore 7. *)
Definition demo_kernel : Kernel Z :=
  mkKernel {[ 0 := demo_thread RUNNING None 0 (AtThreadRoot 0);
              1 := demo_thread BLOCKED (Some (mkSpace 4 2)) 5 (InP 7 IntOn 10);
              2 := demo_thread BLOCKED None 6 (InP 7 IntOn 10) ]}
    0 (Exec 0) [] None {[ 7 := mkSem 0 [1; 2] ]} cpu IntOn false.

(** Case analysis on a lookup in one of these maps. *)
Ltac map_cases H :=
  repeat (apply lookup_insert_Some in H as [[? ?]|[? H]]);
  try (apply lookup_singleton_Some in H as [? ?]); try (by apply lookup_empty_Some in H); simplify_eq.

Lemma completed_ok v : regs_ok (load_completed (replicate 40 v)).
Proof.
  split; [unfold load_completed; by rewrite !length_insert|].
  rewrite load_completed_lookup; [done|done|auto].
Qed.

Lemma demo_kinv : kinv demo_kernel.
Proof.
  assert (Hin1 : 1 ∈ [1; 2]) by repeat constructor. assert (Hin2 : 2 ∈ [1; 2]) by repeat constructor.
  split; cbn [demo_kernel k_inHandler ctl intLevel asleep]; try done.
  - split; cbn [demo_kernel k_machine threads currentThread].
    + apply completed_ok.
    + intros t th H. map_cases H; apply completed_ok.
    + intros t th a H Ha _. map_cases H; apply completed_ok.
    + intros t th a H Ha. map_cases H; simpl in Ha; simplify_eq; by eexists.
    + intros t th a t' th' a' H Ha H' Ha' _. map_cases H; try done; map_cases H'; done.
  - intros _. split; [|by eexists]. split; simpl; try done.
    + intros t [= <-]. by eexists.
    + intros t th H Hne. map_cases H; try done; right; left; (split; [done|]);
        exists 7, (mkSem 0 [1; 2]); (split; [by eexists _, _|done]).
    + by intros t ?%not_elem_of_nil.
    + apply NoDup_nil_2.
    + intros s x t H Hin. map_cases H. simpl in Hin.
      apply elem_of_cons in Hin as [->|[->|[]%not_elem_of_nil]%elem_of_cons]; eexists;
        (split; [done|]); (split; [done|]); (split; [by eexists _, _|done]).
    + intros s x H. map_cases H. apply (bool_decide_unpack _). by vm_compute.
    + intros s x H. map_cases H. simpl. lia.
    + intros t th s H (o & l & Hw). map_cases H; simpl in Hw; simplify_eq; by eexists.
    + intros t th l H Hne Hs. map_cases H; done.
Qed.

Lemma demo_winv : winv demo_kernel.
Proof. intros s x H _. cbn [semaphores demo_kernel] in H. map_cases H. change (0 <= Z.of_nat (woken demo_kernel 7)). lia. Qed.

(** One step: thread 0 calls V. *)
Lemma demo_run : ∃ k', ksteps demo_code demo_kernel [EvV 7] k' ∧
  semaphores k' !! 7 = Some (mkSem 1 [2]) ∧ is_Some (threads k' !! 1).
Proof.
  destruct (step demo_code demo_kernel) as [k'| | | |] eqn:E; try (by vm_compute in E).
  exists k'. split; [|split].
  - apply (kss_step demo_code demo_kernel [] (EvV 7) demo_kernel k'); [constructor|].
    apply (ks_step demo_code demo_kernel k' E).
  - vm_compute in E. injection E as <-. reflexivity.
  - vm_compute in E. injection E as <-. by eexists.
Qed.

Lemma demo_orderly : orderly demo_code demo_kernel 1.
Proof.
  split_and!.
  - intros t th H. cbn [demo_kernel threads] in H. by map_cases H.
  - intros l w l'. unfold demo_code. by repeat case_match.
  - intros l s l'. unfold demo_code. intros [H|H]; repeat case_match; simplify_eq. by eexists.
  - intros s x H. cbn [demo_kernel semaphores] in H. map_cases H. simpl. lia.
Qed.

Lemma kernel_safe_witness :
  ∃ k', ksteps demo_code demo_kernel [EvV 7] k' ∧ kinv k' ∧ ∃ k'', step demo_code k' = Ok k''.
Proof.
  destruct demo_run as (k' & Hrun & _). exists k'. split; [exact Hrun|].
  destruct (kernel_safe demo_code demo_kernel [EvV 7] k' demo_kinv demo_winv Hrun) as (Hk & _ & _ & Ho).
  split; [exact Hk|]. apply (Ho demo_orderly).
Defined.

Lemma thread_in_one_place_witness :
  ∃ k', ksteps demo_code demo_kernel [EvV 7] k' ∧ NoDup (readyList k').
Proof.
  destruct demo_run as (k' & Hrun & _ & [th Ht]). exists k'. split; [exact Hrun|].
  destruct (thread_in_one_place demo_code demo_kernel [EvV 7] k' 1 th demo_kinv demo_winv Hrun Ht)
    as (_ & _ & _ & _ & _ & _ & _ & _ & H & _). exact H.
Defined.

Lemma semaphore_counts_witness :
  ∃ k', ksteps demo_code demo_kernel [EvV 7] k' ∧ ∃ x, semaphores demo_kernel !! 7 = Some x ∧
    1 = value x + count (EvV 7) [EvV 7] - count (EvP 7) [EvV 7].
Proof.
  destruct demo_run as (k' & Hrun & Hx & _). exists k'. split; [exact Hrun|].
  destruct (semaphore_counts demo_code demo_kernel [EvV 7] k' 7 (mkSem 1 [2]) demo_kinv demo_winv Hrun Hx)
    as (x & H1 & H2 & _). exists x. split; [exact H1|exact H2].
Defined.

Lemma no_lost_wakeup_witness :
  ∃ k', ksteps demo_code demo_kernel [EvV 7] k' ∧
    ((∃ old l, ctl k' = PLoop 7 old l) ∨
     (∃ t th, t ∈ readyList k' ∧ threads k' !! t = Some th ∧ waits_for th 7)).
Proof.
  destruct demo_run as (k' & Hrun & Hx & _). exists k'. split; [exact Hrun|].
  apply (no_lost_wakeup demo_code demo_kernel [EvV 7] k' 7 (mkSem 1 [2]) demo_kinv demo_winv Hrun Hx);
    [discriminate|reflexivity].
Defined.

(** Thread 0 is a user program about to yield to thread 1, which changes all the
    registers and yields back. *)
Definition pair_kernel : Kernel Z :=
  mkKernel {[ 0 := demo_thread RUNNING (Some (mkSpace 4 2)) 0 (AtThreadRoot 20);
              1 := demo_thread READY None 5 (AtThreadRoot 30) ]}
    0 (Exec 20) [1] None ∅ cpu IntOn false.

Lemma pair_kinv : kinv pair_kernel.
Proof.
  assert (Hin1 : 1 ∈ [1]) by repeat constructor.
  split; cbn [pair_kernel k_inHandler ctl intLevel asleep]; try done.
  - split; cbn [pair_kernel k_machine threads currentThread].
    + apply completed_ok.
    + intros t th H. map_cases H; apply completed_ok.
    + intros t th a H Ha _. map_cases H; apply completed_ok.
    + intros t th a H Ha. map_cases H; simpl in Ha; simplify_eq; by eexists.
    + intros t th a t' th' a' H Ha H' Ha' _. map_cases H; try done; map_cases H'; done.
  - intros _. split.
    + split; simpl; try done.
      * intros t [= <-]. by eexists.
      * intros t th H Hne. map_cases H. by left.
      * intros t [->|[]%not_elem_of_nil]%elem_of_cons. by eexists.
      * apply NoDup_singleton.
      * intros t th s H (o & l & Hw). map_cases H; done.
      * intros t th l H Hne Hs. map_cases H; done.
    + eexists. split; [done|]. split; [done|]. by intros a [= <-].
Qed.

(** Three steps: the program yields, the other thread computes, and yields back. *)
Lemma pair_run : ∃ k', undisturbed demo_code 0 pair_kernel k' ∧ currentThread k' = 0 ∧ ctl k' = Exec 21.
Proof.
  destruct (step demo_code pair_kernel) as [k1| | | |] eqn:E1; try (by vm_compute in E1).
  destruct (step demo_code k1) as [k2| | | |] eqn:E2; try (vm_compute in E1; injection E1 as <-; by vm_compute in E2).
  destruct (step demo_code k2) as [k3| | | |] eqn:E3;
    try (vm_compute in E1; injection E1 as <-; vm_compute in E2; injection E2 as <-; by vm_compute in E3).
  assert (C1 : currentThread k1 = 1) by (vm_compute in E1; by injection E1 as <-).
  assert (C2 : currentThread k2 = 1) by (vm_compute in E1; injection E1 as <-; vm_compute in E2; by injection E2 as <-).
  exists k3. split.
  - apply (ud_step demo_code 0 pair_kernel k2 k3); [|exact E3|intros [Hc _]; congruence].
    apply (ud_step demo_code 0 pair_kernel k1 k2); [|exact E2|intros [Hc _]; congruence].
    apply (ud_step demo_code 0 pair_kernel pair_kernel k1); [constructor|exact E1|].
    intros (_ & l & [= <-] & [(? & ? & ?)|[(? & ? & ?)|?]]); done.
  - vm_compute in E1. injection E1 as <-. vm_compute in E2. injection E2 as <-. vm_compute in E3. by injection E3 as <-.
Qed.

Lemma user_state_preserved_witness :
  ∃ k', undisturbed demo_code 0 pair_kernel k' ∧ currentThread k' = 0 ∧ ctl k' = Exec 21 ∧
    registers (k_machine k') = load_completed (replicate 40 7) ∧ pageTable (k_machine k') = Some 4.
Proof.
  destruct pair_run as (k' & Hrun & Hc & Hctl).
  destruct (user_state_preserved demo_code pair_kernel k' 0 (demo_thread RUNNING (Some (mkSpace 4 2)) 0 (AtThreadRoot 20))
    (mkSpace 4 2)) as (th' & _ & _ & _ & Hv & _ & Hp);
    [exact pair_kinv|intros s x Hx; discriminate Hx|reflexivity|intros [H _]; discriminate H|reflexivity|exact Hrun|].
  exists k'. split; [exact Hrun|]. split; [exact Hc|]. split; [exact Hctl|]. split.
  - unfold view in Hv. rewrite Hc in Hv. destruct Hv as [Hv|Hv]; exact Hv.
  - apply Hp; [exact Hc|]. rewrite Hctl. reflexivity.
Defined.

(** A finished thread whose carcass nobody will delete: it is not running, on
    no list, and not the thread to be destroyed. *)
Definition leaked (k : Kernel Z) (t : Z) : bool :=
  match threads k !! t with
  | Some th =>
      match th_susp th with
      | InFinish => negb (bool_decide (threadToBeDestroyed k = Some t)) && negb (currentThread k =? t)
      | _ => false
      end
  | None => false
  end.

Fixpoint run_steps (n : nat) (k : Kernel Z) : outcome (Kernel Z) :=
  match n with O => Ok k | S n => k ← step demo_code k; run_steps n k end.

(** Threads that finish can be leaked.  A new thread starts in ThreadRoot
    and not in the rest of Scheduler::Run, so it does not delete the thread that
    finished before it; if it finishes itself, threadToBeDestroyed is
    overwritten and the first carcass is never deleted.  Here thread 0 forks two
    threads and finishes, and so does the first of them. *)
Theorem finished_thread_leaks :
  ∃ k', run_steps 6 (mkKernel {[ 0 := demo_thread RUNNING None 0 (AtThreadRoot 0) ]}
                       0 (Exec 1) [] None ∅ cpu IntOn false) = Ok k' ∧ leaked k' 0 = true.
Proof. 
  destruct (run_steps _ _) as [k'| | | |] eqn:E; try (by vm_compute in E).
  exists k'. split; [done|]. vm_compute in E. injection E as <-. reflexivity.
Qed.
