(* ===== verification/Storage.v ===== *)
(** * The sector store: what the file system needs of the disk

    filesys/ reaches the disk only through SynchDisk::ReadSector and
    SynchDisk::WriteSector.  [SectorStore] has these two operations and
    [SectorLaws] is what the file system relies on: between two calls the disk
    holds NumSectors sectors of SectorSize bytes, a read returns a sector and
    changes none, a write replaces one sector.  The state may change in other
    ways (the clock, the head position). *)

From Stdlib Require Import ZArith Lia Bool.
From S2P Require Import Prelude Bytes.

Local Open Scope Z_scope.

(** machine/disk.h *)
Definition SectorSize : Z := 512.
Definition SectorsPerTrack : Z := 32.
Definition NumTracks : Z := 32.
Definition NumSectors : Z := SectorsPerTrack * NumTracks.

(** Contents of one sector, and of the whole disk. *)
Definition sector_ok (bs : list Z) : Prop := length bs = Z.to_nat SectorSize ∧ Forall byte bs.
Definition disk_ok (v : list (list Z)) : Prop :=
  length v = Z.to_nat NumSectors ∧ Forall sector_ok v.

Class SectorStore (D : Type) := {
  ReadSector : Z → ST D (list Z);
  WriteSector : Z → list Z → ST D unit;
}.

Class SectorLaws (D : Type) `{SectorStore D} := {
  ss_ok : D → Prop;
  ss_data : D → list (list Z);
  ss_wf d : ss_ok d → disk_ok (ss_data d);
  ss_read d s : ss_ok d → 0 <= s < NumSectors →
    ∃ bs d', ReadSector s d = Ok (bs, d') ∧ ss_data d !! Z.to_nat s = Some bs ∧
      ss_ok d' ∧ ss_data d' = ss_data d;
  ss_write d s bs : ss_ok d → 0 <= s < NumSectors → sector_ok bs →
    ∃ d', WriteSector s bs d = Ok (tt, d') ∧ ss_ok d' ∧
      ss_data d' = <[Z.to_nat s := bs]> (ss_data d);
}.

(** The sector [s] of the disk contents [v]. *)
Definition sec (v : list (list Z)) (s : Z) : list Z := default [] (v !! Z.to_nat s).

Lemma sec_ok v s : disk_ok v → 0 <= s < NumSectors → sector_ok (sec v s).
Proof.
  intros [Hl Hf] Hs. unfold sec.
  destruct (lookup_lt_is_Some_2 v (Z.to_nat s)) as [bs Hbs]; [rewrite Hl; lia|].
  rewrite Hbs. simpl. by eapply Forall_lookup_1 in Hf.
Qed.

Lemma sec_length v s : disk_ok v → 0 <= s < NumSectors → length (sec v s) = Z.to_nat SectorSize.
Proof. intros Hv Hs. by destruct (sec_ok v s Hv Hs). Qed.

Lemma sec_insert v s t bs : disk_ok v → 0 <= s < NumSectors → 0 <= t →
  sec (<[Z.to_nat s := bs]> v) t = if decide (s = t) then bs else sec v t.
Proof.
  intros [Hl _] Hs Ht. unfold sec. case_decide as Heq.
  - subst t. rewrite list_lookup_insert_eq by (rewrite Hl; lia). done.
  - rewrite list_lookup_insert_ne by lia. done.
Qed.

Lemma disk_ok_insert v s bs : disk_ok v → sector_ok bs → disk_ok (<[s := bs]> v).
Proof. intros [Hl Hf] Hb. split; [by rewrite length_insert|by apply Forall_insert]. Qed.

(** ** A store in memory

    The contents alone: what is left of a disk when time is ignored.  It serves
    as a concrete store for the examples. *)
Record RamDisk := mkRam { ram : list (list Z) }.

#[export] Instance RamDisk_store : SectorStore RamDisk := {
  ReadSector s d := if in_range s NumSectors then bs ← aget (ram d) s; Ok (bs, d) else Aborted;
  WriteSector s bs d :=
    if in_range s NumSectors then v ← aset (ram d) s bs; Ok (tt, mkRam v) else Aborted;
}.

#[export] Instance RamDisk_laws : SectorLaws RamDisk.
Proof.
  refine {| ss_ok := λ d, disk_ok (ram d); ss_data := ram |}.
  - done.
  - intros d s Hd Hs. simpl. apply in_range_true in Hs as Hr. rewrite Hr.
    destruct (aget_in_range (ram d) s) as (bs & Hg & Hl); [destruct Hd as [-> _]; lia|].
    rewrite Hg. simpl. eauto 6.
  - intros d s bs Hd Hs Hb. simpl. apply in_range_true in Hs as Hr. rewrite Hr.
    rewrite aset_in_range by (destruct Hd as [-> _]; lia). simpl.
    eexists. split_and!; [done| |done]. by apply disk_ok_insert.
Defined.

Definition blank_disk : RamDisk :=
  mkRam (replicate (Z.to_nat NumSectors) (replicate (Z.to_nat SectorSize) 0)).

Lemma blank_disk_ok : ss_ok blank_disk.
Proof.
  unfold ss_ok, blank_disk, RamDisk_laws, disk_ok, ram. split; [by rewrite length_replicate|].
  apply Forall_replicate. split; [by rewrite length_replicate|].
  apply Forall_replicate. unfold byte. lia.
Qed.
