(* ===== verification/FileHdr.v ===== *)
(** * filesys/filehdr.cc: file headers

    A FileHeader fills one sector: the length of the file in bytes, the number
    of its data sectors, and NumDirect sector numbers.  The free map is used
    through [BitAlloc], the disk through [SectorStore]. *)

From Stdlib Require Import ZArith Lia Bool.
From S2P Require Import Prelude Bytes Bitmap Storage.

Local Open Scope Z_scope.

(** (SectorSize - 2 * sizeof(int)) / sizeof(int) *)
Definition NumDirect : Z := (SectorSize - 2 * 4) / 4.
Definition MaxFileSize : Z := NumDirect * SectorSize.

Record FileHeader := mkFH {
  numBytes : Z;
  numSectors : Z;
  dataSectors : list Z;
}.

(** (char * )this: the object as the sector it is stored in, and back. *)
Definition header_bytes (h : FileHeader) : list Z :=
  words_to_bytes (u32 <$> (numBytes h :: numSectors h :: dataSectors h)).

Definition header_from (bs : list Z) : FileHeader :=
  match s32 <$> bytes_to_words (2 + Z.to_nat NumDirect) bs with
  | nb :: ns :: ds => mkFH nb ns ds
  | _ => mkFH 0 0 []
  end.

Section FileHdr.
Context {B : Type} `{BitAlloc B}.

(** Allocate on the header object [h]; FALSE leaves the map as it was.  The
    loop stores into dataSectors[i] without testing i against NumDirect. *)
Definition Allocate (h : FileHeader) (freeMap : B) (fileSize : Z)
  : outcome (bool * FileHeader * B) :=
  let numSectors := divRoundUp fileSize SectorSize in
  let h := mkFH fileSize numSectors (dataSectors h) in
  clear ← ba_NumClear freeMap;
  if clear <? numSectors then Ok (false, h, freeMap)
  else
    '(ds, b) ← foldM (λ '(ds, b) i,
        '(s, b) ← ba_Find b;
        ds ← aset ds i s;
        Ok (ds, b)) (dataSectors h, freeMap) (seqZ 0 numSectors);
    Ok (true, mkFH fileSize numSectors ds, b).

Definition Deallocate (h : FileHeader) (freeMap : B) : outcome B :=
  foldM (λ b i,
      s ← aget (dataSectors h) i;
      t ← ba_Test b s;
      _ ← ASSERT t;
      ba_Clear b s) freeMap (seqZ 0 (numSectors h)).

Context {D : Type} `{SectorStore D}.

Definition FetchFrom (sector : Z) : ST D FileHeader :=
  bs ← ReadSector sector; mret (header_from bs).

Definition WriteBack (h : FileHeader) (sector : Z) : ST D unit :=
  WriteSector sector (header_bytes h).

Definition ByteToSector (h : FileHeader) (offset : Z) : outcome Z :=
  aget (dataSectors h) (Z.quot offset SectorSize).

Definition FileLength (h : FileHeader) : Z := numBytes h.
End FileHdr.

(** ** The header as a sector *)

Record hdr_ok (h : FileHeader) : Prop := {
  ho_bytes : int32 (numBytes h);
  ho_sectors : int32 (numSectors h);
  ho_length : Z.of_nat (length (dataSectors h)) = NumDirect;
  ho_data : Forall int32 (dataSectors h);
}.

Lemma NumDirect_eq : NumDirect = 126.
Proof. reflexivity. Qed.

(** The sectors of the file, in order. *)
Definition data_sectors (h : FileHeader) : list Z := take (Z.to_nat (numSectors h)) (dataSectors h).

Lemma fmap_s32_u32 l : Forall int32 l → s32 <$> (u32 <$> l) = l.
Proof.
  induction 1 as [|x l Hx _ IH]; [done|].
  rewrite !fmap_cons, IH, s32_u32, s32_id by done. done.
Qed.

Lemma header_bytes_ok h : hdr_ok h → sector_ok (header_bytes h).
Proof.
  intros Hh. split; [|apply words_to_bytes_bytes].
  unfold header_bytes. rewrite words_to_bytes_length, length_fmap. simpl length.
  pose proof (ho_length _ Hh) as Hl. rewrite NumDirect_eq in Hl. unfold SectorSize. lia.
Qed.

(** A header written to a sector and fetched again is the same header. *)
Lemma header_roundtrip h : hdr_ok h → header_from (header_bytes h) = h.
Proof.
  intros [Hb Hs Hl Hd]. unfold header_from, header_bytes.
  assert (Hlen : (2 + Z.to_nat NumDirect)%nat =
    length (u32 <$> (numBytes h :: numSectors h :: dataSectors h))).
  { rewrite length_fmap. simpl. lia. }
  rewrite Hlen, bytes_words_roundtrip.
  - rewrite fmap_s32_u32 by (repeat (constructor; try done)). by destruct h.
  - apply Forall_fmap, Forall_true. intros z. apply u32_range.
Qed.

(** Whatever a sector holds, a header fetched from it has the shape of one. *)
Lemma header_from_ok bs : hdr_ok (header_from bs).
Proof.
  unfold header_from.
  destruct (s32 <$> bytes_to_words (2 + Z.to_nat NumDirect) bs) as [|a [|b l]] eqn:E;
    pose proof (f_equal length E) as Hl; rewrite length_fmap, bytes_to_words_length in Hl;
    cbn [length] in Hl; try (rewrite NumDirect_eq in Hl; lia).
  assert (Hf : Forall int32 (a :: b :: l)).
  { rewrite <- E. apply Forall_fmap, Forall_true. intros z. apply s32_range. }
  inversion Hf as [|? ? Ha Hf']; subst. inversion Hf'; subst.
  split; cbn [numBytes numSectors dataSectors]; try done. rewrite NumDirect_eq in *. lia.
Qed.

(** ** Allocation *)

Section Alloc.
Context {B : Type} `{BitAllocLaws B}.

Definition fresh_for (b : B) (l : list Z) : Prop :=
  NoDup l ∧ ∀ s, s ∈ l → 0 <= s < ba_size b ∧ s ∉ ba_used b.

Definition alloc_inv (b0 : B) (ds0 : list Z) (i : Z) (st : list Z * B) : Prop :=
  ba_ok (snd st) ∧ ba_size (snd st) = ba_size b0 ∧
  length (fst st) = length ds0 ∧
  drop (Z.to_nat i) (fst st) = drop (Z.to_nat i) ds0 ∧
  fresh_for b0 (take (Z.to_nat i) (fst st)) ∧
  ba_used (snd st) = list_to_set (take (Z.to_nat i) (fst st)) ∪ ba_used b0.

(** A set that is used plus a list of fresh elements has that many more. *)
Lemma size_fresh (b0 : B) l : fresh_for b0 l →
  size (list_to_set (C := gset Z) l ∪ ba_used b0) = (length l + size (ba_used b0))%nat.
Proof.
  intros [Hnd Hf]. rewrite size_union.
  - by rewrite size_list_to_set.
  - intros x Hx Hy. apply elem_of_list_to_set in Hx. by destruct (Hf x Hx).
Qed.

Lemma alloc_step b0 ds0 i st :
  0 <= i → i < Z.of_nat (length ds0) → i < ba_size b0 - Z.of_nat (size (ba_used b0)) →
  alloc_inv b0 ds0 i st →
  ∃ st', (λ '(ds, b) i, '(s, b) ← ba_Find b; ds ← aset ds i s; Ok (ds, b)) st i = Ok st' ∧
    alloc_inv b0 ds0 (i + 1) st'.
Proof.
  intros Hi0 Hid Hi. destruct st as [ds b]. intros (Hok & Hsz & Hl & Hdr & Hfr & Hus). cbn [fst snd] in *.
  assert (Hlt : length (take (Z.to_nat i) ds) = Z.to_nat i) by (rewrite length_take; lia).
  destruct (ba_Find_law b Hok) as [(_ & s & b' & HF & Hok' & Hsz' & Hs & Hnin & _ & Hus')|[Hfull _]].
  2: { exfalso. rewrite Hus, size_fresh, Hlt in Hfull by done. lia. }
  rewrite HF. cbn [mbind outcome_bind]. rewrite aset_in_range by lia. cbn [mbind outcome_bind].
  eexists. split; [done|]. unfold alloc_inv. cbn [fst snd].
  replace (Z.to_nat (i + 1)) with (S (Z.to_nat i)) by lia.
  assert (Htk : take (S (Z.to_nat i)) (<[Z.to_nat i := s]> ds) = take (Z.to_nat i) ds ++ [s]).
  { erewrite take_S_r by (apply list_lookup_insert_eq; lia). by rewrite take_insert_ge by lia. }
  rewrite Hus, not_elem_of_union, not_elem_of_list_to_set in Hnin. destruct Hnin as [Hn1 Hn2].
  split_and!; try done.
  - lia.
  - by rewrite length_insert.
  - rewrite drop_insert_lt by lia.
    replace (S (Z.to_nat i)) with (Z.to_nat i + 1)%nat by lia.
    by rewrite <- !drop_drop, Hdr.
  - rewrite Htk. destruct Hfr as [Hnd Hin]. split.
    + apply NoDup_app. split_and!; [done| |apply NoDup_singleton].
      intros x Hx ->%list_elem_of_singleton. done.
    + intros x [Hx|Hx]%elem_of_app; [by apply Hin|]. apply list_elem_of_singleton in Hx as ->.
      split; [lia|done].
  - rewrite Htk, Hus', Hus, list_to_set_app_L, list_to_set_singleton_L. set_solver.
Qed.

(** Allocate on every branch: not enough free sectors; or a header of fresh,
    distinct sectors, now marked; or more sectors than the header has room
    for, which overruns the array. *)
Lemma Allocate_spec (h : FileHeader) (b : B) fileSize :
  ba_ok b → Z.of_nat (length (dataSectors h)) = NumDirect →
  let n := divRoundUp fileSize SectorSize in
  let free := ba_size b - Z.of_nat (size (ba_used b)) in
  if free <? n then Allocate h b fileSize = Ok (false, mkFH fileSize n (dataSectors h), b)
  else if n <=? NumDirect then
    ∃ ds b', Allocate h b fileSize = Ok (true, mkFH fileSize n ds, b') ∧
      ba_ok b' ∧ ba_size b' = ba_size b ∧ length ds = length (dataSectors h) ∧
      drop (Z.to_nat n) ds = drop (Z.to_nat n) (dataSectors h) ∧
      fresh_for b (take (Z.to_nat n) ds) ∧
      ba_used b' = list_to_set (take (Z.to_nat n) ds) ∪ ba_used b
  else Allocate h b fileSize = Undef.
Proof.
  intros Hok Hl n free. unfold Allocate. rewrite ba_NumClear_law by done.
  cbn [mbind outcome_bind]. fold n. fold free. cbn [dataSectors].
  destruct (Z.ltb_spec free n); [done|].
  assert (Hz : alloc_inv b (dataSectors h) 0 (dataSectors h, b)).
  { split_and!; try done; cbn [fst snd].
    - split; [constructor|]. intros s Hs. by apply not_elem_of_nil in Hs.
    - change (take (Z.to_nat 0) (dataSectors h)) with (@nil Z). set_solver. }
  assert (Hall : ∀ k, k <= NumDirect → k <= free → 0 <= k → ∃ st,
    foldM (λ '(ds, b) i, '(s, b) ← ba_Find b; ds ← aset ds i s; Ok (ds, b))
      (dataSectors h, b) (seqZ 0 k) = Ok st ∧ alloc_inv b (dataSectors h) k st).
  { intros k Hk1 Hk2 Hk0. apply foldM_seqZ; [done|done|]. intros i st Hi Hinv.
    apply alloc_step; try done; lia. }
  destruct (Z.leb_spec n NumDirect) as [Hn|Hn].
  - destruct (decide (0 <= n)) as [Hn0|Hn0].
    + destruct (Hall n) as ([ds b'] & -> & Hok' & Hsz & Hlen & Hdr & Hfr & Hus); [done..|].
      cbn [fst snd] in *. cbn [mbind outcome_bind]. exists ds, b'. done.
    + rewrite seqZ_nil by lia. cbn [foldM mbind outcome_bind]. exists (dataSectors h), b.
      replace (Z.to_nat n) with 0%nat by lia.
      destruct Hz as (_ & _ & _ & _ & Hfr & Hus). split_and!; done.
  - rewrite (seqZ_split n NumDirect) by (rewrite NumDirect_eq in *; lia).
    rewrite foldM_app.
    destruct (Hall NumDirect) as ([ds b'] & -> & Hok' & Hsz & Hlen & _ & Hfr & Hus);
      [lia|lia|rewrite NumDirect_eq; lia|].
    cbn [fst snd] in *. cbn [mbind outcome_bind foldM].
    assert (Hlt : length (take (Z.to_nat NumDirect) ds) = Z.to_nat NumDirect) by (rewrite length_take; lia).
    destruct (ba_Find_law b' Hok') as [(_ & s & b'' & -> & _)|[Hfull _]].
    2: { exfalso. rewrite Hus, size_fresh, Hlt in Hfull by done. unfold free in *.
         rewrite NumDirect_eq in *. lia. }
    cbn [mbind outcome_bind]. unfold aset.
    destruct (in_range NumDirect (Z.of_nat (length ds))) eqn:E; [|done].
    apply in_range_true in E. lia.
Qed.

(** Deallocate clears exactly the sectors of the file. *)
Lemma Deallocate_ok (h : FileHeader) (b : B) :
  ba_ok b → numSectors h <= Z.of_nat (length (dataSectors h)) →
  NoDup (data_sectors h) → (∀ s, s ∈ data_sectors h → s ∈ ba_used b) →
  ∃ b', Deallocate h b = Ok b' ∧ ba_ok b' ∧ ba_size b' = ba_size b ∧
    ba_used b' = ba_used b ∖ list_to_set (data_sectors h).
Proof.
  intros Hok Hle Hnd Hin. unfold Deallocate.
  destruct (decide (0 <= numSectors h)) as [Hz|Hz].
  2: { rewrite seqZ_nil by lia. exists b. split_and!; try done.
       unfold data_sectors. replace (Z.to_nat (numSectors h)) with 0%nat by lia.
       cbn [take list_to_set foldr]. set_solver. }
  destruct (foldM_seqZ (λ i b', ba_ok b' ∧ ba_size b' = ba_size b ∧
      ba_used b' = ba_used b ∖ list_to_set (take (Z.to_nat i) (dataSectors h)))
    (λ b i, s ← aget (dataSectors h) i; t ← ba_Test b s; _ ← ASSERT t; ba_Clear b s)
    (numSectors h) b) as (b' & Hf & Hb'); [done| | |eauto].
  { split_and!; try done. cbn [Z.to_nat take list_to_set foldr]. set_solver. }
  intros i b1 Hi (Hok1 & Hsz1 & Hus1).
  destruct (aget_in_range (dataSectors h) i) as (s & -> & Hs); [lia|]. cbn [mbind outcome_bind].
  assert (Hsd : data_sectors h !! Z.to_nat i = Some s).
  { unfold data_sectors. by rewrite lookup_take_lt by lia. }
  pose proof (Hin s (list_elem_of_lookup_2 _ _ _ Hsd)) as Hsu.
  pose proof (ba_used_range b s Hok Hsu) as Hsr.
  rewrite ba_Test_law by done. rewrite Hsz1. apply in_range_true in Hsr as Hr. rewrite Hr.
  assert (Hs1 : s ∈ ba_used b1).
  { rewrite Hus1. apply elem_of_difference. split; [done|].
    rewrite elem_of_list_to_set. intros [j Hj]%list_elem_of_lookup.
    pose proof (lookup_lt_Some _ _ _ Hj) as Hlt. rewrite length_take in Hlt.
    rewrite lookup_take_lt in Hj by lia.
    assert (Hjd : data_sectors h !! j = Some s) by (unfold data_sectors; by rewrite lookup_take_lt by lia).
    pose proof (NoDup_lookup _ _ _ _ Hnd Hsd Hjd). lia. }
  rewrite (bool_decide_eq_true_2 _ Hs1). cbn [mbind outcome_bind ASSERT].
  destruct (ba_Clear_law b1 s Hok1) as (b2 & H2 & Hok2 & Hsz2 & Hus2); [lia|].
  exists b2. split_and!; try done; [lia|].
  rewrite Hus2, Hus1. replace (Z.to_nat (i + 1)) with (S (Z.to_nat i)) by lia.
  rewrite (take_S_r _ _ s) by done. rewrite list_to_set_app_L, list_to_set_singleton_L. set_solver.
Qed.
End Alloc.
