(* ===== verification/OpenFile.v ===== *)
(** * filesys/openfile.cc: open files

    The implementation on the simulated disk.  ReadAt and WriteAt transfer any
    range of bytes, but the disk only moves whole sectors: WriteAt first reads
    the sectors it changes in part.  The theorems relate both to the contents
    of the file as one sequence of bytes. *)

From Stdlib Require Import ZArith Lia Bool.
From S2P Require Import Prelude Bytes Bitmap Storage FileHdr.

Local Open Scope Z_scope.

(** class OpenFile; [of_type] is 0 for read and write, 1 for read only. *)
Record OpenFile := mkOF {
  hdr : FileHeader;
  seekPosition : Z;
  of_type : Z;
}.

Section OpenFile.
Context {D : Type} `{SectorStore D} `{!Uninit}.

(** OpenFile::OpenFile(sector) leaves the type as it is in the new object. *)
Definition OpenFile_new (sector : Z) (garbage_type : Z) : ST D OpenFile :=
  h ← FetchFrom sector; mret (mkOF h 0 garbage_type).

Definition OpenFile_new_type (sector ftype : Z) : ST D OpenFile :=
  h ← FetchFrom sector; mret (mkOF h 0 ftype).

Definition Seek (f : OpenFile) (position : Z) : OpenFile := mkOF (hdr f) position (of_type f).

(** for (i = firstSector; ...) ReadSector(ByteToSector(i * SectorSize), &buf[...]) *)
Definition read_sectors (h : FileHeader) (firstSector n : Z) : ST D (list Z) := λ d,
  foldM (λ '(buf, d) i,
      s ← ByteToSector h (i * SectorSize);
      '(bs, d) ← ReadSector s d;
      Ok (buf ++ bs, d)) ([], d) (seqZ firstSector n).

(** The loop that writes the buffer back. *)
Definition write_sectors (h : FileHeader) (buf : list Z) (firstSector n : Z) : ST D unit := λ d,
  d ← foldM (λ d i,
      s ← ByteToSector h (i * SectorSize);
      '(_, d) ← WriteSector s (bytes_at buf ((i - firstSector) * SectorSize) SectorSize) d;
      Ok d) d (seqZ firstSector n);
  Ok (tt, d).

(** bcopy(&buf[off], into, n): the bytes copied. *)
Definition copy_out (buf : list Z) (off n : Z) : outcome (list Z) :=
  if (0 <=? off) && (off + n <=? Z.of_nat (length buf)) then Ok (bytes_at buf off n) else Undef.

(** bcopy(from, &buf[off], n) *)
Definition copy_in (buf : list Z) (off : Z) (from : list Z) (n : Z) : outcome (list Z) :=
  if (0 <=? off) && (off + n <=? Z.of_nat (length buf)) && (n <=? Z.of_nat (length from))
  then Ok (blit buf (Z.to_nat off) (take (Z.to_nat n) from)) else Undef.

(** ReadAt: the bytes put into the buffer of the caller; their number is the
    value returned.  A sum beyond the largest int is undefined. *)
Definition ReadAt (f : OpenFile) (numBytes position : Z) : ST D (list Z) :=
  let fileLength := FileLength (hdr f) in
  if (numBytes <=? 0) || (position >=? fileLength) then mret []
  else if negb (int32b (position + numBytes)) then st_lift Undef
  else
    let numBytes :=
      if position + numBytes >? fileLength then fileLength - position else numBytes in
    let firstSector := divRoundDown position SectorSize in
    let lastSector := divRoundDown (position + numBytes - 1) SectorSize in
    let numSectors := 1 + lastSector - firstSector in
    buf ← read_sectors (hdr f) firstSector numSectors;
    st_lift (copy_out buf (position - firstSector * SectorSize) numBytes).

(** WriteAt: the number of bytes written. *)
Definition WriteAt (f : OpenFile) (from : list Z) (numBytes position : Z) : ST D Z :=
  let fileLength := FileLength (hdr f) in
  if (numBytes <=? 0) || (position >=? fileLength) then mret 0
  else if negb (int32b (position + numBytes)) then st_lift Undef
  else
    let numBytes :=
      if position + numBytes >? fileLength then fileLength - position else numBytes in
    let firstSector := divRoundDown position SectorSize in
    let lastSector := divRoundDown (position + numBytes - 1) SectorSize in
    let numSectors := 1 + lastSector - firstSector in
    let buf := uninit (numSectors * SectorSize) in
    let firstAligned := position =? firstSector * SectorSize in
    let lastAligned := position + numBytes =? (lastSector + 1) * SectorSize in
    buf ← (if negb firstAligned return ST D (list Z) then
             bs ← ReadAt f SectorSize (firstSector * SectorSize);
             mret (blit buf 0 bs)
           else mret buf);
    buf ← (if negb lastAligned && (negb (firstSector =? lastSector) || firstAligned)
           return ST D (list Z) then
             bs ← ReadAt f SectorSize (lastSector * SectorSize);
             mret (blit buf (Z.to_nat ((lastSector - firstSector) * SectorSize)) bs)
           else mret buf);
    buf ← st_lift (copy_in buf (position - firstSector * SectorSize) from numBytes);
    _ ← write_sectors (hdr f) buf firstSector numSectors;
    mret numBytes.

Definition Read (f : OpenFile) (numBytes : Z) : ST D (list Z * OpenFile) :=
  bs ← ReadAt f numBytes (seekPosition f);
  mret (bs, Seek f (seekPosition f + Z.of_nat (length bs))).

Definition Write (f : OpenFile) (into : list Z) (numBytes : Z) : ST D (Z * OpenFile) :=
  result ← WriteAt f into numBytes (seekPosition f);
  mret (result, Seek f (seekPosition f + result)).

Definition Length (f : OpenFile) : Z := FileLength (hdr f).
End OpenFile.

(** ** The contents of a file *)

(** A header whose sectors are distinct sectors of the disk and just enough for
    its length. *)
Record wf_file (h : FileHeader) : Prop := {
  wf_hdr : hdr_ok h;
  wf_count : numSectors h = divRoundUp (numBytes h) SectorSize;
  wf_max : numSectors h <= NumDirect;
  wf_range s : s ∈ data_sectors h → 0 <= s < NumSectors;
  wf_nodup : NoDup (data_sectors h);
}.

(** All bytes of its sectors, and those that belong to the file. *)
Definition file_bytes (v : list (list Z)) (h : FileHeader) : list Z :=
  mjoin (sec v <$> data_sectors h).
Definition contents (v : list (list Z)) (h : FileHeader) : list Z :=
  take (Z.to_nat (numBytes h)) (file_bytes v h).

Lemma data_sectors_length h : wf_file h → length (data_sectors h) = Z.to_nat (numSectors h).
Proof.
  intros [Hh _ Hm _ _]. unfold data_sectors. rewrite length_take.
  pose proof (ho_length _ Hh). lia.
Qed.

Lemma sectors_same_length v h : disk_ok v → wf_file h →
  Forall (λ l, length l = Z.to_nat SectorSize) (sec v <$> data_sectors h).
Proof.
  intros Hv Hh. apply Forall_fmap, Forall_forall. intros s Hs. simpl.
  apply sec_length; [done|by apply (wf_range _ Hh)].
Qed.

(** Byte [i] of the file is byte [i mod 512] of its sector [i / 512]. *)
Lemma lookup_file_bytes v h i s : disk_ok v → wf_file h →
  data_sectors h !! (i / 512)%nat = Some s →
  file_bytes v h !! i = sec v s !! (i mod 512)%nat.
Proof.
  intros Hv Hh Hs. pose proof (Nat.div_mod_eq i 512) as Hi.
  pose proof (Nat.mod_upper_bound i 512 ltac:(lia)) as Hm.
  assert (Hsr : 0 <= s < NumSectors) by (apply (wf_range _ Hh); by apply list_elem_of_lookup_2 in Hs).
  pose proof (sec_length v s Hv Hsr) as Hlen.
  destruct (lookup_lt_is_Some_2 (sec v s) (i mod 512)%nat) as [x Hx].
  { rewrite Hlen. unfold SectorSize. lia. }
  rewrite Hx. unfold file_bytes. replace i with (i / 512 * 512 + i mod 512)%nat at 1 by lia.
  apply (join_lookup_Some_same_length' 512); [by apply sectors_same_length|done|].
  exists (sec v s). by rewrite list_lookup_fmap, Hs.
Qed.

Lemma file_bytes_length v h : disk_ok v → wf_file h →
  length (file_bytes v h) = (512 * Z.to_nat (numSectors h))%nat.
Proof.
  intros Hv Hh. unfold file_bytes. pose proof (sectors_same_length v h Hv Hh) as Hf.
  rewrite <- (data_sectors_length h Hh), <- (length_fmap (sec v) (data_sectors h)).
  induction Hf as [|l ls Hl _ IH]; [done|]. change (mjoin (l :: ls)) with (l ++ mjoin ls).
  rewrite length_app, IH, Hl.
  unfold SectorSize. simpl length. lia.
Qed.

Lemma wf_bounds h : wf_file h → 0 <= numBytes h →
  0 <= numSectors h ∧ numBytes h <= numSectors h * 512 < numBytes h + 512.
Proof.
  intros Hh Hn. rewrite (wf_count _ Hh).
  pose proof (divRoundUp_bounds (numBytes h) SectorSize Hn ltac:(unfold SectorSize; lia)) as H.
  unfold SectorSize in *. lia.
Qed.

Lemma contents_length v h : disk_ok v → wf_file h →
  Z.of_nat (length (contents v h)) = Z.max 0 (numBytes h).
Proof.
  intros Hv Hh. unfold contents. rewrite length_take, file_bytes_length by done.
  destruct (decide (0 <= numBytes h)) as [Hn|]; [|lia].
  pose proof (wf_bounds h Hh Hn). lia.
Qed.

(** The contents depend on the sectors of the file only. *)
Lemma file_bytes_ext v v' h :
  (∀ s, s ∈ data_sectors h → sec v' s = sec v s) → file_bytes v' h = file_bytes v h.
Proof.
  intros Hs. unfold file_bytes. f_equal. apply list_fmap_ext. intros i s Hi.
  apply Hs. by apply list_elem_of_lookup_2 in Hi.
Qed.

Lemma contents_ext v v' h :
  (∀ s, s ∈ data_sectors h → sec v' s = sec v s) → contents v' h = contents v h.
Proof. intros Hs. unfold contents. by rewrite (file_bytes_ext v v'). Qed.

(** Sector [i] of the file is a slice of its bytes; writing it replaces the
    slice. *)
Lemma sector_slice v h i s : disk_ok v → wf_file h → 0 <= i →
  data_sectors h !! Z.to_nat i = Some s →
  bytes_at (file_bytes v h) (i * SectorSize) SectorSize = sec v s.
Proof.
  intros Hv Hh Hi Hs.
  assert (Hsr : 0 <= s < NumSectors) by (apply (wf_range _ Hh); by apply list_elem_of_lookup_2 in Hs).
  pose proof (sec_length v s Hv Hsr) as Hlen. unfold SectorSize in *.
  apply list_eq. intros j. destruct (decide (j < 512)%nat) as [Hj|Hj].
  - rewrite lookup_bytes_at by lia.
    assert (Hdm : ((Z.to_nat (i * 512) + j) / 512 = Z.to_nat i)%nat ∧
                  ((Z.to_nat (i * 512) + j) mod 512 = j)%nat).
    { replace (Z.to_nat (i * 512) + j)%nat with (j + Z.to_nat i * 512)%nat by lia.
      rewrite Nat.div_add, Nat.Div0.mod_add, Nat.div_small, Nat.mod_small by lia. lia. }
    destruct Hdm as [Hd Hm]. rewrite (lookup_file_bytes v h _ s), Hm; [done..|]. by rewrite Hd.
  - rewrite !lookup_ge_None_2; [done|lia|]. unfold bytes_at. rewrite length_take. lia.
Qed.

Lemma file_bytes_insert v h i s bs : disk_ok v → wf_file h → sector_ok bs → 0 <= i →
  data_sectors h !! Z.to_nat i = Some s →
  file_bytes (<[Z.to_nat s := bs]> v) h = blit (file_bytes v h) (Z.to_nat (i * SectorSize)) bs.
Proof.
  intros Hv Hh Hb Hi Hs. pose proof (disk_ok_insert v (Z.to_nat s) bs Hv Hb) as Hv'.
  assert (Hsr : 0 <= s < NumSectors) by (apply (wf_range _ Hh); by apply list_elem_of_lookup_2 in Hs).
  pose proof (lookup_lt_Some _ _ _ Hs) as Hlt. rewrite data_sectors_length in Hlt by done.
  pose proof (file_bytes_length v h Hv Hh) as Hl. destruct Hb as [Hbl _].
  unfold SectorSize in *.
  apply list_eq. intros j. rewrite lookup_blit by lia. rewrite Hbl.
  destruct (decide (j < 512 * Z.to_nat (numSectors h))%nat) as [Hj|Hj].
  - assert (Hjd : (j / 512 < Z.to_nat (numSectors h))%nat) by (apply Nat.Div0.div_lt_upper_bound; lia).
    destruct (lookup_lt_is_Some_2 (data_sectors h) (j / 512)) as [s' Hs']; [by rewrite data_sectors_length|].
    assert (Hs'r : 0 <= s' < NumSectors) by (apply (wf_range _ Hh); by apply list_elem_of_lookup_2 in Hs').
    rewrite (lookup_file_bytes _ h j s'), sec_insert by (done || lia).
    pose proof (Nat.div_mod_eq j 512). pose proof (Nat.mod_upper_bound j 512 ltac:(lia)).
    destruct (decide (s = s')) as [Heq|Hne].
    + subst s'. pose proof (NoDup_lookup _ _ _ _ (wf_nodup _ Hh) Hs Hs') as Heq.
      rewrite decide_True by lia. f_equal. lia.
    + rewrite decide_False.
      * by rewrite (lookup_file_bytes v h j s').
      * intros Hr. apply Hne. assert (Z.to_nat i = (j / 512)%nat) by lia. congruence.
  - rewrite decide_False by lia. rewrite !lookup_ge_None_2; [done|lia|].
    rewrite file_bytes_length by done. lia.
Qed.

Section Transfer.
Context {D : Type} `{SectorLaws D} `{!Uninit}.

(** One step of both loops: the sector of a block of the file. *)
Lemma ByteToSector_ok h i : wf_file h → 0 <= i < numSectors h →
  ∃ s, ByteToSector h (i * SectorSize) = Ok s ∧ data_sectors h !! Z.to_nat i = Some s ∧
    0 <= s < NumSectors.
Proof.
  intros Hh Hi. unfold ByteToSector. rewrite Z.quot_mul by (unfold SectorSize; lia).
  pose proof (ho_length _ (wf_hdr _ Hh)). pose proof (wf_max _ Hh).
  destruct (aget_in_range (dataSectors h) i) as (s & Hg & Hs); [lia|]. exists s.
  assert (Hd : data_sectors h !! Z.to_nat i = Some s) by (unfold data_sectors; by rewrite lookup_take_lt by lia).
  split_and!; try done; apply (wf_range _ Hh); by apply list_elem_of_lookup_2 in Hd.
Qed.

Lemma read_sectors_ok d h first n :
  ss_ok d → wf_file h → 0 <= first → 0 <= n → first + n <= numSectors h →
  ∃ d', read_sectors h first n d =
      Ok (bytes_at (file_bytes (ss_data d) h) (first * SectorSize) (n * SectorSize), d') ∧
    ss_ok d' ∧ ss_data d' = ss_data d.
Proof.
  intros Hd Hh Hf Hn Hle. unfold read_sectors.
  set (fb := file_bytes (ss_data d) h). pose proof (ss_wf d Hd) as Hv.
  edestruct (foldM_seqZ_from (λ i st, ss_ok (snd st) ∧ ss_data (snd st) = ss_data d ∧
      fst st = bytes_at fb (first * SectorSize) ((i - first) * SectorSize)))
    as ([buf d'] & Hr & Hok & Hda & Hbuf); [done| | |].
  3: { cbn [fst snd] in *. exists d'. rewrite Hr, Hbuf. split_and!; try done. do 3 f_equal. lia. }
  { cbn [fst snd]. split_and!; try done. by rewrite Z.sub_diag. }
  intros i [buf d1] Hi (Hok1 & Hda1 & Hbuf1). cbn [fst snd] in *.
  destruct (ByteToSector_ok h i Hh) as (s & -> & Hs & Hsr); [lia|]. cbn [mbind outcome_bind].
  destruct (ss_read d1 s Hok1 Hsr) as (bs & d2 & -> & Hbs & Hok2 & Hda2). cbn [mbind outcome_bind].
  eexists. split; [done|]. cbn [fst snd]. split_and!; [done|by rewrite Hda2|].
  assert (Hsec : bs = sec (ss_data d) s) by (unfold sec; by rewrite <- Hda1, Hbs).
  rewrite Hbuf1, Hsec, <- (sector_slice _ h i s) by (done || lia). fold fb.
  unfold bytes_at, SectorSize.
  replace (drop (Z.to_nat (i * 512)) fb)
    with (drop (Z.to_nat ((i - first) * 512)) (drop (Z.to_nat (first * 512)) fb))
    by (rewrite drop_drop; f_equal; lia).
  rewrite take_take_drop. f_equal. lia.
Qed.

Lemma blit_nil {A} (l : list A) a : blit l a [] = l.
Proof. unfold blit. simpl. by rewrite Nat.add_0_r, take_drop. Qed.

Lemma blit_blit {A} (l : list A) a x y : (a + length x + length y <= length l)%nat →
  blit (blit l a x) (a + length x) y = blit l a (x ++ y).
Proof.
  intros Hl. apply list_eq. intros i.
  rewrite !lookup_blit; rewrite ?length_blit, ?length_app; try lia.
  repeat case_decide; try lia; try done.
  - rewrite lookup_app_r by lia. f_equal. lia.
  - rewrite lookup_app_l by lia. done.
Qed.

Lemma write_sectors_ok d h buf first n :
  ss_ok d → wf_file h → 0 <= first → 0 <= n → first + n <= numSectors h →
  length buf = Z.to_nat (n * SectorSize) → Forall byte buf →
  ∃ d', write_sectors h buf first n d = Ok (tt, d') ∧ ss_ok d' ∧
    file_bytes (ss_data d') h =
      blit (file_bytes (ss_data d) h) (Z.to_nat (first * SectorSize)) buf ∧
    ∀ t, 0 <= t → t ∉ data_sectors h → sec (ss_data d') t = sec (ss_data d) t.
Proof.
  intros Hd Hh Hf Hn Hle Hlen Hby. unfold write_sectors.
  pose proof (file_bytes_length _ h (ss_wf d Hd) Hh) as Hfl.
  edestruct (foldM_seqZ_from (λ i d1, ss_ok d1 ∧
      file_bytes (ss_data d1) h = blit (file_bytes (ss_data d) h) (Z.to_nat (first * SectorSize))
        (take (Z.to_nat ((i - first) * SectorSize)) buf) ∧
      ∀ t, 0 <= t → t ∉ data_sectors h → sec (ss_data d1) t = sec (ss_data d) t))
    as (d' & Hr & Hok & Hda & Hot); [done| | |].
  3: { rewrite Hr. cbn [mbind outcome_bind]. exists d'. split_and!; try done.
       rewrite Hda, take_ge; [done|]. lia. }
  { split_and!; try done. rewrite Z.sub_diag, Z.mul_0_l. change (take (Z.to_nat 0) buf) with (@nil Z). by rewrite blit_nil. }
  intros i d1 Hi (Hok1 & Hda1 & Hot1).
  destruct (ByteToSector_ok h i Hh) as (s & -> & Hs & Hsr); [lia|]. cbn [mbind outcome_bind].
  set (bs := bytes_at buf ((i - first) * SectorSize) SectorSize).
  assert (Hbs : sector_ok bs).
  { split; [apply bytes_at_length; unfold SectorSize in *; lia|]. by apply Forall_take, Forall_drop. }
  destruct (ss_write d1 s bs Hok1 Hsr Hbs) as (d2 & -> & Hok2 & Hda2). cbn [mbind outcome_bind].
  exists d2. split_and!; try done.
  - rewrite Hda2, (file_bytes_insert _ h i s) by (done || lia || by apply ss_wf).
    rewrite Hda1. set (x := take _ buf). unfold SectorSize in *.
    assert (Hx : length x = Z.to_nat ((i - first) * 512)) by (unfold x; rewrite length_take; lia).
    replace (Z.to_nat (i * 512)) with (Z.to_nat (first * 512) + length x)%nat by lia.
    destruct Hbs as [Hbl _]. unfold SectorSize in Hbl. rewrite blit_blit by lia. f_equal.
    unfold x, bs, bytes_at. rewrite take_take_drop. f_equal. lia.
  - intros t Ht Hn'. rewrite Hda2, sec_insert by (done || by apply ss_wf).
    rewrite decide_False; [by apply Hot1|]. intros ->. by apply list_elem_of_lookup_2 in Hs.
Qed.

Lemma bytes_at_bytes_at {A} (l : list A) a m off n :
  0 <= a → 0 <= off → off + n <= m → bytes_at (bytes_at l a m) off n = bytes_at l (a + off) n.
Proof.
  intros. unfold bytes_at. rewrite skipn_firstn_comm, take_take, drop_drop. f_equal; [lia|].
  f_equal. lia.
Qed.

(** A range of the contents, cut at the end of the file. *)
Lemma bytes_at_contents v h p n : 0 <= p →
  bytes_at (contents v h) p n = bytes_at (file_bytes v h) p (Z.min n (numBytes h - p)).
Proof.
  intros. unfold bytes_at, contents. rewrite skipn_firstn_comm, take_take. f_equal. lia.
Qed.

(** The blocks a range of the file lies in. *)
Lemma block_range h p n : wf_file h → 0 <= p → 0 < n → p + n <= numBytes h →
  let first := divRoundDown p SectorSize in
  let last := divRoundDown (p + n - 1) SectorSize in
  0 <= first <= last ∧ last < numSectors h ∧ first * 512 <= p < (first + 1) * 512 ∧
  last * 512 < p + n <= (last + 1) * 512.
Proof.
  intros Hh Hp Hn Hle first last.
  pose proof (wf_bounds h Hh ltac:(lia)) as Hb.
  unfold first, last, divRoundDown, SectorSize. rewrite !Z.quot_div_nonneg by lia.
  Z.to_euclidean_division_equations. lia.
Qed.

(** ReadAt returns the range of the contents, and changes nothing. *)
Lemma ReadAt_ok d f n p :
  ss_ok d → wf_file (hdr f) → 0 <= p → int32 (p + n) →
  ∃ d', ReadAt f n p d = Ok (bytes_at (contents (ss_data d) (hdr f)) p n, d') ∧
    ss_ok d' ∧ ss_data d' = ss_data d.
Proof.
  intros Hd Hh Hp Hi. unfold ReadAt, FileLength. set (L := numBytes (hdr f)).
  pose proof (ss_wf d Hd) as Hv. rewrite bytes_at_contents by done. fold L.
  destruct (Z.leb_spec n 0) as [Hn|Hn]; [|destruct (Z.geb_spec p L) as [HL|HL]]; cbn [orb].
  1,2: exists d; split_and!; try done; unfold mret, st_ret, bytes_at;
    replace (Z.to_nat (Z.min n (L - p))) with 0%nat by lia; done.
  assert (Hb : int32b (p + n) = true).
  { unfold int32b, int32 in *. apply andb_true_iff. rewrite Z.leb_le, Z.ltb_lt. lia. }
  rewrite Hb. cbn [negb].
  replace (if p + n >? L then L - p else n) with (Z.min n (L - p)) by (case_Z; lia).
  set (k := Z.min n (L - p)).
  pose proof (block_range (hdr f) p k Hh Hp ltac:(lia) ltac:(lia)) as Hr. cbv zeta in Hr.
  set (first := divRoundDown p SectorSize) in *.
  set (last := divRoundDown (p + k - 1) SectorSize) in *.
  unfold mbind at 1, st_bind at 1.
  destruct (read_sectors_ok d (hdr f) first (1 + last - first) Hd Hh) as (d' & -> & Hok & Hda); [lia..|].
  exists d'. split_and!; try done. unfold st_lift, copy_out.
  rewrite bytes_at_length by (rewrite ?file_bytes_length by done; unfold SectorSize; lia).
  unfold SectorSize in *.
  destruct (Z.leb_spec 0 (p - first * 512)); [|lia].
  destruct (Z.leb_spec (p - first * 512 + k) (Z.of_nat (Z.to_nat ((1 + last - first) * 512)))); [|lia].
  cbn [andb]. rewrite bytes_at_bytes_at by lia. do 3 f_equal. lia.
Qed.

(** Reading a sector of the file into the buffer of WriteAt, which starts at
    byte [base] of the file. *)
Lemma fill_sector d f buf base a :
  ss_ok d → wf_file (hdr f) → 0 <= base → 0 <= a → int32 (base + a + 512) →
  a + 512 <= Z.of_nat (length buf) → Forall byte buf →
  let fb := file_bytes (ss_data d) (hdr f) in
  ∃ buf' d', (bs ← ReadAt f SectorSize (base + a); mret (blit buf (Z.to_nat a) bs)) d = Ok (buf', d') ∧
    ss_ok d' ∧ ss_data d' = ss_data d ∧ length buf' = length buf ∧ Forall byte buf' ∧
    ∀ j, Z.of_nat j + base < numBytes (hdr f) →
      (a <= Z.of_nat j < a + 512 ∨ buf !! j = fb !! (Z.to_nat base + j)%nat) →
      buf' !! j = fb !! (Z.to_nat base + j)%nat.
Proof.
  intros Hd Hh Hb Ha Hi Hl Hby fb. pose proof (ss_wf d Hd) as Hv.
  unfold mbind, st_bind.
  destruct (ReadAt_ok d f SectorSize (base + a) Hd Hh ltac:(lia) ltac:(unfold SectorSize; done))
    as (d' & -> & Hok & Hda).
  rewrite bytes_at_contents by lia. set (k := Z.min SectorSize (numBytes (hdr f) - (base + a))).
  fold fb. set (bs := bytes_at fb (base + a) k). eexists _, d'. split; [done|].
  assert (Hfl : length fb = (512 * Z.to_nat (numSectors (hdr f)))%nat) by (by apply file_bytes_length).
  assert (Hbl : length bs = Z.to_nat k).
  { unfold bs, bytes_at. rewrite length_take, length_drop, Hfl.
    destruct (decide (0 <= numBytes (hdr f))) as [Hn|]; [|unfold k; lia].
    pose proof (wf_bounds _ Hh Hn). unfold k, SectorSize in *. lia. }
  assert (Hkk : k <= 512) by (unfold k, SectorSize; lia).
  split_and!; try done.
  - apply length_blit. lia.
  - unfold blit. rewrite !Forall_app. split_and!; [by apply Forall_take| |by apply Forall_drop].
    apply Forall_take, Forall_drop. unfold fb, file_bytes. apply Forall_join, Forall_fmap, Forall_forall.
    intros s Hs. destruct (sec_ok (ss_data d) s Hv) as [_ Hs']; [by apply (wf_range _ Hh)|done].
  - intros j Hj Hor. rewrite lookup_blit by lia. rewrite Hbl. case_decide as Hc.
    + unfold bs. rewrite lookup_bytes_at by lia. f_equal. lia.
    + destruct Hor as [Hor|Hor]; [|done]. unfold k, SectorSize in *. lia.
Qed.

(** The buffer WriteAt builds before it copies the new bytes in: wherever the
    caller's bytes will not go, it has the bytes of the file. *)
Lemma fill_partial d f p k :
  ss_ok d → wf_file (hdr f) → 0 <= p → 0 < k → p + k <= numBytes (hdr f) →
  let fb := file_bytes (ss_data d) (hdr f) in
  let first := divRoundDown p SectorSize in
  let last := divRoundDown (p + k - 1) SectorSize in
  let firstAligned := p =? first * SectorSize in
  let lastAligned := p + k =? (last + 1) * SectorSize in
  let buf0 := uninit ((1 + last - first) * SectorSize) in
  ∃ buf d',
    (buf ← (if negb firstAligned return ST D (list Z) then
              bs ← ReadAt f SectorSize (first * SectorSize); mret (blit buf0 0 bs)
            else mret buf0);
     (if negb lastAligned && (negb (first =? last) || firstAligned) return ST D (list Z) then
        bs ← ReadAt f SectorSize (last * SectorSize);
        mret (blit buf (Z.to_nat ((last - first) * SectorSize)) bs)
      else mret buf)) d = Ok (buf, d') ∧
    ss_ok d' ∧ ss_data d' = ss_data d ∧
    length buf = Z.to_nat ((1 + last - first) * 512) ∧ Forall byte buf ∧
    ∀ j, (j < length buf)%nat → Z.of_nat j + first * 512 < numBytes (hdr f) →
      ¬ p <= first * 512 + Z.of_nat j < p + k → buf !! j = fb !! (Z.to_nat (first * 512) + j)%nat.
Proof.
  intros Hd Hh Hp Hk Hle fb first last fA lA buf0.
  pose proof (block_range (hdr f) p k Hh Hp Hk Hle) as Hr. cbv zeta in Hr. fold first last in Hr.
  pose proof (wf_max _ Hh) as Hmax. rewrite NumDirect_eq in Hmax.
  assert (Hl0 : length buf0 = Z.to_nat ((1 + last - first) * 512)) by (unfold buf0; by rewrite uninit_length).
  assert (Hb0 : Forall byte buf0) by apply uninit_bytes.
  assert (HA : ∃ buf1 d1, (if negb fA return ST D (list Z) then
      bs ← ReadAt f SectorSize (first * SectorSize); mret (blit buf0 0 bs) else mret buf0) d = Ok (buf1, d1) ∧
    ss_ok d1 ∧ ss_data d1 = ss_data d ∧ length buf1 = length buf0 ∧ Forall byte buf1 ∧
    (fA = false → ∀ j, (j < 512)%nat → Z.of_nat j + first * 512 < numBytes (hdr f) →
       buf1 !! j = fb !! (Z.to_nat (first * 512) + j)%nat)).
  { destruct fA; cbn [negb].
    { exists buf0, d. split_and!; done. }
    destruct (fill_sector d f buf0 (first * 512) 0 Hd Hh) as (buf1 & d1 & Hf & Hok & Hda & Hl & Hby & Hag);
      [lia|lia|unfold int32; lia|lia|done|].
    rewrite Z.add_0_r in Hf. exists buf1, d1. split_and!; try done. intros _ j Hj HjL. apply Hag; lia. }
  destruct HA as (buf1 & d1 & HA & Hok1 & Hda1 & Hl1 & Hb1 & Hag1).
  unfold mbind at 1, st_bind at 1. rewrite HA. clear HA.
  assert (Hcov : negb lA && (negb (first =? last) || fA) = false → ∀ j,
    (j < length buf1)%nat → ¬ p <= first * 512 + Z.of_nat j < p + k → fA = false ∧ (j < 512)%nat).
  { intros Hc j Hj Hn. unfold fA, lA, SectorSize in *.
    destruct (Z.eqb_spec (p + k) ((last + 1) * 512)), (Z.eqb_spec first last), (Z.eqb_spec p (first * 512));
      cbn [negb andb orb] in Hc; try discriminate; split; try done; lia. }
  destruct (negb lA && (negb (first =? last) || fA)) eqn:Hc.
  - destruct (fill_sector d1 f buf1 (first * 512) ((last - first) * 512) Hok1 Hh)
      as (buf2 & d2 & Hf & Hok2 & Hda2 & Hl2 & Hb2 & Hag2); [lia|lia|unfold int32; lia|lia|done|].
    replace (first * 512 + (last - first) * 512) with (last * SectorSize) in Hf by (unfold SectorSize; lia).
    exists buf2, d2. split_and!; try done; [by rewrite Hda2|lia|].
    intros j Hj HjL Hn. rewrite Hda1 in Hag2. fold fb in Hag2. apply Hag2; [done|].
    destruct (decide ((last - first) * 512 <= Z.of_nat j)); [left; lia|right].
    apply Hag1; [|lia|done]. unfold fA, SectorSize. apply Z.eqb_neq. lia.
  - exists buf1, d1. split_and!; try done; [lia|].
    intros j Hj HjL Hn. destruct (Hcov eq_refl j Hj Hn). by apply Hag1.
Qed.

(** WriteAt replaces a range of the contents, cut at the end of the file, and
    touches no sector of another file. *)
Lemma WriteAt_ok d f from n p :
  ss_ok d → wf_file (hdr f) → 0 <= p → int32 (p + n) →
  n <= Z.of_nat (length from) → Forall byte from →
  let k := Z.max 0 (Z.min n (numBytes (hdr f) - p)) in
  ∃ d', WriteAt f from n p d = Ok (k, d') ∧ ss_ok d' ∧
    contents (ss_data d') (hdr f) =
      blit (contents (ss_data d) (hdr f)) (Z.to_nat p) (take (Z.to_nat k) from) ∧
    ∀ t, 0 <= t → t ∉ data_sectors (hdr f) → sec (ss_data d') t = sec (ss_data d) t.
Proof.
  intros Hd Hh Hp Hi Hfr Hby k. unfold WriteAt, FileLength. set (L := numBytes (hdr f)) in *.
  pose proof (ss_wf d Hd) as Hv.
  destruct (Z.leb_spec n 0) as [Hn|Hn]; [|destruct (Z.geb_spec p L) as [HL|HL]]; cbn [orb].
  1,2: exists d; unfold mret, st_ret; replace k with 0 by lia; split_and!; try done;
    change (take (Z.to_nat 0) from) with (@nil Z); by rewrite blit_nil.
  assert (Hb : int32b (p + n) = true).
  { unfold int32b, int32 in *. apply andb_true_iff. rewrite Z.leb_le, Z.ltb_lt. lia. }
  rewrite Hb. cbn [negb].
  replace (if p + n >? L then L - p else n) with k by (unfold k; case_Z; lia).
  assert (Hk : 0 < k ∧ p + k <= L ∧ k <= n) by lia. clearbody k.
  pose proof (block_range (hdr f) p k Hh Hp ltac:(lia) ltac:(fold L; lia)) as Hr. cbv zeta in Hr.
  destruct (fill_partial d f p k Hd Hh Hp ltac:(lia) ltac:(fold L; lia))
    as (buf & d1 & Hfill & Hok1 & Hda1 & Hl & Hbb & Hag).
  set (first := divRoundDown p SectorSize) in *.
  set (last := divRoundDown (p + k - 1) SectorSize) in *. cbv zeta in Hfill |- *.
  clearbody first last.
  apply st_bind_Ok_inv in Hfill as (b0 & d0 & Hfirst & Hlast).
  unfold mbind at 1, st_bind at 1. rewrite Hfirst.
  unfold mbind at 1, st_bind at 1. rewrite Hlast.
  unfold mbind at 1, st_bind at 1. unfold st_lift, copy_in. unfold SectorSize.
  destruct (Z.leb_spec 0 (p - first * 512)); [|lia].
  destruct (Z.leb_spec (p - first * 512 + k) (Z.of_nat (length buf))); [|lia].
  destruct (Z.leb_spec k (Z.of_nat (length from))); [|lia]. cbn [andb].
  set (new := blit buf _ _). unfold mbind at 1, st_bind at 1.
  assert (Htk : length (take (Z.to_nat k) from) = Z.to_nat k) by (rewrite length_take; lia).
  assert (Hnl : length new = length buf) by (apply length_blit; lia).
  destruct (write_sectors_ok d1 (hdr f) new first (1 + last - first) Hok1 Hh)
    as (d2 & -> & Hok2 & Hfb & Hot); [lia|lia|lia|unfold SectorSize; lia| |].
  { unfold new, blit. rewrite !Forall_app. split_and!; [by apply Forall_take| |by apply Forall_drop].
    by apply Forall_take. }
  exists d2. split_and!; try done; [|by rewrite <- Hda1].
  unfold contents. fold L. rewrite Hfb, Hda1. set (fb := file_bytes (ss_data d) (hdr f)) in *.
  assert (Hfl : length fb = (512 * Z.to_nat (numSectors (hdr f)))%nat) by (by apply file_bytes_length).
  pose proof (wf_bounds _ Hh ltac:(fold L; lia)) as Hwb. fold L in Hwb. unfold SectorSize.
  apply list_eq. intros i. destruct (decide (i < Z.to_nat L)%nat) as [HiL|HiL].
  - rewrite lookup_take_lt by done.
    rewrite !lookup_blit by (rewrite ?length_take; lia).
    rewrite (lookup_take_lt fb) by done. rewrite Hnl, Htk. case_decide as Hc1.
    + unfold new. rewrite lookup_blit by lia. rewrite Htk. case_decide as Hc2.
      * rewrite decide_True by lia. f_equal. lia.
      * rewrite decide_False by lia. rewrite Hag by lia. f_equal. lia.
    + rewrite decide_False by lia. done.
  - rewrite !lookup_ge_None_2; [done| |rewrite length_take; lia].
    rewrite length_blit by (rewrite ?length_take; lia). rewrite length_take. lia.
Qed.
End Transfer.
