(* ===== verification/Directory.v ===== *)
(** * filesys/directory.cc: the directory of file names

    A table of entries, stored in a file as the bytes of the array.  Names are
    compared and copied by strncmp and strncpy with FileNameMaxLen, so a name is
    known by its first nine characters.  The directory is a finite map from
    such names to the sectors of the file headers; the lemmas give each
    operation on the map. *)

From Stdlib Require Import ZArith Lia Bool.
From S2P Require Import Prelude Bytes Storage FileHdr OpenFile.

Local Open Scope Z_scope.

Definition FileNameMaxLen : Z := 9.

(** class DirectoryEntry, with the padding bytes of its layout. *)
Record DirectoryEntry := mkDE {
  inUse : bool;
  pad1 : list Z;
  sector : Z;
  name : list Z;
  pad2 : list Z;
}.

Definition sizeof_DirectoryEntry : Z := 20.

(** The 20 bytes of an entry: the flag and 3 bytes of padding, the sector, the
    10 bytes of the name and 2 bytes of padding. *)
Definition entry_bytes (e : DirectoryEntry) : list Z :=
  (if inUse e then 1 else 0) :: pad1 e ++ le_split 4 (u32 (sector e)) ++ name e ++ pad2 e.

Definition entry_from (bs : list Z) : DirectoryEntry :=
  mkDE (negb (default 0 (bs !! 0%nat) =? 0)) (bytes_at bs 1 3) (s32 (le_combine (bytes_at bs 4 4)))
    (bytes_at bs 8 10) (bytes_at bs 18 2).

Definition table_bytes (t : list DirectoryEntry) : list Z := t ≫= entry_bytes.

Fixpoint table_from (n : nat) (bs : list Z) : list DirectoryEntry :=
  match n with
  | O => []
  | S n => entry_from (take 20 bs) :: table_from n (drop 20 bs)
  end.

(** ** C strings

    A string is the sequence of its characters; the byte after the last is 0. *)

(** strncmp(a, b, n): the difference of the first characters that differ. *)
Fixpoint strncmp (a b : list Z) (n : nat) : Z :=
  match n with
  | O => 0
  | S n =>
      let x := default 0 (head a) in
      let y := default 0 (head b) in
      if negb (x =? y) then x - y
      else if x =? 0 then 0
      else strncmp (tail a) (tail b) n
  end.

(** The [n] bytes strncpy(dst, src, n) stores: a short string is padded with 0. *)
Fixpoint strncpy (src : list Z) (n : nat) : list Z :=
  match n with
  | O => []
  | S n =>
      let x := default 0 (head src) in
      x :: strncpy (if x =? 0 then [] else tail src) n
  end.

(** class Directory *)
Record Directory := mkDir {
  tableSize : Z;
  table : list DirectoryEntry;
}.

Section Directory.
Context {D : Type} `{SectorStore D} `{!Uninit}.

(** Directory::Directory *)
Definition Directory_new (size : Z) : outcome Directory :=
  t ← foldM (λ t i,
        e ← aget t i;
        aset t i (mkDE false (pad1 e) (sector e) (name e) (pad2 e)))
      (table_from (Z.to_nat size) (uninit (size * sizeof_DirectoryEntry))) (seqZ 0 size);
  Ok (mkDir size t).

(** What ReadAt leaves unread stays as it is. *)
Definition FetchFrom (d : Directory) (file : OpenFile) : ST D Directory :=
  bs ← ReadAt file (tableSize d * sizeof_DirectoryEntry) 0;
  mret (mkDir (tableSize d)
          (table_from (Z.to_nat (tableSize d)) (blit (table_bytes (table d)) 0 bs))).

Definition WriteBack (d : Directory) (file : OpenFile) : ST D unit :=
  _ ← WriteAt file (table_bytes (table d)) (tableSize d * sizeof_DirectoryEntry) 0;
  mret tt.
End Directory.

(** The loop of FindIndex over the indices left. *)
Fixpoint FindIndex_loop (t : list DirectoryEntry) (nm : list Z) (ixs : list Z) : outcome Z :=
  match ixs with
  | [] => Ok (-1)
  | i :: ixs =>
      e ← aget t i;
      if inUse e && (strncmp (name e) nm (Z.to_nat FileNameMaxLen) =? 0) then Ok i
      else FindIndex_loop t nm ixs
  end.

Definition FindIndex (d : Directory) (nm : list Z) : outcome Z :=
  FindIndex_loop (table d) nm (seqZ 0 (tableSize d)).

Definition Find (d : Directory) (nm : list Z) : outcome Z :=
  i ← FindIndex d nm;
  if negb (i =? -1) then e ← aget (table d) i; Ok (sector e) else Ok (-1).

(** The entry Add fills; the last byte of the name array is not written. *)
Definition fill_entry (e : DirectoryEntry) (nm : list Z) (newSector : Z) : DirectoryEntry :=
  mkDE true (pad1 e) newSector (blit (name e) 0 (strncpy nm (Z.to_nat FileNameMaxLen))) (pad2 e).

Fixpoint Add_loop (d : Directory) (nm : list Z) (newSector : Z) (ixs : list Z)
  : outcome (bool * Directory) :=
  match ixs with
  | [] => Ok (false, d)
  | i :: ixs =>
      e ← aget (table d) i;
      if negb (inUse e) then
        t ← aset (table d) i (fill_entry e nm newSector);
        Ok (true, mkDir (tableSize d) t)
      else Add_loop d nm newSector ixs
  end.

Definition Add (d : Directory) (nm : list Z) (newSector : Z) : outcome (bool * Directory) :=
  i ← FindIndex d nm;
  if negb (i =? -1) then Ok (false, d)
  else Add_loop d nm newSector (seqZ 0 (tableSize d)).

Definition Remove (d : Directory) (nm : list Z) : outcome (bool * Directory) :=
  i ← FindIndex d nm;
  if i =? -1 then Ok (false, d)
  else
    e ← aget (table d) i;
    t ← aset (table d) i (mkDE false (pad1 e) (sector e) (name e) (pad2 e));
    Ok (true, mkDir (tableSize d) t).

(** List: the names printed, in order. *)
Definition List (d : Directory) : list (list Z) := name <$> filter (λ e, inUse e = true) (table d).

(** ** Names *)

(** The characters before the first 0. *)
Fixpoint cstr (l : list Z) : list Z :=
  match l with
  | [] => []
  | x :: l => if x =? 0 then [] else x :: cstr l
  end.

(** What strncmp and strncpy see of a name. *)
Definition key (l : list Z) : list Z := cstr (take (Z.to_nat FileNameMaxLen) l).

Lemma strncmp_cstr n : ∀ a b, strncmp a b n = 0 ↔ cstr (take n a) = cstr (take n b).
Proof.
  induction n as [|n IH]; intros a b; [done|]. cbn [strncmp].
  destruct a as [|x a], b as [|y b]; cbn [head tl default take cstr hd_error from_option];
    repeat (case_Z; cbn [negb]); subst; try done; try lia;
    try (split; intros; try done; simplify_eq; lia).
  rewrite IH. unfold id in *. subst y. split; [by intros ->|intros Heq; by injection Heq].
Qed.

(** Equal names are equal for strncmp with the length of the array. *)
Lemma strncmp_key a b : (strncmp a b (Z.to_nat FileNameMaxLen) =? 0) = bool_decide (key a = key b).
Proof.
  destruct (Z.eqb_spec (strncmp a b (Z.to_nat FileNameMaxLen)) 0) as [Hs|Hs];
    rewrite strncmp_cstr in Hs; symmetry.
  - by apply bool_decide_eq_true_2.
  - by apply bool_decide_eq_false_2.
Qed.

Lemma strncpy_length src n : length (strncpy src n) = n.
Proof. revert src; induction n; intros; simpl; auto. Qed.

Lemma cstr_strncpy n : ∀ src, cstr (strncpy src n) = cstr (take n src).
Proof.
  induction n as [|n IH]; intros src; [done|]. cbn [strncpy cstr].
  destruct src as [|x src]; cbn [head hd_error default from_option take cstr tl]; [done|].
  unfold id. destruct (Z.eqb_spec x 0); [done|]. by rewrite IH.
Qed.

Lemma strncpy_bytes n : ∀ src, Forall byte src → Forall byte (strncpy src n).
Proof.
  induction n as [|n IH]; intros src Hs; cbn [strncpy]; constructor.
  - destruct Hs; simpl; [unfold byte; lia|done].
  - apply IH. case_Z; [constructor|]. by destruct Hs.
Qed.

(** A name stored by strncpy is found again under the same key. *)
Lemma key_stored old nm : length old = 10%nat →
  key (blit old 0 (strncpy nm (Z.to_nat FileNameMaxLen))) = key nm.
Proof.
  intros Hl. unfold key, blit. rewrite take_0, app_nil_l.
  rewrite take_app_length' by (by rewrite strncpy_length). apply cstr_strncpy.
Qed.

(** ** The table as bytes *)

Record entry_ok (e : DirectoryEntry) : Prop := {
  eo_pad1 : length (pad1 e) = 3%nat ∧ Forall byte (pad1 e);
  eo_sector : int32 (sector e);
  eo_name : length (name e) = 10%nat ∧ Forall byte (name e);
  eo_pad2 : length (pad2 e) = 2%nat ∧ Forall byte (pad2 e);
}.

Lemma entry_bytes_length e : entry_ok e → length (entry_bytes e) = 20%nat.
Proof.
  intros [[H1 _] _ [H2 _] [H3 _]]. unfold entry_bytes. cbn [length].
  rewrite !length_app, le_split_length. lia.
Qed.

Lemma entry_bytes_bytes e : entry_ok e → Forall byte (entry_bytes e).
Proof.
  intros [[_ H1] _ [_ H2] [_ H3]]. unfold entry_bytes. constructor.
  - destruct (inUse e); unfold byte; lia.
  - rewrite !Forall_app. split_and!; try done. apply le_split_bytes.
Qed.

Lemma entry_roundtrip e : entry_ok e → entry_from (entry_bytes e) = e.
Proof.
  destruct e as [u p1 s n p2]. intros [[H1 _] Hs [H2 _] [H3 _]]. cbn [pad1 sector name pad2] in *.
  destruct p1 as [|a1 [|a2 [|a3 [|? ?]]]]; try discriminate H1.
  assert (Hle : ∃ b0 b1 b2 b3, le_split 4 (u32 s) = [b0; b1; b2; b3]) by (cbn [le_split]; eauto).
  destruct Hle as (b0 & b1 & b2 & b3 & Hle).
  assert (Hc : le_combine [b0; b1; b2; b3] = u32 s).
  { rewrite <- Hle. apply le_combine_split. apply u32_range. }
  unfold entry_from, entry_bytes. cbn [inUse pad1 sector name pad2]. rewrite Hle.
  unfold bytes_at. change (Z.to_nat 1) with 1%nat. change (Z.to_nat 3) with 3%nat.
  change (Z.to_nat 4) with 4%nat. change (Z.to_nat 8) with 8%nat. change (Z.to_nat 10) with 10%nat.
  change (Z.to_nat 18) with 18%nat. change (Z.to_nat 2) with 2%nat.
  cbn [app drop take lookup list_lookup default from_option]. rewrite take_0, drop_0, Hc, s32_u32, s32_id by done.
  rewrite (take_app_length' n) by done.
  f_equal.
  - by destruct u.
  - rewrite drop_app_length' by done. apply take_ge. lia.
Qed.

Lemma entry_from_ok bs : length bs = 20%nat → Forall byte bs → entry_ok (entry_from bs).
Proof.
  intros Hl Hb. unfold entry_from.
  split; cbn [pad1 sector name pad2]; try (split; [apply bytes_at_length; lia|by apply Forall_take, Forall_drop]).
  apply s32_range.
Qed.

Lemma table_bytes_length t : Forall entry_ok t → length (table_bytes t) = (20 * length t)%nat.
Proof.
  induction 1 as [|e t He _ IH]; [done|]. unfold table_bytes in *.
  rewrite bind_cons, length_app, IH, entry_bytes_length by done. simpl. lia.
Qed.

Lemma table_bytes_bytes t : Forall entry_ok t → Forall byte (table_bytes t).
Proof.
  induction 1 as [|e t He _ IH]; [constructor|]. unfold table_bytes in *.
  rewrite bind_cons. apply Forall_app. split; [by apply entry_bytes_bytes|done].
Qed.

Lemma table_roundtrip t : Forall entry_ok t → table_from (length t) (table_bytes t) = t.
Proof.
  induction 1 as [|e t He _ IH]; [done|]. unfold table_bytes in *.
  cbn [length table_from]. rewrite bind_cons.
  rewrite take_app_length', drop_app_length' by (by rewrite entry_bytes_length).
  by rewrite IH, entry_roundtrip.
Qed.

Lemma table_from_ok n bs : length bs = (20 * n)%nat → Forall byte bs →
  length (table_from n bs) = n ∧ Forall entry_ok (table_from n bs).
Proof.
  revert bs; induction n as [|n IH]; intros bs Hl Hb; cbn [table_from]; [done|].
  destruct (IH (drop 20 bs)) as [H1 H2]; [rewrite length_drop; lia|by apply Forall_drop|].
  split; [simpl; by rewrite H1|]. constructor; [|done].
  apply entry_from_ok; [rewrite length_take; lia|by apply Forall_take].
Qed.

(** ** The directory as a map *)

Definition dir_has (t : list DirectoryEntry) (k : list Z) (s : Z) : Prop :=
  ∃ i e, t !! i = Some e ∧ inUse e = true ∧ key (name e) = k ∧ sector e = s.

(** No two entries in use have the same name. *)
Definition unique (t : list DirectoryEntry) : Prop :=
  ∀ i j e e', t !! i = Some e → t !! j = Some e' → inUse e = true → inUse e' = true →
    key (name e) = key (name e') → i = j.

Record wf_dir (d : Directory) : Prop := {
  wd_size : Z.of_nat (length (table d)) = tableSize d;
  wd_entries : Forall entry_ok (table d);
  wd_unique : unique (table d);
}.

Definition live (t : list DirectoryEntry) : list (list Z * Z) :=
  (λ e, (key (name e), sector e)) <$> filter (λ e, inUse e = true) t.

Definition dir_map (d : Directory) : gmap (list Z) Z := list_to_map (live (table d)).

Lemma elem_of_live t k s : (k, s) ∈ live t ↔ dir_has t k s.
Proof.
  unfold live, dir_has. rewrite list_elem_of_fmap. split.
  - intros (e & [= -> ->] & [Hu Hin]%list_elem_of_filter).
    apply list_elem_of_lookup in Hin as [i Hi]. eauto 6.
  - intros (i & e & Hi & Hu & <- & <-). exists e. split; [done|].
    apply list_elem_of_filter. split; [done|]. by apply list_elem_of_lookup_2 in Hi.
Qed.

Lemma unique_tail e t : unique (e :: t) → unique t.
Proof. intros Hu i j e1 e2 H1 H2 U1 U2 Hk. by specialize (Hu (S i) (S j) e1 e2 H1 H2 U1 U2 Hk) as [=]. Qed.

Lemma live_nodup t : unique t → NoDup (live t).*1.
Proof.
  unfold live. induction t as [|e t IH]; intros Hu; [constructor|].
  specialize (IH (unique_tail _ _ Hu)). rewrite filter_cons. case_decide as He; [|done].
  rewrite !fmap_cons. constructor; [|done]. intros Hin.
  apply list_elem_of_fmap in Hin as ([k s] & Hk & Hin). apply elem_of_live in Hin as (i & e' & Hi & Hu' & <- & _).
  by specialize (Hu 0%nat (S i) e e' eq_refl Hi He Hu' Hk).
Qed.

Lemma lookup_dir_map d k s : wf_dir d → dir_map d !! k = Some s ↔ dir_has (table d) k s.
Proof.
  intros Hd. unfold dir_map. rewrite <- elem_of_live. symmetry. apply elem_of_list_to_map.
  apply live_nodup, Hd.
Qed.

(** The number of files, and whether an entry is free. *)
Lemma dir_map_size d : wf_dir d →
  size (dir_map d) = length (filter (λ e, inUse e = true) (table d)).
Proof.
  intros Hd. unfold dir_map. rewrite map_size_list_to_map by apply live_nodup, Hd.
  unfold live. by rewrite length_fmap.
Qed.

Lemma FindIndex_loop_spec t nm n : ∀ i, (i + n)%nat = length t →
  (∃ j e, FindIndex_loop t nm (seqZ (Z.of_nat i) (Z.of_nat n)) = Ok (Z.of_nat j) ∧
     t !! j = Some e ∧ inUse e = true ∧ key (name e) = key nm) ∨
  (FindIndex_loop t nm (seqZ (Z.of_nat i) (Z.of_nat n)) = Ok (-1) ∧
   ∀ j e, (i <= j)%nat → t !! j = Some e → inUse e = true → key (name e) ≠ key nm).
Proof.
  induction n as [|n IH]; intros i Hi.
  - right. split; [done|]. intros j e Hj Hl. apply lookup_lt_Some in Hl. lia.
  - rewrite seqZ_cons by lia. cbn [FindIndex_loop].
    destruct (aget_in_range t (Z.of_nat i)) as (e & -> & He); [lia|]. rewrite Nat2Z.id in He.
    cbn [mbind outcome_bind]. rewrite strncmp_key.
    replace (Z.succ (Z.of_nat i)) with (Z.of_nat (S i)) by lia.
    replace (Z.pred (Z.of_nat (S n))) with (Z.of_nat n) by lia.
    destruct (inUse e && bool_decide (key (name e) = key nm)) eqn:Hm.
    + apply andb_true_iff in Hm as [Hu Hk%bool_decide_eq_true_1]. left. eauto 6.
    + destruct (IH (S i)) as [Hl|[Hr Hn]]; [lia|by left|right]. split; [done|].
      intros j e' Hj Hl Hu Hk. destruct (decide (j = i)) as [->|]; [|by apply (Hn j e'); [lia|..]].
      simplify_eq. rewrite Hu, bool_decide_eq_true_2 in Hm by done. done.
Qed.

Lemma FindIndex_spec d nm : wf_dir d →
  (∃ j e, FindIndex d nm = Ok (Z.of_nat j) ∧ table d !! j = Some e ∧ inUse e = true ∧
     key (name e) = key nm ∧ dir_map d !! key nm = Some (sector e)) ∨
  (FindIndex d nm = Ok (-1) ∧ dir_map d !! key nm = None).
Proof.
  intros Hd. unfold FindIndex. rewrite <- (wd_size _ Hd).
  destruct (FindIndex_loop_spec (table d) nm (length (table d)) 0) as [(j & e & H1 & H2 & H3 & H4)|[H1 H2]];
    [done|left|right]; change (Z.of_nat 0) with 0 in *.
  - exists j, e. split_and!; try done. apply lookup_dir_map; [done|]. exists j, e. done.
  - split; [done|]. apply eq_None_not_Some. intros [s Hs].
    apply lookup_dir_map in Hs as (j & e & Hj & Hu & Hk & _); [|done]. by apply (H2 j e); [lia|..].
Qed.

Lemma Find_spec d nm : wf_dir d → Find d nm = Ok (default (-1) (dir_map d !! key nm)).
Proof.
  intros Hd. unfold Find. destruct (FindIndex_spec d nm Hd) as [(j & e & -> & Hj & _ & _ & ->)|[-> ->]]; [|done].
  cbn [mbind outcome_bind]. destruct (Z.eqb_spec (Z.of_nat j) (-1)); [lia|]. cbn [negb].
  unfold aget. destruct (Z.leb_spec 0 (Z.of_nat j)); [|lia]. by rewrite Nat2Z.id, Hj.
Qed.

(** Replacing an entry: the names of the others stay. *)
Lemma dir_has_insert t i e k s : (i < length t)%nat →
  dir_has (<[i := e]> t) k s ↔
    (inUse e = true ∧ key (name e) = k ∧ sector e = s) ∨
    (∃ j e', j ≠ i ∧ t !! j = Some e' ∧ inUse e' = true ∧ key (name e') = k ∧ sector e' = s).
Proof.
  intros Hi. unfold dir_has. split.
  - intros (j & e' & Hj & Hr). destruct (decide (j = i)) as [->|Hn].
    + rewrite list_lookup_insert_eq in Hj by done. simplify_eq. by left.
    + rewrite list_lookup_insert_ne in Hj by done. right. eauto 6.
  - intros [Hr|(j & e' & Hn & Hj & Hr)].
    + exists i, e. rewrite list_lookup_insert_eq by done. done.
    + exists j, e'. rewrite list_lookup_insert_ne by done. done.
Qed.

(** Same, for the uniqueness of names. *)
Lemma unique_insert t i e : unique t →
  (inUse e = true → ∀ j e', j ≠ i → t !! j = Some e' → inUse e' = true → key (name e') ≠ key (name e)) →
  unique (<[i := e]> t).
Proof.
  intros Hu Hn i1 i2 e1 e2 H1 H2 U1 U2 Hk.
  apply list_lookup_insert_Some in H1 as [(<- & <- & _)|[N1 H1]];
    apply list_lookup_insert_Some in H2 as [(<- & <- & _)|[N2 H2]]; [done| | |].
  - exfalso. by apply (Hn U1 i2 e2).
  - exfalso. by apply (Hn U2 i1 e1).
  - by apply (Hu i1 i2 e1 e2).
Qed.

Lemma Add_loop_spec d nm s n : wf_dir d → ∀ i, (i + n)%nat = length (table d) →
  (∃ j e, Add_loop d nm s (seqZ (Z.of_nat i) (Z.of_nat n)) =
       Ok (true, mkDir (tableSize d) (<[j := fill_entry e nm s]> (table d))) ∧
     table d !! j = Some e ∧ inUse e = false) ∨
  (Add_loop d nm s (seqZ (Z.of_nat i) (Z.of_nat n)) = Ok (false, d) ∧
   ∀ j e, (i <= j)%nat → table d !! j = Some e → inUse e = true).
Proof.
  intros Hd. induction n as [|n IH]; intros i Hi.
  - right. split; [done|]. intros j e Hj Hl. apply lookup_lt_Some in Hl. lia.
  - rewrite seqZ_cons by lia. cbn [Add_loop].
    destruct (aget_in_range (table d) (Z.of_nat i)) as (e & -> & He); [lia|]. rewrite Nat2Z.id in He.
    cbn [mbind outcome_bind]. rewrite aset_in_range by lia. rewrite Nat2Z.id.
    replace (Z.succ (Z.of_nat i)) with (Z.of_nat (S i)) by lia.
    replace (Z.pred (Z.of_nat (S n))) with (Z.of_nat n) by lia.
    destruct (inUse e) eqn:Hu; cbn [negb mbind outcome_bind].
    + destruct (IH (S i)) as [Hl|[Hr Hn]]; [lia|by left|right]. split; [done|].
      intros j e' Hj Hl. destruct (decide (j = i)) as [->|]; [congruence|apply (Hn j); [lia|done]].
    + left. eauto 6.
Qed.

(** Add on every branch. *)
Lemma Add_spec d nm s : wf_dir d → Forall byte nm → int32 s →
  match dir_map d !! key nm with
  | Some _ => Add d nm s = Ok (false, d)
  | None =>
      if Z.of_nat (size (dir_map d)) <? tableSize d then
        ∃ d', Add d nm s = Ok (true, d') ∧ wf_dir d' ∧ tableSize d' = tableSize d ∧
          dir_map d' = <[key nm := s]> (dir_map d)
      else Add d nm s = Ok (false, d)
  end.
Proof.
  intros Hd Hb Hs. unfold Add.
  destruct (FindIndex_spec d nm Hd) as [(j & e & -> & _ & _ & _ & ->)|[-> Hnone]].
  { cbn [mbind outcome_bind]. destruct (Z.eqb_spec (Z.of_nat j) (-1)); [lia|done]. }
  rewrite Hnone. cbn [mbind outcome_bind]. change (-1 =? -1) with true. cbn [negb].
  rewrite dir_map_size by done. rewrite <- (wd_size _ Hd).
  destruct (Add_loop_spec d nm s (length (table d)) Hd 0) as [(j & e & Ha & Hj & Hu)|[Ha Hall]];
    [done| |]; change (Z.of_nat 0) with 0 in Ha; rewrite Ha.
  - pose proof (lookup_lt_Some _ _ _ Hj) as Hlt.
    assert (Hf : (length (filter (λ e, inUse e = true) (table d)) < length (table d))%nat).
    { apply (length_filter_lt _ _ e); [by apply list_elem_of_lookup_2 in Hj|congruence]. }
    destruct (Z.ltb_spec (Z.of_nat (length (filter (λ e, inUse e = true) (table d))))
      (Z.of_nat (length (table d)))); [|lia].
    eexists. split; [done|].
    assert (Heo : entry_ok e) by (by eapply Forall_lookup_1; [apply Hd|]).
    assert (Hkey : key (name (fill_entry e nm s)) = key nm) by (apply key_stored, Heo).
    assert (Hwf : wf_dir (mkDir (tableSize d) (<[j := fill_entry e nm s]> (table d)))).
    { split; cbn [tableSize table].
      - rewrite length_insert. apply Hd.
      - apply Forall_insert; [apply Hd|]. destruct Heo as [H1 H2 [H3 H3'] H4].
        split; cbn [pad1 sector name pad2 fill_entry]; try done. split.
        + rewrite length_blit; [done|]. rewrite strncpy_length, H3. unfold FileNameMaxLen. lia.
        + unfold blit. rewrite !Forall_app. split_and!; [by apply Forall_take|by apply strncpy_bytes|by apply Forall_drop].
      - apply unique_insert; [apply Hd|]. intros _ i e' Hn Hi Hu' Hk. rewrite Hkey in Hk.
        assert (dir_map d !! key nm = Some (sector e')) by (apply lookup_dir_map; [done|]; exists i, e'; done).
        congruence. }
    split_and!; [done|by rewrite (wd_size _ Hd)|]. apply map_eq. intros k. apply option_eq. intros s'.
    rewrite lookup_dir_map by done. cbn [table]. rewrite dir_has_insert, Hkey by done.
    rewrite lookup_insert_Some, lookup_dir_map by done. cbn [fill_entry inUse sector].
    split.
    + intros [(_ & <- & <-)|(i & e' & Hn & Hi & Hu' & <- & <-)]; [by left|right].
      split; [|by exists i, e']. intros Hk.
      assert (dir_map d !! key nm = Some (sector e')) by (apply lookup_dir_map; [done|]; exists i, e'; done).
      congruence.
    + intros [[-> ->]|[Hk (i & e' & Hi & Hu' & <- & <-)]]; [by left|right].
      exists i, e'. split_and!; try done. intros ->. congruence.
  - assert (Hf : filter (λ e, inUse e = true) (table d) = table d).
    { apply filter_all, Forall_forall. intros e [i Hi]%list_elem_of_lookup. apply (Hall i e); [lia|done]. }
    rewrite Hf, Z.ltb_irrefl. done.
Qed.

(** Remove on both branches. *)
Lemma Remove_spec d nm : wf_dir d →
  match dir_map d !! key nm with
  | Some _ => ∃ d', Remove d nm = Ok (true, d') ∧ wf_dir d' ∧ tableSize d' = tableSize d ∧
      dir_map d' = delete (key nm) (dir_map d)
  | None => Remove d nm = Ok (false, d)
  end.
Proof.
  intros Hd. unfold Remove.
  destruct (FindIndex_spec d nm Hd) as [(j & e & -> & Hj & Hu & Hk & ->)|[-> ->]]; [|done].
  cbn [mbind outcome_bind]. destruct (Z.eqb_spec (Z.of_nat j) (-1)); [lia|].
  pose proof (lookup_lt_Some _ _ _ Hj) as Hlt.
  unfold aget. destruct (Z.leb_spec 0 (Z.of_nat j)); [|lia]. rewrite Nat2Z.id, Hj. cbn [mbind outcome_bind].
  rewrite aset_in_range by lia. rewrite Nat2Z.id. cbn [mbind outcome_bind].
  set (e0 := mkDE _ _ _ _ _). eexists. split; [done|].
  assert (Hwf : wf_dir (mkDir (tableSize d) (<[j := e0]> (table d)))).
  { split; cbn [tableSize table].
    - rewrite length_insert. apply Hd.
    - apply Forall_insert; [apply Hd|].
      assert (Heo : entry_ok e) by (by eapply Forall_lookup_1; [apply Hd|]). by destruct Heo.
    - by apply unique_insert; [apply Hd|]. }
  split_and!; try done. apply map_eq. intros k. apply option_eq. intros s'.
  rewrite lookup_dir_map by done. cbn [table]. rewrite dir_has_insert by done.
  rewrite lookup_delete_Some, lookup_dir_map by done. split.
  - intros [(? & _)|(i & e' & Hn & Hi & Hu' & <- & <-)]; [done|]. split; [|by exists i, e'].
    intros Heq. apply Hn. apply (wd_unique _ Hd i j e' e); try done. congruence.
  - intros [Hne (i & e' & Hi & Hu' & <- & <-)]. right. exists i, e'. split_and!; try done.
    intros ->. simplify_eq.
Qed.
