(* ===== verification/FileSys.v ===== *)
(** * filesys/filesys.cc: the file system

    Names to files: a bit map of free sectors and a directory, both kept in
    files whose headers are in sectors 0 and 1.  Each operation reads them from
    disk, changes its copies and writes them back when it succeeds.  The
    storage is any [SectorStore]; objects made by new start with arbitrary
    contents ([Uninit]). *)

From Stdlib Require Import ZArith Lia Bool.
From S2P Require Import Prelude Bytes Bitmap Storage FileHdr OpenFile Directory.

Local Open Scope Z_scope.

Definition FreeMapSector : Z := 0.
Definition DirectorySector : Z := 1.
Definition FreeMapFileSize : Z := NumSectors / BitsInByte.
Definition NumDirEntries : Z := 10.
Definition DirectoryFileSize : Z := sizeof_DirectoryEntry * NumDirEntries.

(** class FileSystem.  [openf] is None while the pointer has not been set:
    neither constructor path of this version sets it. *)
Record FileSystem := mkFS {
  freeMapFile : OpenFile;
  directoryFile : OpenFile;
  openf : option (list (option OpenFile));
  index : Z;
}.

Section FileSys.
Context {D : Type} `{SectorStore D} `{!Uninit}.

(** new BitMap(NumSectors), new Directory(NumDirEntries), new FileHeader *)
Definition new_BitMap : outcome BitMap :=
  BitMap_new (bytes_to_words (Z.to_nat (divRoundUp NumSectors BitsInWord))
                (uninit (4 * divRoundUp NumSectors BitsInWord))) NumSectors.
Definition new_FileHeader : FileHeader := header_from (uninit SectorSize).

(** BitMap::FetchFrom and BitMap::WriteBack on a file. *)
Definition BitMap_FetchFrom (b : BitMap) (file : OpenFile) : ST D BitMap :=
  bs ← ReadAt file (numWords b * 4) 0;
  mret (FetchFrom_bytes b (blit (words_to_bytes (map b)) 0 bs)).

Definition BitMap_WriteBack (b : BitMap) (file : OpenFile) : ST D unit :=
  _ ← WriteAt file (WriteBack_bytes b) (numWords b * 4) 0;
  mret tt.

(** Reading the free map and the directory, as every operation does. *)
Definition fetch_map (fs : FileSystem) : ST D BitMap :=
  b ← st_lift new_BitMap; BitMap_FetchFrom b (freeMapFile fs).
Definition fetch_dir (fs : FileSystem) : ST D Directory :=
  d ← st_lift (Directory_new NumDirEntries); Directory.FetchFrom d (directoryFile fs).

(** FileSystem::FileSystem; [garbage_type] is the type field of a new OpenFile. *)
Definition FileSystem_new (format : bool) (garbage_type garbage_index : Z) : ST D FileSystem :=
  if format then
    freeMap ← st_lift new_BitMap;
    directory ← st_lift (Directory_new NumDirEntries);
    freeMap ← st_lift (Mark freeMap FreeMapSector);
    freeMap ← st_lift (Mark freeMap DirectorySector);
    '(ok, mapHdr, freeMap) ← st_lift (Allocate new_FileHeader freeMap FreeMapFileSize);
    _ ← st_lift (ASSERT ok);
    '(ok, dirHdr, freeMap) ← st_lift (Allocate new_FileHeader freeMap DirectoryFileSize);
    _ ← st_lift (ASSERT ok);
    _ ← FileHdr.WriteBack mapHdr FreeMapSector;
    _ ← FileHdr.WriteBack dirHdr DirectorySector;
    freeMapFile ← OpenFile_new FreeMapSector garbage_type;
    directoryFile ← OpenFile_new DirectorySector garbage_type;
    _ ← BitMap_WriteBack freeMap freeMapFile;
    _ ← Directory.WriteBack directory directoryFile;
    mret (mkFS freeMapFile directoryFile None garbage_index)
  else
    freeMapFile ← OpenFile_new FreeMapSector garbage_type;
    directoryFile ← OpenFile_new DirectorySector garbage_type;
    mret (mkFS freeMapFile directoryFile None garbage_index).

Definition Create (fs : FileSystem) (nm : list Z) (initialSize : Z) : ST D bool :=
  directory ← fetch_dir fs;
  found ← st_lift (Directory.Find directory nm);
  if negb (found =? -1) then mret false
  else
    freeMap ← fetch_map fs;
    '(sector, freeMap) ← st_lift (Bitmap.Find freeMap);
    if sector =? -1 then mret false
    else
      '(added, directory) ← st_lift (Directory.Add directory nm sector);
      if negb added then mret false
      else
        '(ok, hdr, freeMap) ← st_lift (Allocate new_FileHeader freeMap initialSize);
        if negb ok then mret false
        else
          _ ← FileHdr.WriteBack hdr sector;
          _ ← Directory.WriteBack directory (directoryFile fs);
          _ ← BitMap_WriteBack freeMap (freeMapFile fs);
          mret true.

(** Open(name): None is NULL. *)
Definition Open (fs : FileSystem) (nm : list Z) (garbage_type : Z) : ST D (option OpenFile) :=
  directory ← fetch_dir fs;
  sector ← st_lift (Directory.Find directory nm);
  if sector >=? 0 then f ← OpenFile_new sector garbage_type; mret (Some f)
  else mret None.

(** FindFreeSlot: the loop over the slots left. *)
Fixpoint FindFreeSlot_loop (t : list (option OpenFile)) (ixs : list Z) : outcome Z :=
  match ixs with
  | [] => Ok (-1)
  | i :: ixs => o ← aget t i; match o with None => Ok i | Some _ => FindFreeSlot_loop t ixs end
  end.

Definition FindFreeSlot (fs : FileSystem) : outcome Z :=
  match openf fs with
  | None => Undef
  | Some t => FindFreeSlot_loop t (seqZ 2 13)
  end.

(** Open(name, type): the result is openf[freeSlot], found or not. *)
Definition Open_type (fs : FileSystem) (nm : list Z) (type : Z) : ST D (option OpenFile * FileSystem) :=
  freeSlot ← st_lift (FindFreeSlot fs);
  directory ← fetch_dir fs;
  sector ← st_lift (Directory.Find directory nm);
  match openf fs with
  | None => st_lift Undef
  | Some t =>
      t ← (if sector >=? 0 return ST D (list (option OpenFile)) then
             f ← OpenFile_new_type sector type; st_lift (aset t freeSlot (Some f))
           else mret t);
      r ← st_lift (aget t freeSlot);
      mret (r, mkFS (freeMapFile fs) (directoryFile fs) (Some t) (index fs))
  end.

Definition Remove (fs : FileSystem) (nm : list Z) : ST D bool :=
  directory ← fetch_dir fs;
  sector ← st_lift (Directory.Find directory nm);
  if sector =? -1 then mret false
  else
    fileHdr ← FileHdr.FetchFrom sector;
    freeMap ← fetch_map fs;
    freeMap ← st_lift (Deallocate fileHdr freeMap);
    freeMap ← st_lift (Clear freeMap sector);
    '(_, directory) ← st_lift (Directory.Remove directory nm);
    _ ← BitMap_WriteBack freeMap (freeMapFile fs);
    _ ← Directory.WriteBack directory (directoryFile fs);
    mret true.

(** List: the names printed. *)
Definition FileSystem_List (fs : FileSystem) : ST D (list (list Z)) :=
  directory ← fetch_dir fs; mret (Directory.List directory).
End FileSys.
