(* ===== verification/FileSysProofs.v ===== *)
(** * The file system implements a map from names to contents

    The invariant of the disk ([fs_inv]): the free map marks exactly the
    sectors in use, and every sector in use has one owner, a file or the file
    system itself.  Under it the disk stands for the finite map [files] from
    names to contents, and every operation of FileSystem and OpenFile acts on
    this map as its specification says. *)

From Stdlib Require Import ZArith Lia Bool.
From S2P Require Import Prelude Bytes Bitmap Storage FileHdr OpenFile Directory FileSys.

Local Open Scope Z_scope.

(** ** What the disk says *)

Definition hdr_at (v : list (list Z)) (s : Z) : FileHeader := header_from (sec v s).

(** The sectors of the file with its header in [s]. *)
Definition blocks (v : list (list Z)) (s : Z) : list Z := s :: data_sectors (hdr_at v s).

Definition map_hdr (fs : FileSystem) : FileHeader := hdr (freeMapFile fs).
Definition dir_hdr (fs : FileSystem) : FileHeader := hdr (directoryFile fs).

Definition map_of (v : list (list Z)) (fs : FileSystem) : BitMap :=
  mkBitMap NumSectors 32 (bytes_to_words 32 (contents v (map_hdr fs))).
Definition dir_of (v : list (list Z)) (fs : FileSystem) : Directory :=
  mkDir NumDirEntries (table_from 10 (contents v (dir_hdr fs))).

Definition names (v : list (list Z)) (fs : FileSystem) : gmap (list Z) Z := dir_map (dir_of v fs).

(** The sectors of the file system itself. *)
Definition sys_blocks (fs : FileSystem) : list Z :=
  FreeMapSector :: DirectorySector :: data_sectors (map_hdr fs) ++ data_sectors (dir_hdr fs).

(** Sector [t] belongs to the file system (None) or to the file named [k]. *)
Definition owns (v : list (list Z)) (fs : FileSystem) (o : option (list Z)) (t : Z) : Prop :=
  match o with
  | None => t ∈ sys_blocks fs
  | Some k => ∃ s, names v fs !! k = Some s ∧ t ∈ blocks v s
  end.

Record fs_inv (v : list (list Z)) (fs : FileSystem) : Prop := {
  fi_map : wf_file (map_hdr fs) ∧ numBytes (map_hdr fs) = FreeMapFileSize;
  fi_dir : wf_file (dir_hdr fs) ∧ numBytes (dir_hdr fs) = DirectoryFileSize;
  fi_disk : hdr_at v FreeMapSector = map_hdr fs ∧ hdr_at v DirectorySector = dir_hdr fs;
  fi_sys : NoDup (sys_blocks fs);
  fi_table : wf_dir (dir_of v fs);
  fi_files k s : names v fs !! k = Some s →
    0 <= s < NumSectors ∧ wf_file (hdr_at v s) ∧ NoDup (blocks v s);
  fi_own o o' t : owns v fs o t → owns v fs o' t → o = o';
  fi_used t : t ∈ used (map_of v fs) ↔ ∃ o, owns v fs o t;
}.

(** The abstract state: the contents of each file, by name. *)
Definition files (v : list (list Z)) (fs : FileSystem) : gmap (list Z) (list Z) :=
  (λ s, contents v (hdr_at v s)) <$> names v fs.

(** Free sectors. *)
Definition free_count (v : list (list Z)) (fs : FileSystem) : Z :=
  NumSectors - Z.of_nat (size (used (map_of v fs))).

(** ** Facts of the representation *)

Lemma contents_full v h n : disk_ok v → wf_file h → numBytes h = Z.of_nat n →
  length (contents v h) = n ∧ Forall byte (contents v h).
Proof.
  intros Hv Hh Hn. split.
  - pose proof (contents_length v h Hv Hh). lia.
  - apply Forall_take. unfold file_bytes. apply Forall_join, Forall_fmap, Forall_forall.
    intros s Hs. destruct (sec_ok v s Hv) as [_ Hs']; [by apply (wf_range _ Hh)|done].
Qed.

Lemma map_contents v fs : disk_ok v → fs_inv v fs →
  length (contents v (map_hdr fs)) = 128%nat ∧ Forall byte (contents v (map_hdr fs)).
Proof. intros Hv Hi. destruct (fi_map _ _ Hi). by apply contents_full. Qed.

Lemma dir_contents v fs : disk_ok v → fs_inv v fs →
  length (contents v (dir_hdr fs)) = 200%nat ∧ Forall byte (contents v (dir_hdr fs)).
Proof. intros Hv Hi. destruct (fi_dir _ _ Hi). by apply contents_full. Qed.

Lemma bits_wf bs : length bs = 128%nat → Forall byte bs →
  wf (mkBitMap NumSectors 32 (bytes_to_words 32 bs)).
Proof.
  intros Hl Hb. split; cbn [numBits numWords map].
  - unfold NumSectors, SectorsPerTrack, NumTracks. lia.
  - done.
  - by rewrite bytes_to_words_length.
  - apply bytes_to_words_range; [done|lia].
Qed.

Lemma map_of_wf v fs : disk_ok v → fs_inv v fs → wf (map_of v fs).
Proof. intros Hv Hi. destruct (map_contents v fs Hv Hi). by apply bits_wf. Qed.

Lemma owned_range v fs o t : disk_ok v → fs_inv v fs → owns v fs o t → 0 <= t < NumSectors.
Proof.
  intros Hv Hi Ho. assert (Hu : t ∈ used (map_of v fs)) by (apply (fi_used _ _ Hi); eauto).
  by apply elem_of_used in Hu as [? _].
Qed.

Lemma blit_all {A} (l src : list A) : length src = length l → blit l 0 src = src.
Proof. intros Hl. unfold blit. rewrite take_0, drop_ge by lia. simpl. by rewrite app_nil_r. Qed.

Lemma bytes_at_all {A} (l : list A) n : n = Z.of_nat (length l) → bytes_at l 0 n = l.
Proof. intros ->. unfold bytes_at. rewrite drop_0. apply take_ge. lia. Qed.

Section Fetch.
Context `{!Uninit}.

Lemma new_BitMap_ok : ∃ b, new_BitMap = Ok b ∧ wf b ∧ numBits b = NumSectors ∧ numWords b = 32 ∧
  used b = ∅.
Proof.
  assert (Hq : divRoundUp NumSectors BitsInWord = 32) by reflexivity.
  unfold new_BitMap. rewrite Hq.
  set (g := bytes_to_words (Z.to_nat 32) (uninit (4 * 32))).
  destruct (BitMap_new_ok g NumSectors) as (b & Hb & Hwf & Hn & Hu).
  - unfold NumSectors, SectorsPerTrack, NumTracks. lia.
  - rewrite Hq. unfold g. rewrite bytes_to_words_length. lia.
  - apply bytes_to_words_range; [apply uninit_bytes|]. rewrite uninit_length. lia.
  - exists b. split_and!; [exact Hb|exact Hwf|exact Hn| |exact Hu]. by rewrite (wf_words _ Hwf), Hn.
Qed.

Lemma new_FileHeader_ok : hdr_ok new_FileHeader.
Proof. apply header_from_ok. Qed.

Lemma new_FileHeader_length : Z.of_nat (length (dataSectors new_FileHeader)) = NumDirect.
Proof. apply ho_length, new_FileHeader_ok. Qed.

Lemma Directory_new_ok : ∃ d, Directory_new NumDirEntries = Ok d ∧ wf_dir d ∧
  tableSize d = NumDirEntries ∧ dir_map d = ∅.
Proof.
  unfold Directory_new. set (t0 := table_from _ _).
  destruct (table_from_ok 10 (uninit (NumDirEntries * sizeof_DirectoryEntry))) as [Hl0 He0].
  { by rewrite uninit_length. }
  { apply uninit_bytes. }
  change (table_from 10 _) with t0 in Hl0, He0.
  edestruct (foldM_seqZ (λ i t, length t = 10%nat ∧ Forall entry_ok t ∧
      ∀ j e, t !! j = Some e → Z.of_nat j < i → inUse e = false)) as (t & -> & Hl & He & Hu).
  - unfold NumDirEntries. lia.
  - split_and!; [done|done|]. intros. lia.
  - intros i t Hi (Hl & He & Hu). unfold NumDirEntries in Hi.
    destruct (aget_in_range t i) as (e & -> & Hlk); [lia|]. cbn [mbind outcome_bind].
    rewrite aset_in_range by lia. eexists. split; [done|]. split_and!.
    + by rewrite length_insert.
    + apply Forall_insert; [done|]. by destruct (Forall_lookup_1 _ _ _ _ He Hlk).
    + intros j e' [(<- & <- & _)|[Hn Hj]]%list_lookup_insert_Some Hlt; [done|].
      apply (Hu j e'); [done|lia].
  - cbn [mbind outcome_bind]. exists (mkDir NumDirEntries t). split; [done|].
    assert (Hno : ∀ j e, t !! j = Some e → inUse e = false).
    { intros j e Hj. apply (Hu j e Hj). pose proof (lookup_lt_Some _ _ _ Hj). unfold NumDirEntries. lia. }
    split_and!; [|done|].
    + split; cbn [table tableSize]; [by rewrite Hl|done|].
      intros i j e e' H1 H2 U1. by rewrite (Hno _ _ H1) in U1.
    + unfold dir_map, live. cbn [table]. rewrite filter_none; [done|].
      apply Forall_forall. intros e [j Hj]%list_elem_of_lookup. by rewrite (Hno _ _ Hj).
Qed.

Context {D : Type} `{SectorLaws D}.

Lemma fetch_dir_ok d fs : ss_ok d → fs_inv (ss_data d) fs →
  ∃ d', fetch_dir fs d = Ok (dir_of (ss_data d) fs, d') ∧ ss_ok d' ∧ ss_data d' = ss_data d.
Proof.
  intros Hd Hi. pose proof (ss_wf d Hd) as Hv. destruct (fi_dir _ _ Hi) as [Hwf Hn].
  destruct Directory_new_ok as (d0 & Hnew & Hwd & Hsz & _).
  unfold fetch_dir. unfold mbind at 1, st_bind at 1. rewrite Hnew. clear Hnew. cbv [st_lift]. unfold Directory.FetchFrom. rewrite Hsz.
  destruct (ReadAt_ok d (directoryFile fs) (NumDirEntries * sizeof_DirectoryEntry) 0 Hd Hwf)
    as (d' & Hr & Hok & Hda); [lia|done|].
  rewrite (st_bind_eq _ _ _ _ _ Hr). exists d'. split_and!; try done.
  destruct (dir_contents _ fs Hv Hi) as [Hl _]. unfold mret, st_ret, dir_of. do 3 f_equal.
  fold (dir_hdr fs). rewrite bytes_at_all by (by rewrite Hl). f_equal. apply blit_all.
  rewrite table_bytes_length by apply Hwd. pose proof (wd_size _ Hwd) as Hw. rewrite Hsz in Hw.
  unfold NumDirEntries in Hw. lia.
Qed.

Lemma fetch_map_ok d fs : ss_ok d → fs_inv (ss_data d) fs →
  ∃ d', fetch_map fs d = Ok (map_of (ss_data d) fs, d') ∧ ss_ok d' ∧ ss_data d' = ss_data d.
Proof.
  intros Hd Hi. pose proof (ss_wf d Hd) as Hv. destruct (fi_map _ _ Hi) as [Hwf Hn].
  destruct new_BitMap_ok as (b & Hnew & Hwb & Hnb & Hnw & _).
  unfold fetch_map. unfold mbind at 1, st_bind at 1. rewrite Hnew. clear Hnew. cbv [st_lift]. unfold BitMap_FetchFrom. rewrite Hnw.
  destruct (ReadAt_ok d (freeMapFile fs) (32 * 4) 0 Hd Hwf) as (d' & Hr & Hok & Hda); [lia|done|].
  rewrite (st_bind_eq _ _ _ _ _ Hr). exists d'. split_and!; try done.
  destruct (map_contents _ fs Hv Hi) as [Hl _]. unfold mret, st_ret, map_of, FetchFrom_bytes.
  rewrite Hnb, Hnw. fold (map_hdr fs). rewrite bytes_at_all by (by rewrite Hl).
  rewrite blit_all; [done|]. rewrite words_to_bytes_length. pose proof (wf_length _ Hwb). lia.
Qed.

(** Writing a full file: the bytes become its contents, other sectors stay. *)
Lemma write_full d f bs : ss_ok d → wf_file (hdr f) → numBytes (hdr f) = Z.of_nat (length bs) →
  Forall byte bs → Z.of_nat (length bs) < 2 ^ 31 →
  ∃ d', WriteAt f bs (Z.of_nat (length bs)) 0 d = Ok (Z.of_nat (length bs), d') ∧ ss_ok d' ∧
    contents (ss_data d') (hdr f) = bs ∧
    ∀ t, 0 <= t → t ∉ data_sectors (hdr f) → sec (ss_data d') t = sec (ss_data d) t.
Proof.
  intros Hd Hh Hn Hb Hlt.
  destruct (WriteAt_ok d f bs (Z.of_nat (length bs)) 0 Hd Hh) as (d' & Hw & Hok & Hc & Ho);
    [lia|unfold int32; lia|lia|done|].
  replace (Z.max 0 (Z.min (Z.of_nat (length bs)) (numBytes (hdr f) - 0))) with (Z.of_nat (length bs)) in * by lia.
  exists d'. split_and!; try done. rewrite Hc, Nat2Z.id, take_ge by lia. apply blit_all.
  pose proof (contents_length (ss_data d) (hdr f) (ss_wf d Hd) Hh). lia.
Qed.

Lemma write_dir d fs dir :
  ss_ok d → wf_file (dir_hdr fs) → numBytes (dir_hdr fs) = DirectoryFileSize →
  wf_dir dir → tableSize dir = NumDirEntries →
  ∃ d', Directory.WriteBack dir (directoryFile fs) d = Ok (tt, d') ∧ ss_ok d' ∧
    dir_of (ss_data d') fs = dir ∧
    ∀ t, 0 <= t → t ∉ data_sectors (dir_hdr fs) → sec (ss_data d') t = sec (ss_data d) t.
Proof.
  intros Hd Hh Hn Hwd Hsz.
  assert (Hlen : length (table dir) = 10%nat).
  { pose proof (wd_size _ Hwd) as Hw. rewrite Hsz in Hw. unfold NumDirEntries in Hw. lia. }
  assert (Hl : length (table_bytes (table dir)) = 200%nat).
  { rewrite table_bytes_length by apply Hwd. lia. }
  destruct (write_full d (directoryFile fs) (table_bytes (table dir)) Hd Hh) as (d' & Hw & Hok & Hc & Ho).
  { fold (dir_hdr fs). rewrite Hn, Hl. done. }
  { apply table_bytes_bytes, Hwd. }
  { rewrite Hl. lia. }
  unfold Directory.WriteBack. rewrite Hsz. rewrite Hl in Hw.
  change (NumDirEntries * sizeof_DirectoryEntry) with (Z.of_nat 200).
  rewrite (st_bind_eq _ _ _ _ _ Hw). exists d'. split_and!; try done.
  unfold dir_of. fold (dir_hdr fs) in Hc. rewrite Hc, <- Hlen, table_roundtrip by apply Hwd.
  rewrite <- Hsz. by destruct dir.
Qed.

Lemma write_map d fs b :
  ss_ok d → wf_file (map_hdr fs) → numBytes (map_hdr fs) = FreeMapFileSize →
  wf b → numBits b = NumSectors →
  ∃ d', BitMap_WriteBack b (freeMapFile fs) d = Ok (tt, d') ∧ ss_ok d' ∧
    map_of (ss_data d') fs = b ∧
    ∀ t, 0 <= t → t ∉ data_sectors (map_hdr fs) → sec (ss_data d') t = sec (ss_data d) t.
Proof.
  intros Hd Hh Hn Hwb Hsz.
  assert (Hnw : numWords b = 32) by (by rewrite (wf_words _ Hwb), Hsz).
  pose proof (wf_length _ Hwb) as Hlen. rewrite Hnw in Hlen.
  assert (Hl : length (WriteBack_bytes b) = 128%nat).
  { unfold WriteBack_bytes. rewrite words_to_bytes_length, length_take, Hnw. lia. }
  destruct (write_full d (freeMapFile fs) (WriteBack_bytes b) Hd Hh) as (d' & Hw & Hok & Hc & Ho).
  { fold (map_hdr fs). rewrite Hn, Hl. done. }
  { apply words_to_bytes_bytes. }
  { rewrite Hl. lia. }
  unfold BitMap_WriteBack. rewrite Hnw. rewrite Hl in Hw.
  change (32 * 4) with (Z.of_nat 128).
  rewrite (st_bind_eq _ _ _ _ _ Hw). exists d'. split_and!; try done.
  unfold map_of. fold (map_hdr fs) in Hc. rewrite Hc.
  pose proof (bitmap_file_roundtrip b (mkBitMap NumSectors 32 []) [] Hwb) as Hr.
  rewrite app_nil_r in Hr. apply Hr; [by rewrite Hsz|by rewrite Hnw].
Qed.
End Fetch.

(** From here on the operations are used through their lemmas. *)
#[local] Opaque new_BitMap new_FileHeader Directory_new fetch_map fetch_dir Allocate Bitmap.Find
  Directory.Find Directory.Add Directory.Remove Directory.WriteBack BitMap_WriteBack.

(** ** Frames *)

(** A change of the disk outside the sectors a file owns leaves the file. *)
Lemma file_frame v v' fs k s : fs_inv v fs → disk_ok v → names v fs !! k = Some s →
  (∀ t, owns v fs (Some k) t → sec v' t = sec v t) →
  hdr_at v' s = hdr_at v s ∧ blocks v' s = blocks v s ∧
  contents v' (hdr_at v s) = contents v (hdr_at v s).
Proof.
  intros Hi Hv Hk Hs.
  assert (Hh : hdr_at v' s = hdr_at v s).
  { unfold hdr_at. rewrite Hs; [done|]. exists s. split; [done|]. apply list_elem_of_here. }
  unfold blocks. rewrite Hh. split_and!; try done. apply contents_ext.
  intros t Ht. apply Hs. exists s. split; [done|]. by apply list_elem_of_further.
Qed.

(** The sectors of a file are neither those of the system nor of another file. *)
Lemma owned_not_sys v fs k t : fs_inv v fs → owns v fs (Some k) t → t ∉ sys_blocks fs.
Proof. intros Hi Ho Hs. by pose proof (fi_own _ _ Hi (Some k) None t Ho Hs). Qed.

Lemma sys_not_data fs t : t ∉ sys_blocks fs →
  t ∉ data_sectors (map_hdr fs) ∧ t ∉ data_sectors (dir_hdr fs).
Proof. unfold sys_blocks. rewrite !not_elem_of_cons, not_elem_of_app. tauto. Qed.

(** The sectors 0 and 1, and the two files of the system, are apart. *)
Lemma sys_apart v fs : fs_inv v fs →
  FreeMapSector ∉ data_sectors (map_hdr fs) ∧ FreeMapSector ∉ data_sectors (dir_hdr fs) ∧
  DirectorySector ∉ data_sectors (map_hdr fs) ∧ DirectorySector ∉ data_sectors (dir_hdr fs) ∧
  (∀ t, t ∈ data_sectors (map_hdr fs) → t ∉ data_sectors (dir_hdr fs)).
Proof.
  intros Hi. pose proof (fi_sys _ _ Hi) as Hn. unfold sys_blocks in Hn.
  apply NoDup_cons in Hn as [H0 Hn]. apply NoDup_cons in Hn as [H1 Hn]. apply NoDup_app in Hn as (_ & Hn & _).
  rewrite not_elem_of_cons, not_elem_of_app in H0. rewrite not_elem_of_app in H1. tauto.
Qed.

(** ** Free space in terms of the files *)

(** Sectors a file of [c] bytes takes, with its header. *)
Definition file_cost (c : list Z) : Z := 1 + divRoundUp (Z.of_nat (length c)) SectorSize.

Definition spec_free (M : gmap (list Z) (list Z)) : Z :=
  NumSectors - 4 - map_fold (λ _ c acc, file_cost c + acc) 0 M.

Lemma divRoundUp_neg n : n <= 0 → divRoundUp n SectorSize <= 0.
Proof.
  intros Hn. unfold divRoundUp, SectorSize.
  destruct (Z.gtb_spec (Z.rem n 512) 0); Z.to_euclidean_division_equations; lia.
Qed.

Lemma blocks_length v s : disk_ok v → wf_file (hdr_at v s) →
  Z.of_nat (length (blocks v s)) = file_cost (contents v (hdr_at v s)).
Proof.
  intros Hv Hw. unfold blocks, file_cost. cbn [length]. rewrite data_sectors_length by done.
  rewrite contents_length by done. rewrite (wf_count _ Hw).
  destruct (decide (0 <= numBytes (hdr_at v s))) as [Hn|Hn].
  - rewrite Z.max_r by done. pose proof (divRoundUp_bounds _ SectorSize Hn ltac:(unfold SectorSize; lia)).
    unfold SectorSize in *. lia.
  - rewrite Z.max_l by lia. pose proof (divRoundUp_neg (numBytes (hdr_at v s)) ltac:(lia)).
    change (divRoundUp 0 SectorSize) with 0. lia.
Qed.

Lemma sys_length fs v : fs_inv v fs → length (sys_blocks fs) = 4%nat.
Proof.
  intros Hi. destruct (fi_map _ _ Hi) as [Hm Hmn], (fi_dir _ _ Hi) as [Hd Hdn].
  unfold sys_blocks. cbn [length]. rewrite length_app, !data_sectors_length by done.
  rewrite (wf_count _ Hm), (wf_count _ Hd), Hmn, Hdn. done.
Qed.

(** All sectors owned, one after the other. *)
Definition all_blocks (v : list (list Z)) (fs : FileSystem) : list Z :=
  sys_blocks fs ++ (map_to_list (names v fs) ≫= λ ks, blocks v (snd ks)).

Lemma NoDup_bind_disjoint {A B} (f : A → list B) l :
  NoDup l → (∀ x, x ∈ l → NoDup (f x)) →
  (∀ x y b, x ∈ l → y ∈ l → b ∈ f x → b ∈ f y → x = y) → NoDup (l ≫= f).
Proof.
  induction 1 as [|x l Hx _ IH]; intros Hf Hd; [constructor|]. rewrite bind_cons. apply NoDup_app. split_and!.
  - apply Hf. apply list_elem_of_here.
  - intros b Hb [y [Hby Hy]]%list_elem_of_bind.
    rewrite (Hd x y b) in Hx; [done|apply list_elem_of_here|by apply list_elem_of_further|done|done].
  - apply IH; [intros y Hy; apply Hf; by apply list_elem_of_further|].
    intros y z b Hy Hz. apply Hd; by apply list_elem_of_further.
Qed.

Lemma all_blocks_owned v fs t : t ∈ all_blocks v fs ↔ ∃ o, owns v fs o t.
Proof.
  unfold all_blocks. rewrite elem_of_app, list_elem_of_bind. split.
  - intros [Hs|([k s] & Ht & Hin)]; [by exists None|]. exists (Some k), s.
    by apply elem_of_map_to_list in Hin.
  - intros [[k|] Ho]; [right|by left]. destruct Ho as (s & Hk & Ht). exists (k, s).
    split; [done|]. by apply elem_of_map_to_list.
Qed.

Lemma all_blocks_nodup v fs : fs_inv v fs → NoDup (all_blocks v fs).
Proof.
  intros Hi. unfold all_blocks. apply NoDup_app. split_and!; [apply Hi| |].
  - intros t Hs [[k s] [Ht Hin]]%list_elem_of_bind. apply elem_of_map_to_list in Hin.
    apply (owned_not_sys v fs k t Hi); [by exists s|done].
  - apply NoDup_bind_disjoint; [apply NoDup_map_to_list| |].
    + intros [k s] Hin. apply elem_of_map_to_list in Hin. by destruct (fi_files _ _ Hi k s Hin) as (_ & _ & ?).
    + intros [k s] [k' s'] b Hin Hin' Hb Hb'. apply elem_of_map_to_list in Hin, Hin'.
      assert (Heq : Some k = Some k') by (by apply (fi_own _ _ Hi _ _ b); [exists s|exists s']).
      simplify_eq. done.
Qed.

Lemma sum_costs (l : list (list Z * Z)) v :
  (∀ ks, ks ∈ l → Z.of_nat (length (blocks v (snd ks))) = file_cost (contents v (hdr_at v (snd ks)))) →
  Z.of_nat (length (l ≫= λ ks, blocks v (snd ks))) =
  foldr (λ ks acc, file_cost (contents v (hdr_at v (snd ks))) + acc) 0 l.
Proof.
  induction l as [|ks l IH]; intros Hl; [done|]. rewrite bind_cons, length_app. cbn [foldr].
  rewrite Nat2Z.inj_add, IH, Hl; [done|apply list_elem_of_here|].
  intros ks' Hin. apply Hl. by apply list_elem_of_further.
Qed.

(** The free sectors are those the files leave. *)
Lemma free_count_files v fs : disk_ok v → fs_inv v fs → free_count v fs = spec_free (files v fs).
Proof.
  intros Hv Hi. unfold free_count, spec_free, files.
  assert (Hu : used (map_of v fs) = list_to_set (all_blocks v fs)).
  { apply set_eq. intros t. rewrite elem_of_list_to_set, all_blocks_owned. apply Hi. }
  rewrite Hu, size_list_to_set by (by apply all_blocks_nodup).
  unfold all_blocks. rewrite length_app, (sys_length fs v Hi), Nat2Z.inj_add, sum_costs.
  2: { intros [k s] Hin. apply elem_of_map_to_list in Hin.
       destruct (fi_files _ _ Hi k s Hin) as (_ & Hw & _). by apply blocks_length. }
  rewrite map_fold_fmap, map_fold_foldr. 
  match goal with |- _ - (_ + ?a) = _ - _ - ?b => assert (a = b) as ->; [|lia] end.
  induction (map_to_list (names v fs)) as [|[k s] l IH]; [done|]. simpl. by rewrite IH.
Qed.

(** ** Create *)

(** The header of a new file: sectors that were free. *)
Definition fresh_header (b : BitMap) (s : Z) (h : FileHeader) : Prop :=
  wf_file h ∧ s ∉ data_sectors h ∧ ∀ t, t ∈ data_sectors h → t ∉ used b.

(** From [v] to [v'] a file named [k] was added, its header [h] in sector [s]. *)
Record created (v v' : list (list Z)) (fs : FileSystem) (k : list Z) (s : Z) (h : FileHeader) : Prop := {
  cr_new : names v fs !! k = None;
  cr_sector : 0 <= s < NumSectors ∧ s ∉ used (map_of v fs);
  cr_fresh : fresh_header (map_of v fs) s h;
  cr_dir : wf_dir (dir_of v' fs);
  cr_names : names v' fs = <[k := s]> (names v fs);
  cr_hdr : hdr_at v' s = h;
  cr_keep t : 0 <= t → t ∉ data_sectors (map_hdr fs) → t ∉ data_sectors (dir_hdr fs) → t ≠ s →
    sec v' t = sec v t;
  cr_used : used (map_of v' fs) = list_to_set (data_sectors h) ∪ ({[s]} ∪ used (map_of v fs));
}.

Section Created.
Context (v v' : list (list Z)) (fs : FileSystem) (k : list Z) (s : Z) (h : FileHeader).
Context (Hv : disk_ok v) (Hi : fs_inv v fs) (Hc : created v v' fs k s h).

Lemma created_apart o t : owns v fs o t → t ∉ s :: data_sectors h.
Proof using Hi Hc.
  intros Ho. assert (Hu : t ∈ used (map_of v fs)) by (apply (fi_used _ _ Hi); eauto).
  destruct (cr_sector _ _ _ _ _ _ Hc) as [_ Hs], (cr_fresh _ _ _ _ _ _ Hc) as (_ & _ & Hf).
  rewrite not_elem_of_cons. split; [congruence|]. intros Ht. by apply (Hf t).
Qed.

Lemma created_old k' s' : names v fs !! k' = Some s' →
  hdr_at v' s' = hdr_at v s' ∧ blocks v' s' = blocks v s' ∧
  contents v' (hdr_at v s') = contents v (hdr_at v s').
Proof using Hv Hi Hc.
  intros Hk. apply (file_frame v v' fs k' s' Hi Hv Hk). intros t Ho.
  pose proof (owned_not_sys v fs k' t Hi Ho) as Hns. destruct (sys_not_data fs t Hns).
  pose proof (created_apart _ _ Ho) as [Hts _]%not_elem_of_cons.
  apply (cr_keep _ _ _ _ _ _ Hc); try done. by apply (owned_range v fs (Some k')).
Qed.

Lemma created_owns o t : owns v' fs o t ↔ (o = Some k ∧ t ∈ s :: data_sectors h) ∨ owns v fs o t.
Proof using Hv Hi Hc.
  destruct o as [k'|]; cbn [owns].
  2: { split; [by right|intros [[? _]|?]; done]. }
  rewrite (cr_names _ _ _ _ _ _ Hc). unfold blocks at 1. split.
  - intros (s' & [[<- <-]|[Hne Hk]]%lookup_insert_Some & Ht).
    + left. rewrite (cr_hdr _ _ _ _ _ _ Hc) in Ht. done.
    + right. exists s'. split; [done|]. destruct (created_old k' s' Hk) as (_ & <- & _). done.
  - intros [[[= ->] Ht]|(s' & Hk & Ht)].
    + exists s. rewrite lookup_insert_eq, (cr_hdr _ _ _ _ _ _ Hc). done.
    + exists s'. destruct (created_old k' s' Hk) as (_ & Hb & _). rewrite <- Hb in Ht. split; [|done].
      rewrite lookup_insert_ne; [done|]. intros <-. pose proof (cr_new _ _ _ _ _ _ Hc). congruence.
Qed.

Lemma created_inv : fs_inv v' fs.
Proof using Hv Hi Hc.
  destruct (cr_sector _ _ _ _ _ _ Hc) as [Hs Hsu], (cr_fresh _ _ _ _ _ _ Hc) as (Hwh & Hsd & Hf).
  assert (Hsys : s ∉ sys_blocks fs).
  { intros Hin. apply (created_apart None s Hin), list_elem_of_here. }
  destruct (sys_apart _ _ Hi) as (A1 & A2 & A3 & A4 & _).
  split; try apply Hi.
  - unfold hdr_at. rewrite !(cr_keep _ _ _ _ _ _ Hc); try done;
      try (intros <-; apply Hsys; unfold sys_blocks; rewrite !elem_of_cons; tauto).
    apply Hi.
  - apply Hc.
  - intros k' s' Hk. rewrite (cr_names _ _ _ _ _ _ Hc) in Hk.
    apply lookup_insert_Some in Hk as [[<- <-]|[Hne Hk]].
    + unfold blocks. rewrite (cr_hdr _ _ _ _ _ _ Hc). split_and!; try done; try lia.
      constructor; [done|]. apply Hwh.
    + destruct (created_old k' s' Hk) as (-> & -> & _). by apply (fi_files _ _ Hi k').
  - intros o o' t [[-> Ht]|Ho]%created_owns [[-> Ht']|Ho']%created_owns; try done.
    + by apply created_apart in Ho'.
    + by apply created_apart in Ho.
    + by apply (fi_own _ _ Hi _ _ t).
  - intros t. rewrite (cr_used _ _ _ _ _ _ Hc), !elem_of_union, elem_of_singleton, elem_of_list_to_set.
    rewrite (fi_used _ _ Hi). setoid_rewrite created_owns. setoid_rewrite elem_of_cons. naive_solver.
Qed.

Lemma created_files : files v' fs = <[k := contents v' h]> (files v fs).
Proof using Hv Hi Hc.
  unfold files. rewrite (cr_names _ _ _ _ _ _ Hc), fmap_insert, (cr_hdr _ _ _ _ _ _ Hc). f_equal.
  apply map_fmap_ext. intros k' s' Hk. destruct (created_old k' s' Hk) as (-> & _ & ->). done.
Qed.
End Created.

(** ** Remove *)

(** From [v] to [v'] the file named [k] was removed. *)
Record removed (v v' : list (list Z)) (fs : FileSystem) (k : list Z) (s : Z) : Prop := {
  rm_old : names v fs !! k = Some s;
  rm_dir : wf_dir (dir_of v' fs);
  rm_names : names v' fs = delete k (names v fs);
  rm_keep t : 0 <= t → t ∉ data_sectors (map_hdr fs) → t ∉ data_sectors (dir_hdr fs) →
    sec v' t = sec v t;
  rm_used : used (map_of v' fs) = used (map_of v fs) ∖ list_to_set (data_sectors (hdr_at v s)) ∖ {[s]};
}.

Section Removed.
Context (v v' : list (list Z)) (fs : FileSystem) (k : list Z) (s : Z).
Context (Hv : disk_ok v) (Hi : fs_inv v fs) (Hr : removed v v' fs k s).

Lemma removed_old k' s' : names v fs !! k' = Some s' →
  hdr_at v' s' = hdr_at v s' ∧ blocks v' s' = blocks v s' ∧
  contents v' (hdr_at v s') = contents v (hdr_at v s').
Proof using Hv Hi Hr.
  intros Hk. apply (file_frame v v' fs k' s' Hi Hv Hk). intros t Ho.
  pose proof (owned_not_sys v fs k' t Hi Ho) as Hns. destruct (sys_not_data fs t Hns).
  apply (rm_keep _ _ _ _ _ Hr); try done. by apply (owned_range v fs (Some k')).
Qed.

Lemma removed_owns o t : owns v' fs o t ↔ owns v fs o t ∧ o ≠ Some k.
Proof using Hv Hi Hr.
  destruct o as [k'|]; cbn [owns]; [|naive_solver].
  rewrite (rm_names _ _ _ _ _ Hr). split.
  - intros (s' & [Hne Hk]%lookup_delete_Some & Ht). destruct (removed_old k' s' Hk) as (_ & Hb & _).
    rewrite Hb in Ht. split; [eauto|congruence].
  - intros [(s' & Hk & Ht) Hne]. destruct (removed_old k' s' Hk) as (_ & Hb & _).
    exists s'. rewrite Hb, lookup_delete_ne by congruence. done.
Qed.

Lemma removed_inv : fs_inv v' fs.
Proof using Hv Hi Hr.
  destruct (sys_apart _ _ Hi) as (A1 & A2 & A3 & A4 & _).
  split; try apply Hi.
  - unfold hdr_at. rewrite !(rm_keep _ _ _ _ _ Hr); try done. apply Hi.
  - apply Hr.
  - intros k' s' Hk. rewrite (rm_names _ _ _ _ _ Hr) in Hk. apply lookup_delete_Some in Hk as [Hne Hk].
    destruct (removed_old k' s' Hk) as (-> & -> & _). by apply (fi_files _ _ Hi k').
  - intros o o' t [Ho _]%removed_owns [Ho' _]%removed_owns. by apply (fi_own _ _ Hi _ _ t).
  - intros t. rewrite (rm_used _ _ _ _ _ Hr), !elem_of_difference, elem_of_singleton, elem_of_list_to_set.
    rewrite (fi_used _ _ Hi). setoid_rewrite removed_owns. split.
    + intros [[[o Ho] Hd] Hs]. exists o. split; [done|]. intros ->. destruct Ho as (s' & Hk & Ht).
      rewrite (rm_old _ _ _ _ _ Hr) in Hk. simplify_eq. by apply elem_of_cons in Ht as [?|?].
    + intros (o & Ho & Hne).
      assert (Hnb : t ∉ blocks v s).
      { intros Ht. apply Hne, (fi_own _ _ Hi _ _ t Ho). exists s. split; [apply Hr|done]. }
      unfold blocks in Hnb. apply not_elem_of_cons in Hnb as [? ?]. eauto.
Qed.

Lemma removed_files : files v' fs = delete k (files v fs).
Proof using Hv Hi Hr.
  unfold files. rewrite (rm_names _ _ _ _ _ Hr), <- fmap_delete. apply map_fmap_ext.
  intros k' s' [_ Hk]%lookup_delete_Some. destruct (removed_old k' s' Hk) as (-> & _ & ->). done.
Qed.
End Removed.

(** ** Writing inside a file *)

Section Written.
Context (v v' : list (list Z)) (fs : FileSystem) (k : list Z) (s : Z).
Context (Hv : disk_ok v) (Hv' : disk_ok v') (Hi : fs_inv v fs) (Hk : names v fs !! k = Some s).
Context (Hkeep : ∀ t, 0 <= t → t ∉ data_sectors (hdr_at v s) → sec v' t = sec v t).

Lemma written_keep o t : owns v fs o t → o ≠ Some k ∨ t = s → sec v' t = sec v t.
Proof using Hv Hi Hk Hkeep.
  intros Ho Hor. apply Hkeep; [by apply (owned_range v fs o)|]. intros Ht.
  destruct Hor as [Hne| ->].
  - apply Hne, (fi_own _ _ Hi _ _ t Ho). exists s. split; [done|]. by apply list_elem_of_further.
  - destruct (fi_files _ _ Hi k s Hk) as (_ & _ & [Hn _]%NoDup_cons). done.
Qed.

Lemma written_sys h : (∀ t, t ∈ data_sectors h → t ∈ sys_blocks fs) → contents v' h = contents v h.
Proof using Hv Hi Hk Hkeep.
  intros Hh. apply contents_ext. intros t Ht. apply (written_keep None); [by apply Hh|by left].
Qed.

Lemma written_tables : dir_of v' fs = dir_of v fs ∧ map_of v' fs = map_of v fs ∧ names v' fs = names v fs.
Proof using Hv Hi Hk Hkeep.
  assert (Hd : dir_of v' fs = dir_of v fs).
  { unfold dir_of. rewrite written_sys; [done|]. intros t Ht. unfold sys_blocks.
    rewrite !elem_of_cons, elem_of_app. tauto. }
  assert (Hm : map_of v' fs = map_of v fs).
  { unfold map_of. rewrite written_sys; [done|]. intros t Ht. unfold sys_blocks.
    rewrite !elem_of_cons, elem_of_app. tauto. }
  unfold names. by rewrite Hd.
Qed.

Lemma written_hdr k' s' : names v fs !! k' = Some s' → hdr_at v' s' = hdr_at v s'.
Proof using Hv Hi Hk Hkeep.
  intros Hk'. unfold hdr_at. f_equal. apply (written_keep (Some k')).
  - exists s'. split; [done|]. apply list_elem_of_here.
  - destruct (decide (k' = k)) as [->|]; [right; congruence|left; congruence].
Qed.

Lemma written_inv : fs_inv v' fs.
Proof using Hv Hi Hk Hkeep.
  destruct written_tables as (Hd & Hm & Hn).
  assert (Ho : ∀ o t, owns v' fs o t ↔ owns v fs o t).
  { intros [k'|] t; [|done]. cbn [owns]. rewrite Hn. unfold blocks.
    split; intros (s' & Hk' & Ht); exists s'; rewrite ?(written_hdr k') in * by done; done. }
  split; try apply Hi.
  - assert (H0 : owns v fs None FreeMapSector) by apply list_elem_of_here.
    assert (H1 : owns v fs None DirectorySector) by apply list_elem_of_further, list_elem_of_here.
    unfold hdr_at. rewrite (written_keep None FreeMapSector H0), (written_keep None DirectorySector H1) by (by left).
    apply Hi.
  - rewrite Hd. apply Hi.
  - intros k' s' Hk'. rewrite Hn in Hk'. unfold blocks. rewrite (written_hdr k') by done.
    by apply (fi_files _ _ Hi k').
  - intros o o' t Ho1%Ho Ho2%Ho. by apply (fi_own _ _ Hi _ _ t).
  - intros t. rewrite Hm. setoid_rewrite Ho. apply Hi.
Qed.

Lemma written_files : files v' fs = <[k := contents v' (hdr_at v s)]> (files v fs).
Proof using Hv Hi Hk Hkeep.
  destruct written_tables as (_ & _ & Hn). unfold files. rewrite Hn. apply map_eq. intros k'.
  rewrite lookup_insert, !lookup_fmap. case_decide as Heq.
  - subst k'. rewrite Hk. cbn [fmap option_fmap option_map]. by rewrite (written_hdr k).
  - destruct (names v fs !! k') as [s'|] eqn:Hk'; [|done]. cbn [fmap option_fmap option_map].
    rewrite (written_hdr k') by done. f_equal. apply contents_ext. intros t Ht.
    apply (written_keep (Some k')); [|left; congruence]. exists s'. split; [done|]. by apply list_elem_of_further.
Qed.
End Written.

Section Ops.
Context `{!Uninit} {D : Type} `{SectorLaws D}.

(** The writes at the end of Create, in order. *)
Lemma create_writes d fs k s h dir b :
  let v := ss_data d in
  ss_ok d → fs_inv v fs → names v fs !! k = None →
  0 <= s < NumSectors → s ∉ used (map_of v fs) → fresh_header (map_of v fs) s h →
  wf_dir dir → tableSize dir = NumDirEntries → dir_map dir = <[k := s]> (names v fs) →
  wf b → numBits b = NumSectors →
  used b = list_to_set (data_sectors h) ∪ ({[s]} ∪ used (map_of v fs)) →
  ∃ d', (_ ← FileHdr.WriteBack h s; _ ← Directory.WriteBack dir (directoryFile fs);
         _ ← BitMap_WriteBack b (freeMapFile fs); mret true) d = Ok (true, d') ∧
    ss_ok d' ∧ created v (ss_data d') fs k s h.
Proof.
  intros v Hd Hi Hnone Hs Hsu Hfr Hwd Hsz Hdm Hwb Hnb Hub.
  destruct (fi_map _ _ Hi) as [Hm Hmn], (fi_dir _ _ Hi) as [Hdh Hdn].
  destruct (sys_apart _ _ Hi) as (_ & _ & _ & _ & A5).
  destruct (ss_write d s (header_bytes h) Hd Hs) as (d1 & Hw1 & Hok1 & Hda1); [apply header_bytes_ok, Hfr|].
  rewrite (st_bind_eq (FileHdr.WriteBack h s) _ _ _ _ Hw1).
  destruct (write_dir d1 fs dir Hok1 Hdh Hdn Hwd Hsz) as (d2 & Hw2 & Hok2 & Hdir & Hfr2).
  rewrite (st_bind_eq _ _ _ _ _ Hw2).
  destruct (write_map d2 fs b Hok2 Hm Hmn Hwb Hnb) as (d3 & Hw3 & Hok3 & Hmap & Hfr3).
  rewrite (st_bind_eq _ _ _ _ _ Hw3). exists d3. split; [done|]. split; [done|].
  set (v' := ss_data d3) in *.
  assert (Hframe : ∀ t, 0 <= t → t ∉ data_sectors (map_hdr fs) → t ∉ data_sectors (dir_hdr fs) →
    sec v' t = if decide (s = t) then header_bytes h else sec v t).
  { intros t Ht Hn1 Hn2. rewrite Hfr3, Hfr2, Hda1, sec_insert by (done || by apply ss_wf). done. }
  assert (Hsys : s ∉ sys_blocks fs) by (intros Hin; apply Hsu, (fi_used _ _ Hi); by exists None).
  assert (Hdir' : dir_of v' fs = dir).
  { rewrite <- Hdir. unfold dir_of. f_equal. f_equal. apply contents_ext. intros t Ht.
    apply Hfr3; [by apply (wf_range _ Hdh)|]. intros Hin. by apply (A5 t). }
  split; try done.
  - by rewrite Hdir'.
  - unfold names at 1. by rewrite Hdir'.
  - unfold hdr_at. destruct (sys_not_data fs s Hsys). rewrite Hframe, decide_True by (done || lia).
    apply header_roundtrip, Hfr.
  - intros t Ht Hn1 Hn2 Hne. by rewrite Hframe, decide_False.
  - by rewrite Hmap.
Qed.

(** The header Allocate fills is well formed. *)
Lemma allocated_wf fsize ds :
  let n := divRoundUp fsize SectorSize in
  int32 fsize → n <= NumDirect → length ds = length (dataSectors new_FileHeader) →
  drop (Z.to_nat n) ds = drop (Z.to_nat n) (dataSectors new_FileHeader) →
  NoDup (take (Z.to_nat n) ds) → (∀ t, t ∈ take (Z.to_nat n) ds → 0 <= t < NumSectors) →
  wf_file (mkFH fsize n ds).
Proof.
  intros n Hsz Hn Hl Hdr Hnd Hall. destruct new_FileHeader_ok as [_ _ Hl0 Hd0].
  split; unfold data_sectors; cbn [numBytes numSectors dataSectors]; try done.
  split; cbn [numBytes numSectors dataSectors]; try done.
  - unfold n, int32, divRoundUp, SectorSize in *.
    destruct (Z.gtb_spec (Z.rem fsize 512) 0); Z.to_euclidean_division_equations; lia.
  - lia.
  - rewrite <- (take_drop (Z.to_nat n) ds), Hdr. apply Forall_app. split; [|by apply Forall_drop].
    apply Forall_forall. intros t Ht. apply Hall in Ht.
    unfold int32, NumSectors, SectorsPerTrack, NumTracks in *. lia.
Qed.

(** A file of one sector, on a map with a free sector. *)
Lemma allocate_one b fsize :
  wf b → numBits b = NumSectors → int32 fsize → divRoundUp fsize SectorSize = 1 →
  Z.of_nat (size (used b)) < NumSectors →
  ∃ h b' t, Allocate new_FileHeader b fsize = Ok (true, h, b') ∧ wf b' ∧ numBits b' = NumSectors ∧
    numBytes h = fsize ∧ wf_file h ∧ data_sectors h = [t] ∧ t ∉ used b ∧ used b' = {[t]} ∪ used b.
Proof.
  intros Hwb Hnb Hsz Hone Hfree.
  pose proof (Allocate_spec new_FileHeader b fsize Hwb new_FileHeader_length) as Ha. cbv zeta in Ha.
  change (ba_used b) with (used b) in Ha. change (ba_size b) with (numBits b) in Ha. rewrite Hnb, Hone in Ha.
  destruct (Z.ltb_spec (NumSectors - Z.of_nat (size (used b))) 1); [lia|].
  change (1 <=? NumDirect) with true in Ha. cbv iota in Ha.
  destruct Ha as (ds & b' & Ha & Hwb' & Hnb' & Hl & Hdr & [Hnd Hin] & Hu). rewrite <- Hone in Ha.
  destruct ds as [|t ds].
  { exfalso. pose proof new_FileHeader_length as Hf. rewrite <- Hl, NumDirect_eq in Hf. simpl in Hf. lia. }
  change (take (Z.to_nat 1) (t :: ds)) with [t] in *.
  change (ba_used b) with (used b) in Hin. change (ba_size b) with (numBits b) in Hin. rewrite Hnb in Hin.
  destruct (Hin t ltac:(apply list_elem_of_here)) as [Ht Hnt].
  eexists _, b', t. split; [exact Ha|]. split_and!; try done.
  - apply allocated_wf; rewrite ?Hone; try done. intros t' Ht'. apply list_elem_of_singleton in Ht' as ->. done.
  - unfold data_sectors. cbn [numSectors dataSectors]. by rewrite Hone.
  - change (used b' = list_to_set [t] ∪ used b) in Hu. by rewrite Hu, list_to_set_singleton_L.
Qed.

(** The free map Create works on, and the header Allocate fills. *)
Lemma allocate_fresh v fs s b1 fsize :
  disk_ok v → fs_inv v fs → int32 fsize → s ∉ used (map_of v fs) →
  wf b1 → numBits b1 = NumSectors → used b1 = {[s]} ∪ used (map_of v fs) →
  let n := divRoundUp fsize SectorSize in
  let free := spec_free (files v fs) in
  if free - 1 <? n then ∃ h, Allocate new_FileHeader b1 fsize = Ok (false, h, b1)
  else if n <=? NumDirect then
    ∃ h b2, Allocate new_FileHeader b1 fsize = Ok (true, h, b2) ∧ wf b2 ∧ numBits b2 = NumSectors ∧
      numBytes h = fsize ∧ fresh_header (map_of v fs) s h ∧
      used b2 = list_to_set (data_sectors h) ∪ ({[s]} ∪ used (map_of v fs))
  else Allocate new_FileHeader b1 fsize = Undef.
Proof.
  intros Hv Hi Hsz Hs Hwb Hnb Hub n free.
  pose proof (Allocate_spec new_FileHeader b1 fsize Hwb new_FileHeader_length) as Ha.
  cbv zeta in Ha. fold n in Ha. change (ba_used b1) with (used b1) in Ha. change (ba_size b1) with (numBits b1) in Ha.
  rewrite Hub, Hnb in Ha. rewrite size_union, size_singleton in Ha by (by apply disjoint_singleton_l).
  assert (Hf : NumSectors - Z.of_nat (1 + size (used (map_of v fs))) = free - 1).
  { unfold free. rewrite <- (free_count_files v fs Hv Hi). unfold free_count. lia. }
  rewrite Hf in Ha. destruct (Z.ltb_spec (free - 1) n) as [Hlt|Hge]; [eauto|].
  destruct (Z.leb_spec n NumDirect) as [Hn|Hn]; [|done].
  destruct Ha as (ds & b2 & Ha & Hwb2 & Hnb2 & Hl & Hdr & [Hnd Hin] & Hu2).
  eexists _, b2. split; [exact Ha|]. split_and!; try done.
  change (ba_used b1) with (used b1) in Hin. change (ba_size b1) with (numBits b1) in Hin.
  rewrite Hub, Hnb in Hin. unfold fresh_header, data_sectors. cbn [numSectors dataSectors]. split_and!.
  - apply allocated_wf; try done. intros t Ht. by destruct (Hin t Ht).
  - intros Ht. destruct (Hin s Ht) as [_ Hn2]. apply Hn2, elem_of_union_l. by apply elem_of_singleton.
  - intros t Ht. destruct (Hin t Ht) as [_ Hn2]. intros Hu. apply Hn2. by apply elem_of_union_r.
Qed.

(** A name's sector as Directory::Find reports it. *)
Lemma find_in_dir v fs nm : fs_inv v fs →
  Directory.Find (dir_of v fs) nm = Ok (default (-1) (names v fs !! key nm)) ∧
  ∀ s, names v fs !! key nm = Some s → 0 <= s.
Proof.
  intros Hi. split; [apply Find_spec, Hi|]. intros s Hs.
  by destruct (fi_files _ _ Hi _ _ Hs) as [? _]; lia.
Qed.

(** Whether Create finds a sector for the header, an entry and the data. *)
Definition can_create (M : gmap (list Z) (list Z)) (k : list Z) (fsize : Z) : bool :=
  bool_decide (M !! k = None) && (1 <=? spec_free M) && (Z.of_nat (size M) <? NumDirEntries) &&
  (divRoundUp fsize SectorSize <=? spec_free M - 1).

Lemma files_lookup_None v fs k : files v fs !! k = None ↔ names v fs !! k = None.
Proof. unfold files. rewrite lookup_fmap. apply fmap_None. Qed.

Lemma Create_ok d fs nm fsize :
  let v := ss_data d in
  ss_ok d → fs_inv v fs → Forall byte nm → int32 fsize →
  if can_create (files v fs) (key nm) fsize then
    if divRoundUp fsize SectorSize <=? NumDirect then
      ∃ d' c, Create fs nm fsize d = Ok (true, d') ∧ ss_ok d' ∧ fs_inv (ss_data d') fs ∧
        files (ss_data d') fs = <[key nm := c]> (files v fs) ∧ Z.of_nat (length c) = Z.max 0 fsize
    else Create fs nm fsize d = Undef
  else ∃ d', Create fs nm fsize d = Ok (false, d') ∧ ss_ok d' ∧ ss_data d' = v.
Proof.
  intros v Hd Hi Hnm Hsz. pose proof (ss_wf d Hd : disk_ok v) as Hv.
  remember (Create fs nm fsize d) as r eqn:Hr. unfold Create in Hr. unfold can_create.
  destruct (fetch_dir_ok d fs Hd Hi) as (d1 & Hd1 & Hok1 & Hda1). fold v in Hd1, Hda1. st_run Hr Hd1.
  destruct (find_in_dir v fs nm Hi) as [Hfind Hpos]. st_run Hr Hfind.
  destruct (names v fs !! key nm) as [s0|] eqn:Hk; cbn [default] in Hr.
  { rewrite bool_decide_eq_false_2 by (rewrite files_lookup_None; congruence). cbn [andb].
    unfold id in Hr. destruct (Z.eqb_spec s0 (-1)); [specialize (Hpos _ eq_refl); lia|].
    rewrite Hr. by exists d1. }
  rewrite bool_decide_eq_true_2 by (by apply files_lookup_None). cbn [andb].
  destruct (fetch_map_ok d1 fs Hok1) as (d2 & Hd2 & Hok2 & Hda2); [by rewrite Hda1|].
  rewrite Hda1 in Hd2, Hda2. st_run Hr Hd2.
  rewrite <- (free_count_files v fs Hv Hi). unfold free_count.
  set (free := NumSectors - Z.of_nat (size (used (map_of v fs)))) in *.
  destruct (Find_used (map_of v fs) (map_of_wf v fs Hv Hi))
    as [(Hlt & s & b1 & HF & Hwb1 & Hnb1 & Hs & Hns & _ & Hub1)|[Hfull HF]]; st_run Hr HF;
    change (numBits (map_of v fs)) with NumSectors in *.
  2: { destruct (Z.leb_spec 1 free); [lia|]. rewrite Hr. by exists d2. }
  destruct (Z.leb_spec 1 free); [|lia]. cbn [andb].
  destruct (Z.eqb_spec s (-1)); [lia|].
  assert (Hsi : int32 s) by (unfold int32, NumSectors, SectorsPerTrack, NumTracks in *; lia).
  pose proof (Add_spec (dir_of v fs) nm s (fi_table _ _ Hi) Hnm Hsi) as HA.
  fold (names v fs) in HA. rewrite Hk in HA. cbn [tableSize dir_of] in HA.
  unfold files at 1. rewrite map_size_fmap.
  destruct (Z.ltb_spec (Z.of_nat (size (names v fs))) NumDirEntries); cbn [andb].
  2: { st_run Hr HA. rewrite Hr. by exists d2. }
  destruct HA as (dir & HA & Hwd & Hts & Hdm). st_run Hr HA.
  pose proof (allocate_fresh v fs s b1 fsize Hv Hi Hsz Hns Hwb1 Hnb1 Hub1) as Hal. cbv zeta in Hal.
  rewrite <- (free_count_files v fs Hv Hi) in Hal. change (free_count v fs) with free in Hal.
  destruct (Z.ltb_spec (free - 1) (divRoundUp fsize SectorSize)), (Z.leb_spec (divRoundUp fsize SectorSize) (free - 1));
    try lia.
  { destruct Hal as (h & Hal). st_run Hr Hal. rewrite Hr. by exists d2. }
  destruct (divRoundUp fsize SectorSize <=? NumDirect).
  2: { rewrite Hr. unfold mbind, st_bind, st_lift. by rewrite Hal. }
  destruct Hal as (h & b2 & Hal & Hwb2 & Hnb2 & Hnb & Hfr & Hub2). st_run Hr Hal.
  rewrite <- Hda2 in Hi, Hk, Hns, Hfr, Hdm, Hub2.
  destruct (create_writes d2 fs (key nm) s h dir b2 Hok2 Hi Hk Hs Hns Hfr Hwd Hts Hdm Hwb2 Hnb2 Hub2)
    as (d3 & Hw & Hok3 & Hcr).
  pose proof (ss_wf d2 Hok2) as Hv2. exists d3, (contents (ss_data d3) h). split_and!.
  - by rewrite Hr.
  - done.
  - by eapply created_inv.
  - rewrite <- Hda2. by eapply created_files.
  - rewrite contents_length; [by rewrite Hnb|by apply ss_wf|apply Hfr].
Qed.

Lemma fetch_hdr_ok d s : ss_ok d → 0 <= s < NumSectors →
  ∃ d', FileHdr.FetchFrom s d = Ok (hdr_at (ss_data d) s, d') ∧ ss_ok d' ∧ ss_data d' = ss_data d.
Proof.
  intros Hd Hs. destruct (ss_read d s Hd Hs) as (bs & d' & Hrd & Hbs & Hok & Hda).
  exists d'. unfold FileHdr.FetchFrom. rewrite (st_bind_eq _ _ _ _ _ Hrd).
  split_and!; try done. unfold mret, st_ret, hdr_at, sec. by rewrite Hbs.
Qed.

(** The writes at the end of Remove, in order. *)
Lemma remove_writes d fs k s dir b :
  let v := ss_data d in
  ss_ok d → fs_inv v fs → names v fs !! k = Some s →
  wf_dir dir → tableSize dir = NumDirEntries → dir_map dir = delete k (names v fs) →
  wf b → numBits b = NumSectors →
  used b = used (map_of v fs) ∖ list_to_set (data_sectors (hdr_at v s)) ∖ {[s]} →
  ∃ d', (_ ← BitMap_WriteBack b (freeMapFile fs); _ ← Directory.WriteBack dir (directoryFile fs);
         mret true) d = Ok (true, d') ∧
    ss_ok d' ∧ removed v (ss_data d') fs k s.
Proof.
  intros v Hd Hi Hk Hwd Hsz Hdm Hwb Hnb Hub.
  destruct (fi_map _ _ Hi) as [Hm Hmn], (fi_dir _ _ Hi) as [Hdh Hdn].
  destruct (sys_apart _ _ Hi) as (_ & _ & _ & _ & A5).
  destruct (write_map d fs b Hd Hm Hmn Hwb Hnb) as (d1 & Hw1 & Hok1 & Hmap & Hfr1).
  rewrite (st_bind_eq _ _ _ _ _ Hw1).
  destruct (write_dir d1 fs dir Hok1 Hdh Hdn Hwd Hsz) as (d2 & Hw2 & Hok2 & Hdir & Hfr2).
  rewrite (st_bind_eq _ _ _ _ _ Hw2). exists d2. split; [done|]. split; [done|].
  assert (Hmap' : map_of (ss_data d2) fs = b).
  { rewrite <- Hmap. unfold map_of. f_equal. f_equal. apply contents_ext. intros t Ht.
    apply Hfr2; [by apply (wf_range _ Hm)|by apply A5]. }
  split; try done.
  - by rewrite Hdir.
  - unfold names at 1. by rewrite Hdir.
  - intros t Ht Hn1 Hn2. by rewrite Hfr2, Hfr1.
  - by rewrite Hmap'.
Qed.

Lemma Remove_ok d fs nm :
  let v := ss_data d in
  ss_ok d → fs_inv v fs →
  match files v fs !! key nm with
  | None => ∃ d', Remove fs nm d = Ok (false, d') ∧ ss_ok d' ∧ ss_data d' = v
  | Some _ => ∃ d', Remove fs nm d = Ok (true, d') ∧ ss_ok d' ∧ fs_inv (ss_data d') fs ∧
      files (ss_data d') fs = delete (key nm) (files v fs)
  end.
Proof.
  intros v Hd Hi. pose proof (ss_wf d Hd : disk_ok v) as Hv.
  remember (Remove fs nm d) as r eqn:Hr. unfold Remove in Hr.
  destruct (fetch_dir_ok d fs Hd Hi) as (d1 & Hd1 & Hok1 & Hda1). fold v in Hd1, Hda1. st_run Hr Hd1.
  destruct (find_in_dir v fs nm Hi) as [Hfind Hpos]. st_run Hr Hfind.
  unfold files at 1. rewrite lookup_fmap.
  destruct (names v fs !! key nm) as [s|] eqn:Hk; cbn [default fmap option_fmap option_map] in *.
  2: { rewrite Hr. by exists d1. }
  unfold id in Hr. destruct (Z.eqb_spec s (-1)); [specialize (Hpos _ eq_refl); lia|].
  destruct (fi_files _ _ Hi _ _ Hk) as (Hs & Hwf & Hnd).
  destruct (fetch_hdr_ok d1 s Hok1 Hs) as (d2 & Hf & Hok2 & Hda2). rewrite Hda1 in Hf, Hda2. st_run Hr Hf.
  destruct (fetch_map_ok d2 fs Hok2) as (d3 & Hd3 & Hok3 & Hda3); [by rewrite Hda2|].
  rewrite Hda2 in Hd3, Hda3. st_run Hr Hd3.
  assert (Hown : ∀ t, t ∈ blocks v s → t ∈ used (map_of v fs)).
  { intros t Ht. apply (fi_used _ _ Hi). exists (Some (key nm)), s. done. }
  destruct (Deallocate_ok (hdr_at v s) (map_of v fs)) as (b1 & Hb1 & Hwb1 & Hnb1 & Hub1).
  { by apply map_of_wf. }
  { rewrite (ho_length _ (wf_hdr _ Hwf)). apply Hwf. }
  { apply Hwf. }
  { intros t Ht. by apply Hown, list_elem_of_further. }
  st_run Hr Hb1.
  destruct (Clear_used b1 s Hwb1) as (b2 & Hb2 & Hwb2 & Hnb2 & Hub2).
  { change (numBits b1 = NumSectors) in Hnb1. lia. }
  st_run Hr Hb2.
  pose proof (Directory.Remove_spec (dir_of v fs) nm (fi_table _ _ Hi)) as HR.
  fold (names v fs) in HR. rewrite Hk in HR. destruct HR as (dir & HR & Hwd & Hts & Hdm). st_run Hr HR.
  destruct (remove_writes d3 fs (key nm) s dir b2) as (d4 & Hw & Hok4 & Hrm); try rewrite Hda3; try done.
  { by rewrite Hnb2. }
  { rewrite Hub2. change (ba_used b1) with (used b1) in Hub1. by rewrite Hub1. }
  exists d4. rewrite Hda3 in Hrm. split_and!; [by rewrite Hr|done|by eapply removed_inv|by eapply removed_files].
Qed.

(** ** Open, reading and writing *)

Lemma OpenFile_new_ok d s gt : ss_ok d → 0 <= s < NumSectors →
  ∃ d', OpenFile_new s gt d = Ok (mkOF (hdr_at (ss_data d) s) 0 gt, d') ∧ ss_ok d' ∧
    ss_data d' = ss_data d.
Proof.
  intros Hd Hs. destruct (fetch_hdr_ok d s Hd Hs) as (d' & Hf & Hok & Hda).
  exists d'. unfold OpenFile_new. by rewrite (st_bind_eq _ _ _ _ _ Hf).
Qed.

Lemma Open_ok d fs nm gt :
  let v := ss_data d in
  ss_ok d → fs_inv v fs →
  ∃ d', Open fs nm gt d = Ok ((λ s, mkOF (hdr_at v s) 0 gt) <$> names v fs !! key nm, d') ∧
    ss_ok d' ∧ ss_data d' = v.
Proof.
  intros v Hd Hi. remember (Open fs nm gt d) as r eqn:Hr. unfold Open in Hr.
  destruct (fetch_dir_ok d fs Hd Hi) as (d1 & Hd1 & Hok1 & Hda1). fold v in Hd1, Hda1. st_run Hr Hd1.
  destruct (find_in_dir v fs nm Hi) as [Hfind Hpos]. st_run Hr Hfind.
  destruct (names v fs !! key nm) as [s|] eqn:Hk; cbn [default] in Hr.
  2: { rewrite Hr. by exists d1. }
  destruct (fi_files _ _ Hi _ _ Hk) as (Hs & _). unfold id in Hr. destruct (Z.geb_spec s 0); [|lia].
  destruct (OpenFile_new_ok d1 s gt Hok1 Hs) as (d2 & Hf & Hok2 & Hda2). rewrite Hda1 in Hf, Hda2. st_run Hr Hf.
  rewrite Hr. by exists d2.
Qed.

(** An open file: the header read from disk when a file of the directory was
    opened. *)
Definition open_for (v : list (list Z)) (fs : FileSystem) (k : list Z) (f : OpenFile) : Prop :=
  ∃ s, names v fs !! k = Some s ∧ hdr f = hdr_at v s.

Lemma open_for_files v fs k f : open_for v fs k f →
  files v fs !! k = Some (contents v (hdr f)).
Proof. intros (s & Hk & ->). unfold files. by rewrite lookup_fmap, Hk. Qed.

Lemma read_file_ok d fs k f n p :
  let v := ss_data d in
  ss_ok d → fs_inv v fs → open_for v fs k f → 0 <= p → int32 (p + n) →
  ∃ d' c, files v fs !! k = Some c ∧ ReadAt f n p d = Ok (bytes_at c p n, d') ∧ ss_ok d' ∧ ss_data d' = v.
Proof.
  intros v Hd Hi Hf Hp Hn. pose proof (open_for_files v fs k f Hf) as Hc.
  destruct Hf as (s & Hk & Hh). destruct (fi_files _ _ Hi _ _ Hk) as (_ & Hwf & _).
  destruct (ReadAt_ok d f n p Hd) as (d' & Hr & Hok & Hda); try done; [by rewrite Hh|]. eauto 6.
Qed.

Lemma write_file_ok d fs k f from n p :
  let v := ss_data d in
  ss_ok d → fs_inv v fs → open_for v fs k f →
  0 <= p → int32 (p + n) → n <= Z.of_nat (length from) → Forall byte from →
  ∃ d' c, files v fs !! k = Some c ∧
    let w := Z.max 0 (Z.min n (Z.of_nat (length c) - p)) in
    WriteAt f from n p d = Ok (w, d') ∧ ss_ok d' ∧ fs_inv (ss_data d') fs ∧
    files (ss_data d') fs = <[k := blit c (Z.to_nat p) (take (Z.to_nat w) from)]> (files v fs) ∧
    (∀ k' f', open_for v fs k' f' → open_for (ss_data d') fs k' f').
Proof.
  intros v Hd Hi Hf Hp Hn Hl Hb. pose proof (open_for_files v fs k f Hf) as Hc.
  destruct Hf as (s & Hk & Hh). destruct (fi_files _ _ Hi _ _ Hk) as (_ & Hwf & _).
  pose proof (ss_wf d Hd : disk_ok v) as Hv. rewrite <- Hh in Hwf.
  destruct (WriteAt_ok d f from n p Hd Hwf) as (d' & Hw & Hok & Hcon & Hkeep); try done.
  exists d', (contents v (hdr f)). split; [done|].
  pose proof (contents_length v (hdr f) Hv Hwf) as Hlen.
  replace (Z.max 0 (Z.min n (Z.of_nat (length (contents v (hdr f))) - p)))
    with (Z.max 0 (Z.min n (numBytes (hdr f) - p))) by lia.
  cbv zeta. rewrite Hh in Hkeep. split_and!; try done.
  - by apply (written_inv v _ fs k s).
  - rewrite (written_files v _ fs k s) by done. by rewrite <- Hh, Hcon.
  - intros k' f' (s' & Hk' & Hh'). destruct (written_tables v (ss_data d') fs k s) as (_ & _ & Hnm); try done.
    exists s'. rewrite Hnm, Hh', (written_hdr v (ss_data d') fs k s Hv Hi Hk Hkeep k') by done. done.
Qed.

(** ** Mounting and formatting *)

Lemma fs_inv_ext v fs fs' : map_hdr fs' = map_hdr fs → dir_hdr fs' = dir_hdr fs →
  fs_inv v fs → fs_inv v fs' ∧ files v fs' = files v fs.
Proof.
  intros Hm Hd Hi.
  assert (Hdo : dir_of v fs' = dir_of v fs) by (unfold dir_of; by rewrite Hd).
  assert (Hmo : map_of v fs' = map_of v fs) by (unfold map_of; by rewrite Hm).
  assert (Hn : names v fs' = names v fs) by (unfold names; by rewrite Hdo).
  assert (Hs : sys_blocks fs' = sys_blocks fs) by (unfold sys_blocks; by rewrite Hd, Hm).
  assert (Ho : ∀ o t, owns v fs' o t ↔ owns v fs o t) by (intros [k|] t; cbn [owns]; rewrite ?Hn, ?Hs; done).
  split; [|unfold files; by rewrite Hn].
  split; rewrite ?Hm, ?Hd, ?Hs, ?Hdo, ?Hmo, ?Hn; try apply Hi.
  - intros o o' t Ho1%Ho Ho2%Ho. by apply (fi_own _ _ Hi _ _ t).
  - intros t. setoid_rewrite Ho. apply Hi.
Qed.

(** Opening a disk that holds a file system. *)
Lemma mount_ok d fs gt gi : ss_ok d → fs_inv (ss_data d) fs →
  ∃ fs' d', FileSystem_new false gt gi d = Ok (fs', d') ∧ ss_ok d' ∧ ss_data d' = ss_data d ∧
    fs_inv (ss_data d) fs' ∧ files (ss_data d) fs' = files (ss_data d) fs.
Proof.
  intros Hd Hi. remember (FileSystem_new false gt gi d) as r eqn:Hr. unfold FileSystem_new in Hr.
  destruct (OpenFile_new_ok d FreeMapSector gt Hd) as (d1 & Hf1 & Hok1 & Hda1); [done|]. st_run Hr Hf1.
  destruct (OpenFile_new_ok d1 DirectorySector gt Hok1) as (d2 & Hf2 & Hok2 & Hda2); [done|]. st_run Hr Hf2.
  rewrite Hda1 in Hr, Hda2. destruct (fi_disk _ _ Hi) as [Hm Hdr]. rewrite Hm, Hdr in Hr.
  eexists _, d2. rewrite Hr. split; [done|]. split_and!; try done; by apply (fs_inv_ext _ fs).
Qed.

(** A formatted disk: the two files of the system and nothing else. *)
Lemma formatted_inv v fs tm td :
  wf_file (map_hdr fs) → numBytes (map_hdr fs) = FreeMapFileSize → data_sectors (map_hdr fs) = [tm] →
  wf_file (dir_hdr fs) → numBytes (dir_hdr fs) = DirectoryFileSize → data_sectors (dir_hdr fs) = [td] →
  hdr_at v FreeMapSector = map_hdr fs → hdr_at v DirectorySector = dir_hdr fs →
  NoDup [FreeMapSector; DirectorySector; tm; td] →
  wf_dir (dir_of v fs) → names v fs = ∅ →
  used (map_of v fs) = {[td]} ∪ ({[tm]} ∪ ({[DirectorySector]} ∪ ({[FreeMapSector]} ∪ ∅))) →
  fs_inv v fs.
Proof.
  intros Hm Hmn Hmd Hd Hdn Hdd H0' H1' Hnd Hwd Hn Hu.
  assert (Hs : sys_blocks fs = [FreeMapSector; DirectorySector; tm; td]).
  { unfold sys_blocks. by rewrite Hmd, Hdd. }
  split; try done.
  - by rewrite Hs.
  - intros k s Hk. by rewrite Hn, lookup_empty in Hk.
  - intros [k|] [k'|] t Ho Ho'; try done; cbn [owns] in *; rewrite Hn in *; naive_solver.
  - intros t. rewrite Hu. rewrite !elem_of_union, !elem_of_singleton. split.
    + intros Ht. exists None. cbn [owns]. rewrite Hs, !elem_of_cons. set_solver.
    + intros [[k|] Ho]; cbn [owns] in Ho.
      * destruct Ho as (s & Hk & _). by rewrite Hn, lookup_empty in Hk.
      * rewrite Hs, !elem_of_cons in Ho. set_solver.
Qed.

(** The writes of the formatting constructor, in order. *)
Lemma format_writes d mh dh tm td b dir gt gi :
  let fs := mkFS (mkOF mh 0 gt) (mkOF dh 0 gt) None gi in
  ss_ok d → wf_file mh → numBytes mh = FreeMapFileSize → data_sectors mh = [tm] →
  wf_file dh → numBytes dh = DirectoryFileSize → data_sectors dh = [td] →
  NoDup [FreeMapSector; DirectorySector; tm; td] →
  wf b → numBits b = NumSectors →
  used b = {[td]} ∪ ({[tm]} ∪ ({[DirectorySector]} ∪ ({[FreeMapSector]} ∪ ∅))) →
  wf_dir dir → tableSize dir = NumDirEntries → dir_map dir = ∅ →
  ∃ d', (_ ← FileHdr.WriteBack mh FreeMapSector;
         _ ← FileHdr.WriteBack dh DirectorySector;
         freeMapFile ← OpenFile_new FreeMapSector gt;
         directoryFile ← OpenFile_new DirectorySector gt;
         _ ← BitMap_WriteBack b freeMapFile;
         _ ← Directory.WriteBack dir directoryFile;
         mret (mkFS freeMapFile directoryFile None gi)) d = Ok (fs, d') ∧
    ss_ok d' ∧ fs_inv (ss_data d') fs ∧ files (ss_data d') fs = ∅.
Proof.
  intros fs Hd Hmw Hmn Hmd Hdw Hdn Hdd Hnd Hwb Hnb Hub Hwd Hts Hdm.
  match goal with |- ∃ d', ?x = _ ∧ _ => remember x as r eqn:Hr end.
  destruct (ss_write d FreeMapSector (header_bytes mh) Hd) as (d1 & Hf1 & Hok1 & Hda1);
    [done|apply header_bytes_ok, Hmw|].
  change (WriteSector FreeMapSector (header_bytes mh)) with (FileHdr.WriteBack (D := D) mh FreeMapSector) in Hf1.
  st_run Hr Hf1.
  destruct (ss_write d1 DirectorySector (header_bytes dh) Hok1) as (d2 & Hf2 & Hok2 & Hda2);
    [done|apply header_bytes_ok, Hdw|].
  change (WriteSector DirectorySector (header_bytes dh)) with (FileHdr.WriteBack (D := D) dh DirectorySector) in Hf2.
  st_run Hr Hf2.
  assert (Hsec : hdr_at (ss_data d2) FreeMapSector = mh ∧ hdr_at (ss_data d2) DirectorySector = dh).
  { unfold hdr_at. rewrite Hda2, !sec_insert by (done || by apply ss_wf).
    rewrite decide_False, decide_True by done. rewrite Hda1, sec_insert by (done || by apply ss_wf).
    rewrite decide_True by done. split; apply header_roundtrip; [apply Hmw|apply Hdw]. }
  destruct Hsec as [Hs0 Hs1].
  destruct (OpenFile_new_ok d2 FreeMapSector gt Hok2) as (d3 & Hf3 & Hok3 & Hda3); [done|].
  rewrite Hs0 in Hf3. st_run Hr Hf3. rewrite <- Hda3 in Hs0, Hs1.
  destruct (OpenFile_new_ok d3 DirectorySector gt Hok3) as (d4 & Hf4 & Hok4 & Hda4); [done|].
  rewrite Hs1 in Hf4. st_run Hr Hf4. rewrite <- Hda4 in Hs0, Hs1.
  destruct (write_map d4 fs b Hok4 Hmw Hmn Hwb Hnb) as (d5 & Hf5 & Hok5 & Hmap & Hfr5). st_run Hr Hf5.
  destruct (write_dir d5 fs dir Hok5 Hdw Hdn Hwd Hts) as (d6 & Hf6 & Hok6 & Hdir & Hfr6). st_run Hr Hf6.
  assert (Hnames : names (ss_data d6) fs = ∅) by (unfold names; by rewrite Hdir).
  exists d6. split; [done|]. split; [done|]. split; [|unfold files; by rewrite Hnames].
  change (map_hdr fs) with mh in *. change (dir_hdr fs) with dh in *. rewrite Hmd in Hfr5. rewrite Hdd in Hfr6.
  assert (Hap : tm ≠ td ∧ ∀ t, t = FreeMapSector ∨ t = DirectorySector → t ∉ [tm] ∧ t ∉ [td]).
  { rewrite !NoDup_cons, !not_elem_of_cons in Hnd. destruct_and?. split; [done|].
    setoid_rewrite list_elem_of_singleton. intros t [->| ->]; done. }
  destruct Hap as [Hne Hap].
  apply (formatted_inv _ fs tm td); try done.
  - change (map_hdr fs) with mh. rewrite <- Hs0. unfold hdr_at. destruct (Hap FreeMapSector); [by left|].
    by rewrite Hfr6, Hfr5.
  - change (dir_hdr fs) with dh. rewrite <- Hs1. unfold hdr_at. destruct (Hap DirectorySector); [by right|].
    by rewrite Hfr6, Hfr5.
  - by rewrite Hdir.
  - replace (map_of (ss_data d6) fs) with b; [done|]. rewrite <- Hmap. unfold map_of. f_equal. f_equal.
    symmetry. apply contents_ext. change (map_hdr fs) with mh. rewrite Hmd. intros t ->%list_elem_of_singleton.
    apply Hfr6; [apply (wf_range _ Hmw); rewrite Hmd; apply list_elem_of_here|].
    by rewrite list_elem_of_singleton.
Qed.

Lemma format_ok d gt gi : ss_ok d →
  ∃ fs d', FileSystem_new true gt gi d = Ok (fs, d') ∧ ss_ok d' ∧ fs_inv (ss_data d') fs ∧
    files (ss_data d') fs = ∅.
Proof.
  intros Hd. remember (FileSystem_new true gt gi d) as r eqn:Hr. unfold FileSystem_new in Hr.
  destruct new_BitMap_ok as (b0 & Hb0 & Hw0 & Hn0 & _ & Hu0). st_run Hr Hb0.
  destruct Directory_new_ok as (dir & Hdir & Hwd & Hts & Hdm). st_run Hr Hdir.
  destruct (Mark_used b0 FreeMapSector Hw0) as (b1 & Hb1 & Hw1 & Hn1 & Hu1); [by rewrite Hn0|]. st_run Hr Hb1.
  destruct (Mark_used b1 DirectorySector Hw1) as (b2 & Hb2 & Hw2 & Hn2 & Hu2); [by rewrite Hn1, Hn0|]. st_run Hr Hb2.
  assert (Hsz2 : size (used b2) = 2%nat) by (rewrite Hu2, Hu1, Hu0; reflexivity).
  destruct (allocate_one b2 FreeMapFileSize) as (mh & b3 & tm & Ha & Hw3 & Hn3 & Hmb & Hmw & Hmd & Htm & Hu3);
    [done|by rewrite Hn2, Hn1|done|done|by rewrite Hsz2|]. st_run Hr Ha. cbv [ASSERT] in Hr.
  assert (Hsz3 : size (used b3) = 3%nat).
  { rewrite Hu3, size_union, size_singleton, Hsz2 by (by apply disjoint_singleton_l). done. }
  destruct (allocate_one b3 DirectoryFileSize) as (dh & b4 & td & Ha & Hw4 & Hn4 & Hdb & Hdw & Hdd & Htd & Hu4);
    [done|done|done|done|by rewrite Hsz3|].
  rewrite (st_lift_bind (Ok tt) _ d tt eq_refl) in Hr. st_run Hr Ha.
  rewrite (st_lift_bind (Ok tt) _ d tt eq_refl) in Hr.
  destruct (format_writes d mh dh tm td b4 dir gt gi) as (d' & Hw & Hok & Hi & Hf); try done.
  - rewrite Hu3, Hu2, Hu1, Hu0 in Htd. rewrite Hu2, Hu1, Hu0 in Htm.
    rewrite !not_elem_of_union, !not_elem_of_singleton in Htd. rewrite !not_elem_of_union, !not_elem_of_singleton in Htm.
    repeat constructor; rewrite ?not_elem_of_cons; unfold FreeMapSector, DirectorySector in *;
      split_and?; try apply not_elem_of_nil; destruct_and?; congruence.
  - by rewrite Hu4, Hu3, Hu2, Hu1, Hu0.
  - eexists _, d'. split; [by rewrite Hr|]. done.
Qed.
End Ops.
