(* ===== verification/FileSysSpec.v ===== *)
(** * The contract of the file system

    The abstract file system is a finite map from names (their first nine
    characters) to contents.  [spec_call] says what each call may answer and
    how it changes the map; [exec_call] runs the code of filesys/.  The
    refinement theorem takes any sequence of calls on any store that satisfies
    [SectorLaws]. *)

From Stdlib Require Import ZArith Lia Bool.
From S2P Require Import Prelude Bytes Bitmap Storage FileHdr OpenFile Directory FileSys FileSysProofs.

Local Open Scope Z_scope.

Inductive fs_call :=
| CCreate (nm : list Z) (initialSize : Z)
| CRemove (nm : list Z)
| CRead (nm : list Z) (numBytes position : Z)
| CWrite (nm : list Z) (from : list Z) (position : Z)
| CRemount.

Inductive fs_reply :=
| RBool (b : bool)
| RNull
| RBytes (bs : list Z)
| RCount (n : Z).

(** A call through the code: reading and writing open the file first; CRemount
    is a restart of the kernel without formatting. *)
Definition exec_call {D} `{SectorStore D} `{!Uninit} (c : fs_call) (fs : FileSystem)
  : ST D (fs_reply * FileSystem) :=
  match c with
  | CCreate nm n => b ← Create fs nm n; mret (RBool b, fs)
  | CRemove nm => b ← FileSys.Remove fs nm; mret (RBool b, fs)
  | CRead nm n p =>
      o ← Open fs nm 0;
      match o with
      | None => mret (RNull, fs)
      | Some f => bs ← ReadAt f n p; mret (RBytes bs, fs)
      end
  | CWrite nm from p =>
      o ← Open fs nm 0;
      match o with
      | None => mret (RNull, fs)
      | Some f => n ← WriteAt f from (Z.of_nat (length from)) p; mret (RCount n, fs)
      end
  | CRemount => fs ← FileSystem_new false 0 0; mret (RBool true, fs)
  end.

Fixpoint exec_calls {D} `{SectorStore D} `{!Uninit} (cs : list fs_call) (fs : FileSystem)
  : ST D (list fs_reply * FileSystem) :=
  match cs with
  | [] => mret ([], fs)
  | c :: cs =>
      '(r, fs) ← exec_call c fs;
      '(rs, fs) ← exec_calls cs fs;
      mret (r :: rs, fs)
  end.

(** ** The specification *)

Notation fmap_state := (gmap (list Z) (list Z)).

Inductive spec_call : fs_call → fmap_state → fs_reply → fmap_state → Prop :=
| sp_create nm n c M : can_create M (key nm) n = true → Z.of_nat (length c) = Z.max 0 n →
    spec_call (CCreate nm n) M (RBool true) (<[key nm := c]> M)
| sp_create_no nm n M : can_create M (key nm) n = false →
    spec_call (CCreate nm n) M (RBool false) M
| sp_remove nm c M : M !! key nm = Some c →
    spec_call (CRemove nm) M (RBool true) (delete (key nm) M)
| sp_remove_no nm M : M !! key nm = None →
    spec_call (CRemove nm) M (RBool false) M
| sp_read nm n p c M : M !! key nm = Some c →
    spec_call (CRead nm n p) M (RBytes (bytes_at c p n)) M
| sp_read_no nm n p M : M !! key nm = None →
    spec_call (CRead nm n p) M RNull M
| sp_write nm from p c M : M !! key nm = Some c →
    let w := Z.max 0 (Z.min (Z.of_nat (length from)) (Z.of_nat (length c) - p)) in
    spec_call (CWrite nm from p) M (RCount w)
      (<[key nm := blit c (Z.to_nat p) (take (Z.to_nat w) from)]> M)
| sp_write_no nm from p M : M !! key nm = None →
    spec_call (CWrite nm from p) M RNull M
| sp_remount M : spec_call CRemount M (RBool true) M.

Inductive spec_calls : list fs_call → fmap_state → list fs_reply → fmap_state → Prop :=
| sps_nil M : spec_calls [] M [] M
| sps_cons c cs r rs M M' M'' :
    spec_call c M r M' → spec_calls cs M' rs M'' → spec_calls (c :: cs) M (r :: rs) M''.

(** Calls inside the limits of the code: a file fits a header, positions are
    not negative, sums stay in an int, names and data are bytes. *)
Definition legal (c : fs_call) : Prop :=
  match c with
  | CCreate nm n => Forall byte nm ∧ int32 n ∧ n <= MaxFileSize
  | CRemove nm => True
  | CRead nm n p => 0 <= p ∧ int32 (p + n)
  | CWrite nm from p => 0 <= p ∧ int32 (p + Z.of_nat (length from)) ∧ Forall byte from
  | CRemount => True
  end.

Lemma max_size_fits n : n <= MaxFileSize → divRoundUp n SectorSize <= NumDirect.
Proof.
  intros Hn. destruct (decide (0 <= n)) as [H0|H0].
  - rewrite divRoundUp_spec by (unfold SectorSize; lia). unfold MaxFileSize in Hn. rewrite NumDirect_eq in *.
    unfold SectorSize in *. apply Z.lt_succ_r, Z.div_lt_upper_bound; lia.
  - pose proof (divRoundUp_neg n ltac:(lia)). rewrite NumDirect_eq. lia.
Qed.

Section Refinement.
Context `{!Uninit} {D : Type} `{SectorLaws D}.

(** The state of the code represents [M]. *)
Definition represents (d : D) (fs : FileSystem) (M : fmap_state) : Prop :=
  ss_ok d ∧ fs_inv (ss_data d) fs ∧ files (ss_data d) fs = M.

Lemma open_represents d fs nm M : represents d fs M →
  ∃ d' o, Open fs nm 0 d = Ok (o, d') ∧ represents d' fs M ∧
    match o with
    | None => M !! key nm = None
    | Some f => open_for (ss_data d') fs (key nm) f
    end.
Proof.
  intros (Hd & Hi & Hf). destruct (Open_ok d fs nm 0 Hd Hi) as (d' & Ho & Hok & Hda).
  eexists d', _. split; [exact Ho|]. split; [by rewrite <- Hda in Hi, Hf|].
  destruct (names (ss_data d) fs !! key nm) as [s|] eqn:Hk; cbn [fmap option_fmap option_map].
  - exists s. rewrite Hda. done.
  - rewrite <- Hf. by apply files_lookup_None.
Qed.

(** One call: the code returns, and answers as the specification allows. *)
Lemma exec_call_ok c d fs M : represents d fs M → legal c →
  ∃ r fs' d' M', exec_call c fs d = Ok ((r, fs'), d') ∧ spec_call c M r M' ∧ represents d' fs' M'.
Proof.
  intros HR Hc. pose proof HR as (Hd & Hi & Hf). destruct c as [nm n|nm|nm n p|nm from p|]; cbn [exec_call legal] in *.
  - destruct Hc as (Hb & Hn & Hmax). apply max_size_fits in Hmax.
    pose proof (Create_ok d fs nm n Hd Hi Hb Hn) as HC. cbv zeta in HC. rewrite Hf in HC.
    destruct (Z.leb_spec (divRoundUp n SectorSize) NumDirect); [|lia].
    destruct (can_create M (key nm) n) eqn:Hcan.
    + destruct HC as (d' & c & HC & Hok & Hi' & Hf' & Hl). rewrite (st_bind_eq _ _ _ _ _ HC).
      eexists _, fs, d', _. split; [done|]. split; [by apply (sp_create nm n c)|]. done.
    + destruct HC as (d' & HC & Hok & Hda). rewrite (st_bind_eq _ _ _ _ _ HC).
      eexists _, fs, d', M. split; [done|]. split; [by apply sp_create_no|]. by rewrite <- Hda in Hi, Hf.
  - pose proof (Remove_ok d fs nm Hd Hi) as HC. cbv zeta in HC. rewrite Hf in HC.
    destruct (M !! key nm) as [c|] eqn:Hk.
    + destruct HC as (d' & HC & Hok & Hi' & Hf'). rewrite (st_bind_eq _ _ _ _ _ HC).
      eexists _, fs, d', _. split; [done|]. split; [by apply (sp_remove nm c)|]. done.
    + destruct HC as (d' & HC & Hok & Hda). rewrite (st_bind_eq _ _ _ _ _ HC).
      eexists _, fs, d', M. split; [done|]. split; [by apply sp_remove_no|]. by rewrite <- Hda in Hi, Hf.
  - destruct Hc as [Hp Hn]. destruct (open_represents d fs nm M HR) as (d1 & o & Ho & HR1 & Hof).
    rewrite (st_bind_eq _ _ _ _ _ Ho). destruct HR1 as (Hd1 & Hi1 & Hf1). destruct o as [f|].
    + destruct (read_file_ok d1 fs (key nm) f n p Hd1 Hi1 Hof Hp Hn) as (d2 & c & Hc & Hr & Hok & Hda).
      rewrite (st_bind_eq _ _ _ _ _ Hr). rewrite Hf1 in Hc.
      eexists _, fs, d2, M. split; [done|]. split; [by apply sp_read|]. by rewrite <- Hda in Hi1, Hf1.
    + eexists _, fs, d1, M. split; [done|]. split; [by apply sp_read_no|]. done.
  - destruct Hc as (Hp & Hn & Hb). destruct (open_represents d fs nm M HR) as (d1 & o & Ho & HR1 & Hof).
    rewrite (st_bind_eq _ _ _ _ _ Ho). destruct HR1 as (Hd1 & Hi1 & Hf1). destruct o as [f|].
    + destruct (write_file_ok d1 fs (key nm) f from (Z.of_nat (length from)) p Hd1 Hi1 Hof Hp Hn)
        as (d2 & c & Hc & Hw & Hok & Hi2 & Hf2 & _); [lia|done|].
      rewrite (st_bind_eq _ _ _ _ _ Hw). rewrite Hf1 in Hc, Hf2.
      eexists _, fs, d2, _. split; [done|]. split; [by apply sp_write|]. done.
    + eexists _, fs, d1, M. split; [done|]. split; [by apply sp_write_no|]. done.
  - destruct (mount_ok d fs 0 0 Hd Hi) as (fs' & d' & Hm & Hok & Hda & Hi' & Hf').
    rewrite (st_bind_eq _ _ _ _ _ Hm). eexists _, fs', d', M. split; [done|]. split; [constructor|].
    unfold represents. rewrite Hda, Hf'. done.
Qed.

(** Sequences of calls, by induction. *)
Lemma exec_calls_ok cs d fs M :
  represents d fs M → Forall legal cs →
  ∃ rs fs' d' M', exec_calls cs fs d = Ok ((rs, fs'), d') ∧ spec_calls cs M rs M' ∧ represents d' fs' M'.
Proof.
  intros HR Hcs. revert d fs M HR. induction Hcs as [|c cs Hc _ IH]; intros d fs M HR; cbn [exec_calls].
  - exists [], fs, d, M. split; [done|]. split; [constructor|done].
  - destruct (exec_call_ok c d fs M HR Hc) as (r & fs1 & d1 & M1 & Hr & Hs & HR1).
    rewrite (st_bind_eq _ _ _ _ _ Hr). destruct (IH d1 fs1 M1 HR1) as (rs & fs2 & d2 & M2 & Hrs & Hss & HR2).
    rewrite (st_bind_eq _ _ _ _ _ Hrs). exists (r :: rs), fs2, d2, M2. split; [done|].
    split; [by econstructor|done].
Qed.

(** C3: the file system refines its specification.  On a disk that represents a
    map of names to contents, every sequence of Create, Remove, read, write and
    restart calls within the limits of the code returns (no assertion fails, no
    sector or entry outside the tables is touched), each call answers as the
    abstract file system does, error answers and exhausted space included, and
    at the end the disk again represents the map the specification has reached.
    In particular files never share sectors, a write changes one file only, and
    everything survives a restart. *)
Theorem FileSystem_refines cs d fs M :
  represents d fs M → Forall legal cs →
  ∃ rs fs' d' M', exec_calls cs fs d = Ok ((rs, fs'), d') ∧ spec_calls cs M rs M' ∧ represents d' fs' M'.
Proof. apply exec_calls_ok. Qed.

(** Formatting.  Whatever the disk holds, the constructor with format = TRUE
    returns, both assertions on the allocation of the two system files hold, and
    the disk represents the empty file system; 1020 sectors are free. *)
Theorem FileSystem_format d gt gi : ss_ok d →
  ∃ fs d', FileSystem_new true gt gi d = Ok (fs, d') ∧ represents d' fs ∅ ∧
    free_count (ss_data d') fs = 1020.
Proof.
  intros Hd. destruct (format_ok d gt gi Hd) as (fs & d' & Hr & Hok & Hi & Hf).
  exists fs, d'. split; [exact Hr|]. clear Hr. split; [done|].
  rewrite free_count_files, Hf by (done || by apply ss_wf). done.
Qed.

(** Write, then read.  After WriteAt on an open file, reading the same range
    returns the bytes written (as many as fit in the file), reading any range
    that does not meet it returns what it did before, and the sectors that do
    not belong to the file are as they were. *)
Theorem WriteAt_ReadAt d f from n p :
  ss_ok d → wf_file (hdr f) → 0 <= p → int32 (p + n) → 0 <= n <= Z.of_nat (length from) →
  Forall byte from →
  ∃ w d', WriteAt f from n p d = Ok (w, d') ∧ w = Z.max 0 (Z.min n (Length f - p)) ∧
    (∃ d2, ReadAt f w p d' = Ok (take (Z.to_nat w) from, d2)) ∧
    (∀ m q, 0 <= q → int32 (q + m) → q + m <= p ∨ p + w <= q →
       ∃ bs d1 d2, ReadAt f m q d = Ok (bs, d1) ∧ ReadAt f m q d' = Ok (bs, d2)) ∧
    (∀ t, 0 <= t → t ∉ data_sectors (hdr f) → sec (ss_data d') t = sec (ss_data d) t).
Proof.
  intros Hd Hh Hp Hn Hl Hb.
  destruct (WriteAt_ok d f from n p Hd Hh Hp Hn ltac:(lia) Hb) as (d' & Hw & Hok & Hc & Hkeep).
  set (w := Z.max 0 (Z.min n (numBytes (hdr f) - p))) in *. exists w, d'.
  pose proof (contents_length (ss_data d) (hdr f) (ss_wf d Hd) Hh) as Hcl.
  assert (Hlw : length (take (Z.to_nat w) from) = Z.to_nat w) by (rewrite length_take; unfold w; lia).
  assert (Hfit : w = 0 ∨ (Z.to_nat p + Z.to_nat w <= length (contents (ss_data d) (hdr f)))%nat) by (unfold w; lia).
  split; [done|]. split; [done|]. split_and!; try done.
  - destruct (ReadAt_ok d' f w p Hok Hh Hp) as (d2 & Hr & _); [unfold int32, w in *; lia|].
    exists d2. rewrite Hr. do 2 f_equal. destruct Hfit as [->|Hfit]; [done|].
    rewrite Hc. unfold bytes_at, blit. rewrite drop_app_length' by (rewrite length_take; lia).
    by rewrite take_app_length'.
  - intros m q Hq Hm Hdis. destruct (ReadAt_ok d f m q Hd Hh Hq Hm) as (d1 & Hr1 & _).
    destruct (ReadAt_ok d' f m q Hok Hh Hq Hm) as (d2 & Hr2 & _).
    eexists _, d1, d2. split; [exact Hr1|]. rewrite Hr2. do 2 f_equal. rewrite Hc.
    destruct Hfit as [Hw0|Hfit].
    { rewrite Hw0. change (take (Z.to_nat 0) from) with (@nil Z). by rewrite blit_nil. }
    apply list_eq. intros i. destruct (decide (i < Z.to_nat m)%nat) as [Hi|Hi].
    + rewrite !lookup_bytes_at, lookup_blit by lia. rewrite Hlw, decide_False by lia. done.
    + rewrite !lookup_ge_None_2; [done|unfold bytes_at; rewrite length_take; lia..].
Qed.

(** A file larger than a header can describe.  Create does not compare the
    number of sectors with NumDirect: when the disk has room, asking for more
    than MaxFileSize bytes writes past the array in the header object. *)
Theorem Create_too_big d fs M nm n :
  represents d fs M → Forall byte nm → int32 n → MaxFileSize < n →
  can_create M (key nm) n = true → Create fs nm n d = Undef.
Proof.
  intros (Hd & Hi & Hf) Hb Hn Hbig Hcan. pose proof (Create_ok d fs nm n Hd Hi Hb Hn) as HC.
  cbv zeta in HC. rewrite Hf, Hcan in HC.
  destruct (Z.leb_spec (divRoundUp n SectorSize) NumDirect) as [Hle|]; [|done]. exfalso.
  pose proof (divRoundUp_bounds n SectorSize) as Hbd. unfold MaxFileSize in Hbig.
  rewrite NumDirect_eq in *. unfold SectorSize in *. lia.
Qed.
End Refinement.

(** ** Witnesses *)

(** "readme", "a" *)
Definition demo_name : list Z := [114; 101; 97; 100; 109; 101].

Definition demo_calls : list fs_call :=
  [CCreate demo_name 700; CWrite demo_name [104; 105; 33] 510; CRead demo_name 5 509; CRemount;
   CCreate demo_name 10; CRemove demo_name; CRead demo_name 1 0].

Lemma demo_calls_legal : Forall legal demo_calls.
Proof.
  assert (Hb : Forall byte demo_name) by (repeat constructor; unfold byte; lia).
  repeat constructor; try done; unfold byte, int32, MaxFileSize, SectorSize; rewrite ?NumDirect_eq; simpl; lia.
Qed.

Lemma FileSystem_refines_witness :
  ∃ fs d rs fs' d' M', exec_calls demo_calls fs d = Ok ((rs, fs'), d') ∧
    spec_calls demo_calls ∅ rs M' ∧ represents (D := RamDisk) d' fs' M'.
Proof.
  destruct (format_ok (D := RamDisk) blank_disk 0 0 blank_disk_ok) as (fs & d & _ & Hok & Hi & Hf).
  exists fs, d. apply (FileSystem_refines demo_calls d fs ∅); [done|apply demo_calls_legal].
Defined.

Lemma FileSystem_format_witness :
  ∃ fs d', FileSystem_new true 7 7 blank_disk = Ok (fs, d') ∧ represents d' fs ∅.
Proof.
  destruct (FileSystem_format blank_disk 7 7 blank_disk_ok) as (fs & d' & H1 & H2 & _).
  exists fs, d'. exact (conj H1 H2).
Defined.

(** A file of 700 bytes in sectors 10 and 12. *)
Definition demo_file : OpenFile :=
  mkOF (mkFH 700 2 (10 :: 12 :: replicate 124 0)) 0 0.

Lemma demo_file_wf : wf_file (hdr demo_file).
Proof.
  split; cbn [hdr demo_file numSectors numBytes].
  - split; cbn [numBytes numSectors dataSectors]; try (unfold int32; lia); [done|].
    do 2 (constructor; [unfold int32; lia|]). apply Forall_replicate. unfold int32. lia.
  - done.
  - rewrite NumDirect_eq. lia.
  - intros s. change (data_sectors _) with [10; 12]. rewrite !elem_of_cons, elem_of_nil.
    unfold NumSectors, SectorsPerTrack, NumTracks. lia.
  - change (data_sectors _) with [10; 12]. apply (bool_decide_unpack _). by vm_compute.
Qed.

Lemma WriteAt_ReadAt_witness :
  ∃ d', WriteAt demo_file [1; 2; 3] 3 511 blank_disk = Ok (3, d') ∧
    ∃ d2, ReadAt demo_file 3 511 d' = Ok ([1; 2; 3], d2).
Proof.
  destruct (WriteAt_ReadAt blank_disk demo_file [1; 2; 3] 3 511 blank_disk_ok demo_file_wf)
    as (w & d' & H1 & H2 & H3 & _).
  - lia.
  - unfold int32. lia.
  - simpl. lia.
  - repeat constructor; unfold byte; lia.
  - change (Z.max 0 (Z.min 3 (Length demo_file - 511))) with 3 in H2. subst w. exists d'. done.
Defined.

Lemma Create_too_big_witness :
  ∃ fs d, represents (D := RamDisk) d fs ∅ ∧ Create fs demo_name 64513 d = Undef.
Proof.
  destruct (format_ok (D := RamDisk) blank_disk 0 0 blank_disk_ok) as (fs & d & _ & Hok & Hi & Hf).
  exists fs, d. split; [done|]. apply (Create_too_big d fs ∅ demo_name 64513).
  - done.
  - repeat constructor; unfold byte; lia.
  - unfold int32. lia.
  - unfold MaxFileSize, SectorSize. rewrite NumDirect_eq. lia.
  - reflexivity.
Defined.
