(* ===== verification/Disk.v ===== *)
(** * machine/disk.cc and filesys/synchdisk.cc: the disk

    The disk device keeps its data in a UNIX file after a magic number, answers
    one request at a time, and signals completion by an interrupt whose time
    follows from the position of the head.  SynchDisk waits for it.  Here one
    kernel thread uses the disk: while it sleeps in P no other thread is ready
    and the machine idles until the interrupt wakes it.  The pair satisfies
    [SectorLaws], so the theorems of the file system hold on it. *)

From Stdlib Require Import ZArith Lia Bool.
From S2P Require Import Prelude NList Bytes Machine Interrupt InterruptProofs Storage.

Local Open Scope Z_scope.

Definition MagicNumber : Z := 0x456789ab.
Definition MagicSize : Z := 4.
Definition DiskSize : Z := MagicSize + NumSectors * Storage.SectorSize.

(** class Disk; [fileno] stands for the bytes of the UNIX file. *)
Record Disk := mkDisk {
  fileno : list Z;
  active : bool;
  lastSector : Z;
  bufferInit : Z;
}.

(** The functions interrupts call here. *)
Inductive DiskHandler := DiskDone.

(** The global synchDisk: its semaphore ([value], [queue]) and disk, and the
    ready list of the scheduler. *)
Record SynchDisk := mkSD {
  disk : Disk;
  value : Z;
  queue : list Z;
  readyList : list Z;
}.

Notation DSys := (Sys DiskHandler SynchDisk).

Definition set_rest (s : DSys) (w : SynchDisk) : DSys := mkSys (interrupt s) (stats s) (machine s) w.
Definition set_disk (s : DSys) (k : Disk) : DSys :=
  set_rest s (mkSD k (value (rest s)) (queue (rest s)) (readyList (rest s))).

(** ** UNIX files (machine/sysdep.cc)

    Lseek to an absolute position, then Read or WriteFile: both assert that all
    bytes were transferred; a write beyond the end extends the file. *)
Definition Read (file : list Z) (off n : Z) : outcome (list Z) :=
  _ ← ASSERT (off >=? 0);
  _ ← ASSERT (off + n <=? Z.of_nat (length file));
  Ok (bytes_at file off n).

Definition WriteFile (file : list Z) (off : Z) (bs : list Z) : outcome (list Z) :=
  _ ← ASSERT (off >=? 0);
  let file := file ++ replicate (Z.to_nat off + length bs - length file) 0 in
  Ok (blit file (Z.to_nat off) bs).

(** Disk::Disk: an existing file must start with the magic number; otherwise the
    file is created, with zeros up to its last word. *)
Definition Disk_new (file : option (list Z)) : outcome Disk :=
  match file with
  | Some f =>
      bs ← Read f 0 MagicSize;
      _ ← ASSERT (s32 (le_combine bs) =? MagicNumber);
      Ok (mkDisk f false 0 0)
  | None =>
      f ← WriteFile [] 0 (le_split 4 MagicNumber);
      f ← WriteFile f (DiskSize - 4) (le_split 4 0);
      Ok (mkDisk f false 0 0)
  end.

(** ** Latency *)

(** TimeToSeek: the seek time and *rotation. *)
Definition TimeToSeek (k : Disk) (now newSector : Z) : Z * Z :=
  let newTrack := Z.quot newSector SectorsPerTrack in
  let oldTrack := Z.quot (lastSector k) SectorsPerTrack in
  let seek := Z.abs (newTrack - oldTrack) * SeekTime in
  let over := Z.rem (s32 (now + seek)) RotationTime in
  (seek, if over >? 0 then RotationTime - over else 0).

Definition ModuloDiff (to from : Z) : Z :=
  let toOffset := Z.rem to SectorsPerTrack in
  let fromOffset := Z.rem from SectorsPerTrack in
  Z.rem ((toOffset - fromOffset) + SectorsPerTrack) SectorsPerTrack.

Definition ComputeLatency (k : Disk) (now newSector : Z) (writing : bool) : Z :=
  let '(seek, rotation) := TimeToSeek k now newSector in
  let timeAfter := s32 (now + seek + rotation) in
  if negb writing && (seek =? 0) &&
     (Z.quot (s32 (timeAfter - bufferInit k)) RotationTime >?
      ModuloDiff newSector (Z.quot (bufferInit k) RotationTime))
  then RotationTime
  else
    let rotation := rotation + ModuloDiff newSector (Z.quot timeAfter RotationTime) * RotationTime in
    seek + rotation + RotationTime.

Definition UpdateLast (k : Disk) (now newSector : Z) : Disk :=
  let '(seek, rotate) := TimeToSeek k now newSector in
  mkDisk (fileno k) (active k) newSector
    (if negb (seek =? 0) then s32 (now + seek + rotate) else bufferInit k).

(** ** Requests *)

Definition count_read (t : Statistics) : Statistics :=
  mkStats (totalTicks t) (idleTicks t) (systemTicks t) (userTicks t) (s32 (numDiskReads t + 1))
    (numDiskWrites t) (numConsoleCharsRead t) (numConsoleCharsWritten t) (numPageFaults t)
    (numPacketsSent t) (numPacketsRecvd t).
Definition count_write (t : Statistics) : Statistics :=
  mkStats (totalTicks t) (idleTicks t) (systemTicks t) (userTicks t) (numDiskReads t)
    (s32 (numDiskWrites t + 1)) (numConsoleCharsRead t) (numConsoleCharsWritten t) (numPageFaults t)
    (numPacketsSent t) (numPacketsRecvd t).

Definition sector_offset (sectorNumber : Z) : Z := Storage.SectorSize * sectorNumber + MagicSize.

(** ReadRequest: the bytes put into [data]. *)
Definition ReadRequest (s : DSys) (sectorNumber : Z) : outcome (list Z * DSys) :=
  let k := disk (rest s) in
  let ticks := ComputeLatency k (now s) sectorNumber false in
  _ ← ASSERT (negb (active k));
  _ ← ASSERT ((sectorNumber >=? 0) && (sectorNumber <? NumSectors));
  data ← Read (fileno k) (sector_offset sectorNumber) Storage.SectorSize;
  let k := UpdateLast (mkDisk (fileno k) true (lastSector k) (bufferInit k)) (now s) sectorNumber in
  let s := set_stats (set_disk s k) (count_read (stats s)) in
  s ← Schedule s DiskDone 0 ticks DiskInt;
  Ok (data, s).

Definition WriteRequest (s : DSys) (sectorNumber : Z) (data : list Z) : outcome DSys :=
  let k := disk (rest s) in
  let ticks := ComputeLatency k (now s) sectorNumber true in
  _ ← ASSERT (negb (active k));
  _ ← ASSERT ((sectorNumber >=? 0) && (sectorNumber <? NumSectors));
  f ← WriteFile (fileno k) (sector_offset sectorNumber) (take (Z.to_nat Storage.SectorSize) data);
  let k := UpdateLast (mkDisk f true (lastSector k) (bufferInit k)) (now s) sectorNumber in
  let s := set_stats (set_disk s k) (count_write (stats s)) in
  Schedule s DiskDone 0 ticks DiskInt.

(** ** filesys/synchdisk.cc *)

(** RequestDone, called by the interrupt: semaphore->V(). *)
Definition RequestDone (s : DSys) : outcome DSys :=
  let w := rest s in
  let '(q, r) := match queue w with [] => ([], readyList w) | t :: q => (q, readyList w ++ [t]) end in
  Ok (set_rest s (mkSD (disk w) (value w + 1) q r)).

(** Disk::HandleInterrupt *)
Definition HandleInterrupt (s : DSys) : outcome DSys :=
  let k := disk (rest s) in
  RequestDone (set_disk s (mkDisk (fileno k) false (lastSector k) (bufferInit k))).

Definition disk_call (h : DiskHandler) (a : Z) (s : DSys) : outcome DSys := HandleInterrupt s.

(** Thread::Sleep of the only thread: idle until it is on the ready list.  The
    first interrupt puts it there; [fuel] bounds the loop. *)
Fixpoint Sleep_until_ready (fuel : nat) (s : DSys) : outcome DSys :=
  match fuel with
  | O => NoFuel
  | S fuel =>
      match readyList (rest s) with
      | _ :: r => Ok (set_rest s (mkSD (disk (rest s)) (value (rest s)) (queue (rest s)) r))
      | [] => s ← Idle disk_call s; Sleep_until_ready fuel s
      end
  end.

(** The loop of semaphore->P(); the thread is number 0. *)
Fixpoint P_wait (fuel : nat) (s : DSys) : outcome DSys :=
  match fuel with
  | O => NoFuel
  | S fuel =>
      let w := rest s in
      if value w =? 0 then
        s ← Sleep_until_ready 2 (set_rest s (mkSD (disk w) (value w) (queue w ++ [0]) (readyList w)));
        P_wait fuel s
      else Ok (set_rest s (mkSD (disk w) (value w - 1) (queue w) (readyList w)))
  end.

(** semaphore->P(); a yield OneTick asks for finds no other thread. *)
Definition P (s : DSys) : outcome DSys :=
  '(oldLevel, _, s) ← SetLevel disk_call s IntOff;
  s ← P_wait 2 s;
  '(_, _, s) ← SetLevel disk_call s oldLevel;
  Ok s.

(** The lock is a placeholder: Acquire and Release do nothing. *)
Definition SynchDisk_ReadSector (sectorNumber : Z) : ST DSys (list Z) := λ s,
  '(data, s) ← ReadRequest s sectorNumber;
  s ← P s;
  Ok (data, s).

Definition SynchDisk_WriteSector (sectorNumber : Z) (data : list Z) : ST DSys unit := λ s,
  s ← WriteRequest s sectorNumber data;
  s ← P s;
  Ok (tt, s).

(** SynchDisk::SynchDisk *)
Definition SynchDisk_new (file : option (list Z)) : outcome SynchDisk :=
  k ← Disk_new file; Ok (mkSD k 0 [] []).

#[export] Instance SynchDisk_store : SectorStore DSys := {
  ReadSector := SynchDisk_ReadSector;
  WriteSector := SynchDisk_WriteSector;
}.
