(* ===== verification/DiskProofs.v ===== *)
(** * The disk keeps sectors

    Bounds on the latency of a request, and the proof that SynchDisk on the
    simulated disk satisfies [SectorLaws]: each request returns after its
    interrupt, whatever the 32-bit clock reads. *)

From Stdlib Require Import ZArith Lia Bool.
From S2P Require Import Prelude NList Bytes Machine Interrupt InterruptProofs Bitmap Storage FileHdr OpenFile Directory.
From S2P Require Import FileSys FileSysProofs FileSysSpec Disk.

Local Open Scope Z_scope.

(** ** Latency *)

Lemma ModuloDiff_range to from : 0 <= to → 0 <= ModuloDiff to from < 32.
Proof.
  intros Ht. unfold ModuloDiff, SectorsPerTrack. Z.to_euclidean_division_equations. lia.
Qed.

Lemma TimeToSeek_range k now s : 0 <= lastSector k < NumSectors → 0 <= s < NumSectors →
  0 <= fst (TimeToSeek k now s) <= 15500 ∧ 0 <= snd (TimeToSeek k now s) < 500.
Proof.
  intros Hl Hs. unfold TimeToSeek, SeekTime, RotationTime, SectorsPerTrack in *.
  unfold NumSectors, SectorsPerTrack, NumTracks in *. cbn [fst snd].
  set (x := s32 _). clearbody x. split.
  - Z.to_euclidean_division_equations. lia.
  - destruct (Z.gtb_spec (Z.rem x 500) 0); Z.to_euclidean_division_equations; lia.
Qed.

Lemma latency_range k now s w : 0 <= lastSector k < NumSectors → 0 <= s < NumSectors →
  500 <= ComputeLatency k now s w <= 31999.
Proof.
  intros Hl Hs. pose proof (TimeToSeek_range k now s Hl Hs) as Ht. unfold ComputeLatency.
  destruct (TimeToSeek k now s) as [seek rot]. cbn [fst snd] in Ht.
  set (d1 := ModuloDiff s (Z.quot (bufferInit k) _)). set (d2 := ModuloDiff s _).
  pose proof (ModuloDiff_range s (Z.quot (s32 (now + seek + rot)) RotationTime) ltac:(lia)) as H2.
  fold d2 in H2. unfold RotationTime in *. destruct (_ && _ && _); lia.
Qed.

(** ** The invariant of the disk between requests *)

Record sd_ok (s : DSys) : Prop := {
  sd_int : interrupt s = mkInterrupt IntOn [] false false SystemMode;
  sd_machine m : machine s = Some m → load_ok m;
  sd_file : length (fileno (disk (rest s))) = Z.to_nat DiskSize ∧ Forall byte (fileno (disk (rest s)));
  sd_magic : bytes_at (fileno (disk (rest s))) 0 MagicSize = le_split 4 MagicNumber;
  sd_last : 0 <= lastSector (disk (rest s)) < NumSectors;
  sd_active : active (disk (rest s)) = false;
  sd_idle : value (rest s) = 0 ∧ queue (rest s) = [] ∧ readyList (rest s) = [];
}.

Definition sectors (f : list Z) : list (list Z) :=
  (λ i, bytes_at f (sector_offset i) Storage.SectorSize) <$> seqZ 0 NumSectors.

(** ** Waiting for the interrupt *)

(** After a request: one disk interrupt is pending and the thread calls P. *)
Record requested (s : DSys) (when : Z) : Prop := {
  rq_int : interrupt s = mkInterrupt IntOn [(when, mkPending DiskDone 0 when DiskInt)] false false SystemMode;
  rq_machine m : machine s = Some m → load_ok m;
  rq_active : active (disk (rest s)) = true;
  rq_idle : value (rest s) = 0 ∧ queue (rest s) = [] ∧ readyList (rest s) = [];
}.

Lemma bd_off : bool_decide (IntOff = IntOff) = true.
Proof. reflexivity. Qed.
Lemma bd_on : bool_decide (IntOn = IntOn) = true.
Proof. reflexivity. Qed.
Lemma bd_offon : bool_decide (IntOff = IntOn) = false.
Proof. reflexivity. Qed.
Lemma bd_onoff : bool_decide (IntOn = IntOff) = false.
Proof. reflexivity. Qed.
Lemma bd_disk : bool_decide (DiskInt = TimerInt) = false.
Proof. reflexivity. Qed.

(** Projections of explicit states. *)
Local Ltac simpl_rec :=
  cbv beta delta [set_rest set_disk set_stats set_int];
  cbn [interrupt stats machine rest level pending inHandler yieldOnReturn status mbind outcome_bind ASSERT
       andb orb negb set_stats set_int disk_call HandleInterrupt RequestDone set_disk set_rest disk value queue readyList handler arg type
       fileno lastSector bufferInit active app length Z.eqb].

(** P returns after one interrupt: the disk is idle again with the same data,
    and the clock stands where the interrupt was due, plus the tick of enabling
    interrupts. *)
Lemma P_ok s when : requested s when →
  ∃ s', P s = Ok s' ∧
    interrupt s' = mkInterrupt IntOn [] false false SystemMode ∧
    (∀ m, machine s' = Some m → load_ok m) ∧
    (let k := disk (rest s) in
     rest s' = mkSD (mkDisk (fileno k) false (lastSector k) (bufferInit k)) 0 [] []) ∧
    now s' = s32 ((if when >? now s then when else now s) + SystemTick) ∧
    numDiskReads (stats s') = numDiskReads (stats s) ∧ numDiskWrites (stats s') = numDiskWrites (stats s).
Proof.
  destruct s as [i st m [k v q r]]. intros [Hi Hm Ha (Hv & Hq & Hr)].
  cbn [interrupt machine rest value queue readyList disk] in *. subst.
  assert (Hld : ∃ m', finish_load (H := DiskHandler) (mkSys (mkInterrupt IntOff [] false false IdleMode)
      (if when >? totalTicks st
       then set_ticks st when (s32 (idleTicks st + (when - totalTicks st))) (systemTicks st) (userTicks st)
       else st) m (mkSD k 0 [0] [])) =
      Ok (mkSys (mkInterrupt IntOff [] false false IdleMode)
        (if when >? totalTicks st
         then set_ticks st when (s32 (idleTicks st + (when - totalTicks st))) (systemTicks st) (userTicks st)
         else st) m' (mkSD k 0 [0] [])) ∧ ∀ m0, m' = Some m0 → load_ok m0).
  { unfold finish_load. cbn [machine]. destruct m as [m|]; [|by exists None].
    destruct (DelayedLoad_total m (Hm m eq_refl)) as (m' & -> & Hl).
    exists (Some m'). split; [done|]. by intros ? [= <-]. }
  destruct Hld as (m' & Hld & Hm').
  assert (Hidle : Idle disk_call (mkSys (mkInterrupt IntOff
      [(when, mkPending DiskDone 0 when DiskInt)] false false SystemMode) st m (mkSD k 0 [0] [])) =
    Ok (mkSys (mkInterrupt IntOff [] false false SystemMode)
      (if when >? totalTicks st
       then set_ticks st when (s32 (idleTicks st + (when - totalTicks st))) (systemTicks st) (userTicks st)
       else st) m' (mkSD (mkDisk (fileno k) false (lastSector k) (bufferInit k)) 1 [] [0]))).
  { unfold Idle, CheckIfDue_loop, CheckIfDue, fire, loop_fuel, setStatus, set_inHandler, set_yieldOnReturn,
      set_pending, set_int, set_stats, now.
    repeat (simpl_rec; rewrite ?bd_off, ?bd_disk).
    destruct (when >? totalTicks st); repeat (simpl_rec; rewrite ?bd_off, ?bd_disk, ?Hld); done. }
  unfold P, SetLevel, ChangeLevel, set_int, P_wait, Sleep_until_ready.
  repeat (simpl_rec; rewrite ?bd_off, ?bd_offon). rewrite Hidle.
  unfold OneTick, advance, ChangeLevel, set_int, CheckIfDue_loop, CheckIfDue, loop_fuel.
  repeat (simpl_rec; rewrite ?bd_off, ?bd_on, ?bd_onoff).
  eexists. split; [done|]. split_and!; try done; unfold now; cbn [stats];
    by destruct (when >? totalTicks st).
Qed.

(** ** The sectors in the file *)

Lemma sectors_length f : length (sectors f) = Z.to_nat NumSectors.
Proof. unfold sectors. rewrite length_fmap, length_seqZ. done. Qed.

Lemma lookup_sectors f s : 0 <= s < NumSectors →
  sectors f !! Z.to_nat s = Some (bytes_at f (sector_offset s) Storage.SectorSize).
Proof.
  intros Hs. unfold sectors. rewrite list_lookup_fmap, lookup_seqZ_lt by lia.
  cbn [fmap option_fmap option_map]. do 3 f_equal. lia.
Qed.

Lemma sector_fits s : 0 <= s < NumSectors →
  0 <= sector_offset s ∧ sector_offset s + Storage.SectorSize <= DiskSize.
Proof.
  intros Hs. unfold sector_offset, DiskSize, MagicSize, Storage.SectorSize in *. lia.
Qed.

Lemma sectors_ok f : length f = Z.to_nat DiskSize → Forall byte f → disk_ok (sectors f).
Proof.
  intros Hl Hb. split; [apply sectors_length|]. unfold sectors. apply Forall_fmap, Forall_forall.
  intros s Hs. apply elem_of_seqZ in Hs. pose proof (sector_fits s ltac:(lia)) as Hf. split; cbn [compose].
  - apply bytes_at_length; unfold Storage.SectorSize, DiskSize, NumSectors, SectorsPerTrack, NumTracks, MagicSize in *; lia.
  - by apply Forall_take, Forall_drop.
Qed.

(** Writing the bytes of one sector changes that sector only. *)
Lemma sectors_blit f s bs : length f = Z.to_nat DiskSize → 0 <= s < NumSectors →
  length bs = Z.to_nat Storage.SectorSize →
  sectors (blit f (Z.to_nat (sector_offset s)) bs) = <[Z.to_nat s := bs]> (sectors f).
Proof.
  intros Hl Hs Hb. pose proof (sector_fits s Hs) as Hf.
  apply list_eq. intros i. destruct (decide (i < Z.to_nat NumSectors)%nat) as [Hi|Hi].
  2: { rewrite !lookup_ge_None_2; [done|rewrite length_insert|]; rewrite sectors_length; lia. }
  replace i with (Z.to_nat (Z.of_nat i)) by lia. rewrite lookup_sectors by lia.
  rewrite list_lookup_insert, sectors_length, lookup_sectors by lia.
  pose proof (sector_fits (Z.of_nat i) ltac:(lia)) as Hfi.
  assert (Hlen : (Z.to_nat (sector_offset s) + length bs <= length f)%nat).
  { rewrite Hl, Hb. unfold Storage.SectorSize in *. lia. }
  unfold sector_offset, MagicSize, Storage.SectorSize in *.
  case_decide as Hc.
  - destruct Hc as [Hc _]. assert (Z.of_nat i = s) as -> by lia. f_equal.
    unfold bytes_at, blit. rewrite drop_app_length' by (rewrite length_take; lia).
    by rewrite take_app_length'.
  - f_equal. apply list_eq. intros j. destruct (decide (j < 512)%nat) as [Hj|Hj].
    + rewrite !lookup_bytes_at, lookup_blit by lia. rewrite decide_False; [done|]. rewrite Hb. lia.
    + rewrite !lookup_ge_None_2; [done|unfold bytes_at; rewrite length_take; lia..].
Qed.

(** ** The laws *)

Lemma Schedule_eq (s : DSys) h a n ty : 0 < n → pending (interrupt s) = [] →
  Schedule s h a n ty = Ok (set_pending s [(s32 (now s + n), mkPending h a (s32 (now s + n)) ty)]).
Proof.
  intros Hn Hp. unfold Schedule. destruct (Z.gtb_spec n 0); [|lia]. cbn [ASSERT mbind outcome_bind].
  by rewrite Hp.
Qed.

Lemma UpdateLast_eq k now s : fileno (UpdateLast k now s) = fileno k ∧
  active (UpdateLast k now s) = active k ∧ lastSector (UpdateLast k now s) = s.
Proof. unfold UpdateLast. by destruct (TimeToSeek k now s). Qed.

(** After a request on a disk that was idle. *)
Lemma request_ok (s : DSys) f st n sector : sd_ok s → 0 < n → 0 <= sector < NumSectors →
  totalTicks st = now s →
  let k := UpdateLast (mkDisk f true (lastSector (disk (rest s))) (bufferInit (disk (rest s)))) (now s) sector in
  ∃ s', Schedule (set_stats (set_disk s k) st) DiskDone 0 n DiskInt = Ok s' ∧
    requested s' (s32 (now s + n)) ∧ fileno (disk (rest s')) = f ∧
    lastSector (disk (rest s')) = sector ∧ stats s' = st.
Proof.
  intros Hs Hn Hsec Hst k. destruct (UpdateLast_eq (mkDisk f true (lastSector (disk (rest s))) (bufferInit (disk (rest s)))) (now s) sector)
    as (E1 & E2 & E3). fold k in E1, E2, E3.
  pose proof (sd_int _ Hs) as Hi. destruct (sd_idle _ Hs) as (Hv & Hq & Hr).
  rewrite Schedule_eq; [|done|by cbn [set_stats set_disk set_rest interrupt]; rewrite Hi].
  eexists. split; [done|]. unfold now at 1. cbn [set_stats stats]. rewrite Hst.
  split_and!; try done. split; cbn [set_pending set_int set_stats set_disk set_rest interrupt machine rest].
  - rewrite Hi. unfold now. cbn [set_stats stats]. by rewrite Hst.
  - apply Hs.
  - done.
  - done.
Qed.

(** P after a request leaves the disk idle, with the data of the request. *)
Lemma P_idle s when : requested s when →
  length (fileno (disk (rest s))) = Z.to_nat DiskSize → Forall byte (fileno (disk (rest s))) →
  bytes_at (fileno (disk (rest s))) 0 MagicSize = le_split 4 MagicNumber →
  0 <= lastSector (disk (rest s)) < NumSectors →
  ∃ s', P s = Ok s' ∧ sd_ok s' ∧ fileno (disk (rest s')) = fileno (disk (rest s)) ∧
    now s' = s32 ((if when >? now s then when else now s) + SystemTick) ∧
    numDiskReads (stats s') = numDiskReads (stats s) ∧ numDiskWrites (stats s') = numDiskWrites (stats s).
Proof.
  intros Hr Hl Hb Hmg Hls. destruct (P_ok s when Hr) as (s' & HP & Hi & Hm & Hre & Hno & Hrd & Hwr). cbv zeta in Hre.
  exists s'. split; [done|]. split; [|by rewrite Hre].
  split; rewrite ?Hre; try done.
Qed.

Definition disk_now (s : DSys) (sector : Z) (writing : bool) : Z :=
  let w := s32 (now s + ComputeLatency (disk (rest s)) (now s) sector writing) in
  s32 ((if w >? now s then w else now s) + SystemTick).

(** When the interrupt of a request is due. *)
Definition due (s : DSys) (sector : Z) (writing : bool) : Z :=
  s32 (now s + ComputeLatency (disk (rest s)) (now s) sector writing).

Lemma disk_now_eq s sector writing : sd_ok s → 0 <= sector < NumSectors →
  int32 (now s) → now s + 32009 < 2 ^ 31 →
  disk_now s sector writing = now s + ComputeLatency (disk (rest s)) (now s) sector writing + SystemTick.
Proof.
  intros Hs Hsec Hi Hno. pose proof (latency_range (disk (rest s)) (now s) sector writing (sd_last _ Hs) Hsec) as Hlat.
  unfold disk_now, int32, SystemTick in *. rewrite (s32_id (now s + _)) by (unfold int32; lia).
  destruct (Z.gtb_spec (now s + ComputeLatency (disk (rest s)) (now s) sector writing) (now s)); [|lia].
  apply s32_id. unfold int32. lia.
Qed.

Lemma ReadSector_ok s sector : sd_ok s → 0 <= sector < NumSectors →
  ∃ s', SynchDisk_ReadSector sector s =
      Ok (bytes_at (fileno (disk (rest s))) (sector_offset sector) Storage.SectorSize, s') ∧
    sd_ok s' ∧ fileno (disk (rest s')) = fileno (disk (rest s)) ∧ now s' = disk_now s sector false ∧
    numDiskReads (stats s') = s32 (numDiskReads (stats s) + 1) ∧
    ∃ sr, ReadRequest s sector =
        Ok (bytes_at (fileno (disk (rest s))) (sector_offset sector) Storage.SectorSize, sr) ∧
      requested sr (due s sector false) ∧ P sr = Ok s'.
Proof.
  intros Hs Hsec. destruct (sd_file _ Hs) as [Hl Hb]. pose proof (sector_fits sector Hsec) as Hf.
  pose proof (latency_range (disk (rest s)) (now s) sector false (sd_last _ Hs) Hsec) as Hlat.
  unfold SynchDisk_ReadSector, ReadRequest. rewrite (sd_active _ Hs).
  destruct (Z.geb_spec sector 0), (Z.ltb_spec sector NumSectors); try lia. cbn [negb andb ASSERT mbind outcome_bind].
  unfold Read. destruct (Z.geb_spec (sector_offset sector) 0); [|lia].
  destruct (Z.leb_spec (sector_offset sector + Storage.SectorSize) (Z.of_nat (length (fileno (disk (rest s))))));
    [|rewrite Hl in *; lia].
  cbn [ASSERT mbind outcome_bind].
  destruct (request_ok s (fileno (disk (rest s))) (count_read (stats s))
    (ComputeLatency (disk (rest s)) (now s) sector false) sector Hs) as (s1 & -> & Hrq & Hfn & Hls & Hst); try done; [lia|].
  cbn [mbind outcome_bind].
  destruct (P_idle s1 _ Hrq) as (s2 & HP & Hok & Hfn2 & Hnow & Hrd & _); rewrite ?Hfn, ?Hls; try done; [apply Hs|].
  rewrite HP. cbn [mbind outcome_bind]. exists s2. split; [done|]. split; [done|]. split; [by rewrite Hfn2|].
  split; [rewrite Hnow; unfold disk_now, now; by rewrite Hst|]. split; [by rewrite Hrd, Hst|].
  exists s1. by split_and!.
Qed.

Lemma WriteSector_ok s sector bs : sd_ok s → 0 <= sector < NumSectors → sector_ok bs →
  ∃ s', SynchDisk_WriteSector sector bs s = Ok (tt, s') ∧ sd_ok s' ∧
    fileno (disk (rest s')) = blit (fileno (disk (rest s))) (Z.to_nat (sector_offset sector)) bs ∧
    now s' = disk_now s sector true ∧ numDiskWrites (stats s') = s32 (numDiskWrites (stats s) + 1) ∧
    ∃ sr, WriteRequest s sector bs = Ok sr ∧ requested sr (due s sector true) ∧ P sr = Ok s'.
Proof.
  intros Hs Hsec [Hbl Hbb]. destruct (sd_file _ Hs) as [Hl Hb]. pose proof (sector_fits sector Hsec) as Hf.
  assert (H512 : Storage.SectorSize = 512) by reflexivity.
  pose proof (latency_range (disk (rest s)) (now s) sector true (sd_last _ Hs) Hsec) as Hlat.
  unfold SynchDisk_WriteSector, WriteRequest. rewrite (sd_active _ Hs).
  destruct (Z.geb_spec sector 0), (Z.ltb_spec sector NumSectors); try lia. cbn [negb andb ASSERT mbind outcome_bind].
  unfold WriteFile. destruct (Z.geb_spec (sector_offset sector) 0); [|lia].
  cbn [ASSERT mbind outcome_bind]. rewrite (take_ge bs) by lia.
  replace (Z.to_nat (sector_offset sector) + length bs - length (fileno (disk (rest s))))%nat with 0%nat by lia.
  cbn [replicate]. rewrite app_nil_r. set (f := blit _ _ _).
  assert (Hlf : length f = Z.to_nat DiskSize) by (unfold f; rewrite length_blit; lia).
  assert (Hbf : Forall byte f).
  { unfold f, blit. rewrite !Forall_app. split_and!; [by apply Forall_take|done|by apply Forall_drop]. }
  assert (Hmg : bytes_at f 0 MagicSize = le_split 4 MagicNumber).
  { rewrite <- (sd_magic _ Hs). unfold f, bytes_at, blit. rewrite !drop_0.
    rewrite take_app_le, take_take by (rewrite length_take; unfold sector_offset, MagicSize in *; lia).
    f_equal. unfold sector_offset, MagicSize in *. lia. }
  destruct (request_ok s f (count_write (stats s))
    (ComputeLatency (disk (rest s)) (now s) sector true) sector Hs) as (s1 & -> & Hrq & Hfn & Hls & Hst); try done; [lia|].
  cbn [mbind outcome_bind].
  destruct (P_idle s1 _ Hrq) as (s2 & HP & Hok & Hfn2 & Hnow & _ & Hwr); rewrite ?Hfn, ?Hls; try done.
  rewrite HP. cbn [mbind outcome_bind]. exists s2. split; [done|]. split; [done|]. split; [by rewrite Hfn2|].
  split; [rewrite Hnow; unfold disk_now, now; by rewrite Hst|]. split; [by rewrite Hwr, Hst|].
  exists s1. by split_and!.
Qed.

(** The synchronous disk is a sector store: the interface of the file system. *)
#[export] Instance SynchDisk_laws : SectorLaws DSys.
Proof.
  refine {| ss_ok := sd_ok; ss_data := λ s, sectors (fileno (disk (rest s))) |}.
  - intros s Hs. destruct (sd_file _ Hs). by apply sectors_ok.
  - intros s sector Hs Hsec. destruct (ReadSector_ok s sector Hs Hsec) as (s' & Hr & Hok & Hf & _).
    eexists _, s'. split; [exact Hr|]. rewrite lookup_sectors by done. by rewrite Hf.
  - intros s sector bs Hs Hsec Hb. destruct (WriteSector_ok s sector bs Hs Hsec Hb) as (s' & Hw & Hok & Hf & _).
    exists s'. split; [exact Hw|]. split; [done|]. rewrite Hf. destruct (sd_file _ Hs), Hb. by apply sectors_blit.
Defined.

(** ** Starting the kernel *)

(** The state in which the file system is opened: the disk on [file], no
    interrupt pending, interrupts enabled. *)
Definition boot (file : option (list Z)) : outcome DSys :=
  w ← SynchDisk_new file;
  Ok (mkSys (mkInterrupt IntOn [] false false SystemMode) Statistics_new None w).

(** Writing [mg] at the start of an empty file and [z] at position [n]. *)
Lemma two_writes mg z n : (length mg <= n)%nat → Forall byte mg → Forall byte z →
  let f := mg ++ replicate (n + length z - length mg) 0 in
  length (blit f n z) = (n + length z)%nat ∧ Forall byte (blit f n z) ∧
  take (length mg) (blit f n z) = mg.
Proof.
  intros Hn Hm Hz f.
  assert (Hl : length f = (n + length z)%nat) by (unfold f; rewrite length_app, length_replicate; lia).
  assert (Hb : Forall byte f).
  { unfold f. apply Forall_app. split; [done|]. apply Forall_replicate. unfold byte. lia. }
  split_and!.
  - rewrite length_blit; lia.
  - unfold blit. rewrite !Forall_app. split_and!; [by apply Forall_take|done|by apply Forall_drop].
  - unfold blit. rewrite take_app_le, take_take by (rewrite length_take; lia).
    replace (length mg `min` n)%nat with (length mg) by lia. unfold f. apply take_app_length.
Qed.

Lemma new_file_ok n : 8 <= n →
  ∃ f, (f ← WriteFile [] 0 (le_split 4 MagicNumber); WriteFile f (n - 4) (le_split 4 0)) = Ok f ∧
    length f = Z.to_nat n ∧ Forall byte f ∧ bytes_at f 0 MagicSize = le_split 4 MagicNumber.
Proof.
  intros Hn.
  destruct (two_writes (le_split 4 MagicNumber) (le_split 4 0) (Z.to_nat (n - 4))) as (Hl & Hb & Ht).
  { rewrite le_split_length. lia. }
  { apply le_split_bytes. }
  { apply le_split_bytes. }
  rewrite !le_split_length in Hl, Ht.
  assert (Hf0 : WriteFile [] 0 (le_split 4 MagicNumber) = Ok (le_split 4 MagicNumber)) by reflexivity.
  rewrite Hf0. cbn [mbind outcome_bind]. unfold WriteFile. rewrite !le_split_length.
  destruct (Z.geb_spec (n - 4) 0); [|lia]. cbn [ASSERT mbind outcome_bind].
  eexists. split; [reflexivity|]. split_and!.
  - rewrite Hl. lia.
  - exact Hb.
  - unfold bytes_at. by rewrite drop_0.
Qed.

Lemma boot_state_ok f : length f = Z.to_nat DiskSize → Forall byte f →
  bytes_at f 0 MagicSize = le_split 4 MagicNumber →
  sd_ok (mkSys (mkInterrupt IntOn [] false false SystemMode) Statistics_new None (mkSD (mkDisk f false 0 0) 0 [] [])).
Proof. intros Hl Hb Hm. by split. Qed.

Lemma boot_new_eq f :
  (f ← WriteFile [] 0 (le_split 4 MagicNumber); WriteFile f (DiskSize - 4) (le_split 4 0)) = Ok f →
  boot None =
    Ok (mkSys (mkInterrupt IntOn [] false false SystemMode) Statistics_new None (mkSD (mkDisk f false 0 0) 0 [] [])).
Proof.
  unfold boot, SynchDisk_new, Disk_new. generalize (DiskSize - 4). intros n Hf.
  apply bind_Ok_inv in Hf as (f0 & -> & Hf). cbn [mbind outcome_bind]. rewrite Hf. done.
Qed.

Lemma boot_new_ok : ∃ s, boot None = Ok s ∧ sd_ok s.
Proof.
  destruct (new_file_ok DiskSize) as (f & Hf & Hl & Hb & Hm); [unfold DiskSize, MagicSize; done|].
  eexists. split; [exact (boot_new_eq f Hf)|]. exact (boot_state_ok f Hl Hb Hm).
Qed.

(** The disk file of a running kernel is accepted by the next one. *)
Lemma boot_again_ok s : sd_ok s → ∃ s', boot (Some (fileno (disk (rest s)))) = Ok s' ∧ sd_ok s' ∧
  fileno (disk (rest s')) = fileno (disk (rest s)).
Proof.
  intros Hs. destruct (sd_file _ Hs) as [Hl Hb]. unfold boot, SynchDisk_new, Disk_new, Read.
  assert (HD : DiskSize = 524292) by reflexivity. change (0 >=? 0) with true.
  destruct (Z.leb_spec (0 + MagicSize) (Z.of_nat (length (fileno (disk (rest s)))))); [|unfold MagicSize in *; lia].
  cbn [ASSERT mbind outcome_bind]. rewrite (sd_magic _ Hs).
  change (s32 (le_combine (le_split 4 MagicNumber)) =? MagicNumber) with true. cbn [ASSERT mbind outcome_bind].
  eexists. split; [done|]. split; [|done]. split; try done. apply Hs.
Qed.

(** ** Theorems *)

(** C33: how long the disk takes.  A request on any sector takes at least the
    transfer of one sector (500 ticks) and at most 31999: a seek over 31 tracks,
    less than one sector of rotation to the next boundary, 31 sectors of
    rotational delay and the transfer.  The bounds do not depend on the clock,
    which may have wrapped around. *)
Theorem disk_latency k now sector writing :
  0 <= lastSector k < NumSectors → 0 <= sector < NumSectors →
  RotationTime <= ComputeLatency k now sector writing <=
    (NumTracks - 1) * SeekTime + (RotationTime - 1) + (SectorsPerTrack - 1) * RotationTime + RotationTime.
Proof.
  intros Hl Hs. pose proof (latency_range k now sector writing Hl Hs).
  unfold RotationTime, SeekTime, SectorsPerTrack, NumTracks. lia.
Qed.

Lemma disk_latency_witness :
  500 <= ComputeLatency (mkDisk [] false 1000 0) 12345 7 false <= 31999.
Proof.
  apply (disk_latency (mkDisk [] false 1000 0) 12345 7 false);
    unfold NumSectors, SectorsPerTrack, NumTracks; simpl; lia.
Defined.

(** The request left the disk with one interrupt to come, [sr]; P waited for it and
    returned in [s']: the interrupt has been taken from the pending list and the one
    unit its handler put into the semaphore has been consumed. *)
Definition served (s : DSys) (sector : Z) (writing : bool) (sr s' : DSys) : Prop :=
  pending (interrupt sr) = [(due s sector writing, mkPending DiskDone 0 (due s sector writing) DiskInt)] ∧
  P sr = Ok s' ∧ sd_ok s' ∧ pending (interrupt s') = [] ∧ value (rest s') = 0 ∧
  (int32 (now s) → now s + 32009 < 2 ^ 31 →
     now s' = now s + ComputeLatency (disk (rest s)) (now s) sector writing + SystemTick).

Lemma served_ok s sector writing sr s' :
  sd_ok s → 0 <= sector < NumSectors → requested sr (due s sector writing) → P sr = Ok s' → sd_ok s' →
  now s' = disk_now s sector writing → served s sector writing sr s'.
Proof.
  intros Hs Hsec Hrq HP Hs' Hn. split_and!; try done.
  - by rewrite (rq_int _ _ Hrq).
  - by rewrite (sd_int _ Hs').
  - apply Hs'.
  - intros Hi Hno. rewrite Hn. by apply disk_now_eq.
Qed.

(** C32: the synchronous disk.  On an idle disk, whatever it holds, ReadSector and
    WriteSector of a sector in range return: each schedules exactly one disk
    interrupt, due after the latency of the request, and waits for it; when the
    call returns, that interrupt has been handled and none is pending, its V has
    been consumed, the disk is idle again, and the clock has advanced by the
    latency and the tick for enabling interrupts (as long as it does not wrap).
    ReadSector returns the contents of the sector and leaves the disk as it was;
    WriteSector replaces that sector and no other.  A sector number out of range
    aborts. *)
Theorem synch_disk_requests s sector bs :
  sd_ok s → sector_ok bs →
  (0 <= sector < NumSectors →
    (∃ data sr s', SynchDisk_ReadSector sector s = Ok (data, s') ∧
       sectors (fileno (disk (rest s))) !! Z.to_nat sector = Some data ∧
       fileno (disk (rest s')) = fileno (disk (rest s)) ∧
       ReadRequest s sector = Ok (data, sr) ∧ served s sector false sr s') ∧
    (∃ sr s', SynchDisk_WriteSector sector bs s = Ok (tt, s') ∧
       sectors (fileno (disk (rest s'))) = <[Z.to_nat sector := bs]> (sectors (fileno (disk (rest s)))) ∧
       WriteRequest s sector bs = Ok sr ∧ served s sector true sr s')) ∧
  (¬ 0 <= sector < NumSectors →
    SynchDisk_ReadSector sector s = Aborted ∧ SynchDisk_WriteSector sector bs s = Aborted).
Proof.
  intros Hs Hbs. split.
  - intros Hsec. split.
    + destruct (ReadSector_ok s sector Hs Hsec) as (s' & Hr & Hok & Hf & Hn & _ & sr & Hrq & Hreq & HP).
      eexists _, sr, s'. split_and!; [exact Hr|by apply lookup_sectors|exact Hf|exact Hrq|by apply served_ok].
    + destruct (WriteSector_ok s sector bs Hs Hsec Hbs) as (s' & Hw & Hok & Hf & Hn & _ & sr & Hrq & Hreq & HP).
      exists sr, s'. split_and!; [exact Hw| |exact Hrq|by apply served_ok].
      rewrite Hf. apply sectors_blit; [apply Hs|exact Hsec|apply Hbs].
  - intros Hsec. unfold SynchDisk_ReadSector, SynchDisk_WriteSector, ReadRequest, WriteRequest.
    rewrite (sd_active _ Hs).
    destruct (Z.geb_spec sector 0), (Z.ltb_spec sector NumSectors); try lia; done.
Qed.

Lemma synch_disk_requests_witness :
  ∃ s sr s1, boot None = Ok s ∧ SynchDisk_WriteSector 1023 (replicate 512 9) s = Ok (tt, s1) ∧
    served s 1023 true sr s1 ∧ ∃ data s2, SynchDisk_ReadSector 1023 s = Ok (data, s2).
Proof.
  destruct boot_new_ok as (s & Hb & Hs).
  assert (Hbs : sector_ok (replicate 512 9)).
  { split; [by rewrite length_replicate|]. apply Forall_replicate. unfold byte. lia. }
  destruct (synch_disk_requests s 1023 (replicate 512 9) Hs Hbs) as [H1 _].
  destruct H1 as [(data & _ & s2 & Hr & _) (sr & s1 & Hw & _ & _ & Hsv)];
    [unfold NumSectors, SectorsPerTrack, NumTracks; lia|].
  exists s, sr, s1. split; [exact Hb|]. split; [exact Hw|]. split; [exact Hsv|]. exists data, s2. exact Hr.
Defined.

(** C4: from the blank machine to the next boot.  Starting on a disk file that
    does not exist, the kernel creates it, formats it and serves any sequence of
    legal file system calls as the abstract file system does; when a new kernel
    is then started on the resulting UNIX file, it accepts the magic number and
    finds the same files with the same contents. *)
Theorem files_survive_reboot `{!Uninit} cs : Forall legal cs →
  ∃ s0 fs s1 rs fs' s2 M,
    boot None = Ok s0 ∧ FileSystem_new true 0 0 s0 = Ok (fs, s1) ∧
    exec_calls cs fs s1 = Ok ((rs, fs'), s2) ∧ spec_calls cs ∅ rs M ∧
    ∃ s3 fs2 s4, boot (Some (fileno (disk (rest s2)))) = Ok s3 ∧
      FileSystem_new false 0 0 s3 = Ok (fs2, s4) ∧ represents s4 fs2 M.
Proof.
  intros Hcs. destruct boot_new_ok as (s0 & Hb & Hs0). change (ss_ok s0) in Hs0.
  destruct (format_ok (D := DSys) s0 0 0 Hs0) as (fs & s1 & Hf & Hok1 & Hi1 & Hfl1).
  destruct (exec_calls_ok (D := DSys) cs s1 fs ∅) as (rs & fs' & s2 & M & He & Hsp & Hok2 & Hi2 & Hfl2); [exact (conj Hok1 (conj Hi1 Hfl1))|exact Hcs|].
  destruct (boot_again_ok s2 Hok2) as (s3 & Hb3 & Hs3 & Hfile). change (ss_ok s3) in Hs3.
  assert (Hda : ss_data s3 = ss_data s2) by (unfold ss_data; cbn; by rewrite Hfile).
  destruct (mount_ok (D := DSys) s3 fs' 0 0 Hs3) as (fs2 & s4 & Hm & Hok4 & Hda4 & Hi4 & Hfl4); [by rewrite Hda|].
  exists s0, fs, s1, rs, fs', s2, M. split; [exact Hb|]. split; [exact Hf|]. split; [exact He|].
  split; [exact Hsp|]. exists s3, fs2, s4. split; [exact Hb3|]. split; [exact Hm|].
  unfold represents. rewrite Hda4, Hfl4, Hda. split; [exact Hok4|]. split; [rewrite <- Hda; exact Hi4|exact Hfl2].
Qed.

Lemma files_survive_reboot_witness :
  ∃ s0 fs s1 rs fs' s2 M, boot None = Ok s0 ∧ FileSystem_new true 0 0 s0 = Ok (fs, s1) ∧
    exec_calls demo_calls fs s1 = Ok ((rs, fs'), s2) ∧ spec_calls demo_calls ∅ rs M.
Proof.
  destruct (files_survive_reboot demo_calls demo_calls_legal)
    as (s0 & fs & s1 & rs & fs' & s2 & M & H1 & H2 & H3 & H4 & _).
  exists s0, fs, s1, rs, fs', s2, M. exact (conj H1 (conj H2 (conj H3 H4))).
Defined.
