(* ===== verification/Unix.v ===== *)
(** * machine/sysdep.cc: files of the UNIX host

    The simulator reaches the host through the calls of class [Unix]; what the
    kernel relies on is [UnixLaws], the documented behaviour of these calls on
    regular files: which descriptors are open, at which offset, and what the
    files contain.  Calls may fail where UNIX lets them fail.  The functions of
    sysdep.cc that wrap the calls follow, and [Host], a table of files in
    memory that satisfies the laws. *)

From Stdlib Require Import ZArith Lia Bool.
From S2P Require Import Prelude Bytes.

Local Open Scope Z_scope.

(** File names and file contents are bytes. *)
Definition name := list Z.

Definition SEEK_SET : Z := 0.
Definition SEEK_CUR : Z := 1.
Definition SEEK_END : Z := 2.

(** The system calls: [open name creat] is open with O_RDWR, and with
    O_CREAT|O_TRUNC when [creat]; [read] returns its result and the bytes put
    into the buffer; [select] polls one descriptor for reading. *)
Class Unix (U : Type) := {
  open : name → bool → U → Z * U;
  close : Z → U → Z * U;
  read : Z → Z → U → (Z * list Z) * U;
  write : Z → list Z → U → Z * U;
  lseek : Z → Z → Z → U → Z * U;
  unlink : name → U → Z * U;
  select : Z → U → Z * U;
}.

(** What the calls are about: open descriptors with inode and offset, the names
    of the directory, the contents of the inodes. *)
Record unix_view := mkView {
  fds : gmap Z (Z * Z);
  names : gmap name Z;
  inodes : gmap Z (list Z);
}.

(** Writing [bs] at [off] extends a file, with zeros over a hole. *)
Definition write_at (file : list Z) (off : Z) (bs : list Z) : list Z :=
  if (length bs =? 0)%nat then file
  else blit (file ++ replicate (Z.to_nat off + length bs - length file) 0) (Z.to_nat off) bs.

Definition set_fds (v : unix_view) (f : gmap Z (Z * Z)) : unix_view := mkView f (names v) (inodes v).

(** Descriptors refer to inodes that exist, at offsets that are not negative;
    so do names. *)
Record view_ok (v : unix_view) : Prop := {
  vo_fd fd ino off : fds v !! fd = Some (ino, off) → 0 <= fd ∧ 0 <= off ∧ is_Some (inodes v !! ino);
  vo_name n ino : names v !! n = Some ino → is_Some (inodes v !! ino);
}.

Class UnixLaws (U : Type) `{Unix U} := {
  view : U → unix_view;
  unix_ok : U → Prop;
  unix_view_ok u : unix_ok u → view_ok (view u);
  open_creat n u fd u' : unix_ok u → open n true u = (fd, u') → unix_ok u' ∧
    ((fd = -1 ∧ view u' = view u) ∨
     (0 <= fd ∧ fds (view u) !! fd = None ∧ ∃ ino,
       (names (view u) !! n = Some ino ∨ names (view u) !! n = None ∧ inodes (view u) !! ino = None) ∧
       view u' = mkView (<[fd := (ino, 0)]> (fds (view u))) (<[n := ino]> (names (view u)))
                   (<[ino := []]> (inodes (view u)))));
  open_rdwr n u fd u' : unix_ok u → open n false u = (fd, u') → unix_ok u' ∧
    ((fd = -1 ∧ view u' = view u) ∨
     (0 <= fd ∧ fds (view u) !! fd = None ∧ ∃ ino, names (view u) !! n = Some ino ∧
       view u' = set_fds (view u) (<[fd := (ino, 0)]> (fds (view u)))));
  close_open fd u : unix_ok u → is_Some (fds (view u) !! fd) →
    ∃ u', close fd u = (0, u') ∧ unix_ok u' ∧ view u' = set_fds (view u) (delete fd (fds (view u)));
  read_open fd n u ino off r bs u' : unix_ok u → fds (view u) !! fd = Some (ino, off) → 0 <= n →
    read fd n u = ((r, bs), u') → unix_ok u' ∧
    ((r = -1 ∧ bs = [] ∧ view u' = view u) ∨
     ∃ file, inodes (view u) !! ino = Some file ∧ bs = bytes_at file off n ∧
       r = Z.of_nat (length bs) ∧ Forall byte bs ∧
       view u' = set_fds (view u) (<[fd := (ino, off + r)]> (fds (view u))));
  write_open fd bs u ino off r u' : unix_ok u → fds (view u) !! fd = Some (ino, off) → Forall byte bs →
    write fd bs u = (r, u') → unix_ok u' ∧
    ((r = -1 ∧ view u' = view u) ∨
     ∃ file, inodes (view u) !! ino = Some file ∧ 0 <= r <= Z.of_nat (length bs) ∧
       view u' = mkView (<[fd := (ino, off + r)]> (fds (view u))) (names (view u))
                   (<[ino := write_at file off (take (Z.to_nat r) bs)]> (inodes (view u))));
  lseek_open fd off whence u ino pos file : unix_ok u →
    fds (view u) !! fd = Some (ino, pos) → inodes (view u) !! ino = Some file →
    let target := if whence =? SEEK_SET then off
                  else if whence =? SEEK_CUR then pos + off else Z.of_nat (length file) + off in
    0 <= target → whence ∈ [SEEK_SET; SEEK_CUR; SEEK_END] →
    ∃ u', lseek fd off whence u = (target, u') ∧ unix_ok u' ∧
      view u' = set_fds (view u) (<[fd := (ino, target)]> (fds (view u)));
  unlink_name n u r u' : unix_ok u → unlink n u = (r, u') → unix_ok u' ∧
    ((r = -1 ∧ view u' = view u) ∨
     (r = 0 ∧ is_Some (names (view u) !! n) ∧
      view u' = mkView (fds (view u)) (delete n (names (view u))) (inodes (view u))));
}.

(** ** The wrappers of machine/sysdep.cc *)

Section Sysdep.
Context {U : Type} `{Unix U}.

(** A system call as a step of the simulator. *)
Definition host {A} (f : U → A * U) : ST U A := λ u, Ok (f u).

Definition OpenForWrite (n : name) : ST U Z :=
  fd ← host (open n true);
  _ ← st_lift (ASSERT (fd >=? 0));
  mret fd.

Definition OpenForReadWrite (n : name) (crashOnError : bool) : ST U Z :=
  fd ← host (open n false);
  _ ← st_lift (ASSERT (negb crashOnError || (fd >=? 0)));
  mret fd.

(** Read: the bytes read into the buffer. *)
Definition Read (fd nBytes : Z) : ST U (list Z) :=
  '(retVal, bs) ← host (read fd nBytes);
  _ ← st_lift (ASSERT (retVal =? nBytes));
  mret bs.

Definition ReadPartial (fd nBytes : Z) : ST U (Z * list Z) := host (read fd nBytes).

Definition WriteFile (fd : Z) (buffer : list Z) : ST U unit :=
  retVal ← host (write fd buffer);
  st_lift (ASSERT (retVal =? Z.of_nat (length buffer))).

Definition Lseek (fd offset whence : Z) : ST U unit :=
  retVal ← host (lseek fd offset whence);
  st_lift (ASSERT (retVal >=? 0)).

Definition Tell (fd : Z) : ST U Z := host (lseek fd 0 SEEK_CUR).

Definition Close (fd : Z) : ST U unit :=
  retVal ← host (close fd);
  st_lift (ASSERT (retVal >=? 0)).

(** Unlink returns the int of unlink as a bool: FALSE is success. *)
Definition Unlink (n : name) : ST U bool :=
  r ← host (unlink n);
  mret (negb (r =? 0)).

(** PollFile: the timeout depends on the status of the machine, the answer is
    whether a character can be read. *)
Definition PollFile (fd : Z) : ST U bool :=
  retVal ← host (select fd);
  _ ← st_lift (ASSERT ((retVal =? 0) || (retVal =? 1)));
  mret (negb (retVal =? 0)).
End Sysdep.

(** ** Files in memory

    A host that runs out of nothing: every legal call succeeds. *)
Record Host := mkHost { h_view : unix_view }.

Definition h_fresh {A} (m : gmap Z A) : Z := foldr Z.max (-1) (elements (dom m)) + 1.

Lemma foldr_max l x : x ∈ l → x <= foldr Z.max (-1) l.
Proof. induction 1; simpl; lia. Qed.

Lemma h_fresh_spec {A} (m : gmap Z A) : 0 <= h_fresh m ∧ m !! h_fresh m = None.
Proof.
  unfold h_fresh. set (l := elements (dom m)). split.
  - assert (-1 <= foldr Z.max (-1) l) by (induction l; simpl; lia). lia.
  - apply not_elem_of_dom. rewrite <- elem_of_elements. intros Hin%foldr_max. fold l in Hin. lia.
Qed.

Definition h_open (n : name) (creat : bool) (u : Host) : Z * Host :=
  let v := h_view u in
  let fd := h_fresh (fds v) in
  match names v !! n, creat with
  | Some ino, true =>
      (fd, mkHost (mkView (<[fd := (ino, 0)]> (fds v)) (<[n := ino]> (names v)) (<[ino := []]> (inodes v))))
  | Some ino, false => (fd, mkHost (set_fds v (<[fd := (ino, 0)]> (fds v))))
  | None, true =>
      let ino := h_fresh (inodes v) in
      (fd, mkHost (mkView (<[fd := (ino, 0)]> (fds v)) (<[n := ino]> (names v)) (<[ino := []]> (inodes v))))
  | None, false => (-1, u)
  end.

Definition h_file (v : unix_view) (fd : Z) : option (Z * Z * list Z) :=
  '(ino, off) ← fds v !! fd; file ← inodes v !! ino; Some (ino, off, file).

#[export] Instance Host_unix : Unix Host := {
  open := h_open;
  close fd u :=
    if fds (h_view u) !! fd then (0, mkHost (set_fds (h_view u) (delete fd (fds (h_view u))))) else (-1, u);
  read fd n u :=
    match h_file (h_view u) fd with
    | Some (ino, off, file) =>
        let bs := bytes_at file off n in
        let r := Z.of_nat (length bs) in
        (r, bs, mkHost (set_fds (h_view u) (<[fd := (ino, off + r)]> (fds (h_view u)))))
    | None => (-1, [], u)
    end;
  write fd bs u :=
    match h_file (h_view u) fd with
    | Some (ino, off, file) =>
        let r := Z.of_nat (length bs) in
        (r, mkHost (mkView (<[fd := (ino, off + r)]> (fds (h_view u))) (names (h_view u))
                      (<[ino := write_at file off bs]> (inodes (h_view u)))))
    | None => (-1, u)
    end;
  lseek fd off whence u :=
    match h_file (h_view u) fd with
    | Some (ino, pos, file) =>
        let target := if whence =? SEEK_SET then off
                      else if whence =? SEEK_CUR then pos + off else Z.of_nat (length file) + off in
        if target <? 0 then (-1, u)
        else (target, mkHost (set_fds (h_view u) (<[fd := (ino, target)]> (fds (h_view u)))))
    | None => (-1, u)
    end;
  unlink n u :=
    if names (h_view u) !! n
    then (0, mkHost (mkView (fds (h_view u)) (delete n (names (h_view u))) (inodes (h_view u))))
    else (-1, u);
  select fd u := (0, u);
}.

(** The files of a host hold bytes. *)
Definition host_ok (u : Host) : Prop :=
  view_ok (h_view u) ∧ map_Forall (λ _, Forall byte) (inodes (h_view u)).

Lemma view_ok_fd v fd ino off : view_ok v → 0 <= fd → 0 <= off → is_Some (inodes v !! ino) →
  view_ok (set_fds v (<[fd := (ino, off)]> (fds v))).
Proof.
  intros [H1 H2] Hfd Hoff Hi. split; [|done]. intros fd' ino' off'. cbn [set_fds fds].
  destruct (decide (fd = fd')) as [->|]; [rewrite lookup_insert_eq|rewrite lookup_insert_ne by done; apply H1].
  by intros [= <- <-].
Qed.

Lemma view_ok_inode v ino file : view_ok v → view_ok (mkView (fds v) (names v) (<[ino := file]> (inodes v))).
Proof.
  intros [H1 H2]. split; simpl.
  - intros fd ino' off Hf. destruct (H1 _ _ _ Hf) as (?&?&?). split_and!; try done.
    destruct (decide (ino = ino')) as [->|]; [rewrite lookup_insert_eq; eauto|by rewrite lookup_insert_ne].
  - intros n ino' Hn. destruct (decide (ino = ino')) as [->|]; [rewrite lookup_insert_eq; eauto|].
    rewrite lookup_insert_ne by done. eauto.
Qed.

Lemma view_ok_name v n ino : view_ok v → is_Some (inodes v !! ino) →
  view_ok (mkView (fds v) (<[n := ino]> (names v)) (inodes v)).
Proof.
  intros [H1 H2] Hi. split; simpl; [done|]. intros n' ino'.
  destruct (decide (n = n')) as [->|]; [rewrite lookup_insert_eq; by intros [= <-]|].
  rewrite lookup_insert_ne by done. eauto.
Qed.

Lemma write_at_bytes file off bs : Forall byte file → Forall byte bs → Forall byte (write_at file off bs).
Proof.
  intros Hf Hb. unfold write_at. destruct (_ =? _)%nat; [done|]. unfold blit.
  assert (Hr : Forall byte (file ++ replicate (Z.to_nat off + length bs - length file) 0)).
  { apply Forall_app. split; [done|]. apply Forall_replicate. unfold byte. lia. }
  rewrite !Forall_app. split_and!; [by apply Forall_take|done|by apply Forall_drop].
Qed.

(** Opening [n] on an inode: the laws of open hold for the descriptor. *)
Lemma h_open_ok v fd n ino : view_ok v → map_Forall (λ _, Forall byte) (inodes v) → 0 <= fd →
  host_ok (mkHost (mkView (<[fd := (ino, 0)]> (fds v)) (<[n := ino]> (names v)) (<[ino := []]> (inodes v)))).
Proof.
  intros Hv Hb Hfd. split; simpl.
  - set (i := <[ino := []]> (inodes v)). set (ns := <[n := ino]> (names v)).
    assert (Hi : is_Some (i !! ino)) by (unfold i; rewrite lookup_insert_eq; eauto).
    apply (view_ok_fd (mkView (fds v) ns i) fd ino 0); [|done|lia|done].
    apply (view_ok_name (mkView (fds v) (names v) i)); [by apply view_ok_inode|done].
  - by apply map_Forall_insert_2.
Qed.

Lemma h_file_ok v fd ino off : view_ok v → fds v !! fd = Some (ino, off) →
  ∃ file, inodes v !! ino = Some file ∧ h_file v fd = Some (ino, off, file) ∧ 0 <= fd ∧ 0 <= off.
Proof.
  intros Hv Hf. destruct (vo_fd _ Hv _ _ _ Hf) as (Hfd & Hoff & [file Hi]).
  exists file. unfold h_file. rewrite Hf. simpl. by rewrite Hi.
Qed.

#[export] Instance Host_laws : UnixLaws Host.
Proof.
  refine {| view := h_view; unix_ok := host_ok |}.
  - by intros u [].
  - intros n u fd u' [Hv Hb] Ho. simpl in Ho. unfold h_open in Ho.
    destruct (h_fresh_spec (fds (h_view u))) as [H0 Hn].
    destruct (names (h_view u) !! n) as [ino|] eqn:En; injection Ho as <- <-.
    + split; [by apply h_open_ok|]. right. split_and!; try done. exists ino. auto.
    + split; [by apply h_open_ok|]. right. split_and!; try done. eexists. split; [|done].
      right. split; [done|apply h_fresh_spec].
  - intros n u fd u' [Hv Hb] Ho. simpl in Ho. unfold h_open in Ho.
    destruct (h_fresh_spec (fds (h_view u))) as [H0 Hn].
    destruct (names (h_view u) !! n) as [ino|] eqn:En; injection Ho as <- <-; [|by split; [|left]].
    split.
    + split; [|done]. apply view_ok_fd; [done|done|lia|]. by eapply vo_name.
    + right. split_and!; try done. eauto.
  - intros fd u [Hv Hb] [p Hp]. simpl. rewrite Hp. eexists. split; [done|]. split; [|done]. split; [|done].
    destruct Hv as [H1 H2]. split; [|done]. intros fd' ino off. simpl. rewrite lookup_delete_Some.
    intros [_ Hf]. eauto.
  - intros fd n u ino off r bs u' [Hv Hb] Hf Hn Hr. simpl in Hr.
    destruct (h_file_ok _ _ _ _ Hv Hf) as (file & Hi & Hh & Hfd & Hoff). rewrite Hh in Hr. injection Hr as <- <- <-.
    split.
    + split; [|done]. apply view_ok_fd; [done|done|lia|eauto].
    + right. exists file. split_and!; try done. apply Forall_take, Forall_drop. by eapply Hb.
  - intros fd bs u ino off r u' [Hv Hb] Hf Hbs Hw. simpl in Hw.
    destruct (h_file_ok _ _ _ _ Hv Hf) as (file & Hi & Hh & Hfd & Hoff). rewrite Hh in Hw. injection Hw as <- <-.
    split.
    + split; simpl.
      * set (i := <[ino := write_at file off bs]> (inodes (h_view u))).
        apply (view_ok_fd (mkView (fds (h_view u)) (names (h_view u)) i) fd ino);
          [by apply view_ok_inode|done|lia|].
        unfold i. simpl. rewrite lookup_insert_eq. eauto.
      * apply map_Forall_insert_2; [|done]. apply write_at_bytes; [by eapply Hb|done].
    + right. exists file. rewrite Nat2Z.id, take_ge by done. split_and!; try done; lia.
  - intros fd off whence u ino pos file [Hv Hb] Hf Hi target Ht Hw. simpl.
    destruct (h_file_ok _ _ _ _ Hv Hf) as (file' & Hi' & Hh & Hfd & Hoff). rewrite Hi in Hi'. injection Hi' as <-.
    rewrite Hh. fold target. destruct (Z.ltb_spec target 0); [lia|]. eexists. split; [done|]. split; [|done].
    split; [|done]. apply view_ok_fd; [done|done|lia|eauto].
  - intros n u r u' [Hv Hb] Hu. simpl in Hu.
    destruct (names (h_view u) !! n) as [ino|] eqn:En; injection Hu as <- <-; [|by split; [|left]].
    split.
    + split; [|done]. destruct Hv as [H1 H2]. split; [done|]. intros n' ino'. simpl.
      rewrite lookup_delete_Some. intros [_ ?]. eauto.
    + right. eauto.
Defined.

Definition empty_host : Host := mkHost (mkView ∅ ∅ ∅).

Lemma empty_host_ok : unix_ok empty_host.
Proof. split; [split|]; simpl; try done. Qed.

(** A host on which legal calls do not fail for want of resources: files that
    exist can be opened and read, and a write is complete. *)
Class UnixReliable (U : Type) `{UnixLaws U} := {
  open_creat_works n u : unix_ok u → fst (open n true u) ≠ -1;
  open_works n u : unix_ok u → is_Some (names (view u) !! n) → fst (open n false u) ≠ -1;
  read_works fd n u : unix_ok u → is_Some (fds (view u) !! fd) → 0 <= n → fst (fst (read fd n u)) ≠ -1;
  write_works fd bs u : unix_ok u → is_Some (fds (view u) !! fd) → fst (write fd bs u) = Z.of_nat (length bs);
}.

#[export] Instance Host_reliable : UnixReliable Host.
Proof.
  split.
  - intros n u _. simpl. unfold h_open. destruct (h_fresh_spec (fds (h_view u))).
    destruct (names _ !! n); simpl; lia.
  - intros n u _ [ino Hi]. simpl in *. unfold h_open. rewrite Hi. simpl.
    destruct (h_fresh_spec (fds (h_view u))). lia.
  - intros fd n u [Hv _] [[ino off] Hf] _. simpl in *. destruct (h_file_ok _ _ _ _ Hv Hf) as (file & _ & -> & _).
    simpl. lia.
  - intros fd bs u [Hv _] [[ino off] Hf]. simpl in *. by destruct (h_file_ok _ _ _ _ Hv Hf) as (file & _ & -> & _).
Qed.

(** ** What the wrappers do on open files *)

Section SysdepLaws.
Context {U : Type} `{UnixLaws U}.

Lemma set_fds_same v fd p : fds v !! fd = Some p → set_fds v (<[fd := p]> (fds v)) = v.
Proof. intros Hf. destruct v. unfold set_fds. simpl in *. by rewrite insert_id. Qed.

Lemma Tell_ok fd u ino off : unix_ok u → fds (view u) !! fd = Some (ino, off) →
  ∃ u', Tell fd u = Ok (off, u') ∧ unix_ok u' ∧ view u' = view u.
Proof.
  intros Hu Hf. destruct (vo_fd _ (unix_view_ok u Hu) _ _ _ Hf) as (_ & Hoff & [file Hi]).
  destruct (lseek_open fd 0 SEEK_CUR u ino off file Hu Hf Hi) as (u' & Hs & Hu' & Hv); [simpl; lia|set_solver|].
  simpl in Hs, Hv. rewrite Z.add_0_r in Hs, Hv. exists u'. unfold Tell, host. rewrite Hs, Hv. split; [done|].
  split; [done|]. by apply set_fds_same.
Qed.

Lemma Lseek_ok fd off u ino pos : unix_ok u → fds (view u) !! fd = Some (ino, pos) → 0 <= off →
  ∃ u', Lseek fd off SEEK_SET u = Ok (tt, u') ∧ unix_ok u' ∧
    view u' = set_fds (view u) (<[fd := (ino, off)]> (fds (view u))).
Proof.
  intros Hu Hf Hoff. destruct (vo_fd _ (unix_view_ok u Hu) _ _ _ Hf) as (_ & _ & [file Hi]).
  destruct (lseek_open fd off SEEK_SET u ino pos file Hu Hf Hi) as (u' & Hs & Hu' & Hv); [done|set_solver|].
  exists u'. split; [|done]. unfold Lseek, host, mbind, st_bind. rewrite Hs.
  destruct (Z.geb_spec off 0); [|lia]. simpl. destruct (Z.geb_spec off 0); [done|lia].
Qed.

Lemma Close_ok fd u : unix_ok u → is_Some (fds (view u) !! fd) →
  ∃ u', Close fd u = Ok (tt, u') ∧ unix_ok u' ∧ view u' = set_fds (view u) (delete fd (fds (view u))).
Proof.
  intros Hu Hf. destruct (close_open fd u Hu Hf) as (u' & Hc & Hu' & Hv).
  exists u'. split; [|done]. unfold Close, host, mbind, st_bind. by rewrite Hc.
Qed.
End SysdepLaws.
