(* ===== verification/StubFS.v ===== *)
(** * filesys/filesys.h and filesys/openfile.h with FILESYS_STUB

    The file system user programs see: the inline versions of FileSystem and
    OpenFile that turn each operation into a call of the UNIX host, and the
    table of the files opened by user programs. *)

From Stdlib Require Import ZArith Lia Bool.
From S2P Require Import Prelude Bytes Unix.

Local Open Scope Z_scope.

(** class OpenFile: [ftype] is its field type (0 read and write, 1 read only,
    2 stdin, 3 stdout). *)
Record StubFile := mkStub {
  file : Z;
  currentOffset : Z;
  ftype : Z;
}.

(** class FileSystem: the table of open files; a slot is NULL or the file. *)
Record StubFileSystem := mkStubFS {
  openf : list (option StubFile);
  index : Z;
}.

Definition MAX_FILES : Z := 15.

Definition set_openf (fs : StubFileSystem) (t : list (option StubFile)) : StubFileSystem :=
  mkStubFS t (index fs).

Section Stub.
Context {U : Type} `{Unix U}.

(** ** OpenFile *)

Definition Stub_ReadAt (f : StubFile) (numBytes position : Z) : ST U (Z * list Z) :=
  _ ← Lseek (file f) position SEEK_SET;
  ReadPartial (file f) numBytes.

Definition Stub_WriteAt (f : StubFile) (from : list Z) (position : Z) : ST U Z :=
  _ ← Lseek (file f) position SEEK_SET;
  _ ← WriteFile (file f) from;
  mret (Z.of_nat (length from)).

Definition set_offset (f : StubFile) (off : Z) : StubFile := mkStub (file f) off (ftype f).

Definition Stub_Read (f : StubFile) (numBytes : Z) : ST U (Z * list Z * StubFile) :=
  '(numRead, bs) ← Stub_ReadAt f numBytes (currentOffset f);
  mret (numRead, bs, set_offset f (s32 (currentOffset f + numRead))).

Definition Stub_Write (f : StubFile) (from : list Z) : ST U (Z * StubFile) :=
  numWritten ← Stub_WriteAt f from (currentOffset f);
  mret (numWritten, set_offset f (s32 (currentOffset f + numWritten))).

Definition Stub_Length (f : StubFile) : ST U Z :=
  _ ← Lseek (file f) 0 SEEK_END;
  len ← Tell (file f);
  _ ← Lseek (file f) (currentOffset f) SEEK_SET;
  mret len.

(** GetCurrentPos sets currentOffset to where the host's offset is. *)
Definition Stub_GetCurrentPos (f : StubFile) : ST U (Z * StubFile) :=
  pos ← Tell (file f);
  mret (pos, set_offset f pos).

(** ~OpenFile *)
Definition Stub_delete (f : StubFile) : ST U unit := Close (file f).

(** ** FileSystem *)

Definition Stub_Create (n : name) (initialSize : Z) : ST U bool :=
  fileDescriptor ← OpenForWrite n;
  if fileDescriptor =? -1 then mret false
  else _ ← Close fileDescriptor; mret true.

Definition Stub_Open (n : name) : ST U (option StubFile) :=
  fileDescriptor ← OpenForReadWrite n false;
  if fileDescriptor =? -1 then mret None
  else mret (Some (mkStub fileDescriptor 0 0)).

Definition Stub_Open_type (n : name) (type : Z) : ST U (option StubFile) :=
  fileDescriptor ← OpenForReadWrite n false;
  if fileDescriptor =? -1 then mret None
  else mret (Some (mkStub fileDescriptor 0 type)).

(** The first free slot from [i] on; [n] slots are left. *)
Fixpoint find_slot (t : list (option StubFile)) (i : Z) (n : nat) : outcome Z :=
  match n with
  | O => Ok (-1)
  | S n => x ← aget t i; match x with None => Ok i | Some _ => find_slot t (i + 1) n end
  end.

Definition Stub_FindFreeSlot (fs : StubFileSystem) : outcome Z := find_slot (openf fs) 2 13.

Definition Stub_Remove (n : name) : ST U bool :=
  r ← Unlink n; mret (negb r).

(** stdin and stdout, as the host spells them. *)
Definition stdin_name : name := [115; 116; 100; 105; 110].
Definition stdout_name : name := [115; 116; 100; 111; 117; 116].

(** openf[index++] = Open(n, type) *)
Definition open_next (fs : StubFileSystem) (n : name) (type : Z) : ST U StubFileSystem :=
  f ← Stub_Open_type n type;
  t ← st_lift (aset (openf fs) (index fs) f);
  mret (mkStubFS t (index fs + 1)).

Definition StubFileSystem_new (format : bool) : ST U StubFileSystem :=
  let fs := mkStubFS (replicate (Z.to_nat MAX_FILES) None) 0 in
  _ ← Stub_Create stdin_name 0;
  _ ← Stub_Create stdout_name 0;
  fs ← open_next fs stdin_name 2;
  open_next fs stdout_name 3.

(** ~FileSystem *)
Fixpoint Stub_delete_all (t : list (option StubFile)) : ST U unit :=
  match t with
  | [] => mret tt
  | None :: t => Stub_delete_all t
  | Some f :: t => _ ← Stub_delete f; Stub_delete_all t
  end.
End Stub.

(** ** What the operations do on a host that works *)

Section StubLaws.
Context {U : Type} `{UnixReliable U}.

(** The descriptor of the file is open on [ino], at the file's own offset. *)
Definition file_open (u : U) (f : StubFile) (ino off : Z) : Prop :=
  fds (view u) !! file f = Some (ino, off) ∧ currentOffset f = off.

Lemma Stub_GetCurrentPos_ok u f ino off : unix_ok u → fds (view u) !! file f = Some (ino, off) →
  ∃ u', Stub_GetCurrentPos f u = Ok ((off, set_offset f off), u') ∧ unix_ok u' ∧ view u' = view u.
Proof.
  intros Hu Hf. destruct (Tell_ok (file f) u ino off Hu Hf) as (u' & Ht & Hu' & Hv).
  exists u'. split; [|done]. unfold Stub_GetCurrentPos, mbind, st_bind. by rewrite Ht.
Qed.

(** Create makes the name refer to an empty file, and opens nothing. *)
Lemma Stub_Create_ok u n size : unix_ok u →
  ∃ ino u', Stub_Create n size u = Ok (true, u') ∧ unix_ok u' ∧
    (names (view u) !! n = Some ino ∨ names (view u) !! n = None ∧ inodes (view u) !! ino = None) ∧
    view u' = mkView (fds (view u)) (<[n := ino]> (names (view u))) (<[ino := []]> (inodes (view u))).
Proof.
  intros Hu. unfold Stub_Create, OpenForWrite. destruct (open n true u) as [fd u1] eqn:Ho.
  destruct (open_creat n u fd u1 Hu Ho) as [Hu1 [[-> _]|(Hfd & Hnew & ino & Hino & Hv)]].
  { pose proof (open_creat_works n u Hu) as Hw. by rewrite Ho in Hw. }
  destruct (Close_ok fd u1 Hu1) as (u2 & Hc & Hu2 & Hv2); [rewrite Hv; simpl; rewrite lookup_insert_eq; eauto|].
  exists ino, u2. split.
  - unfold mbind, st_bind, host, st_lift, mret, st_ret. rewrite Ho. destruct (Z.geb_spec fd 0); [|lia]. simpl.
    destruct (Z.eqb_spec fd (-1)); [lia|]. by rewrite Hc.
  - split; [done|]. split; [done|]. rewrite Hv2, Hv. unfold set_fds. simpl. by rewrite delete_insert_id.
Qed.

Lemma Stub_Open_ok u n type ino : unix_ok u → names (view u) !! n = Some ino →
  ∃ fd u', Stub_Open_type n type u = Ok (Some (mkStub fd 0 type), u') ∧ unix_ok u' ∧
    fds (view u) !! fd = None ∧ view u' = set_fds (view u) (<[fd := (ino, 0)]> (fds (view u))).
Proof.
  intros Hu Hn. unfold Stub_Open_type, OpenForReadWrite. destruct (open n false u) as [fd u1] eqn:Ho.
  destruct (open_rdwr n u fd u1 Hu Ho) as [Hu1 [[-> _]|(Hfd & Hnew & ino' & Hino & Hv)]].
  { pose proof (open_works n u Hu) as Hw. rewrite Ho, Hn in Hw. by destruct Hw; eauto. }
  rewrite Hn in Hino. injection Hino as <-. exists fd, u1. split; [|by split_and!].
  unfold mbind, st_bind, host, st_lift, mret, st_ret. rewrite Ho. simpl. destruct (Z.eqb_spec fd (-1)); [lia|done].
Qed.

Lemma Stub_Open_missing u n type : unix_ok u → names (view u) !! n = None →
  ∃ u', Stub_Open_type n type u = Ok (None, u') ∧ unix_ok u' ∧ view u' = view u.
Proof.
  intros Hu Hn. unfold Stub_Open_type, OpenForReadWrite. destruct (open n false u) as [fd u1] eqn:Ho.
  destruct (open_rdwr n u fd u1 Hu Ho) as [Hu1 [[-> Hv]|(Hfd & Hnew & ino' & Hino & Hv)]]; [|by rewrite Hn in Hino].
  exists u1. split; [|done]. unfold mbind, st_bind, host, st_lift, mret, st_ret. by rewrite Ho.
Qed.

(** Read at the file's offset, as many bytes as there are. *)
Lemma Stub_Read_ok u f ino off data n : unix_ok u → file_open u f ino off → inodes (view u) !! ino = Some data →
  0 <= n → off + n < 2 ^ 31 →
  let bs := bytes_at data off n in let r := Z.of_nat (length bs) in
  ∃ u', Stub_Read f n u = Ok ((r, bs, set_offset f (off + r)), u') ∧ unix_ok u' ∧ Forall byte bs ∧
    view u' = set_fds (view u) (<[file f := (ino, off + r)]> (fds (view u))).
Proof.
  intros Hu [Hf Hoff] Hi Hn Hmax bs r. pose proof (vo_fd _ (unix_view_ok u Hu) _ _ _ Hf) as (_ & Hge & _).
  destruct (Lseek_ok (file f) off u ino off Hu Hf Hge) as (u1 & Hl & Hu1 & Hv1).
  rewrite set_fds_same in Hv1 by done.
  destruct (read (file f) n u1) as [[r' bs'] u2] eqn:Hr.
  assert (Hf1 : fds (view u1) !! file f = Some (ino, off)) by by rewrite Hv1.
  destruct (read_open _ _ _ _ _ _ _ _ Hu1 Hf1 Hn Hr) as [Hu2 [(-> & _)|(file' & Hi' & -> & -> & Hb & Hv2)]].
  { pose proof (read_works (file f) n u1 Hu1 ltac:(rewrite Hf1; eauto) Hn) as Hw. by rewrite Hr in Hw. }
  rewrite Hv1, Hi in Hi'. injection Hi' as <-. fold bs in Hv2, Hb. fold r in Hv2.
  assert (Hrn : 0 <= r <= n) by (unfold r, bs, bytes_at; rewrite length_take; lia).
  exists u2. split.
  - unfold Stub_Read, Stub_ReadAt, ReadPartial, mbind, st_bind, host, mret, st_ret. rewrite Hoff, Hl, Hr.
    fold bs. fold r. rewrite s32_id by (unfold int32; lia). done.
  - split_and!; try done. by rewrite Hv2, Hv1.
Qed.

(** Write at the file's offset. *)
Lemma Stub_Write_ok u f ino off data bs : unix_ok u → file_open u f ino off → inodes (view u) !! ino = Some data →
  Forall byte bs → off + Z.of_nat (length bs) < 2 ^ 31 →
  let r := Z.of_nat (length bs) in
  ∃ u', Stub_Write f bs u = Ok ((r, set_offset f (off + r)), u') ∧ unix_ok u' ∧
    view u' = mkView (<[file f := (ino, off + r)]> (fds (view u))) (names (view u))
                (<[ino := write_at data off bs]> (inodes (view u))).
Proof.
  intros Hu [Hf Hoff] Hi Hb Hmax r. pose proof (vo_fd _ (unix_view_ok u Hu) _ _ _ Hf) as (_ & Hge & _).
  destruct (Lseek_ok (file f) off u ino off Hu Hf Hge) as (u1 & Hl & Hu1 & Hv1).
  rewrite set_fds_same in Hv1 by done.
  destruct (write (file f) bs u1) as [r' u2] eqn:Hw.
  assert (Hf1 : fds (view u1) !! file f = Some (ino, off)) by by rewrite Hv1.
  pose proof (write_works (file f) bs u1 Hu1 ltac:(rewrite Hf1; eauto)) as Hww. rewrite Hw in Hww. simpl in Hww. subst r'.
  destruct (write_open _ _ _ _ _ _ _ Hu1 Hf1 Hb Hw) as [Hu2 [[Hr _]|(file' & Hi' & _ & Hv2)]]; [lia|].
  rewrite Hv1, Hi in Hi'. injection Hi' as <-. fold r in Hv2.
  rewrite take_ge in Hv2 by (unfold r; lia). rewrite Hv1 in Hv2.
  exists u2. split; [|done]. unfold Stub_Write, Stub_WriteAt, WriteFile, mbind, st_bind, host, mret, st_ret, st_lift.
  rewrite Hoff, Hl, Hw. rewrite Z.eqb_refl. simpl. fold r. rewrite s32_id by (unfold int32, r; lia). done.
Qed.

Lemma Stub_delete_ok u f : unix_ok u → is_Some (fds (view u) !! file f) →
  ∃ u', Stub_delete f u = Ok (tt, u') ∧ unix_ok u' ∧ view u' = set_fds (view u) (delete (file f) (fds (view u))).
Proof. apply Close_ok. Qed.
End StubLaws.

(** FindFreeSlot: the first free slot after stdin and stdout. *)
Lemma find_slot_ok t n : ∀ i, 0 <= i → i + Z.of_nat n <= Z.of_nat (length t) →
  ∃ r, find_slot t i n = Ok r ∧
    (r = -1 ∧ (∀ j, i <= j < i + Z.of_nat n → ∃ f, t !! Z.to_nat j = Some (Some f)) ∨
     i <= r < i + Z.of_nat n ∧ t !! Z.to_nat r = Some None).
Proof.
  induction n as [|n IH]; intros i Hi Hn; simpl.
  { exists (-1). split; [done|]. left. split; [done|]. intros; lia. }
  destruct (aget_in_range t i) as (x & -> & Hx); [lia|]. simpl. destruct x as [f|].
  - destruct (IH (i + 1)) as (r & -> & Hr); [lia|lia|]. exists r. split; [done|].
    destruct Hr as [[-> Hall]|[Hr Hnone]]; [|right; split; [lia|done]]. left. split; [done|]. intros j Hj.
    destruct (decide (j = i)) as [->|]; [eauto|]. apply Hall. lia.
  - exists i. split; [done|]. right. split; [lia|done].
Qed.
