(* ===== verification/UserMem.v ===== *)
(** * userprog/exception.cc: moving data between user programs and the kernel

    UserToSystem and SystemToUser copy between the memory of the running
    process and buffers of the kernel, a byte at a time through ReadMem and
    WriteMem.  A fault in the middle enters ExceptionHandler again, which shuts
    the machine down for each of the memory exceptions: [kernel_fault]. *)

From Stdlib Require Import ZArith Lia Bool.
From S2P Require Import Prelude Bytes Machine Mips MipsProofs AddrSpace AddrSpaceProofs.

Local Open Scope Z_scope.

Definition AdvanceProgramCounter (m : Machine) : Machine :=
  let m := set_reg m PrevPCReg (reg m PCReg) in
  let m := set_reg m PCReg (reg m NextPCReg) in
  set_reg m NextPCReg (s32 (reg m NextPCReg + 4)).

(** RaiseException on the address [bad] while the kernel runs. *)
Definition kernel_fault {A} (m : Machine) (bad : Z) : outcome A :=
  m ← RaiseException m bad; Halted.

(** The loop of UserToSystem: [n] iterations are left. *)
Fixpoint UserToSystem_loop (n : nat) (virtAddr i : Z) (kernelBuf : list Z) (m : Machine)
  : outcome (list Z * Machine) :=
  match n with
  | O => Ok (kernelBuf, m)
  | S n =>
      '(r, m) ← ReadMem m (s32 (virtAddr + i)) 1;
      match r with
      | inl (_, bad) => kernel_fault m bad
      | inr oneChar =>
          kernelBuf ← aset kernelBuf i (oneChar mod 256);
          if oneChar =? 0 then Ok (kernelBuf, m)
          else UserToSystem_loop n virtAddr (i + 1) kernelBuf m
      end
  end.

(** new char[limit + 1] aborts the simulator when the size is negative. *)
Definition UserToSystem (virtAddr limit : Z) (m : Machine) : outcome (list Z * Machine) :=
  if limit + 1 <? 0 then Aborted
  else UserToSystem_loop (Z.to_nat limit) virtAddr 0 (replicate (Z.to_nat (limit + 1)) 0) m.

(** The do-while loop of SystemToUser; [n] bounds the iterations by [len]. *)
Fixpoint SystemToUser_loop (n : nat) (virtAddr i : Z) (buffer : list Z) (m : Machine)
  : outcome (Z * Machine) :=
  match n with
  | O => Ok (i, m)
  | S n =>
      b ← aget buffer i;
      let oneChar := schar b in
      '(r, m) ← WriteMem m (s32 (virtAddr + i)) 1 oneChar;
      match r with
      | inl (_, bad) => kernel_fault m bad
      | inr _ => if oneChar =? 0 then Ok (i + 1, m) else SystemToUser_loop n virtAddr (i + 1) buffer m
      end
  end.

Definition SystemToUser (virtAddr len : Z) (buffer : list Z) (m : Machine) : outcome (Z * Machine) :=
  if len <? 0 then Ok (-1, m)
  else if len =? 0 then Ok (len, m)
  else SystemToUser_loop (Z.to_nat len) virtAddr 0 buffer m.

(** ** C strings *)

(** The bytes before the first NUL. *)
Fixpoint until_nul (bs : list Z) : list Z :=
  match bs with
  | [] => []
  | b :: bs => if b =? 0 then [] else b :: until_nul bs
  end.

(** A char buffer used as a C string: without a NUL it is read beyond its end. *)
Definition c_str (buf : list Z) : outcome (list Z) :=
  if bool_decide (0 ∈ buf) then Ok (until_nul buf) else Undef.

(** ** The memory of the running process

    [t] is its page table up to the use and dirty bits: every page is mapped to
    a frame of its own and may be written, as AddrSpace sets it up. *)
Record user_space (m : Machine) (t : list TranslationEntry) : Prop := {
  us_tlb : tlb m = None;
  us_table : ∃ p t', pageTable m = Some p ∧ ptables m !! p = Some t' ∧ t' ≡ t;
  us_size : pageTableSize m = Z.of_nat (length t);
  us_frames : wf_frames t;
  us_rw : Forall (λ e, valid e = true ∧ readOnly e = false) t;
  us_mem : wf_mem m;
}.

Definition space_size (t : list TranslationEntry) : Z := Z.of_nat (length t) * PageSize.

(** At most NumPhysPages frames, so virtual addresses are small. *)
Lemma space_small t : wf_frames t → space_size t <= MemorySize.
Proof.
  intros [Hnd Hr]. unfold space_size, MemorySize.
  assert (length (frames t) <= length (seqZ 0 NumPhysPages))%nat.
  { apply submseteq_length, NoDup_submseteq; [done|]. intros f Hf. rewrite Forall_forall in Hr.
    apply elem_of_seqZ. pose proof (Hr f Hf). lia. }
  rewrite length_seqZ in *. unfold frames in *. rewrite length_fmap in *.
  unfold PageSize, SectorSize, NumPhysPages in *. lia.
Qed.

Lemma user_space_wf_tr m t : user_space m t → wf_tr m.
Proof.
  intros [Htlb (p & t' & Hp & Ht & He) Hs _ _ _]. unfold wf_tr. rewrite Htlb.
  exists p, t'. split_and!; [done|done|]. rewrite Hs. apply Nat2Z.inj_iff. by rewrite He.
Qed.

Lemma user_space_same m m' t : same_map m m' → wf_mem m' → user_space m t → user_space m' t.
Proof.
  intros [Ht Hp Hs Htab] Hmem [Htlb (p & t' & Hpt & Hpp & He) Hsz Hf Hrw _].
  split; try done.
  - rewrite Htlb in Ht. by inversion Ht.
  - pose proof (lookup_proper p _ _ Htab) as Hl. rewrite Hpp in Hl. inversion Hl as [x y Hxy Hx Hy|]; subst.
    exists p, y. split_and!; [by rewrite <- Hp|done|]. by rewrite <- Hxy.
  - by rewrite <- Hs.
Qed.

Lemma vphys_in t a : 0 <= a < space_size t →
  ∃ e, t !! Z.to_nat (a / PageSize) = Some e ∧
    vphys t a = Some (Z.to_nat (physicalPage e * PageSize + a mod PageSize)).
Proof.
  intros Ha. destruct (lookup_lt_is_Some_2 t (Z.to_nat (a / PageSize))) as [e He].
  { unfold space_size in Ha. destruct (page_split a) as (? & ? & ?); [lia|].
    unfold PageSize, SectorSize in *. lia. }
  exists e. split; [done|]. unfold vphys. by rewrite He.
Qed.

(** A byte of the space translates to its physical address; an address outside
    it faults. *)
Lemma Translate_user m t a w : user_space m t → int32 a →
  if in_range a (space_size t) then
    ∃ e m', t !! Z.to_nat (a / PageSize) = Some e ∧
      Translate m a 1 w = Ok (Phys (physicalPage e * PageSize + a mod PageSize), m') ∧
      user_space m' t ∧ mainMemory m' = mainMemory m ∧ registers m' = registers m ∧ same_map m m'
  else Translate m a 1 w = Ok (Fault AddressErrorException, m).
Proof.
  intros Hus Ha. pose proof (user_space_wf_tr m t Hus) as Hwf. pose proof Hus as [Htlb Htab Hsz Hf Hrw Hmem].
  pose proof (space_small t Hf) as Hsm. destruct (in_range a (space_size t)) eqn:Er.
  - apply in_range_true in Er. destruct (vphys_in t a Er) as (e & He & _).
    destruct (Translate_spec m a 1 w Hwf ltac:(auto)) as (r & m' & Htr & Hs & Hreg & Hm & Hr).
    assert (Hu : u32 a = a) by (apply u32_id; unfold MemorySize, NumPhysPages, PageSize, SectorSize in *; lia).
    destruct Htab as (p & t' & Hp & Ht & Heq).
    pose proof (list_lookup_proper (Z.to_nat (a / PageSize)) _ _ Heq) as Hl. rewrite He in Hl.
    inversion Hl as [x y Hxy Hx Hy|]; subst y. rename Hx into Hx0. symmetry in Hx0.
    rewrite Forall_forall in Hrw. destruct (Hrw e) as [Hv Hro]; [by eapply list_elem_of_lookup_2|].
    destruct Hxy as (_ & Hpp & Hv' & Hro').
    assert (Hfe : find_entry m (a / PageSize) = Ok (inr (InTable (a / PageSize), x))).
    { unfold find_entry, current_table. rewrite Htlb, Hp, Ht, Hsz.
      destruct (page_split a) as (? & ? & ?); [lia|].
      destruct (Z.geb_spec (a / PageSize) (Z.of_nat (length t))).
      { apply lookup_lt_Some in He. lia. }
      cbn [mbind outcome_bind]. rewrite (proj2 (aget_Ok t' (a / PageSize) x)) by (split; [lia|done]).
      cbn [mbind outcome_bind]. by rewrite Hv', Hv. }
    exists e, m'. split; [done|].
    assert (Hr2 : r = Phys (physicalPage e * PageSize + a mod PageSize)).
    { pose proof (frame_lookup t _ e Hf He) as Hfr.
      destruct r as [ex|pa].
      - exfalso. unfold Translate in Htr. rewrite Hu in Htr. change (misaligned a 1) with false in Htr.
        rewrite Htlb, Hp in Htr. cbn [is_NULL negb orb ASSERT mbind outcome_bind] in Htr. rewrite Hfe in Htr.
        cbn [mbind outcome_bind] in Htr. rewrite Hro', Hro in Htr. cbn [andb] in Htr.
        rewrite Hpp, u32_id in Htr by (unfold NumPhysPages in *; lia).
        destruct (Z.geb_spec (physicalPage e) NumPhysPages); [lia|]. by inv_ok.
      - destruct Hr as (l & e' & Hfe' & _ & _ & -> & _). rewrite Hu, Hfe in Hfe'. injection Hfe' as <- <-.
        rewrite Hpp, Hu, u32_id by (unfold NumPhysPages in *; lia). done. }
    subst r. split; [done|]. split_and!; try done. eapply user_space_same; [done| |done].
    unfold wf_mem. by rewrite Hm.
  - unfold Translate. change (misaligned a 1) with false. cbv iota.
    destruct Htab as (p & t' & Hp & Ht & Heq). rewrite Htlb, Hp.
    cbn [is_NULL negb orb ASSERT mbind outcome_bind]. unfold find_entry. rewrite Htlb, Hsz.
    destruct (Z.geb_spec (u32 a / PageSize) (Z.of_nat (length t))) as [|Hlt]; [done|exfalso].
    assert (Hlt2 : u32 a < space_size t).
    { unfold space_size. pose proof (u32_range a). destruct (page_split (u32 a)) as (? & ? & ?); [lia|].
      unfold PageSize, SectorSize in *. lia. }
    rewrite u32_of_int32 in Hlt2 by done.
    assert (¬ 0 <= a < space_size t) by (rewrite <- in_range_true; congruence).
    unfold MemorySize, NumPhysPages, PageSize, SectorSize, int32 in *.
    destruct (Z.leb_spec 0 a); lia.
Qed.

Lemma vbyte_in m t a : user_space m t → 0 <= a < space_size t → ∃ b, vbyte t m a = Some b ∧ byte b.
Proof.
  intros Hus Ha. destruct (vphys_in t a Ha) as (e & He & Hv). destruct (us_mem _ _ Hus) as [Hl Hb].
  pose proof (frame_lookup t _ e (us_frames _ _ Hus) He).
  pose proof (Z.mod_pos_bound a PageSize ltac:(done)).
  unfold vbyte. rewrite Hv.
  destruct (lookup_lt_is_Some_2 (mainMemory m) (Z.to_nat (physicalPage e * PageSize + a mod PageSize))) as [b Hbb].
  { unfold MemorySize, NumPhysPages, PageSize, SectorSize in *. lia. }
  exists b. split; [done|]. by eapply Forall_lookup_1 in Hb.
Qed.

Lemma vbyte_space t m a b : 0 <= a → vbyte t m a = Some b → 0 <= a < space_size t.
Proof.
  unfold vbyte, vphys. intros Ha Hv. destruct (t !! _) as [e|] eqn:He; [|done].
  apply lookup_lt_Some in He. destruct (page_split a Ha) as (? & ? & ?).
  unfold space_size, PageSize, SectorSize in *. lia.
Qed.

Lemma schar_byte b : byte b → schar b mod 256 = b ∧ (schar b = 0 ↔ b = 0).
Proof.
  unfold byte, schar. intros Hb. split.
  - rewrite Zminus_mod, Z.mod_mod, <- Zminus_mod by lia.
    replace (b + 128 - 128) with b by lia. apply Z.mod_small. lia.
  - destruct (decide (b < 128)).
    + rewrite Z.mod_small by lia. lia.
    + replace (b + 128) with (b - 128 + 1 * 256) by lia. rewrite Z.mod_add, Z.mod_small by lia. lia.
Qed.

(** Reading one byte of the space. *)
Lemma ReadMem_user m t a : user_space m t → 0 <= a < space_size t →
  ∃ b m', vbyte t m a = Some b ∧ byte b ∧ ReadMem m a 1 = Ok (inr (schar b), m') ∧ user_space m' t ∧
    mainMemory m' = mainMemory m ∧ registers m' = registers m ∧ same_map m m'.
Proof.
  intros Hus Ha. destruct (vbyte_in m t a Hus Ha) as (b & Hb & Hbb).
  pose proof (space_small t (us_frames _ _ Hus)) as Hsm.
  assert (Hi : int32 a) by (unfold int32, MemorySize, NumPhysPages, PageSize, SectorSize in *; lia).
  pose proof (Translate_user m t a false Hus Hi) as Htr. apply in_range_true in Ha as Hr. rewrite Hr in Htr.
  destruct Htr as (e & m' & He & Htr & Hus' & Hm & Hreg & Hsame).
  exists b, m'. split_and!; try done. unfold ReadMem. rewrite Htr. cbn [mbind outcome_bind].
  unfold vbyte, vphys in Hb. rewrite He in Hb.
  pose proof (frame_lookup t _ e (us_frames _ _ Hus) He).
  pose proof (Z.mod_pos_bound a PageSize ltac:(done)). destruct (us_mem _ _ Hus) as [Hl _].
  rewrite mem_bytes_Ok by (rewrite ?Hm; unfold MemorySize, NumPhysPages, PageSize, SectorSize in *; lia).
  cbn [mbind outcome_bind]. rewrite Hm.
  assert (Hby : bytes_at (mainMemory m) (physicalPage e * PageSize + a mod PageSize) 1 = [b]).
  { unfold bytes_at. change (Z.to_nat 1) with 1%nat. by rewrite (drop_S _ b) by done. }
  rewrite Hby. unfold load_value. cbn [Z.eqb Pos.eqb le_combine mbind outcome_bind].
  do 4 f_equal. lia.
Qed.

(** Writing one byte of the space: that byte changes, the others do not, and
    neither does any frame of another process. *)
Lemma WriteMem_user m t a v : user_space m t → 0 <= a < space_size t →
  ∃ m', WriteMem m a 1 v = Ok (inr tt, m') ∧ user_space m' t ∧ registers m' = registers m ∧ same_map m m' ∧
    (∀ a', 0 <= a' → vbyte t m' a' = if decide (a' = a) then Some (v mod 256) else vbyte t m a') ∧
    (∀ q, Z.of_nat q / PageSize ∉ frames t → mainMemory m' !! q = mainMemory m !! q).
Proof.
  intros Hus Ha. pose proof (space_small t (us_frames _ _ Hus)) as Hsm.
  assert (Hi : int32 a) by (unfold int32, MemorySize, NumPhysPages, PageSize, SectorSize in *; lia).
  pose proof (Translate_user m t a true Hus Hi) as Htr. apply in_range_true in Ha as Hr. rewrite Hr in Htr.
  destruct Htr as (e & m1 & He & Htr & Hus' & Hm & Hreg & Hsame).
  pose proof (frame_lookup t _ e (us_frames _ _ Hus) He) as Hfe.
  pose proof (Z.mod_pos_bound a PageSize ltac:(done)) as Hmod. destruct (page_split a) as (Hspl & _ & Hdiv); [lia|].
  assert (Hstore : read_into m1 (physicalPage e * PageSize + a mod PageSize) [v mod 256] 1 0 =
    mem_store m1 (physicalPage e * PageSize + a mod PageSize) [v mod 256]) by done.
  destruct (read_into_page t m1 [v mod 256] (a / PageSize) e (a mod PageSize) 1 0)
    as (m' & Hri & Hmem' & Hset & Hview & Hout);
    [apply Hus|apply Hus'| |lia|done|lia|lia|unfold PageSize, SectorSize in *; lia|lia|simpl; lia|].
  { apply Forall_singleton. apply Z.mod_pos_bound. lia. }
  rewrite Hstore in Hri. clear Hstore.
  exists m'. split.
  { unfold WriteMem. rewrite Htr. cbn [mbind outcome_bind]. unfold store_bytes. cbn [Z.eqb Pos.eqb mbind outcome_bind].
    change 0xff with (Z.ones 8). rewrite Z.land_ones by lia. change (2 ^ 8) with 256. simpl le_split.
    rewrite Z.mod_mod by lia. rewrite Hri. done. }
  assert (Hs' : same_map m1 m') by (rewrite Hset; by split).
  split; [by eapply user_space_same|]. split; [rewrite Hset; simpl; done|].
  split; [by etrans|]. split.
  - intros a' Ha'. rewrite Hview by done. unfold vbyte at 1. rewrite Hm.
    destruct (decide (a' = a)) as [->|Hne]; case_decide as Hd; try lia; [|done].
    replace (Z.to_nat _) with 0%nat by lia. done.
  - intros q Hq. rewrite Hout, Hm by done. done.
Qed.

(** Touching an address outside the space shuts the machine down. *)
Lemma kernel_fault_Halted {A} m bad : wf_regs m → int32 bad → @kernel_fault A m bad = Halted.
Proof.
  intros [Hl Hf Hz Hld] Hb. unfold kernel_fault, RaiseException.
  destruct (DelayedLoad_spec (set_reg m BadVAddrReg bad) 0 0) as (m' & -> & _); try done.
  - by rewrite length_set_reg.
  - rewrite reg_set_reg; [done|rewrite Hl; done|done].
  - by apply set_reg_int32.
Qed.

Lemma access_outside m t a : user_space m t → int32 a → ¬ 0 <= a < space_size t →
  ReadMem m a 1 = Ok (inl (AddressErrorException, a), m) ∧
  ∀ v, WriteMem m a 1 v = Ok (inl (AddressErrorException, a), m).
Proof.
  intros Hus Hi Ha. rewrite <- in_range_true in Ha. apply not_true_is_false in Ha.
  pose proof (Translate_user m t a false Hus Hi) as H1. pose proof (Translate_user m t a true Hus Hi) as H2.
  rewrite Ha in H1, H2. unfold ReadMem, WriteMem. by rewrite H1, H2.
Qed.

(** ** The copies *)

(** The process sees [bs] at virtual address [a]. *)
Definition holds (t : list TranslationEntry) (m : Machine) (a : Z) (bs : list Z) : Prop :=
  ∀ i b, bs !! i = Some b → vbyte t m (a + Z.of_nat i) = Some b.

(** The bytes up to and including the first NUL. *)
Fixpoint thru_nul (bs : list Z) : list Z :=
  match bs with
  | [] => []
  | b :: bs => if b =? 0 then [b] else b :: thru_nul bs
  end.

(** What may differ after a call that only touched the memory of the process
    with table [t]. *)
Record user_frame (t : list TranslationEntry) (m m' : Machine) : Prop := {
  uf_regs : registers m' = registers m;
  uf_map : same_map m m';
  uf_others q : Z.of_nat q / PageSize ∉ frames t → mainMemory m' !! q = mainMemory m !! q;
}.

#[export] Instance user_frame_refl t : Reflexive (user_frame t).
Proof. by split. Qed.

#[export] Instance user_frame_trans t : Transitive (user_frame t).
Proof.
  intros m1 m2 m3 [Hr1 Hm1 Ho1] [Hr2 Hm2 Ho2]; split; [congruence|by etrans|].
  intros q Hq. by rewrite Ho2, Ho1.
Qed.

Lemma holds_cons t m a b bs : holds t m a (b :: bs) ↔ vbyte t m a = Some b ∧ holds t m (a + 1) bs.
Proof.
  split.
  - intros H. split; [by rewrite <- (H 0%nat b eq_refl), Z.add_0_r|].
    intros i x Hx. rewrite <- (H (S i) x Hx). f_equal. lia.
  - intros [H0 H] [|i] x Hx; simpl in Hx.
    + injection Hx as <-. by rewrite Z.add_0_r.
    + rewrite <- (H i x Hx). f_equal. lia.
Qed.

Lemma holds_same_memory t m m' a bs : mainMemory m' = mainMemory m → holds t m a bs → holds t m' a bs.
Proof. intros Hm H i b Hb. unfold vbyte. rewrite Hm. by apply H. Qed.

Lemma vbyte_is_byte m t a b : user_space m t → vbyte t m a = Some b → byte b.
Proof.
  intros Hus Hv. unfold vbyte in Hv. destruct (vphys t a) as [p|]; [|done].
  destruct (us_mem _ _ Hus) as [_ Hf]. by eapply Forall_lookup_1 in Hf.
Qed.

Lemma holds_bytes m t a bs : user_space m t → holds t m a bs → Forall byte bs.
Proof. intros Hus H. apply Forall_lookup_2. intros i b Hb. by eapply vbyte_is_byte, H. Qed.

Lemma space_s32 t a : wf_frames t → 0 <= a < space_size t → s32 a = a.
Proof.
  intros Hf Ha. pose proof (space_small t Hf). apply s32_id.
  unfold int32, MemorySize, NumPhysPages, PageSize, SectorSize in *. lia.
Qed.

Lemma aset_middle (pre : list Z) k b :
  (0 < k)%nat → aset (pre ++ replicate k 0) (Z.of_nat (length pre)) b = Ok ((pre ++ [b]) ++ replicate (k - 1) 0).
Proof.
  intros Hk. destruct k as [|k]; [lia|]. rewrite aset_in_range by (rewrite length_app, length_replicate; lia).
  rewrite Nat2Z.id. simpl replicate. rewrite <- (Nat.add_0_r (length pre)), insert_app_r, <- app_assoc. simpl.
  by rewrite Nat.sub_0_r.
Qed.

Lemma UserToSystem_loop_ok t a n : 0 <= a → ∀ bs pre k m,
  user_space m t → holds t m (a + Z.of_nat (length pre)) bs → (n <= length bs)%nat ∨ 0 ∈ bs → (n <= k)%nat →
  ∃ m', UserToSystem_loop n a (Z.of_nat (length pre)) (pre ++ replicate k 0) m =
      Ok (pre ++ until_nul (take n bs) ++ replicate (k - length (until_nul (take n bs))) 0, m') ∧
    user_space m' t ∧ mainMemory m' = mainMemory m ∧ user_frame t m m'.
Proof.
  intros Ha. induction n as [|n IH]; intros bs pre k m Hus Hh Hlen Hk; simpl.
  { exists m. rewrite Nat.sub_0_r. by split_and!. }
  destruct bs as [|b bs]; [destruct Hlen as [|Hin]; [simpl in *; lia|by apply not_elem_of_nil in Hin]|].
  apply holds_cons in Hh as [H0 Hh].
  assert (Hr : 0 <= a + Z.of_nat (length pre) < space_size t) by (eapply vbyte_space; [lia|exact H0]).
  rewrite (space_s32 t) by (done || apply Hus).
  destruct (ReadMem_user m t _ Hus Hr) as (b' & m1 & Hb' & Hby & Hrd & Hus1 & Hm1 & Hreg1 & Hs1).
  rewrite H0 in Hb'. injection Hb' as <-. rewrite Hrd. cbn [mbind outcome_bind].
  destruct (schar_byte b Hby) as [Hmod H0iff]. rewrite Hmod, aset_middle by lia. cbn [mbind outcome_bind].
  assert (Hf1 : user_frame t m m1) by (split; [done|done|by rewrite Hm1]).
  simpl. destruct (Z.eqb_spec (schar b) 0) as [Hz|Hz], (Z.eqb_spec b 0) as [Hz'|Hz']; try tauto.
  - subst b. exists m1. split; [|by split_and!]. simpl. rewrite Nat.sub_0_r, <- app_assoc. simpl.
    destruct k; [lia|]. simpl. by rewrite Nat.sub_0_r.
  - destruct (IH bs (pre ++ [b]) (k - 1)%nat m1) as (m' & Hl & Hus' & Hm' & Hf'); try done.
    { rewrite length_app. simpl. eapply holds_same_memory; [exact Hm1|]. rewrite Nat2Z.inj_add, Z.add_assoc. done. }
    { destruct Hlen as [|Hin]; [left; simpl in *; lia|]. right. apply elem_of_cons in Hin as [|]; [congruence|done]. }
    { lia. }
    exists m'. rewrite length_app in Hl. simpl in Hl.
    replace (Z.of_nat (length pre + 1)) with (Z.of_nat (length pre) + 1) in Hl by lia.
    rewrite Hl, <- app_assoc. split; [|split_and!; [done|by rewrite Hm'|by etrans]].
    simpl. set (u := until_nul _). by replace (k - S (length u))%nat with (k - 1 - length u)%nat by lia.
Qed.

(** UserToSystem returns the string the process has at [a], cut at [limit]
    bytes, in a buffer of limit + 1 bytes filled up with NULs. *)
Lemma UserToSystem_ok t a limit bs m : 0 <= a → 0 <= limit →
  user_space m t → holds t m a bs → limit <= Z.of_nat (length bs) ∨ 0 ∈ bs →
  let s := until_nul (take (Z.to_nat limit) bs) in
  ∃ m', UserToSystem a limit m = Ok (s ++ replicate (Z.to_nat (limit + 1) - length s) 0, m') ∧
    user_space m' t ∧ mainMemory m' = mainMemory m ∧ user_frame t m m'.
Proof.
  intros Ha Hl Hus Hh Hlen s. unfold UserToSystem. destruct (Z.ltb_spec (limit + 1) 0); [lia|].
  destruct (UserToSystem_loop_ok t a (Z.to_nat limit) Ha bs [] (Z.to_nat (limit + 1)) m) as (m' & Hr & ?);
    [done|by rewrite Z.add_0_r|destruct Hlen; [left; lia|by right]|lia|].
  exists m'. by split.
Qed.

Lemma until_nul_no_nul bs : 0 ∉ bs → until_nul bs = bs.
Proof.
  induction bs as [|b bs IH]; intros Hn; simpl; [done|]. apply not_elem_of_cons in Hn as [Hb Hn].
  destruct (Z.eqb_spec b 0); [by subst|]. by rewrite IH.
Qed.

Lemma until_nul_nul bs r : 0 ∉ bs → until_nul (bs ++ 0 :: r) = bs.
Proof.
  induction bs as [|b bs IH]; intros Hn; simpl; [done|]. apply not_elem_of_cons in Hn as [Hb Hn].
  destruct (Z.eqb_spec b 0); [by subst|]. by rewrite IH.
Qed.

Lemma until_nul_take_nul s n : 0 ∉ s → (length s < n)%nat → until_nul (take n (s ++ [0])) = s.
Proof. intros H0 Hn. rewrite take_ge by (rewrite length_app; simpl; lia). by apply until_nul_nul. Qed.

Lemma until_nul_notin bs : 0 ∉ until_nul bs.
Proof.
  induction bs as [|b bs IH]; simpl; [apply not_elem_of_nil|].
  destruct (Z.eqb_spec b 0); [apply not_elem_of_nil|]. apply not_elem_of_cons. split; [done|done].
Qed.

Lemma until_nul_length bs : (length (until_nul bs) <= length bs)%nat.
Proof. induction bs as [|b bs IH]; simpl; [lia|]. destruct (b =? 0); simpl; lia. Qed.

Lemma until_nul_Forall (P : Z → Prop) bs : Forall P bs → Forall P (until_nul bs).
Proof. induction 1 as [|b bs Hb _ IH]; simpl; [done|]. destruct (b =? 0); [done|]. by constructor. Qed.

(** The buffer UserToSystem returns is a C string. *)
Lemma c_str_padded s k : 0 ∉ s → (0 < k)%nat → c_str (s ++ replicate k 0) = Ok s.
Proof.
  intros Hs Hk. unfold c_str. destruct k as [|k]; [lia|]. rewrite bool_decide_eq_true_2 by set_solver.
  f_equal. by apply until_nul_nul.
Qed.

Lemma thru_nul_length bs : (length (thru_nul bs) <= length bs)%nat.
Proof. induction bs as [|b bs IH]; simpl; [lia|]. destruct (b =? 0); simpl; lia. Qed.

Lemma thru_nul_no_nul bs : 0 ∉ bs → thru_nul bs = bs.
Proof.
  induction bs as [|b bs IH]; intros Hn; simpl; [done|]. apply not_elem_of_cons in Hn as [Hb Hn].
  destruct (Z.eqb_spec b 0); [by subst|]. by rewrite IH.
Qed.

Lemma thru_nul_nul bs r : 0 ∉ bs → thru_nul (bs ++ 0 :: r) = bs ++ [0].
Proof.
  induction bs as [|b bs IH]; intros Hn; simpl; [done|]. apply not_elem_of_cons in Hn as [Hb Hn].
  destruct (Z.eqb_spec b 0); [by subst|]. by rewrite IH.
Qed.

(** The bytes [bs] at [a], everything else as before. *)
Definition stored_at (t : list TranslationEntry) (m m' : Machine) (a : Z) (bs : list Z) : Prop :=
  ∀ a', 0 <= a' → vbyte t m' a' =
    if decide (a <= a' < a + Z.of_nat (length bs)) then bs !! Z.to_nat (a' - a) else vbyte t m a'.

Lemma stored_at_holds t m m' a bs : 0 <= a → stored_at t m m' a bs → holds t m' a bs.
Proof.
  intros Ha H i b Hb. pose proof (lookup_lt_Some _ _ _ Hb). rewrite H by lia.
  rewrite decide_True by lia. by replace (Z.to_nat _) with i by lia.
Qed.

Lemma stored_at_other t m m' a bs a' cs :
  stored_at t m m' a bs → 0 <= a' → a' + Z.of_nat (length cs) <= a ∨ a + Z.of_nat (length bs) <= a' →
  holds t m a' cs → holds t m' a' cs.
Proof.
  intros H Ha' Hd Hc i b Hb. pose proof (lookup_lt_Some _ _ _ Hb). rewrite H by lia.
  rewrite decide_False by lia. by apply Hc.
Qed.

Lemma SystemToUser_loop_ok t a buffer n : 0 <= a → ∀ i m bs,
  user_space m t → drop i buffer = bs → Forall byte bs → (n <= length bs)%nat →
  let s := thru_nul (take n bs) in
  a + Z.of_nat i + Z.of_nat (length s) <= space_size t →
  ∃ m', SystemToUser_loop n a (Z.of_nat i) buffer m = Ok (Z.of_nat i + Z.of_nat (length s), m') ∧
    user_space m' t ∧ user_frame t m m' ∧ stored_at t m m' (a + Z.of_nat i) s.
Proof.
  intros Ha. induction n as [|n IH]; intros i m bs Hus Hd Hb Hn s Hfit; simpl.
  { exists m. subst s. simpl. rewrite Z.add_0_r. split_and!; try done. intros a' Ha'. simpl.
    rewrite decide_False by lia. done. }
  destruct bs as [|b bs]; [simpl in Hn; lia|]. apply Forall_cons in Hb as [Hb0 Hb].
  assert (Hgi : buffer !! i = Some b) by (rewrite <- (Nat.add_0_r i), <- lookup_drop, Hd; done).
  rewrite (proj2 (aget_Ok buffer (Z.of_nat i) b)) by (rewrite Nat2Z.id; split; [lia|done]).
  cbn [mbind outcome_bind]. destruct (schar_byte b Hb0) as [Hmod H0iff].
  assert (Hls : (0 < length s)%nat) by (subst s; simpl; destruct (b =? 0); simpl; lia).
  rewrite (space_s32 t) by (apply Hus || lia).
  destruct (WriteMem_user m t (a + Z.of_nat i) (schar b) Hus) as (m1 & Hw & Hus1 & Hr1 & Hs1 & Hv1 & Ho1); [lia|].
  rewrite Hw. cbn [mbind outcome_bind]. rewrite Hmod in Hv1.
  assert (Hf1 : user_frame t m m1) by by split.
  assert (Hd1 : drop (S i) buffer = bs).
  { replace (S i) with (i + 1)%nat by lia. by rewrite <- drop_drop, Hd. }
  destruct (Z.eqb_spec (schar b) 0) as [Hz|Hz].
  - apply H0iff in Hz. subst b. subst s. simpl. exists m1. simpl. split_and!; try done.
    intros a' Ha'. rewrite Hv1 by done. simpl.
    destruct (decide (a' = a + Z.of_nat i)) as [->|]; [rewrite decide_True by lia|by rewrite decide_False by lia].
    by replace (Z.to_nat _) with 0%nat by lia.
  - assert (Hnz : b =? 0 = false) by (apply Z.eqb_neq; tauto). subst s. simpl in *. rewrite Hnz in *. simpl in *.
    destruct (IH (S i) m1 bs) as (m' & Hl & Hus' & Hf' & Hst); try done; [lia|lia|].
    exists m'. replace (Z.of_nat i + 1) with (Z.of_nat (S i)) by lia. rewrite Hl.
    split; [do 2 f_equal; lia|]. split; [done|]. split; [by etrans|].
    intros a' Ha'. rewrite Hst, Hv1 by done. simpl length.
    destruct (decide (a' = a + Z.of_nat i)) as [->|].
    + rewrite decide_False, decide_True by lia. by replace (Z.to_nat _) with 0%nat by lia.
    + destruct (decide (a + Z.of_nat (S i) <= a' < _)) as [Hin|Hin].
      * rewrite decide_True by lia.
        replace (Z.to_nat (a' - (a + Z.of_nat i))) with (S (Z.to_nat (a' - (a + Z.of_nat (S i))))) by lia. done.
      * by rewrite decide_False by lia.
Qed.

(** SystemToUser stores the first [len] bytes of the buffer at [a], up to and
    including the first NUL, and returns how many it stored. *)
Lemma SystemToUser_ok t a len buffer m : 0 <= a → 0 <= len <= Z.of_nat (length buffer) → Forall byte buffer →
  user_space m t →
  let s := thru_nul (take (Z.to_nat len) buffer) in
  a + Z.of_nat (length s) <= space_size t →
  ∃ m', SystemToUser a len buffer m = Ok (Z.of_nat (length s), m') ∧
    user_space m' t ∧ user_frame t m m' ∧ stored_at t m m' a s.
Proof.
  intros Ha Hlen Hb Hus s Hfit. unfold SystemToUser. destruct (Z.ltb_spec len 0); [lia|].
  destruct (Z.eqb_spec len 0) as [->|].
  { exists m. subst s. simpl. split_and!; try done. intros a' Ha'. simpl. by rewrite decide_False by lia. }
  destruct (SystemToUser_loop_ok t a buffer (Z.to_nat len) Ha 0%nat m buffer) as (m' & Hl & ? & ? & ?);
    rewrite ?Z.add_0_r; try done; [lia|].
  exists m'. split; [exact Hl|]. split_and!; try done. by rewrite Z.add_0_r in *.
Qed.

(** A copy that leaves the space before it meets a NUL shuts the machine down. *)
Lemma UserToSystem_fault t a n : ∀ bs pre k m,
  user_space m t → wf_regs m → holds t m (a + Z.of_nat (length pre)) bs → 0 ∉ bs →
  (length bs < n <= k)%nat → int32 a → (length bs + length pre = 0)%nat ∨ 0 <= a →
  ¬ 0 <= a + Z.of_nat (length pre + length bs) < space_size t → a + Z.of_nat (length pre + length bs) < 2 ^ 31 →
  UserToSystem_loop n a (Z.of_nat (length pre)) (pre ++ replicate k 0) m = Halted.
Proof.
  induction n as [|n IH]; intros bs pre k m Hus Hwr Hh Hnul Hn Hi Ha Hout Hmax; [lia|]. simpl.
  destruct bs as [|b bs].
  - simpl in *. rewrite Nat.add_0_r in *.
    assert (Hia : int32 (a + Z.of_nat (length pre))) by (unfold int32 in *; lia).
    rewrite s32_id by done. destruct (access_outside m t _ Hus Hia Hout) as [-> _]. cbn [mbind outcome_bind].
    by apply kernel_fault_Halted.
  - destruct Ha as [Ha|Ha]; [simpl in Ha; lia|]. apply holds_cons in Hh as [H0 Hh].
    assert (Hr : 0 <= a + Z.of_nat (length pre) < space_size t) by (eapply vbyte_space; [lia|exact H0]).
    rewrite (space_s32 t) by (done || apply Hus).
    destruct (ReadMem_user m t _ Hus Hr) as (b' & m1 & Hb' & Hby & Hrd & Hus1 & Hm1 & Hreg1 & Hs1).
    rewrite H0 in Hb'. injection Hb' as <-. rewrite Hrd. cbn [mbind outcome_bind].
    destruct (schar_byte b Hby) as [Hmod H0iff]. rewrite Hmod, aset_middle by (simpl in *; lia). cbn [mbind outcome_bind].
    apply not_elem_of_cons in Hnul as [Hb0 Hnul].
    destruct (Z.eqb_spec (schar b) 0) as [Hz|Hz]; [by apply H0iff in Hz; subst|].
    specialize (IH bs (pre ++ [b]) (k - 1)%nat m1). rewrite length_app in IH. simpl in *.
    replace (Z.of_nat (length pre) + 1) with (Z.of_nat (length pre + 1)) by lia. apply IH; try done.
    + destruct Hwr as [Hl Hf Hz0 Hld]. unfold reg in *. split; unfold reg; by rewrite Hreg1.
    + eapply holds_same_memory; [exact Hm1|]. rewrite Nat2Z.inj_add, Z.add_assoc. done.
    + lia.
    + by right.
    + replace (length pre + 1 + length bs)%nat with (length pre + S (length bs))%nat by lia. done.
    + lia.
Qed.
