(* ===== verification/STable.v ===== *)
(** * userprog/stable.cc and userprog/sem.h: the semaphores of user programs

    [Globals] has the kernel's global objects a system call works on, apart
    from the machine: the open files, the table of named semaphores and the
    world behind them.  A call that blocks (Semaphore::P, the console, Join)
    lets other processes run, which may change all of these; the registers of
    the caller are saved and restored (see Sched) and its memory is its own
    (see Processes).  [Semaphores] is the interface to threads/synch.cc: P
    returns when the caller is woken. *)

From Stdlib Require Import ZArith Lia Bool.
From S2P Require Import Prelude Bytes Bitmap Unix StubFS UserMem.

Local Open Scope Z_scope.

Definition MAX_SEMAPHORE : Z := 10.

(** class Sem: its name and its Semaphore object. *)
Record Sem := mkSem { sem_name : list Z; sem : Z }.

(** The pointers of semTab, which the constructor leaves uninitialised: a wild
    pointer must not be dereferenced. *)
Inductive sem_ptr := Null | Wild | To (s : Sem).

Record STable := mkSTable {
  bm : BitMap;
  semTab : list sem_ptr;
}.

Record Globals (W : Type) := mkGlobals {
  fileSystem : StubFileSystem;
  semTable : STable;
  world : W;
}.

Arguments mkGlobals {W} _ _ _.
Arguments fileSystem {W} _.
Arguments semTable {W} _.
Arguments world {W} _.

Definition set_fs {W} (g : Globals W) (fs : StubFileSystem) : Globals W := mkGlobals fs (semTable g) (world g).
Definition set_semTable {W} (g : Globals W) (t : STable) : Globals W := mkGlobals (fileSystem g) t (world g).

(** Semaphore objects: new Semaphore(name, v), P, V, getValue. *)
Class Semaphores (G : Type) := {
  Semaphore_new : Z → ST G Z;
  Semaphore_P : Z → ST G unit;
  Semaphore_V : Z → ST G unit;
  Semaphore_getValue : Z → ST G Z;
}.

(** STable::STable, on memory that holds [garbage]. *)
Definition STable_new (bits : list Z) (garbage : list sem_ptr) : outcome STable :=
  b ← BitMap_new bits MAX_SEMAPHORE;
  Ok (mkSTable b garbage).

(** The search of IsExist from [i] on; [n] slots are left.  strcmp compares up
    to the NUL of both strings, which [sem_name] does not contain. *)
Fixpoint IsExist_loop (t : list sem_ptr) (name : list Z) (i : Z) (n : nat) : outcome Z :=
  match n with
  | O => Ok (-1)
  | S n =>
      p ← aget t i;
      match p with
      | Null => IsExist_loop t name (i + 1) n
      | Wild => Undef
      | To s => if bool_decide (sem_name s = name) then Ok i else IsExist_loop t name (i + 1) n
      end
  end.

Definition IsExist (t : STable) (name : list Z) : outcome Z :=
  IsExist_loop (semTab t) name 0 (Z.to_nat MAX_SEMAPHORE).

(** Sem::Sem copies the name into an array of 50 characters. *)
Definition Sem_name_size : Z := 50.

Section STable.
Context {W : Type} `{Semaphores (Globals W)}.

Definition Sem_new (semName : list Z) (initVal : Z) : ST (Globals W) Sem :=
  if Z.of_nat (length semName) + 1 <=? Sem_name_size then
    s ← Semaphore_new initVal;
    mret (mkSem semName s)
  else st_lift Undef.

(** semTab[index], which IsExist found. *)
Definition sem_at (g : Globals W) (index : Z) : outcome Sem :=
  p ← aget (semTab (semTable g)) index;
  match p with To s => Ok s | _ => Undef end.

(** Create returns -1 for a name found at index 0, after a printf with a %s and
    no argument for it. *)
Definition STable_Create (name : list Z) (init : Z) : ST (Globals W) Z :=
  g ← st_get;
  e ← st_lift (IsExist (semTable g) name);
  if e =? 0 then st_lift Undef
  else
    '(index, b) ← st_lift (Find (bm (semTable g)));
    _ ← st_put (set_semTable g (mkSTable b (semTab (semTable g))));
    if index =? -1 then mret (-1)
    else
      s ← Sem_new name init;
      g ← st_get;
      t ← st_lift (aset (semTab (semTable g)) index (To s));
      _ ← st_put (set_semTable g (mkSTable (bm (semTable g)) t));
      mret index.

Definition STable_Wait (name : list Z) : ST (Globals W) Z :=
  g ← st_get;
  index ← st_lift (IsExist (semTable g) name);
  if negb (index =? -1) then
    s ← st_lift (sem_at g index);
    _ ← Semaphore_P (sem s);
    mret 0
  else mret (-1).

Definition STable_Signal (name : list Z) : ST (Globals W) Z :=
  g ← st_get;
  index ← st_lift (IsExist (semTable g) name);
  if negb (index =? -1) then
    s ← st_lift (sem_at g index);
    _ ← Semaphore_V (sem s);
    mret 0
  else mret (-1).

Definition STable_GetValue (name : list Z) : ST (Globals W) Z :=
  g ← st_get;
  index ← st_lift (IsExist (semTable g) name);
  if negb (index =? -1) then
    s ← st_lift (sem_at g index);
    Semaphore_getValue (sem s)
  else mret 32767.
End STable.
