(* ===== verification/Exception.v ===== *)
(** * userprog/exception.cc: system calls

    ExceptionHandler, the entry of the kernel from user programs.  The machine
    and the [Globals] are its state.  What it calls beyond the files and the
    semaphores is the interface [Services]: the console and the process table.
    The kernel's own buffers are lists of bytes. *)

From Stdlib Require Import ZArith Lia Bool.
From S2P Require Import Prelude Bytes Machine Mips Unix StubFS UserMem STable.

Local Open Scope Z_scope.

(** ** userprog/syscall.h *)

Definition SC_Halt : Z := 0.
Definition SC_Exit : Z := 1.
Definition SC_Exec : Z := 2.
Definition SC_Join : Z := 3.
Definition SC_Create : Z := 4.
Definition SC_Open : Z := 5.
Definition SC_Read : Z := 6.
Definition SC_Write : Z := 7.
Definition SC_Close : Z := 8.
Definition SC_Fork : Z := 9.
Definition SC_Yield : Z := 10.
Definition SC_ReadInt : Z := 11.
Definition SC_PrintInt : Z := 12.
Definition SC_ReadChar : Z := 13.
Definition SC_PrintChar : Z := 14.
Definition SC_ReadString : Z := 15.
Definition SC_PrintString : Z := 16.
Definition SC_CreateSemaphore : Z := 17.
Definition SC_Signal : Z := 18.
Definition SC_Wait : Z := 19.

Definition MaxNameLength : Z := 32.

(** The console (threads/synchcons.cc) and the process table
    (userprog/ptable.cc): Write is given the bytes to write, Read returns its
    result and the contents of the buffer of the given size. *)
Class Services (W : Type) := {
  svc_unix :: Unix W;
  svc_sems :: Semaphores (Globals W);
  SynchConsole_Write : list Z → ST (Globals W) Z;
  SynchConsole_Read : Z → ST (Globals W) (Z * list Z);
  ExecUpdate : list Z → ST (Globals W) Z;
  JoinUpdate : Z → ST (Globals W) Z;
  ExitUpdate : Z → ST (Globals W) Z;
}.

(** How a call of ExceptionHandler ends: it returns to the user program, or the
    thread has finished and does not come back. *)
Inductive handled := Returned | Finished.

Section Exception.
Context {W : Type} `{Services W}.

(** The state of the handler. *)
Notation K := (Machine * Globals W)%type.

(** ** Running code of the parts on the state *)

Definition on_machine {A} (f : Machine → outcome (A * Machine)) : ST K A := λ '(m, g),
  '(a, m) ← f m; Ok (a, (m, g)).

Definition on_globals {A} (f : ST (Globals W) A) : ST K A := λ '(m, g),
  '(a, g) ← f g; Ok (a, (m, g)).

Definition on_host {A} (f : ST W A) : ST K A :=
  on_globals (λ g, '(a, w) ← f (world g); Ok (a, mkGlobals (fileSystem g) (semTable g) w)).

Definition ReadReg (n : Z) : ST K Z := on_machine (λ m, v ← ReadRegister m n; Ok (v, m)).
(** The parameter of WriteRegister is an int. *)
Definition WriteReg (n v : Z) : ST K unit := on_machine (λ m, m ← WriteRegister m n (s32 v); Ok (tt, m)).
Definition Advance : ST K unit := on_machine (λ m, Ok (tt, AdvanceProgramCounter m)).

(** UserToSystem, with the buffer used as a C string. *)
Definition user_string (virtAddr limit : Z) : ST K (list Z) :=
  buf ← on_machine (UserToSystem virtAddr limit);
  st_lift (c_str buf).

(** fileSystem->openf[id], for an [id] in range. *)
Definition get_file (id : Z) : ST K (option StubFile) :=
  on_globals (λ g, f ← aget (openf (fileSystem g)) id; Ok (f, g)).

Definition put_file (id : Z) (f : option StubFile) : ST K unit :=
  on_globals (λ g, t ← aset (openf (fileSystem g)) id f; Ok (tt, set_fs g (set_openf (fileSystem g) t))).

(** The object fileSystem->openf[id] points to, not NULL. *)
Definition the_file (id : Z) : ST K StubFile :=
  f ← get_file id;
  st_lift (match f with Some f => Ok f | None => Undef end).

(** ** The cases of the switch

    Each leaves the switch ([mret Returned], then AdvanceProgramCounter) or
    ends as its name says. *)

Definition break_ : ST K handled := mret Returned.

Definition do_Exec : ST K handled :=
  virtAddr ← ReadReg 4;
  filename ← user_string virtAddr (32 + 1);
  pid ← on_globals (ExecUpdate filename);
  _ ← WriteReg 2 pid;
  break_.

Definition do_Join : ST K handled :=
  pid ← ReadReg 4;
  exitcode ← on_globals (JoinUpdate pid);
  _ ← WriteReg 2 exitcode;
  break_.

(** A status other than 0 leaves the switch: the program goes on. *)
Definition do_Exit : ST K handled :=
  exitstatus ← ReadReg 4;
  if negb (exitstatus =? 0) then break_
  else
    _ ← on_globals (ExitUpdate exitstatus);
    _ ← WriteReg 2 exitstatus;
    mret Finished.

Definition do_CreateSemaphore : ST K handled :=
  virtAddr ← ReadReg 4;
  initVal ← ReadReg 5;
  name ← user_string virtAddr (MaxNameLength + 1);
  index ← on_globals (STable_Create name initVal);
  _ ← WriteReg 2 index;
  _ ← Advance;
  break_.

(** SC_Signal and SC_Wait: [op] is the operation on the table. *)
Definition do_sem (op : list Z → ST (Globals W) Z) : ST K handled :=
  virtAddr ← ReadReg 4;
  name ← user_string virtAddr (MaxNameLength + 1);
  _ ← on_globals (STable_GetValue name);
  e ← on_globals (λ g, e ← IsExist (semTable g) name; Ok (e, g));
  if e =? 0 then
    _ ← WriteReg 2 (-1);
    _ ← Advance;
    break_
  else
    result ← on_globals (op name);
    _ ← WriteReg 2 result;
    _ ← Advance;
    break_.

Definition do_Create : ST K handled :=
  virtAddr ← ReadReg 4;
  fileName ← user_string virtAddr (MaxNameLength + 1);
  ok ← on_host (Stub_Create fileName 0);
  if negb (ok : bool) then
    _ ← WriteReg 2 (-1); break_
  else
    _ ← WriteReg 2 0; break_.

Definition do_Open : ST K handled :=
  virtAddr ← ReadReg 4;
  type ← ReadReg 5;
  buf ← on_machine (UserToSystem virtAddr MaxNameLength);
  freeSlot ← on_globals (λ g, i ← Stub_FindFreeSlot (fileSystem g); Ok (i, g));
  if negb (freeSlot =? -1) then
    if (type =? 0) || (type =? 1) then
      filename ← st_lift (c_str buf);
      f ← on_host (Stub_Open_type filename type);
      _ ← put_file freeSlot f;
      match f with
      | Some _ => _ ← WriteReg 2 freeSlot; break_
      | None => break_
      end
    else if type =? 2 then _ ← WriteReg 2 0; break_
    else _ ← WriteReg 2 1; break_
  else _ ← WriteReg 2 (-1); break_.

Definition do_Close : ST K handled :=
  fid ← ReadReg 4;
  f ← (if (fid >=? 0) && (fid <=? 14) then get_file fid else mret None);
  match f with
  | Some f =>
      _ ← on_host (Stub_delete f);
      _ ← put_file fid None;
      _ ← WriteReg 2 0; break_
  | None => _ ← WriteReg 2 (-1); break_
  end.

(** openf[id]->GetCurrentPos(), Read and Write change the object. *)
Definition file_pos (id : Z) : ST K Z :=
  f ← the_file id;
  '(pos, f) ← on_host (Stub_GetCurrentPos f);
  _ ← put_file id (Some f);
  mret pos.

Definition file_Read (id charcount : Z) : ST K (Z * list Z) :=
  f ← the_file id;
  '(n, bs, f) ← on_host (Stub_Read f charcount);
  _ ← put_file id (Some f);
  mret (n, bs).

Definition file_Write (id : Z) (bs : list Z) : ST K Z :=
  f ← the_file id;
  '(n, f) ← on_host (Stub_Write f bs);
  _ ← put_file id (Some f);
  mret n.

Definition do_Read : ST K handled :=
  virtAddr ← ReadReg 4;
  charcount ← ReadReg 5;
  id ← ReadReg 6;
  if (id <? 0) || (id >? 14) then _ ← WriteReg 2 (-1); break_
  else
    f ← get_file id;
    match f with
    | None => _ ← WriteReg 2 (-1); break_
    | Some f =>
        if ftype f =? 3 then _ ← WriteReg 2 (-1); break_
        else
          OldPos ← file_pos id;
          buf ← on_machine (UserToSystem virtAddr charcount);
          f ← the_file id;
          if ftype f =? 2 then
            '(size, bytes) ← on_globals (SynchConsole_Read charcount);
            _ ← on_machine (SystemToUser virtAddr size (blit buf 0 bytes));
            _ ← WriteReg 2 size; break_
          else
            '(n, bytes) ← file_Read id charcount;
            if n >? 0 then
              NewPos ← file_pos id;
              _ ← on_machine (SystemToUser virtAddr (NewPos - OldPos) (blit buf 0 bytes));
              _ ← WriteReg 2 (NewPos - OldPos); break_
            else _ ← WriteReg 2 (-2); break_
    end.

(** while (buf[i] != 0 && buf[i] != '\n') write one character: the characters
    written and the index reached. *)
Fixpoint write_line (buf : list Z) (i : Z) : ST (Globals W) Z :=
  match buf with
  | [] => st_lift Undef
  | b :: buf =>
      if negb (b =? 0) && negb (b =? 10) then
        _ ← SynchConsole_Write [b];
        write_line buf (i + 1)
      else
        _ ← SynchConsole_Write [10];
        mret i
  end.

(** atoi: white space, a sign, digits; undefined when the value is no int. *)
Fixpoint atoi_digits (ds : list Z) (acc : Z) : Z :=
  match ds with
  | [] => acc
  | d :: ds => if (48 <=? d) && (d <=? 57) then atoi_digits ds (acc * 10 + (d - 48)) else acc
  end.

Fixpoint skip_space (s : list Z) : list Z :=
  match s with
  | [] => []
  | c :: s' => if (c =? 32) || ((9 <=? c) && (c <=? 13)) then skip_space s' else s
  end.

Definition atoi (buf : list Z) : outcome Z :=
  s ← c_str buf;
  let v := match skip_space s with
           | c :: s' => if c =? 45 then - atoi_digits s' 0
                        else if c =? 43 then atoi_digits s' 0 else atoi_digits (c :: s') 0
           | [] => 0
           end in
  if int32b v then Ok v else Undef.

Definition not_digit (b : Z) : bool := (schar b <? 48) || (schar b >? 57).

Definition do_ReadInt : ST K handled :=
  '(length, buffer) ← on_globals (SynchConsole_Read 100);
  if existsb not_digit (take (Z.to_nat length) buffer) then break_
  else
    number ← st_lift (atoi buffer);
    _ ← WriteReg 2 number; break_.

(** A write that is refused or fails falls through into SC_ReadInt. *)
Definition do_Write : ST K handled :=
  virtAddr ← ReadReg 4;
  charcount ← ReadReg 5;
  id ← ReadReg 6;
  if (id <? 0) || (id >? 14) then _ ← WriteReg 2 (-1); break_
  else
    f ← get_file id;
    match f with
    | None => _ ← WriteReg 2 (-1); break_
    | Some f =>
        if (ftype f =? 1) || (ftype f =? 2) then _ ← WriteReg 2 (-1); break_
        else
          OldPos ← file_pos id;
          buf ← on_machine (UserToSystem virtAddr charcount);
          f ← the_file id;
          n ← (if ftype f =? 0 then file_Write id (take (Z.to_nat charcount) buf) else mret 0);
          if n >? 0 then
            NewPos ← file_pos id;
            _ ← WriteReg 2 (NewPos - OldPos); break_
          else
            f ← the_file id;
            if ftype f =? 3 then
              i ← on_globals (write_line buf 0);
              _ ← WriteReg 2 (i - 1); break_
            else do_ReadInt
    end.

(** while (temp > 0) { temp /= 10; numberOfDigits++; }: an int has at most ten
    digits. *)
Fixpoint count_digits (fuel : nat) (temp : Z) : outcome Z :=
  if temp >? 0 then
    match fuel with
    | O => NoFuel
    | S fuel => n ← count_digits fuel (Z.quot temp 10); Ok (n + 1)
    end
  else Ok 0.

(** for (i = numberOfDigits - 1; i >= 0; i--) buffer[i] = digit: the last digit
    goes last. *)
Fixpoint digits (n : nat) (number : Z) : list Z :=
  match n with
  | O => []
  | S n => digits n (Z.quot number 10) ++ [Z.rem number 10 + 48]
  end.

Definition do_PrintInt : ST K handled :=
  number ← ReadReg 4;
  numberOfDigits ← st_lift (count_digits 10 number);
  _ ← on_globals (SynchConsole_Write (digits (Z.to_nat numberOfDigits) number));
  break_.

Definition do_ReadChar : ST K handled :=
  '(_, character) ← on_globals (SynchConsole_Read 255);
  c ← st_lift (aget character 0);
  _ ← WriteReg 2 (schar c);
  break_.

Definition do_PrintChar : ST K handled :=
  character ← ReadReg 4;
  _ ← on_globals (SynchConsole_Write [character mod 256]);
  break_.

Definition do_ReadString : ST K handled :=
  virtAddr ← ReadReg 4;
  bufferSize ← ReadReg 5;
  if bufferSize <? 0 then st_lift Aborted
  else
    '(length, buffer) ← on_globals (SynchConsole_Read bufferSize);
    _ ← on_machine (SystemToUser virtAddr length buffer);
    break_.

Definition do_PrintString : ST K handled :=
  virtAddr ← ReadReg 4;
  buffer ← on_machine (UserToSystem virtAddr (255 + 1));
  _ ← on_globals (SynchConsole_Write (take 255 buffer));
  break_.

Definition syscall (type : Z) : ST K handled :=
  if type =? SC_Halt then st_lift Halted
  else if type =? SC_Exec then do_Exec
  else if type =? SC_Join then do_Join
  else if type =? SC_Exit then do_Exit
  else if type =? SC_CreateSemaphore then do_CreateSemaphore
  else if type =? SC_Signal then do_sem STable_Signal
  else if type =? SC_Wait then do_sem STable_Wait
  else if type =? SC_Create then do_Create
  else if type =? SC_Open then do_Open
  else if type =? SC_Close then do_Close
  else if type =? SC_Read then do_Read
  else if type =? SC_Write then do_Write
  else if type =? SC_ReadInt then do_ReadInt
  else if type =? SC_PrintInt then do_PrintInt
  else if type =? SC_ReadChar then do_ReadChar
  else if type =? SC_PrintChar then do_PrintChar
  else if type =? SC_ReadString then do_ReadString
  else if type =? SC_PrintString then do_PrintString
  else st_lift Halted.

Definition ExceptionHandler (which : ExceptionType) : ST K handled :=
  type ← ReadReg 2;
  match which with
  | NoException => break_
  | SyscallException =>
      r ← syscall type;
      match r with
      | Returned => _ ← Advance; break_
      | Finished => mret Finished
      end
  | _ => st_lift Halted
  end.
End Exception.
