(* ===== verification/SimWorld.v ===== *)
(** * A world for system calls

    Concrete services for the examples: the files of [Host], a console with the
    characters still to be typed and those displayed, semaphores of a kernel
    with one process (a P that would block finds no other thread and halts the
    machine), and a process table that refuses Exec and Join.  [read_line] is
    what SynchConsole::Read does with the characters typed. *)

From Stdlib Require Import ZArith Lia Bool.
From S2P Require Import Prelude Bytes Bitmap Machine Mips MipsProofs AddrSpace AddrSpaceProofs.
From S2P Require Import Unix StubFS UserMem STable Exception.

Local Open Scope Z_scope.

(** The loop of SynchConsole::Read on the input [inp], with room for [n] more
    characters after [acc]: characters that read as EOF are skipped, a newline
    ends the line, ctrl-A ends the stream.  The result is the value returned,
    the characters stored and the input left; None when more input is needed. *)
Fixpoint read_line (n : nat) (inp acc : list Z) : option (Z * list Z * list Z) :=
  match n with
  | O => Some (Z.of_nat (length acc), acc, inp)
  | S n' =>
      (fix skip (inp : list Z) :=
         match inp with
         | [] => None
         | c :: inp =>
             if c =? 255 then skip inp
             else if c =? 10 then Some (Z.of_nat (length acc), acc, inp)
             else if c =? 1 then Some (-1, acc, inp)
             else read_line n' inp (acc ++ [c])
         end) inp
  end.

Record Sim := mkSim {
  sim_files : Host;
  sim_input : list Z;
  sim_output : list Z;
  sim_sems : list Z;
}.

Definition set_files (s : Sim) (h : Host) : Sim := mkSim h (sim_input s) (sim_output s) (sim_sems s).

(** A call of the host's files. *)
Definition sim_host {A} (f : Host → A * Host) (s : Sim) : A * Sim :=
  let '(a, h) := f (sim_files s) in (a, set_files s h).

#[export] Instance Sim_unix : Unix Sim := {
  open n c := sim_host (open n c);
  close fd := sim_host (close fd);
  read fd n := sim_host (read fd n);
  write fd bs := sim_host (write fd bs);
  lseek fd o w := sim_host (lseek fd o w);
  unlink n := sim_host (unlink n);
  select fd := sim_host (select fd);
}.

Lemma sim_host_inv {A} (f : Host → A * Host) s a s' : sim_host f s = (a, s') →
  ∃ h, f (sim_files s) = (a, h) ∧ s' = set_files s h.
Proof. unfold sim_host. destruct (f (sim_files s)) as [a' h]. intros [= -> <-]. eauto. Qed.

Lemma sim_host_eq {A} (f : Host → A * Host) s a h : f (sim_files s) = (a, h) → sim_host f s = (a, set_files s h).
Proof. unfold sim_host. by intros ->. Qed.

#[export] Instance Sim_laws : UnixLaws Sim.
Proof.
  refine {| view := λ s, view (sim_files s); unix_ok := λ s, unix_ok (sim_files s) |}.
  - intros u. apply unix_view_ok.
  - intros n u fd u' Hu (h & Ho & ->)%sim_host_inv. by apply (open_creat n (sim_files u)).
  - intros n u fd u' Hu (h & Ho & ->)%sim_host_inv. by apply (open_rdwr n (sim_files u)).
  - intros fd u Hu Hf. destruct (close_open fd (sim_files u) Hu Hf) as (h & Hc & Hh).
    exists (set_files u h). split; [by apply sim_host_eq|done].
  - intros fd n u ino off r bs u' Hu Hf Hn (h & Ho & ->)%sim_host_inv. by eapply (read_open fd n (sim_files u)).
  - intros fd bs u ino off r u' Hu Hf Hb (h & Ho & ->)%sim_host_inv. by apply (write_open fd bs (sim_files u)).
  - intros fd off wh u ino pos file Hu Hf Hi target Ht Hw.
    destruct (lseek_open fd off wh (sim_files u) ino pos file Hu Hf Hi Ht Hw) as (h & Hl & Hh).
    exists (set_files u h). split; [by apply sim_host_eq|done].
  - intros n u r u' Hu (h & Ho & ->)%sim_host_inv. by apply (unlink_name n (sim_files u)).
Defined.

Lemma sim_host_fst {A} (f : Host → A * Host) s : fst (sim_host f s) = fst (f (sim_files s)).
Proof. unfold sim_host. by destruct (f (sim_files s)). Qed.

#[export] Instance Sim_reliable : UnixReliable Sim.
Proof.
  split.
  - intros n u Hu. simpl. rewrite sim_host_fst. exact (open_creat_works n (sim_files u) Hu).
  - intros n u Hu Hn. simpl. rewrite sim_host_fst. exact (open_works n (sim_files u) Hu Hn).
  - intros fd n u Hu Hf Hn. simpl. rewrite sim_host_fst. exact (read_works fd n (sim_files u) Hu Hf Hn).
  - intros fd bs u Hu Hf. simpl. rewrite sim_host_fst. exact (write_works fd bs (sim_files u) Hu Hf).
Qed.

Definition sim_put (g : Globals Sim) (s : Sim) : Globals Sim := mkGlobals (fileSystem g) (semTable g) s.

Definition sim_P (i : Z) : ST (Globals Sim) unit := λ g,
  let s := world g in
  v ← aget (sim_sems s) i;
  if v =? 0 then Halted
  else l ← aset (sim_sems s) i (v - 1);
       Ok (tt, sim_put g (mkSim (sim_files s) (sim_input s) (sim_output s) l)).

Definition sim_V (i : Z) : ST (Globals Sim) unit := λ g,
  let s := world g in
  v ← aget (sim_sems s) i;
  l ← aset (sim_sems s) i (v + 1);
  Ok (tt, sim_put g (mkSim (sim_files s) (sim_input s) (sim_output s) l)).

#[export] Instance Sim_sems : Semaphores (Globals Sim) := {
  Semaphore_new v g :=
    let s := world g in
    Ok (Z.of_nat (length (sim_sems s)),
        sim_put g (mkSim (sim_files s) (sim_input s) (sim_output s) (sim_sems s ++ [v])));
  Semaphore_P := sim_P;
  Semaphore_V := sim_V;
  Semaphore_getValue i g := v ← aget (sim_sems (world g)) i; Ok (v, g);
}.

#[export] Instance Sim_services : Services Sim := {
  SynchConsole_Write bs g :=
    let s := world g in
    Ok (Z.of_nat (length bs), sim_put g (mkSim (sim_files s) (sim_input s) (sim_output s ++ bs) (sim_sems s)));
  SynchConsole_Read n g :=
    let s := world g in
    match read_line (Z.to_nat n) (sim_input s) [] with
    | Some (r, cs, inp) =>
        Ok ((r, cs ++ replicate (Z.to_nat n - length cs) 0),
            sim_put g (mkSim (sim_files s) inp (sim_output s) (sim_sems s)))
    | None => NoFuel
    end;
  ExecUpdate n g := Ok (-1, g);
  JoinUpdate pid g := Ok (-1, g);
  ExitUpdate r g := Halted;
}.

(** ** A process

    Two pages on frames 5 and 3; its memory starts with a file name, then data. *)
Definition sim_table : list TranslationEntry :=
  [mkTE 0 5 true false false false; mkTE 1 3 true false false false].

(** "ab" at 0, "hello" at 16. *)
Definition sim_memory : list Z :=
  replicate (Z.to_nat 2560) 0 ++ [97; 98; 0] ++ replicate 13 0 ++ [104; 101; 108; 108; 111; 0] ++ replicate (Z.to_nat 62954) 0.

Definition sim_machine : Machine :=
  load_page_table (set_ptables (set_memory (Machine_new false) sim_memory) {[ 0 := sim_table ]}) (Some 0) 2.

Lemma sim_regs : wf_regs sim_machine.
Proof.
  split; [done| |done|done]. cbn [sim_machine load_page_table set_ptables set_memory registers Machine_new].
  apply Forall_replicate. by apply int32_small.
Qed.

Lemma sim_space : user_space sim_machine sim_table.
Proof.
  split; [done|by exists 0, sim_table|done| | |].
  - split; [apply (bool_decide_unpack _); by vm_compute|by repeat constructor].
  - by repeat constructor.
  - split; cbn [sim_machine load_page_table set_ptables set_memory mainMemory].
    + unfold sim_memory. rewrite !length_app, !length_replicate. simpl length. unfold MemorySize, NumPhysPages, PageSize, SectorSize. lia.
    + unfold sim_memory. repeat (apply Forall_app; split); try (apply Forall_replicate; done); by repeat constructor.
Qed.

(** Reading the first bytes of the memory without unfolding all of it. *)
Lemma sim_vbyte a : 0 <= a < 22 →
  vbyte sim_table sim_machine a = ([97; 98; 0] ++ replicate 13 0 ++ [104; 101; 108; 108; 111; 0]) !! Z.to_nat a.
Proof.
  intros Ha. unfold vbyte, vphys.
  assert (Hd : a / PageSize = 0) by (apply Z.div_small; unfold PageSize, SectorSize; lia).
  assert (Hm : a mod PageSize = a) by (apply Z.mod_small; unfold PageSize, SectorSize; lia).
  rewrite Hd, Hm. change (sim_table !! Z.to_nat 0) with (Some (mkTE 0 5 true false false false)). cbn [physicalPage].
  cbn [sim_machine load_page_table set_ptables set_memory mainMemory]. unfold sim_memory.
  replace (Z.to_nat (5 * PageSize + a)) with (Z.to_nat 2560 + Z.to_nat a)%nat by (unfold PageSize, SectorSize; lia).
  generalize (Z.to_nat 62954). intros k. generalize (Z.to_nat 2560). intros k0. rewrite (lookup_app_r (replicate k0 0)) by (rewrite length_replicate; lia).
  rewrite length_replicate. replace (k0 + Z.to_nat a - k0)%nat with (Z.to_nat a) by lia.
  rewrite !app_assoc. rewrite lookup_app_l; [done|]. simpl. lia.
Qed.

Definition sim_globals : Globals Sim :=
  mkGlobals (mkStubFS (replicate 15 None) 2) (mkSTable (mkBitMap 10 1 [0]) (replicate 10 Null))
    (mkSim empty_host [] [] []).
