(* ===== verification/ExceptionProofs.v ===== *)
(** * Theorems on system calls *)

From Stdlib Require Import ZArith Lia Bool.
From S2P Require Import Prelude Bytes Bitmap Machine Mips MipsProofs AddrSpace AddrSpaceProofs.
From S2P Require Import Unix StubFS UserMem STable Exception SimWorld.

Local Open Scope Z_scope.

(** ** The machine during a system call

    [called t n m m']: from [m] to [m'] the program counters advanced [n] times,
    no other register but r2 changed, and memory changed at most inside the
    frames of the process, whose table is [t]. *)
Definition same_but_r2 (m m' : Machine) : Prop := ∀ k, 0 <= k < NumTotalRegs → k ≠ 2 → reg m' k = reg m k.

Record called (t : list TranslationEntry) (n : nat) (m m' : Machine) : Prop := {
  ca_regs : wf_regs m';
  ca_space : user_space m' t;
  ca_same : same_but_r2 (Nat.iter n AdvanceProgramCounter m) m';
  ca_map : same_map m m';
  ca_others q : Z.of_nat q / PageSize ∉ frames t → mainMemory m' !! q = mainMemory m !! q;
}.

Lemma Advance_reg m k : length (registers m) = Z.to_nat NumTotalRegs → 0 <= k →
  reg (AdvanceProgramCounter m) k =
    if k =? NextPCReg then s32 (reg m NextPCReg + 4)
    else if k =? PCReg then reg m NextPCReg else if k =? PrevPCReg then reg m PCReg else reg m k.
Proof.
  intros Hl Hk. assert (Hlz : Z.of_nat (length (registers m)) = 40) by (rewrite Hl; done).
  unfold AdvanceProgramCounter, PCReg, NextPCReg, PrevPCReg.
  rewrite !reg_set_reg by (rewrite ?length_set_reg, ?Hlz; lia). simpl.
  destruct (Z.eqb_spec k 35), (Z.eqb_spec k 34), (Z.eqb_spec k 36); done.
Qed.

Lemma wf_regs_Advance m : wf_regs m → wf_regs (AdvanceProgramCounter m).
Proof.
  intros [Hl Hf Hz Hld]. split.
  - unfold AdvanceProgramCounter. by rewrite !length_set_reg.
  - unfold AdvanceProgramCounter. repeat apply set_reg_int32; try done; try apply reg_int32; try apply s32_range.
    all: repeat apply set_reg_int32; try done; apply reg_int32; done.
  - by rewrite Advance_reg.
  - by rewrite Advance_reg.
Qed.

Lemma wf_regs_iter n m : wf_regs m → wf_regs (Nat.iter n AdvanceProgramCounter m).
Proof. intros Hm. induction n as [|n IH]; simpl; [done|]. by apply wf_regs_Advance. Qed.

Lemma same_but_r2_Advance m m' : wf_regs m → wf_regs m' →
  same_but_r2 m m' → same_but_r2 (AdvanceProgramCounter m) (AdvanceProgramCounter m').
Proof.
  intros [Hl _ _ _] [Hl' _ _ _] Hs k Hk Hne. rewrite !Advance_reg by (done || lia).
  unfold same_but_r2, PCReg, NextPCReg, PrevPCReg, NumTotalRegs in *.
  rewrite !(Hs 35), !(Hs 34), (Hs k) by lia. done.
Qed.

Lemma same_but_r2_iter n m m' : wf_regs m → wf_regs m' →
  same_but_r2 m m' → same_but_r2 (Nat.iter n AdvanceProgramCounter m) (Nat.iter n AdvanceProgramCounter m').
Proof.
  intros Hm Hm' Hs. induction n as [|n IH]; simpl; [done|].
  apply same_but_r2_Advance; [by apply wf_regs_iter..|done].
Qed.

Lemma called_refl t m : wf_regs m → user_space m t → called t 0 m m.
Proof. intros Hr Hu. by split. Qed.

Lemma called_trans t n1 n2 m1 m2 m3 : wf_regs m1 →
  called t n1 m1 m2 → called t n2 m2 m3 → called t (n1 + n2) m1 m3.
Proof.
  intros Hw1 [Hr1 Hu1 Hs1 Hm1 Ho1] [Hr2 Hu2 Hs2 Hm2 Ho2]. split; try done.
  - intros k Hk Hne. rewrite Hs2 by done. rewrite Nat.add_comm, Nat.iter_add.
    apply (same_but_r2_iter n2 (Nat.iter n1 AdvanceProgramCounter m1) m2); [by apply wf_regs_iter|done..].
  - by etrans.
  - intros q Hq. by rewrite Ho2, Ho1.
Qed.

(** Registers of a well formed machine can be read and written. *)
Lemma ReadReg_eq {W} n m (g : Globals W) : wf_regs m → 0 <= n < NumTotalRegs →
  ReadReg n (m, g) = Ok (reg m n, (m, g)).
Proof.
  intros [Hl _ _ _] Hn. unfold ReadReg, on_machine, ReadRegister, reg.
  destruct (Z.geb_spec n 0), (Z.ltb_spec n NumTotalRegs); try lia. cbn [andb ASSERT mbind outcome_bind].
  destruct (aget_in_range (registers m) n) as (v & -> & ->); [unfold NumTotalRegs in *; lia|]. done.
Qed.

Lemma WriteReg_eq {W} n v m (g : Globals W) : wf_regs m → 0 <= n < NumTotalRegs →
  WriteReg n v (m, g) = Ok (tt, (set_reg m n (s32 v), g)).
Proof.
  intros [Hl _ _ _] Hn. unfold WriteReg, on_machine, WriteRegister.
  destruct (Z.geb_spec n 0), (Z.ltb_spec n NumTotalRegs); try lia. cbn [andb ASSERT mbind outcome_bind].
  rewrite aset_in_range by (unfold NumTotalRegs in *; lia). done.
Qed.

Section Frame.
Context {W : Type} `{Services W}.
Context (t : list TranslationEntry).

Notation K := (Machine * Globals W)%type.

(** [c] advances the program counters [n] times and changes only what a system
    call may change. *)
Definition sys {A} (n : nat) (c : ST K A) : Prop :=
  ∀ m g a m' g', wf_regs m → user_space m t → c (m, g) = Ok (a, (m', g')) → called t n m m'.

Lemma sys_bind {A B} n1 n2 (c : ST K A) (f : A → ST K B) :
  sys n1 c → (∀ a, sys n2 (f a)) → sys (n1 + n2) (c ≫= f).
Proof.
  intros Hc Hf m g b m' g' Hr Hu Hb. apply st_bind_Ok_inv in Hb as (a & [m1 g1] & H1 & H2).
  pose proof (Hc m g a m1 g1 Hr Hu H1) as Hc1.
  pose proof (Hf a m1 g1 b m' g' (ca_regs _ _ _ _ Hc1) (ca_space _ _ _ _ Hc1) H2) as Hc2.
  by eapply called_trans.
Qed.

(** The usual case: a step that does not advance the program counters. *)
Lemma sys_step {A B} n (c : ST K A) (f : A → ST K B) : sys 0 c → (∀ a, sys n (f a)) → sys n (c ≫= f).
Proof. intros Hc Hf. by apply (sys_bind 0 n c f). Qed.

Lemma sys_ret {A} (a : A) : sys 0 (mret a).
Proof. intros m g a' m' g' Hr Hu [= <- <- <-]. by apply called_refl. Qed.

Lemma sys_lift {A} (o : outcome A) : sys 0 (st_lift o).
Proof.
  intros m g a m' g' Hr Hu Ho. unfold st_lift in Ho. destruct o; try done.
  injection Ho as <- <- <-. by apply called_refl.
Qed.

Lemma sys_globals {A} (f : ST (Globals W) A) : sys 0 (on_globals f).
Proof.
  intros m g a m' g' Hr Hu Hf. unfold on_globals in Hf.
  apply bind_Ok_inv in Hf as ([a1 g1] & H1 & H2). injection H2 as <- <- <-. by apply called_refl.
Qed.

Lemma ReadReg_sys n : sys 0 (ReadReg n).
Proof.
  intros m g a m' g' Hr Hu Hb. unfold ReadReg, on_machine in Hb.
  apply bind_Ok_inv in Hb as ([v m1] & Hv & Hb). injection Hb as <- <- <-.
  apply bind_Ok_inv in Hv as (v' & Hv & Hb). injection Hb as <- <-.
  by apply called_refl.
Qed.

Lemma WriteReg2_sys v : sys 0 (WriteReg 2 v).
Proof.
  pose proof (s32_range v) as Hv. revert Hv. unfold WriteReg. generalize (s32 v). clear v. intros v.
  intros Hv m g a m' g' Hr Hu Hb. unfold on_machine in Hb.
  apply bind_Ok_inv in Hb as ([u m1] & Hw & Hb). injection Hb as <- <- <-.
  apply bind_Ok_inv in Hw as (m2 & Hw & Hb). injection Hb as <- <-.
  unfold WriteRegister in Hw. apply bind_Ok_inv in Hw as (? & _ & Hw).
  apply bind_Ok_inv in Hw as (r & Hset & Hw). injection Hw as <-. apply aset_Ok in Hset as [_ ->].
  fold (set_reg m 2 v). destruct Hr as [Hl Hf Hz Hld].
  assert (Hlz : Z.of_nat (length (registers m)) = 40) by (rewrite Hl; done).
  split; [split| | | |].
  - by rewrite length_set_reg.
  - by apply set_reg_int32.
  - by rewrite reg_set_reg by lia.
  - rewrite reg_set_reg by (unfold LoadReg; lia). done.
  - eapply user_space_same; [|apply Hu|exact Hu]. by split.
  - intros k Hk Hne. simpl. rewrite reg_set_reg by lia. by destruct (Z.eqb_spec k 2).
  - by split.
  - done.
Qed.

Lemma Advance_sys : sys 1 Advance.
Proof.
  intros m g a m' g' Hr Hu Hb. unfold Advance, on_machine in Hb. simpl in Hb. injection Hb as <- <- <-.
  split; [by apply wf_regs_Advance| |done|by split|done].
  eapply user_space_same; [|apply Hu|exact Hu]. by split.
Qed.

Lemma UserToSystem_loop_sys n a : ∀ i buf m r m', user_space m t →
  UserToSystem_loop n a i buf m = Ok (r, m') → user_space m' t ∧ user_frame t m m'.
Proof.
  induction n as [|n IH]; intros i buf m r m' Hu Hl; simpl in Hl; [by simplify_eq|].
  destruct (ReadMem_spec m (s32 (a + i)) 1 (user_space_wf_tr _ _ Hu) (us_mem _ _ Hu) ltac:(auto))
    as (r1 & m1 & Hrd & Hs & Hreg & Hmem & _). rewrite Hrd in Hl. cbn [mbind outcome_bind] in Hl.
  assert (Hu1 : user_space m1 t).
  { eapply user_space_same; [done| |done]. unfold wf_mem. rewrite Hmem. apply Hu. }
  assert (Hf1 : user_frame t m m1) by (split; [done|done|by rewrite Hmem]).
  destruct r1 as [[e bad]|v]; [unfold kernel_fault in Hl; by inv_ok|].
  apply bind_Ok_inv in Hl as (buf' & _ & Hl). destruct (v =? 0); [by simplify_eq|].
  destruct (IH _ _ _ _ _ Hu1 Hl). split; [done|by etrans].
Qed.

Lemma SystemToUser_loop_sys n a buf : ∀ i m r m', user_space m t →
  SystemToUser_loop n a i buf m = Ok (r, m') → user_space m' t ∧ user_frame t m m'.
Proof.
  induction n as [|n IH]; intros i m r m' Hu Hl; simpl in Hl; [by simplify_eq|].
  apply bind_Ok_inv in Hl as (b & _ & Hl).
  destruct (decide (0 <= s32 (a + i) < space_size t)) as [Hin|Hout].
  - destruct (WriteMem_user m t (s32 (a + i)) (schar b) Hu Hin) as (m1 & Hw & Hu1 & Hr1 & Hs1 & _ & Ho1).
    rewrite Hw in Hl. cbn [mbind outcome_bind] in Hl. assert (Hf1 : user_frame t m m1) by by split.
    destruct (schar b =? 0); [by simplify_eq|]. destruct (IH _ _ _ _ Hu1 Hl). split; [done|by etrans].
  - destruct (access_outside m t (s32 (a + i)) Hu (s32_range _) Hout) as [_ Hw]. rewrite Hw in Hl.
    cbn [mbind outcome_bind] in Hl. unfold kernel_fault in Hl. by inv_ok.
Qed.

Lemma called_frame m m' : wf_regs m → user_space m' t → user_frame t m m' → called t 0 m m'.
Proof.
  intros [Hl Hf Hz Hld] Hu [Hr Hm Ho]. split; [|done| |done|done].
  - unfold reg in *. split; unfold reg; by rewrite Hr.
  - intros k _ _. unfold reg. simpl. by rewrite Hr.
Qed.

Lemma UserToSystem_sys a limit : sys 0 (on_machine (UserToSystem a limit)).
Proof.
  intros m g r m' g' Hr Hu Hb. unfold on_machine in Hb.
  apply bind_Ok_inv in Hb as ([r1 m1] & Hc & Hb). injection Hb as <- <- <-.
  unfold UserToSystem in Hc. destruct (_ <? 0); [done|].
  destruct (UserToSystem_loop_sys _ _ _ _ _ _ _ Hu Hc). by apply called_frame.
Qed.

Lemma SystemToUser_sys a len buf : sys 0 (on_machine (SystemToUser a len buf)).
Proof.
  intros m g r m' g' Hr Hu Hb. unfold on_machine in Hb.
  apply bind_Ok_inv in Hb as ([r1 m1] & Hc & Hb). injection Hb as <- <- <-.
  unfold SystemToUser in Hc. destruct (_ <? 0); [simplify_eq; by apply called_refl|].
  destruct (_ =? 0); [simplify_eq; by apply called_refl|].
  destruct (SystemToUser_loop_sys _ _ _ _ _ _ _ Hu Hc). by apply called_frame.
Qed.

Create HintDb sys.

Local Hint Resolve sys_ret sys_lift sys_globals ReadReg_sys WriteReg2_sys Advance_sys UserToSystem_sys
  SystemToUser_sys : sys.

(** Walk through a case of the switch. *)
Local Ltac sys_tac :=
  repeat match goal with
  | |- ∀ _, _ => intros
  | |- sys _ (match ?x with _ => _ end) => destruct x
  | |- sys _ (let '(_, _) := ?x in _) => destruct x
  | |- sys _ (_ ≫= _) => apply sys_step
  | |- sys _ _ => solve [eauto with sys nocore]
  end.


(** The same up to a step that advances. *)
Local Ltac sys_walk :=
  repeat match goal with
  | |- ∀ _, _ => intros
  | |- sys _ (match ?x with _ => _ end) => destruct x
  | |- sys _ (_ ≫= _) => apply sys_step; [solve [eauto with sys nocore]|]
  end.

Lemma user_string_sys a n : sys 0 (user_string a n).
Proof. unfold user_string. sys_tac. Qed.
Lemma on_host_sys {A} (f : ST W A) : sys 0 (on_host f).
Proof. apply sys_globals. Qed.
Lemma get_file_sys id : sys 0 (get_file id).
Proof. apply sys_globals. Qed.
Lemma put_file_sys id f : sys 0 (put_file id f).
Proof. apply sys_globals. Qed.
Local Hint Resolve user_string_sys on_host_sys get_file_sys put_file_sys : sys.
Lemma the_file_sys id : sys 0 (the_file id).
Proof. unfold the_file. sys_tac. Qed.
Local Hint Resolve the_file_sys : sys.
Lemma file_pos_sys id : sys 0 (file_pos id).
Proof. unfold file_pos. sys_tac. Qed.
Lemma file_Read_sys id n : sys 0 (file_Read id n).
Proof. unfold file_Read. sys_tac. Qed.
Lemma file_Write_sys id bs : sys 0 (file_Write id bs).
Proof. unfold file_Write. sys_tac. Qed.
Local Hint Resolve file_pos_sys file_Read_sys file_Write_sys : sys.

(** The calls on semaphores advance the program counters themselves. *)
Definition is_sem (type : Z) : bool :=
  (type =? SC_CreateSemaphore) || (type =? SC_Signal) || (type =? SC_Wait).

Lemma do_CreateSemaphore_sys : sys 1 do_CreateSemaphore.
Proof.
  unfold do_CreateSemaphore, break_. sys_walk. change 1%nat with (1 + 0)%nat. apply sys_bind; sys_tac.
Qed.

Lemma do_sem_sys op : sys 1 (do_sem op).
Proof.
  unfold do_sem, break_. sys_walk; change 1%nat with (1 + 0)%nat; apply sys_bind; sys_tac.
Qed.

Lemma do_ReadInt_sys : sys 0 do_ReadInt.
Proof. unfold do_ReadInt, break_. sys_tac. Qed.
Local Hint Resolve do_ReadInt_sys : sys.

Lemma syscall_sys type : sys (if is_sem type then 1 else 0) (syscall type).
Proof.
  unfold syscall, is_sem.
  destruct (Z.eqb_spec type SC_CreateSemaphore) as [->|]; [apply do_CreateSemaphore_sys|].
  destruct (Z.eqb_spec type SC_Signal) as [->|]; [apply do_sem_sys|].
  destruct (Z.eqb_spec type SC_Wait) as [->|]; [apply do_sem_sys|].
  cbn [orb]. unfold do_Exec, do_Join, do_Exit, do_Create, do_Open, do_Close, do_Read, do_Write, do_PrintInt,
    do_ReadChar, do_PrintChar, do_ReadString, do_PrintString, break_. sys_tac.
Qed.
End Frame.

(** A system call that returns to the process. *)
Lemma ExceptionHandler_called {W} `{Services W} t m (g : Globals W) m' g' :
  wf_regs m → user_space m t → ExceptionHandler SyscallException (m, g) = Ok (Returned, (m', g')) →
  called t (if is_sem (reg m 2) then 2 else 1) m m'.
Proof.
  intros Hr Hu Hb. unfold ExceptionHandler in Hb.
  apply st_bind_Ok_inv in Hb as (type & [m1 g1] & H1 & Hb).
  rewrite ReadReg_eq in H1 by done. injection H1 as <- <- <-. apply st_bind_Ok_inv in Hb as (r & [m2 g2] & H2 & Hb).
  pose proof (syscall_sys t (reg m 2) m g r m2 g2 Hr Hu H2) as Hc.
  destruct r; [|done]. apply st_bind_Ok_inv in Hb as (? & [m3 g3] & H3 & Hb). injection Hb as <- <-.
  pose proof (Advance_sys t m2 g2 _ m3 g3 (ca_regs _ _ _ _ Hc) (ca_space _ _ _ _ Hc) H3) as Hc3.
  pose proof (called_trans t _ _ m m2 m3 Hr Hc Hc3) as Hfin. by destruct (is_sem _).
Qed.

(** C8: the contract of the handler with user programs.  Whatever system call a
    process makes and whatever arguments it passes, if control returns to the
    process its page table maps the same frames, every register but r2 and the
    program counters has its old value, memory has changed only inside frames of
    the process itself, the machine is well formed, and the next instruction is
    the one after the call; the calls on semaphores skip one more instruction. *)
Theorem ExceptionHandler_contract {W} `{Services W} t m (g : Globals W) m' g' :
  wf_regs m → user_space m t → ExceptionHandler SyscallException (m, g) = Ok (Returned, (m', g')) →
  called t (if is_sem (reg m 2) then 2 else 1) m m'.
Proof. apply ExceptionHandler_called. Qed.

(** The process of SimWorld prints an A. *)
Definition print_machine : Machine := set_reg (set_reg sim_machine 2 SC_PrintChar) 4 65.

Definition returned {A} (o : outcome (handled * A)) : bool :=
  match o with Ok (Returned, _) => true | _ => false end.

Lemma returned_Ok {A} (o : outcome (handled * A)) : returned o = true → ∃ a, o = Ok (Returned, a).
Proof. destruct o as [[[] a]| | | |]; try done. eauto. Qed.

Lemma print_machine_ok : wf_regs print_machine ∧ user_space print_machine sim_table.
Proof.
  split.
  - split; [done| |done|done]. unfold print_machine. repeat apply set_reg_int32; try by apply int32_small.
    apply sim_regs.
  - eapply user_space_same; [|apply sim_space|exact sim_space]. by split.
Qed.

Lemma ExceptionHandler_contract_witness :
  ∃ m' g', ExceptionHandler SyscallException (print_machine, sim_globals) = Ok (Returned, (m', g')) ∧
    called sim_table 1 print_machine m'.
Proof.
  destruct (returned_Ok (ExceptionHandler SyscallException (print_machine, sim_globals))) as [[m' g'] Hb];
    [vm_compute; reflexivity|].
  exists m', g'. split; [exact Hb|].
  destruct print_machine_ok as [Hr Hu]. exact (ExceptionHandler_contract sim_table print_machine sim_globals m' g' Hr Hu Hb).
Defined.
