(* ===== verification/FileCalls.v ===== *)
(** * Files as user programs use them

    The file system calls on a host that works: what Create, Open, Write, Close
    and Read return and leave in the memory of the caller, and the round trip of
    data through a file. *)

From Stdlib Require Import ZArith Lia Bool.
From S2P Require Import Prelude Bytes Machine Mips MipsProofs AddrSpace AddrSpaceProofs.
From S2P Require Import Unix StubFS UserMem STable Exception ExceptionProofs SimWorld.

Local Open Scope Z_scope.

Local Ltac i32 := first [ assumption | by apply int32_small ].

(** The registers of a call: its number and its arguments. *)
Definition set_args (m : Machine) (type a1 a2 a3 : Z) : Machine :=
  set_reg (set_reg (set_reg (set_reg m 2 type) 4 a1) 5 a2) 6 a3.

Lemma wf_regs_set m n v : wf_regs m → 0 < n < NumGPRegs → int32 v → wf_regs (set_reg m n v).
Proof.
  intros [Hl Hf Hz Hld] Hn Hv. assert (Hlz : Z.of_nat (length (registers m)) = 40) by (rewrite Hl; done).
  unfold NumGPRegs in *. split.
  - by rewrite length_set_reg.
  - by apply set_reg_int32.
  - rewrite reg_set_reg by lia. destruct (Z.eqb_spec 0 n); [lia|done].
  - rewrite reg_set_reg by (unfold LoadReg; lia). destruct (Z.eqb_spec LoadReg n); [unfold LoadReg in *; lia|done].
Qed.

Lemma user_space_set t m n v : user_space m t → user_space (set_reg m n v) t.
Proof. intros Hu. eapply user_space_same; [|apply Hu|exact Hu]. by split. Qed.

Lemma set_args_ok m type a1 a2 a3 : wf_regs m → int32 type → int32 a1 → int32 a2 → int32 a3 →
  let m0 := set_args m type a1 a2 a3 in
  wf_regs m0 ∧ reg m0 2 = type ∧ reg m0 4 = a1 ∧ reg m0 5 = a2 ∧ reg m0 6 = a3.
Proof.
  intros Hr H0 H1 H2 H3 m0. unfold m0, set_args.
  assert (Hlz : Z.of_nat (length (registers m)) = 40) by (destruct Hr as [-> _ _ _]; done).
  split; [repeat apply wf_regs_set; unfold NumGPRegs; try done; lia|].
  rewrite !reg_set_reg by (rewrite ?length_set_reg, ?Hlz; lia). done.
Qed.

(** What a call leaves: a well formed machine with the result in r2. *)
Record after (t : list TranslationEntry) (m m' : Machine) (r : Z) : Prop := {
  af_regs : wf_regs m';
  af_space : user_space m' t;
  af_result : reg m' 2 = r;
}.

Section Calls.
Context {W : Type} `{Services W}.

Notation K := (Machine * Globals W)%type.

(** A user program makes a system call. *)
Definition call (type a1 a2 a3 : Z) : ST K handled := λ '(m, g),
  ExceptionHandler SyscallException (set_args m type a1 a2 a3, g).

Definition set_world (g : Globals W) (w : W) : Globals W := mkGlobals (fileSystem g) (semTable g) w.

Lemma on_host_eq {A} (f : ST W A) m g a w : f (world g) = Ok (a, w) →
  on_host f (m, g) = Ok (a, (m, set_world g w)).
Proof. intros Hf. unfold on_host, on_globals. by rewrite Hf. Qed.

Lemma on_machine_eq {A} (f : Machine → outcome (A * Machine)) m (g : Globals W) a m' : f m = Ok (a, m') →
  on_machine f (m, g) = Ok (a, (m', g)).
Proof. intros Hf. unfold on_machine. by rewrite Hf. Qed.

Lemma get_file_eq id m (g : Globals W) f : aget (openf (fileSystem g)) id = Ok f →
  get_file id (m, g) = Ok (f, (m, g)).
Proof. intros Hf. unfold get_file, on_globals. by rewrite Hf. Qed.

Lemma the_file_eq id m (g : Globals W) f : aget (openf (fileSystem g)) id = Ok (Some f) →
  the_file id (m, g) = Ok (f, (m, g)).
Proof. intros Hf. unfold the_file. rewrite (st_bind_eq _ _ _ _ _ (get_file_eq id m g _ Hf)). done. Qed.

(** fileSystem->openf[id] = f *)
Definition set_slot (g : Globals W) (id : Z) (f : option StubFile) : Globals W :=
  set_fs g (set_openf (fileSystem g) (<[Z.to_nat id := f]> (openf (fileSystem g)))).

Lemma put_file_eq id m (g : Globals W) f : 0 <= id < Z.of_nat (length (openf (fileSystem g))) →
  put_file id f (m, g) = Ok (tt, (m, set_slot g id f)).
Proof. intros Hid. unfold put_file, on_globals. by rewrite aset_in_range. Qed.

(** The end of a call: the result goes to r2 and the program counters advance. *)
Lemma call_returns t type a1 a2 a3 m (g : Globals W) m1 g1 r :
  wf_regs m → int32 type → int32 a1 → int32 a2 → int32 a3 → int32 r →
  wf_regs m1 → user_space m1 t →
  syscall type (set_args m type a1 a2 a3, g) = (_ ← WriteReg 2 r; break_) (m1, g1) →
  ∃ m', call type a1 a2 a3 (m, g) = Ok (Returned, (m', g1)) ∧ after t m m' r ∧ mainMemory m' = mainMemory m1.
Proof.
  intros Hr H0 H1 H2 H3 Hri Hr1 Hu1 Hs. unfold call, ExceptionHandler.
  destruct (set_args_ok m type a1 a2 a3 Hr H0 H1 H2 H3) as (Hm0 & Ht & _).
  rewrite (st_bind_eq _ _ _ _ _ (ReadReg_eq 2 _ g Hm0 ltac:(unfold NumTotalRegs; lia))). rewrite Ht.
  rewrite (st_bind_eq _ _ _ Returned (set_reg m1 2 (s32 r), g1)).
  2:{ rewrite Hs. by rewrite (st_bind_eq _ _ _ _ _ (WriteReg_eq 2 r m1 g1 Hr1 ltac:(unfold NumTotalRegs; lia))). }
  eexists. split; [reflexivity|]. rewrite s32_id by done.
  assert (Hw : wf_regs (set_reg m1 2 r)) by (apply wf_regs_set; [done|unfold NumGPRegs; lia|done]).
  split; [|done]. split.
  - by apply wf_regs_Advance.
  - unfold AdvanceProgramCounter. by repeat apply user_space_set.
  - rewrite Advance_reg by (apply Hw || lia). unfold NextPCReg, PCReg, PrevPCReg. simpl.
    rewrite reg_set_reg; [done| |lia]. destruct Hr1 as [-> _ _ _]. unfold NumTotalRegs. lia.
Qed.

Lemma wf_regs_same m m' : registers m' = registers m → wf_regs m → wf_regs m'.
Proof. intros Hr [Hl Hf Hz Hld]. unfold reg in *. split; unfold reg; by rewrite Hr. Qed.

(** A name in the memory of the caller. *)
Definition user_name (t : list TranslationEntry) (m : Machine) (a : Z) (s : list Z) : Prop :=
  0 <= a ∧ 0 ∉ s ∧ holds t m a (s ++ [0]).

Lemma until_nul_take s n : 0 ∉ s → (length s <= n)%nat → until_nul (take n (s ++ [0])) = s.
Proof.
  intros H0 Hn. destruct (decide (length s < n)%nat).
  - by apply until_nul_take_nul.
  - rewrite take_app_le, take_ge by lia. by apply until_nul_no_nul.
Qed.

Lemma UserToSystem_name t m a s limit : user_space m t → wf_regs m → user_name t m a s →
  Z.of_nat (length s) <= limit →
  ∃ m' k, UserToSystem a limit m = Ok (s ++ replicate (S k) 0, m') ∧ wf_regs m' ∧ user_space m' t ∧
    mainMemory m' = mainMemory m ∧ registers m' = registers m.
Proof.
  intros Hu Hr (Ha & H0 & Hh) Hl.
  destruct (UserToSystem_ok t a limit (s ++ [0]) m Ha ltac:(lia) Hu Hh) as (m' & Hc & Hu' & Hm & Hf); [right; set_solver|].
  rewrite until_nul_take in Hc by (done || lia).
  exists m', (Z.to_nat (limit + 1) - length s - 1)%nat.
  replace (S _) with (Z.to_nat (limit + 1) - length s)%nat by lia. split; [done|].
  pose proof (uf_regs _ _ _ Hf). split_and!; try done. by eapply wf_regs_same.
Qed.

Lemma user_string_eq t m (g : Globals W) a s limit : user_space m t → wf_regs m → user_name t m a s →
  Z.of_nat (length s) <= limit →
  ∃ m', user_string a limit (m, g) = Ok (s, (m', g)) ∧ wf_regs m' ∧ user_space m' t ∧
    mainMemory m' = mainMemory m ∧ registers m' = registers m.
Proof.
  intros Hu Hr Hn Hl. destruct (UserToSystem_name t m a s limit Hu Hr Hn Hl) as (m' & k & Hc & ? & ? & ? & ?).
  exists m'. split; [|done]. unfold user_string. rewrite (st_bind_eq _ _ _ _ _ (on_machine_eq _ m g _ _ Hc)).
  unfold st_lift. rewrite c_str_padded by (apply Hn || lia). done.
Qed.

Lemma holds_memory t m m' a bs : mainMemory m' = mainMemory m → holds t m a bs → holds t m' a bs.
Proof. apply holds_same_memory. Qed.

End Calls.

Section FileCalls.
Context {W : Type} `{Services W} `{!UnixLaws W} `{!UnixReliable W}.

Notation K := (Machine * Globals W)%type.

(** ** Create *)

(** The host after creating [s]. *)
Definition created (v v' : unix_view) (s : list Z) (ino : Z) : Prop :=
  (names v !! s = Some ino ∨ names v !! s = None ∧ inodes v !! ino = None) ∧
  v' = mkView (fds v) (<[s := ino]> (names v)) (<[ino := []]> (inodes v)).

Lemma Create_call t m (g : Globals W) a s : wf_regs m → user_space m t → unix_ok (world g) → user_name t m a s → int32 a →
  Z.of_nat (length s) <= MaxNameLength + 1 →
  ∃ m' w' ino, call SC_Create a 0 0 (m, g) = Ok (Returned, (m', set_world g w')) ∧ after t m m' 0 ∧
    mainMemory m' = mainMemory m ∧ unix_ok w' ∧ created (view (world g)) (view w') s ino.
Proof.
  intros Hr Hu Hw Hn Ha Hl.
  destruct (set_args_ok m SC_Create a 0 0 Hr) as (Hr0 & _ & H4 & _); [i32..|].
  set (m0 := set_args m SC_Create a 0 0) in *.
  assert (Hu0 : user_space m0 t) by (unfold m0, set_args; by repeat apply user_space_set).
  destruct (user_string_eq t m0 g a s (MaxNameLength + 1) Hu0 Hr0 Hn Hl) as (m1 & Hs & Hr1 & Hu1 & Hm1 & _).
  destruct (Stub_Create_ok (world g) s 0 Hw) as (ino & w' & Hc & Hw' & Hino & Hv).
  destruct (call_returns t SC_Create a 0 0 m g m1 (set_world g w') 0) as (m' & Hcall & Haf & Hmem);
    try i32.
  - fold m0. unfold syscall. simpl. unfold do_Create.
    rewrite (st_bind_eq _ _ _ _ _ (ReadReg_eq 4 m0 g Hr0 ltac:(unfold NumTotalRegs; lia))), H4.
    rewrite (st_bind_eq _ _ _ _ _ Hs), (st_bind_eq _ _ _ _ _ (on_host_eq _ m1 g _ _ Hc)). done.
  - exists m', w', ino. rewrite Hmem, Hm1. by split_and!.
Qed.

(** ** Open *)

Lemma FindFreeSlot_eq m (g : Globals W) i : Stub_FindFreeSlot (fileSystem g) = Ok i →
  on_globals (λ g : Globals W, i ← Stub_FindFreeSlot (fileSystem g); Ok (i, g)) (m, g) = Ok (i, (m, g)).
Proof. intros Hi. unfold on_globals. by rewrite Hi. Qed.

(** The table has 15 slots, one of them free for user programs. *)
Definition slot_free (g : Globals W) : Prop :=
  length (openf (fileSystem g)) = Z.to_nat MAX_FILES ∧
  ∃ i, 2 <= i < MAX_FILES ∧ openf (fileSystem g) !! Z.to_nat i = Some None.

Lemma FindFreeSlot_ok (g : Globals W) : slot_free g →
  ∃ i, Stub_FindFreeSlot (fileSystem g) = Ok i ∧ 2 <= i < MAX_FILES ∧ openf (fileSystem g) !! Z.to_nat i = Some None.
Proof.
  intros [Hl (j & Hj & Hnone)]. unfold MAX_FILES in *.
  destruct (find_slot_ok (openf (fileSystem g)) 13 2) as (i & Hi & Hspec); [lia|rewrite Hl; lia|].
  exists i. split; [exact Hi|]. destruct Hspec as [[-> Hall]|[Hr Hn]]; [|split; [lia|done]].
  destruct (Hall j) as [f Hf]; [lia|]. congruence.
Qed.

Lemma Open_call t m (g : Globals W) a s type ino : wf_regs m → user_space m t → unix_ok (world g) → user_name t m a s →
  int32 a → Z.of_nat (length s) <= MaxNameLength → type = 0 ∨ type = 1 → slot_free g →
  names (view (world g)) !! s = Some ino →
  ∃ m' w' id fd, call SC_Open a type 0 (m, g) =
      Ok (Returned, (m', set_slot (set_world g w') id (Some (mkStub fd 0 type)))) ∧
    after t m m' id ∧ mainMemory m' = mainMemory m ∧ unix_ok w' ∧
    2 <= id < MAX_FILES ∧ openf (fileSystem g) !! Z.to_nat id = Some None ∧ fds (view (world g)) !! fd = None ∧
    view w' = set_fds (view (world g)) (<[fd := (ino, 0)]> (fds (view (world g)))).
Proof.
  intros Hr Hu Hw Hn Ha Hl Hty Hfree Hino.
  assert (Hti : int32 type) by (destruct Hty as [-> | ->]; by apply int32_small).
  destruct (set_args_ok m SC_Open a type 0 Hr) as (Hr0 & _ & H4 & H5 & _); [i32..|].
  set (m0 := set_args m SC_Open a type 0) in *.
  assert (Hu0 : user_space m0 t) by (unfold m0, set_args; by repeat apply user_space_set).
  destruct (UserToSystem_name t m0 a s MaxNameLength Hu0 Hr0 Hn Hl) as (m1 & k & Hc & Hr1 & Hu1 & Hm1 & _).
  destruct (FindFreeSlot_ok g Hfree) as (id & Hid & Hrange & Hnone).
  destruct (Stub_Open_ok (world g) s type ino Hw Hino) as (fd & w' & Ho & Hw' & Hfd & Hv).
  assert (Hiid : int32 id) by (apply int32_small; unfold MAX_FILES in *; lia).
  destruct (call_returns t SC_Open a type 0 m g m1 (set_slot (set_world g w') id (Some (mkStub fd 0 type))) id)
    as (m' & Hcall & Haf & Hmem); try i32.
  - fold m0. unfold syscall. simpl. unfold do_Open.
    rewrite (st_bind_eq _ _ _ _ _ (ReadReg_eq 4 m0 g Hr0 ltac:(unfold NumTotalRegs; lia))), H4.
    rewrite (st_bind_eq _ _ _ _ _ (ReadReg_eq 5 m0 g Hr0 ltac:(unfold NumTotalRegs; lia))), H5.
    rewrite (st_bind_eq _ _ _ _ _ (on_machine_eq _ m0 g _ _ Hc)).
    rewrite (st_bind_eq _ _ _ _ _ (FindFreeSlot_eq m1 g id Hid)).
    destruct (Z.eqb_spec id (-1)); [lia|]. cbn [negb].
    assert (Hb : (type =? 0) || (type =? 1) = true) by (destruct Hty as [-> | ->]; done). rewrite Hb.
    rewrite (st_lift_bind _ _ _ _ (c_str_padded s (S k) ltac:(apply Hn) ltac:(lia))).
    rewrite (st_bind_eq _ _ _ _ _ (on_host_eq _ m1 g _ _ Ho)).
    rewrite (st_bind_eq _ _ _ _ _ (put_file_eq id m1 (set_world g w') _ ltac:(destruct Hfree as [Hlen _]; simpl; rewrite Hlen; unfold MAX_FILES in *; lia))).
    done.
  - exists m', w', id, fd. rewrite Hmem, Hm1. split_and!; try done; lia.
Qed.

(** ** Open files *)

(** Slot [id] holds a file of type [type] open on [ino] at offset [off]. *)
Definition slot_open (g : Globals W) (id : Z) (f : StubFile) (ino off : Z) : Prop :=
  0 <= id < MAX_FILES ∧ length (openf (fileSystem g)) = Z.to_nat MAX_FILES ∧
  openf (fileSystem g) !! Z.to_nat id = Some (Some f) ∧
  fds (view (world g)) !! file f = Some (ino, off).

Lemma slot_aget (g : Globals W) id f ino off : slot_open g id f ino off → aget (openf (fileSystem g)) id = Ok (Some f).
Proof. intros (Hid & _ & Hf & _). apply aget_Ok. split; [lia|done]. Qed.

Lemma slot_index (g : Globals W) id f ino off : slot_open g id f ino off → 0 <= id < Z.of_nat (length (openf (fileSystem g))).
Proof. intros (Hid & -> & _). unfold MAX_FILES in *. lia. Qed.

(** Updating the file of an open slot. *)
Definition update_slot (g : Globals W) (w : W) (id : Z) (f : StubFile) : Globals W :=
  set_slot (set_world g w) id (Some f).

Lemma update_slot_open (g : Globals W) w id f f' ino off ino' off' : slot_open g id f ino off →
  fds (view w) !! file f' = Some (ino', off') → slot_open (update_slot g w id f') id f' ino' off'.
Proof.
  intros (Hid & Hl & Hf & _) Hfd. split_and!; try done; try lia; simpl.
  - by rewrite length_insert.
  - apply list_lookup_insert_eq. unfold MAX_FILES in *. lia.
Qed.

Lemma update_slot_twice (g : Globals W) w w' id f f' : update_slot (update_slot g w id f) w' id f' = update_slot g w' id f'.
Proof. unfold update_slot, set_slot, set_world, set_fs, set_openf. simpl. by rewrite list_insert_insert_eq. Qed.

Lemma set_offset_twice f o o' : set_offset (set_offset f o) o' = set_offset f o'.
Proof. done. Qed.

Lemma file_pos_eq m (g : Globals W) id f ino off : unix_ok (world g) → slot_open g id f ino off →
  ∃ w, file_pos id (m, g) = Ok (off, (m, update_slot g w id (set_offset f off))) ∧ unix_ok w ∧
    view w = view (world g).
Proof.
  intros Hw Hs. pose proof Hs as (_ & _ & _ & Hfd).
  destruct (Stub_GetCurrentPos_ok (world g) f ino off Hw Hfd) as (w & Hp & Hw' & Hv). exists w. split; [|done].
  unfold file_pos. rewrite (st_bind_eq _ _ _ _ _ (the_file_eq id m g f (slot_aget _ _ _ _ _ Hs))).
  rewrite (st_bind_eq _ _ _ _ _ (on_host_eq _ m g _ _ Hp)).
  rewrite (st_bind_eq _ _ _ _ _ (put_file_eq id m (set_world g w) _ (slot_index _ _ _ _ _ Hs))). done.
Qed.

Lemma file_Write_eq m (g : Globals W) id f ino off data bs : unix_ok (world g) → slot_open g id f ino off →
  currentOffset f = off → inodes (view (world g)) !! ino = Some data → Forall byte bs →
  off + Z.of_nat (length bs) < 2 ^ 31 →
  let r := Z.of_nat (length bs) in
  ∃ w, file_Write id bs (m, g) = Ok (r, (m, update_slot g w id (set_offset f (off + r)))) ∧ unix_ok w ∧
    view w = mkView (<[file f := (ino, off + r)]> (fds (view (world g)))) (names (view (world g)))
               (<[ino := write_at data off bs]> (inodes (view (world g)))).
Proof.
  intros Hw Hs Hcur Hi Hb Hmax r. pose proof Hs as (_ & _ & _ & Hfd).
  destruct (Stub_Write_ok (world g) f ino off data bs Hw (conj Hfd Hcur) Hi Hb Hmax) as (w & Hp & Hw' & Hv).
  exists w. split; [|done]. unfold file_Write.
  rewrite (st_bind_eq _ _ _ _ _ (the_file_eq id m g f (slot_aget _ _ _ _ _ Hs))).
  rewrite (st_bind_eq _ _ _ _ _ (on_host_eq _ m g _ _ Hp)).
  rewrite (st_bind_eq _ _ _ _ _ (put_file_eq id m (set_world g w) _ (slot_index _ _ _ _ _ Hs))). done.
Qed.

Lemma file_Read_eq m (g : Globals W) id f ino off data n : unix_ok (world g) → slot_open g id f ino off →
  currentOffset f = off → inodes (view (world g)) !! ino = Some data → 0 <= n → off + n < 2 ^ 31 →
  let bs := bytes_at data off n in let r := Z.of_nat (length bs) in
  ∃ w, file_Read id n (m, g) = Ok ((r, bs), (m, update_slot g w id (set_offset f (off + r)))) ∧ unix_ok w ∧
    Forall byte bs ∧
    view w = set_fds (view (world g)) (<[file f := (ino, off + r)]> (fds (view (world g)))).
Proof.
  intros Hw Hs Hcur Hi Hn Hmax bs r. pose proof Hs as (_ & _ & _ & Hfd).
  destruct (Stub_Read_ok (world g) f ino off data n Hw (conj Hfd Hcur) Hi Hn Hmax) as (w & Hp & Hw' & Hb & Hv).
  exists w. split; [|done]. unfold file_Read.
  rewrite (st_bind_eq _ _ _ _ _ (the_file_eq id m g f (slot_aget _ _ _ _ _ Hs))).
  rewrite (st_bind_eq _ _ _ _ _ (on_host_eq _ m g _ _ Hp)).
  rewrite (st_bind_eq _ _ _ _ _ (put_file_eq id m (set_world g w) _ (slot_index _ _ _ _ _ Hs))). done.
Qed.

(** The registers of a call with an open file. *)
Lemma id_guard id : 0 <= id < MAX_FILES → (id <? 0) || (id >? 14) = false.
Proof. unfold MAX_FILES. intros. destruct (Z.ltb_spec id 0), (Z.gtb_spec id 14); try lia; done. Qed.

(** ** Write *)

Lemma Write_call t m (g : Globals W) a bs id f ino off data : wf_regs m → user_space m t → unix_ok (world g) →
  0 <= a → int32 a → holds t m a bs → 0 ∉ bs → (0 < length bs)%nat → off + Z.of_nat (length bs) < 2 ^ 31 →
  slot_open g id f ino off → ftype f = 0 → inodes (view (world g)) !! ino = Some data →
  let n := Z.of_nat (length bs) in
  ∃ m' w, call SC_Write a n id (m, g) = Ok (Returned, (m', update_slot g w id (set_offset f (off + n)))) ∧
    after t m m' n ∧ mainMemory m' = mainMemory m ∧ unix_ok w ∧
    view w = mkView (<[file f := (ino, off + n)]> (fds (view (world g)))) (names (view (world g)))
               (<[ino := write_at data off bs]> (inodes (view (world g)))).
Proof.
  intros Hr Hu Hw Ha Hia Hh Hnul Hlen Hmax Hs Hty Hi n. pose proof Hs as (Hid & _ & _ & Hfd).
  assert (Hoff : 0 <= off) by apply (vo_fd _ (unix_view_ok _ Hw) _ _ _ Hfd).
  assert (Hin : int32 n) by (apply int32_small; lia). assert (Hiid : int32 id) by (apply int32_small; unfold MAX_FILES in *; lia).
  destruct (set_args_ok m SC_Write a n id Hr) as (Hr0 & _ & H4 & H5 & H6); [i32..|].
  set (m0 := set_args m SC_Write a n id) in *.
  assert (Hu0 : user_space m0 t) by (unfold m0, set_args; by repeat apply user_space_set).
  destruct (UserToSystem_ok t a n bs m0 Ha ltac:(lia) Hu0 Hh) as (m1 & Hc & Hu1 & Hm1 & Hf1); [left; lia|].
  rewrite take_ge, until_nul_no_nul in Hc by (done || lia).
  replace (Z.to_nat (n + 1) - length bs)%nat with 1%nat in Hc by lia.
  assert (Hr1 : wf_regs m1) by (eapply wf_regs_same; [apply Hf1|done]).
  destruct (file_pos_eq m0 g id f ino off Hw Hs) as (w1 & Hp1 & Hw1 & Hv1).
  assert (Hs1 : slot_open (update_slot g w1 id (set_offset f off)) id (set_offset f off) ino off)
    by (eapply update_slot_open; [done|by rewrite Hv1]).
  destruct (file_Write_eq m1 (update_slot g w1 id (set_offset f off)) id (set_offset f off) ino off data bs)
    as (w2 & Hwr & Hw2 & Hv2); [done|done|done|simpl; by rewrite Hv1|exact (holds_bytes m t a bs Hu Hh)|lia|].
  rewrite update_slot_twice, set_offset_twice in Hwr. simpl in Hv2. rewrite Hv1 in Hv2. fold n in Hwr, Hv2.
  assert (Hs2 : slot_open (update_slot g w2 id (set_offset f (off + n))) id (set_offset f (off + n)) ino (off + n)).
  { eapply update_slot_open; [done|]. rewrite Hv2. simpl. by rewrite lookup_insert_eq. }
  destruct (file_pos_eq m1 (update_slot g w2 id (set_offset f (off + n))) id _ ino (off + n) Hw2 Hs2)
    as (w3 & Hp3 & Hw3 & Hv3). rewrite update_slot_twice, set_offset_twice in Hp3. simpl in Hv3.
  destruct (call_returns t SC_Write a n id m g m1 (update_slot g w3 id (set_offset f (off + n))) n)
    as (m' & Hcall & Haf & Hmem); try i32.
  - fold m0. unfold syscall. simpl. unfold do_Write.
    rewrite (st_bind_eq _ _ _ _ _ (ReadReg_eq 4 m0 g Hr0 ltac:(unfold NumTotalRegs; lia))), H4.
    rewrite (st_bind_eq _ _ _ _ _ (ReadReg_eq 5 m0 g Hr0 ltac:(unfold NumTotalRegs; lia))), H5.
    rewrite (st_bind_eq _ _ _ _ _ (ReadReg_eq 6 m0 g Hr0 ltac:(unfold NumTotalRegs; lia))), H6.
    rewrite id_guard by done. rewrite (st_bind_eq _ _ _ _ _ (get_file_eq id m0 g _ (slot_aget _ _ _ _ _ Hs))).
    rewrite Hty. simpl. rewrite (st_bind_eq _ _ _ _ _ Hp1).
    rewrite (st_bind_eq _ _ _ _ _ (on_machine_eq _ m0 _ _ _ Hc)).
    rewrite (st_bind_eq _ _ _ _ _ (the_file_eq id m1 _ _ (slot_aget _ _ _ _ _ Hs1))). simpl. rewrite Hty. simpl.
    rewrite take_app_length' by lia. rewrite (st_bind_eq _ _ _ _ _ Hwr).
    destruct (Z.gtb_spec n 0); [|lia]. rewrite (st_bind_eq _ _ _ _ _ Hp3). by replace (off + n - off) with n by lia.
  - exists m', w3. rewrite Hmem, Hm1, Hv3. by split_and!.
Qed.

(** ** Close *)

Lemma Close_call t m (g : Globals W) id f ino off : wf_regs m → user_space m t → unix_ok (world g) → slot_open g id f ino off →
  ∃ m' w, call SC_Close id 0 0 (m, g) = Ok (Returned, (m', set_slot (set_world g w) id None)) ∧
    after t m m' 0 ∧ mainMemory m' = mainMemory m ∧ unix_ok w ∧
    view w = set_fds (view (world g)) (delete (file f) (fds (view (world g)))).
Proof.
  intros Hr Hu Hw Hs. pose proof Hs as (Hid & _ & _ & Hfd).
  assert (Hiid : int32 id) by (apply int32_small; unfold MAX_FILES in *; lia).
  destruct (set_args_ok m SC_Close id 0 0 Hr) as (Hr0 & _ & H4 & _); [i32..|].
  set (m0 := set_args m SC_Close id 0 0) in *.
  assert (Hu0 : user_space m0 t) by (unfold m0, set_args; by repeat apply user_space_set).
  destruct (Stub_delete_ok (world g) f Hw ltac:(rewrite Hfd; eauto)) as (w & Hd & Hw' & Hv).
  destruct (call_returns t SC_Close id 0 0 m g m0 (set_slot (set_world g w) id None) 0)
    as (m' & Hcall & Haf & Hmem); try i32.
  - fold m0. unfold syscall. simpl. unfold do_Close.
    rewrite (st_bind_eq _ _ _ _ _ (ReadReg_eq 4 m0 g Hr0 ltac:(unfold NumTotalRegs; lia))), H4.
    assert (Hg : (id >=? 0) && (id <=? 14) = true).
    { unfold MAX_FILES in *. destruct (Z.geb_spec id 0), (Z.leb_spec id 14); try lia; done. }
    rewrite Hg, (st_bind_eq _ _ _ _ _ (get_file_eq id m0 g _ (slot_aget _ _ _ _ _ Hs))).
    rewrite (st_bind_eq _ _ _ _ _ (on_host_eq _ m0 g _ _ Hd)).
    rewrite (st_bind_eq _ _ _ _ _ (put_file_eq id m0 (set_world g w) _ (slot_index _ _ _ _ _ Hs))). done.
  - exists m', w. rewrite Hmem. by split_and!.
Qed.

(** ** Read *)

Lemma region_holds t m a n : user_space m t → 0 <= a → a + Z.of_nat n <= space_size t →
  ∃ bs, length bs = n ∧ holds t m a bs.
Proof.
  intros Hu. revert a. induction n as [|n IH]; intros a Ha Hn; [by exists []|].
  destruct (vbyte_in m t a Hu ltac:(lia)) as (b & Hb & _). destruct (IH (a + 1)) as (bs & Hl & Hh); [lia|lia|].
  exists (b :: bs). simpl. split; [by rewrite Hl|]. by apply holds_cons.
Qed.

(** UserToSystem on a buffer inside the space. *)
Lemma UserToSystem_region t m a n : user_space m t → wf_regs m → 0 <= a → 0 <= n → a + n <= space_size t →
  ∃ buf m', UserToSystem a n m = Ok (buf, m') ∧ length buf = Z.to_nat (n + 1) ∧ Forall byte buf ∧
    wf_regs m' ∧ user_space m' t ∧ mainMemory m' = mainMemory m.
Proof.
  intros Hu Hr Ha Hn Hspace. destruct (region_holds t m a (Z.to_nat n) Hu Ha ltac:(lia)) as (old & Hol & Hoh).
  destruct (UserToSystem_ok t a n old m Ha Hn Hu Hoh) as (m1 & Hc & Hu1 & Hm1 & Hf1); [left; lia|].
  eexists _, m1. split; [exact Hc|]. split_and!; try done.
  - rewrite length_app, length_replicate. pose proof (until_nul_length (take (Z.to_nat n) old)) as Hle.
    rewrite length_take in Hle. lia.
  - apply Forall_app. split; [|apply Forall_replicate; unfold byte; lia].
    apply until_nul_Forall, Forall_take. exact (holds_bytes m t a old Hu Hoh).
  - eapply wf_regs_same; [apply Hf1|done].
Qed.

(** The end of SC_Read on a file, after Read returned [bs]. *)
Definition read_end (id a off : Z) (buf bs : list Z) : ST K handled :=
  if Z.of_nat (length bs) >? 0 then
    NewPos ← file_pos id;
    _ ← on_machine (SystemToUser a (NewPos - off) (blit buf 0 bs));
    _ ← WriteReg 2 (NewPos - off); break_
  else _ ← WriteReg 2 (-2); break_.

Lemma Read_start t m (g : Globals W) a n id f ino off data : wf_regs m → user_space m t → unix_ok (world g) →
  reg m 4 = a → reg m 5 = n → reg m 6 = id →
  0 <= a → 0 <= n → a + n <= space_size t → off + n < 2 ^ 31 →
  slot_open g id f ino off → ftype f = 0 ∨ ftype f = 1 → inodes (view (world g)) !! ino = Some data →
  let bs := bytes_at data off n in let r := Z.of_nat (length bs) in
  ∃ m' buf w, do_Read (m, g) = read_end id a off buf bs (m', update_slot g w id (set_offset f (off + r))) ∧
    wf_regs m' ∧ user_space m' t ∧ mainMemory m' = mainMemory m ∧
    length buf = Z.to_nat (n + 1) ∧ Forall byte buf ∧ Forall byte bs ∧ unix_ok w ∧
    view w = set_fds (view (world g)) (<[file f := (ino, off + r)]> (fds (view (world g)))).
Proof.
  intros Hr Hu Hw H4 H5 H6 Ha Hn Hspace Hmax Hs Hty Hi bs r. pose proof Hs as (Hid & _ & _ & Hfd).
  destruct (UserToSystem_region t m a n Hu Hr Ha Hn Hspace) as (buf & m1 & Hc & Hbl & Hbb & Hr1 & Hu1 & Hm1).
  destruct (file_pos_eq m g id f ino off Hw Hs) as (w1 & Hp1 & Hw1 & Hv1).
  assert (Hs1 : slot_open (update_slot g w1 id (set_offset f off)) id (set_offset f off) ino off)
    by (eapply update_slot_open; [done|by rewrite Hv1]).
  destruct (file_Read_eq m1 (update_slot g w1 id (set_offset f off)) id (set_offset f off) ino off data n)
    as (w2 & Hrd & Hw2 & Hdb & Hv2); [done|done|done|simpl; by rewrite Hv1|done|done|].
  rewrite update_slot_twice, set_offset_twice in Hrd. simpl in Hv2. rewrite Hv1 in Hv2.
  exists m1, buf, w2. split; [|by split_and!]. unfold do_Read.
  rewrite (st_bind_eq _ _ _ _ _ (ReadReg_eq 4 m g Hr ltac:(unfold NumTotalRegs; lia))), H4.
  rewrite (st_bind_eq _ _ _ _ _ (ReadReg_eq 5 m g Hr ltac:(unfold NumTotalRegs; lia))), H5.
  rewrite (st_bind_eq _ _ _ _ _ (ReadReg_eq 6 m g Hr ltac:(unfold NumTotalRegs; lia))), H6.
  rewrite id_guard by done. rewrite (st_bind_eq _ _ _ _ _ (get_file_eq id m g _ (slot_aget _ _ _ _ _ Hs))).
  assert (Ht3 : ftype f =? 3 = false ∧ ftype f =? 2 = false) by (destruct Hty as [-> | ->]; done).
  destruct Ht3 as [Ht3 Ht2]. rewrite Ht3, (st_bind_eq _ _ _ _ _ Hp1).
  rewrite (st_bind_eq _ _ _ _ _ (on_machine_eq _ m _ _ _ Hc)).
  rewrite (st_bind_eq _ _ _ _ _ (the_file_eq id m1 _ _ (slot_aget _ _ _ _ _ Hs1))). simpl. rewrite Ht2.
  by rewrite (st_bind_eq _ _ _ _ _ Hrd).
Qed.

Lemma stored_at_nil t m m' a : mainMemory m' = mainMemory m → stored_at t m m' a [].
Proof. intros Hm a' Ha'. simpl. rewrite decide_False by lia. unfold vbyte. by rewrite Hm. Qed.

Lemma stored_at_memory t m0 m m' m'' a bs : mainMemory m = mainMemory m0 → mainMemory m'' = mainMemory m' →
  stored_at t m m' a bs → stored_at t m0 m'' a bs.
Proof.
  intros H0 H1 Hs a' Ha'. pose proof (Hs a' Ha') as Hv. unfold vbyte in *. by rewrite H1, <- H0, Hv.
Qed.

(** Read copies what is left of the file, at most [n] bytes, into the buffer at
    [a], but nothing beyond the first NUL byte; r2 counts all bytes, and is -2 at
    the end of the file. *)
Lemma Read_call t m (g : Globals W) a n id f ino off data : wf_regs m → user_space m t → unix_ok (world g) →
  0 <= a → int32 a → 0 <= n → a + n <= space_size t → off + n < 2 ^ 31 →
  slot_open g id f ino off → ftype f = 0 ∨ ftype f = 1 → inodes (view (world g)) !! ino = Some data →
  let bs := bytes_at data off n in let r := Z.of_nat (length bs) in
  ∃ m' w, call SC_Read a n id (m, g) = Ok (Returned, (m', update_slot g w id (set_offset f (off + r)))) ∧
    after t m m' (if r =? 0 then -2 else r) ∧ unix_ok w ∧ stored_at t m m' a (thru_nul bs) ∧
    view w = set_fds (view (world g)) (<[file f := (ino, off + r)]> (fds (view (world g)))).
Proof.
  intros Hr Hu Hw Ha Hia Hn Hspace Hmax Hs Hty Hi bs r. pose proof Hs as (Hid & _ & _ & Hfd).
  assert (Hoff : 0 <= off) by apply (vo_fd _ (unix_view_ok _ Hw) _ _ _ Hfd).
  assert (Hrn : 0 <= r <= n) by (unfold r, bs, bytes_at; rewrite length_take; lia).
  assert (Hin : int32 n) by (apply int32_small; lia). assert (Hiid : int32 id) by (apply int32_small; unfold MAX_FILES in *; lia).
  destruct (set_args_ok m SC_Read a n id Hr) as (Hr0 & _ & H4 & H5 & H6); [i32..|].
  destruct (Read_start t (set_args m SC_Read a n id) g a n id f ino off data)
    as (m1 & buf & w & Hst & Hr1 & Hu1 & Hm1 & Hbl & Hbb & Hdb & Hw1 & Hv1); try done.
  { unfold set_args. by repeat apply user_space_set. }
  fold bs in Hst, Hdb. fold r in Hst, Hv1. unfold read_end in Hst. fold r in Hst.
  destruct (Z.eqb_spec r 0) as [Hr00|Hr00].
  - destruct (call_returns t SC_Read a n id m g m1 (update_slot g w id (set_offset f (off + r))) (-2))
      as (m' & Hcall & Haf & Hmem); try i32.
    { change (syscall SC_Read) with (@do_Read W _). rewrite Hst. by rewrite Hr00. }
    exists m', w. split_and!; try done. assert (Hnil : bs = []) by (apply nil_length_inv; lia). rewrite Hnil.
    apply stored_at_nil. by rewrite Hmem, Hm1.
  - assert (Hs2 : slot_open (update_slot g w id (set_offset f (off + r))) id (set_offset f (off + r)) ino (off + r)).
    { eapply update_slot_open; [done|]. rewrite Hv1. simpl. by rewrite lookup_insert_eq. }
    destruct (file_pos_eq m1 (update_slot g w id (set_offset f (off + r))) id _ ino (off + r) Hw1 Hs2)
      as (w3 & Hp3 & Hw3 & Hv3). rewrite update_slot_twice, set_offset_twice in Hp3. simpl in Hv3.
    assert (Hblit : take (Z.to_nat r) (blit buf 0 bs) = bs).
    { unfold blit. simpl. apply take_app_length'. unfold r. lia. }
    destruct (SystemToUser_ok t a r (blit buf 0 bs) m1) as (m2 & Hsu & Hu2 & Hf2 & Hsa); [done| | |done| |].
    { rewrite length_blit by (rewrite Hbl; lia). lia. }
    { unfold blit. simpl. apply Forall_app. split; [done|]. by apply Forall_drop. }
    { rewrite Hblit. pose proof (thru_nul_length bs). lia. }
    rewrite Hblit in Hsu, Hsa.
    assert (Hr2 : wf_regs m2) by (eapply wf_regs_same; [apply Hf2|done]).
    destruct (call_returns t SC_Read a n id m g m2 (update_slot g w3 id (set_offset f (off + r))) r)
      as (m' & Hcall & Haf & Hmem); try i32.
    { apply int32_small. lia. }
    { change (syscall SC_Read) with (@do_Read W _). rewrite Hst. destruct (Z.gtb_spec r 0); [|lia].
      rewrite (st_bind_eq _ _ _ _ _ Hp3). replace (off + r - off) with r by lia.
      by rewrite (st_bind_eq _ _ _ _ _ (on_machine_eq _ m1 _ _ _ Hsu)). }
    exists m', w3. rewrite Hv3. split_and!; try done. by eapply stored_at_memory.
Qed.

(** ** Programs *)

(** A system call and its result. *)
Definition sc (type a1 a2 a3 : Z) : ST K Z :=
  r ← call type a1 a2 a3;
  match r with Returned => ReadReg 2 | Finished => st_lift Undef end.

Lemma sc_eq t type a1 a2 a3 m (g : Globals W) m' g' r : call type a1 a2 a3 (m, g) = Ok (Returned, (m', g')) →
  after t m m' r → sc type a1 a2 a3 (m, g) = Ok (r, (m', g')).
Proof.
  intros Hc [Hr _ <-]. unfold sc. rewrite (st_bind_eq _ _ _ _ _ Hc).
  apply ReadReg_eq; [done|unfold NumTotalRegs; lia].
Qed.

(** Save the [n] bytes at [pd] under the name at [pn]; load [n] bytes of the
    file with that name to [pb]. *)
Definition save (pn pd n : Z) : ST K (list Z) :=
  created ← sc SC_Create pn 0 0;
  id ← sc SC_Open pn 0 0;
  written ← sc SC_Write pd n id;
  closed ← sc SC_Close id 0 0;
  mret [created; written; closed].

Definition load (pn pb n : Z) : ST K Z :=
  id ← sc SC_Open pn 1 0;
  sc SC_Read pb n id.

Lemma holds_end t m a bs : 0 <= a → (0 < length bs)%nat → holds t m a bs → a + Z.of_nat (length bs) <= space_size t.
Proof.
  intros Ha Hl Hh. destruct (lookup_lt_is_Some_2 bs (length bs - 1)) as [b Hb]; [lia|].
  apply Hh in Hb. apply vbyte_space in Hb; lia.
Qed.

Lemma space_int32 t m a : user_space m t → 0 <= a <= space_size t → int32 a ∧ space_size t < 2 ^ 31.
Proof.
  intros Hu Ha. pose proof (space_small t (us_frames _ _ Hu)).
  unfold int32, MemorySize, NumPhysPages, PageSize, SectorSize in *. lia.
Qed.

Lemma write_at_start bs : write_at [] 0 bs = bs.
Proof.
  unfold write_at. destruct bs as [|b bs]; [done|]. simpl. unfold blit. simpl.
  rewrite drop_ge, app_nil_r; [done|]. simpl. rewrite length_replicate. lia.
Qed.

Lemma set_slot_length (g : Globals W) id f : length (openf (fileSystem (set_slot g id f))) = length (openf (fileSystem g)).
Proof. simpl. apply length_insert. Qed.

Lemma user_name_memory t m m' a s : mainMemory m' = mainMemory m → user_name t m a s → user_name t m' a s.
Proof. intros Hm (H1 & H2 & H3). split_and!; try done. by eapply holds_same_memory. Qed.

Lemma user_name_int32 t m a s : user_space m t → user_name t m a s → int32 a ∧ space_size t < 2 ^ 31.
Proof.
  intros Hu (Ha & _ & Hh). assert (He : a + Z.of_nat (length (s ++ [0])) <= space_size t).
  { apply (holds_end t m); [done|rewrite length_app; simpl; lia|done]. }
  apply (space_int32 t m a Hu). lia.
Qed.

(** The host has file [s] with contents [data], and a slot is free. *)
Definition has_file (g : Globals W) (s data : list Z) : Prop :=
  unix_ok (world g) ∧ slot_free g ∧
  ∃ ino, names (view (world g)) !! s = Some ino ∧ inodes (view (world g)) !! ino = Some data.

(** Opening an existing file yields an open slot on it. *)
Lemma sc_Open t m (g : Globals W) a s type data : wf_regs m → user_space m t → user_name t m a s →
  Z.of_nat (length s) <= MaxNameLength → type = 0 ∨ type = 1 → has_file g s data →
  ∃ m' g' id fd ino, sc SC_Open a type 0 (m, g) = Ok (id, (m', g')) ∧ wf_regs m' ∧ user_space m' t ∧
    mainMemory m' = mainMemory m ∧ unix_ok (world g') ∧ slot_open g' id (mkStub fd 0 type) ino 0 ∧ 2 <= id ∧
    names (view (world g')) !! s = Some ino ∧ inodes (view (world g')) !! ino = Some data.
Proof.
  intros Hr Hu Hn Hl Hty (Hw & Hfree & ino & Hname & Hdata).
  destruct (user_name_int32 t m a s Hu Hn) as [Hia _].
  destruct (Open_call t m g a s type ino) as (m' & w' & id & fd & Hc & Ha & Hm & Hw' & Hid & _ & _ & Hv); try done.
  eexists m', _, id, fd, ino. split; [by eapply sc_eq|]. split; [apply Ha|]. split; [apply Ha|].
  destruct Hfree as [Hlen _]. split; [exact Hm|]. split; [exact Hw'|].
  split; [|split; [lia|simpl; rewrite Hv; simpl; done]].
  split; [lia|]. split; [rewrite set_slot_length; exact Hlen|]. simpl. split.
  - apply list_lookup_insert_eq. rewrite Hlen. unfold MAX_FILES in *. lia.
  - rewrite Hv. simpl. by rewrite lookup_insert_eq.
Qed.

Lemma save_ok t m (g : Globals W) pn s pd bs : wf_regs m → user_space m t → unix_ok (world g) → slot_free g →
  user_name t m pn s → Z.of_nat (length s) <= MaxNameLength →
  0 <= pd → holds t m pd bs → 0 ∉ bs → (0 < length bs)%nat →
  let n := Z.of_nat (length bs) in
  ∃ m' g', save pn pd n (m, g) = Ok ([0; n; 0], (m', g')) ∧ wf_regs m' ∧ user_space m' t ∧
    mainMemory m' = mainMemory m ∧ has_file g' s bs.
Proof.
  intros Hr Hu Hw Hfree Hn Hsl Hpd Hh Hnul Hlen n.
  pose proof (holds_end t m pd bs Hpd Hlen Hh) as Hend. destruct (user_name_int32 t m pn s Hu Hn) as [Hipn Hsz].
  assert (Hipd : int32 pd) by (apply int32_small; lia).
  destruct (Create_call t m g pn s Hr Hu Hw Hn Hipn ltac:(lia)) as (m1 & w1 & ino1 & Hc1 & Ha1 & Hm1 & Hw1 & [_ Hv1]).
  destruct (sc_Open t m1 (set_world g w1) pn s 0 []) as (m2 & g2 & id & fd & ino & Hc2 & Hr2 & Hu2 & Hm2 & Hw2 & Hs2 & Hid & Hnm2 & Hd2);
    [apply Ha1|apply Ha1|by eapply user_name_memory|done|by left| |].
  { split; [done|]. split; [done|]. exists ino1. simpl. rewrite Hv1. simpl. by rewrite !lookup_insert_eq. }
  destruct (Write_call t m2 g2 pd bs id (mkStub fd 0 0) ino 0 []) as (m3 & w3 & Hc3 & Ha3 & Hm3 & Hw3 & Hv3); try done.
  { eapply holds_same_memory; [|exact Hh]. congruence. }
  { lia. }
  fold n in Hc3, Ha3, Hv3. simpl in Hv3. rewrite write_at_start in Hv3.
  set (f3 := set_offset (mkStub fd 0 0) (0 + n)) in *.
  assert (Hs3 : slot_open (update_slot g2 w3 id f3) id f3 ino n).
  { eapply update_slot_open; [exact Hs2|]. rewrite Hv3. simpl. by rewrite lookup_insert_eq. }
  destruct (Close_call t m3 (update_slot g2 w3 id f3) id f3 ino n) as (m4 & w4 & Hc4 & Ha4 & Hm4 & Hw4 & Hv4);
    try apply Ha3; try done.
  eexists m4, _. split.
  - unfold save. rewrite (st_bind_eq _ _ _ _ _ (sc_eq t _ _ _ _ _ _ _ _ _ Hc1 Ha1)), (st_bind_eq _ _ _ _ _ Hc2).
    rewrite (st_bind_eq _ _ _ _ _ (sc_eq t _ _ _ _ _ _ _ _ _ Hc3 Ha3)).
    rewrite (st_bind_eq _ _ _ _ _ (sc_eq t _ _ _ _ _ _ _ _ _ Hc4 Ha4)). reflexivity.
  - split; [apply Ha4|]. split; [apply Ha4|]. split; [congruence|]. split; [done|]. destruct Hs3 as (Hi & Hl3 & _).
    split; [|exists ino; simpl; rewrite Hv4; simpl; rewrite Hv3; simpl; by rewrite lookup_insert_eq].
    split; [rewrite set_slot_length; exact Hl3|]. exists id. split; [lia|].
    apply list_lookup_insert_eq. simpl in Hl3 |- *. rewrite Hl3. unfold MAX_FILES in *. lia.
Qed.

Lemma load_ok t m (g : Globals W) pn s pb data : wf_regs m → user_space m t → has_file g s data →
  user_name t m pn s → Z.of_nat (length s) <= MaxNameLength → (0 < length data)%nat →
  let n := Z.of_nat (length data) in
  0 <= pb → pb + n <= space_size t →
  ∃ m' g', load pn pb n (m, g) = Ok (n, (m', g')) ∧ wf_regs m' ∧ user_space m' t ∧
    stored_at t m m' pb (thru_nul data).
Proof.
  intros Hr Hu Hfile Hn Hsl Hlen n Hpb Hspace. destruct (user_name_int32 t m pn s Hu Hn) as [_ Hsz].
  destruct (sc_Open t m g pn s 1 data) as (m2 & g2 & id & fd & ino & Hc2 & Hr2 & Hu2 & Hm2 & Hw2 & Hs2 & Hid & _ & Hd2);
    try done; [by right|].
  destruct (Read_call t m2 g2 pb n id (mkStub fd 0 1) ino 0 data) as (m3 & w3 & Hc3 & Ha3 & Hw3 & Hsa & _);
    try done; [apply int32_small; lia|lia|lia|by right|].
  assert (Hba : bytes_at data 0 n = data) by (unfold bytes_at; simpl; apply take_ge; lia).
  rewrite Hba in *. fold n in Hc3, Ha3. destruct (Z.eqb_spec n 0); [lia|].
  eexists m3, _. split; [|split; [apply Ha3|split; [apply Ha3|by eapply stored_at_memory]]].
  unfold load. rewrite (st_bind_eq _ _ _ _ _ Hc2). by apply (sc_eq t _ _ _ _ _ _ _ _ _ Hc3 Ha3).
Qed.
End FileCalls.

(** ** Theorems *)

(** C9: files keep what programs write.  On a host that works, a process that
    creates a file, opens it, writes a buffer of bytes other than NUL, closes it,
    opens it again for reading and reads as many bytes gets exactly these bytes:
    every call returns with the result its documentation gives, the buffer read
    into holds the data, the other bytes of the process are unchanged. *)
Theorem file_roundtrip {W} `{Services W} `{!UnixLaws W} `{!UnixReliable W} t m (g : Globals W) pn s pd bs pb :
  wf_regs m → user_space m t → unix_ok (world g) → slot_free g →
  user_name t m pn s → Z.of_nat (length s) <= MaxNameLength →
  0 <= pd → holds t m pd bs → 0 ∉ bs → (0 < length bs)%nat →
  let n := Z.of_nat (length bs) in
  0 <= pb → pb + n <= space_size t →
  ∃ m1 g1 m2 g2, save pn pd n (m, g) = Ok ([0; n; 0], (m1, g1)) ∧
    load pn pb n (m1, g1) = Ok (n, (m2, g2)) ∧ user_space m2 t ∧ stored_at t m m2 pb bs.
Proof.
  intros Hr Hu Hw Hfree Hn Hsl Hpd Hh Hnul Hlen n Hpb Hspace.
  destruct (save_ok t m g pn s pd bs) as (m1 & g1 & Hs & Hr1 & Hu1 & Hm1 & Hf1); try done.
  destruct (load_ok t m1 g1 pn s pb bs) as (m2 & g2 & Hl & Hr2 & Hu2 & Hsa); try done.
  { by eapply user_name_memory. }
  rewrite thru_nul_no_nul in Hsa by done. exists m1, g1, m2, g2. split_and!; try done. by eapply stored_at_memory.
Qed.

Lemma sim_holds a bs : 0 <= a → a + Z.of_nat (length bs) <= 22 →
  bytes_at ([97; 98; 0] ++ replicate 13 0 ++ [104; 101; 108; 108; 111; 0]) a (Z.of_nat (length bs)) = bs →
  holds sim_table sim_machine a bs.
Proof.
  intros Ha Hl Hbs i b Hb. pose proof (lookup_lt_Some _ _ _ Hb). rewrite sim_vbyte by lia.
  rewrite <- Hbs in Hb. rewrite lookup_bytes_at in Hb by lia. rewrite <- Hb. f_equal. lia.
Qed.

Lemma file_roundtrip_witness :
  ∃ m1 g1 m2 g2, save 0 16 5 (sim_machine, sim_globals) = Ok ([0; 5; 0], (m1, g1)) ∧
    load 0 600 5 (m1, g1) = Ok (5, (m2, g2)) ∧
    stored_at sim_table sim_machine m2 600 [104; 101; 108; 108; 111].
Proof.
  destruct (file_roundtrip sim_table sim_machine sim_globals 0 [97; 98] 16 [104; 101; 108; 108; 111] 600)
    as (m1 & g1 & m2 & g2 & Hs & Hl & _ & Hsa).
  - exact sim_regs.
  - exact sim_space.
  - exact empty_host_ok.
  - split; [reflexivity|]. exists 2. split; [unfold MAX_FILES; lia|reflexivity].
  - split; [lia|]. split; [apply (bool_decide_unpack _); vm_compute; exact I|].
    apply sim_holds; [lia|simpl; lia|reflexivity].
  - unfold MaxNameLength. simpl. lia.
  - lia.
  - apply sim_holds; [lia|simpl; lia|reflexivity].
  - apply (bool_decide_unpack _). vm_compute. exact I.
  - simpl. lia.
  - lia.
  - unfold space_size, PageSize, SectorSize. simpl. lia.
  - exists m1, g1, m2, g2. split; [exact Hs|]. split; [exact Hl|exact Hsa].
Defined.
