(* ===== verification/SysCalls.v ===== *)
(** * Theorems on the other system calls

    Integers on the console, named semaphores, and bad pointers. *)

From Stdlib Require Import ZArith Lia Bool.
From S2P Require Import Prelude Bytes Bitmap Machine Mips MipsProofs AddrSpace AddrSpaceProofs.
From S2P Require Import Unix StubFS UserMem STable Exception SimWorld ExceptionProofs FileCalls.

Local Open Scope Z_scope.

Local Ltac i32 := first [ assumption | by apply int32_small ].

(** ** Decimal digits *)

Definition is_digit (c : Z) : Prop := 48 <= c <= 57.

Lemma digits_Forall k n : 0 <= n → Forall is_digit (digits k n).
Proof.
  revert n; induction k as [|k IH]; intros n Hn; simpl; [done|]. apply Forall_app. split.
  - apply IH. apply Z.quot_pos; lia.
  - apply Forall_singleton. unfold is_digit. pose proof (Z.rem_bound_pos n 10 Hn). lia.
Qed.

Lemma digits_length k n : length (digits k n) = k.
Proof. revert n; induction k as [|k IH]; intros n; simpl; [done|]. rewrite length_app, IH. simpl. lia. Qed.

Lemma atoi_digits_snoc ds d acc : Forall is_digit ds → is_digit d →
  atoi_digits (ds ++ [d]) acc = atoi_digits ds acc * 10 + (d - 48).
Proof.
  intros Hds Hd. revert acc; induction Hds as [|x ds Hx _ IH]; intros acc; simpl; unfold is_digit in *.
  - destruct (Z.leb_spec 48 d), (Z.leb_spec d 57); try lia. done.
  - destruct (Z.leb_spec 48 x), (Z.leb_spec x 57); try lia. simpl. by rewrite IH.
Qed.

(** The loop that counts digits, and what it counts. *)
Lemma count_digits_ok fuel n : n < 10 ^ Z.of_nat fuel →
  ∃ k, count_digits fuel n = Ok (Z.of_nat k) ∧ (k <= fuel)%nat ∧ (n <= 0 → k = 0%nat) ∧
    (0 < n → 10 ^ (Z.of_nat k - 1) <= n < 10 ^ Z.of_nat k ∧ (0 < k)%nat).
Proof.
  revert n; induction fuel as [|fuel IH]; intros n Hn; simpl; destruct (Z.gtb_spec n 0).
  - change (10 ^ Z.of_nat 0) with 1 in Hn. lia.
  - exists 0%nat. split_and!; try done; lia.
  - rewrite Nat2Z.inj_succ, Z.pow_succ_r in Hn by lia.
    assert (Hq : Z.quot n 10 = n / 10) by (apply Z.quot_div_nonneg; lia).
    destruct (IH (Z.quot n 10)) as (k & Hk & Hle & Hz & Hp); [rewrite Hq; apply Z.div_lt_upper_bound; lia|].
    rewrite Hk. simpl. exists (S k). split; [f_equal; lia|]. split; [lia|]. split; [lia|]. intros _.
    split; [|lia]. rewrite Nat2Z.inj_succ. replace (Z.succ (Z.of_nat k) - 1) with (Z.of_nat k) by lia.
    destruct (Z.ltb_spec 0 (Z.quot n 10)) as [Hpos|Hpos].
    + destruct (Hp Hpos) as [[H1 H2] H3]. rewrite Hq in *. rewrite Z.pow_succ_r by lia.
      replace (Z.of_nat k) with (Z.succ (Z.of_nat k - 1)) at 1 by lia. rewrite Z.pow_succ_r by lia.
      pose proof (Z.div_mod n 10). pose proof (Z.mod_pos_bound n 10). lia.
    + rewrite (Hz Hpos). simpl. rewrite Hq in Hpos. pose proof (Z.div_mod n 10).
      pose proof (Z.mod_pos_bound n 10). pose proof (Z.div_pos n 10). lia.
  - exists 0%nat. split_and!; try done; try lia.
Qed.

Lemma digits_value k n : 0 <= n < 10 ^ Z.of_nat k → atoi_digits (digits k n) 0 = n.
Proof.
  revert n; induction k as [|k IH]; intros n Hn; simpl.
  - change (10 ^ Z.of_nat 0) with 1 in Hn. lia.
  - rewrite Nat2Z.inj_succ, Z.pow_succ_r in Hn by lia.
    assert (Hq : Z.quot n 10 = n / 10) by (apply Z.quot_div_nonneg; lia).
    pose proof (Z.rem_bound_pos n 10 ltac:(lia) ltac:(lia)) as Hrem.
    rewrite atoi_digits_snoc; [|apply digits_Forall; rewrite Hq; apply Z.div_pos; lia|unfold is_digit; lia].
    rewrite IH; [pose proof (Z.quot_rem' n 10); lia|]. rewrite Hq. split; [apply Z.div_pos; lia|].
    apply Z.div_lt_upper_bound; lia.
Qed.

(** No leading zero. *)
Lemma digits_head k n : 10 ^ Z.of_nat k <= n → n < 10 ^ Z.of_nat (S k) → ∃ d ds, digits (S k) n = d :: ds ∧ d ≠ 48.
Proof.
  revert n; induction k as [|k IH]; intros n Hlo Hhi.
  - simpl. change (10 ^ Z.of_nat 0) with 1 in Hlo. change (10 ^ Z.of_nat 1) with 10 in Hhi.
    exists (Z.rem n 10 + 48), []. split; [done|]. rewrite Z.rem_small by lia. lia.
  - assert (Hpow : 0 < 10 ^ Z.of_nat (S k)) by (apply Z.pow_pos_nonneg; lia).
    assert (Hq : Z.quot n 10 = n / 10) by (apply Z.quot_div_nonneg; lia).
    change (digits (S (S k)) n) with (digits (S k) (Z.quot n 10) ++ [Z.rem n 10 + 48]).
    rewrite Nat2Z.inj_succ, Z.pow_succ_r in Hlo by lia. rewrite (Nat2Z.inj_succ (S k)), Z.pow_succ_r in Hhi by lia.
    destruct (IH (Z.quot n 10)) as (d & ds & -> & Hd).
    + rewrite Hq. apply Z.div_le_lower_bound; lia.
    + rewrite Hq. apply Z.div_lt_upper_bound; lia.
    + eexists d, _. by split.
Qed.

Lemma digit_not_digit c : is_digit c → not_digit c = false.
Proof.
  unfold is_digit, not_digit. intros Hc. assert (Hs : schar c = c).
  { unfold schar. rewrite Z.mod_small by lia. lia. }
  rewrite Hs. destruct (Z.ltb_spec c 48), (Z.gtb_spec c 57); try lia; done.
Qed.

(** atoi on the digits of an int followed by NULs. *)
Lemma atoi_ok ds k : Forall is_digit ds → (0 < k)%nat → 0 <= atoi_digits ds 0 < 2 ^ 31 → ds ≠ [] →
  atoi (ds ++ replicate k 0) = Ok (atoi_digits ds 0).
Proof.
  intros Hds Hk Hv Hne. unfold atoi. rewrite c_str_padded; [|intros Hin|done].
  2:{ rewrite Forall_forall in Hds. specialize (Hds 0 Hin). unfold is_digit in Hds. lia. }
  cbn [mbind outcome_bind]. destruct ds as [|d ds]; [done|].
  apply Forall_cons in Hds as [Hd Hds]. unfold is_digit in Hd. simpl skip_space.
  destruct (Z.eqb_spec d 32); [lia|]. destruct (Z.leb_spec 9 d), (Z.leb_spec d 13); try lia. simpl orb. cbv iota.
  destruct (Z.eqb_spec d 45); [lia|]. destruct (Z.eqb_spec d 43); [lia|].
  unfold int32b. destruct (Z.leb_spec (- 2 ^ 31) (atoi_digits (d :: ds) 0)), (Z.ltb_spec (atoi_digits (d :: ds) 0) (2 ^ 31));
    try lia. done.
Qed.

(** What SC_PrintInt writes. *)
Definition printed (n : Z) (ds : list Z) : Prop :=
  (n <= 0 → ds = []) ∧
  (0 < n → Forall is_digit ds ∧ atoi_digits ds 0 = n ∧ (length ds <= 10)%nat ∧ ∃ d ds', ds = d :: ds' ∧ d ≠ 48).

Lemma print_digits n : int32 n → ∃ k, count_digits 10 n = Ok (Z.of_nat k) ∧ printed n (digits k n).
Proof.
  intros Hn. destruct (count_digits_ok 10 n) as (k & Hk & Hle & Hz & Hp); [unfold int32 in Hn; simpl; lia|].
  exists k. split; [done|]. split.
  - intros Hn0. by rewrite (Hz Hn0).
  - intros Hpos. destruct (Hp Hpos) as [[H1 H2] H3]. split_and!.
    + apply digits_Forall. lia.
    + apply digits_value. lia.
    + by rewrite digits_length.
    + destruct k as [|k]; [lia|]. apply digits_head; [|done].
      replace (Z.of_nat k) with (Z.of_nat (S k) - 1) by lia. done.
Qed.

Section Calls.
Context {W : Type} `{Services W}.

Lemma call_advances type a1 a2 a3 m (g : Globals W) m1 g1 :
  wf_regs m → int32 type → int32 a1 → int32 a2 → int32 a3 →
  syscall type (set_args m type a1 a2 a3, g) = Ok (Returned, (m1, g1)) →
  call type a1 a2 a3 (m, g) = Ok (Returned, (AdvanceProgramCounter m1, g1)).
Proof.
  intros Hr H0 H1 H2 H3 Hs. unfold call, ExceptionHandler.
  destruct (set_args_ok m type a1 a2 a3 Hr H0 H1 H2 H3) as (Hm0 & Ht & _).
  rewrite (st_bind_eq _ _ _ _ _ (ReadReg_eq 2 _ g Hm0 ltac:(unfold NumTotalRegs; lia))). rewrite Ht.
  by rewrite (st_bind_eq _ _ _ _ _ Hs).
Qed.

Lemma on_globals_eq {A} (f : ST (Globals W) A) m (g : Globals W) a g' : f g = Ok (a, g') →
  on_globals f (m, g) = Ok (a, (m, g')).
Proof. intros Hf. unfold on_globals. by rewrite Hf. Qed.

Lemma PrintInt_call m (g : Globals W) n : wf_regs m → int32 n →
  ∃ ds, printed n ds ∧ ∀ r g', SynchConsole_Write ds g = Ok (r, g') →
    ∃ m', call SC_PrintInt n 0 0 (m, g) = Ok (Returned, (m', g')).
Proof.
  intros Hr Hn. destruct (print_digits n Hn) as (k & Hk & Hp). exists (digits k n). split; [done|].
  intros r g' Hw. destruct (set_args_ok m SC_PrintInt n 0 0 Hr) as (Hr0 & _ & H4 & _); [i32..|].
  eexists. apply call_advances; try i32. unfold syscall. simpl. unfold do_PrintInt.
  rewrite (st_bind_eq _ _ _ _ _ (ReadReg_eq 4 _ g Hr0 ltac:(unfold NumTotalRegs; lia))), H4.
  rewrite (st_lift_bind _ _ _ _ Hk), Nat2Z.id, (st_bind_eq _ _ _ _ _ (on_globals_eq _ _ _ _ _ Hw)). done.
Qed.

Lemma existsb_digits ds : Forall is_digit ds → existsb not_digit ds = false.
Proof. induction 1 as [|d ds Hd _ IH]; simpl; [done|]. by rewrite digit_not_digit, IH. Qed.

Lemma ReadInt_call t m (g : Globals W) g' n ds : wf_regs m → user_space m t → int32 n → 0 < n → printed n ds →
  SynchConsole_Read 100 g = Ok ((Z.of_nat (length ds), ds ++ replicate (100 - length ds) 0), g') →
  ∃ m', call SC_ReadInt 0 0 0 (m, g) = Ok (Returned, (m', g')) ∧ after t m m' n.
Proof.
  intros Hr Hu Hn Hpos [_ Hp] Hrd. destruct (Hp Hpos) as (Hds & Hv & Hle & d & ds' & Heq & _).
  destruct (set_args_ok m SC_ReadInt 0 0 0 Hr) as (Hr0 & _); [i32..|].
  destruct (call_returns t SC_ReadInt 0 0 0 m g (set_args m SC_ReadInt 0 0 0) g' n) as (m' & Hc & Ha & _); try i32.
  - unfold set_args. by repeat apply user_space_set.
  - unfold syscall. simpl. unfold do_ReadInt. rewrite (st_bind_eq _ _ _ _ _ (on_globals_eq _ _ _ _ _ Hrd)).
    rewrite Nat2Z.id, take_app_length, existsb_digits by done.
    rewrite (st_lift_bind _ _ _ _ (atoi_ok ds (100 - length ds) Hds ltac:(lia) ltac:(rewrite Hv; unfold int32 in Hn; lia) ltac:(by rewrite Heq))).
    by rewrite Hv.
  - exists m'. by split.
Qed.

(** ** Named semaphores *)

(** SC_Signal and SC_Wait after the name was found at [i]: at index 0 nothing
    happens, otherwise the operation is made. *)
Lemma do_sem_eq t (op : list Z → ST (Globals W) Z) m g a name i : wf_regs m → user_space m t → reg m 4 = a → user_name t m a name →
  Z.of_nat (length name) <= MaxNameLength + 1 → IsExist (semTable g) name = Ok i →
  (i ≠ -1 → ∃ s v, STable.sem_at g i = Ok s ∧ Semaphore_getValue (sem s) g = Ok (v, g)) →
  ∃ m1, wf_regs m1 ∧ user_space m1 t ∧
    do_sem op (m, g) =
      (if i =? 0 then _ ← WriteReg 2 (-1); _ ← Advance; break_
       else result ← on_globals (op name); _ ← WriteReg 2 result; _ ← Advance; break_) (m1, g).
Proof.
  intros Hr Hu H4 Hn Hl Hi Hv.
  destruct (user_string_eq t m g a name (MaxNameLength + 1) Hu Hr Hn Hl) as (m1 & Hs & Hr1 & Hu1 & _).
  assert (Hval : ∃ v, STable_GetValue name g = Ok (v, g)).
  { unfold STable_GetValue. rewrite (st_bind_eq _ _ _ _ _ (eq_refl : st_get g = Ok (g, g))), (st_lift_bind _ _ _ _ Hi).
    destruct (Z.eqb_spec i (-1)); cbn [negb]; [eexists; reflexivity|]. destruct (Hv n) as (s & v & Hs' & Hg).
    rewrite (st_lift_bind _ _ _ _ Hs'). eauto. }
  destruct Hval as [v Hval].
  assert (Hex : (λ g : Globals W, e ← IsExist (semTable g) name; Ok (e, g)) g = Ok (i, g)) by (cbv beta; by rewrite Hi).
  exists m1. split; [done|]. split; [done|]. unfold do_sem.
  rewrite (st_bind_eq _ _ _ _ _ (ReadReg_eq 4 m g Hr ltac:(unfold NumTotalRegs; lia))), H4.
  rewrite (st_bind_eq _ _ _ _ _ Hs), (st_bind_eq _ _ _ _ _ (on_globals_eq _ m1 g _ _ Hval)).
  by rewrite (st_bind_eq _ _ _ _ _ (on_globals_eq _ m1 g _ _ Hex)).
Qed.

(** The end of the calls on semaphores. *)
Lemma sem_returns t type m (g : Globals W) m1 g1 a r : wf_regs m → int32 type → int32 a → int32 r → wf_regs m1 → user_space m1 t →
  syscall type (set_args m type a 0 0, g) = (_ ← WriteReg 2 r; _ ← Advance; break_) (m1, g1) →
  ∃ m', call type a 0 0 (m, g) = Ok (Returned, (m', g1)) ∧ reg m' 2 = r.
Proof.
  intros Hr Ht Ha Hri Hr1 Hu1 Hs. eexists. split.
  - apply call_advances; try i32. rewrite Hs.
    rewrite (st_bind_eq _ _ _ _ _ (WriteReg_eq 2 r m1 g1 Hr1 ltac:(unfold NumTotalRegs; lia))). reflexivity.
  - rewrite s32_id by done. assert (Hw : wf_regs (set_reg m1 2 r)) by (apply wf_regs_set; [done|unfold NumGPRegs; lia|done]).
    rewrite Advance_reg by (apply wf_regs_Advance in Hw; apply Hw || lia). simpl.
    rewrite Advance_reg by (apply Hw || lia). simpl.
    rewrite reg_set_reg; [done| |lia]. destruct Hr1 as [-> _ _ _]. unfold NumTotalRegs. lia.
Qed.

Lemma sem_op_eq (op : Z → ST (Globals W) unit) name (g : Globals W) i s g' : IsExist (semTable g) name = Ok i → i ≠ -1 →
  STable.sem_at g i = Ok s → op (sem s) g = Ok (tt, g') →
  (g ← st_get; index ← st_lift (IsExist (semTable g) name);
   if negb (index =? -1) then s ← st_lift (STable.sem_at g index); _ ← op (sem s); mret 0 else mret (-1)) g = Ok (0, g').
Proof.
  intros Hi Hne Hs Hop. rewrite (st_bind_eq _ _ _ _ _ (eq_refl : st_get g = Ok (g, g))), (st_lift_bind _ _ _ _ Hi).
  destruct (Z.eqb_spec i (-1)); [done|]. cbn [negb]. rewrite (st_lift_bind _ _ _ _ Hs).
  by rewrite (st_bind_eq _ _ _ _ _ Hop).
Qed.

Lemma sem_missing (op : list Z → ST (Globals W) Z) name (g : Globals W) : IsExist (semTable g) name = Ok (-1) →
  op = STable_Signal ∨ op = STable_Wait → op name g = Ok (-1, g).
Proof.
  intros Hi [-> | ->]; unfold STable_Signal, STable_Wait;
    rewrite (st_bind_eq _ _ _ _ _ (eq_refl : st_get g = Ok (g, g))), (st_lift_bind _ _ _ _ Hi); done.
Qed.
End Calls.

(** ** Theorems *)

(** C35: integers on the console.  PrintInt of a positive int writes its decimal
    representation, at most ten digits without leading zero, and ReadInt of such
    a line returns the int; PrintInt of zero or a negative int writes nothing. *)
Theorem PrintInt_ReadInt {W} `{Services W} t m (g : Globals W) n :
  wf_regs m → user_space m t → int32 n →
  ∃ ds, printed n ds ∧
    (∀ r g', SynchConsole_Write ds g = Ok (r, g') →
      ∃ m', call SC_PrintInt n 0 0 (m, g) = Ok (Returned, (m', g'))) ∧
    (0 < n → ∀ g1 g2, SynchConsole_Read 100 g1 =
        Ok ((Z.of_nat (length ds), ds ++ replicate (100 - length ds) 0), g2) →
      ∃ m', call SC_ReadInt 0 0 0 (m, g1) = Ok (Returned, (m', g2)) ∧ reg m' 2 = n).
Proof.
  intros Hr Hu Hn. destruct (PrintInt_call m g n Hr Hn) as (ds & Hp & Hc). exists ds. split; [done|].
  split; [done|]. intros Hpos g1 g2 Hrd.
  destruct (ReadInt_call t m g1 g2 n ds Hr Hu Hn Hpos Hp Hrd) as (m' & Hc' & Ha). exists m'.
  split; [done|apply Ha].
Qed.

(** On the console of SimWorld: 2026 is printed, and typed in again. *)
Lemma PrintInt_ReadInt_witness :
  ∃ ds m1 g1, printed 2026 ds ∧
    call SC_PrintInt 2026 0 0 (sim_machine, sim_globals) = Ok (Returned, (m1, g1)) ∧
    ∀ inp g2, SynchConsole_Read 100 (sim_put g1 (mkSim empty_host inp [] [])) =
        Ok ((Z.of_nat (length ds), ds ++ replicate (100 - length ds) 0), g2) →
      ∃ m2, call SC_ReadInt 0 0 0 (sim_machine, sim_put g1 (mkSim empty_host inp [] [])) = Ok (Returned, (m2, g2)) ∧
        reg m2 2 = 2026.
Proof.
  destruct (PrintInt_ReadInt sim_table sim_machine sim_globals 2026) as (ds & Hp & Hw & Hrd);
    [exact sim_regs|exact sim_space|by apply int32_small|].
  destruct (Hw (Z.of_nat (length ds)) _ eq_refl) as [m1 Hm1].
  eexists ds, m1, _. split; [exact Hp|]. split; [exact Hm1|]. intros inp g2. apply Hrd. lia.
Defined.

(** C34: the named semaphores of user programs.  A Signal or Wait on a name found
    at an index above 0 makes exactly one V or P on that semaphore and returns 0.
    For a name that does not exist it returns -1 and changes nothing; but the same
    happens for the name at index 0, where the first semaphore created lives: it
    can neither be waited for nor signalled. *)
Theorem semaphore_syscalls {W} `{Services W} t m (g : Globals W) a name i :
  wf_regs m → user_space m t → user_name t m a name → Z.of_nat (length name) <= MaxNameLength + 1 →
  IsExist (semTable g) name = Ok i →
  (i ≠ -1 → ∃ s v, STable.sem_at g i = Ok s ∧ Semaphore_getValue (sem s) g = Ok (v, g)) →
  (i = 0 ∨ i = -1 → ∀ type, type = SC_Signal ∨ type = SC_Wait →
    ∃ m', call type a 0 0 (m, g) = Ok (Returned, (m', g)) ∧ reg m' 2 = -1) ∧
  (i ≠ 0 → ∀ s g', STable.sem_at g i = Ok s → i ≠ -1 →
    (Semaphore_V (sem s) g = Ok (tt, g') →
      ∃ m', call SC_Signal a 0 0 (m, g) = Ok (Returned, (m', g')) ∧ reg m' 2 = 0) ∧
    (Semaphore_P (sem s) g = Ok (tt, g') →
      ∃ m', call SC_Wait a 0 0 (m, g) = Ok (Returned, (m', g')) ∧ reg m' 2 = 0)).
Proof.
  intros Hr Hu Hn Hl Hi Hv. destruct (user_name_int32 t m a name Hu Hn) as [Hia _].
  assert (Hgo : ∀ type op r g', (type = SC_Signal ∧ op = STable_Signal) ∨ (type = SC_Wait ∧ op = STable_Wait) →
    (if i =? 0 then r = -1 ∧ g' = g else op name g = Ok (r, g')) → int32 r →
    ∃ m', call type a 0 0 (m, g) = Ok (Returned, (m', g')) ∧ reg m' 2 = r).
  { intros type op r g' Hty Hop Hir.
    assert (Hti : int32 type) by (destruct Hty as [[-> _]|[-> _]]; by apply int32_small).
    destruct (set_args_ok m type a 0 0 Hr) as (Hr0 & _ & H4 & _); [i32..|].
    destruct (do_sem_eq t op (set_args m type a 0 0) g a name i) as (m1 & Hr1 & Hu1 & He); try done.
    { unfold set_args. by repeat apply user_space_set. }
    apply (sem_returns t type m g m1 g' a r); try done.
    assert (Hsys : syscall type (set_args m type a 0 0, g) = do_sem op (set_args m type a 0 0, g))
      by (destruct Hty as [[-> ->]|[-> ->]]; done).
    rewrite Hsys, He. destruct (i =? 0); [by destruct Hop as [-> ->]|].
    by rewrite (st_bind_eq _ _ _ _ _ (on_globals_eq _ m1 g _ _ Hop)). }
  split.
  - intros Hi0 type Hty. destruct Hty as [-> | ->].
    + apply (Hgo SC_Signal STable_Signal (-1) g); [auto| |by apply int32_small].
      destruct Hi0 as [-> | ->]; [done|]. apply sem_missing; auto.
    + apply (Hgo SC_Wait STable_Wait (-1) g); [auto| |by apply int32_small].
      destruct Hi0 as [-> | ->]; [done|]. apply sem_missing; auto.
  - intros Hi0 s g' Hs Hi1. assert (Heq : i =? 0 = false) by by apply Z.eqb_neq. split; intros Hop.
    + apply (Hgo SC_Signal STable_Signal 0 g'); [auto| |by apply int32_small]. rewrite Heq. by eapply sem_op_eq.
    + apply (Hgo SC_Wait STable_Wait 0 g'); [auto| |by apply int32_small]. rewrite Heq. by eapply sem_op_eq.
Qed.

(** The table with another semaphore at index 0 and "ab" at index 1. *)
Definition sem_globals : Globals Sim :=
  mkGlobals (fileSystem sim_globals)
    (mkSTable (mkBitMap 10 1 [3]) (To (mkSem [120] 0) :: To (mkSem [97; 98] 1) :: replicate 8 Null))
    (mkSim empty_host [] [] [0; 0]).

Lemma semaphore_syscalls_witness :
  ∃ m' g', Semaphore_V 1 sem_globals = Ok (tt, g') ∧
    call SC_Signal 0 0 0 (sim_machine, sem_globals) = Ok (Returned, (m', g')) ∧ reg m' 2 = 0.
Proof.
  destruct (semaphore_syscalls sim_table sim_machine sem_globals 0 [97; 98] 1) as [_ H1].
  - exact sim_regs.
  - exact sim_space.
  - split; [lia|]. split; [apply (bool_decide_unpack _); vm_compute; exact I|].
    apply sim_holds; [lia|simpl; lia|reflexivity].
  - unfold MaxNameLength. simpl. lia.
  - reflexivity.
  - intros _. exists (mkSem [97; 98] 1), 0. split; reflexivity.
  - destruct (H1 ltac:(discriminate) (mkSem [97; 98] 1) (sim_put sem_globals (mkSim empty_host [] [] [0; 1]))
                eq_refl ltac:(discriminate)) as [HV _].
    destruct (HV eq_refl) as (m' & Hc & Hr). eexists m', _. split; [reflexivity|]. split; [exact Hc|exact Hr].
Defined.

(** ** Bad pointers *)

(** The calls whose first argument is the address of a string. *)
Definition string_calls : list Z :=
  [SC_Exec; SC_CreateSemaphore; SC_Signal; SC_Wait; SC_Create; SC_Open; SC_PrintString].

Lemma UserToSystem_bad t m a limit : wf_regs m → user_space m t → int32 a → ¬ 0 <= a < space_size t → 0 < limit →
  UserToSystem a limit m = Halted.
Proof.
  intros Hr Hu Ha Hout Hl. unfold UserToSystem. destruct (Z.ltb_spec (limit + 1) 0); [lia|].
  apply (UserToSystem_fault t a (Z.to_nat limit) [] [] (Z.to_nat (limit + 1)) m); simpl; rewrite ?Z.add_0_r; try done.
  - set_solver.
  - lia.
  - by left.
  - unfold int32 in Ha. lia.
Qed.

Lemma st_bind_Halted {S A B} (c : ST S A) (f : A → ST S B) s : c s = Halted → (c ≫= f) s = Halted.
Proof. unfold mbind, st_bind. by intros ->. Qed.

Lemma on_machine_Halted {W A} (f : Machine → outcome (A * Machine)) m (g : Globals W) : f m = Halted →
  on_machine f (m, g) = Halted.
Proof. intros Hf. unfold on_machine. by rewrite Hf. Qed.

(** Run a case of the switch up to the copy of the string, which halts. *)
Local Ltac run_to_copy Hr H4 Hbad :=
  rewrite (st_bind_eq _ _ _ _ _ (ReadReg_eq 4 _ _ Hr ltac:(unfold NumTotalRegs; lia))), H4;
  try rewrite (st_bind_eq _ _ _ _ _ (ReadReg_eq 5 _ _ Hr ltac:(unfold NumTotalRegs; lia)));
  apply st_bind_Halted; try apply st_bind_Halted; by apply Hbad.

Lemma syscall_bad_pointer {W} `{Services W} t m (g : Globals W) type a :
  wf_regs m → user_space m t → reg m 4 = a → int32 a → ¬ 0 <= a < space_size t → type ∈ string_calls →
  syscall type (m, g) = Halted.
Proof.
  intros Hr Hu H4 Ha Hout Hty.
  assert (Hbad : ∀ limit, 0 < limit → on_machine (UserToSystem a limit) (m, g) = Halted).
  { intros limit Hl. by apply on_machine_Halted, (UserToSystem_bad t). }
  unfold string_calls in Hty. rewrite !elem_of_cons, elem_of_nil in Hty.
  destruct Hty as [-> |[-> |[-> |[-> |[-> |[-> |[-> |[]]]]]]]]; unfold syscall; simpl.
  - unfold do_Exec. run_to_copy Hr H4 Hbad.
  - unfold do_CreateSemaphore. run_to_copy Hr H4 Hbad.
  - unfold do_sem. run_to_copy Hr H4 Hbad.
  - unfold do_sem. run_to_copy Hr H4 Hbad.
  - unfold do_Create. run_to_copy Hr H4 Hbad.
  - unfold do_Open. run_to_copy Hr H4 Hbad.
  - unfold do_PrintString. run_to_copy Hr H4 Hbad.
Qed.

(** C36: bad pointers.  A system call that is given the address of a string
    outside the memory of the process shuts the whole machine down: copying the
    string faults inside the kernel, and the handler halts on every memory
    exception, as it does on the other exceptions of user programs. *)
Theorem bad_pointer_halts {W} `{Services W} t m (g : Globals W) type a a2 a3 :
  wf_regs m → user_space m t → int32 a → int32 a2 → int32 a3 → ¬ 0 <= a < space_size t →
  (type ∈ string_calls → call type a a2 a3 (m, g) = Halted) ∧
  (∀ which, which ≠ NoException → which ≠ SyscallException → ExceptionHandler which (m, g) = Halted).
Proof.
  intros Hr Hu Ha H2 H3 Hout. split.
  - intros Hty.
    assert (Hti : int32 type).
    { unfold string_calls in Hty. rewrite !elem_of_cons, elem_of_nil in Hty.
      destruct_or? Hty; subst; try done; by apply int32_small. }
    destruct (set_args_ok m type a a2 a3 Hr) as (Hr0 & Ht & H4 & H5 & _); [done..|]. unfold call, ExceptionHandler.
    rewrite (st_bind_eq _ _ _ _ _ (ReadReg_eq 2 _ g Hr0 ltac:(unfold NumTotalRegs; lia))), Ht.
    apply st_bind_Halted, (syscall_bad_pointer t _ g type a); try done.
    unfold set_args. by repeat apply user_space_set.
  - intros which Hn Hs. unfold ExceptionHandler.
    rewrite (st_bind_eq _ _ _ _ _ (ReadReg_eq 2 _ g Hr ltac:(unfold NumTotalRegs; lia))). by destruct which.
Qed.

Lemma bad_pointer_halts_witness :
  call SC_Create (-4) 0 0 (sim_machine, sim_globals) = Halted ∧
  ExceptionHandler BusErrorException (sim_machine, sim_globals) = Halted.
Proof.
  destruct (bad_pointer_halts sim_table sim_machine sim_globals SC_Create (-4) 0 0) as [H1 H2];
    [exact sim_regs|exact sim_space|by apply int32_small|by apply int32_small|by apply int32_small|lia|].
  split; [apply H1; unfold string_calls; do 4 right; left|apply H2; discriminate].
Defined.
