(* ===== verification/ProcTable.v ===== *)
(** * userprog/ptable.cc and userprog/pcb.cc: the process table

    Exec, Join and Exit of processes that run concurrently.  Between two
    semaphore operations a kernel thread is not interrupted, so each piece of
    code up to and including a P or V is one step ([segment]); a [point] says
    where a thread goes on.  Semaphores are counters (see Sched for the proof
    that P and V count): a P on 0 puts the thread to sleep, and it goes on when
    the counter is positive again.  PCB objects live in a heap with addresses
    that are not used twice, since a thread that sleeps in a semaphore of a
    deleted PCB is not woken by another object.  User programs may make any call
    at any time. *)

From Stdlib Require Import ZArith Lia Bool.
From S2P Require Import Prelude Bitmap.

Local Open Scope Z_scope.

Definition MAX_PROCESS : Z := 10.

(** class PCB; the three semaphores are their values. *)
Record PCB := mkPCB {
  joinsem : Z;
  exitsem : Z;
  multex : Z;
  numwait : Z;
  pcb_id : Z;
  filename : list Z;
  exitcode : Z;
  parentID : Z;
}.

(** PCB::PCB leaves parentID as it is in fresh memory: [garbage]. *)
Definition PCB_new (garbage id : Z) : PCB := mkPCB 0 0 1 0 id [] 0 garbage.

Definition SetFileName (p : PCB) (fn : list Z) : PCB :=
  mkPCB (joinsem p) (exitsem p) (multex p) (numwait p) (pcb_id p) fn (exitcode p) (parentID p).
Definition SetExitCode (p : PCB) (ec : Z) : PCB :=
  mkPCB (joinsem p) (exitsem p) (multex p) (numwait p) (pcb_id p) (filename p) ec (parentID p).
Definition set_parent (p : PCB) (parent : Z) : PCB :=
  mkPCB (joinsem p) (exitsem p) (multex p) (numwait p) (pcb_id p) (filename p) (exitcode p) parent.
Definition add_numwait (p : PCB) (d : Z) : PCB :=
  mkPCB (joinsem p) (exitsem p) (multex p) (s32 (numwait p + d)) (pcb_id p) (filename p) (exitcode p) (parentID p).

(** The semaphores of the component: bmsem, and those of a PCB object. *)
Inductive sem_ref := BmSem | Multex (o : Z) | JoinSem (o : Z) | ExitSem (o : Z).

#[export] Instance sem_ref_eq_dec : EqDecision sem_ref.
Proof. solve_decision. Defined.

(** Where a thread goes on.  [User r]: in user mode, the last call returned
    [r].  X: ExecUpdate, J: JoinUpdate, E: ExitUpdate and Remove. *)
Inductive point :=
| User (r : Z)
| Started
| X_open (file : list Z)
| X_fork (pid o : Z)
| X_multex (pid o : Z)
| X_done (pid : Z)
| J_inc (pid o : Z)
| J_wait (pid : Z)
| J_code (pid : Z)
| E_dec (ec o : Z)
| E_join (ec : Z)
| E_exit (ec : Z)
| E_remove (ec : Z)
| E_clear (ec : Z)
| E_finish (ec : Z).

Inductive control := At (p : point) | Asleep (s : sem_ref) (p : point).

(** The fields of a Thread that matter here: pid, parentID, and where it is. *)
Record Thread := mkThread { t_pid : Z; t_parent : Z; t_ctl : control }.

Definition set_ctl (th : Thread) (c : control) : Thread := mkThread (t_pid th) (t_parent th) c.

(** The system calls, and what the rest of the kernel decides: whether the
    executable can be opened, and whether the name of the caller's thread
    compares equal to it (the name of a thread made by Exec points into a buffer
    that has been deleted). *)
Inductive request := Exec (file : list Z) | Join (pid : Z) | Exit (ec : Z).
Record choice := mkChoice { opened : bool; same_name : bool }.

Section ProcTable.
Context {B : Type} `{BitAlloc B}.

(** class PTable, the PCB objects, and the threads of the processes. *)
Record PTable := mkPTable {
  pcb : list (option Z);
  bm : B;
  bmsem : Z;
  heap : gmap Z PCB;
  next : Z;
  threads : gmap Z Thread;
}.

Definition set_heap (s : PTable) (h : gmap Z PCB) : PTable :=
  mkPTable (pcb s) (bm s) (bmsem s) h (next s) (threads s).
Definition set_thread (s : PTable) (t : Z) (th : Thread) : PTable :=
  mkPTable (pcb s) (bm s) (bmsem s) (heap s) (next s) (<[t := th]> (threads s)).
Definition set_bmsem (s : PTable) (v : Z) : PTable :=
  mkPTable (pcb s) (bm s) v (heap s) (next s) (threads s).
Definition set_bm (s : PTable) (b : B) : PTable :=
  mkPTable (pcb s) b (bmsem s) (heap s) (next s) (threads s).
Definition set_pcb (s : PTable) (p : list (option Z)) : PTable :=
  mkPTable p (bm s) (bmsem s) (heap s) (next s) (threads s).

(** *o for a PCB pointer, and the PCB pcb[i] points to. *)
Definition obj (s : PTable) (o : Z) : outcome PCB :=
  match heap s !! o with Some p => Ok p | None => Undef end.

Definition slot (s : PTable) (i : Z) : outcome (Z * PCB) :=
  x ← aget (pcb s) i;
  match x with
  | Some o => p ← obj s o; Ok (o, p)
  | None => Undef
  end.

Definition put_obj (s : PTable) (o : Z) (p : PCB) : PTable := set_heap s (<[o := p]> (heap s)).

(** ** Semaphores *)

Definition sem_value (s : PTable) (r : sem_ref) : option Z :=
  match r with
  | BmSem => Some (bmsem s)
  | Multex o => multex <$> heap s !! o
  | JoinSem o => joinsem <$> heap s !! o
  | ExitSem o => exitsem <$> heap s !! o
  end.

Definition upd_sem (p : PCB) (r : sem_ref) (v : Z) : PCB :=
  match r with
  | Multex _ => mkPCB (joinsem p) (exitsem p) v (numwait p) (pcb_id p) (filename p) (exitcode p) (parentID p)
  | JoinSem _ => mkPCB v (exitsem p) (multex p) (numwait p) (pcb_id p) (filename p) (exitcode p) (parentID p)
  | ExitSem _ => mkPCB (joinsem p) v (multex p) (numwait p) (pcb_id p) (filename p) (exitcode p) (parentID p)
  | BmSem => p
  end.

Definition set_sem (s : PTable) (r : sem_ref) (v : Z) : PTable :=
  match r with
  | BmSem => set_bmsem s v
  | Multex o | JoinSem o | ExitSem o => set_heap s (alter (λ p, upd_sem p r v) o (heap s))
  end.

(** A call of P and of V in thread [t], which then goes on at [k]. *)
Definition P (s : PTable) (t : Z) (th : Thread) (r : sem_ref) (k : point) : outcome PTable :=
  match sem_value s r with
  | None => Undef
  | Some v =>
      if v =? 0 then Ok (set_thread s t (set_ctl th (Asleep r k)))
      else Ok (set_thread (set_sem s r (v - 1)) t (set_ctl th (At k)))
  end.

Definition V (s : PTable) (t : Z) (th : Thread) (r : sem_ref) (k : point) : outcome PTable :=
  match sem_value s r with
  | None => Undef
  | Some v => Ok (set_thread (set_sem s r (v + 1)) t (set_ctl th (At k)))
  end.

(** The call returns [r] to the user program. *)
Definition return_ (s : PTable) (t : Z) (th : Thread) (r : Z) : outcome PTable :=
  Ok (set_thread s t (set_ctl th (At (User r)))).

Definition GetFileName (s : PTable) (id : Z) : outcome (list Z) :=
  '(_, p) ← slot s id; Ok (filename p).

(** PTable::~PTable: the PCB objects the table points to. *)
Definition delete_entry (s : PTable) (i : Z) : outcome PTable :=
  x ← aget (pcb s) i;
  match x with
  | Some o =>
      t ← aset (pcb s) i None;
      Ok (set_pcb (set_heap s (delete o (heap s))) t)
  | None => Ok s
  end.

Definition PTable_delete (s : PTable) : outcome PTable := foldM delete_entry s (seqZ 0 MAX_PROCESS).

(** ** The entry of a system call *)

Definition IsExist (s : PTable) (pid : Z) : outcome bool := ba_Test (bm s) pid.

Definition JoinUpdate (s : PTable) (t : Z) (th : Thread) (pid : Z) : outcome PTable :=
  e ← IsExist s pid;
  if negb e then return_ s t th (-1)
  else
    '(_, p) ← slot s pid;
    if negb (t_pid th =? parentID p) then return_ s t th (-1)
    else
      '(o, _) ← slot s (parentID p);
      P s t th (Multex o) (J_inc pid o).

Definition ExitUpdate (s : PTable) (t : Z) (th : Thread) (ec : Z) : outcome PTable :=
  let pid := t_pid th in
  if pid =? 0 then Halted
  else
    e ← IsExist s pid;
    if negb e then Ok (set_thread s t (set_ctl th (At (E_finish ec))))
    else
      '(o, p) ← slot s pid;
      let s := put_obj s o (SetExitCode p ec) in
      '(o', _) ← slot s (parentID p);
      P s t th (Multex o') (E_dec ec o').

Definition enter (s : PTable) (t : Z) (th : Thread) (c : request) : outcome PTable :=
  match c with
  | Exec f => P s t th BmSem (X_open f)
  | Join pid => JoinUpdate s t th pid
  | Exit ec => ExitUpdate s t th ec
  end.

(** ** The rest of the calls, a segment at a time *)

(** ExecUpdate after bmsem->P(), up to multex->P() in PCB::Exec. *)
Definition ExecUpdate (s : PTable) (t : Z) (th : Thread) (f : list Z) (c : choice) : outcome PTable :=
  if negb (opened c) then V s t th BmSem (User (-1))
  else if same_name c then V s t th BmSem (User (-1))
  else
    '(pid, b) ← ba_Find (bm s);
    let s := set_bm s b in
    if pid <? 0 then V s t th BmSem (User (-1))
    else
      let o := next s in
      let p := set_parent (SetFileName (PCB_new 0 pid) f) (t_pid th) in
      t' ← aset (pcb s) pid (Some o);
      let s := mkPTable t' (bm s) (bmsem s) (<[o := p]> (heap s)) (o + 1) (threads s) in
      P s t th (Multex o) (X_fork pid o).

(** PCB::Exec: the new thread, and Fork. *)
Definition fork_process (s : PTable) (t : Z) (th : Thread) (pid o : Z) : outcome PTable :=
  let t' := fresh (dom (threads s)) in
  let s := set_thread s t (set_ctl th (At (X_multex pid o))) in
  Ok (set_thread s t' (mkThread pid (t_pid th) (At Started))).

(** Remove after bmsem->P(). *)
Definition Remove (s : PTable) (pid : Z) : outcome PTable :=
  b ← ba_Clear (bm s) pid;
  let s := set_bm s b in
  x ← aget (pcb s) pid;
  match x with
  | Some o =>
      t ← aset (pcb s) pid None;
      Ok (set_pcb (set_heap s (delete o (heap s))) t)
  | None => Ok s
  end.

Definition segment (s : PTable) (t : Z) (th : Thread) (p : point) (c : choice) : outcome PTable :=
  match p with
  | User _ => Ok s
  | Started => _ ← GetFileName s (t_pid th); return_ s t th 0
  | X_open f => ExecUpdate s t th f c
  | X_fork pid o => fork_process s t th pid o
  | X_multex pid o => V s t th (Multex o) (X_done pid)
  | X_done pid => V s t th BmSem (User pid)
  | J_inc pid o => p ← obj s o; V (put_obj s o (add_numwait p 1)) t th (Multex o) (J_wait pid)
  | J_wait pid => '(o, _) ← slot s pid; P s t th (JoinSem o) (J_code pid)
  | J_code pid => '(o, p) ← slot s pid; V s t th (ExitSem o) (User (exitcode p))
  | E_dec ec o => p ← obj s o; V (put_obj s o (add_numwait p (-1))) t th (Multex o) (E_join ec)
  | E_join ec => '(o, _) ← slot s (t_pid th); V s t th (JoinSem o) (E_exit ec)
  | E_exit ec => '(o, _) ← slot s (t_pid th); P s t th (ExitSem o) (E_remove ec)
  | E_remove ec => P s t th BmSem (E_clear ec)
  | E_clear ec => s ← Remove s (t_pid th); V s t th BmSem (E_finish ec)
  | E_finish ec => Ok (mkPTable (pcb s) (bm s) (bmsem s) (heap s) (next s) (delete t (threads s)))
  end.

(** ** Steps of the system *)

Inductive action := Call (t : Z) (c : request) | Run (t : Z) (c : choice) | Wake (t : Z).

(** The thread that acts. *)
Definition actor (a : action) : Z := match a with Call t _ | Run t _ | Wake t => t end.

(** What an action does; None when it is not enabled. *)
Definition act (s : PTable) (a : action) : option (outcome PTable) :=
  th ← threads s !! actor a;
  match a, t_ctl th with
  | Call t c, At (User _) => Some (enter s t th c)
  | Call _ _, _ => None
  | Run t c, At (User _) => None
  | Run t c, At p => Some (segment s t th p c)
  | Run _ _, _ => None
  | Wake t, Asleep r k =>
      match sem_value s r with
      | Some v => if v =? 0 then None else Some (Ok (set_thread (set_sem s r (v - 1)) t (set_ctl th (At k))))
      | None => None
      end
  | Wake _, _ => None
  end.

(** PTable::PTable(MAX_PROCESS) in the main thread, which is process 0 and runs
    the thread [t0]. *)
Definition PTable_new (b : B) (garbage t0 : Z) (name : list Z) : outcome PTable :=
  b ← ba_Mark b 0;
  t ← aset (replicate (Z.to_nat MAX_PROCESS) None) 0 (Some 0);
  Ok (mkPTable t b 1 {[0 := SetFileName (PCB_new garbage 0) name]} 1
        {[t0 := mkThread 0 garbage (At (User 0))]}).

(** States reached from [s0] by actions that return. *)
Inductive reachable (s0 : PTable) : PTable → Prop :=
| r_refl : reachable s0 s0
| r_step s a s' : reachable s0 s → act s a = Some (Ok s') → reachable s0 s'.

(** A schedule; None when an action is not enabled. *)
Fixpoint run (s : PTable) (l : list action) : option (outcome PTable) :=
  match l with
  | [] => Some (Ok s)
  | a :: l => match act s a with
              | Some (Ok s') => run s' l
              | r => r
              end
  end.
End ProcTable.

Arguments PTable : clear implicits.
