(* ===== verification/ProcTableProofs.v ===== *)
(** * Theorems on the process table

    The invariant of the table under any interleaving of the calls of user
    programs, and what follows for Join and Exit. *)

From Stdlib Require Import ZArith Lia Bool.
From S2P Require Import Prelude Bitmap ProcTable.

Local Open Scope Z_scope.

(** ** Where a thread is in the protocol *)

(** 0: the process has not announced its exit (JoinRelease); 1: it has, and has
    not got permission to exit (ExitWait); 2: it has permission, its entry is
    still there; 3: the entry is removed. *)
Definition stage (c : control) : nat :=
  match c with
  | At (E_exit _) | Asleep _ (E_remove _) => 1
  | At (E_remove _) | Asleep _ (E_clear _) | At (E_clear _) => 2
  | At (E_finish _) => 3
  | _ => 0
  end.

(** The code the process exits with, once it is stored in its PCB. *)
Definition exiting (c : control) : option Z :=
  match c with
  | At (E_dec ec _) | At (E_join ec) | At (E_exit ec) | At (E_remove ec) | At (E_clear ec)
  | Asleep _ (E_dec ec _) | Asleep _ (E_remove ec) | Asleep _ (E_clear ec) => Some ec
  | _ => None
  end.

(** The entry a thread is filling, before the new process has its thread. *)
Definition creating (c : control) : option (Z * Z) :=
  match c with
  | At (X_fork pid o) | Asleep _ (X_fork pid o) => Some (pid, o)
  | _ => None
  end.

(** The process whose exit code a thread is about to read. *)
Definition jcode (c : control) : option Z :=
  match c with At (J_code pid) => Some pid | _ => None end.

(** A thread inside the critical section of bmsem. *)
Definition inside (c : control) : bool :=
  match c with
  | At (X_open _) | At (X_fork _ _) | Asleep _ (X_fork _ _) | At (X_multex _ _) | At (X_done _)
  | At (E_clear _) => true
  | _ => false
  end.

Section Invariant.
Context {B : Type} `{BitAllocLaws B}.

Implicit Types (s : PTable B) (t o i : Z) (th : Thread) (p : PCB).

Definition entry s i o : Prop := 0 <= i ∧ pcb s !! Z.to_nat i = Some (Some o).

Definition stage1 s i : Prop :=
  ∃ t th, threads s !! t = Some th ∧ t_pid th = i ∧ stage (t_ctl th) = 1%nat.

Definition no_join s i : Prop := ∀ t th, threads s !! t = Some th → jcode (t_ctl th) ≠ Some i.

Definition one_join s i : Prop :=
  ∃ t th, threads s !! t = Some th ∧ jcode (t_ctl th) = Some i ∧
    ∀ t' th', threads s !! t' = Some th' → jcode (t_ctl th') = Some i → t' = t.

(** The semaphores of a PCB follow the protocol. *)
Definition quiet s p : Prop := joinsem p = 0 ∧ exitsem p = 0 ∧ no_join s (pcb_id p).

Definition leaving s p : Prop :=
  (joinsem p = 1 ∧ exitsem p = 0 ∧ no_join s (pcb_id p)) ∨
  (joinsem p = 0 ∧ exitsem p = 0 ∧ one_join s (pcb_id p)) ∨
  (joinsem p = 0 ∧ exitsem p = 1 ∧ no_join s (pcb_id p)).

Definition sync s p : Prop :=
  (stage1 s (pcb_id p) ∧ leaving s p) ∨ (¬ stage1 s (pcb_id p) ∧ quiet s p).

(** A sleeping thread sleeps where the code lets it. *)
Definition asleep_ok s i (c : control) : Prop :=
  match c with
  | Asleep (JoinSem o) k => ∃ j, k = J_code j ∧ 0 <= j < MAX_PROCESS ∧ o < next s ∧
      ∀ p, heap s !! o = Some p → pcb_id p = j
  | Asleep (ExitSem o) k => (∃ ec, k = E_remove ec) ∧ entry s i o
  | Asleep BmSem k => (∃ f, k = X_open f) ∨ (∃ ec, k = E_clear ec)
  | Asleep (Multex o) k => (∃ pid, k = X_fork pid o) ∨ (∃ pid, k = J_inc pid o) ∨ (∃ ec, k = E_dec ec o)
  | At _ => True
  end.

Record inv s : Prop := {
  i_bm : ba_ok (bm s) ∧ ba_size (bm s) = MAX_PROCESS;
  i_len : length (pcb s) = Z.to_nat MAX_PROCESS;
  i_used i : i ∈ ba_used (bm s) ↔ ∃ o, entry s i o;
  i_entry i o : entry s i o → ∃ p, heap s !! o = Some p ∧ pcb_id p = i;
  i_heap o p : heap s !! o = Some p → o < next s ∧ entry s (pcb_id p) o;
  i_owner t th : threads s !! t = Some th → stage (t_ctl th) ≠ 3%nat → ∃ o, entry s (t_pid th) o;
  i_unique t t' th th' : threads s !! t = Some th → threads s !! t' = Some th' →
    stage (t_ctl th) ≠ 3%nat → stage (t_ctl th') ≠ 3%nat → t_pid th = t_pid th' → t = t';
  i_create t th pid o : threads s !! t = Some th → creating (t_ctl th) = Some (pid, o) →
    entry s pid o ∧
    (∀ t' th', threads s !! t' = Some th' → stage (t_ctl th') ≠ 3%nat → t_pid th' ≠ pid) ∧
    (∀ t' th' o', threads s !! t' = Some th' → creating (t_ctl th') = Some (pid, o') → t' = t);
  i_sync o p : heap s !! o = Some p → sync s p;
  i_join t th i : threads s !! t = Some th → jcode (t_ctl th) = Some i → ∃ o, entry s i o;
  i_code t th ec : threads s !! t = Some th → exiting (t_ctl th) = Some ec →
    ∃ o p, entry s (t_pid th) o ∧ heap s !! o = Some p ∧ exitcode p = ec;
  i_asleep t th : threads s !! t = Some th → asleep_ok s (t_pid th) (t_ctl th);
}.

Lemma entry_range s i o : inv s → entry s i o → 0 <= i < MAX_PROCESS.
Proof.
  intros Hi [Hge He]. apply lookup_lt_Some in He. rewrite (i_len _ Hi) in He. lia.
Qed.

Lemma entry_unique s i o o' : entry s i o → entry s i o' → o = o'.
Proof. intros [_ H1] [_ H2]. congruence. Qed.

Lemma entry_inj s i i' o : inv s → entry s i o → entry s i' o → i = i'.
Proof.
  intros Hi H1 H2. destruct (i_entry _ Hi _ _ H1) as (p & Hp & <-).
  destruct (i_entry _ Hi _ _ H2) as (p' & Hp' & <-). congruence.
Qed.

Lemma slot_entry s i o p : slot s i = Ok (o, p) ↔ entry s i o ∧ heap s !! o = Some p.
Proof.
  unfold slot, entry, obj. split.
  - intros Hs. apply bind_Ok_inv in Hs as (x & Hx & Hs). apply aget_Ok in Hx as [Hge Hx].
    destruct x as [o'|]; [|done]. apply bind_Ok_inv in Hs as (p' & Hp & Hs). injection Hs as <- <-.
    destruct (heap s !! o') eqn:E; [|done]. by injection Hp as <-.
  - intros [[Hge Hx] Hp]. rewrite (proj2 (aget_Ok (pcb s) i (Some o))) by done. simpl. by rewrite Hp.
Qed.

(** ** Moving one thread *)

(** The parts of the objects that stay when a thread moves. *)
Definition core p : Z * Z := (pcb_id p, exitcode p).

Definition same_objs (h h' : gmap Z PCB) : Prop := ∀ o, core <$> h' !! o = core <$> h !! o.

Lemma same_objs_r h h' o p' : same_objs h h' → h' !! o = Some p' →
  ∃ p, h !! o = Some p ∧ pcb_id p' = pcb_id p ∧ exitcode p' = exitcode p.
Proof.
  intros Hs Hp. specialize (Hs o). rewrite Hp in Hs. destruct (h !! o) as [p|]; [|done].
  apply (inj Some) in Hs. injection Hs as Hid Hec. eauto.
Qed.

Lemma same_objs_l h h' o p : same_objs h h' → h !! o = Some p →
  ∃ p', h' !! o = Some p' ∧ pcb_id p' = pcb_id p ∧ exitcode p' = exitcode p.
Proof.
  intros Hs Hp. specialize (Hs o). rewrite Hp in Hs. destruct (h' !! o) as [p'|]; [|done].
  apply (inj Some) in Hs. injection Hs as Hid Hec. eauto.
Qed.

Record moved s s' t th (c : control) : Prop := {
  mv_old : threads s !! t = Some th;
  mv_threads : threads s' = <[t := set_ctl th c]> (threads s);
  mv_pcb : pcb s' = pcb s;
  mv_bm : bm s' = bm s;
  mv_next : next s' = next s;
  mv_objs : same_objs (heap s) (heap s');
}.

Lemma moved_lookup s s' t th c t' th' : moved s s' t th c → threads s' !! t' = Some th' →
  (t' = t ∧ th' = set_ctl th c) ∨ (t' ≠ t ∧ threads s !! t' = Some th').
Proof. intros [_ -> _ _ _ _] Hl. apply lookup_insert_Some in Hl as [[<- <-]|[? ?]]; auto. Qed.

Lemma moved_new s s' t th c : moved s s' t th c → threads s' !! t = Some (set_ctl th c).
Proof. intros [_ -> _ _ _ _]. apply lookup_insert_eq. Qed.

Lemma moved_other s s' t th c t' th' : moved s s' t th c → t' ≠ t →
  threads s !! t' = Some th' → threads s' !! t' = Some th'.
Proof. intros [_ -> _ _ _ _] Hne Hl. by rewrite lookup_insert_ne. Qed.

Lemma moved_entry s s' t th c i o : moved s s' t th c → entry s' i o ↔ entry s i o.
Proof. intros Hm. unfold entry. by rewrite (mv_pcb _ _ _ _ _ Hm). Qed.

Lemma asleep_moved s s' t th c i c0 : moved s s' t th c → asleep_ok s i c0 → asleep_ok s' i c0.
Proof.
  intros Hm. destruct c0 as [pt|[| |o|o] k]; simpl; try done.
  - intros (j & -> & Hr & Hn & Hp). exists j. rewrite (mv_next _ _ _ _ _ Hm). split_and!; try done; try lia.
    intros p' Hp'. destruct (same_objs_r _ _ _ _ (mv_objs _ _ _ _ _ Hm) Hp') as (p & Hp0 & -> & _). by apply Hp.
  - intros [? ?]. split; [done|by eapply moved_entry].
Qed.

(** Nobody runs as process [i], and nobody creates it. *)
Definition vacant s i : Prop :=
  (∀ t th, threads s !! t = Some th → stage (t_ctl th) ≠ 3%nat → t_pid th ≠ i) ∧
  (∀ t th o, threads s !! t = Some th → creating (t_ctl th) ≠ Some (i, o)).

(** The invariant after a move, up to the semaphores of the protocol. *)
Lemma inv_move s s' t th c : inv s → moved s s' t th c →
  stage (t_ctl th) ≠ 3%nat →
  (∀ pid o, creating c = Some (pid, o) → creating (t_ctl th) = Some (pid, o) ∨ (entry s pid o ∧ vacant s pid)) →
  (∀ i, jcode c = Some i → ∃ o, entry s i o) →
  (∀ ec, exiting c = Some ec → ∃ o p, entry s (t_pid th) o ∧ heap s !! o = Some p ∧ exitcode p = ec) →
  asleep_ok s (t_pid th) c → (∀ o p', heap s' !! o = Some p' → sync s' p') → inv s'.
Proof.
  intros Hi Hm Hst0 Hcr Hj Hex Has Hsync.
  assert (He : ∀ i o, entry s' i o ↔ entry s i o) by (intros; by eapply moved_entry).
  assert (Hback : ∀ t' th', threads s' !! t' = Some th' → ∃ th0, threads s !! t' = Some th0 ∧
    t_pid th0 = t_pid th' ∧ (stage (t_ctl th') ≠ 3%nat → stage (t_ctl th0) ≠ 3%nat) ∧
    ∀ pid o, creating (t_ctl th') = Some (pid, o) → creating (t_ctl th0) = Some (pid, o) ∨
      (t' = t ∧ entry s pid o ∧ vacant s pid)).
  { intros t' th' Hl. destruct (moved_lookup _ _ _ _ _ _ _ Hm Hl) as [[-> ->]|[_ Hl']]; [|eauto 10].
    exists th. split; [apply Hm|]. simpl. naive_solver. }
  pose proof (mv_objs _ _ _ _ _ Hm) as Hh. pose proof Hm as [Hold Hthr Hpcb Hbm Hnext _].
  split.
  - rewrite Hbm. apply Hi.
  - rewrite Hpcb. apply Hi.
  - intros i. rewrite Hbm, (i_used _ Hi). by setoid_rewrite He.
  - intros i o Hen%He. destruct (i_entry _ Hi _ _ Hen) as (p & Hp & <-).
    destruct (same_objs_l _ _ _ _ Hh Hp) as (p' & Hp' & Hid & _). eauto.
  - intros o p' Hp'. destruct (same_objs_r _ _ _ _ Hh Hp') as (p & Hp & -> & _).
    rewrite Hnext, He. by apply (i_heap _ Hi).
  - intros t' th' Hl Hne. destruct (Hback _ _ Hl) as (th0 & Hl0 & <- & Hs & _). setoid_rewrite He.
    eapply (i_owner _ Hi); [done|auto].
  - intros t1 t2 th1 th2 Hl1 Hl2 Hn1 Hn2 Heq.
    destruct (Hback _ _ Hl1) as (th3 & Hl3 & ? & ? & _), (Hback _ _ Hl2) as (th4 & Hl4 & ? & ? & _).
    eapply (i_unique _ Hi); [done|done|auto|auto|congruence].
  - intros t' th' pid o Hl Hc. destruct (Hback _ _ Hl) as (th0 & Hl0 & _ & _ & Hcc).
    destruct (Hcc pid o Hc) as [Hc0|(-> & H1 & H2 & H3)].
    + destruct (i_create _ Hi _ _ _ _ Hl0 Hc0) as (H1 & H2 & H3). split_and!.
      * by apply He.
      * intros t2 th2 Hl2 Hn2. destruct (Hback _ _ Hl2) as (th3 & Hl3 & <- & ? & _). eapply H2; [done|auto].
      * intros t2 th2 o2 Hl2 Hc2. destruct (Hback _ _ Hl2) as (th3 & Hl3 & _ & _ & Hc3).
        destruct (Hc3 _ _ Hc2) as [Hc4|(-> & _ & _ & Hv)]; [by apply (H3 t2 th3 o2)|by destruct (Hv _ _ o Hl0)].
    + split_and!.
      * by apply He.
      * intros t2 th2 Hl2 Hn2. destruct (Hback _ _ Hl2) as (th3 & Hl3 & <- & ? & _). eapply H2; [done|auto].
      * intros t2 th2 o2 Hl2 Hc2. destruct (Hback _ _ Hl2) as (th3 & Hl3 & _ & _ & Hc3).
        destruct (Hc3 _ _ Hc2) as [Hc4|(-> & _)]; [by destruct (H3 _ _ o2 Hl3)|done].
  - done.
  - intros t' th' i Hl Hjc. setoid_rewrite He.
    destruct (moved_lookup _ _ _ _ _ _ _ Hm Hl) as [[-> ->]|[_ Hl']]; [by apply Hj|by eapply (i_join _ Hi)].
  - intros t' th' ec Hl Hec.
    assert (Hc : ∃ o p, entry s (t_pid th') o ∧ heap s !! o = Some p ∧ exitcode p = ec).
    { destruct (moved_lookup _ _ _ _ _ _ _ Hm Hl) as [[-> ->]|[_ Hl']]; [by apply Hex|by eapply (i_code _ Hi)]. }
    destruct Hc as (o & p & Hen & Hp & <-). destruct (same_objs_l _ _ _ _ Hh Hp) as (p' & Hp' & _ & Hx).
    exists o, p'. split_and!; [by apply He|done|done].
  - intros t' th' Hl. eapply asleep_moved; [done|].
    destruct (moved_lookup _ _ _ _ _ _ _ Hm Hl) as [[-> ->]|[_ Hl']]; [done|by eapply (i_asleep _ Hi)].
Qed.

(** Processes a move does not concern. *)
Lemma stage1_other s s' t th c i : moved s s' t th c → (stage c = 1 ↔ stage (t_ctl th) = 1)%nat ∨ t_pid th ≠ i →
  stage1 s' i ↔ stage1 s i.
Proof.
  intros Hm Hor. split; intros (t' & th' & Hl & Hp & H1).
  - destruct (moved_lookup _ _ _ _ _ _ _ Hm Hl) as [[-> ->]|[_ Hl']]; [|by exists t', th'].
    exists t, th. split; [apply Hm|]. simpl in *. destruct Hor; [naive_solver|done].
  - destruct (decide (t' = t)) as [->|Hne].
    + rewrite (mv_old _ _ _ _ _ Hm) in Hl. injection Hl as <-. exists t, (set_ctl th c).
      split; [by eapply moved_new|]. simpl. destruct Hor; [naive_solver|done].
    + exists t', th'. split; [by eapply moved_other|done].
Qed.

Lemma no_join_moved s s' t th c i : moved s s' t th c → jcode c ≠ Some i →
  (∀ t' th', threads s !! t' = Some th' → jcode (t_ctl th') = Some i → t' = t) → no_join s' i.
Proof.
  intros Hm Hc Hu t' th' Hl Hj. destruct (moved_lookup _ _ _ _ _ _ _ Hm Hl) as [[-> ->]|[Hne Hl']]; [done|].
  apply Hne. by eapply Hu.
Qed.

Lemma one_join_moved s s' t th c i : moved s s' t th c → jcode c ≠ Some i → jcode (t_ctl th) ≠ Some i →
  one_join s i → one_join s' i.
Proof.
  intros Hm Hc Hc0 (t' & th' & Hl & Hj & Hu).
  assert (Hne : t' ≠ t).
  { intros ->. rewrite (mv_old _ _ _ _ _ Hm) in Hl. injection Hl as <-. done. }
  exists t', th'. split; [by eapply moved_other|]. split; [done|]. intros t2 th2 Hl2 Hj2.
  destruct (moved_lookup _ _ _ _ _ _ _ Hm Hl2) as [[-> ->]|[_ Hl3]]; [done|by eapply Hu].
Qed.

Lemma sync_other s s' t th c p p' : moved s s' t th c → pcb_id p' = pcb_id p →
  joinsem p' = joinsem p → exitsem p' = exitsem p →
  jcode c ≠ Some (pcb_id p) → jcode (t_ctl th) ≠ Some (pcb_id p) →
  (stage c = 1 ↔ stage (t_ctl th) = 1)%nat ∨ t_pid th ≠ pcb_id p → sync s p → sync s' p'.
Proof.
  intros Hm Hid Hjs Hxs Hc Hc0 Hst Hs. unfold sync, leaving, quiet in *. rewrite Hid, Hjs, Hxs.
  rewrite (stage1_other s s' t th c) by done.
  assert (Hnj : no_join s (pcb_id p) → no_join s' (pcb_id p)).
  { intros Hn. eapply no_join_moved; [done|done|]. intros t' th' Hl Hj. by destruct (Hn t' th' Hl). }
  pose proof (one_join_moved s s' t th c (pcb_id p) Hm Hc Hc0). naive_solver.
Qed.

(** A step that takes no part in the protocol. *)
Lemma sync_local s s' t th c : inv s → moved s s' t th c →
  (∀ o p p', heap s !! o = Some p → heap s' !! o = Some p' → joinsem p' = joinsem p ∧ exitsem p' = exitsem p) →
  (stage c = 1 ↔ stage (t_ctl th) = 1)%nat → jcode c = None → jcode (t_ctl th) = None →
  ∀ o p', heap s' !! o = Some p' → sync s' p'.
Proof.
  intros Hi Hm Hh Hst Hj Hj0 o p' Hp'.
  destruct (same_objs_r _ _ _ _ (mv_objs _ _ _ _ _ Hm) Hp') as (p & Hp & Hid & _).
  destruct (Hh o p p' Hp Hp') as [Hjs Hxs]. eapply (sync_other s s' t th c p p'); try done.
  - by rewrite Hj.
  - by rewrite Hj0.
  - by left.
  - by apply (i_sync _ Hi o).
Qed.

Lemma inv_local s s' t th c : inv s → moved s s' t th c →
  (∀ o p p', heap s !! o = Some p → heap s' !! o = Some p' → joinsem p' = joinsem p ∧ exitsem p' = exitsem p) →
  stage c = stage (t_ctl th) → stage c ≠ 3%nat → creating c = creating (t_ctl th) →
  jcode c = None → jcode (t_ctl th) = None →
  (∀ ec, exiting c = Some ec → exiting (t_ctl th) = Some ec ∨
     ∃ o p, entry s (t_pid th) o ∧ heap s !! o = Some p ∧ exitcode p = ec) →
  asleep_ok s (t_pid th) c → inv s'.
Proof.
  intros Hi Hm Hh Hst Hn3 Hcr Hj Hj0 Hex Has. eapply inv_move; [done|done|congruence|rewrite Hcr; by left| | |done|].
  - rewrite Hj. done.
  - intros ec Hec. destruct (Hex ec Hec) as [Hold|]; [|done]. eapply (i_code _ Hi); [apply Hm|done].
  - eapply sync_local; try done. by rewrite Hst.
Qed.

(** A step of the protocol on the process [i], whose PCB is [o]. *)
Lemma inv_protocol s s' t th c i o p : inv s → moved s s' t th c → entry s i o → heap s !! o = Some p →
  (∀ o2 p2 p2', o2 ≠ o → heap s !! o2 = Some p2 → heap s' !! o2 = Some p2' →
     joinsem p2' = joinsem p2 ∧ exitsem p2' = exitsem p2) →
  stage (t_ctl th) ≠ 3%nat → stage c ≠ 3%nat → creating c = creating (t_ctl th) →
  jcode c = None ∨ jcode c = Some i → jcode (t_ctl th) = None ∨ jcode (t_ctl th) = Some i →
  stage c = stage (t_ctl th) ∨ t_pid th = i →
  (∀ ec, exiting c = Some ec → exiting (t_ctl th) = Some ec) →
  asleep_ok s (t_pid th) c → (∀ p', heap s' !! o = Some p' → pcb_id p' = i → sync s' p') → inv s'.
Proof.
  intros Hi Hm He Hp Hoth Hst0 Hst Hcr Hj Hj0 Hsp Hex Has Hsync.
  destruct (i_entry _ Hi _ _ He) as (p0 & Hp0 & Hid0). rewrite Hp in Hp0. injection Hp0 as <-.
  eapply inv_move; try done.
  - rewrite Hcr. by left.
  - intros i' Hji. destruct Hj as [Hj|Hj]; rewrite Hj in Hji; [done|]. injection Hji as <-. eauto.
  - intros ec Hec%Hex. eapply (i_code _ Hi); [apply Hm|done].
  - intros o2 p2' Hp2'. destruct (same_objs_r _ _ _ _ (mv_objs _ _ _ _ _ Hm) Hp2') as (p2 & Hp2 & Hid2 & _).
    destruct (decide (o2 = o)) as [->|Hne].
    { apply Hsync; [done|]. congruence. }
    assert (Hni : pcb_id p2 ≠ i).
    { intros Heq. apply Hne. destruct (i_heap _ Hi _ _ Hp2) as [_ He2]. rewrite Heq in He2. by eapply entry_unique. }
    destruct (Hoth o2 p2 p2' Hne Hp2 Hp2') as [Hjs Hxs]. eapply (sync_other s s' t th c p2 p2'); try done.
    + destruct Hj as [-> | ->]; congruence.
    + destruct Hj0 as [-> | ->]; congruence.
    + destruct Hsp as [Hsp|Hsp]; [left; by rewrite Hsp|right; congruence].
    + by apply (i_sync _ Hi o2).
Qed.

(** At stage 1 a positive joinsem or exitsem tells where the protocol is. *)
Lemma sync_join s p : sync s p → joinsem p ≠ 0 →
  stage1 s (pcb_id p) ∧ joinsem p = 1 ∧ exitsem p = 0 ∧ no_join s (pcb_id p).
Proof. unfold sync, leaving, quiet. naive_solver. Qed.

Lemma sync_exit s p : sync s p → exitsem p ≠ 0 → joinsem p = 0 ∧ exitsem p = 1 ∧ no_join s (pcb_id p).
Proof. unfold sync, leaving, quiet. naive_solver. Qed.

Lemma sync_jcode s p t th : sync s p → threads s !! t = Some th → jcode (t_ctl th) = Some (pcb_id p) →
  stage1 s (pcb_id p) ∧ joinsem p = 0 ∧ exitsem p = 0 ∧
  ∀ t' th', threads s !! t' = Some th' → jcode (t_ctl th') = Some (pcb_id p) → t' = t.
Proof.
  intros Hs Hl Hj. assert (Hnn : ¬ no_join s (pcb_id p)) by (intros Hn; by eapply Hn).
  destruct Hs as [[H1 [(_ & _ & ?)|[(? & ? & t0 & th0 & Hl0 & Hj0 & Hu)|(_ & _ & ?)]]]|[_ (_ & _ & ?)]]; try done.
  split_and!; try done. intros t' th' Hl' Hj'. rewrite (Hu t' th' Hl' Hj'). symmetry. by eapply Hu.
Qed.

(** The owner of an entry decides its stage. *)
Lemma owner_stage s t th : inv s → threads s !! t = Some th → stage (t_ctl th) ≠ 3%nat →
  stage1 s (t_pid th) ↔ stage (t_ctl th) = 1%nat.
Proof.
  intros Hi Hl Hn. split; [|intros H1; by exists t, th].
  intros (t' & th' & Hl' & Hp & H1).
  assert (t' = t) as ->. { eapply (i_unique _ Hi); [done|done|by rewrite H1|done|done]. }
  congruence.
Qed.

(** The four steps of the protocol. *)

(** 1. the exiting process releases its parent (joinsem->V) *)
Lemma inv_join_release s s' t th c o p : inv s → moved s s' t th c → entry s (t_pid th) o → heap s !! o = Some p →
  heap s' = <[o := upd_sem p (JoinSem o) (joinsem p + 1)]> (heap s) →
  stage (t_ctl th) = 0%nat → stage c = 1%nat → creating c = None → creating (t_ctl th) = None →
  jcode c = None → jcode (t_ctl th) = None → (∀ ec, exiting c = Some ec → exiting (t_ctl th) = Some ec) →
  asleep_ok s (t_pid th) c → inv s'.
Proof.
  intros Hi Hm He Hp Hh Hst0 Hst Hcr Hcr0 Hj Hj0 Hex Has.
  eapply (inv_protocol s s' t th c (t_pid th) o p); try done; try congruence; try (by left); try (by right).
  - intros o2 p2 p2' Hne Hp2. rewrite Hh, lookup_insert_ne by done. intros Hp2'. by simplify_eq.
  - intros p' Hp' Hid. rewrite Hh, lookup_insert_eq in Hp'. injection Hp' as <-. simpl in Hid.
    destruct (i_sync _ Hi _ _ Hp) as [[H1 _]|[_ (Hjs & Hxs & Hnj)]].
    { rewrite Hid in H1. apply (owner_stage s t th Hi (mv_old _ _ _ _ _ Hm)) in H1; congruence. }
    left. unfold leaving. simpl. rewrite Hid in *. split.
    + exists t, (set_ctl th c). split; [by eapply moved_new|done].
    + left. rewrite Hjs. split_and!; try done. eapply no_join_moved; [done|by rewrite Hj|].
      intros t' th' Hl' Hj'. by destruct (Hnj t' th' Hl').
Qed.

(** 2. the parent passes joinsem->P and is about to read the exit code *)
Lemma inv_join_take s s' t th i o p : inv s → moved s s' t th (At (J_code i)) → entry s i o → heap s !! o = Some p →
  joinsem p ≠ 0 → heap s' = <[o := upd_sem p (JoinSem o) (joinsem p - 1)]> (heap s) →
  stage (t_ctl th) = 0%nat → creating (t_ctl th) = None → jcode (t_ctl th) = None → inv s'.
Proof.
  intros Hi Hm He Hp Hpos Hh Hst0 Hcr0 Hj0.
  eapply (inv_protocol s s' t th _ i o p); try done; try congruence; try (by left); try (by right).
  - intros o2 p2 p2' Hne Hp2. rewrite Hh, lookup_insert_ne by done. intros Hp2'. by simplify_eq.
  - intros p' Hp' Hid. rewrite Hh, lookup_insert_eq in Hp'. injection Hp' as <-. simpl in Hid.
    destruct (sync_join s p (i_sync _ Hi _ _ Hp) Hpos) as (H1 & Hjs & Hxs & Hnj). rewrite Hid in *.
    left. unfold leaving. simpl. rewrite ?Hid. split; [eapply stage1_other; [done|left; by rewrite Hst0|done]|].
    right. left. rewrite Hjs. split_and!; try done. exists t, (set_ctl th (At (J_code i))).
    split; [by eapply moved_new|]. split; [done|]. intros t' th' Hl' Hj'.
    destruct (moved_lookup _ _ _ _ _ _ _ Hm Hl') as [[-> _]|[_ Hl2]]; [done|]. by destruct (Hnj t' th' Hl2).
Qed.

(** 3. the parent has read the exit code and releases the child (exitsem->V) *)
Lemma inv_exit_release s s' t th r i o p : inv s → moved s s' t th (At (User r)) → entry s i o → heap s !! o = Some p →
  t_ctl th = At (J_code i) → heap s' = <[o := upd_sem p (ExitSem o) (exitsem p + 1)]> (heap s) → inv s'.
Proof.
  intros Hi Hm He Hp Hc Hh. destruct (i_entry _ Hi _ _ He) as (p0 & Hp0 & Hid0). rewrite Hp in Hp0. injection Hp0 as <-.
  eapply (inv_protocol s s' t th _ i o p); rewrite ?Hc; try done; try (by left); try (by right).
  - intros o2 p2 p2' Hne Hp2. rewrite Hh, lookup_insert_ne by done. intros Hp2'. by simplify_eq.
  - intros p' Hp' Hid. rewrite Hh, lookup_insert_eq in Hp'. injection Hp' as <-. simpl in Hid.
    destruct (sync_jcode s p t th (i_sync _ Hi _ _ Hp)) as (H1 & Hjs & Hxs & Hu); [apply Hm|by rewrite Hc, Hid|].
    left. unfold leaving. simpl. rewrite Hid in *. split; [eapply stage1_other; [done|left; by rewrite Hc|done]|].
    right. right. rewrite Hxs. split_and!; try done. by eapply no_join_moved.
Qed.

(** 4. the exiting process passes exitsem->P *)
Lemma inv_exit_take s s' t th ec o p : inv s → moved s s' t th (At (E_remove ec)) → entry s (t_pid th) o →
  heap s !! o = Some p → exitsem p ≠ 0 → heap s' = <[o := upd_sem p (ExitSem o) (exitsem p - 1)]> (heap s) →
  stage (t_ctl th) = 1%nat → creating (t_ctl th) = None → jcode (t_ctl th) = None → exiting (t_ctl th) = Some ec → inv s'.
Proof.
  intros Hi Hm He Hp Hpos Hh Hst0 Hcr0 Hj0 Hex.
  eapply (inv_protocol s s' t th _ (t_pid th) o p); try done; try congruence; try (by left); try (by right).
  - intros o2 p2 p2' Hne Hp2. rewrite Hh, lookup_insert_ne by done. intros Hp2'. by simplify_eq.
  - intros ec' Hec. simpl in Hec. congruence.
  - intros p' Hp' Hid. rewrite Hh, lookup_insert_eq in Hp'. injection Hp' as <-. simpl in Hid.
    destruct (sync_exit s p (i_sync _ Hi _ _ Hp) Hpos) as (Hjs & Hxs & Hnj).
    right. unfold quiet. simpl. rewrite Hid in *. split.
    + intros (t' & th' & Hl' & Hp' & H1'). destruct (moved_lookup _ _ _ _ _ _ _ Hm Hl') as [[-> ->]|[Hne Hl2]]; [done|].
      apply Hne. eapply (i_unique _ Hi); [done|apply Hm|by rewrite H1'|by rewrite Hst0|done].
    + rewrite Hxs. split_and!; try done. eapply no_join_moved; [done|done|].
      intros t' th' Hl' Hj'. by destruct (Hnj t' th' Hl').
Qed.
(** ** Steps that change the table *)

(** [sync] reads only the threads. *)
Lemma sync_threads s s' p : threads s' = threads s → sync s p → sync s' p.
Proof. intros Heq. unfold sync, leaving, quiet, stage1, no_join, one_join. by rewrite Heq. Qed.

(** A thread that takes no part in the protocol. *)
Lemma sync_spectator s s' t th p : threads s !! t = None → threads s' = <[t := th]> (threads s) →
  stage (t_ctl th) ≠ 1%nat → jcode (t_ctl th) = None → sync s' p ↔ sync s p.
Proof.
  intros Hn Heq Hst Hj.
  assert (Hl : ∀ t' th', stage (t_ctl th') = 1%nat ∨ jcode (t_ctl th') ≠ None →
    threads s' !! t' = Some th' ↔ threads s !! t' = Some th').
  { intros t' th' Hor. rewrite Heq. destruct (decide (t' = t)) as [->|Hne].
    - rewrite lookup_insert_eq, Hn. split; [|done]. intros [= <-]. naive_solver.
    - by rewrite lookup_insert_ne by done. }
  assert (H1 : ∀ i, stage1 s' i ↔ stage1 s i).
  { intros i. unfold stage1. split; intros (t' & th' & ? & ? & ?); exists t', th'; (split; [apply Hl|]; auto). }
  assert (H2 : ∀ i, no_join s' i ↔ no_join s i).
  { intros i. unfold no_join. split; intros Hx t' th' Ht Hji; apply (Hx t' th'); auto; apply Hl; auto; right; by rewrite Hji. }
  assert (H3 : ∀ i, one_join s' i ↔ one_join s i).
  { intros i. unfold one_join. split; intros (t' & th' & Ht & Hji & Hu); exists t', th'.
    all: split; [apply Hl; [right; by rewrite Hji|done]|split; [done|]].
    all: intros t2 th2 Ht2 Hj2; apply (Hu t2 th2); [apply Hl; [right; by rewrite Hj2|done]|done]. }
  unfold sync, leaving, quiet. by rewrite H1, H2, H3.
Qed.

(** SetExitCode of a process that has not started to exit. *)
Lemma inv_exitcode s t th o p ec : inv s → threads s !! t = Some th → stage (t_ctl th) ≠ 3%nat →
  exiting (t_ctl th) = None → entry s (t_pid th) o → heap s !! o = Some p → inv (put_obj s o (SetExitCode p ec)).
Proof.
  intros Hi Hl Hst Hex He Hp.
  assert (Hb : ∀ o2 p2, <[o := SetExitCode p ec]> (heap s) !! o2 = Some p2 → ∃ p3, heap s !! o2 = Some p3 ∧
    pcb_id p2 = pcb_id p3 ∧ joinsem p2 = joinsem p3 ∧ exitsem p2 = exitsem p3).
  { intros o2 p2 Hl2. apply lookup_insert_Some in Hl2 as [[<- <-]|[_ ?]]; eauto. }
  destruct Hi. split; try done.
  - intros i o2 He2. destruct (i_entry0 _ _ He2) as (p2 & Hp2 & Hid). simpl. destruct (decide (o2 = o)) as [->|Hne].
    + rewrite lookup_insert_eq. exists (SetExitCode p ec). rewrite Hp in Hp2. by injection Hp2 as <-.
    + rewrite lookup_insert_ne by done. eauto.
  - intros o2 p2 Hp2. destruct (Hb _ _ Hp2) as (p3 & Hp3 & -> & _). by apply i_heap0.
  - intros o2 p2 Hp2. destruct (Hb _ _ Hp2) as (p3 & Hp3 & Hid & Hjs & Hxs).
    specialize (i_sync0 _ _ Hp3). revert i_sync0. unfold sync, leaving, quiet. by rewrite Hid, Hjs, Hxs.
  - intros t2 th2 ec2 Hl2 Hex2. destruct (i_code0 _ _ _ Hl2 Hex2) as (o2 & p2 & He2 & Hp2 & Hec2).
    exists o2, p2. split_and!; try done. simpl. rewrite lookup_insert_ne; [done|]. intros <-.
    assert (t_pid th2 = t_pid th) as Hpid.
    { destruct (i_entry0 _ _ He) as (p3 & Hp3 & <-), (i_entry0 _ _ He2) as (p4 & Hp4 & <-). congruence. }
    assert (t2 = t) as Heq.
    { eapply i_unique0; try done. by destruct (t_ctl th2) as [[]|? []]. }
    subst t2. simpl in Hl2. rewrite Hl in Hl2. injection Hl2 as <-. by rewrite Hex in Hex2.
  - intros t2 th2 Hl2. specialize (i_asleep0 _ _ Hl2). destruct (t_ctl th2) as [pt|[| |o2|o2] k]; try done.
    destruct i_asleep0 as (j & -> & Hr & Hn & Hj). exists j. split_and!; try done; try lia.
    intros p2 Hp2. destruct (Hb _ _ Hp2) as (p3 & Hp3 & -> & _). by apply Hj.
Qed.

(** A new entry, for a process that has no thread yet. *)
Lemma inv_alloc s s' b pid p : inv s → pcb s' = <[Z.to_nat pid := Some (next s)]> (pcb s) →
  heap s' = <[next s := p]> (heap s) → next s' = next s + 1 → threads s' = threads s → bm s' = b →
  ba_ok b → ba_size b = MAX_PROCESS → 0 <= pid < MAX_PROCESS → pid ∉ ba_used (bm s) →
  ba_used b = {[pid]} ∪ ba_used (bm s) → pcb_id p = pid → joinsem p = 0 → exitsem p = 0 →
  inv s' ∧ entry s' pid (next s) ∧ vacant s' pid.
Proof.
  intros Hi Hpcb Hh Hnx Hth Hbm Hok Hsz Hr Hfree Hu Hid Hjs Hxs.
  assert (Hno : ∀ o, ¬ entry s pid o). { intros o He. apply Hfree, (i_used _ Hi). eauto. }
  assert (He : ∀ i o, entry s' i o ↔ (i = pid ∧ o = next s) ∨ entry s i o).
  { intros i o. unfold entry at 1. rewrite Hpcb. pose proof (i_len _ Hi) as Hlen.
    destruct (decide (i = pid)) as [->|Hne].
    - rewrite list_lookup_insert_eq by lia. split.
      + intros [_ [= ->]]. by left.
      + intros [[_ ->]|Hx]; [split; [lia|done]|by destruct (Hno o)].
    - unfold entry. split.
      + intros [Hge Hx]. right. split; [done|]. by rewrite list_lookup_insert_ne in Hx by lia.
      + intros [[? _]|[Hge Hx]]; [done|]. split; [done|]. by rewrite list_lookup_insert_ne by lia. }
  assert (Hvac : vacant s' pid).
  { unfold vacant. rewrite Hth. split.
    - intros t th Hl Hst Heq. destruct (i_owner _ Hi _ _ Hl Hst) as [o Ho]. rewrite Heq in Ho. by apply (Hno o).
    - intros t th o Hl Hc. destruct (i_create _ Hi _ _ _ _ Hl Hc) as (Ho & _). by apply (Hno o). }
  assert (Hfr : ∀ o q, heap s !! o = Some q → o ≠ next s).
  { intros o q Hq. destruct (i_heap _ Hi _ _ Hq). lia. }
  split; [|split; [apply He; by left|done]]. split.
  - by rewrite Hbm.
  - rewrite Hpcb, length_insert. apply Hi.
  - intros i. rewrite Hbm, Hu, elem_of_union, elem_of_singleton, (i_used _ Hi). setoid_rewrite He.
    split; [intros [->|[o Ho]]; eauto|]. intros [o [[-> _]|Ho]]; eauto.
  - intros i o. rewrite He, Hh. intros [[-> ->]|Ho]; [rewrite lookup_insert_eq; eauto|].
    destruct (i_entry _ Hi _ _ Ho) as (q & Hq & <-). rewrite lookup_insert_ne by (symmetry; eauto). eauto.
  - intros o q. rewrite Hh, He, Hnx. intros [[<- <-]|[_ Hq]]%lookup_insert_Some; [split; [lia|auto]|].
    destruct (i_heap _ Hi _ _ Hq). split; [lia|auto].
  - intros t th Hl Hst. rewrite Hth in Hl. destruct (i_owner _ Hi _ _ Hl Hst) as [o Ho]. exists o. rewrite He. auto.
  - rewrite Hth. apply (i_unique _ Hi).
  - intros t th pid' o. rewrite Hth, He. intros Hl Hc. destruct (i_create _ Hi _ _ _ _ Hl Hc) as (Ho & Hx). auto.
  - intros o q. rewrite Hh. intros [[<- <-]|[_ Hq]]%lookup_insert_Some; [|by eapply sync_threads, (i_sync _ Hi o)].
    right. rewrite Hid. destruct Hvac as [Hv _]. split.
    + intros (t & th & Hl & Hp & Hst). by apply (Hv t th); [|rewrite Hst|].
    + split_and!; try done. intros t th. rewrite Hth, Hid. intros Hl Hj. destruct (i_join _ Hi _ _ _ Hl Hj) as [o Ho]. by apply (Hno o).
  - intros t th i. rewrite Hth. intros Hl Hj. destruct (i_join _ Hi _ _ _ Hl Hj) as [o Ho]. exists o. rewrite He. auto.
  - intros t th ec. rewrite Hth. intros Hl Hec. destruct (i_code _ Hi _ _ _ Hl Hec) as (o & q & Ho & Hq & Hx).
    exists o, q. rewrite He, Hh, lookup_insert_ne by (symmetry; eauto). auto.
  - intros t th. rewrite Hth. intros Hl. pose proof (i_asleep _ Hi _ _ Hl) as Ha.
    destruct (t_ctl th) as [pt|[| |o|o] k]; try done.
    + destruct Ha as (j & -> & Hr2 & Hn & Hj). exists j. rewrite Hnx. split_and!; try done; try lia.
      intros q. rewrite Hh, lookup_insert_ne by lia. apply Hj.
    + destruct Ha as [? Ho]. split; [done|]. apply He. auto.
Qed.
(** The thread of a new process. *)
Lemma inv_spawn s s' t th o : inv s → threads s !! t = None → threads s' = <[t := th]> (threads s) →
  pcb s' = pcb s → bm s' = bm s → heap s' = heap s → next s' = next s →
  entry s (t_pid th) o → vacant s (t_pid th) → t_ctl th = At Started → inv s'.
Proof.
  intros Hi Hn Hth Hpcb Hbm Hh Hnx Ho [Hv1 Hv2] Hc.
  assert (He : ∀ i o, entry s' i o ↔ entry s i o) by (intros; unfold entry; by rewrite Hpcb).
  assert (Hlk : ∀ t' th', threads s' !! t' = Some th' →
    (t' = t ∧ th' = th) ∨ threads s !! t' = Some th').
  { intros t' th'. rewrite Hth. intros [[<- <-]|[_ ?]]%lookup_insert_Some; auto. }
  split.
  - rewrite Hbm. apply Hi.
  - rewrite Hpcb. apply Hi.
  - intros i. rewrite Hbm, (i_used _ Hi). by setoid_rewrite He.
  - intros i o'. rewrite He, Hh. apply (i_entry _ Hi).
  - intros o' p. rewrite He, Hh, Hnx. apply (i_heap _ Hi).
  - intros t' th' Hl Hst. setoid_rewrite He. destruct (Hlk _ _ Hl) as [[-> ->]|Hl']; [eauto|by eapply (i_owner _ Hi)].
  - intros t1 t2 th1 th2 Hl1 Hl2 Hs1 Hs2 Heq.
    destruct (Hlk _ _ Hl1) as [[-> ->]|Hl1'], (Hlk _ _ Hl2) as [[-> ->]|Hl2']; [done| | |by eapply (i_unique _ Hi)].
    + by destruct (Hv1 t2 th2).
    + by destruct (Hv1 t1 th1).
  - intros t' th' pid o' Hl Hcr. destruct (Hlk _ _ Hl) as [[-> ->]|Hl']; [by rewrite Hc in Hcr|].
    destruct (i_create _ Hi _ _ _ _ Hl' Hcr) as (H1 & H2 & H3). split_and!; [by apply He| |].
    + intros t2 th2 Hl2 Hs2. destruct (Hlk _ _ Hl2) as [[-> ->]|Hl2']; [|by eapply H2].
      intros Heq. apply (Hv2 t' th' o' Hl'). by rewrite Heq.
    + intros t2 th2 o2 Hl2 Hc2. destruct (Hlk _ _ Hl2) as [[-> ->]|Hl2']; [by rewrite Hc in Hc2|by eapply H3].
  - intros o' p. rewrite Hh. intros Hp. eapply (sync_spectator s s' t th); try done; [by rewrite Hc..|by apply (i_sync _ Hi o')].
  - intros t' th' i Hl Hj. setoid_rewrite He. destruct (Hlk _ _ Hl) as [[-> ->]|Hl']; [by rewrite Hc in Hj|by eapply (i_join _ Hi)].
  - intros t' th' ec Hl Hec. setoid_rewrite He. rewrite Hh.
    destruct (Hlk _ _ Hl) as [[-> ->]|Hl']; [by rewrite Hc in Hec|by eapply (i_code _ Hi)].
  - intros t' th' Hl. destruct (Hlk _ _ Hl) as [[-> ->]|Hl']; [by rewrite Hc|].
    pose proof (i_asleep _ Hi _ _ Hl') as Ha. unfold asleep_ok in *. rewrite Hnx, Hh.
    destruct (t_ctl th') as [|[]]; try done. by rewrite He.
Qed.

(** The end of a process: its entry goes, nobody is left in it. *)
Lemma inv_clear s s' b i o p : inv s → threads s' = threads s → bm s' = b → next s' = next s →
  pcb s' = <[Z.to_nat i := None]> (pcb s) → heap s' = delete o (heap s) →
  ba_ok b → ba_size b = MAX_PROCESS → ba_used b = ba_used (bm s) ∖ {[i]} →
  entry s i o → heap s !! o = Some p → vacant s i → no_join s i → inv s'.
Proof.
  intros Hi Hth Hbm Hnx Hpcb Hh Hok Hsz Hu Ho Hp [Hv1 Hv2] Hnj.
  pose proof (entry_range _ _ _ Hi Ho) as Hr. pose proof (i_len _ Hi) as Hlen.
  assert (He : ∀ j o', entry s' j o' ↔ j ≠ i ∧ entry s j o').
  { intros j o'. unfold entry. rewrite Hpcb. destruct (decide (j = i)) as [->|Hne].
    - rewrite list_lookup_insert_eq by lia. naive_solver.
    - split; [intros [? Hx]; rewrite list_lookup_insert_ne in Hx by lia; auto|].
      intros (_ & ? & Hx). by rewrite list_lookup_insert_ne by lia. }
  assert (Hne : ∀ j o', j ≠ i → entry s j o' → o ≠ o').
  { intros j o' Hji Hj <-. by apply Hji, (entry_inj s j i o). }
  split.
  - by rewrite Hbm.
  - by rewrite Hpcb, length_insert.
  - intros j. rewrite Hbm, Hu, elem_of_difference, elem_of_singleton, (i_used _ Hi). setoid_rewrite He. naive_solver.
  - intros j o'. rewrite He, Hh. intros [Hji Hj]. rewrite lookup_delete_ne by eauto. by apply (i_entry _ Hi).
  - intros o' q. rewrite Hh, Hnx, He. intros [Hoo Hq]%lookup_delete_Some.
    destruct (i_heap _ Hi _ _ Hq) as [? Hq2]. split_and!; try done. intros Heq. rewrite Heq in Hq2.
    by apply Hoo, (entry_unique s i).
  - intros t th. rewrite Hth. intros Hl Hst. destruct (i_owner _ Hi _ _ Hl Hst) as [o' Ho']. exists o'.
    rewrite He. split; [by eapply Hv1|done].
  - rewrite Hth. apply (i_unique _ Hi).
  - intros t th pid o'. rewrite Hth, He. intros Hl Hc. destruct (i_create _ Hi _ _ _ _ Hl Hc) as [H1 H2].
    split; [|done]. split; [|done]. intros ->. by apply (Hv2 t th o').
  - intros o' q. rewrite Hh. intros [Hoo Hq]%lookup_delete_Some. by eapply sync_threads, (i_sync _ Hi o').
  - intros t th j. rewrite Hth. intros Hl Hj. destruct (i_join _ Hi _ _ _ Hl Hj) as [o' Ho']. exists o'.
    rewrite He. split; [|done]. intros ->. by apply (Hnj t th).
  - intros t th ec. rewrite Hth. intros Hl Hec. destruct (i_code _ Hi _ _ _ Hl Hec) as (o' & q & Ho' & Hq & Hx).
    assert (t_pid th ≠ i) as Hji. { apply (Hv1 t th Hl). by destruct (t_ctl th) as [[]|? []]. }
    exists o', q. rewrite He, Hh, lookup_delete_ne by eauto. auto.
  - intros t th. rewrite Hth. intros Hl. pose proof (i_asleep _ Hi _ _ Hl) as Ha. unfold asleep_ok in *.
    rewrite Hnx, Hh. destruct (t_ctl th) as [|[| |o'|o'] k] eqn:Hc; try done.
    + destruct Ha as (j & -> & Hr2 & Hn & Hj). exists j. split_and!; try done; try lia.
      intros q [_ Hq]%lookup_delete_Some. by apply Hj.
    + destruct Ha as [[ec ->] Ho']. split; [eauto|]. rewrite He. split; [|done]. apply (Hv1 t th Hl). by rewrite Hc.
Qed.

(** Finish of a thread whose process is gone. *)
Lemma inv_reap s s' t th : inv s → threads s !! t = Some th → stage (t_ctl th) = 3%nat →
  threads s' = delete t (threads s) → pcb s' = pcb s → bm s' = bm s → heap s' = heap s → next s' = next s → inv s'.
Proof.
  intros Hi Hl Hst Hth Hpcb Hbm Hh Hnx.
  assert (He : ∀ i o, entry s' i o ↔ entry s i o) by (intros; unfold entry; by rewrite Hpcb).
  assert (Hlk : ∀ t' th', threads s' !! t' = Some th' → threads s !! t' = Some th').
  { intros t' th'. rewrite Hth. by intros [_ ?]%lookup_delete_Some. }
  destruct Hi. split; rewrite ?Hbm, ?Hpcb, ?Hh, ?Hnx; try setoid_rewrite He; eauto.
  - intros t' th' pid o Hl' Hc. destruct (i_create0 _ _ _ _ (Hlk _ _ Hl') Hc) as (H1 & H2 & H3). eauto 10.
  - intros o p Hp. eapply (sync_spectator s' s t th p).
    + rewrite Hth. apply lookup_delete_eq.
    + by rewrite Hth, insert_delete_eq, insert_id.
    + by rewrite Hst.
    + by destruct (t_ctl th) as [[]|? []].
    + by eapply i_sync0.
  - intros t' th' Hl'. specialize (i_asleep0 _ _ (Hlk _ _ Hl')). unfold asleep_ok in *. rewrite Hnx, Hh.
    destruct (t_ctl th') as [|[]]; try done. by rewrite He.
Qed.
(** ** Every action keeps the invariant *)

(** A change of the objects that the protocol does not see. *)
Definition seen p : Z * Z * Z * Z := (pcb_id p, exitcode p, joinsem p, exitsem p).

Definition calm (h h' : gmap Z PCB) : Prop := ∀ o, seen <$> h' !! o = seen <$> h !! o.

Lemma calm_objs h h' : calm h h' → same_objs h h'.
Proof.
  intros Hc o. specialize (Hc o). destruct (h' !! o), (h !! o); simpl in *; try done.
  apply (inj Some) in Hc. unfold core. by injection Hc as -> -> _ _.
Qed.

Lemma calm_sems h h' o p p' : calm h h' → h !! o = Some p → h' !! o = Some p' →
  joinsem p' = joinsem p ∧ exitsem p' = exitsem p.
Proof. intros Hc Hp Hp'. specialize (Hc o). rewrite Hp, Hp' in Hc. apply (inj Some) in Hc. by injection Hc. Qed.

Lemma calm_insert h o p p' : h !! o = Some p → seen p' = seen p → calm h (<[o := p']> h).
Proof.
  intros Hp Hs o'. destruct (decide (o' = o)) as [->|Hne].
  - rewrite lookup_insert_eq, Hp. simpl. by rewrite Hs.
  - by rewrite lookup_insert_ne.
Qed.

Lemma calm_trans h h' h'' : calm h h' → calm h' h'' → calm h h''.
Proof. intros H1 H2 o. by rewrite H2. Qed.

Lemma alter_heap (f : PCB → PCB) (h : gmap Z PCB) o p : h !! o = Some p → alter f o h = <[o := f p]> h.
Proof.
  intros Hp. apply map_eq. intros o'. destruct (decide (o' = o)) as [->|Hne].
  - by rewrite lookup_alter_eq, lookup_insert_eq, Hp.
  - by rewrite lookup_alter_ne, lookup_insert_ne by done.
Qed.

(** The semaphores outside the protocol. *)
Definition outer (r : sem_ref) : Prop := match r with BmSem | Multex _ => True | _ => False end.

Lemma calm_set_sem s r v : outer r → calm (heap s) (heap (set_sem s r v)).
Proof.
  destruct r as [|o| |]; intros Hr; try done. intros o'. simpl.
  destruct (decide (o' = o)) as [->|Hne]; [|by rewrite lookup_alter_ne].
  rewrite lookup_alter_eq. by destruct (heap s !! o).
Qed.

Lemma set_sem_heap s r o p v : heap s !! o = Some p → r = JoinSem o ∨ r = ExitSem o →
  heap (set_sem s r v) = <[o := upd_sem p r v]> (heap s).
Proof. intros Hp [-> | ->]; exact (alter_heap (λ p, upd_sem p _ v) _ _ _ Hp). Qed.

Lemma moved_sem s r v t th c : threads s !! t = Some th → moved s (set_thread (set_sem s r v) t (set_ctl th c)) t th c.
Proof.
  intros Hl. destruct r as [|o|o|o]; split; try done; simpl; intros o'.
  all: destruct (decide (o' = o)) as [->|Hne]; [rewrite lookup_alter_eq|by rewrite lookup_alter_ne].
  all: by destruct (heap s !! o).
Qed.

Lemma moved_calm s s1 t th c : threads s !! t = Some th → threads s1 = threads s → pcb s1 = pcb s → bm s1 = bm s →
  next s1 = next s → calm (heap s) (heap s1) → moved s (set_thread s1 t (set_ctl th c)) t th c.
Proof. intros Hl Hth Hpcb Hbm Hnx Hc. split; simpl; try done; [by rewrite Hth|by apply calm_objs]. Qed.

(** The control of a thread outside the protocol moves from [c0] to [c]. *)
Definition bystep s th (c : control) : Prop :=
  let c0 := t_ctl th in
  stage c = stage c0 ∧ stage c ≠ 3%nat ∧ creating c = creating c0 ∧ jcode c = None ∧ jcode c0 = None ∧
  (∀ ec, exiting c = Some ec → exiting c0 = Some ec ∨
     ∃ o p, entry s (t_pid th) o ∧ heap s !! o = Some p ∧ exitcode p = ec) ∧
  asleep_ok s (t_pid th) c.

Lemma inv_bystep s s1 t th c : inv s → threads s !! t = Some th → threads s1 = threads s → pcb s1 = pcb s →
  bm s1 = bm s → next s1 = next s → calm (heap s) (heap s1) → bystep s th c →
  inv (set_thread s1 t (set_ctl th c)).
Proof.
  intros Hi Hl Hth Hpcb Hbm Hnx Hc (H1 & H2 & H3 & H4 & H5 & H6 & H7).
  eapply (inv_local s _ t th c); try done; [by apply moved_calm|].
  intros o p p' Hp Hp'. by eapply (calm_sems (heap s)).
Qed.

Lemma P_inv s t th r k s' : inv s → threads s !! t = Some th → P s t th r k = Ok s' → outer r →
  bystep s th (At k) → bystep s th (Asleep r k) → inv s'.
Proof.
  intros Hi Hl HP Hr H1 H2. unfold P in HP. destruct (sem_value s r) as [v|]; [|done].
  destruct (v =? 0); injection HP as <-.
  - by apply (inv_bystep s).
  - by apply (inv_bystep s); try destruct r; try apply calm_set_sem.
Qed.

Lemma V_inv s s1 t th r k s' : inv s → threads s !! t = Some th → V s1 t th r k = Ok s' → outer r →
  threads s1 = threads s → pcb s1 = pcb s → bm s1 = bm s → next s1 = next s → calm (heap s) (heap s1) →
  bystep s th (At k) → inv s'.
Proof.
  intros Hi Hl HV Hr Hth Hpcb Hbm Hnx Hc H1. unfold V in HV. destruct (sem_value s1 r) as [v|]; [|done].
  injection HV as <-. apply (inv_bystep s); try destruct r; try done.
  eapply calm_trans; [done|by apply (calm_set_sem s1 (Multex o))].
Qed.
(** Side conditions of a step outside the protocol, from the control [Hc]. *)
Ltac bystep Hc := unfold bystep; rewrite Hc; simpl; split_and!; try done; try (intros; by left); eauto.

Lemma enter_inv s t th r c s' : inv s → threads s !! t = Some th → t_ctl th = At (User r) →
  enter s t th c = Ok s' → inv s'.
Proof.
  intros Hi Hl Hc He. destruct c as [f|pid|ec]; simpl in He.
  - eapply P_inv; try done; bystep Hc.
  - unfold JoinUpdate in He. apply bind_Ok_inv in He as (e & _ & He).
    destruct (negb e); [injection He as <-; apply (inv_bystep s); try done; bystep Hc|].
    apply bind_Ok_inv in He as ([o p] & _ & He).
    destruct (negb _); [injection He as <-; apply (inv_bystep s); try done; bystep Hc|].
    apply bind_Ok_inv in He as ([o' p'] & _ & He). eapply P_inv; try done; bystep Hc.
  - unfold ExitUpdate in He. destruct (t_pid th =? 0); [done|]. apply bind_Ok_inv in He as (e & Hte & He).
    destruct (negb e) eqn:Hn.
    { destruct (i_owner _ Hi _ _ Hl) as [o Ho]; [by rewrite Hc|]. unfold IsExist in Hte.
      pose proof (entry_range _ _ _ Hi Ho) as Hr. destruct (i_bm _ Hi) as [Hok Hsz].
      rewrite (ba_Test_law _ _ Hok), Hsz in Hte. apply in_range_true in Hr. rewrite Hr in Hte. injection Hte as <-.
      rewrite bool_decide_true in Hn; [done|]. apply (i_used _ Hi). eauto. }
    apply bind_Ok_inv in He as ([o p] & Hs & He). apply slot_entry in Hs as [Ho Hp].
    apply bind_Ok_inv in He as ([o' p'] & _ & He).
    set (s1 := put_obj s o (SetExitCode p ec)) in *.
    assert (inv s1) by (by apply (inv_exitcode s t th o p ec); try done; rewrite Hc).
    assert (∃ o p, entry s1 (t_pid th) o ∧ heap s1 !! o = Some p ∧ exitcode p = ec).
    { exists o, (SetExitCode p ec). split_and!; try done. apply lookup_insert_eq. }
    eapply (P_inv s1); try done; bystep Hc; intros ec' [= <-]; by right.
Qed.

Lemma exec_inv s t th f c s' : inv s → threads s !! t = Some th → t_ctl th = At (X_open f) →
  ExecUpdate s t th f c = Ok s' → inv s'.
Proof.
  intros Hi Hl Hc He. unfold ExecUpdate in He.
  destruct (negb (opened c)); [eapply V_inv; try done; bystep Hc|].
  destruct (same_name c); [eapply V_inv; try done; bystep Hc|].
  apply bind_Ok_inv in He as ([pid b] & Hf & He). destruct (i_bm _ Hi) as [Hok Hsz].
  destruct (ba_Find_law _ Hok) as [(_ & i & b' & Hf2 & Hok' & Hsz' & Hr & Hfree & _ & Hu)|[_ Hf2]];
    rewrite Hf2 in Hf; injection Hf as <- <-.
  2: { simpl in He. eapply V_inv; try done; bystep Hc. }
  destruct (Z.ltb_spec i 0); [lia|]. apply bind_Ok_inv in He as (l & Hs & He).
  apply aset_Ok in Hs as [_ ->]. simpl in He. rewrite Hsz in *.
  set (p := set_parent _ _) in He. set (s1 := mkPTable _ _ _ _ _ _) in He.
  destruct (inv_alloc s s1 b' i p) as (Hi1 & He1 & Hv1); try done.
  unfold P in He. simpl in He. rewrite lookup_insert_eq in He. simpl in He. injection He as <-.
  pose proof (moved_sem s1 (Multex (next s)) 0 t th (At (X_fork i (next s))) Hl) as Hm.
  eapply (inv_move s1 _ t th _); [done|exact Hm|by rewrite Hc| |done|done|done|].
  - intros pid o [= <- <-]. by right.
  - eapply (sync_local s1 _ t th _ Hi1 Hm); try done; rewrite ?Hc; try done.
    intros o q q' Hq Hq'. exact (calm_sems _ _ o q q' (calm_set_sem s1 (Multex (next s)) 0 I) Hq Hq').
Qed.

Lemma fork_inv s t th pid o s' : inv s → threads s !! t = Some th → t_ctl th = At (X_fork pid o) →
  fork_process s t th pid o = Ok s' → inv s'.
Proof.
  intros Hi Hl Hc [= <-]. set (c := At (X_multex pid o)). set (s1 := set_thread s t (set_ctl th c)).
  destruct (i_create _ Hi t th pid o Hl) as (He & Hv1 & Hv2); [by rewrite Hc|].
  assert (Hm : moved s s1 t th c) by (by apply moved_calm).
  assert (Hi1 : inv s1).
  { eapply (inv_move s s1 t th c); try done; [by rewrite Hc|].
    eapply (sync_local s s1 t th c); try done; rewrite ?Hc; try done. intros o' p p' H1 H2. simpl in H2. by simplify_eq. }
  eapply (inv_spawn s1 _ (fresh (dom (threads s))) _ o Hi1); try done.
  - apply not_elem_of_dom. simpl. rewrite dom_insert_lookup_L by eauto. apply is_fresh.
  - split; simpl.
    + intros t' th' Hl' Hst. destruct (moved_lookup _ _ _ _ _ _ _ Hm Hl') as [[-> ->]|[_ Hl2]]; [|by eapply Hv1].
      simpl. eapply Hv1; [done|by rewrite Hc].
    + intros t' th' o' Hl' Hcr. destruct (moved_lookup _ _ _ _ _ _ _ Hm Hl') as [[-> ->]|[Hne Hl2]]; [done|].
      apply Hne. by eapply Hv2.
Qed.

Lemma remove_inv s t th ec s1 s' : inv s → threads s !! t = Some th → t_ctl th = At (E_clear ec) →
  Remove s (t_pid th) = Ok s1 → V s1 t th BmSem (E_finish ec) = Ok s' → inv s'.
Proof.
  intros Hi Hl Hc Hr [= <-]. destruct (i_owner _ Hi _ _ Hl) as [o Ho]; [by rewrite Hc|].
  destruct (i_entry _ Hi _ _ Ho) as (p & Hp & Hid). pose proof (entry_range _ _ _ Hi Ho) as Hrg.
  destruct (i_bm _ Hi) as [Hok Hsz]. unfold Remove in Hr.
  destruct (ba_Clear_law (bm s) (t_pid th) Hok) as (b & Hb & Hok' & Hsz' & Hu); [lia|].
  rewrite Hb in Hr. simpl in Hr. rewrite (proj2 (aget_Ok (pcb s) (t_pid th) (Some o)) Ho) in Hr. simpl in Hr.
  rewrite aset_in_range in Hr by (rewrite (i_len _ Hi); lia). injection Hr as <-.
  set (c := At (E_finish ec)). set (s2 := set_thread s t (set_ctl th c)).
  assert (Hm : moved s s2 t th c) by (by apply moved_calm).
  assert (Hi2 : inv s2).
  { eapply (inv_move s s2 t th c); try done; [by rewrite Hc|].
    eapply (sync_local s s2 t th c); try done; rewrite ?Hc; try done. intros o' q q' H1 H2. simpl in H2. by simplify_eq. }
  eapply (inv_clear s2 _ b (t_pid th) o p Hi2); try done; [by rewrite Hsz'| |].
  - split; simpl.
    + intros t' th' Hl' Hst Heq. destruct (moved_lookup _ _ _ _ _ _ _ Hm Hl') as [[-> ->]|[Hne Hl2]]; [done|].
      apply Hne. eapply (i_unique _ Hi); try done. by rewrite Hc.
    + intros t' th' o' Hl' Hcr. destruct (moved_lookup _ _ _ _ _ _ _ Hm Hl') as [[-> ->]|[Hne Hl2]]; [done|].
      destruct (i_create _ Hi _ _ _ _ Hl2 Hcr) as (_ & Hx & _). eapply Hx; [exact Hl|by rewrite Hc|done].
  - destruct (i_sync _ Hi _ _ Hp) as [[H1 _]|[_ (_ & _ & Hnj)]]; rewrite Hid in *.
    + apply (owner_stage s t th Hi Hl) in H1; rewrite Hc in *; done.
    + eapply no_join_moved; [exact Hm|done|]. intros t' th' Hl' Hj'. by destruct (Hnj t' th' Hl').
Qed.
(** The steps on joinsem and exitsem. *)
Lemma join_take_inv s t th i o v : inv s → threads s !! t = Some th → entry s i o →
  sem_value s (JoinSem o) = Some v → v ≠ 0 → stage (t_ctl th) = 0%nat → creating (t_ctl th) = None →
  jcode (t_ctl th) = None → inv (set_thread (set_sem s (JoinSem o) (v - 1)) t (set_ctl th (At (J_code i)))).
Proof.
  intros Hi Hl He Hv Hne Hst Hcr Hj. destruct (i_entry _ Hi _ _ He) as (p & Hp & _). simpl in Hv. rewrite Hp in Hv.
  injection Hv as <-. eapply (inv_join_take s _ t th i o p); try done; [by apply moved_sem|by apply set_sem_heap; [|left]].
Qed.

Lemma exit_take_inv s t th ec o v : inv s → threads s !! t = Some th → entry s (t_pid th) o →
  sem_value s (ExitSem o) = Some v → v ≠ 0 → stage (t_ctl th) = 1%nat → exiting (t_ctl th) = Some ec →
  inv (set_thread (set_sem s (ExitSem o) (v - 1)) t (set_ctl th (At (E_remove ec)))).
Proof.
  intros Hi Hl He Hv Hne Hst Hex. destruct (i_entry _ Hi _ _ He) as (p & Hp & _). simpl in Hv. rewrite Hp in Hv.
  injection Hv as <-. eapply (inv_exit_take s _ t th ec o p); try done.
  - by apply moved_sem.
  - by apply set_sem_heap; [|right].
  - by destruct (t_ctl th) as [[]|? []].
  - by destruct (t_ctl th) as [[]|? []].
Qed.

Lemma segment_inv s t th pt c s' : inv s → threads s !! t = Some th → t_ctl th = At pt →
  segment s t th pt c = Ok s' → inv s'.
Proof.
  intros Hi Hl Hc He. destruct pt; simpl in He.
  - by injection He as <-.
  - apply bind_Ok_inv in He as (x & _ & He). injection He as <-. apply (inv_bystep s); try done; bystep Hc.
  - by eapply exec_inv.
  - by eapply fork_inv.
  - eapply (V_inv s s); try done; bystep Hc.
  - eapply (V_inv s s); try done; bystep Hc.
  - apply bind_Ok_inv in He as (p & Hp & He). unfold obj in Hp. destruct (heap s !! o) eqn:Ho; [|done]. injection Hp as ->.
    eapply (V_inv s); try done; [by eapply calm_insert|bystep Hc].
  - apply bind_Ok_inv in He as ([o p] & Hs & He). apply slot_entry in Hs as [Ho Hp].
    unfold P in He. simpl in He. rewrite Hp in He. simpl in He. destruct (Z.eqb_spec (joinsem p) 0); injection He as <-.
    + apply (inv_bystep s); try done. bystep Hc. exists pid. destruct (i_heap _ Hi _ _ Hp).
      split; [done|]. split; [by eapply entry_range|]. split; [done|]. intros q Hq.
      destruct (i_entry _ Hi _ _ Ho) as (q' & Hq' & <-). congruence.
    + apply (join_take_inv s); try done; rewrite ?Hc; try done. simpl. by rewrite Hp.
  - apply bind_Ok_inv in He as ([o p] & Hs & He). apply slot_entry in Hs as [Ho Hp].
    unfold V in He. simpl in He. rewrite Hp in He. simpl in He. injection He as <-.
    eapply (inv_exit_release s _ t th (exitcode p) pid o p); try done; [by apply (moved_sem s (ExitSem o))|].
    by apply (set_sem_heap s (ExitSem o)); [|right].
  - apply bind_Ok_inv in He as (p & Hp & He). unfold obj in Hp. destruct (heap s !! o) eqn:Ho; [|done]. injection Hp as ->.
    eapply (V_inv s); try done; [by eapply calm_insert|bystep Hc].
  - apply bind_Ok_inv in He as ([o p] & Hs & He). apply slot_entry in Hs as [Ho Hp].
    unfold V in He. simpl in He. rewrite Hp in He. simpl in He. injection He as <-.
    eapply (inv_join_release s _ t th (At (E_exit ec)) o p); try done; rewrite ?Hc; try done; [by apply (moved_sem s (JoinSem o))|].
    by apply (set_sem_heap s (JoinSem o)); [|left].
  - apply bind_Ok_inv in He as ([o p] & Hs & He). apply slot_entry in Hs as [Ho Hp].
    unfold P in He. simpl in He. rewrite Hp in He. simpl in He. destruct (Z.eqb_spec (exitsem p) 0); injection He as <-.
    + apply (inv_bystep s); try done. bystep Hc.
    + apply (exit_take_inv s); try done; rewrite ?Hc; try done. simpl. by rewrite Hp.
  - eapply (P_inv s); try done; bystep Hc.
  - apply bind_Ok_inv in He as (s1 & Hr & He). by eapply remove_inv.
  - injection He as <-. eapply (inv_reap s _ t th); try done. by rewrite Hc.
Qed.

Lemma wake_inv s t th r k v : inv s → threads s !! t = Some th → t_ctl th = Asleep r k →
  sem_value s r = Some v → v ≠ 0 → inv (set_thread (set_sem s r (v - 1)) t (set_ctl th (At k))).
Proof.
  intros Hi Hl Hc Hv Hne. pose proof (i_asleep _ Hi _ _ Hl) as Ha. rewrite Hc in Ha. destruct r as [|o|o|o]; simpl in Ha.
  - apply (inv_bystep s); try done. destruct Ha as [[f ->]|[ec ->]]; bystep Hc.
  - apply (inv_bystep s); try done; [apply (calm_set_sem s (Multex o)); done|].
    destruct Ha as [[pid ->]|[[pid ->]|[ec ->]]]; bystep Hc.
  - destruct Ha as (j & -> & Hr & Hn & Hid). pose proof Hv as Hv0. simpl in Hv0. destruct (heap s !! o) as [p|] eqn:Hp; [|done].
    destruct (i_heap _ Hi _ _ Hp) as [_ He]. rewrite (Hid p eq_refl) in He.
    apply (join_take_inv s); try done; by rewrite Hc.
  - destruct Ha as [[ec ->] He]. apply (exit_take_inv s); try done; by rewrite Hc.
Qed.

Lemma act_inv s a s' : inv s → act s a = Some (Ok s') → inv s'.
Proof.
  intros Hi Ha. unfold act in Ha. destruct (threads s !! actor a) as [th|] eqn:Hl; [|done]. simpl in Ha.
  destruct a as [t c|t c|t]; simpl in Hl.
  - destruct (t_ctl th) as [[]|] eqn:Hc; try done. injection Ha as Ha. by eapply enter_inv.
  - destruct (t_ctl th) as [pt|] eqn:Hc; [|done].
    assert (segment s t th pt c = Ok s') by (destruct pt; congruence). by eapply segment_inv.
  - destruct (t_ctl th) as [|r k] eqn:Hc; [done|]. destruct (sem_value s r) as [v|] eqn:Hv; [|done].
    destruct (Z.eqb_spec v 0); [done|]. injection Ha as <-. by eapply wake_inv.
Qed.
(** ** The critical section of bmsem *)

Definition mutex s : Prop :=
  (bmsem s = 1 ∧ ∀ t th, threads s !! t = Some th → inside (t_ctl th) = false) ∨
  (bmsem s = 0 ∧ ∃ t th, threads s !! t = Some th ∧ inside (t_ctl th) = true ∧
     ∀ t' th', threads s !! t' = Some th' → inside (t_ctl th') = true → t' = t).

Definition bool_Z (b : bool) : Z := if b then 1 else 0.

(** One thread moves; bmsem counts the threads that are not inside. *)
Lemma mutex_move s s' t th c : mutex s → threads s !! t = Some th → threads s' = <[t := set_ctl th c]> (threads s) →
  bmsem s' + bool_Z (inside c) = bmsem s + bool_Z (inside (t_ctl th)) → 0 <= bmsem s' → mutex s'.
Proof.
  intros Hm Hl Hth Hb Hge.
  assert (Hlk : ∀ t' th', threads s' !! t' = Some th' → (t' = t ∧ th' = set_ctl th c) ∨ (t' ≠ t ∧ threads s !! t' = Some th')).
  { intros t' th'. rewrite Hth. intros [[<- <-]|[? ?]]%lookup_insert_Some; auto. }
  assert (Hnew : threads s' !! t = Some (set_ctl th c)) by (rewrite Hth; apply lookup_insert_eq).
  destruct Hm as [[H1 Hno]|(H0' & t0 & th0 & Hl0 & Hin0 & Hu)].
  - rewrite (Hno _ _ Hl) in Hb. destruct (inside c) eqn:Hin; simpl in Hb.
    + right. split; [lia|]. exists t, (set_ctl th c). split_and!; try done. intros t' th' Hl' Hin'.
      destruct (Hlk _ _ Hl') as [[-> _]|[_ Hl2]]; [done|]. by rewrite (Hno _ _ Hl2) in Hin'.
    + left. split; [lia|]. intros t' th' Hl'. destruct (Hlk _ _ Hl') as [[-> ->]|[_ Hl2]]; [done|by eapply Hno].
  - destruct (decide (t0 = t)) as [->|Hne].
    + rewrite Hl in Hl0. injection Hl0 as <-. rewrite Hin0 in Hb. destruct (inside c) eqn:Hin; simpl in Hb.
      * right. split; [lia|]. exists t, (set_ctl th c). split_and!; try done. intros t' th' Hl' Hin'.
        destruct (Hlk _ _ Hl') as [[-> _]|[_ Hl2]]; [done|by eapply Hu].
      * left. split; [lia|]. intros t' th' Hl'. destruct (Hlk _ _ Hl') as [[-> ->]|[Hne Hl2]]; [done|].
        destruct (inside (t_ctl th')) eqn:E; [|done]. by destruct Hne; eapply Hu.
    + assert (inside (t_ctl th) = false) as Hf.
      { destruct (inside (t_ctl th)) eqn:E; [|done]. destruct Hne. symmetry. by eapply Hu. }
      rewrite Hf in Hb. destruct (inside c) eqn:Hin; simpl in Hb; [lia|].
      right. split; [lia|]. exists t0, th0. split_and!; [by rewrite Hth, lookup_insert_ne|done|].
      intros t' th' Hl' Hin'. destruct (Hlk _ _ Hl') as [[-> ->]|[_ Hl2]]; [by simpl in Hin'; congruence|by eapply Hu].
Qed.

(** A thread outside comes or goes. *)
Lemma mutex_spectator s s' t th : threads s !! t = None → threads s' = <[t := th]> (threads s) →
  bmsem s' = bmsem s → inside (t_ctl th) = false → mutex s' ↔ mutex s.
Proof.
  intros Hn Hth Hb Hin. unfold mutex. rewrite Hb, Hth.
  assert (Hlk : ∀ t' th', inside (t_ctl th') = true → <[t := th]> (threads s) !! t' = Some th' ↔ threads s !! t' = Some th').
  { intros t' th' Hi. destruct (decide (t' = t)) as [->|Hne]; [|by rewrite lookup_insert_ne].
    rewrite lookup_insert_eq, Hn. split; [intros [= ->]; congruence|done]. }
  split; intros [[? Hno]|(? & t0 & th0 & Hl0 & Hin0 & Hu)].
  - left. split; [done|]. intros t' th' Hl. destruct (inside (t_ctl th')) eqn:E; [|done].
    rewrite <- E. eapply Hno. by apply Hlk.
  - right. split; [done|]. exists t0, th0. split_and!; [by apply Hlk|done|]. intros t' th' Hl Hi. eapply Hu; [by apply Hlk|done].
  - left. split; [done|]. intros t' th' Hl. destruct (inside (t_ctl th')) eqn:E; [|done].
    rewrite <- E. eapply Hno. by apply Hlk.
  - right. split; [done|]. exists t0, th0. split_and!; [by apply Hlk|done|]. intros t' th' Hl Hi. eapply Hu; [by apply Hlk|done].
Qed.

Lemma mutex_nonneg s : mutex s → 0 <= bmsem s.
Proof. intros [[-> _]|[-> _]]; lia. Qed.

Lemma P_mutex s s1 t th r k s' : mutex s → threads s !! t = Some th → P s1 t th r k = Ok s' →
  threads s1 = threads s → bmsem s1 = bmsem s →
  (if decide (r = BmSem) then inside (t_ctl th) = false ∧ inside (At k) = true ∧ inside (Asleep r k) = false
   else inside (At k) = inside (t_ctl th) ∧ inside (Asleep r k) = inside (t_ctl th)) → mutex s'.
Proof.
  intros Hm Hl HP Hth Hb Hin. pose proof (mutex_nonneg s Hm) as Hge. unfold P in HP.
  destruct (sem_value s1 r) as [v|] eqn:Hv; [|done]. destruct (Z.eqb_spec v 0); injection HP as <-.
  - eapply (mutex_move s _ t th (Asleep r k)); try done; [simpl; by rewrite Hth| |simpl; lia].
    destruct (decide _); [destruct Hin as (-> & _ & ->)|destruct Hin as [_ ->]]; simpl; lia.
  - destruct (decide (r = BmSem)) as [->|Hne].
    + destruct Hin as (H1 & H2 & _). injection Hv as <-.
      eapply (mutex_move s _ t th (At k)); try done; [simpl; by rewrite Hth| |simpl; lia].
      rewrite H1, H2. simpl. lia.
    + destruct Hin as [H1 _]. eapply (mutex_move s _ t th (At k)); try done; rewrite ?H1.
      all: destruct r; try done; simpl; rewrite ?Hth; try done; lia.
Qed.

Lemma V_mutex s s1 t th r k s' : mutex s → threads s !! t = Some th → V s1 t th r k = Ok s' →
  threads s1 = threads s → bmsem s1 = bmsem s →
  (if decide (r = BmSem) then inside (t_ctl th) = true ∧ inside (At k) = false
   else inside (At k) = inside (t_ctl th)) → mutex s'.
Proof.
  intros Hm Hl HP Hth Hb Hin. pose proof (mutex_nonneg s Hm) as Hge. unfold V in HP.
  destruct (sem_value s1 r) as [v|] eqn:Hv; [|done]. injection HP as <-.
  destruct (decide (r = BmSem)) as [->|Hne].
  - destruct Hin as (H1 & H2). injection Hv as <-. eapply (mutex_move s _ t th (At k)); try done; [simpl; by rewrite Hth| |simpl; lia].
    rewrite H1, H2. simpl. lia.
  - eapply (mutex_move s _ t th (At k)); try done; rewrite ?Hin.
    all: destruct r; try done; simpl; rewrite ?Hth; try done; lia.
Qed.

Lemma return_mutex s t th r s' : mutex s → threads s !! t = Some th → return_ s t th r = Ok s' →
  inside (t_ctl th) = false → mutex s'.
Proof.
  intros Hm Hl [= <-] Hin. eapply (mutex_move s _ t th); try done; simpl; [rewrite Hin; simpl; lia|by apply mutex_nonneg].
Qed.

Lemma Remove_same s i s' : Remove s i = Ok s' → threads s' = threads s ∧ bmsem s' = bmsem s.
Proof.
  unfold Remove. intros Hr. apply bind_Ok_inv in Hr as (b & _ & Hr). apply bind_Ok_inv in Hr as (x & _ & Hr).
  destruct x; [|by injection Hr as <-]. apply bind_Ok_inv in Hr as (l & _ & Hr). by injection Hr as <-.
Qed.

Lemma exec_mutex s t th f c s' : mutex s → threads s !! t = Some th → t_ctl th = At (X_open f) →
  ExecUpdate s t th f c = Ok s' → mutex s'.
Proof.
  intros Hm Hl Hc He. unfold ExecUpdate in He.
  destruct (negb (opened c)); [eapply (V_mutex s s); try done; by rewrite Hc|].
  destruct (same_name c); [eapply (V_mutex s s); try done; by rewrite Hc|].
  apply bind_Ok_inv in He as ([pid b] & _ & He). destruct (pid <? 0); [eapply (V_mutex s); try done; by rewrite Hc|].
  apply bind_Ok_inv in He as (l & _ & He). eapply (P_mutex s); try done; by rewrite Hc.
Qed.
Lemma enter_mutex s t th r c s' : mutex s → threads s !! t = Some th → t_ctl th = At (User r) →
  enter s t th c = Ok s' → mutex s'.
Proof.
  intros Hm Hl Hc He. destruct c as [f|pid|ec]; simpl in He.
  - eapply (P_mutex s s); try done; by rewrite Hc.
  - unfold JoinUpdate in He. apply bind_Ok_inv in He as (e & _ & He).
    destruct (negb e); [eapply return_mutex; try done; by rewrite Hc|].
    apply bind_Ok_inv in He as ([o p] & _ & He).
    destruct (negb _); [eapply return_mutex; try done; by rewrite Hc|].
    apply bind_Ok_inv in He as ([o' p'] & _ & He). eapply (P_mutex s s); try done; by rewrite Hc.
  - unfold ExitUpdate in He. destruct (t_pid th =? 0); [done|]. apply bind_Ok_inv in He as (e & Hte & He).
    destruct (negb e).
    { injection He as <-. eapply (mutex_move s _ t th (At (E_finish ec))); try done; rewrite ?Hc; simpl; [lia|by apply mutex_nonneg]. }
    apply bind_Ok_inv in He as ([o p] & _ & He). apply bind_Ok_inv in He as ([o' p'] & _ & He).
    eapply (P_mutex s); try done; by rewrite Hc.
Qed.

Lemma segment_mutex s t th pt c s' : mutex s → threads s !! t = Some th → t_ctl th = At pt →
  segment s t th pt c = Ok s' → mutex s'.
Proof.
  intros Hm Hl Hc He. destruct pt; simpl in He; try (apply bind_Ok_inv in He as (x & Hx & He)).
  - by injection He as <-.
  - eapply return_mutex; try done. by rewrite Hc.
  - by eapply exec_mutex.
  - injection He as <-. set (s1 := set_thread s t (set_ctl th (At (X_multex pid o)))).
    assert (mutex s1) as Hm1.
    { eapply (mutex_move s _ t th (At (X_multex pid o))); try done; rewrite ?Hc; simpl; [lia|by apply mutex_nonneg]. }
    eapply (mutex_spectator s1 _ (fresh (dom (threads s)))); try done.
    apply not_elem_of_dom. simpl. rewrite dom_insert_lookup_L by eauto. apply is_fresh.
  - eapply (V_mutex s s); try done; by rewrite Hc.
  - eapply (V_mutex s s); try done; by rewrite Hc.
  - eapply (V_mutex s); try done; by rewrite Hc.
  - destruct x. eapply (P_mutex s s); try done; by rewrite Hc.
  - destruct x. eapply (V_mutex s s); try done; by rewrite Hc.
  - eapply (V_mutex s); try done; by rewrite Hc.
  - destruct x. eapply (V_mutex s s); try done; by rewrite Hc.
  - destruct x. eapply (P_mutex s s); try done; by rewrite Hc.
  - eapply (P_mutex s s); try done; by rewrite Hc.
  - destruct (Remove_same _ _ _ Hx). eapply (V_mutex s x); try done; by rewrite Hc.
  - injection He as <-. set (s1 := mkPTable _ _ _ _ _ _).
    eapply (mutex_spectator s1 s t th); try done; simpl; [apply lookup_delete_eq|by rewrite insert_delete_eq, insert_id|by rewrite Hc].
Qed.

Lemma act_mutex s a s' : inv s → mutex s → act s a = Some (Ok s') → mutex s'.
Proof.
  intros Hi Hm Ha. unfold act in Ha. destruct (threads s !! actor a) as [th|] eqn:Hl; [|done]. simpl in Ha.
  destruct a as [t c|t c|t]; simpl in Hl.
  - destruct (t_ctl th) as [[]|] eqn:Hc; try done. injection Ha as Ha. by eapply enter_mutex.
  - destruct (t_ctl th) as [pt|] eqn:Hc; [|done].
    assert (segment s t th pt c = Ok s') by (destruct pt; congruence). by eapply segment_mutex.
  - destruct (t_ctl th) as [|r k] eqn:Hc; [done|]. destruct (sem_value s r) as [v|] eqn:Hv; [|done].
    destruct (Z.eqb_spec v 0); [done|]. injection Ha as <-. pose proof (mutex_nonneg s Hm).
    pose proof (i_asleep _ Hi _ _ Hl) as Hk. rewrite Hc in Hk.
    eapply (mutex_move s _ t th (At k)); try done; rewrite ?Hc; destruct r; try done; simpl in *.
    + injection Hv as <-. destruct Hk as [[f ->]|[ec ->]]; simpl; lia.
    + by destruct Hk as [[pid ->]|[[pid ->]|[ec ->]]].
    + by destruct Hk as (j & -> & _).
    + by destruct Hk as [[ec ->] _].
    + injection Hv as <-. lia.
Qed.

(** ** The initial state *)

Definition fresh_map (b : B) : Prop := ba_ok b ∧ ba_size b = MAX_PROCESS ∧ ba_used b = ∅.

Lemma PTable_new_ok b g t0 name : fresh_map b → ∃ s, PTable_new b g t0 name = Ok s ∧ inv s ∧ mutex s.
Proof.
  intros (Hok & Hsz & Hu). unfold PTable_new.
  destruct (ba_Mark_law b 0 Hok) as (b' & Hb & Hok' & Hsz' & Hu'); [by rewrite Hsz|].
  rewrite Hu in Hu'. set (l := <[0%nat := Some 0]> (replicate (Z.to_nat MAX_PROCESS) None)).
  exists (mkPTable l b' 1 {[0 := SetFileName (PCB_new g 0) name]} 1 {[t0 := mkThread 0 g (At (User 0))]}).
  split; [by rewrite Hb|].
  assert (Hl : ∀ i o, 0 <= i → l !! Z.to_nat i = Some (Some o) ↔ i = 0 ∧ o = 0).
  { intros i o Hi. unfold l. destruct (decide (i = 0)) as [->|Hne].
    - rewrite list_lookup_insert_eq by (by rewrite length_replicate; vm_compute; lia). naive_solver.
    - rewrite list_lookup_insert_ne by lia. split; [|naive_solver]. by intros [? _]%lookup_replicate. }
  split.
  - split; unfold entry; cbn [pcb bm heap next threads].
    + by rewrite Hsz'.
    + unfold l. by rewrite length_insert, length_replicate.
    + intros i. rewrite Hu'. split.
      * intros Hi. assert (i = 0) as -> by set_solver. exists 0. by rewrite Hl.
      * intros (o & Hge & Hx%Hl); [|done]. set_solver.
    + intros i o [Hge Hx%Hl]; [|done]. destruct Hx as [-> ->]. rewrite lookup_singleton_eq. eauto.
    + intros o p [<- <-]%lookup_singleton_Some. split; [done|]. split; [done|]. by apply (Hl 0 0).
    + intros t th [<- <-]%lookup_singleton_Some _. exists 0. split; [done|]. by apply (Hl 0 0).
    + intros t t' th th' [<- _]%lookup_singleton_Some [<- _]%lookup_singleton_Some; done.
    + intros t th pid o [_ <-]%lookup_singleton_Some; done.
    + intros o p [_ <-]%lookup_singleton_Some. right. split.
      * intros (t & th & Hth & _ & Hst). simpl in Hth. by apply lookup_singleton_Some in Hth as [_ <-].
      * split_and!; try done. intros t th Hth. simpl in Hth. by apply lookup_singleton_Some in Hth as [_ <-].
    + intros t th i [_ <-]%lookup_singleton_Some; done.
    + intros t th ec [_ <-]%lookup_singleton_Some; done.
    + intros t th [_ <-]%lookup_singleton_Some; done.
  - left. split; [done|]. simpl. by intros t th [_ <-]%lookup_singleton_Some.
Qed.

Lemma reachable_inv b g t0 name s0 s : fresh_map b → PTable_new b g t0 name = Ok s0 → reachable s0 s →
  inv s ∧ mutex s.
Proof.
  intros Hf Hs0 Hr. destruct (PTable_new_ok b g t0 name Hf) as (s0' & Hs0' & Hi & Hm).
  rewrite Hs0 in Hs0'. injection Hs0' as <-. induction Hr as [|s a s' Hr IH Ha]; [done|].
  destruct IH. eauto using act_inv, act_mutex.
Qed.
End Invariant.
