(* ===== verification/ProcTableSpec.v ===== *)
(** * What the process table promises

    Consistency of the table, what Join returns, the exchange between a parent
    in Join and a child in Exit, and two ways in which it goes wrong. *)

From Stdlib Require Import ZArith Lia Bool.
From S2P Require Import Prelude Bitmap ProcTable ProcTableProofs.

Local Open Scope Z_scope.

Section Promises.
Context {B : Type} `{BitAllocLaws B}.

Implicit Types (s : PTable B) (t o i : Z) (th : Thread) (p : PCB).

(** The states of a running system. *)
Definition running s : Prop :=
  ∃ b g t0 name s0, fresh_map b ∧ PTable_new b g t0 name = Ok s0 ∧ reachable s0 s.

Lemma running_inv s : running s → inv s ∧ mutex s.
Proof. intros (b & g & t0 & name & s0 & Hf & Hs0 & Hr). by eapply reachable_inv. Qed.

(** The process a thread runs is not gone. *)
Definition alive th : Prop := ∀ ec, t_ctl th ≠ At (E_finish ec).

Lemma alive_stage th : alive th ↔ stage (t_ctl th) ≠ 3%nat.
Proof. unfold alive. destruct (t_ctl th) as [[]|? []]; simpl; naive_solver. Qed.

(** ** The exchange between Join and Exit *)

(** A system in which the two threads [t] and [t'] run, in any order, without
    making new calls, gets to [Q]. *)
Definition kernel_of t t' (a : action) : Prop :=
  match a with Call _ _ => False | Run x _ | Wake x => x = t ∨ x = t' end.

Inductive eventually t t' (Q : PTable B → Prop) s : Prop :=
| ev_now : Q s → eventually t t' Q s
| ev_step :
    (∃ a r, kernel_of t t' a ∧ act s a = Some r) →
    (∀ a r, kernel_of t t' a → act s a = Some r → ∃ s', r = Ok s') →
    (∀ a s', kernel_of t t' a → act s a = Some (Ok s') → eventually t t' Q s') →
    eventually t t' Q s.

(** The parent [t] and the child [t'], which runs process [i] with PCB [o]. *)
Record pair s t t' th th' i o p : Prop := {
  pr_ne : t ≠ t';
  pr_parent : threads s !! t = Some th;
  pr_child : threads s !! t' = Some th';
  pr_pid : t_pid th' = i;
  pr_entry : entry s i o;
  pr_pcb : heap s !! o = Some p;
}.

Lemma pair_parent s s1 t t' th th' i o p p' c : pair s t t' th th' i o p → threads s1 = threads s →
  pcb s1 = pcb s → heap s1 !! o = Some p' →
  pair (set_thread s1 t (set_ctl th c)) t t' (set_ctl th c) th' i o p'.
Proof.
  intros [] Hth Hpcb Hh. split; simpl; try done; rewrite ?Hth.
  - apply lookup_insert_eq.
  - by rewrite lookup_insert_ne.
  - unfold entry. simpl. by rewrite Hpcb.
Qed.

Lemma pair_child s s1 t t' th th' i o p p' c : pair s t t' th th' i o p → threads s1 = threads s →
  pcb s1 = pcb s → heap s1 !! o = Some p' →
  pair (set_thread s1 t' (set_ctl th' c)) t t' th (set_ctl th' c) i o p'.
Proof.
  intros [] Hth Hpcb Hh. split; simpl; try done; rewrite ?Hth.
  - by rewrite lookup_insert_ne.
  - apply lookup_insert_eq.
  - unfold entry. simpl. by rewrite Hpcb.
Qed.

Lemma set_sem_obj s r o p v : heap s !! o = Some p → r = JoinSem o ∨ r = ExitSem o →
  heap (set_sem s r v) !! o = Some (upd_sem p r v).
Proof. intros Hp Hr. rewrite (set_sem_heap s r o p v Hp Hr). apply lookup_insert_eq. Qed.

(** What a thread does next in the kernel: nothing, or one thing. *)
Definition moves s t (m : option (PTable B)) : Prop :=
  match m with
  | None => (∀ c, act s (Run t c) = None) ∧ act s (Wake t) = None
  | Some s1 => ((∀ c, act s (Run t c) = Some (Ok s1)) ∧ act s (Wake t) = None) ∨
               ((∀ c, act s (Run t c) = None) ∧ act s (Wake t) = Some (Ok s1))
  end.

Lemma moves_act s t m a r : moves s t m → (∃ c, a = Run t c) ∨ a = Wake t → act s a = Some r →
  ∃ s1, m = Some s1 ∧ r = Ok s1.
Proof.
  destruct m as [s1|]; intros Hm Ha Hr.
  - exists s1. split; [done|]. destruct Hm as [[H1 H2]|[H1 H2]], Ha as [[c ->]| ->]; rewrite ?H1, ?H2 in Hr; congruence.
  - destruct Hm as [H1 H2], Ha as [[c ->]| ->]; by rewrite ?H1, ?H2 in Hr.
Qed.

Lemma moves_enabled s t t' s1 : moves s t (Some s1) → ∃ a, kernel_of t t' a ∧ kernel_of t' t a ∧ act s a = Some (Ok s1).
Proof.
  intros [[H1 _]|[_ H1]]; [exists (Run t (mkChoice true true))|exists (Wake t)]; simpl; auto.
Qed.

Lemma ev_moves s t t' m m' Q : moves s t m → moves s t' m' → m ≠ None ∨ m' ≠ None →
  (∀ s1, m = Some s1 → eventually t t' Q s1) → (∀ s1, m' = Some s1 → eventually t t' Q s1) → eventually t t' Q s.
Proof.
  intros Hm Hm' Hsome H1 H2.
  assert (Hany : ∀ a r, kernel_of t t' a → act s a = Some r → ∃ s1, r = Ok s1 ∧ eventually t t' Q s1).
  { intros a r Hk Ha. assert (Hor : ((∃ c, a = Run t c) ∨ a = Wake t) ∨ ((∃ c, a = Run t' c) ∨ a = Wake t')).
    { destruct a as [|x c|x]; [done| |]; destruct Hk as [-> | ->]; eauto. }
    destruct Hor as [Hor|Hor]; [destruct (moves_act s t m a r Hm Hor Ha) as (s1 & -> & ->)
      |destruct (moves_act s t' m' a r Hm' Hor Ha) as (s1 & -> & ->)]; eauto. }
  apply ev_step.
  - destruct m as [s1|].
    { destruct (moves_enabled s t t' s1 Hm) as (a & ? & _ & ?). eauto. }
    destruct m' as [s1|]; [|by destruct Hsome].
    destruct (moves_enabled s t' t s1 Hm') as (a & _ & ? & ?). eauto.
  - intros a r Hk Ha. destruct (Hany a r Hk Ha) as (s1 & -> & _). eauto.
  - intros a s1 Hk Ha. by destruct (Hany a _ Hk Ha) as (s2 & [= <-] & ?).
Qed.

Lemma act_asleep s t th r k v : threads s !! t = Some th → t_ctl th = Asleep r k → sem_value s r = Some v →
  moves s t (if v =? 0 then None else Some (set_thread (set_sem s r (v - 1)) t (set_ctl th (At k)))).
Proof.
  intros Hl Hc Hv.
  assert (Hr : ∀ c, act s (Run t c) = None) by (intros c; unfold act; simpl; by rewrite Hl; simpl; rewrite Hc).
  assert (Hw : act s (Wake t) = if v =? 0 then None else Some (Ok (set_thread (set_sem s r (v - 1)) t (set_ctl th (At k))))).
  { unfold act. simpl. rewrite Hl. simpl. by rewrite Hc, Hv. }
  destruct (v =? 0); simpl; [done|by right].
Qed.

Lemma act_at s t th k s1 : threads s !! t = Some th → t_ctl th = At k → (∀ r, k ≠ User r) →
  (∀ c, segment s t th k c = Ok s1) → moves s t (Some s1).
Proof.
  intros Hl Hc Hk Hs. left. split.
  - intros c. unfold act. simpl. rewrite Hl. simpl. rewrite Hc. rewrite <- (Hs c). destruct k; try done. by destruct (Hk r).
  - unfold act. simpl. rewrite Hl. simpl. by rewrite Hc.
Qed.

Lemma act_user s t th r : threads s !! t = Some th → t_ctl th = At (User r) → moves s t None.
Proof. intros Hl Hc. split; [intros c|]; unfold act; simpl; rewrite Hl; simpl; by rewrite Hc. Qed.

(** P and V on a semaphore of the child's PCB. *)
Definition P_result s t th r (v : Z) (k : point) : PTable B :=
  if v =? 0 then set_thread s t (set_ctl th (Asleep r k))
  else set_thread (set_sem s r (v - 1)) t (set_ctl th (At k)).

Lemma moves_J_wait s t t' th th' i o p : pair s t t' th th' i o p → t_ctl th = At (J_wait i) →
  moves s t (Some (P_result s t th (JoinSem o) (joinsem p) (J_code i))).
Proof.
  intros [] Hc. eapply act_at; try done. intros c. simpl. rewrite (proj2 (slot_entry s i o p)) by done. simpl.
  unfold P, P_result. simpl. rewrite pr_pcb0. simpl. by destruct (joinsem p =? 0).
Qed.

Lemma moves_J_code s t t' th th' i o p : pair s t t' th th' i o p → t_ctl th = At (J_code i) →
  moves s t (Some (set_thread (set_sem s (ExitSem o) (exitsem p + 1)) t (set_ctl th (At (User (exitcode p)))))).
Proof.
  intros [] Hc. eapply act_at; try done. intros c. simpl. rewrite (proj2 (slot_entry s i o p)) by done. simpl.
  unfold V. simpl. by rewrite pr_pcb0.
Qed.

Lemma moves_E_join s t t' th th' i o p ec : pair s t t' th th' i o p → t_ctl th' = At (E_join ec) →
  moves s t' (Some (set_thread (set_sem s (JoinSem o) (joinsem p + 1)) t' (set_ctl th' (At (E_exit ec))))).
Proof.
  intros [] Hc. eapply act_at; try done. intros c. simpl. rewrite pr_pid0, (proj2 (slot_entry s i o p)) by done. simpl.
  unfold V. simpl. by rewrite pr_pcb0.
Qed.

Lemma moves_E_exit s t t' th th' i o p ec : pair s t t' th th' i o p → t_ctl th' = At (E_exit ec) →
  moves s t' (Some (P_result s t' th' (ExitSem o) (exitsem p) (E_remove ec))).
Proof.
  intros [] Hc. eapply act_at; try done. intros c. simpl. rewrite pr_pid0, (proj2 (slot_entry s i o p)) by done. simpl.
  unfold P, P_result. simpl. rewrite pr_pcb0. simpl. by destruct (exitsem p =? 0).
Qed.
Section Exchange.
Context (t t' i o ec : Z).

(** Parent at [cp], child at [cc], joinsem [js], exitsem [xs], exit code [ec]. *)
Definition st s (cp cc : control) (js xs : Z) : Prop :=
  ∃ th th' p, pair s t t' th th' i o p ∧ t_ctl th = cp ∧ t_ctl th' = cc ∧
    joinsem p = js ∧ exitsem p = xs ∧ exitcode p = ec.

Definition J_asleep : control := Asleep (JoinSem o) (J_code i).
Definition E_asleep : control := Asleep (ExitSem o) (E_remove ec).

(** The parent's thread moves the pair to the state on the right. *)
Definition parent_to s cp cc js xs : Prop := ∃ s1, moves s t (Some s1) ∧ st s1 cp cc js xs.
Definition child_to s cp cc js xs : Prop := ∃ s1, moves s t' (Some s1) ∧ st s1 cp cc js xs.

Lemma st_J_wait s cc js xs : st s (At (J_wait i)) cc js xs →
  if js =? 0 then parent_to s J_asleep cc js xs else parent_to s (At (J_code i)) cc (js - 1) xs.
Proof.
  intros (th & th' & p & Hp & Hc & Hc' & <- & Hx & He). pose proof (moves_J_wait _ _ _ _ _ _ _ _ Hp Hc) as Hm.
  unfold P_result in Hm. destruct (joinsem p =? 0); eexists; (split; [exact Hm|]).
  - exists (set_ctl th J_asleep), th', p. split_and!; try done. eapply pair_parent; try done. apply Hp.
  - exists (set_ctl th (At (J_code i))), th', (upd_sem p (JoinSem o) (joinsem p - 1)). split_and!; try done.
    eapply (pair_parent _ (set_sem _ _ _)); try done. apply set_sem_obj; [apply Hp|by left].
Qed.

Lemma st_J_asleep s cc js xs : st s J_asleep cc js xs →
  if js =? 0 then moves s t None else parent_to s (At (J_code i)) cc (js - 1) xs.
Proof.
  intros (th & th' & p & Hp & Hc & Hc' & <- & Hx & He).
  pose proof (act_asleep s t th _ _ (joinsem p) (pr_parent _ _ _ _ _ _ _ _ Hp) Hc) as Hm.
  simpl in Hm. rewrite (pr_pcb _ _ _ _ _ _ _ _ Hp) in Hm. specialize (Hm eq_refl).
  destruct (joinsem p =? 0); [done|]. eexists. split; [exact Hm|].
  exists (set_ctl th (At (J_code i))), th', (upd_sem p (JoinSem o) (joinsem p - 1)). split_and!; try done.
  eapply (pair_parent s (set_sem s (JoinSem o) (joinsem p - 1))); try done. apply set_sem_obj; [apply Hp|by left].
Qed.

Lemma st_J_code s cc js xs : st s (At (J_code i)) cc js xs → parent_to s (At (User ec)) cc js (xs + 1).
Proof.
  intros (th & th' & p & Hp & Hc & Hc' & Hj & <- & He). pose proof (moves_J_code _ _ _ _ _ _ _ _ Hp Hc) as Hm.
  rewrite He in Hm. eexists. split; [exact Hm|].
  exists (set_ctl th (At (User ec))), th', (upd_sem p (ExitSem o) (exitsem p + 1)). split_and!; try done.
  eapply (pair_parent s (set_sem s (ExitSem o) (exitsem p + 1))); try done. apply set_sem_obj; [apply Hp|by right].
Qed.

Lemma st_user s cc js xs : st s (At (User ec)) cc js xs → moves s t None.
Proof. intros (th & th' & p & Hp & Hc & _). eapply act_user; [apply Hp|done]. Qed.

Lemma st_E_join s cp js xs : st s cp (At (E_join ec)) js xs → child_to s cp (At (E_exit ec)) (js + 1) xs.
Proof.
  intros (th & th' & p & Hp & Hc & Hc' & <- & Hx & He). pose proof (moves_E_join _ _ _ _ _ _ _ _ _ Hp Hc') as Hm.
  eexists. split; [exact Hm|].
  exists th, (set_ctl th' (At (E_exit ec))), (upd_sem p (JoinSem o) (joinsem p + 1)). split_and!; try done.
  eapply (pair_child s (set_sem s (JoinSem o) (joinsem p + 1))); try done. apply set_sem_obj; [apply Hp|by left].
Qed.

Lemma st_E_exit s cp js xs : st s cp (At (E_exit ec)) js xs →
  if xs =? 0 then child_to s cp E_asleep js xs else child_to s cp (At (E_remove ec)) js (xs - 1).
Proof.
  intros (th & th' & p & Hp & Hc & Hc' & Hj & <- & He). pose proof (moves_E_exit _ _ _ _ _ _ _ _ _ Hp Hc') as Hm.
  unfold P_result in Hm. destruct (exitsem p =? 0); eexists; (split; [exact Hm|]).
  - exists th, (set_ctl th' E_asleep), p. split_and!; try done. eapply pair_child; try done. apply Hp.
  - exists th, (set_ctl th' (At (E_remove ec))), (upd_sem p (ExitSem o) (exitsem p - 1)). split_and!; try done.
    eapply (pair_child _ (set_sem _ _ _)); try done. apply set_sem_obj; [apply Hp|by right].
Qed.

Lemma st_E_asleep s cp js xs : st s cp E_asleep js xs →
  if xs =? 0 then moves s t' None else child_to s cp (At (E_remove ec)) js (xs - 1).
Proof.
  intros (th & th' & p & Hp & Hc & Hc' & Hj & <- & He).
  pose proof (act_asleep s t' th' _ _ (exitsem p) (pr_child _ _ _ _ _ _ _ _ Hp) Hc') as Hm.
  simpl in Hm. rewrite (pr_pcb _ _ _ _ _ _ _ _ Hp) in Hm. specialize (Hm eq_refl).
  destruct (exitsem p =? 0); [done|]. eexists. split; [exact Hm|].
  exists th, (set_ctl th' (At (E_remove ec))), (upd_sem p (ExitSem o) (exitsem p - 1)). split_and!; try done.
  eapply (pair_child s (set_sem s (ExitSem o) (exitsem p - 1))); try done. apply set_sem_obj; [apply Hp|by right].
Qed.

(** Join has returned the exit code and the child goes on to Remove. *)
Definition exchanged s : Prop := st s (At (User ec)) (At (E_remove ec)) 0 0.

(** Both threads can move, or only one of them. *)
Lemma ev_parent s cp cc js xs : parent_to s cp cc js xs → moves s t' None →
  (∀ s1, st s1 cp cc js xs → eventually t t' exchanged s1) → eventually t t' exchanged s.
Proof.
  intros (s1 & Hm & Hs) Hn IH. eapply (ev_moves s t t' (Some s1) None); try done; [by left|].
  intros s2 [= <-]. by apply IH.
Qed.

Lemma ev_child s cp cc js xs : moves s t None → child_to s cp cc js xs →
  (∀ s1, st s1 cp cc js xs → eventually t t' exchanged s1) → eventually t t' exchanged s.
Proof.
  intros Hn (s1 & Hm & Hs) IH. eapply (ev_moves s t t' None (Some s1)); try done; [by right|].
  intros s2 [= <-]. by apply IH.
Qed.

Lemma ev_both s cp cc js xs cp' cc' js' xs' : parent_to s cp cc js xs → child_to s cp' cc' js' xs' →
  (∀ s1, st s1 cp cc js xs → eventually t t' exchanged s1) →
  (∀ s1, st s1 cp' cc' js' xs' → eventually t t' exchanged s1) → eventually t t' exchanged s.
Proof.
  intros (s1 & Hm & Hs) (s2 & Hm' & Hs') IH IH'. eapply (ev_moves s t t' (Some s1) (Some s2)); try done; [by left| |].
  - intros s3 [= <-]. by apply IH.
  - intros s3 [= <-]. by apply IH'.
Qed.

Lemma ev_done s : exchanged s → eventually t t' exchanged s.
Proof. apply ev_now. Qed.

Lemma ev_user s cc : cc = At (E_exit ec) ∨ cc = E_asleep → st s (At (User ec)) cc 0 1 → eventually t t' exchanged s.
Proof.
  intros [-> | ->] Hs; eapply ev_child; eauto using st_user, ev_done.
  - exact (st_E_exit _ _ _ _ Hs).
  - exact (st_E_asleep _ _ _ _ Hs).
Qed.

Lemma ev_code s cc : cc = At (E_exit ec) ∨ cc = E_asleep → st s (At (J_code i)) cc 0 0 → eventually t t' exchanged s.
Proof.
  intros [-> | ->] Hs.
  - eapply ev_both; [exact (st_J_code _ _ _ _ Hs)|exact (st_E_exit _ _ _ _ Hs)| |].
    + intros s1. apply ev_user. by left.
    + intros s1 Hs1. eapply ev_parent; [exact (st_J_code _ _ _ _ Hs1)|exact (st_E_asleep _ _ _ _ Hs1)|].
      intros s2. apply ev_user. by right.
  - eapply ev_parent; [exact (st_J_code _ _ _ _ Hs)|exact (st_E_asleep _ _ _ _ Hs)|].
    intros s2. apply ev_user. by right.
Qed.

Lemma st_J_wait_any s cp cc : cp = At (J_wait i) ∨ cp = J_asleep → st s cp cc 1 0 → parent_to s (At (J_code i)) cc 0 0.
Proof. intros [-> | ->] Hs; [exact (st_J_wait _ _ _ _ Hs)|exact (st_J_asleep _ _ _ _ Hs)]. Qed.

Lemma ev_wait s cp : cp = At (J_wait i) ∨ cp = J_asleep → st s cp (At (E_exit ec)) 1 0 → eventually t t' exchanged s.
Proof.
  intros Hcp Hs. eapply ev_both; [eapply st_J_wait_any; [exact Hcp|exact Hs]|exact (st_E_exit _ _ _ _ Hs)| |].
  - intros s1. apply ev_code. by left.
  - intros s1 Hs1. eapply ev_parent; [eapply st_J_wait_any; [exact Hcp|exact Hs1]|exact (st_E_asleep _ _ _ _ Hs1)|].
    intros s2. apply ev_code. by right.
Qed.

Lemma ev_start s : st s (At (J_wait i)) (At (E_join ec)) 0 0 → eventually t t' exchanged s.
Proof.
  intros Hs. eapply ev_both; [exact (st_J_wait _ _ _ _ Hs)|exact (st_E_join _ _ _ _ Hs)| |].
  - intros s1 Hs1. eapply ev_child; [exact (st_J_asleep _ _ _ _ Hs1)|exact (st_E_join _ _ _ _ Hs1)|].
    intros s2. apply ev_wait. by right.
  - intros s1. apply ev_wait. by left.
Qed.
End Exchange.
Lemma ev_mono t t' (Q Q' : PTable B → Prop) s : (∀ s, Q s → Q' s) → eventually t t' Q s → eventually t t' Q' s.
Proof. intros Hq. induction 1 as [|s Hen Hok _ IH]; [by apply ev_now, Hq|by apply ev_step]. Qed.

Lemma run_reachable s l s' : run s l = Some (Ok s') → reachable s s'.
Proof.
  assert (Hgen : ∀ l s0 s, reachable s0 s → run s l = Some (Ok s') → reachable s0 s').
  { clear l. intros l. induction l as [|a l' IH]; intros s0 s1 Hr Hs; simpl in Hs; [by injection Hs as <-|].
    destruct (act s1 a) as [[s2| | | |]|] eqn:Ha; try done. eapply IH; [|done]. by eapply r_step. }
  apply Hgen, r_refl.
Qed.

(** A step of one thread leaves the others where they are. *)
Lemma P_other s t0 th0 r k s' t : P s t0 th0 r k = Ok s' → t0 ≠ t → threads s' !! t = threads s !! t.
Proof.
  intros HP Hne. unfold P in HP. destruct (sem_value s r); [|done].
  destruct (_ =? 0); injection HP as <-; destruct r; simpl; by rewrite lookup_insert_ne.
Qed.

Lemma V_other s t0 th0 r k s' t : V s t0 th0 r k = Ok s' → t0 ≠ t → threads s' !! t = threads s !! t.
Proof.
  intros HP Hne. unfold V in HP. destruct (sem_value s r); [|done].
  injection HP as <-; destruct r; simpl; by rewrite lookup_insert_ne.
Qed.

Lemma enter_other s t0 th0 c s' t : enter s t0 th0 c = Ok s' → t0 ≠ t → threads s' !! t = threads s !! t.
Proof.
  intros Ha Hne. destruct c as [f|pid|ec]; simpl in Ha.
  - by eapply P_other.
  - unfold JoinUpdate in Ha. apply bind_Ok_inv in Ha as (e & _ & Ha).
    destruct (negb e); [injection Ha as <-; by apply lookup_insert_ne|].
    apply bind_Ok_inv in Ha as ([] & _ & Ha). destruct (negb _); [injection Ha as <-; by apply lookup_insert_ne|].
    apply bind_Ok_inv in Ha as ([] & _ & Ha). by eapply P_other.
  - unfold ExitUpdate in Ha. destruct (_ =? 0); [done|]. apply bind_Ok_inv in Ha as (e & _ & Ha).
    destruct (negb e); [injection Ha as <-; by apply lookup_insert_ne|].
    apply bind_Ok_inv in Ha as ([o p] & _ & Ha). apply bind_Ok_inv in Ha as ([] & _ & Ha).
    by rewrite (P_other _ _ _ _ _ _ t Ha Hne).
Qed.

Lemma exec_other s t0 th0 f c s' t : ExecUpdate s t0 th0 f c = Ok s' → t0 ≠ t → threads s' !! t = threads s !! t.
Proof.
  intros Hs Hne. unfold ExecUpdate in Hs. destruct (negb _); [by eapply V_other|]. destruct (same_name c); [by eapply V_other|].
  apply bind_Ok_inv in Hs as ([] & _ & Hs). destruct (_ <? 0); [by rewrite (V_other _ _ _ _ _ _ t Hs Hne)|].
  apply bind_Ok_inv in Hs as (l & _ & Hs). by rewrite (P_other _ _ _ _ _ _ t Hs Hne).
Qed.

Lemma segment_other s t0 th0 pt c s' t : segment s t0 th0 pt c = Ok s' → t0 ≠ t → is_Some (threads s !! t) →
  threads s' !! t = threads s !! t.
Proof.
  intros Hs Hne Hsome. destruct pt; simpl in Hs; try (apply bind_Ok_inv in Hs as (y & Hy & Hs)).
  - by injection Hs as <-.
  - injection Hs as <-. by apply lookup_insert_ne.
  - by eapply exec_other.
  - injection Hs as <-. simpl. rewrite lookup_insert_ne; [by rewrite lookup_insert_ne|].
    intros Heq. apply (is_fresh (dom (threads s))). rewrite Heq. by apply elem_of_dom.
  - by eapply V_other.
  - by eapply V_other.
  - by rewrite (V_other _ _ _ _ _ _ t Hs Hne).
  - destruct y. by eapply P_other.
  - destruct y. by eapply V_other.
  - by rewrite (V_other _ _ _ _ _ _ t Hs Hne).
  - destruct y. by eapply V_other.
  - destruct y. by eapply P_other.
  - by eapply P_other.
  - destruct (Remove_same _ _ _ Hy) as [Hth _]. by rewrite (V_other _ _ _ _ _ _ t Hs Hne), Hth.
  - injection Hs as <-. simpl. by rewrite lookup_delete_ne.
Qed.

Lemma act_other s a s' t : act s a = Some (Ok s') → actor a ≠ t → is_Some (threads s !! t) →
  threads s' !! t = threads s !! t.
Proof.
  intros Ha Hne Hl. unfold act in Ha. destruct (threads s !! actor a) as [th0|] eqn:Hl0; [|done]. simpl in Ha.
  destruct a as [x c|x c|x]; simpl in *.
  - destruct (t_ctl th0) as [[]|]; try done. injection Ha as Ha. by eapply enter_other.
  - destruct (t_ctl th0) as [pt|]; [|done].
    assert (Hs : segment s x th0 pt c = Ok s') by (destruct pt; congruence). by eapply segment_other.
  - destruct (t_ctl th0) as [|r k]; [done|]. destruct (sem_value s r); [|done]. destruct (_ =? 0); [done|].
    injection Ha as <-. destruct r; simpl; by rewrite lookup_insert_ne.
Qed.

(** Addresses of PCB objects are not used twice: what is deleted stays so. *)
Definition older s s' : Prop := next s <= next s' ∧ ∀ o, o < next s → heap s !! o = None → heap s' !! o = None.

Lemma older_refl s s' : next s' = next s → heap s' = heap s → older s s'.
Proof. intros H1 H2. unfold older. rewrite H1, H2. split; [lia|done]. Qed.

Lemma older_trans s s1 s2 : older s s1 → older s1 s2 → older s s2.
Proof. intros [H1 H2] [H3 H4]. split; [lia|]. intros o Ho Hn. apply H4; [lia|by apply H2]. Qed.

Lemma older_put s o p p' : heap s !! o = Some p → older s (put_obj s o p').
Proof. intros Hp. split; simpl; [lia|]. intros o' _ Hn. rewrite lookup_insert_ne; [done|congruence]. Qed.

Lemma older_sem s r v : older s (set_sem s r v).
Proof.
  destruct r as [|o|o|o]; split; simpl; try done; intros o' _ Hn; by rewrite lookup_alter_None.
Qed.

Lemma P_older s t th r k s' : P s t th r k = Ok s' → older s s'.
Proof.
  intros HP. unfold P in HP. destruct (sem_value s r) as [v|]; [|done].
  destruct (_ =? 0); injection HP as <-; [by apply older_refl|].
  eapply older_trans; [apply (older_sem s r (v - 1))|by apply older_refl].
Qed.

Lemma V_older s t th r k s' : V s t th r k = Ok s' → older s s'.
Proof.
  intros HP. unfold V in HP. destruct (sem_value s r) as [v|]; [|done]. injection HP as <-.
  eapply older_trans; [apply (older_sem s r (v + 1))|by apply older_refl].
Qed.

Lemma enter_older s t th c s' : enter s t th c = Ok s' → older s s'.
Proof.
  intros Ha. destruct c as [f|pid|ec]; simpl in Ha.
  - by eapply P_older.
  - unfold JoinUpdate in Ha. apply bind_Ok_inv in Ha as (e & _ & Ha).
    destruct (negb e); [injection Ha as <-; by apply older_refl|].
    apply bind_Ok_inv in Ha as ([] & _ & Ha). destruct (negb _); [injection Ha as <-; by apply older_refl|].
    apply bind_Ok_inv in Ha as ([] & _ & Ha). by eapply P_older.
  - unfold ExitUpdate in Ha. destruct (_ =? 0); [done|]. apply bind_Ok_inv in Ha as (e & _ & Ha).
    destruct (negb e); [injection Ha as <-; by apply older_refl|].
    apply bind_Ok_inv in Ha as ([o p] & Hs & Ha). apply bind_Ok_inv in Ha as ([] & _ & Ha).
    eapply older_trans; [|by eapply P_older]. apply slot_entry in Hs as [_ Hp]. by eapply older_put.
Qed.

Lemma exec_older s t th f c s' : ExecUpdate s t th f c = Ok s' → older s s'.
Proof.
  intros Hs. unfold ExecUpdate in Hs. destruct (negb _); [by eapply V_older|]. destruct (same_name c); [by eapply V_older|].
  apply bind_Ok_inv in Hs as ([] & _ & Hs). destruct (_ <? 0); [by eapply older_trans; [|by eapply V_older]; apply older_refl|].
  apply bind_Ok_inv in Hs as (l & _ & Hs). eapply older_trans; [|by eapply P_older].
  split; simpl; [lia|]. intros o Ho Hn. by rewrite lookup_insert_ne by lia.
Qed.

Lemma obj_Some s o p : obj s o = Ok p → heap s !! o = Some p.
Proof. unfold obj. destruct (heap s !! o); [|done]. by intros [= ->]. Qed.

Lemma Remove_older s i s' : Remove s i = Ok s' → older s s'.
Proof.
  unfold Remove. intros Hr. apply bind_Ok_inv in Hr as (b & _ & Hr). apply bind_Ok_inv in Hr as (x & _ & Hr).
  destruct x; [|injection Hr as <-; by apply older_refl]. apply bind_Ok_inv in Hr as (l & _ & Hr). injection Hr as <-.
  split; simpl; [lia|]. intros o Ho Hn. by rewrite lookup_delete_None; right.
Qed.

Lemma segment_older s t th pt c s' : segment s t th pt c = Ok s' → older s s'.
Proof.
  intros Hs. destruct pt; simpl in Hs; try (apply bind_Ok_inv in Hs as (y & Hy & Hs)); try (by eapply V_older); try (by eapply P_older).
  - injection Hs as <-. by apply older_refl.
  - injection Hs as <-. by apply older_refl.
  - by eapply exec_older.
  - injection Hs as <-. by apply older_refl.
  - eapply older_trans; [|by eapply V_older]. by eapply older_put, obj_Some.
  - destruct y. by eapply P_older.
  - destruct y. by eapply V_older.
  - eapply older_trans; [|by eapply V_older]. by eapply older_put, obj_Some.
  - destruct y. by eapply V_older.
  - destruct y. by eapply P_older.
  - eapply older_trans; [by eapply Remove_older|by eapply V_older].
  - injection Hs as <-. by apply older_refl.
Qed.

Lemma act_older s a s' : act s a = Some (Ok s') → older s s'.
Proof.
  intros Ha. unfold act in Ha. destruct (threads s !! actor a) as [th0|] eqn:Hl0; [|done]. simpl in Ha.
  destruct a as [x c|x c|x]; simpl in *.
  - destruct (t_ctl th0) as [[]|]; try done. injection Ha as Ha. by eapply enter_older.
  - destruct (t_ctl th0) as [pt|]; [|done].
    assert (Hs : segment s x th0 pt c = Ok s') by (destruct pt; congruence). by eapply segment_older.
  - destruct (t_ctl th0) as [|r k]; [done|]. destruct (sem_value s r); [|done]. destruct (_ =? 0); [done|].
    injection Ha as <-. eapply older_trans; [apply older_sem|by apply older_refl].
Qed.

(** A thread that sleeps in a semaphore of a deleted PCB never goes on. *)
Lemma lost_forever s s' t th o k : reachable s s' → threads s !! t = Some th → t_ctl th = Asleep (JoinSem o) k →
  o < next s → heap s !! o = None → threads s' !! t = Some th ∧ o < next s' ∧ heap s' !! o = None.
Proof.
  intros Hr Hl Hc Ho Hn. induction Hr as [|s1 a s2 _ IH Ha]; [done|]. destruct IH as (Hl1 & Ho1 & Hn1).
  destruct (act_older _ _ _ Ha) as [Hnx Hgone]. split; [|split; [lia|by apply Hgone]].
  destruct (decide (actor a = t)) as [Heq|Hne]; [|by rewrite (act_other _ _ _ _ Ha Hne)].
  exfalso. unfold act in Ha. rewrite Heq, Hl1 in Ha. simpl in Ha. rewrite Hc in Ha. destruct a; try done.
  simpl in Ha. by rewrite Hn1 in Ha.
Qed.
(** C10: the process table stays consistent under every interleaving of the
    calls of any number of processes: a bit of the bit map is set exactly when
    the entry points to a live PCB object that has this number, no PCB object is
    left without an entry, every process that has not finished has its entry and
    shares its number with no other, and at most one thread is in the section
    bmsem protects, nobody when the semaphore is free. *)
Theorem process_table_consistent s : running s →
  (∀ i, i ∈ ba_used (bm s) ↔ ∃ o p, entry s i o ∧ heap s !! o = Some p ∧ pcb_id p = i) ∧
  (∀ o p, heap s !! o = Some p → entry s (pcb_id p) o) ∧
  (∀ t th, threads s !! t = Some th → alive th → t_pid th ∈ ba_used (bm s)) ∧
  (∀ t t' th th', threads s !! t = Some th → threads s !! t' = Some th' → alive th → alive th' →
     t_pid th = t_pid th' → t = t') ∧
  (bmsem s = 1 ∨ bmsem s = 0) ∧
  (∀ t th, threads s !! t = Some th → inside (t_ctl th) = true → bmsem s = 0 ∧
     ∀ t' th', threads s !! t' = Some th' → inside (t_ctl th') = true → t' = t).
Proof.
  intros Hr. destruct (running_inv s Hr) as [Hi Hm]. split_and!.
  - intros i. rewrite (i_used _ Hi). split; [|naive_solver]. intros [o Ho].
    destruct (i_entry _ Hi _ _ Ho) as (p & ? & ?). eauto.
  - intros o p Hp. by apply (i_heap _ Hi).
  - intros t th Hl Ha%alive_stage. rewrite (i_used _ Hi). by eapply (i_owner _ Hi).
  - intros t t' th th' Hl Hl' Ha%alive_stage Ha'%alive_stage. by eapply (i_unique _ Hi).
  - destruct Hm as [[? _]|[? _]]; auto.
  - intros t th Hl Hin. destruct Hm as [[_ Hno]|(? & t0 & th0 & Hl0 & _ & Hu)].
    + rewrite (Hno _ _ Hl) in Hin. done.
    + split; [done|]. intros t' th' Hl' Hin'. rewrite (Hu t' th' Hl' Hin'). symmetry. by eapply Hu.
Qed.

(** C11: a parent that has passed JoinWait is about to return the value that its
    child gave to Exit: the child's PCB is still there, the child waits in
    ExitWait, and the step ends in user mode with the child's exit code. *)
Theorem join_returns_exit_code s t th i c : running s → threads s !! t = Some th → t_ctl th = At (J_code i) →
  ∃ t' child ec s', threads s !! t' = Some child ∧ t_pid child = i ∧
    (t_ctl child = At (E_exit ec) ∨ ∃ o, t_ctl child = Asleep (ExitSem o) (E_remove ec)) ∧
    act s (Run t c) = Some (Ok s') ∧ threads s' !! t = Some (set_ctl th (At (User ec))).
Proof.
  intros Hr Hl Hc. destruct (running_inv s Hr) as [Hi _].
  destruct (i_join _ Hi t th i Hl) as [o Ho]; [by rewrite Hc|]. destruct (i_entry _ Hi _ _ Ho) as (p & Hp & Hid).
  destruct (sync_jcode s p t th (i_sync _ Hi _ _ Hp) Hl) as ((t' & th' & Hl' & Hpid & Hst) & _ & _ & _).
  { by rewrite Hc, Hid. }
  assert (Hk : ∃ ec, exiting (t_ctl th') = Some ec ∧
    (t_ctl th' = At (E_exit ec) ∨ ∃ o, t_ctl th' = Asleep (ExitSem o) (E_remove ec))).
  { pose proof (i_asleep _ Hi _ _ Hl') as Ha. destruct (t_ctl th') as [[]|r []]; try done; simpl in *; [eauto|].
    exists ec. split; [done|]. right. destruct r; [destruct Ha as [[? ?]|[? ?]]|..]; try done; naive_solver. }
  destruct Hk as (ec & Hex & Hk). destruct (i_code _ Hi _ _ _ Hl' Hex) as (o' & p' & Ho' & Hp' & Hec).
  rewrite Hpid, Hid in Ho'. rewrite (entry_unique _ _ _ _ Ho' Ho), Hp in Hp'. injection Hp' as <-.
  assert (Hpr : pair s t t' th th' i o p).
  { split; try done; [|congruence]. intros <-. rewrite Hl in Hl'. injection Hl' as <-. by rewrite Hc in Hst. }
  destruct (moves_J_code _ _ _ _ _ _ _ _ Hpr Hc) as [[Hm _]|[Hm _]].
  - exists t', th', ec. eexists. split_and!; try done; [congruence|]. simpl. rewrite Hec. apply lookup_insert_eq.
  - specialize (Hm c). unfold act in Hm. simpl in Hm. rewrite Hl in Hm. simpl in Hm. by rewrite Hc in Hm.
Qed.

(** C12: no deadlock between Join and Exit: when a parent has come to JoinWait
    and its child to JoinRelease, then in whatever order the two threads run (and
    sleep and wake up), every step of them returns, one of them can always go on,
    and they get to where Join has returned the child's exit code and the child
    has the permission to exit. *)
Theorem exchange_completes s t t' th th' i ec : running s →
  threads s !! t = Some th → t_ctl th = At (J_wait i) →
  threads s !! t' = Some th' → t_pid th' = i → t_ctl th' = At (E_join ec) →
  eventually t t' (λ s', ∃ th1 th1', threads s' !! t = Some th1 ∧ t_ctl th1 = At (User ec) ∧
    threads s' !! t' = Some th1' ∧ t_ctl th1' = At (E_remove ec)) s.
Proof.
  intros Hr Hl Hc Hl' Hpid Hc'. destruct (running_inv s Hr) as [Hi _].
  destruct (i_code _ Hi t' th' ec Hl') as (o & p & Ho & Hp & Hec); [by rewrite Hc'|]. rewrite Hpid in Ho.
  destruct (i_entry _ Hi _ _ Ho) as (p0 & Hp0 & Hid). rewrite Hp in Hp0. injection Hp0 as <-.
  apply (ev_mono t t' (exchanged t t' i o ec)).
  { intros s' (th1 & th1' & p1 & [] & ? & ? & _). eauto 10. }
  apply ev_start. exists th, th', p.
  assert (Hst : ¬ stage1 s (pcb_id p)).
  { rewrite Hid, <- Hpid. rewrite (owner_stage s t' th' Hi Hl') by (by rewrite Hc'). by rewrite Hc'. }
  destruct (i_sync _ Hi _ _ Hp) as [[? _]|[_ (Hj & Hx & _)]]; [done|].
  split_and!; try done. split; try done. congruence.
Qed.

(** C37: a process whose parent is gone cannot exit: ExitUpdate follows the NULL
    entry of the parent (DecNumWait on pcb[parentID]), whatever the exit code,
    although the process itself is in order. *)
Theorem orphan_exit_undefined s t th r o p ec : running s → threads s !! t = Some th → t_ctl th = At (User r) →
  t_pid th ≠ 0 → entry s (t_pid th) o → heap s !! o = Some p →
  0 <= parentID p → pcb s !! Z.to_nat (parentID p) = Some None →
  act s (Call t (Exit ec)) = Some Undef.
Proof.
  intros Hr Hl Hc Hne Ho Hp Hge Hnone. destruct (running_inv s Hr) as [Hi _].
  unfold act. simpl. rewrite Hl. simpl. rewrite Hc. f_equal. unfold ExitUpdate.
  destruct (Z.eqb_spec (t_pid th) 0); [done|]. destruct (i_bm _ Hi) as [Hok Hsz]. unfold IsExist.
  pose proof (entry_range _ _ _ Hi Ho) as Hrg. apply in_range_true in Hrg.
  rewrite (ba_Test_law _ _ Hok), Hsz, Hrg. simpl. rewrite bool_decide_true by (apply (i_used _ Hi); eauto). simpl.
  rewrite (proj2 (slot_entry s (t_pid th) o p)) by done. simpl.
  unfold slot. simpl. by rewrite (proj2 (aget_Ok (pcb s) (parentID p) None)).
Qed.
End Promises.

(** ** Runs of the table on the bit map of userprog/bitmap.cc *)

Module Runs.

Definition b0 : BitMap := mkBitMap MAX_PROCESS 1 [0].

Lemma b0_fresh : fresh_map b0.
Proof. split; [split; [done|done|done|by repeat constructor]|split; [done|by vm_compute]]. Qed.

(** The main process is thread 100; the threads Exec makes are 101 and 102. *)
Definition start (l : list action) : option (outcome (PTable BitMap)) :=
  match PTable_new b0 0 100 [] with Ok s => run s l | _ => None end.

Lemma start_running l s : start l = Some (Ok s) → running s.
Proof.
  intros Hs. unfold start in Hs. destruct (PTable_new b0 0 100 []) as [s0| | | |] eqn:H0; try done.
  exists b0, 0, 100, [], s0. split; [apply b0_fresh|]. split; [done|]. by eapply run_reachable.
Qed.

Definition final (l : list action) (d : PTable BitMap) : PTable BitMap :=
  match start l with Some (Ok s) => s | _ => d end.

Definition go (t : Z) : action := Run t (mkChoice true false).

(** Exec of a file that exists; the new thread gets to user mode. *)
Definition exec_ (t child : Z) : list action :=
  [Call t (Exec [120]); go t; go t; go t; go t; go child].

(** Main starts process 1, which starts process 2 and exits with 7. *)
Definition family : list action := exec_ 100 101 ++ exec_ 101 102 ++ [Call 101 (Exit 7); go 101].

(** Main joins process 1. *)
Definition join_1 : list action := [Call 100 (Join 1); go 100].

Definition joined : list action := family ++ join_1 ++ [go 101; go 100].

(** Process 1 is gone, process 2 is left. *)
Definition orphaned : list action := joined ++ [go 100; go 101; go 101; go 101; go 101].

Definition s_of (l : list action) : PTable BitMap := final l (mkPTable [] b0 0 ∅ 0 ∅).
Definition th_of (l : list action) (t : Z) : Thread := default (mkThread 0 0 (At Started)) (threads (s_of l) !! t).

Definition fine (l : list action) : bool := match start l with Some (Ok _) => true | _ => false end.

Lemma s_of_running l : fine l = true → running (s_of l).
Proof.
  unfold fine, s_of, final. destruct (start l) as [[s| | | |]|] eqn:Hs; try done. intros _. by apply (start_running l).
Qed.

(** Two entries in use, and the one process that is past its exit. *)
Lemma process_table_consistent_witness :
  running (s_of family) ∧ 2 ∈ ba_used (bm (s_of family)) ∧
  ∃ o p, entry (s_of family) 2 o ∧ heap (s_of family) !! o = Some p ∧ pcb_id p = 2.
Proof.
  assert (Hr : running (s_of family)) by (apply s_of_running; vm_compute; reflexivity).
  assert (Hu : 2 ∈ ba_used (bm (s_of family))) by (apply elem_of_used; vm_compute; split; [split; congruence|reflexivity]).
  split; [exact Hr|]. split; [exact Hu|]. destruct (process_table_consistent (s_of family) Hr) as [H1 _]. apply H1, Hu.
Defined.

(** Main returns 7 from Join, the value process 1 exited with. *)
Lemma join_returns_exit_code_witness :
  ∃ t' child ec s', threads (s_of joined) !! t' = Some child ∧ t_pid child = 1 ∧
    act (s_of joined) (go 100) = Some (Ok s') ∧ threads s' !! 100 = Some (set_ctl (th_of joined 100) (At (User ec))).
Proof.
  destruct (join_returns_exit_code (s_of joined) 100 (th_of joined 100) 1 (mkChoice true false)) as (t' & child & ec & s' & H1 & H2 & _ & H3 & H4).
  - apply s_of_running; vm_compute; reflexivity.
  - vm_compute; reflexivity.
  - vm_compute; reflexivity.
  - exists t', child, ec, s'. exact (conj H1 (conj H2 (conj H3 H4))).
Defined.

Lemma exchange_completes_witness :
  eventually 100 101 (λ s', ∃ th1 th1', threads s' !! 100 = Some th1 ∧ t_ctl th1 = At (User 7) ∧
    threads s' !! 101 = Some th1' ∧ t_ctl th1' = At (E_remove 7)) (s_of (family ++ join_1)).
Proof.
  apply (exchange_completes (s_of (family ++ join_1)) 100 101
    (th_of (family ++ join_1) 100) (th_of (family ++ join_1) 101) 1 7).
  - apply s_of_running; vm_compute; reflexivity.
  - vm_compute; reflexivity.
  - vm_compute; reflexivity.
  - vm_compute; reflexivity.
  - vm_compute; reflexivity.
  - vm_compute; reflexivity.
Defined.

Lemma orphan_exit_undefined_witness : act (s_of orphaned) (Call 102 (Exit 0)) = Some Undef.
Proof.
  apply (orphan_exit_undefined (s_of orphaned) 102 (th_of orphaned 102) 0 2
    (default (PCB_new 0 0) (heap (s_of orphaned) !! 2)) 0).
  - apply s_of_running; vm_compute; reflexivity.
  - vm_compute; reflexivity.
  - vm_compute; reflexivity.
  - vm_compute; discriminate.
  - vm_compute; split; [discriminate|reflexivity].
  - vm_compute; reflexivity.
  - vm_compute; discriminate.
  - vm_compute; reflexivity.
Defined.

(** Main joins process 1 once more before the process has run again. *)
Definition joined_twice : list action :=
  joined ++ [go 100] ++ join_1 ++ [go 100] ++ [go 101; go 101; go 101; go 101].

(** Joining a child that has exited but has not run since the first Join
    returned is accepted (its bit is still set), and the parent then sleeps in a
    semaphore that Remove deletes: in no continuation does it wake up. *)
Theorem second_join_lost :
  ∃ s th, start joined_twice = Some (Ok s) ∧ threads s !! 100 = Some th ∧ t_ctl th = Asleep (JoinSem 1) (J_code 1) ∧
    ∀ s', reachable s s' → threads s' !! 100 = Some th.
Proof.
  exists (s_of joined_twice), (th_of joined_twice 100). split; [vm_compute; reflexivity|]. split; [vm_compute; reflexivity|]. split; [vm_compute; reflexivity|].
  intros s' Hr. apply (lost_forever (s_of joined_twice) s' 100 (th_of joined_twice 100) 1 (J_code 1)); [exact Hr|vm_compute; reflexivity..].
Qed.
End Runs.
