(* ===== verification/Console.v ===== *)
(** * machine/console.cc and threads/synchcons.cc: the console

    The terminal polls its keyboard by an interrupt every ConsoleTime ticks and
    reports each character it has put out by another one.  SynchConsole waits
    for these with semaphores.  What the keyboard does is an input of the model:
    a list with one element for each time the host is asked.  As in Disk, one
    kernel thread uses the console; while it sleeps the machine idles from
    interrupt to interrupt. *)

From Stdlib Require Import ZArith Lia Bool.
From S2P Require Import Prelude NList Bytes Machine Interrupt InterruptProofs.

Local Open Scope Z_scope.

(** EOF as a char is the byte 255. *)
Definition EOF : Z := 255.

(** What PollFile and Read of the keyboard find: nothing typed yet, a
    character, or the end of the file, which PollFile reports as readable. *)
Inductive key := NoKey | Key (c : Z) | EndOfFile.

(** class Console; the display is the bytes written to it so far.  The handlers
    and their argument are those SynchConsole passes. *)
Record Console := mkConsole {
  keyboard : list key;
  display : list Z;
  putBusy : bool;
  incoming : Z;
}.

Inductive ConsoleHandler := ConsoleReadPoll | ConsoleWriteDone.

Record Sem := mkSem { value : Z; queue : list Z }.
Inductive sem_name := synchReadAvail | synchWriteAvail | RLineBlock | WLineBlock.

(** The console, the four semaphores of synchcons.cc, the ready list. *)
Record World := mkWorld {
  cons : Console;
  read_avail : Sem;
  write_avail : Sem;
  read_line_block : Sem;
  write_line_block : Sem;
  readyList : list Z;
}.

Notation CSys := (Sys ConsoleHandler World).

Definition get_sem (w : World) (x : sem_name) : Sem :=
  match x with
  | synchReadAvail => read_avail w
  | synchWriteAvail => write_avail w
  | RLineBlock => read_line_block w
  | WLineBlock => write_line_block w
  end.

Definition put_sem (w : World) (x : sem_name) (v : Sem) : World :=
  match x with
  | synchReadAvail => mkWorld (cons w) v (write_avail w) (read_line_block w) (write_line_block w) (readyList w)
  | synchWriteAvail => mkWorld (cons w) (read_avail w) v (read_line_block w) (write_line_block w) (readyList w)
  | RLineBlock => mkWorld (cons w) (read_avail w) (write_avail w) v (write_line_block w) (readyList w)
  | WLineBlock => mkWorld (cons w) (read_avail w) (write_avail w) (read_line_block w) v (readyList w)
  end.

Definition set_ready (w : World) (r : list Z) : World :=
  mkWorld (cons w) (read_avail w) (write_avail w) (read_line_block w) (write_line_block w) r.
Definition set_cons (w : World) (c : Console) : World :=
  mkWorld c (read_avail w) (write_avail w) (read_line_block w) (write_line_block w) (readyList w).
Definition set_rest (s : CSys) (w : World) : CSys := mkSys (interrupt s) (stats s) (machine s) w.

(** The body of Semaphore::V: wake the first waiter, count. *)
Definition V_world (w : World) (x : sem_name) : World :=
  let v := get_sem w x in
  match queue v with
  | [] => put_sem w x (mkSem (value v + 1) [])
  | t :: q => set_ready (put_sem w x (mkSem (value v + 1) q)) (readyList w ++ [t])
  end.

(** V in a handler, where interrupts are off before and after. *)
Definition V_handler (s : CSys) (x : sem_name) : outcome CSys := Ok (set_rest s (V_world (rest s) x)).

(** ** machine/console.cc *)

Definition count_char_read (t : Statistics) : Statistics :=
  mkStats (totalTicks t) (idleTicks t) (systemTicks t) (userTicks t) (numDiskReads t)
    (numDiskWrites t) (s32 (numConsoleCharsRead t + 1)) (numConsoleCharsWritten t) (numPageFaults t)
    (numPacketsSent t) (numPacketsRecvd t).
Definition count_char_written (t : Statistics) : Statistics :=
  mkStats (totalTicks t) (idleTicks t) (systemTicks t) (userTicks t) (numDiskReads t)
    (numDiskWrites t) (numConsoleCharsRead t) (s32 (numConsoleCharsWritten t + 1)) (numPageFaults t)
    (numPacketsSent t) (numPacketsRecvd t).

(** Console::Console with standard input and output. *)
Definition Console_new (kbd : list key) (out : list Z) (s : CSys) : outcome CSys :=
  let s := set_rest s (set_cons (rest s) (mkConsole kbd out false EOF)) in
  Schedule s ConsoleReadPoll 0 ConsoleTime ConsoleReadInt.

Definition CheckCharAvail (s : CSys) : outcome CSys :=
  s ← Schedule s ConsoleReadPoll 0 ConsoleTime ConsoleReadInt;
  let c := cons (rest s) in
  if negb (incoming c =? EOF) then Ok s
  else
    let with_kbd kbd inc := set_rest s (set_cons (rest s) (mkConsole kbd (display c) (putBusy c) inc)) in
    match keyboard c with
    | [] => Ok s
    | NoKey :: kbd => Ok (with_kbd kbd (incoming c))
    | EndOfFile :: _ => Aborted
    | Key ch :: kbd =>
        let s := with_kbd kbd ch in
        V_handler (set_stats s (count_char_read (stats s))) synchReadAvail
    end.

Definition WriteDone (s : CSys) : outcome CSys :=
  let c := cons (rest s) in
  let s := set_rest s (set_cons (rest s) (mkConsole (keyboard c) (display c) false (incoming c))) in
  V_handler (set_stats s (count_char_written (stats s))) synchWriteAvail.

Definition GetChar (s : CSys) : Z * CSys :=
  let c := cons (rest s) in
  (incoming c, set_rest s (set_cons (rest s) (mkConsole (keyboard c) (display c) (putBusy c) EOF))).

Definition PutChar (s : CSys) (ch : Z) : outcome CSys :=
  let c := cons (rest s) in
  _ ← ASSERT (negb (putBusy c));
  let s := set_rest s (set_cons (rest s) (mkConsole (keyboard c) (display c ++ [ch]) true (incoming c))) in
  Schedule s ConsoleWriteDone 0 ConsoleTime ConsoleWriteInt.

Definition console_call (h : ConsoleHandler) (a : Z) (s : CSys) : outcome CSys :=
  match h with
  | ConsoleReadPoll => CheckCharAvail s
  | ConsoleWriteDone => WriteDone s
  end.

(** ** Semaphores, in the thread *)

(** Thread::Sleep of the only thread: idle until it is on the ready list. *)
Fixpoint Sleep_until_ready (fuel : nat) (s : CSys) : outcome CSys :=
  match fuel with
  | O => NoFuel
  | S fuel =>
      match readyList (rest s) with
      | _ :: r => Ok (set_rest s (set_ready (rest s) r))
      | [] => s ← Idle console_call s; Sleep_until_ready fuel s
      end
  end.

(** One more than the keyboard has to say is enough for a read, two interrupts
    for a write. *)
Definition sleep_fuel (s : CSys) : nat := length (keyboard (cons (rest s))) + 3.

Fixpoint P_wait (fuel : nat) (x : sem_name) (s : CSys) : outcome CSys :=
  match fuel with
  | O => NoFuel
  | S fuel =>
      let v := get_sem (rest s) x in
      if value v =? 0 then
        s ← Sleep_until_ready (sleep_fuel s) (set_rest s (put_sem (rest s) x (mkSem (value v) (queue v ++ [0]))));
        P_wait fuel x s
      else Ok (set_rest s (put_sem (rest s) x (mkSem (value v - 1) (queue v))))
  end.

(** P and V; a yield OneTick asks for finds no other thread. *)
Definition P (x : sem_name) (s : CSys) : outcome CSys :=
  '(oldLevel, _, s) ← SetLevel console_call s IntOff;
  s ← P_wait 2 x s;
  '(_, _, s) ← SetLevel console_call s oldLevel;
  Ok s.

Definition V (x : sem_name) (s : CSys) : outcome CSys :=
  '(oldLevel, _, s) ← SetLevel console_call s IntOff;
  let s := set_rest s (V_world (rest s) x) in
  '(_, _, s) ← SetLevel console_call s oldLevel;
  Ok s.

(** ** threads/synchcons.cc *)

Definition SynchConsole_new (kbd : list key) (out : list Z) (s : CSys) : outcome CSys :=
  s ← Console_new kbd out s;
  Ok (set_rest s (mkWorld (cons (rest s)) (mkSem 0 []) (mkSem 0 []) (mkSem 1 []) (mkSem 1 []) (readyList (rest s)))).

Fixpoint Write_loop (from : list Z) (s : CSys) : outcome CSys :=
  match from with
  | [] => Ok s
  | ch :: from =>
      s ← PutChar s ch;
      s ← P synchWriteAvail s;
      Write_loop from s
  end.

(** Write(from, numBytes); [from] holds the numBytes bytes. *)
Definition SynchConsole_Write (from : list Z) (s : CSys) : outcome (Z * CSys) :=
  s ← P WLineBlock s;
  s ← Write_loop from s;
  s ← V WLineBlock s;
  Ok (Z.of_nat (length from), s).

(** do { P; ch = GetChar } while (ch == EOF) *)
Fixpoint read_char (fuel : nat) (s : CSys) : outcome (Z * CSys) :=
  match fuel with
  | O => NoFuel
  | S fuel =>
      s ← P synchReadAvail s;
      let '(ch, s) := GetChar s in
      if ch =? EOF then read_char fuel s else Ok (ch, s)
  end.

(** Every P takes one of the characters that have been or will be announced. *)
Definition read_fuel (s : CSys) : nat :=
  Z.to_nat (value (read_avail (rest s))) + length (keyboard (cons (rest s))) + 1.

(** The while loop with room for [n] more characters after those in [acc]: the
    characters stored, the last one read, the state. *)
Fixpoint Read_loop (n : nat) (acc : list Z) (ch : option Z) (s : CSys) : outcome (list Z * option Z * CSys) :=
  match n with
  | O => Ok (acc, ch, s)
  | S n =>
      '(c, s) ← read_char (read_fuel s) s;
      if (c =? 10) || (c =? 1) then Ok (acc, Some c, s)
      else Read_loop n (acc ++ [c]) (Some c) s
  end.

(** Read(into, numBytes): the value returned and the numBytes bytes of into.
    When no character was read the last test is of an uninitialised variable. *)
Definition SynchConsole_Read (numBytes : Z) (s : CSys) : outcome (Z * list Z * CSys) :=
  s ← P RLineBlock s;
  '(cs, ch, s) ← Read_loop (Z.to_nat numBytes) [] None s;
  s ← V RLineBlock s;
  match ch with
  | None => Undef
  | Some c =>
      let into := cs ++ replicate (Z.to_nat numBytes - length cs) 0 in
      Ok (if c =? 1 then -1 else Z.of_nat (length cs), into, s)
  end.
