(* ===== verification/ConsoleProofs.v ===== *)
(** * Theorems on the console

    SynchConsole on the terminal device: a line typed is returned whatever the
    pace of the keyboard, and what is written is displayed, character by
    character, without loss of input. *)

From Stdlib Require Import ZArith Lia Bool.
From S2P Require Import Prelude NList Bytes Machine Interrupt InterruptProofs SimWorld Console.

Local Open Scope Z_scope.

(** ** One interrupt *)

Definition loads (m : option Machine) : Prop := ∀ x, m = Some x → load_ok x.

(** The pending interrupts of the console. *)
Definition poll_at (w : Z) : Z * PendingInterrupt ConsoleHandler := (w, mkPending ConsoleReadPoll 0 w ConsoleReadInt).
Definition done_at (w : Z) : Z * PendingInterrupt ConsoleHandler := (w, mkPending ConsoleWriteDone 0 w ConsoleWriteInt).

(** What the handlers do to the rest of the system. *)
Definition poll_world (w : World) : World :=
  let c := cons w in
  if negb (incoming c =? EOF) then w
  else match keyboard c with
       | NoKey :: kbd => set_cons w (mkConsole kbd (display c) (putBusy c) (incoming c))
       | Key ch :: kbd => V_world (set_cons w (mkConsole kbd (display c) (putBusy c) ch)) synchReadAvail
       | _ => w
       end.

Definition done_world (w : World) : World :=
  let c := cons w in
  V_world (set_cons w (mkConsole (keyboard c) (display c) false (incoming c))) synchWriteAvail.

Definition no_eof (w : World) : Prop := EndOfFile ∉ keyboard (cons w).

(** A system in the middle of serving interrupts. *)
Definition busy (lv : IntStatus) (p : list (Z * PendingInterrupt ConsoleHandler)) (mode : MachineStatus)
    (t : Statistics) (m : option Machine) (w : World) : CSys :=
  mkSys (mkInterrupt lv p false false mode) t m w.

Lemma finish_load_busy lv p mode t m w : loads m →
  ∃ m', finish_load (busy lv p mode t m w) = Ok (busy lv p mode t m' w) ∧ loads m'.
Proof.
  intros Hm. unfold finish_load, busy. cbn [machine]. destruct m as [m|]; [|by exists None].
  destruct (DelayedLoad_total m (Hm m eq_refl)) as (m' & -> & Hl). exists (Some m'). split; [done|]. by intros ? [= <-].
Qed.

Lemma fire_poll k p mode t m w : loads m → no_eof w → totalTicks t + 100 < 2 ^ 31 → - 2 ^ 31 <= totalTicks t →
  ∃ t' m', fire console_call (poll_at k).2 (busy IntOff p mode t m w) =
    Ok (busy IntOff (sorted_insert (totalTicks t + 100) (poll_at (totalTicks t + 100)).2 p) mode t' m' (poll_world w)) ∧
    totalTicks t' = totalTicks t ∧ loads m'.
Proof.
  intros Hm Hn Ht Ht0. destruct (finish_load_busy IntOff p mode t m w Hm) as (m' & Hf & Hm').
  unfold fire. rewrite Hf. cbn [mbind outcome_bind handler arg poll_at snd console_call].
  unfold CheckCharAvail, Schedule, poll_world, now, busy. cbn.
  rewrite s32_id by (unfold int32, ConsoleTime; lia). unfold ConsoleTime.
  destruct (incoming (cons w) =? EOF); cbn.
  - unfold no_eof in Hn. destruct (keyboard (cons w)) as [|[|ch|] kbd]; cbn.
    + by exists t, m'.
    + by exists t, m'.
    + exists (count_char_read t), m'. unfold V_handler. cbn. done.
    + set_solver.
  - by exists t, m'.
Qed.

Lemma fire_done k p mode t m w : loads m →
  ∃ t' m', fire console_call (done_at k).2 (busy IntOff p mode t m w) =
    Ok (busy IntOff p mode t' m' (done_world w)) ∧ totalTicks t' = totalTicks t ∧ loads m'.
Proof.
  intros Hm. destruct (finish_load_busy IntOff p mode t m w Hm) as (m' & Hf & Hm').
  unfold fire. rewrite Hf. cbn. exists (count_char_written t), m'. done.
Qed.

(** An interrupt that is due, or to which the clock advances, is served. *)
Lemma check_fires adv k h (ty : IntType) p mode t m w : ty ≠ TimerInt →
  adv = true ∨ k <= totalTicks t →
  ∃ t', CheckIfDue console_call adv (busy IntOff ((k, mkPending h 0 k ty) :: p) mode t m w) =
      (s ← fire console_call (mkPending h 0 k ty) (busy IntOff p mode t' m w); Ok (true, s)) ∧
    totalTicks t' = Z.max k (totalTicks t).
Proof.
  intros Hty Hor. unfold CheckIfDue, busy. cbn. unfold now. cbn.
  rewrite (bool_decide_eq_false_2 (ty = TimerInt)), andb_false_r by done. cbn [andb].
  destruct (Z.gtb_spec k (totalTicks t)) as [Hgt|Hle]; rewrite ?andb_true_r, ?andb_false_r.
  - destruct Hor as [-> |]; [|lia].
    exists (set_ticks t k (s32 (idleTicks t + (k - totalTicks t))) (systemTicks t) (userTicks t)).
    split; [done|simpl; lia].
  - exists t. split; [done|lia].
Qed.

Lemma check_waits k e p mode t m w : totalTicks t < k → sorted_insert k e p = (k, e) :: p →
  CheckIfDue console_call false (busy IntOff ((k, e) :: p) mode t m w) = Ok (false, busy IntOff ((k, e) :: p) mode t m w).
Proof.
  intros Hk Hs. unfold CheckIfDue, busy. cbn. unfold now. cbn. destruct (Z.gtb_spec k (totalTicks t)); [|lia]. by rewrite Hs.
Qed.

Lemma check_poll adv k p mode t m w : loads m → no_eof w → 0 <= totalTicks t → Z.max k (totalTicks t) + 100 < 2 ^ 31 →
  adv = true ∨ k <= totalTicks t → let n := Z.max k (totalTicks t) in
  ∃ t' m', CheckIfDue console_call adv (busy IntOff (poll_at k :: p) mode t m w) =
      Ok (true, busy IntOff (sorted_insert (n + 100) (poll_at (n + 100)).2 p) mode t' m' (poll_world w)) ∧
    totalTicks t' = n ∧ loads m'.
Proof.
  intros Hm Hw H0 Hb Hor n. destruct (check_fires adv k ConsoleReadPoll ConsoleReadInt p mode t m w) as (t1 & Hc & Ht1); [done|done|].
  destruct (fire_poll k p mode t1 m w) as (t2 & m2 & Hf & Ht2 & Hm2); [done|done|lia|lia|].
  exists t2, m2. unfold poll_at at 1. rewrite Hc. unfold poll_at in Hf at 1. cbn [snd] in Hf. rewrite Hf, Ht1. split; [done|]. split; [lia|done].
Qed.

Lemma check_done adv k p mode t m w : loads m → adv = true ∨ k <= totalTicks t →
  ∃ t' m', CheckIfDue console_call adv (busy IntOff (done_at k :: p) mode t m w) =
      Ok (true, busy IntOff p mode t' m' (done_world w)) ∧ totalTicks t' = Z.max k (totalTicks t) ∧ loads m'.
Proof.
  intros Hm Hor. destruct (check_fires adv k ConsoleWriteDone ConsoleWriteInt p mode t m w) as (t1 & Hc & Ht1); [done|done|].
  destruct (fire_done k p mode t1 m w Hm) as (t2 & m2 & Hf & Ht2 & Hm2).
  exists t2, m2. unfold done_at at 1. rewrite Hc. unfold done_at in Hf at 1. cbn [snd] in Hf. rewrite Hf. split; [done|]. split; [lia|done].
Qed.

(** The loop stops when the first interrupt is in the future. *)
Lemma loop_waits fuel k e p mode t m w : totalTicks t < k → sorted_insert k e p = (k, e) :: p →
  CheckIfDue_loop console_call (S fuel) (busy IntOff ((k, e) :: p) mode t m w) = Ok (busy IntOff ((k, e) :: p) mode t m w).
Proof. intros Hk Hs. cbn [CheckIfDue_loop]. by rewrite check_waits. Qed.

(** Idle, by what is pending. *)
Definition idle_end (s : CSys) : CSys := setStatus (set_yieldOnReturn s false) SystemMode.

Lemma Idle_steps p t m w p' t' m' w' : 
  CheckIfDue console_call true (busy IntOff p IdleMode t m w) = Ok (true, busy IntOff p' IdleMode t' m' w') →
  Idle console_call (busy IntOff p SystemMode t m w) =
    (s ← CheckIfDue_loop console_call (S (length p')) (busy IntOff p' IdleMode t' m' w'); Ok (idle_end s)).
Proof.
  intros Hc. unfold Idle. change (setStatus (busy IntOff p SystemMode t m w) IdleMode) with (busy IntOff p IdleMode t m w).
  by rewrite Hc.
Qed.

Lemma Idle_poll k t m w : loads m → no_eof w → 0 <= totalTicks t < k → k + 100 < 2 ^ 31 →
  ∃ t' m', Idle console_call (busy IntOff [poll_at k] SystemMode t m w) =
      Ok (busy IntOff [poll_at (k + 100)] SystemMode t' m' (poll_world w)) ∧ totalTicks t' = k ∧ loads m'.
Proof.
  intros Hm Hw Ht Hk. destruct (check_poll true k [] IdleMode t m w) as (t1 & m1 & Hc & Ht1 & Hm1); [done|done|lia|lia|by left|].
  rewrite (Z.max_l k) in * by lia. rewrite (Idle_steps _ _ _ _ _ _ _ _ Hc). cbn [sorted_insert].
  exists t1, m1. unfold poll_at. cbn [snd length]. rewrite loop_waits by (done || lia). done.
Qed.

Lemma Idle_poll_done k d t m w : loads m → no_eof w → 0 <= totalTicks t < k → k <= d < k + 100 → k + 100 < 2 ^ 31 →
  ∃ t' m', Idle console_call (busy IntOff [poll_at k; done_at d] SystemMode t m w) =
      Ok (if decide (d = k) then busy IntOff [poll_at (k + 100)] SystemMode t' m' (done_world (poll_world w))
          else busy IntOff [done_at d; poll_at (k + 100)] SystemMode t' m' (poll_world w)) ∧
    totalTicks t' = k ∧ loads m'.
Proof.
  intros Hm Hw Ht Hd Hk. destruct (check_poll true k [done_at d] IdleMode t m w) as (t1 & m1 & Hc & Ht1 & Hm1); [done|done|lia|lia|by left|].
  rewrite (Z.max_l k) in * by lia. rewrite (Idle_steps _ _ _ _ _ _ _ _ Hc).
  assert (Hs : sorted_insert (k + 100) (poll_at (k + 100)).2 [done_at d] = [done_at d; poll_at (k + 100)]).
  { unfold done_at. cbn [sorted_insert snd poll_at]. by destruct (Z.ltb_spec (k + 100) d); [lia|]. }
  rewrite Hs. destruct (decide (d = k)) as [->|Hne].
  - destruct (check_done false k [poll_at (k + 100)] IdleMode t1 m1 (poll_world w)) as (t2 & m2 & Hc2 & Ht2 & Hm2); [done|right; lia|].
    exists t2, m2. cbn [length CheckIfDue_loop]. rewrite Hc2. cbn [mbind outcome_bind].
    unfold poll_at. rewrite check_waits by (done || lia). split; [done|]. split; [lia|done].
  - exists t1, m1. unfold done_at. rewrite loop_waits; [done|lia|].
    unfold poll_at. cbn [sorted_insert]. by destruct (Z.ltb_spec d (k + 100)); [|lia].
Qed.

Lemma Idle_done k d t m w : loads m → 0 <= totalTicks t < d → d < k →
  ∃ t' m', Idle console_call (busy IntOff [done_at d; poll_at k] SystemMode t m w) =
      Ok (busy IntOff [poll_at k] SystemMode t' m' (done_world w)) ∧ totalTicks t' = d ∧ loads m'.
Proof.
  intros Hm Ht Hk. destruct (check_done true d [poll_at k] IdleMode t m w) as (t1 & m1 & Hc & Ht1 & Hm1); [done|by left|].
  rewrite (Z.max_l d) in * by lia. rewrite (Idle_steps _ _ _ _ _ _ _ _ Hc).
  exists t1, m1. unfold poll_at. rewrite loop_waits by (done || lia). done.
Qed.

(** Enabling interrupts: one tick, and a poll that falls into it. *)
Lemma enable_poll k t m w : loads m → no_eof w → 0 <= totalTicks t < k → k <= totalTicks t + 100 → totalTicks t + 110 < 2 ^ 31 →
  ∃ y k' t' m' (fires : bool), SetLevel console_call (busy IntOff [poll_at k] SystemMode t m w) IntOn =
      Ok (IntOff, y, busy IntOn [poll_at k'] SystemMode t' m' (if fires then poll_world w else w)) ∧
    totalTicks t' = totalTicks t + 10 ∧ totalTicks t' < k' <= totalTicks t' + 100 ∧ loads m'.
Proof.
  intros Hm Hw Ht Hk Hb.
  set (t1 := set_ticks t (s32 (totalTicks t + SystemTick)) (idleTicks t) (s32 (systemTicks t + SystemTick)) (userTicks t)).
  assert (Ht1 : totalTicks t1 = totalTicks t + 10) by (apply s32_id; unfold int32, SystemTick; lia).
  assert (Heq : SetLevel console_call (busy IntOff [poll_at k] SystemMode t m w) IntOn =
    (s ← CheckIfDue_loop console_call 2 (busy IntOff [poll_at k] SystemMode t1 m w);
     let s := ChangeLevel s IntOn in
     if yieldOnReturn (interrupt s) then Ok (IntOff, true, setStatus (set_yieldOnReturn s false) SystemMode)
     else Ok (IntOff, false, s))).
  { unfold SetLevel, OneTick. change (ChangeLevel (advance _) IntOff) with (busy IntOff [poll_at k] SystemMode t1 m w).
    cbn [bool_decide decide_rel orb negb mbind outcome_bind ASSERT busy interrupt inHandler level].
    change (loop_fuel _) with 2%nat. cbn -[CheckIfDue_loop]. destruct (CheckIfDue_loop _ _ _); [|done..].
    cbn. by destruct (yieldOnReturn _). }
  rewrite Heq. clear Heq. cbn [CheckIfDue_loop].
  destruct (Z.leb_spec k (totalTicks t1)) as [Hle|Hgt].
  - destruct (check_poll false k [] SystemMode t1 m w) as (t2 & m2 & Hc & Ht2 & Hm2); [done|done|lia|lia|by right|].
    rewrite Z.max_r in * by lia. rewrite Hc. cbn [mbind outcome_bind sorted_insert].
    unfold poll_at at 1. cbn [snd]. rewrite check_waits by (done || lia). cbn.
    exists false, (totalTicks t1 + 100), t2, m2, true. split; [done|]. split; [lia|]. split; [lia|done].
  - unfold poll_at. rewrite check_waits by (done || lia). cbn.
    exists false, k, t1, m, false. split; [done|]. split; [lia|]. split; [lia|done].
Qed.

(** ** The input side *)

(** What the keyboard will give, the character buffered in the device, and the
    value of synchReadAvail. *)
Record input := mkInput { kbd : list key; inc : Z; avail : Z }.

Definition poll1 (x : input) : input :=
  if negb (inc x =? EOF) then x
  else match kbd x with
       | NoKey :: k => mkInput k (inc x) (avail x)
       | Key c :: k => mkInput k c (avail x + 1)
       | _ => x
       end.

Definition polls : input → input → Prop := rtc (λ x y, y = poll1 x).

(** The characters typed that a reader has not got yet. *)
Definition keys (l : list key) : list Z :=
  omap (λ k, match k with Key c => if c =? EOF then None else Some c | _ => None end) l.
Definition buffered (x : input) : list Z := if inc x =? EOF then [] else [inc x].
Definition typed (x : input) : list Z := buffered x ++ keys (kbd x).

(** Steps a reader may take, and the time it may take at most. *)
Definition tokens (x : input) : Z := avail x + Z.of_nat (length (kbd x)).
Definition work (x : input) : Z := 10 * avail x + 110 * Z.of_nat (length (kbd x)).

Definition input_ok (x : input) : Prop := EndOfFile ∉ kbd x ∧ 0 <= avail x.

(** A buffered character has been announced. *)
Definition announced (x : input) : Prop := Z.of_nat (length (buffered x)) <= avail x.

Lemma poll1_props x : input_ok x → let y := poll1 x in
  input_ok y ∧ typed y = typed x ∧ tokens y <= tokens x ∧ work y <= work x ∧ (announced x → announced y).
Proof.
  intros [Hn Ha]. unfold poll1, typed, buffered, announced, tokens, work, input_ok. destruct x as [l i a].
  cbn [inc kbd avail] in *. destruct (Z.eqb_spec i EOF) as [->|Hne]; cbn [negb].
  - destruct l as [|[|c|] l]; cbn [inc kbd avail].
    + split_and!; try done; lia.
    + split_and!; try done; [set_solver|cbn [length]; lia|cbn [length]; lia].
    + cbn [keys omap list_omap]. split_and!; [set_solver|lia| |cbn [length]; lia|cbn [length]; lia|].
      * by destruct (c =? EOF).
      * intros _. unfold buffered. cbn [inc]. destruct (c =? EOF); cbn [length]; lia.
    + set_solver.
  - split_and!; try done; try lia; auto. cbn [inc kbd]. by destruct (Z.eqb_spec i EOF).
Qed.

Lemma polls_props x y : polls x y → input_ok x →
  input_ok y ∧ typed y = typed x ∧ tokens y <= tokens x ∧ work y <= work x ∧ (announced x → announced y).
Proof.
  induction 1 as [x|x y z -> _ IH]; intros Hx; [split_and!; try done; try lia; auto|].
  destruct (poll1_props x Hx) as (H1 & H2 & H3 & H4 & H5).
  destruct (IH H1) as (H6 & H7 & H8 & H9 & H10). split_and!; [done|congruence|lia|lia|auto].
Qed.

(** The world: is a character going out, who waits for it, the input, the
    display and the two line semaphores. *)
Definition world (b : bool) (wq : list Z) (x : input) (disp : list Z) (r l : Z) : World :=
  mkWorld (mkConsole (kbd x) disp b (inc x)) (mkSem (avail x) []) (mkSem 0 wq) (mkSem r []) (mkSem l []) [].

Lemma poll_world_eq b wq x disp r l : poll_world (world b wq x disp r l) = world b wq (poll1 x) disp r l.
Proof.
  unfold poll_world, poll1, world. destruct x as [k i a]. cbn. destruct (i =? EOF); [|done]. by destruct k as [|[]].
Qed.

Lemma no_eof_world b wq x disp r l : input_ok x → no_eof (world b wq x disp r l).
Proof. by intros [? _]. Qed.

(** The console between two calls, [n] ticks after the start. *)
Definition quiet (s : CSys) (n : Z) (x : input) (disp : list Z) (r l : Z) : Prop :=
  ∃ k t m, s = busy IntOn [poll_at k] SystemMode t m (world false [] x disp r l) ∧
    totalTicks t = n ∧ 0 <= n < k ∧ k <= n + 100 ∧ loads m ∧ input_ok x.

(** Enabling interrupts at the end of P and V. *)
Lemma enable_quiet k t m x disp r l : loads m → input_ok x → 0 <= totalTicks t < k → k <= totalTicks t + 100 →
  totalTicks t + 110 < 2 ^ 31 →
  ∃ y s' x', SetLevel console_call (busy IntOff [poll_at k] SystemMode t m (world false [] x disp r l)) IntOn = Ok (IntOff, y, s') ∧
    quiet s' (totalTicks t + 10) x' disp r l ∧ polls x x'.
Proof.
  intros Hm Hx Ht Hk Hb.
  destruct (enable_poll k t m (world false [] x disp r l)) as (y & k' & t' & m' & fires & Hs & Ht' & Hk' & Hm');
    [done|by apply no_eof_world|done|done|done|].
  rewrite Hs. exists y. eexists. exists (if fires then poll1 x else x). split; [done|]. split.
  - exists k', t', m'. rewrite <- Ht'. split_and!; try done; try lia.
    + destruct fires; [by rewrite poll_world_eq|done].
    + destruct fires; [by apply poll1_props|done].
  - destruct fires; [by apply rtc_once|done].
Qed.

(** ** P and V *)

(** Disabling interrupts takes no time. *)
Lemma disable_eq p t m w : SetLevel console_call (busy IntOn p SystemMode t m w) IntOff =
  Ok (IntOn, false, busy IntOff p SystemMode t m w).
Proof. done. Qed.

Lemma P_unfold x p t m w : P x (busy IntOn p SystemMode t m w) =
  (s ← P_wait 2 x (busy IntOff p SystemMode t m w); '(_, _, s) ← SetLevel console_call s IntOn; Ok s).
Proof. done. Qed.

Lemma V_unfold x p t m w : V x (busy IntOn p SystemMode t m w) =
  ('(_, _, s) ← SetLevel console_call (busy IntOff p SystemMode t m (V_world w x)) IntOn; Ok s).
Proof. done. Qed.

(** The line semaphores: [line x r l r' l'] when the semaphore [x] goes from
    free to taken. *)
Definition line (x : sem_name) (r l r' l' : Z) : Prop :=
  match x with
  | RLineBlock => r = 1 ∧ r' = 0 ∧ l' = l
  | WLineBlock => l = 1 ∧ l' = 0 ∧ r' = r
  | _ => False
  end.

Lemma P_line y s n x disp r l r' l' : quiet s n x disp r l → line y r l r' l' → n + 110 < 2 ^ 31 →
  ∃ s' x', P y s = Ok s' ∧ quiet s' (n + 10) x' disp r' l' ∧ polls x x'.
Proof.
  intros (k & t & m & -> & <- & Hk & Hk2 & Hm & Hx) Hl Hb. rewrite P_unfold.
  assert (Hw : P_wait 2 y (busy IntOff [poll_at k] SystemMode t m (world false [] x disp r l)) =
    Ok (busy IntOff [poll_at k] SystemMode t m (world false [] x disp r' l'))).
  { destruct y; try done; simpl in Hl; destruct Hl as (-> & -> & ->); done. }
  rewrite Hw. cbn [mbind outcome_bind].
  destruct (enable_quiet k t m x disp r' l' Hm Hx Hk Hk2 Hb) as (y' & s' & x' & -> & Hq & Hp). eauto.
Qed.

Lemma V_line y s n x disp r l r' l' : quiet s n x disp r' l' → line y r l r' l' → n + 110 < 2 ^ 31 →
  ∃ s' x', V y s = Ok s' ∧ quiet s' (n + 10) x' disp r l ∧ polls x x'.
Proof.
  intros (k & t & m & -> & <- & Hk & Hk2 & Hm & Hx) Hl Hb. rewrite V_unfold.
  assert (Hw : V_world (world false [] x disp r' l') y = world false [] x disp r l).
  { destruct y; try done; simpl in Hl; destruct Hl as (-> & -> & ->); done. }
  rewrite Hw.
  destruct (enable_quiet k t m x disp r l Hm Hx Hk Hk2 Hb) as (y' & s' & x' & -> & Hq & Hp). eauto.
Qed.

(** ** Writing *)

Definition done_ready (x : input) (disp : list Z) (r l : Z) : World :=
  mkWorld (mkConsole (kbd x) disp false (inc x)) (mkSem (avail x) []) (mkSem 1 []) (mkSem r []) (mkSem l []) [0].

Lemma done_world_eq x disp r l : done_world (world true [0] x disp r l) = done_ready x disp r l.
Proof. done. Qed.

(** The writer sleeps until its character is out. *)
Lemma Sleep_write f k d t m x disp r l : loads m → input_ok x → 0 <= totalTicks t < k → k <= d < k + 100 → d + 100 < 2 ^ 31 →
  ∃ k' t' m' x', Sleep_until_ready (S (S (S f))) (busy IntOff [poll_at k; done_at d] SystemMode t m (world true [0] x disp r l)) =
      Ok (busy IntOff [poll_at k'] SystemMode t' m' (set_ready (done_ready x' disp r l) [])) ∧
    totalTicks t' = d ∧ d < k' <= d + 100 ∧ loads m' ∧ polls x x'.
Proof.
  intros Hm Hx Ht Hd Hb.
  destruct (Idle_poll_done k d t m (world true [0] x disp r l)) as (t1 & m1 & Hi & Ht1 & Hm1);
    [done|by apply no_eof_world|done|done|lia|].
  cbn [Sleep_until_ready world rest busy readyList] in *. fold (world true [0] x disp r l). cbn [readyList world rest].
  change (readyList (rest (busy IntOff [poll_at k; done_at d] SystemMode t m (world true [0] x disp r l)))) with (@nil Z).
  cbn iota. rewrite Hi. cbn [mbind outcome_bind]. rewrite poll_world_eq. destruct (decide (d = k)) as [->|Hne].
  - rewrite done_world_eq. exists (k + 100), t1, m1, (poll1 x). cbn. split; [done|]. split_and!; try done; try lia. by apply rtc_once.
  - destruct (Idle_done (k + 100) d t1 m1 (world true [0] (poll1 x) disp r l)) as (t2 & m2 & Hi2 & Ht2 & Hm2); [done|lia|lia|].
    change (readyList (rest (busy IntOff [done_at d; poll_at (k + 100)] SystemMode t1 m1 (world true [0] (poll1 x) disp r l)))) with (@nil Z).
    cbn iota. rewrite Hi2. cbn [mbind outcome_bind]. rewrite done_world_eq.
    exists (k + 100), t2, m2, (poll1 x). cbn. split; [done|]. split_and!; try done; try lia. by apply rtc_once.
Qed.

Lemma write_char s n x disp r l c : quiet s n x disp r l → n + 210 < 2 ^ 31 →
  ∃ s' x', (s1 ← PutChar s c; P synchWriteAvail s1) = Ok s' ∧ quiet s' (n + 110) x' (disp ++ [c]) r l ∧ polls x x'.
Proof.
  intros (k & t & m & -> & <- & Hk & Hk2 & Hm & Hx) Hb. set (d := totalTicks t + 100).
  assert (Hput : PutChar (busy IntOn [poll_at k] SystemMode t m (world false [] x disp r l)) c =
    Ok (busy IntOn [poll_at k; done_at d] SystemMode t m (world true [] x (disp ++ [c]) r l))).
  { unfold PutChar, Schedule, now, busy, world. cbn. rewrite s32_id by (unfold int32, ConsoleTime; lia).
    unfold ConsoleTime. fold d. by destruct (Z.ltb_spec d k); [lia|]. }
  rewrite Hput. cbn [mbind outcome_bind]. rewrite P_unfold.
  destruct (Sleep_write (length (kbd x)) k d t m x (disp ++ [c]) r l) as (k' & t' & m' & x' & Hs & Ht' & Hk' & Hm' & Hp);
    [done|done|lia|lia|lia|].
  assert (Hw : P_wait 2 synchWriteAvail (busy IntOff [poll_at k; done_at d] SystemMode t m (world true [] x (disp ++ [c]) r l)) =
    Ok (busy IntOff [poll_at k'] SystemMode t' m' (world false [] x' (disp ++ [c]) r l))).
  { cbn [P_wait]. unfold sleep_fuel. cbn [get_sem world rest busy value write_avail Z.eqb cons keyboard queue app].
    rewrite (Nat.add_comm (length (kbd x))). change (3 + length (kbd x))%nat with (S (S (S (length (kbd x))))).
    match goal with |- context [Sleep_until_ready _ ?s] => change s with (busy IntOff [poll_at k; done_at d] SystemMode t m (world true [0] x (disp ++ [c]) r l)) end.
    rewrite Hs. done. }
  rewrite Hw. cbn [mbind outcome_bind].
  destruct (polls_props x x' Hp Hx) as (Hx' & _).
  destruct (enable_quiet k' t' m' x' (disp ++ [c]) r l) as (y' & s' & x'' & -> & Hq & Hp'); [done|done|lia|lia|lia|].
  exists s', x''. split; [done|]. split; [|by etrans]. by replace (totalTicks t + 110) with (totalTicks t' + 10) by lia.
Qed.

Lemma Write_loop_ok bs : ∀ s n x disp r l, quiet s n x disp r l → n + 110 * Z.of_nat (length bs) + 100 < 2 ^ 31 →
  ∃ s' x', Write_loop bs s = Ok s' ∧ quiet s' (n + 110 * Z.of_nat (length bs)) x' (disp ++ bs) r l ∧ polls x x'.
Proof.
  induction bs as [|c bs IH]; intros s n x disp r l Hq Hb.
  { exists s, x. rewrite app_nil_r, Z.add_0_r. done. }
  cbn [length] in Hb. destruct (write_char s n x disp r l c Hq) as (s1 & x1 & Hw & Hq1 & Hp1); [lia|].
  destruct (IH s1 (n + 110) x1 (disp ++ [c]) r l Hq1) as (s2 & x2 & Hl & Hq2 & Hp2); [lia|].
  exists s2, x2. cbn [Write_loop]. destruct (PutChar s c) as [s0| | | |]; try done. cbn [mbind outcome_bind] in *.
  rewrite Hw. cbn [mbind outcome_bind]. split; [done|]. split; [|by etrans].
  rewrite <- app_assoc in Hq2. cbn [length app] in *.
  by replace (n + 110 * Z.of_nat (S (length bs))) with (n + 110 + 110 * Z.of_nat (length bs)) by lia.
Qed.

(** ** Reading *)

(** The reader sleeps until a character is announced. *)
Definition sleeping (x : input) (disp : list Z) (r l : Z) : World :=
  mkWorld (mkConsole (kbd x) disp false (inc x)) (mkSem (avail x) [0]) (mkSem 0 []) (mkSem r []) (mkSem l []) [].

Lemma Sleep_read disp r l kb : ∀ f k t m, loads m → EndOfFile ∉ kb → (∃ c, Key c ∈ kb) → (length kb < f)%nat →
  0 <= totalTicks t < k → k <= totalTicks t + 100 → totalTicks t + 100 * Z.of_nat (length kb) + 100 < 2 ^ 31 →
  ∃ k' t' m' kb' c, Sleep_until_ready f (busy IntOff [poll_at k] SystemMode t m (sleeping (mkInput kb EOF 0) disp r l)) =
      Ok (busy IntOff [poll_at k'] SystemMode t' m' (world false [] (mkInput kb' c 1) disp r l)) ∧
    totalTicks t <= totalTicks t' ∧ totalTicks t' + 100 * Z.of_nat (length kb') <= totalTicks t + 100 * Z.of_nat (length kb) ∧
    totalTicks t' < k' <= totalTicks t' + 100 ∧ loads m' ∧ EndOfFile ∉ kb' ∧ (length kb' < length kb)%nat ∧
    keys kb = buffered (mkInput kb' c 1) ++ keys kb' ∧ ∃ pre, kb = pre ++ Key c :: kb'.
Proof.
  induction kb as [|a kb IH]; intros f k t m Hm Hn [c Hc] Hf Ht Hk Hb; [set_solver|].
  destruct f as [|f]; [lia|]. cbn [length] in *.
  destruct (Idle_poll k t m (sleeping (mkInput (a :: kb) EOF 0) disp r l)) as (t1 & m1 & Hi & Ht1 & Hm1); [done|done|lia|lia|].
  cbn [Sleep_until_ready].
  change (readyList (rest (busy IntOff [poll_at k] SystemMode t m (sleeping (mkInput (a :: kb) EOF 0) disp r l)))) with (@nil Z).
  cbn iota. rewrite Hi. cbn [mbind outcome_bind]. destruct a as [|c'|]; [| |set_solver].
  - change (poll_world (sleeping (mkInput (NoKey :: kb) EOF 0) disp r l)) with (sleeping (mkInput kb EOF 0) disp r l).
    destruct (IH f (k + 100) t1 m1) as (k' & t' & m' & kb' & c' & Hs & H1 & H2 & H3 & H4 & H5 & H6 & H7 & pre & H8); try done; try lia.
    { set_solver. }
    { exists c. set_solver. }
    exists k', t', m', kb', c'. split_and!; try done; try lia. exists (NoKey :: pre). by rewrite H8.
  - destruct f as [|f]; [lia|]. exists (k + 100), t1, m1, kb, c'. split; [done|].
    split_and!; try done; try lia; [set_solver| |by exists []]. unfold buffered. cbn. by destruct (c' =? EOF).
Qed.

Lemma keys_Key l : keys l ≠ [] → ∃ c, Key c ∈ l.
Proof.
  induction l as [|a l IH]; [done|]. unfold keys. cbn. destruct a as [|c|]; intros Hk.
  - destruct (IH Hk) as [c Hc]. exists c. set_solver.
  - exists c. set_solver.
  - destruct (IH Hk) as [c Hc]. exists c. set_solver.
Qed.

(** No key reads as EOF, and the semaphore counts the character in the buffer. *)
Definition exact (x : input) : Prop := Key EOF ∉ kbd x ∧ avail x = Z.of_nat (length (buffered x)).

(** The buffer holds the character whose announcement has been taken. *)
Definition taken (x : input) : Prop := Key EOF ∉ kbd x ∧ inc x ≠ EOF ∧ avail x = 0.

Lemma polls_buffered x y : polls x y → inc x ≠ EOF → y = x.
Proof.
  induction 1 as [x|x y z -> _ IH]; [done|]. intros Hi. unfold poll1 in IH.
  apply Z.eqb_neq in Hi as Hi'. rewrite Hi' in IH. cbn in IH. auto.
Qed.

Lemma P_read s n x disp r l : quiet s n x disp r l → announced x → typed x ≠ [] → n + work x + 100 < 2 ^ 31 →
  ∃ s' n' x', P synchReadAvail s = Ok s' ∧ quiet s' n' x' disp r l ∧ typed x' = typed x ∧
    tokens x' < tokens x ∧ n' + work x' <= n + work x ∧ n <= n' ∧ (exact x → taken x').
Proof.
  intros (k & t & m & -> & <- & Hk & Hk2 & Hm & Hx) Han Hty Hb. rewrite P_unfold. destruct Hx as [Hne Hav].
  assert (Hfin : ∀ k' t' m' x1, P_wait 2 synchReadAvail (busy IntOff [poll_at k] SystemMode t m (world false [] x disp r l)) =
      Ok (busy IntOff [poll_at k'] SystemMode t' m' (world false [] x1 disp r l)) → loads m' → input_ok x1 →
      totalTicks t <= totalTicks t' < k' → k' <= totalTicks t' + 100 →
      typed x1 = typed x → tokens x1 < tokens x → totalTicks t' + 10 + work x1 <= totalTicks t + work x →
      (exact x → taken x1) →
      ∃ s' n' x', (s ← P_wait 2 synchReadAvail (busy IntOff [poll_at k] SystemMode t m (world false [] x disp r l));
          '(_, _, s) ← SetLevel console_call s IntOn; Ok s) = Ok s' ∧ quiet s' n' x' disp r l ∧ typed x' = typed x ∧
        tokens x' < tokens x ∧ n' + work x' <= totalTicks t + work x ∧ totalTicks t <= n' ∧ (exact x → taken x')).
  { intros k' t' m' x1 -> Hm' Hx1 Hk' Hk2' Ht1 Htk Hwk Hex. cbn [mbind outcome_bind].
    assert (0 <= work x1) by (destruct Hx1; unfold work; lia).
    destruct (enable_quiet k' t' m' x1 disp r l) as (y & s' & x' & -> & Hq & Hp); [done|done|lia|lia|lia|].
    destruct (polls_props x1 x' Hp Hx1) as (_ & H1 & H2 & H3 & _).
    exists s', (totalTicks t' + 10), x'. split_and!; try done; try lia; [congruence|].
    intros He. destruct (Hex He) as (E1 & E2 & E3). by rewrite (polls_buffered x1 x'). }
  destruct x as [kb i a]. cbn [kbd avail] in *. destruct (decide (a = 0)) as [->|Ha].
  - assert (Hi : i = EOF).
    { unfold announced, buffered in Han. cbn in Han. destruct (Z.eqb_spec i EOF); [done|]. cbn in Han. lia. }
    subst i. change (typed (mkInput kb EOF 0)) with (keys kb) in *.
    destruct (Sleep_read disp r l kb (length kb + 3)%nat k t m) as (k' & t' & m' & kb' & c & Hs & H1 & H2 & H3 & H4 & H5 & H6 & H7 & pre & H8);
      [done|done|apply keys_Key; exact Hty|lia|lia|lia|unfold work in Hb; cbn in Hb; lia|].
    apply (Hfin k' t' m' (mkInput kb' c 0)); try done; try lia.
    + cbn [P_wait]. unfold sleep_fuel. cbn [get_sem world rest busy value read_avail Z.eqb cons keyboard queue app kbd avail].
      match goal with |- context [Sleep_until_ready _ ?s] => change s with
        (busy IntOff [poll_at k] SystemMode t m (sleeping (mkInput kb EOF 0) disp r l)) end.
      rewrite Hs. done.
    + unfold tokens. cbn. lia.
    + unfold work. cbn. lia.
    + intros [Hk0 _]. cbn [kbd] in Hk0. subst kb. split_and!; cbn [kbd inc avail]; [set_solver| |done].
      intros ->. apply Hk0. set_solver.
  - apply (Hfin k t m (mkInput kb i (a - 1))); try done; try lia.
    + cbn [P_wait get_sem world rest busy value read_avail avail]. destruct (Z.eqb_spec a 0); [done|]. done.
    + split; [done|]. cbn. lia.
    + unfold tokens. cbn. lia.
    + unfold work. cbn. lia.
    + intros [Hk0 He]. unfold taken, buffered in *. cbn [kbd inc avail] in *.
      destruct (Z.eqb_spec i EOF); cbn in He; [lia|]. split_and!; [done|done|lia].
Qed.

(** One character, past those that read as EOF. *)
Lemma read_char_ok fuel : ∀ s n x disp r l c rest, quiet s n x disp r l → announced x → typed x = c :: rest →
  n + work x + 100 < 2 ^ 31 → tokens x < Z.of_nat fuel →
  ∃ s' n' x', read_char fuel s = Ok (c, s') ∧ quiet s' n' x' disp r l ∧ announced x' ∧ typed x' = rest ∧
    n' + work x' <= n + work x ∧ n <= n' ∧ c ≠ EOF.
Proof.
  induction fuel as [|fuel IH]; intros s n x disp r l c rst Hq Ha Ht Hb Hf.
  { destruct Hq as (_ & _ & _ & _ & _ & _ & _ & _ & [_ ?]). unfold tokens in Hf. lia. }
  destruct (P_read s n x disp r l Hq Ha) as (s1 & n1 & x1 & HP & Hq1 & Ht1 & Htk & Hwk & Hn & _); [by rewrite Ht|done|].
  cbn [read_char]. rewrite HP. cbn [mbind outcome_bind].
  destruct Hq1 as (k & t & m & -> & Hn1 & Hk & Hk2 & Hm & Hx1). destruct x1 as [kb i a].
  assert (Hg : GetChar (busy IntOn [poll_at k] SystemMode t m (world false [] (mkInput kb i a) disp r l)) =
    (i, busy IntOn [poll_at k] SystemMode t m (world false [] (mkInput kb EOF a) disp r l))) by done.
  rewrite Hg.
  assert (Hq2 : quiet (busy IntOn [poll_at k] SystemMode t m (world false [] (mkInput kb EOF a) disp r l)) n1 (mkInput kb EOF a) disp r l).
  { exists k, t, m. split_and!; try done; try lia; apply Hx1. }
  assert (Ha2 : announced (mkInput kb EOF a)) by (destruct Hx1; done).
  rewrite Ht in Ht1. destruct (Z.eqb_spec i EOF) as [->|Hi].
  - destruct (IH _ n1 (mkInput kb EOF a) disp r l c rst Hq2 Ha2) as (s' & n' & x' & H1 & H2 & H3 & H4 & H5 & H6); [done|lia|lia|].
    exists s', n', x'. split_and!; try done; lia.
  - unfold typed, buffered in Ht1. cbn in Ht1. destruct (Z.eqb_spec i EOF); [done|]. injection Ht1 as -> Hk1.
    eexists _, n1, (mkInput kb EOF a). split_and!; try done.
Qed.

(** read_line on input in which nothing reads as EOF. *)
Lemma read_line_cons n c inp acc : c ≠ EOF →
  read_line (S n) (c :: inp) acc =
    if c =? 10 then Some (Z.of_nat (length acc), acc, inp)
    else if c =? 1 then Some (-1, acc, inp) else read_line n inp (acc ++ [c]).
Proof. intros Hc. cbn [read_line]. unfold EOF in Hc. by destruct (Z.eqb_spec c 255). Qed.

(** The last character read decides the value returned. *)
Definition result_of (ch : option Z) (cs : list Z) : option Z :=
  match ch with None => None | Some c => Some (if c =? 1 then -1 else Z.of_nat (length cs)) end.

Lemma Read_loop_ok n : ∀ s t x disp r l acc ch res cs rst, quiet s t x disp r l → announced x →
  read_line n (typed x) acc = Some (res, cs, rst) → t + work x + 100 < 2 ^ 31 → ch ≠ Some 1 →
  ∃ s' t' x' ch', Read_loop n acc ch s = Ok (cs, ch', s') ∧ quiet s' t' x' disp r l ∧ announced x' ∧ typed x' = rst ∧
    t' + work x' <= t + work x ∧ t <= t' ∧ (n ≠ O ∨ ch ≠ None → result_of ch' cs = Some res).
Proof.
  induction n as [|n IH]; intros s t x disp r l acc ch res cs rst Hq Ha Hr Hb Hch.
  { cbn in Hr. injection Hr as <- <- <-. exists s, t, x, ch. split_and!; try done; try lia.
    intros [?|Hn]; [done|]. destruct ch as [c|]; [|done]. cbn. by destruct (Z.eqb_spec c 1); [subst|]. }
  destruct (typed x) as [|c inp] eqn:Ht; [done|].
  assert (Hf : tokens x < Z.of_nat (read_fuel s)).
  { destruct Hq as (k & t1 & m & -> & _ & _ & _ & _ & [_ ?]). unfold tokens, read_fuel. cbn. lia. }
  destruct (read_char_ok (read_fuel s) s t x disp r l c inp Hq Ha Ht Hb Hf) as (s1 & t1 & x1 & Hc & Hq1 & Ha1 & Ht1 & Hw1 & Hn1 & Hce).
  rewrite (read_line_cons n c inp acc Hce) in Hr. cbn [Read_loop]. rewrite Hc. cbn [mbind outcome_bind].
  destruct (Z.eqb_spec c 10) as [->|H10]; cbn [orb].
  { injection Hr as <- <- <-. exists s1, t1, x1, (Some 10). by split_and!. }
  destruct (Z.eqb_spec c 1) as [->|H1].
  { injection Hr as <- <- <-. exists s1, t1, x1, (Some 1). by split_and!. }
  rewrite <- Ht1 in Hr. destruct (IH s1 t1 x1 disp r l (acc ++ [c]) (Some c) res cs rst Hq1 Ha1 Hr) as (s2 & t2 & x2 & ch2 & H2 & H3 & H4 & H5 & H6 & H7 & H8);
    [lia|congruence|].
  exists s2, t2, x2, ch2. split_and!; try done; try lia. intros _. apply H8. by right.
Qed.

Lemma result_of_Some ch cs res : result_of ch cs = Some res →
  ∃ c, ch = Some c ∧ res = if c =? 1 then -1 else Z.of_nat (length cs).
Proof. destruct ch as [c|]; [|done]. intros [= <-]. eauto. Qed.

(** C14: SynchConsole::Read returns the line typed.  Whatever the pace of the
    keyboard (polls that find nothing, characters that come early, while the
    reader sleeps or while it copies, and characters that read as EOF), Read
    returns as soon as the characters allow, with the result [read_line] gives:
    the characters up to the newline, ctrl-A or the end of the buffer, which is
    filled up with zeros.  The characters after the line stay for the next
    reader, nothing is displayed, both lines are free again, and the time taken
    is bounded by the number of polls.  The clock must not overflow meanwhile. *)
Theorem console_read_line s t x disp l numBytes res cs rst :
  quiet s t x disp 1 l → announced x → 0 < numBytes →
  read_line (Z.to_nat numBytes) (typed x) [] = Some (res, cs, rst) → t + work x + 120 < 2 ^ 31 →
  ∃ s' t' x', SynchConsole_Read numBytes s = Ok (res, cs ++ replicate (Z.to_nat numBytes - length cs) 0, s') ∧
    quiet s' t' x' disp 1 l ∧ announced x' ∧ typed x' = rst ∧ t <= t' <= t + work x + 20.
Proof.
  intros Hq Ha Hn Hr Hb. pose proof Hq as (_ & _ & _ & _ & _ & _ & _ & _ & Hx).
  assert (Hw0 : ∀ y, input_ok y → 0 <= work y) by (intros y [_ ?]; unfold work; lia).
  pose proof (Hw0 x Hx).
  destruct (P_line RLineBlock s t x disp 1 l 0 l Hq) as (s1 & x1 & HP & Hq1 & Hp1); [done|lia|].
  destruct (polls_props x x1 Hp1 Hx) as (Hx1 & Ht1 & _ & Hwk1 & Ha1).
  rewrite <- Ht1 in Hr.
  destruct (Read_loop_ok _ s1 (t + 10) x1 disp 0 l [] None res cs rst Hq1 (Ha1 Ha) Hr) as (s2 & t2 & x2 & ch & Hl & Hq2 & Ha2 & Ht2 & Hw2 & Hn2 & Hres);
    [lia|done|].
  pose proof Hq2 as (_ & _ & _ & _ & _ & _ & _ & _ & Hx2). pose proof (Hw0 x2 Hx2).
  destruct (V_line RLineBlock s2 t2 x2 disp 1 l 0 l Hq2) as (s3 & x3 & HV & Hq3 & Hp3); [done|lia|].
  destruct (polls_props x2 x3 Hp3 Hx2) as (Hx3 & Ht3 & _ & Hwk3 & Ha3). pose proof (Hw0 x3 Hx3).
  destruct (result_of_Some ch cs res) as (c & -> & ->); [apply Hres; left; lia|].
  exists s3, (t2 + 10), x3. unfold SynchConsole_Read. rewrite HP. cbn [mbind outcome_bind]. rewrite Hl. cbn [mbind outcome_bind].
  rewrite HV. split_and!; try done; try lia; [by apply Ha3|congruence].
Qed.

(** SynchConsole::Write displays its bytes, all of them and in order, and
    returns their number; each takes one completion interrupt and one tick, so
    the call lasts 110 ticks per byte and two ticks of 10 for the line.  No
    character typed meanwhile is lost. *)
Theorem console_write s t x disp r bs :
  quiet s t x disp r 1 → t + 110 * Z.of_nat (length bs) + 120 < 2 ^ 31 →
  ∃ s' x', SynchConsole_Write bs s = Ok (Z.of_nat (length bs), s') ∧
    quiet s' (t + 110 * Z.of_nat (length bs) + 20) x' (disp ++ bs) r 1 ∧
    typed x' = typed x ∧ (announced x → announced x').
Proof.
  intros Hq Hb. pose proof Hq as (_ & _ & _ & _ & _ & _ & _ & _ & Hx).
  destruct (P_line WLineBlock s t x disp r 1 r 0 Hq) as (s1 & x1 & HP & Hq1 & Hp1); [done|lia|].
  destruct (Write_loop_ok bs s1 (t + 10) x1 disp r 0 Hq1) as (s2 & x2 & Hl & Hq2 & Hp2); [lia|].
  destruct (V_line WLineBlock s2 _ x2 (disp ++ bs) r 1 r 0 Hq2) as (s3 & x3 & HV & Hq3 & Hp3); [done|lia|].
  destruct (polls_props x x3) as (_ & Ht & _ & _ & Ha); [etrans; [done|]; by etrans|done|].
  exists s3, x3. unfold SynchConsole_Write. rewrite HP. cbn [mbind outcome_bind]. rewrite Hl. cbn [mbind outcome_bind].
  rewrite HV. split_and!; try done.
  by replace (t + 110 * Z.of_nat (length bs) + 20) with (t + 10 + 110 * Z.of_nat (length bs) + 10) by lia.
Qed.

(** ** A session *)

Lemma SynchConsole_new_quiet kb out : EndOfFile ∉ kb →
  ∃ s, SynchConsole_new kb out (mkSys (mkInterrupt IntOn [] false false SystemMode) Statistics_new None
         (mkWorld (mkConsole [] [] false EOF) (mkSem 0 []) (mkSem 0 []) (mkSem 0 []) (mkSem 0 []) [])) = Ok s ∧
    quiet s 0 (mkInput kb EOF 0) out 1 1.
Proof. intros Hn. eexists. split; [done|]. exists 100, Statistics_new, None. split_and!; try done; lia. Qed.

(** "hi", newline, with pauses and one character that reads as EOF. *)
Definition session : list key := [NoKey; Key 104; Key 255; NoKey; Key 105; Key 10; Key 33].

Lemma console_read_line_witness :
  ∃ s0 s' t' x', quiet s0 0 (mkInput session EOF 0) [] 1 1 ∧
    SynchConsole_Read 5 s0 = Ok (2, [104; 105; 0; 0; 0], s') ∧ quiet s' t' x' [] 1 1 ∧ typed x' = [33].
Proof.
  destruct (SynchConsole_new_quiet session []) as (s0 & _ & Hq); [by vm_compute; set_solver|].
  destruct (console_read_line s0 0 (mkInput session EOF 0) [] 1 5 2 [104; 105] [33] Hq) as (s' & t' & x' & H1 & H2 & _ & H3 & _).
  - by vm_compute.
  - lia.
  - reflexivity.
  - by vm_compute.
  - exists s0, s', t', x'. done.
Defined.

Lemma console_write_witness :
  ∃ s0 s' x', SynchConsole_Write [104; 105] s0 = Ok (2, s') ∧ quiet s' 240 x' [104; 105] 1 1 ∧ typed x' = [104; 105; 10; 33].
Proof.
  destruct (SynchConsole_new_quiet session []) as (s0 & _ & Hq); [by vm_compute; set_solver|].
  destruct (console_write s0 0 (mkInput session EOF 0) [] 1 [104; 105] Hq) as (s' & x' & H1 & H2 & H3 & _); [done|].
  exists s0, s', x'. split; [exact H1|]. split; [exact H2|]. rewrite H3. reflexivity.
Defined.
