(* ===== verification/Network.v ===== *)
(** * machine/network.cc, network/post.cc, threads/synchlist.cc: mail between machines

    Machines that run Nachos exchange packets of MaxWireSize bytes through UNIX
    datagram sockets, one per machine; the host delivers datagrams in order.  On
    each machine the network device polls its socket by an interrupt, the post
    office's worker thread moves packets into mailboxes, and other threads send
    and receive mail.  Interrupt handlers and the code between two semaphore
    operations are single steps; [act] does one of them on one machine, and any
    sequence of them is a run. *)

From Stdlib Require Import ZArith QArith Lia Bool.
From S2P Require Import Prelude Bytes.

Local Open Scope Z_scope.

Definition MaxWireSize : Z := 64.
Definition MaxPacketSize : Z := MaxWireSize - 12.
Definition MaxMailSize : Z := MaxPacketSize - 12.

(** class PacketHeader and class MailHeader: two ints and an unsigned. *)
Record PacketHeader := mkPH { pk_to : Z; pk_from : Z; pk_length : Z }.
Record MailHeader := mkMH { mh_to : Z; mh_from : Z; mh_length : Z }.

(** class Mail; of the array data only the mh_length bytes that are set. *)
Record Mail := mkMail { pktHdr : PacketHeader; mailHdr : MailHeader; data : list Z }.

(** The 12 bytes of a header in memory, and back. *)
Definition hdr_bytes (to from len : Z) : list Z :=
  le_split 4 (u32 to) ++ le_split 4 (u32 from) ++ le_split 4 (u32 len).
Definition int_at (bs : list Z) (off : Z) : Z := s32 (le_combine (bytes_at bs off 4)).
Definition unsigned_at (bs : list Z) (off : Z) : Z := le_combine (bytes_at bs off 4).
Definition PacketHeader_at (bs : list Z) : PacketHeader := mkPH (int_at bs 0) (int_at bs 4) (unsigned_at bs 8).
Definition MailHeader_at (bs : list Z) : MailHeader := mkMH (int_at bs 0) (int_at bs 4) (unsigned_at bs 8).

(** bcopy of [n] bytes from a buffer. *)
Definition bytes_of (bs : list Z) (n : Z) : outcome (list Z) :=
  if n <=? Z.of_nat (length bs) then Ok (take (Z.to_nat n) bs) else Undef.

(** One machine: class Network, class PostOffice with its mail boxes (each a
    SynchList, which is the list of its items), the interrupts NetworkSendDone
    that are pending, the threads in messageSent->P(), and the postal worker:
    whether it has passed messageAvailable->P(), and its buffer. *)
Record Node := mkNode {
  ident : Z;
  chanceToWork : Q;
  sendBusy : bool;
  inHdr : PacketHeader;
  inbox : list Z;
  boxes : list (list Mail);
  messageAvailable : Z;
  messageSent : Z;
  sending : Z;
  waiting : Z;
  worker : bool;
  buffer : list Z;
}.

Definition numBoxes (n : Node) : Z := Z.of_nat (length (boxes n)).

(** All machines, and the datagrams in each machine's socket. *)
Record Net := mkNet { nodes : gmap Z Node; sockets : gmap Z (list (list Z)) }.

Definition put_node (s : Net) (a : Z) (n : Node) : Net := mkNet (<[a := n]> (nodes s)) (sockets s).

(** What a step shows to the outside: mail put on the wire, mail the network
    drops, mail given to a caller of Receive at a machine. *)
Inductive event := Sent (m : Mail) | Lost (m : Mail) | Received (a box : Z) (m : Mail).

(** ** machine/network.cc *)

(** Network::Network; [garbage] is the inbox before it is used. *)
Definition clamp (reliability : Q) : Q :=
  if negb (Qle_bool 0 reliability) then 0 else if negb (Qle_bool reliability 1) then 1 else reliability.

(** Random() % 100 >= chanceToWork * 100 *)
Definition loses (n : Node) (random : Z) : bool := Qle_bool (chanceToWork n * 100) (inject_Z (Z.rem random 100)).

(** Network::Send; [pad] is what the new wire buffer holds. *)
Definition Network_Send (s : Net) (a : Z) (n : Node) (hdr : PacketHeader) (buf : list Z) (random : Z) (pad : list Z)
  : outcome (Net * bool) :=
  _ ← ASSERT (negb (sendBusy n) && (pk_length hdr >? 0) && (pk_length hdr <=? MaxPacketSize) && (pk_from hdr =? ident n));
  let n := mkNode (ident n) (chanceToWork n) (sendBusy n) (inHdr n) (inbox n) (boxes n) (messageAvailable n)
             (messageSent n) (sending n + 1) (waiting n) (worker n) (buffer n) in
  let s := put_node s a n in
  if loses n random then Ok (s, true)
  else
    d ← bytes_of buf (pk_length hdr);
    let wire := blit (take (Z.to_nat MaxWireSize) pad) 0 (hdr_bytes (pk_to hdr) (pk_from hdr) (pk_length hdr) ++ d) in
    match sockets s !! pk_to hdr with
    | None => Aborted
    | Some q => Ok (mkNet (nodes s) (<[pk_to hdr := q ++ [wire]]> (sockets s)), false)
    end.

(** Network::SendDone, and PostOffice::PacketSent it calls. *)
Definition SendDone (s : Net) (a : Z) (n : Node) : Net :=
  put_node s a (mkNode (ident n) (chanceToWork n) false (inHdr n) (inbox n) (boxes n) (messageAvailable n)
                  (messageSent n + 1) (sending n - 1) (waiting n) (worker n) (buffer n)).

(** Network::CheckPktAvail, and PostOffice::IncomingPacket it calls. *)
Definition CheckPktAvail (s : Net) (a : Z) (n : Node) : outcome Net :=
  if negb (pk_length (inHdr n) =? 0) then Ok s
  else
    match sockets s !! a with
    | Some (pkt :: q) =>
        let hdr := PacketHeader_at pkt in
        _ ← ASSERT ((pk_to hdr =? ident n) && (pk_length hdr <=? MaxPacketSize));
        let box := blit (inbox n) 0 (bytes_at pkt 12 (pk_length hdr)) in
        let n := mkNode (ident n) (chanceToWork n) (sendBusy n) hdr box (boxes n) (messageAvailable n + 1)
                   (messageSent n) (sending n) (waiting n) (worker n) (buffer n) in
        Ok (mkNet (<[a := n]> (nodes s)) (<[a := q]> (sockets s)))
    | _ => Ok s
    end.

(** Network::Receive: the header, and the buffer with the packet copied into it. *)
Definition Network_Receive (n : Node) : PacketHeader * Node :=
  let hdr := inHdr n in
  let buf := if pk_length hdr =? 0 then buffer n else blit (buffer n) 0 (take (Z.to_nat (pk_length hdr)) (inbox n)) in
  (hdr, mkNode (ident n) (chanceToWork n) (sendBusy n) (mkPH (pk_to hdr) (pk_from hdr) 0) (inbox n) (boxes n)
          (messageAvailable n) (messageSent n) (sending n) (waiting n) (worker n) buf).

(** ** threads/synchlist.cc

    The lock does nothing, Condition::Signal does nothing, Condition::Wait fails
    its assertion (threads/synch.cc). *)
Definition SynchList_Append {A} (l : list A) (item : A) : list A := l ++ [item].

Definition SynchList_Remove {A} (l : list A) : outcome (A * list A) :=
  match l with
  | [] => Aborted
  | item :: l => Ok (item, l)
  end.

(** ** network/post.cc *)

Definition Mail_new (pktH : PacketHeader) (mailH : MailHeader) (msgData : list Z) : outcome Mail :=
  _ ← ASSERT (mh_length mailH <=? MaxMailSize);
  d ← bytes_of msgData (mh_length mailH);
  Ok (mkMail pktH mailH d).

Definition MailBox_Put (b : list Mail) (pktH : PacketHeader) (mailH : MailHeader) (d : list Z) : outcome (list Mail) :=
  m ← Mail_new pktH mailH d;
  Ok (SynchList_Append b m).

Definition set_boxes (n : Node) (b : list (list Mail)) : Node :=
  mkNode (ident n) (chanceToWork n) (sendBusy n) (inHdr n) (inbox n) b (messageAvailable n)
    (messageSent n) (sending n) (waiting n) (worker n) (buffer n).

(** PostOffice::PostalDelivery: messageAvailable->P(), then the rest of the
    body of the loop. *)
Definition Postal_wait (n : Node) : Node :=
  mkNode (ident n) (chanceToWork n) (sendBusy n) (inHdr n) (inbox n) (boxes n) (messageAvailable n - 1)
    (messageSent n) (sending n) (waiting n) true (buffer n).

Definition PostalDelivery (n : Node) : outcome Node :=
  let '(pktH, n) := Network_Receive n in
  let mailH := MailHeader_at (buffer n) in
  _ ← ASSERT ((0 <=? mh_to mailH) && (mh_to mailH <? numBoxes n));
  _ ← ASSERT (mh_length mailH <=? MaxMailSize);
  b ← aget (boxes n) (mh_to mailH);
  b ← MailBox_Put b pktH mailH (drop 12 (buffer n));
  bs ← aset (boxes n) (mh_to mailH) b;
  Ok (mkNode (ident n) (chanceToWork n) (sendBusy n) (inHdr n) (inbox n) bs (messageAvailable n)
        (messageSent n) (sending n) (waiting n) false (buffer n)).

(** The mail PostOffice::Send makes of its arguments. *)
Definition outgoing (n : Node) (to : Z) (mailH : MailHeader) (d : list Z) : Mail :=
  mkMail (mkPH to (ident n) (u32 (mh_length mailH + 12))) mailH (take (Z.to_nat (mh_length mailH)) d).

(** PostOffice::Send up to messageSent->P(). *)
Definition PostOffice_Send (s : Net) (a : Z) (n : Node) (to : Z) (mailH : MailHeader) (d : list Z) (random : Z)
    (pad : list Z) : outcome (Net * list event) :=
  _ ← ASSERT (mh_length mailH <=? MaxMailSize);
  _ ← ASSERT ((0 <=? mh_to mailH) && (mh_to mailH <? numBoxes n));
  let hdr := mkPH to (ident n) (u32 (mh_length mailH + 12)) in
  d' ← bytes_of d (mh_length mailH);
  let buf := hdr_bytes (mh_to mailH) (mh_from mailH) (mh_length mailH) ++ d' in
  let n := mkNode (ident n) (chanceToWork n) (sendBusy n) (inHdr n) (inbox n) (boxes n) (messageAvailable n)
             (messageSent n) (sending n) (waiting n + 1) (worker n) (buffer n) in
  '(s, lost) ← Network_Send s a n hdr buf random pad;
  let m := outgoing n to mailH d in
  Ok (s, [if (lost : bool) then Lost m else Sent m]).

(** messageSent->P() lets a sender go on. *)
Definition Send_return (n : Node) : Node :=
  mkNode (ident n) (chanceToWork n) (sendBusy n) (inHdr n) (inbox n) (boxes n) (messageAvailable n)
    (messageSent n - 1) (sending n) (waiting n - 1) (worker n) (buffer n).

(** PostOffice::Receive, with MailBox::Get. *)
Definition PostOffice_Receive (s : Net) (a : Z) (n : Node) (box : Z) : outcome (Net * list event) :=
  _ ← ASSERT ((box >=? 0) && (box <? numBoxes n));
  b ← aget (boxes n) box;
  '(m, b) ← SynchList_Remove b;
  bs ← aset (boxes n) box b;
  _ ← ASSERT (mh_length (mailHdr m) <=? MaxMailSize);
  Ok (put_node s a (set_boxes n bs), [Received a box m]).

(** PostOffice::PostOffice with nBoxes empty boxes. *)
Definition PostOffice_new (addr : Z) (reliability : Q) (nBoxes : Z) (garbage buf : list Z) : Node :=
  mkNode addr (clamp reliability) false (mkPH 0 0 0) garbage (replicate (Z.to_nat nBoxes) []) 0 0 0 0 false buf.

(** ** Steps *)

Inductive action :=
| DoSend (to : Z) (mailH : MailHeader) (d : list Z) (random : Z) (pad : list Z)
| DoReceive (box : Z)
| PollInterrupt
| SendInterrupt
| WorkerWait
| WorkerDeliver
| SenderReturn.

(** The arguments of a send have their C++ types. *)
Definition typed_args (to : Z) (h : MailHeader) (d : list Z) (random : Z) (pad : list Z) : bool :=
  int32b to && int32b (mh_to h) && int32b (mh_from h) && (0 <=? mh_length h) && (mh_length h <? 2 ^ 32) &&
  forallb (λ b, (0 <=? b) && (b <? 256)) d && (0 <=? random) &&
  forallb (λ b, (0 <=? b) && (b <? 256)) pad && (MaxWireSize <=? Z.of_nat (length pad)).

(** A step of the machine [a]; None when it is not enabled. *)
Definition act (s : Net) (a : Z) (x : action) : option (outcome (Net * list event)) :=
  n ← nodes s !! a;
  let quiet s := Some (Ok (s, [])) in
  match x with
  | DoSend to h d r pad => if typed_args to h d r pad then Some (PostOffice_Send s a n to h d r pad) else None
  | DoReceive box => Some (PostOffice_Receive s a n box)
  | PollInterrupt => Some (s ← CheckPktAvail s a n; Ok (s, []))
  | SendInterrupt => if 0 <? sending n then quiet (SendDone s a n) else None
  | WorkerWait => if negb (worker n) && (0 <? messageAvailable n) then quiet (put_node s a (Postal_wait n)) else None
  | WorkerDeliver => if worker n then Some (n ← PostalDelivery n; Ok (put_node s a n, [])) else None
  | SenderReturn => if (0 <? waiting n) && (0 <? messageSent n) then quiet (put_node s a (Send_return n)) else None
  end.

(** Runs, with what they show. *)
Inductive reach (s0 : Net) : Net → list event → Prop :=
| reach_refl : reach s0 s0 []
| reach_step s tr a x s' ev : reach s0 s tr → act s a x = Some (Ok (s', ev)) → reach s0 s' (tr ++ ev).
