(* ===== verification/NetworkProofs.v ===== *)
(** * Theorems on the network: mail arrives as it was sent

    The invariant of the machines and of the wire, from which every mail box is a
    queue: what is taken out of it is what was sent to it, in order, unchanged,
    and once. *)

From Stdlib Require Import ZArith QArith Lia Bool.
From S2P Require Import Prelude Bytes Network.

Local Open Scope Z_scope.

(** ** Headers in memory *)

Lemma word_roundtrip w rest : 0 <= w < 2 ^ 32 → le_combine (take 4 (le_split 4 w ++ rest)) = w.
Proof. intros Hw. rewrite take_app_length' by (by rewrite le_split_length). apply le_combine_split. simpl. lia. Qed.

Lemma hdr_words to from len rest : 0 <= len < 2 ^ 32 → int32 to → int32 from →
  let bs := hdr_bytes to from len ++ rest in
  int_at bs 0 = to ∧ int_at bs 4 = from ∧ unsigned_at bs 8 = len.
Proof.
  intros Hl Ht Hf bs. unfold int_at, unsigned_at, bytes_at, bs, hdr_bytes.
  rewrite <- !app_assoc. change (Z.to_nat 0) with 0%nat. change (Z.to_nat 4) with 4%nat. change (Z.to_nat 8) with (4 + 4)%nat.
  assert (Hd : ∀ w l, drop 4 (le_split 4 w ++ l) = l) by (intros w l; by rewrite drop_app_length' by (by rewrite le_split_length)).
  rewrite drop_0, <- drop_drop, !Hd. rewrite !word_roundtrip; [|unfold u32; apply Z.mod_pos_bound; lia..].
  rewrite !s32_u32, (s32_id to), (s32_id from), u32_id by done. done.
Qed.

Lemma hdr_bytes_length to from len : length (hdr_bytes to from len) = 12%nat.
Proof. unfold hdr_bytes. by rewrite !length_app, !le_split_length. Qed.

(** ** Mail on the wire *)

(** [K] boxes on every machine; mail to machine [b]. *)
Section Invariant.
Context (K : Z).

Record mail_ok (b : Z) (m : Mail) : Prop := {
  mo_to : pk_to (pktHdr m) = b ∧ int32 b;
  mo_from : int32 (pk_from (pktHdr m));
  mo_box : int32 (mh_to (mailHdr m)) ∧ 0 <= mh_to (mailHdr m) < K;
  mo_reply : int32 (mh_from (mailHdr m));
  mo_len : 0 <= mh_length (mailHdr m) <= MaxMailSize ∧ length (data m) = Z.to_nat (mh_length (mailHdr m));
  mo_pk : pk_length (pktHdr m) = mh_length (mailHdr m) + 12;
}.

Definition payload (m : Mail) : list Z :=
  hdr_bytes (mh_to (mailHdr m)) (mh_from (mailHdr m)) (mh_length (mailHdr m)) ++ data m.

Definition wire (m : Mail) (pkt : list Z) : Prop :=
  ∃ g, pkt = hdr_bytes (pk_to (pktHdr m)) (pk_from (pktHdr m)) (pk_length (pktHdr m)) ++ payload m ++ g.

Lemma payload_length b m : mail_ok b m → Z.of_nat (length (payload m)) = pk_length (pktHdr m) ∧ 12 <= pk_length (pktHdr m) <= 52.
Proof.
  intros []. unfold payload. rewrite length_app, hdr_bytes_length. unfold MaxMailSize, MaxPacketSize, MaxWireSize in *. lia.
Qed.

Lemma wire_header b m pkt : mail_ok b m → wire m pkt → PacketHeader_at pkt = pktHdr m.
Proof.
  intros Hm [g ->]. destruct (payload_length b m Hm) as [_ Hl]. destruct Hm as [[Ht Hb] Hf _ _ _ _].
  unfold PacketHeader_at. destruct (hdr_words (pk_to (pktHdr m)) (pk_from (pktHdr m)) (pk_length (pktHdr m)) (payload m ++ g))
    as (-> & -> & ->); [lia|by rewrite Ht|done|]. by destruct (pktHdr m).
Qed.

Lemma wire_payload b m pkt : mail_ok b m → wire m pkt → bytes_at pkt 12 (pk_length (pktHdr m)) = payload m.
Proof.
  intros Hm [g ->]. destruct (payload_length b m Hm) as [Hl _]. unfold bytes_at. change (Z.to_nat 12) with 12%nat.
  rewrite drop_app_length' by (by rewrite hdr_bytes_length). apply take_app_length'. lia.
Qed.

Lemma payload_header b m rest : mail_ok b m → MailHeader_at (payload m ++ rest) = mailHdr m.
Proof.
  intros []. unfold MailHeader_at, payload. rewrite <- app_assoc. unfold MaxMailSize, MaxPacketSize, MaxWireSize in *.
  destruct (hdr_words (mh_to (mailHdr m)) (mh_from (mailHdr m)) (mh_length (mailHdr m)) (data m ++ rest))
    as (-> & -> & ->); [lia|by destruct mo_box0|done|]. by destruct (mailHdr m).
Qed.

Lemma blit_0 {A} (l src : list A) : (length src <= length l)%nat → blit l 0 src = src ++ drop (length src) l.
Proof. done. Qed.

(** ** The invariant of one machine *)

(** [cur]: the packet in the inbox; [ms]: those in the socket [sock]. *)
Record node_ok (b : Z) (n : Node) (sock : list (list Z)) (cur : option Mail) (ms : list Mail) : Prop := {
  no_ident : ident n = b ∧ int32 b;
  no_free : sendBusy n = false;
  no_boxes : numBoxes n = K;
  no_arrays : length (inbox n) = 52%nat ∧ length (buffer n) = 52%nat;
  no_cur : match cur with
           | None => pk_length (inHdr n) = 0
           | Some m => inHdr n = pktHdr m ∧ take (length (payload m)) (inbox n) = payload m
           end;
  no_avail : 0 <= messageAvailable n ∧
    messageAvailable n + (if worker n then 1 else 0) = (if cur then 1 else 0);
  no_sock : Forall2 wire ms sock;
  no_mail : Forall (mail_ok b) (option_list cur ++ ms);
  no_senders : 0 <= messageSent n ∧ 0 <= sending n ∧ messageSent n + sending n = waiting n;
  no_stored : ∀ j l, boxes n !! j = Some l → Forall (mail_ok b) l;
}.

Definition for_box (j : Z) (l : list Mail) : list Mail := filter (λ m, mh_to (mailHdr m) = j) l.

(** Mail sent to box [j] of machine [b], and mail received from it. *)
Definition sent (tr : list event) (b j : Z) : list Mail :=
  omap (λ e, match e with
             | Sent m => if bool_decide (pk_to (pktHdr m) = b ∧ mh_to (mailHdr m) = j) then Some m else None
             | _ => None end) tr.
Definition received (tr : list event) (b j : Z) : list Mail :=
  omap (λ e, match e with
             | Received a i m => if bool_decide (a = b ∧ i = j) then Some m else None
             | _ => None end) tr.

Definition in_box (n : Node) (j : Z) : list Mail := default [] (boxes n !! Z.to_nat j).

(** The whole network after a run that has shown [tr]. *)
Record net_ok (s : Net) (tr : list event) : Prop := {
  ne_dom b : is_Some (nodes s !! b) ↔ is_Some (sockets s !! b);
  ne_node b n sock : nodes s !! b = Some n → sockets s !! b = Some sock → ∃ cur ms, node_ok b n sock cur ms ∧
    ∀ j, 0 <= j < K → sent tr b j = received tr b j ++ in_box n j ++ for_box j (option_list cur ++ ms);
}.

Lemma sent_app tr ev b j : sent (tr ++ ev) b j = sent tr b j ++ sent ev b j.
Proof. apply omap_app. Qed.
Lemma received_app tr ev b j : received (tr ++ ev) b j = received tr b j ++ received ev b j.
Proof. apply omap_app. Qed.

(** A step on one machine that leaves the sockets and shows nothing. *)
Lemma net_local s tr a n n' : net_ok s tr → nodes s !! a = Some n →
  (∀ sock cur ms, node_ok a n sock cur ms → ∃ cur', node_ok a n' sock cur' ms ∧
     ∀ j, 0 <= j < K → in_box n' j ++ for_box j (option_list cur' ++ ms) = in_box n j ++ for_box j (option_list cur ++ ms)) →
  net_ok (put_node s a n') tr.
Proof.
  intros [Hd Hn] Ha Hstep. split; simpl.
  - intros b. destruct (decide (b = a)) as [->|Hne]; [rewrite lookup_insert_eq|by rewrite lookup_insert_ne].
    rewrite <- Hd, Ha. split; eauto.
  - intros b n0 sock Hb Hs. destruct (decide (b = a)) as [->|Hne].
    + rewrite lookup_insert_eq in Hb. injection Hb as <-. destruct (Hn a n sock Ha Hs) as (cur & ms & Hok & Hj).
      destruct (Hstep sock cur ms Hok) as (cur' & Hok' & Hj'). exists cur', ms. split; [done|].
      intros j Hr. by rewrite Hj' by done; apply Hj.
    + rewrite lookup_insert_ne in Hb by done. by apply Hn.
Qed.
(** ** The steps of one machine *)

Lemma SendDone_ok s tr a n : net_ok s tr → nodes s !! a = Some n → 0 < sending n → net_ok (SendDone s a n) tr.
Proof.
  intros Hs Ha Hp. eapply net_local; [done|done|]. intros sock cur ms []. exists cur. split; [|done].
  split; try done; simpl; lia.
Qed.

Lemma Postal_wait_ok s tr a n : net_ok s tr → nodes s !! a = Some n → worker n = false → 0 < messageAvailable n →
  net_ok (put_node s a (Postal_wait n)) tr.
Proof.
  intros Hs Ha Hw Hp. eapply net_local; [done|done|]. intros sock cur ms []. exists cur. split; [|done].
  split; try done; simpl. rewrite Hw in no_avail0. lia.
Qed.

Lemma Send_return_ok s tr a n : net_ok s tr → nodes s !! a = Some n → 0 < messageSent n →
  net_ok (put_node s a (Send_return n)) tr.
Proof.
  intros Hs Ha Hp. eapply net_local; [done|done|]. intros sock cur ms []. exists cur. split; [|done].
  split; try done; simpl; lia.
Qed.

(** What the worker finds in its buffer. *)
Lemma Network_Receive_ok b n sock m ms : node_ok b n sock (Some m) ms →
  ∃ g, Network_Receive n = (pktHdr m, mkNode (ident n) (chanceToWork n) (sendBusy n)
      (mkPH (pk_to (pktHdr m)) (pk_from (pktHdr m)) 0) (inbox n) (boxes n) (messageAvailable n)
      (messageSent n) (sending n) (waiting n) (worker n) (payload m ++ g)) ∧ length (payload m ++ g) = 52%nat.
Proof.
  intros []. destruct no_cur0 as [Hh Hi]. cbn in no_mail0. apply Forall_cons in no_mail0 as [Hm _].
  destruct (payload_length b m Hm) as [Hl Hr]. destruct no_arrays0 as [Hib Hbf].
  unfold Network_Receive. rewrite Hh. destruct (Z.eqb_spec (pk_length (pktHdr m)) 0); [lia|].
  replace (Z.to_nat (pk_length (pktHdr m))) with (length (payload m)) by lia. rewrite Hi, blit_0 by lia.
  eexists. split; [done|]. rewrite length_app, length_drop. lia.
Qed.

Lemma in_box_lookup n j : 0 <= j < numBoxes n → boxes n !! Z.to_nat j = Some (in_box n j).
Proof.
  intros Hj. unfold in_box. destruct (lookup_lt_is_Some_2 (boxes n) (Z.to_nat j)) as [l Hl]; [unfold numBoxes in *; lia|].
  by rewrite Hl.
Qed.

Lemma PostalDelivery_ok b n sock cur ms : node_ok b n sock cur ms → worker n = true →
  ∃ m n', cur = Some m ∧ PostalDelivery n = Ok n' ∧ node_ok b n' sock None ms ∧ worker n' = false ∧
    ∀ j, 0 <= j < K → in_box n' j = in_box n j ++ (if decide (mh_to (mailHdr m) = j) then [m] else []).
Proof.
  intros Hok Hw. destruct cur as [m|].
  2: { destruct Hok. rewrite Hw in no_avail0. lia. }
  destruct (Network_Receive_ok b n sock m ms Hok) as (g & Hrec & Hlen).
  pose proof (no_mail _ _ _ _ _ Hok) as Hmm. cbn in Hmm. apply Forall_cons in Hmm as [Hm Hms].
  pose proof (no_boxes _ _ _ _ _ Hok) as HK. pose proof (mo_box _ _ Hm) as [_ Hbox]. pose proof (mo_len _ _ Hm) as [Hml Hdl].
  set (j0 := mh_to (mailHdr m)) in *.
  set (bs' := <[Z.to_nat j0 := in_box n j0 ++ [m]]> (boxes n)).
  exists m, (mkNode (ident n) (chanceToWork n) (sendBusy n) (mkPH (pk_to (pktHdr m)) (pk_from (pktHdr m)) 0) (inbox n) bs'
    (messageAvailable n) (messageSent n) (sending n) (waiting n) false (payload m ++ g)).
  split; [done|]. split; [|split; [|split]].
  - unfold PostalDelivery. rewrite Hrec. cbn [buffer boxes]. rewrite (payload_header b m g Hm). fold j0.
    change (numBoxes (mkNode _ _ _ _ _ (boxes n) _ _ _ _ _ _)) with (numBoxes n). rewrite HK.
    destruct (Z.leb_spec 0 j0); [|lia]. destruct (Z.ltb_spec j0 K); [|lia]. cbn [andb ASSERT mbind outcome_bind].
    destruct (Z.leb_spec (mh_length (mailHdr m)) MaxMailSize); [|lia]. cbn [ASSERT mbind outcome_bind].
    rewrite (proj2 (aget_Ok (boxes n) j0 (in_box n j0))) by (split; [lia|]; apply in_box_lookup; lia). cbn [mbind outcome_bind].
    unfold MailBox_Put, Mail_new. destruct (Z.leb_spec (mh_length (mailHdr m)) MaxMailSize); [|lia]. cbn [ASSERT mbind outcome_bind].
    assert (Hd : drop 12 (payload m ++ g) = data m ++ g).
    { unfold payload. rewrite <- app_assoc. apply drop_app_length'. by rewrite hdr_bytes_length. }
    rewrite Hd. unfold bytes_of. rewrite length_app.
    destruct (Z.leb_spec (mh_length (mailHdr m)) (Z.of_nat (length (data m) + length g))); [|lia]. cbn [mbind outcome_bind].
    rewrite take_app_length' by done. rewrite aset_in_range by (fold (numBoxes n); lia). cbn [mbind outcome_bind].
    unfold SynchList_Append, bs'. by destruct m.
  - destruct Hok. split; try done; cbn.
    + unfold numBoxes. cbn [boxes]. unfold bs'. rewrite length_insert. exact no_boxes0.
    + split; [apply no_arrays0|done].
    + rewrite Hw in no_avail0. lia.
    + intros j l Hl. unfold bs' in Hl. apply list_lookup_insert_Some in Hl as [(<- & <- & _)|[_ Hl]]; [|by eapply no_stored0].
      apply Forall_app. split; [|by apply Forall_singleton]. eapply no_stored0, in_box_lookup. lia.
  - done.
  - intros j Hj. unfold in_box at 1. cbn [boxes]. unfold bs'. destruct (decide (j0 = j)) as [<-|Hne].
    + rewrite list_lookup_insert_eq by (unfold numBoxes in HK; lia). cbn [default]. by rewrite decide_True.
    + rewrite list_lookup_insert_ne by lia. by rewrite decide_False, app_nil_r.
Qed.

Lemma for_box_cons j m ms : for_box j (m :: ms) = (if decide (mh_to (mailHdr m) = j) then [m] else []) ++ for_box j ms.
Proof. unfold for_box. rewrite filter_cons. by destruct (decide _). Qed.

Lemma WorkerDeliver_ok s tr a n : net_ok s tr → nodes s !! a = Some n → worker n = true →
  ∃ n', PostalDelivery n = Ok n' ∧ net_ok (put_node s a n') tr ∧ worker n' = false.
Proof.
  intros Hs Ha Hw. destruct (proj1 (ne_dom _ _ Hs a) ltac:(eauto)) as [sock Hsock].
  destruct (ne_node _ _ Hs a n sock Ha Hsock) as (cur & ms & Hok & _).
  destruct (PostalDelivery_ok a n sock cur ms Hok Hw) as (m & n' & -> & Hd & _ & Hw' & _). exists n'. split; [done|]. split; [|done].
  eapply net_local; [done|done|]. intros sock' cur' ms' Hok'.
  destruct (PostalDelivery_ok a n sock' cur' ms' Hok' Hw) as (m' & n'' & -> & Hd' & Hok'' & _ & Hb). rewrite Hd in Hd'. injection Hd' as <-.
  exists None. split; [done|]. intros j Hj. change (option_list (Some m') ++ ms') with (m' :: ms'). change (option_list None ++ ms') with ms'.
  rewrite Hb, for_box_cons by done. by rewrite <- app_assoc.
Qed.
Lemma CheckPktAvail_ok s tr a n : net_ok s tr → nodes s !! a = Some n →
  ∃ s', CheckPktAvail s a n = Ok s' ∧ net_ok s' tr.
Proof.
  intros Hs Ha. destruct (proj1 (ne_dom _ _ Hs a) ltac:(eauto)) as [sock Hsock].
  destruct (ne_node _ _ Hs a n sock Ha Hsock) as (cur & ms & Hok & Hj). unfold CheckPktAvail.
  destruct (Z.eqb_spec (pk_length (inHdr n)) 0) as [H0|]; cbn [negb]; [|eauto].
  rewrite Hsock. pose proof (no_sock _ _ _ _ _ Hok) as Hw.
  destruct sock as [|pkt q]; [eauto|]. inversion Hw as [|m pkt' ms' q' Hwm Hwq]; subst.
  assert (cur = None) as ->.
  { destruct cur as [m0|]; [|done]. pose proof (no_mail _ _ _ _ _ Hok) as Hm0. cbn in Hm0. apply Forall_cons in Hm0 as [Hm0 _].
    destruct (no_cur _ _ _ _ _ Hok) as [Hh _]. destruct (payload_length a m0 Hm0). rewrite Hh in H0. lia. }
  pose proof (no_mail _ _ _ _ _ Hok) as Hmm. change (option_list None ++ m :: ms') with (m :: ms') in Hmm.
  apply Forall_cons in Hmm as [Hm Hms]. rewrite (wire_header a m pkt Hm Hwm), (wire_payload a m pkt Hm Hwm).
  destruct (payload_length a m Hm) as [Hl Hr]. destruct (mo_to _ _ Hm) as [Hto _]. destruct (no_ident _ _ _ _ _ Hok) as [Hid _].
  destruct (Z.eqb_spec (pk_to (pktHdr m)) (ident n)); [|congruence].
  destruct (Z.leb_spec (pk_length (pktHdr m)) MaxPacketSize) as [_|]; [|unfold MaxPacketSize, MaxWireSize in *; lia]. cbn [andb ASSERT mbind outcome_bind].
  eexists. split; [done|]. split; simpl.
  - intros b. rewrite !lookup_insert_is_Some'. pose proof (ne_dom _ _ Hs b). naive_solver.
  - intros b n' sock' Hb Hs'. destruct (decide (b = a)) as [->|Hne].
    2: { rewrite lookup_insert_ne in Hb by done. rewrite lookup_insert_ne in Hs' by done. by apply (ne_node _ _ Hs). }
    rewrite lookup_insert_eq in Hb. rewrite lookup_insert_eq in Hs'. injection Hb as <-. injection Hs' as <-. exists (Some m), ms'. split; [|done].
    destruct Hok. destruct no_arrays0 as [Hib Hbf].
    assert (Hlen : length (blit (inbox n) 0 (payload m)) = 52%nat) by (rewrite length_blit; lia).
    assert (Htk : take (length (payload m)) (blit (inbox n) 0 (payload m)) = payload m).
    { rewrite blit_0 by lia. by rewrite take_app_length. }
    split; try done. cbn [messageAvailable worker]. lia.
Qed.

(** Events that are not about a box. *)
Lemma net_trace s tr ev : net_ok s tr → (∀ b j, sent ev b j = [] ∧ received ev b j = []) → net_ok s (tr ++ ev).
Proof.
  intros [Hd Hn] Hev. split; [done|]. intros b n sock Hb Hs. destruct (Hn b n sock Hb Hs) as (cur & ms & Hok & Hj).
  exists cur, ms. split; [done|]. intros j Hr. destruct (Hev b j) as [H1 H2].
  rewrite sent_app, received_app, H1, H2, !app_nil_r. by apply Hj.
Qed.

Lemma typed_args_spec to h d r pad : typed_args to h d r pad = true →
  int32 to ∧ int32 (mh_to h) ∧ int32 (mh_from h) ∧ 0 <= mh_length h ∧ MaxWireSize <= Z.of_nat (length pad).
Proof.
  unfold typed_args, int32b, int32. rewrite !andb_true_iff, !Z.leb_le, !Z.ltb_lt. intros Hx. split_and!; lia.
Qed.

Lemma outgoing_ok n to h d : int32 to → int32 (ident n) → int32 (mh_to h) → int32 (mh_from h) →
  0 <= mh_length h <= MaxMailSize → 0 <= mh_to h < K → mh_length h <= Z.of_nat (length d) →
  mail_ok to (outgoing n to h d) ∧
  payload (outgoing n to h d) = hdr_bytes (mh_to h) (mh_from h) (mh_length h) ++ take (Z.to_nat (mh_length h)) d.
Proof.
  intros. split; [|done]. unfold MaxMailSize, MaxPacketSize, MaxWireSize in *. split; simpl; try done.
  - split; [done|]. rewrite length_take. lia.
  - rewrite u32_id; lia.
Qed.

(** A datagram arrives in a socket. *)
Lemma net_wire s tr b q m pkt : net_ok s tr → sockets s !! b = Some q → mail_ok b m → wire m pkt →
  net_ok (mkNet (nodes s) (<[b := q ++ [pkt]]> (sockets s))) (tr ++ [Sent m]).
Proof.
  intros Hs Hq Hm Hw. destruct (mo_to _ _ Hm) as [Hto _]. split; simpl.
  - intros b'. rewrite lookup_insert_is_Some'. pose proof (ne_dom _ _ Hs b'). destruct (decide (b = b')) as [->|]; [|naive_solver].
    assert (is_Some (sockets s !! b')) by eauto. naive_solver.
  - intros b' n sock Hn Hsk. rewrite ?sent_app, ?received_app. destruct (decide (b' = b)) as [->|Hne].
    + rewrite lookup_insert_eq in Hsk. injection Hsk as <-. destruct (ne_node _ _ Hs b n q Hn Hq) as (cur & ms & Hok & Hj).
      exists cur, (ms ++ [m]). split.
      * destruct Hok. split; try done; [by apply Forall2_app; [|constructor]|]. rewrite app_assoc. apply Forall_app. split; [done|]. by apply Forall_singleton.
      * intros j Hr. rewrite sent_app, received_app, Hj by done. unfold sent, received. cbn [omap list_omap]. rewrite Hto.
        rewrite app_nil_r, !(app_assoc (option_list cur)). unfold for_box. rewrite (filter_app _ (option_list cur ++ ms)), <- !app_assoc. do 3 f_equal.
        rewrite filter_cons, filter_nil. destruct (decide (mh_to (mailHdr m) = j)); [rewrite bool_decide_true by done|rewrite bool_decide_false by naive_solver]; done.
    + rewrite lookup_insert_ne in Hsk by done. destruct (ne_node _ _ Hs b' n sock Hn Hsk) as (cur & ms & Hok & Hj).
      exists cur, ms. split; [done|]. intros j Hr. rewrite sent_app, received_app, Hj by done. unfold sent, received. cbn [omap list_omap].
      rewrite bool_decide_false by naive_solver. by rewrite !app_nil_r.
Qed.
Lemma ASSERT_Ok b u : ASSERT b = Ok u → b = true.
Proof. by destruct b. Qed.

(** A legal send: what it does. *)
Record legal (s : Net) (n : Node) (to : Z) (h : MailHeader) (d : list Z) : Prop := {
  lg_len : 0 <= mh_length h <= MaxMailSize ∧ mh_length h <= Z.of_nat (length d);
  lg_box : 0 <= mh_to h < K;
  lg_int : int32 to ∧ int32 (mh_to h) ∧ int32 (mh_from h);
}.

Definition sending_node (n : Node) : Node :=
  mkNode (ident n) (chanceToWork n) (sendBusy n) (inHdr n) (inbox n) (boxes n) (messageAvailable n)
    (messageSent n) (sending n + 1) (waiting n + 1) (worker n) (buffer n).

Lemma PostOffice_Send_eq s tr a n to h d r pad : net_ok s tr → nodes s !! a = Some n → legal s n to h d →
  MaxWireSize <= Z.of_nat (length pad) → let m := outgoing n to h d in
  PostOffice_Send s a n to h d r pad =
    (if loses n r then Ok (put_node s a (sending_node n), [Lost m])
     else match sockets s !! to with
          | None => Aborted
          | Some q => Ok (mkNet (<[a := sending_node n]> (nodes s)) (<[to := q ++ [blit (take 64 pad) 0
                (hdr_bytes to (ident n) (mh_length h + 12) ++ payload m)]]> (sockets s)), [Sent m])
          end).
Proof.
  intros Hs Ha [[Hl Hd] Hb (Hi1 & Hi2 & Hi3)] Hpad m. destruct (proj1 (ne_dom _ _ Hs a) ltac:(eauto)) as [sock Hsock].
  destruct (ne_node _ _ Hs a n sock Ha Hsock) as (cur & ms & Hok & _).
  pose proof (no_boxes _ _ _ _ _ Hok) as HK. pose proof (no_free _ _ _ _ _ Hok) as Hfree.
  assert (Hu : u32 (mh_length h + 12) = mh_length h + 12) by (apply u32_id; unfold MaxMailSize, MaxPacketSize, MaxWireSize in *; lia).
  unfold PostOffice_Send. destruct (Z.leb_spec (mh_length h) MaxMailSize); [|lia]. cbn [ASSERT mbind outcome_bind].
  rewrite HK. destruct (Z.leb_spec 0 (mh_to h)); [|lia]. destruct (Z.ltb_spec (mh_to h) K); [|lia]. cbn [andb ASSERT mbind outcome_bind].
  unfold bytes_of at 1. destruct (Z.leb_spec (mh_length h) (Z.of_nat (length d))); [|lia]. cbn [mbind outcome_bind].
  unfold Network_Send. cbn [sendBusy pk_length pk_from ident]. rewrite Hfree, Hu.
  destruct (Z.gtb_spec (mh_length h + 12) 0); [|lia].
  destruct (Z.leb_spec (mh_length h + 12) MaxPacketSize); [|unfold MaxMailSize, MaxPacketSize, MaxWireSize in *; lia].
  rewrite Z.eqb_refl. cbn [andb negb ASSERT mbind outcome_bind].
  change (loses (mkNode _ _ _ _ _ _ _ _ _ _ _ _) r) with (loses n r). destruct (loses n r).
  { unfold sending_node, m, outgoing. cbn. by rewrite Hfree. }
  assert (Hpl : hdr_bytes (mh_to h) (mh_from h) (mh_length h) ++ take (Z.to_nat (mh_length h)) d = payload m) by done.
  rewrite Hpl. unfold bytes_of. assert (Hlen : Z.of_nat (length (payload m)) = mh_length h + 12).
  { rewrite <- Hpl, length_app, hdr_bytes_length, length_take. lia. }
  rewrite Hlen, Z.leb_refl. cbn [mbind outcome_bind pk_to].
  rewrite (take_ge (payload m)) by lia. cbn [sockets put_node]. destruct (sockets s !! to); [|done].
  unfold sending_node, m, outgoing. cbn. by rewrite Hfree.
Qed.

Lemma sending_ok s tr a n : net_ok s tr → nodes s !! a = Some n → net_ok (put_node s a (sending_node n)) tr.
Proof.
  intros Hs Ha. eapply net_local; [done|done|]. intros sock cur ms []. exists cur. split; [|done]. split; try done; simpl; lia.
Qed.

Lemma Send_ok s tr a n to h d r pad s' ev : net_ok s tr → nodes s !! a = Some n → legal s n to h d →
  MaxWireSize <= Z.of_nat (length pad) → PostOffice_Send s a n to h d r pad = Ok (s', ev) → net_ok s' (tr ++ ev).
Proof.
  intros Hs Ha Hlg Hpad HS. rewrite (PostOffice_Send_eq s tr a n to h d r pad Hs Ha Hlg Hpad) in HS.
  pose proof (sending_ok s tr a n Hs Ha) as Hs1. destruct (loses n r).
  { injection HS as <- <-. by apply net_trace. }
  destruct (sockets s !! to) as [q|] eqn:Hq; [|done]. remember (blit _ _ _) as pkt eqn:Hpkt in HS. injection HS as <- <-.
  destruct (proj1 (ne_dom _ _ Hs a) ltac:(eauto)) as [sock Hsock].
  destruct (ne_node _ _ Hs a n sock Ha Hsock) as (cur & ms & Hok & _). destruct (no_ident _ _ _ _ _ Hok) as [Hid Hia].
  destruct Hlg as [[Hl Hd] Hb (Hi1 & Hi2 & Hi3)].
  destruct (outgoing_ok n to h d) as [Hm Hpl]; try done; [by rewrite Hid|].
  apply (net_wire (put_node s a (sending_node n)) tr to q (outgoing n to h d) _ Hs1); [done|done|].
  destruct (payload_length to _ Hm) as [Hlen Hr]. cbn [outgoing pktHdr pk_length] in Hlen, Hr.
  assert (Hu : u32 (mh_length h + 12) = mh_length h + 12) by (apply u32_id; unfold MaxMailSize, MaxPacketSize, MaxWireSize in *; lia).
  exists (drop (12 + length (payload (outgoing n to h d))) (take 64 pad)). rewrite Hpkt, blit_0 by (rewrite length_app, hdr_bytes_length, length_take; unfold MaxMailSize, MaxPacketSize, MaxWireSize in *; lia).
  rewrite length_app, hdr_bytes_length, <- app_assoc. cbn [outgoing pktHdr pk_to pk_from pk_length]. by rewrite Hu.
Qed.

Lemma Send_legal s tr a n to h d r pad s' ev : net_ok s tr → nodes s !! a = Some n → typed_args to h d r pad = true →
  PostOffice_Send s a n to h d r pad = Ok (s', ev) → legal s n to h d.
Proof.
  intros Hs Ha Ht HS. destruct (typed_args_spec _ _ _ _ _ Ht) as (H1 & H2 & H3 & H4 & H5).
  destruct (proj1 (ne_dom _ _ Hs a) ltac:(eauto)) as [sock Hsock].
  destruct (ne_node _ _ Hs a n sock Ha Hsock) as (cur & ms & Hok & _). pose proof (no_boxes _ _ _ _ _ Hok) as HK.
  unfold PostOffice_Send in HS. apply bind_Ok_inv in HS as (u1 & Hu1 & HS). apply ASSERT_Ok, Z.leb_le in Hu1.
  apply bind_Ok_inv in HS as (u2 & Hu2 & HS). apply ASSERT_Ok, andb_true_iff in Hu2 as [Hu2 Hu3].
  apply Z.leb_le in Hu2. apply Z.ltb_lt in Hu3. apply bind_Ok_inv in HS as (d' & Hd' & _). unfold bytes_of in Hd'.
  destruct (Z.leb_spec (mh_length h) (Z.of_nat (length d))); [|done]. split; [lia|lia|done].
Qed.

Lemma Receive_ok s tr a n box s' ev : net_ok s tr → nodes s !! a = Some n →
  PostOffice_Receive s a n box = Ok (s', ev) → net_ok s' (tr ++ ev).
Proof.
  intros Hs Ha HR. unfold PostOffice_Receive in HR. apply bind_Ok_inv in HR as (u1 & Hu1 & HR).
  apply ASSERT_Ok, andb_true_iff in Hu1 as [Hb1 Hb2]. apply Z.geb_le in Hb1. apply Z.ltb_lt in Hb2.
  apply bind_Ok_inv in HR as (b & Hb & HR). apply aget_Ok in Hb as [_ Hb]. destruct b as [|m b]; [done|].
  cbn [SynchList_Remove mbind outcome_bind] in HR. apply bind_Ok_inv in HR as (bs & Hbs & HR). apply aset_Ok in Hbs as [_ ->].
  apply bind_Ok_inv in HR as (u2 & _ & HR). injection HR as <- <-.
  split; simpl.
  - intros b'. rewrite lookup_insert_is_Some'. pose proof (ne_dom _ _ Hs b'). assert (is_Some (nodes s !! a)) by eauto.
    destruct (decide (a = b')) as [->|]; naive_solver.
  - intros b' n' sock Hn Hsk. destruct (decide (b' = a)) as [->|Hne].
    + rewrite lookup_insert_eq in Hn. injection Hn as <-. destruct (ne_node _ _ Hs a n sock Ha Hsk) as (cur & ms & Hok & Hj).
      exists cur, ms. split.
      * destruct Hok. split; try done.
        { unfold numBoxes, set_boxes in *. cbn [boxes]. by rewrite length_insert. }
        { cbn [set_boxes boxes]. intros j l Hl. apply list_lookup_insert_Some in Hl as [(<- & <- & _)|[_ Hl]]; [|by eapply no_stored0].
          by apply no_stored0, Forall_cons in Hb as [_ ?]. }
      * intros j Hr. rewrite sent_app, received_app, Hj by done. unfold sent, received. cbn [omap list_omap]. rewrite app_nil_r, <- app_assoc. f_equal.
        unfold in_box. cbn [set_boxes boxes]. destruct (decide (j = box)) as [->|Hne].
        { rewrite bool_decide_true by done. rewrite Hb, list_lookup_insert_eq by (apply lookup_lt_Some in Hb; lia). done. }
        { rewrite bool_decide_false by naive_solver. rewrite list_lookup_insert_ne by lia. done. }
    + rewrite lookup_insert_ne in Hn by done. destruct (ne_node _ _ Hs b' n' sock Hn Hsk) as (cur & ms & Hok & Hj).
      exists cur, ms. split; [done|]. intros j Hr. rewrite sent_app, received_app, Hj by done. unfold sent, received. cbn [omap list_omap].
      rewrite bool_decide_false by naive_solver. by rewrite !app_nil_r.
Qed.

Lemma act_ok s tr a x s' ev : net_ok s tr → act s a x = Some (Ok (s', ev)) → net_ok s' (tr ++ ev).
Proof.
  intros Hs Hact. unfold act in Hact. destruct (nodes s !! a) as [n|] eqn:Ha; [|done]. cbn [mbind option_bind] in Hact.
  destruct x as [to h d r pad|box| | | | |].
  - destruct (typed_args to h d r pad) eqn:Ht; [|done]. injection Hact as Hact. destruct (typed_args_spec _ _ _ _ _ Ht) as (_ & _ & _ & _ & Hp).
    eapply Send_ok; [done|done|by eapply Send_legal|done|done].
  - injection Hact as Hact. by eapply Receive_ok.
  - destruct (CheckPktAvail_ok s tr a n Hs Ha) as (s1 & Hc & Hs1). rewrite Hc in Hact. injection Hact as <- <-. by apply net_trace.
  - destruct (Z.ltb_spec 0 (sending n)); [|done]. injection Hact as <- <-. apply net_trace; [by apply SendDone_ok|done].
  - destruct (worker n) eqn:Hw; [done|]. cbn [negb andb] in Hact. destruct (Z.ltb_spec 0 (messageAvailable n)); [|done].
    injection Hact as <- <-. apply net_trace; [by apply Postal_wait_ok|done].
  - destruct (worker n) eqn:Hw; [|done]. destruct (WorkerDeliver_ok s tr a n Hs Ha Hw) as (n' & Hd & Hs' & _).
    rewrite Hd in Hact. injection Hact as <- <-. by apply net_trace.
  - destruct (Z.ltb_spec 0 (waiting n)); [|done]. destruct (Z.ltb_spec 0 (messageSent n)); [|done]. injection Hact as <- <-.
    apply net_trace; [by apply Send_return_ok|done].
Qed.

(** Machines as they start. *)
Definition started (s : Net) : Prop :=
  (∀ b, is_Some (nodes s !! b) ↔ is_Some (sockets s !! b)) ∧
  (∀ b n, nodes s !! b = Some n → int32 b ∧ sockets s !! b = Some [] ∧
     ∃ rel g buf, n = PostOffice_new b rel K g buf ∧ length g = 52%nat ∧ length buf = 52%nat).

Lemma started_ok s : 0 <= K → started s → net_ok s [].
Proof.
  intros HK [Hd Hn]. split; [done|]. intros b n sock Hb Hs. destruct (Hn b n Hb) as (Hi & Hs0 & rel & g & buf & -> & Hg & Hbuf).
  rewrite Hs in Hs0. injection Hs0 as ->. exists None, []. split.
  - split; try done.
    + unfold numBoxes, PostOffice_new. cbn [boxes]. rewrite length_replicate. lia.
    + intros j l Hl. apply lookup_replicate in Hl as [-> _]. done.
  - intros j Hj. unfold in_box, PostOffice_new. cbn [boxes]. by rewrite lookup_replicate_2 by lia.
Qed.

Lemma reach_ok s0 s tr : 0 <= K → started s0 → reach s0 s tr → net_ok s tr.
Proof. intros HK Hs Hr. induction Hr as [|s tr a x s' ev _ IH Ha]; [by apply started_ok|]. by eapply act_ok. Qed.
(** ** What the post offices promise *)

(** C13: mail boxes are queues.  In every run of any number of machines, with any
    interleaving of sends, receives, interrupts and postal workers, and whatever
    the network drops, the mail sent to a box (and not dropped) is, in this order:
    what has been received from the box, what is in the box, and what is still on
    the way; nothing is changed, repeated, reordered or put into another box, and
    nothing is on the way when the socket and the inbox of the machine are empty. *)
Theorem mail_fifo s0 s tr b n j : 0 <= K → started s0 → reach s0 s tr → nodes s !! b = Some n → 0 <= j < K →
  ∃ transit, sent tr b j = received tr b j ++ in_box n j ++ transit ∧
    (sockets s !! b = Some [] → pk_length (inHdr n) = 0 → transit = []).
Proof.
  intros HK Hs0 Hr Hn Hj. pose proof (reach_ok s0 s tr HK Hs0 Hr) as Hs.
  destruct (proj1 (ne_dom _ _ Hs b) ltac:(eauto)) as [sock Hsock].
  destruct (ne_node _ _ Hs b n sock Hn Hsock) as (cur & ms & Hok & Heq).
  exists (for_box j (option_list cur ++ ms)). split; [by apply Heq|]. intros He H0. rewrite Hsock in He. injection He as ->.
  destruct cur as [m|].
  - destruct (no_cur _ _ _ _ _ Hok) as [Hh _]. pose proof (no_mail _ _ _ _ _ Hok) as Hm. cbn in Hm.
    apply Forall_cons in Hm as [Hm _]. destruct (payload_length b m Hm). rewrite Hh in H0. lia.
  - pose proof (no_sock _ _ _ _ _ Hok) as Hw. by inversion Hw.
Qed.

(** C38: the network code does not stop a machine.  In every run the interrupt
    handlers, the postal worker and returning senders never fail an assertion
    (in particular every packet is for this machine and for one of its boxes), a
    legal send to a machine that exists returns, and it is dropped only if the
    network is unreliable; each waiting sender has its interrupt pending or its
    permission given. *)
Theorem network_safe s0 s tr a n : 0 <= K → started s0 → reach s0 s tr → nodes s !! a = Some n →
  (∀ x r, match x with DoSend _ _ _ _ _ | DoReceive _ => False | _ => True end → act s a x = Some r → ∃ s', r = Ok (s', [])) ∧
  (∀ to h d r pad, typed_args to h d r pad = true → mh_length h <= MaxMailSize → 0 <= mh_to h < K →
     mh_length h <= Z.of_nat (length d) → is_Some (nodes s !! to) →
     ∃ s' m, act s a (DoSend to h d r pad) = Some (Ok (s', [if loses n r then Lost m else Sent m])) ∧
       m = outgoing n to h d) ∧
  (∀ r, 0 <= r → (chanceToWork n == 1)%Q → loses n r = false) ∧
  messageSent n + sending n = waiting n.
Proof.
  intros HK Hs0 Hr Hn. pose proof (reach_ok s0 s tr HK Hs0 Hr) as Hs.
  destruct (proj1 (ne_dom _ _ Hs a) ltac:(eauto)) as [sock Hsock].
  destruct (ne_node _ _ Hs a n sock Hn Hsock) as (cur & ms & Hok & _). split_and!.
  - intros x r Hx Ha. unfold act in Ha. rewrite Hn in Ha. cbn [mbind option_bind] in Ha. destruct x; try done.
    + injection Ha as <-. destruct (CheckPktAvail_ok s tr a n Hs Hn) as (s1 & -> & _). eauto.
    + destruct (0 <? sending n); [|done]. injection Ha as <-. eauto.
    + destruct (_ && _); [|done]. injection Ha as <-. eauto.
    + destruct (worker n) eqn:Hw; [|done]. injection Ha as <-. destruct (WorkerDeliver_ok s tr a n Hs Hn Hw) as (n' & -> & _). cbn. eauto.
    + destruct (_ && _); [|done]. injection Ha as <-. eauto.
  - intros to h d r pad Ht Hl Hb Hd Hto. destruct (typed_args_spec _ _ _ _ _ Ht) as (H1 & H2 & H3 & H4 & H5).
    destruct (proj1 (ne_dom _ _ Hs to) Hto) as [q Hq]. unfold act. rewrite Hn. cbn [mbind option_bind]. rewrite Ht.
    assert (Hlg : legal s n to h d) by (split; [lia|lia|done]).
    rewrite (PostOffice_Send_eq s tr a n to h d r pad Hs Hn Hlg H5), Hq. destruct (loses n r); eauto.
  - intros r Hr0 Hc. unfold loses. apply not_true_is_false. intros Hle. apply Qle_bool_iff in Hle. rewrite Hc in Hle.
    unfold Qle in Hle. simpl in Hle. pose proof (Z.rem_bound_pos r 100 Hr0 ltac:(lia)). lia.
  - apply (no_senders _ _ _ _ _ Hok).
Qed.

(** Steps of one machine that show nothing. *)
Fixpoint acts (s : Net) (a : Z) (l : list action) : option Net :=
  match l with
  | [] => Some s
  | x :: l => match act s a x with Some (Ok (s', [])) => acts s' a l | _ => None end
  end.

Lemma acts_app s a l1 l2 s1 : acts s a l1 = Some s1 → acts s a (l1 ++ l2) = acts s1 a l2.
Proof.
  revert s. induction l1 as [|x l1 IH]; intros s Ha; [by injection Ha as ->|]. cbn in *.
  destruct (act s a x) as [[[s2 [|]]| | | |]|]; try done. by apply IH.
Qed.

(** The worker empties the inbox. *)
Lemma inbox_delivered s tr b n sock cur ms : net_ok s tr → nodes s !! b = Some n → sockets s !! b = Some sock →
  node_ok b n sock cur ms →
  ∃ l s' n', acts s b l = Some s' ∧ net_ok s' tr ∧ nodes s' !! b = Some n' ∧ sockets s' = sockets s ∧
    node_ok b n' sock None ms ∧ worker n' = false ∧ Forall (λ x, x = WorkerWait ∨ x = WorkerDeliver) l.
Proof.
  intros Hs Hn Hsk Hok.
  assert (Hdel : ∀ s n, net_ok s tr → nodes s !! b = Some n → node_ok b n sock cur ms → worker n = true →
    ∃ n', act s b WorkerDeliver = Some (Ok (put_node s b n', [])) ∧ net_ok (put_node s b n') tr ∧
      node_ok b n' sock None ms ∧ worker n' = false).
  { clear s n Hs Hn Hsk Hok. intros s n Hs Hn Hok Hw. destruct (WorkerDeliver_ok s tr b n Hs Hn Hw) as (n' & Hd & Hs' & _).
    destruct (PostalDelivery_ok b n sock cur ms Hok Hw) as (m & n'' & _ & Hd' & Hok' & Hw' & _). rewrite Hd in Hd'. injection Hd' as <-.
    exists n'. split_and!; try done. unfold act. rewrite Hn. cbn [mbind option_bind]. by rewrite Hw, Hd. }
  destruct (worker n) eqn:Hw.
  - destruct (Hdel s n Hs Hn Hok Hw) as (n' & Ha & Hs' & Hok' & Hw'). exists [WorkerDeliver], (put_node s b n'), n'.
    split_and!; try done; [cbn; by rewrite Ha|apply lookup_insert_eq|by repeat constructor; right].
  - destruct cur as [m|].
    2: { exists [], s, n. split_and!; try done. }
    assert (Hav : messageAvailable n = 1). { destruct (no_avail _ _ _ _ _ Hok) as [_ Hav]. rewrite Hw in Hav. lia. }
    pose proof (Postal_wait_ok s tr b n Hs Hn Hw ltac:(lia)) as Hs1.
    assert (Hok1 : node_ok b (Postal_wait n) sock (Some m) ms).
    { destruct Hok. split; try done. cbn [Postal_wait messageAvailable worker]. lia. }
    destruct (Hdel (put_node s b (Postal_wait n)) (Postal_wait n) Hs1) as (n' & Ha & Hs' & Hok' & Hw'); [apply lookup_insert_eq|done|done|].
    exists [WorkerWait; WorkerDeliver]. eexists _, n'. split_and!; [|exact Hs'|apply lookup_insert_eq|done|done|done|].
    + cbn [acts]. unfold act at 1. rewrite Hn. cbn [mbind option_bind]. rewrite Hw, Hav. cbn [negb andb Z.ltb Z.compare].
      by rewrite Ha.
    + by repeat constructor; auto.
Qed.

(** One poll takes one packet from the socket. *)
Lemma poll_takes s tr b n pkt sock m ms : net_ok s tr → nodes s !! b = Some n → sockets s !! b = Some (pkt :: sock) →
  node_ok b n (pkt :: sock) None (m :: ms) →
  ∃ s' n', act s b PollInterrupt = Some (Ok (s', [])) ∧ net_ok s' tr ∧ nodes s' !! b = Some n' ∧ sockets s' !! b = Some sock.
Proof.
  intros Hs Hn Hsk Hok. destruct (CheckPktAvail_ok s tr b n Hs Hn) as (s' & Hc & Hs'). exists s'.
  assert (Ha : act s b PollInterrupt = Some (Ok (s', []))) by (unfold act; rewrite Hn; cbn [mbind option_bind]; by rewrite Hc).
  unfold CheckPktAvail in Hc. pose proof (no_cur _ _ _ _ _ Hok) as H0. cbn in H0. rewrite H0, Hsk in Hc. cbn [negb Z.eqb] in Hc.
  apply bind_Ok_inv in Hc as (u & _ & Hc). injection Hc as <-. eexists. split_and!; try done; simpl; apply lookup_insert_eq.
Qed.
Definition delivery (x : action) : Prop := x = PollInterrupt ∨ x = WorkerWait ∨ x = WorkerDeliver.

Lemma all_delivered k : ∀ s tr b n sock, length sock = k → net_ok s tr → nodes s !! b = Some n → sockets s !! b = Some sock →
  ∃ l s' n', acts s b l = Some s' ∧ net_ok s' tr ∧ nodes s' !! b = Some n' ∧ sockets s' !! b = Some [] ∧
    pk_length (inHdr n') = 0 ∧ Forall delivery l.
Proof.
  induction k as [|k IH]; intros s tr b n sock Hk Hs Hn Hsk.
  all: destruct (ne_node _ _ Hs b n sock Hn Hsk) as (cur & ms & Hok & _).
  all: destruct (inbox_delivered s tr b n sock cur ms Hs Hn Hsk Hok) as (l1 & s1 & n1 & Ha1 & Hs1 & Hn1 & Hsk1 & Hok1 & _ & Hl1).
  all: assert (Hl1' : Forall delivery l1) by (eapply Forall_impl; [exact Hl1|unfold delivery; naive_solver]).
  - destruct sock; [|done]. exists l1, s1, n1. split_and!; try done; [by rewrite Hsk1|]. exact (no_cur _ _ _ _ _ Hok1).
  - destruct sock as [|pkt sock]; [done|]. rewrite <- Hsk1 in Hsk.
    pose proof (no_sock _ _ _ _ _ Hok1) as Hw. destruct ms as [|m ms]; [by inversion Hw|].
    destruct (poll_takes s1 tr b n1 pkt sock m ms Hs1 Hn1 Hsk Hok1) as (s2 & n2 & Ha2 & Hs2 & Hn2 & Hsk2).
    destruct (IH s2 tr b n2 sock) as (l3 & s3 & n3 & Ha3 & Hs3 & Hn3 & Hsk3 & H0 & Hl3); try done; [cbn in Hk; lia|].
    exists (l1 ++ PollInterrupt :: l3), s3, n3. split_and!; try done.
    + rewrite (acts_app _ _ _ _ _ Ha1). cbn [acts]. by rewrite Ha2.
    + apply Forall_app. split; [done|]. constructor; [by left|done].
Qed.

(** C39: mail on the way arrives.  From every state of every run, polls and the
    postal worker of a machine, running alone, bring all mail that has been put
    on the wire for the machine into its boxes: afterwards the mail sent to each
    box is exactly what was received from it before and what is in it now. *)
Theorem mail_arrives s0 s tr b n : 0 <= K → started s0 → reach s0 s tr → nodes s !! b = Some n →
  ∃ l s' n', Forall delivery l ∧ acts s b l = Some s' ∧ nodes s' !! b = Some n' ∧
    ∀ j, 0 <= j < K → sent tr b j = received tr b j ++ in_box n' j.
Proof.
  intros HK Hs0 Hr Hn. pose proof (reach_ok s0 s tr HK Hs0 Hr) as Hs.
  destruct (proj1 (ne_dom _ _ Hs b) ltac:(eauto)) as [sock Hsock].
  destruct (all_delivered (length sock) s tr b n sock eq_refl Hs Hn Hsock) as (l & s' & n' & Ha & Hs' & Hn' & Hsk' & H0 & Hl).
  exists l, s', n'. split_and!; try done. intros j Hj. destruct (ne_node _ _ Hs' b n' [] Hn' Hsk') as (cur & ms & Hok & Heq).
  rewrite Heq by done. pose proof (no_sock _ _ _ _ _ Hok) as Hw. apply Forall2_nil_inv_r in Hw as ->.
  destruct cur as [m|]; [|by rewrite !app_nil_r].
  destruct (no_cur _ _ _ _ _ Hok) as [Hh _]. pose proof (no_mail _ _ _ _ _ Hok) as Hm. cbn in Hm.
  apply Forall_cons in Hm as [Hm _]. destruct (payload_length b m Hm). rewrite Hh in H0. lia.
Qed.

(** A thread that asks an empty box for mail stops the kernel: Condition::Wait
    is not implemented. *)
Lemma receive_empty_aborts s a n box : nodes s !! a = Some n → 0 <= box < numBoxes n → in_box n box = [] →
  act s a (DoReceive box) = Some Aborted.
Proof.
  intros Hn Hb He. unfold act. rewrite Hn. cbn [mbind option_bind]. unfold PostOffice_Receive.
  destruct (Z.geb_spec box 0); [|lia]. destruct (Z.ltb_spec box (numBoxes n)); [|lia]. cbn [andb ASSERT mbind outcome_bind].
  rewrite (proj2 (aget_Ok (boxes n) box [])); [done|]. split; [lia|]. rewrite (in_box_lookup n box Hb). by rewrite He.
Qed.
End Invariant.

(** ** Two machines *)

Module TwoMachines.

Definition zeros : list Z := replicate 64 0.
Definition node (a : Z) : Node := PostOffice_new a 1 10 (replicate 52 0) (replicate 52 0).
Definition net0 : Net := mkNet {[1 := node 1; 2 := node 2]} {[1 := []; 2 := []]}.

Lemma net0_started : started 10 net0.
Proof.
  split.
  - intros b. unfold net0. cbn [nodes sockets]. rewrite !lookup_insert_is_Some', !lookup_singleton_is_Some. naive_solver.
  - intros b n Hb. unfold net0 in *. cbn [nodes sockets] in *.
    apply lookup_insert_Some in Hb as [[<- <-]|[Hne Hb]]; [|apply lookup_singleton_Some in Hb as [<- <-]].
    all: split; [by unfold int32|]; split; [done|]. 
    all: exists 1%Q, (replicate 52 0), (replicate 52 0); done.
Qed.

Fixpoint runs (s : Net) (tr : list event) (l : list (Z * action)) : option (Net * list event) :=
  match l with
  | [] => Some (s, tr)
  | (a, x) :: l => match act s a x with Some (Ok (s', ev)) => runs s' (tr ++ ev) l | _ => None end
  end.

Lemma runs_reach s0 l : ∀ s tr s' tr', reach s0 s tr → runs s tr l = Some (s', tr') → reach s0 s' tr'.
Proof.
  induction l as [|[a x] l IH]; intros s tr s' tr' Hr Hs; cbn in Hs; [by injection Hs as <- <-|].
  destruct (act s a x) as [[[s1 ev]| | | |]|] eqn:Ha; try done. eapply IH; [|done]. by eapply reach_step.
Qed.

(** Machine 1 sends "hi" and "yo" to box 3 of machine 2; the first arrives. *)
Definition send (c d : Z) : Z * action := (1, DoSend 2 (mkMH 3 0 2) [c; d] 7 zeros).
Definition story : list (Z * action) :=
  [send 104 105; (2, PollInterrupt); send 121 111; (1, SendInterrupt); (2, WorkerWait); (2, WorkerDeliver); (1, SenderReturn)].

Definition final : Net * list event := default (net0, []) (runs net0 [] story).
Definition node_of (a : Z) : Node := default (node a) (nodes (fst final) !! a).

Lemma final_reach : reach net0 (fst final) (snd final).
Proof.
  apply (runs_reach net0 story net0 []); [apply reach_refl|]. vm_compute. reflexivity.
Qed.

Lemma mail_fifo_witness :
  ∃ transit, sent (snd final) 2 3 = received (snd final) 2 3 ++ in_box (node_of 2) 3 ++ transit ∧ transit ≠ [].
Proof.
  destruct (mail_fifo 10 net0 (fst final) (snd final) 2 (node_of 2) 3) as (transit & H1 & _).
  - lia.
  - exact net0_started.
  - exact final_reach.
  - vm_compute. reflexivity.
  - lia.
  - exists transit. split; [exact H1|]. intros ->. revert H1. vm_compute. discriminate.
Defined.

Lemma network_safe_witness : messageSent (node_of 1) + sending (node_of 1) = waiting (node_of 1) ∧
  ∃ s', act (fst final) 2 PollInterrupt = Some (Ok (s', [])).
Proof.
  destruct (network_safe 10 net0 (fst final) (snd final) 1 (node_of 1)) as (_ & _ & _ & H1).
  - lia.
  - exact net0_started.
  - exact final_reach.
  - vm_compute. reflexivity.
  - destruct (network_safe 10 net0 (fst final) (snd final) 2 (node_of 2)) as (H2 & _).
    + lia.
    + exact net0_started.
    + exact final_reach.
    + vm_compute. reflexivity.
    + split; [exact H1|]. destruct (act (fst final) 2 PollInterrupt) as [r|] eqn:Ha.
      * destruct (H2 PollInterrupt r I Ha) as [s' ->]. exists s'. reflexivity.
      * exfalso. revert Ha. vm_compute. discriminate.
Defined.

Lemma mail_arrives_witness :
  ∃ l s' n', Forall delivery l ∧ acts (fst final) 2 l = Some s' ∧ nodes s' !! 2 = Some n' ∧
    in_box n' 3 = sent (snd final) 2 3.
Proof.
  destruct (mail_arrives 10 net0 (fst final) (snd final) 2 (node_of 2)) as (l & s' & n' & H1 & H2 & H3 & H4).
  - lia.
  - exact net0_started.
  - exact final_reach.
  - vm_compute. reflexivity.
  - exists l, s', n'. split; [exact H1|]. split; [exact H2|]. split; [exact H3|].
    rewrite (H4 3) by lia. replace (received (snd final) 2 3) with (@nil Mail) by (vm_compute; reflexivity). reflexivity.
Defined.
End TwoMachines.
