(* ===== verification/Execute.v ===== *)
(** * bin/execute.c, with bin/instr.h, bin/encode.h and bin/int.h: the
    stand-alone MIPS interpreter

    runprogram() interprets a MIPS program in 16 megabytes of memory, apart
    from the simulated machine of machine/mipssim.cc: no translation, no load
    delay, no exceptions.  Memory is a char array that the macros of int.h
    index from [memoffset]; an access outside the array, or to an int or short
    that is not aligned, is undefined.  The integers are 32-bit ints of a
    little-endian host that wrap around; a shift count outside 0 to 31 is
    undefined, and so are a division by zero and INT_MIN / -1. *)

From Stdlib Require Import ZArith Lia Bool.
From S2P Require Import Prelude Bytes.

Local Open Scope Z_scope.

Module Execute.

(** ** int.h *)

Definition MEMSIZE : Z := 2 ^ 24.
Definition memoffset : Z := 0x10000000.

(** ** instr.h *)

Definition rd_ (i : Z) : Z := Z.land (Z.shiftr i 11) 0x1f.
Definition rt_ (i : Z) : Z := Z.land (Z.shiftr i 16) 0x1f.
Definition rs_ (i : Z) : Z := Z.land (Z.shiftr i 21) 0x1f.
Definition shamt_ (i : Z) : Z := Z.land (Z.shiftr i 6) 0x1f.
Definition immed (i : Z) : Z :=
  if negb (Z.land i 0x8000 =? 0) then Z.lor i (-0x8000) else Z.land i 0x7fff.

(** ** The state: the registers, memory and runprogram's locals *)

Record cpu := mkCpu {
  Reg : list Z;
  HI : Z;
  LO : Z;
  mem : Z → Z;
  pc : Z;
  npc : Z;
  icount : Z;
}.

Definition R (c : cpu) (i : Z) : Z := default 0 (Reg c !! Z.to_nat i).

Definition set_R (c : cpu) (i v : Z) : cpu :=
  mkCpu (<[Z.to_nat i := v]> (Reg c)) (HI c) (LO c) (mem c) (pc c) (npc c) (icount c).

Definition set_HI_LO (c : cpu) (h l : Z) : cpu :=
  mkCpu (Reg c) h l (mem c) (pc c) (npc c) (icount c).

Definition set_npc (c : cpu) (a : Z) : cpu :=
  mkCpu (Reg c) (HI c) (LO c) (mem c) (pc c) a (icount c).

Definition set_mem (c : cpu) (f : Z → Z) : cpu :=
  mkCpu (Reg c) (HI c) (LO c) f (pc c) (npc c) (icount c).

(** The memory-access macros: [n] bytes at an address. *)
Definition valid_access (addr n : Z) : bool :=
  (memoffset <=? addr) && (addr + n <=? memoffset + MEMSIZE) && (addr mod n =? 0).

Definition mem_load (c : cpu) (addr n : Z) : outcome Z :=
  if valid_access addr n
  then Ok (le_combine ((λ i, mem c (addr - memoffset + i)) <$> seqZ 0 n)) else Undef.

Definition mem_write (f : Z → Z) (a : Z) (bs : list Z) : Z → Z := λ i,
  match (if a <=? i then bs !! Z.to_nat (i - a) else None) with
  | Some b => b
  | None => f i
  end.

Definition mem_store (c : cpu) (addr n v : Z) : outcome cpu :=
  if valid_access addr n
  then Ok (set_mem c (mem_write (mem c) (addr - memoffset) (le_split (Z.to_nat n) v))) else Undef.

Definition s16 (z : Z) : Z := (z + 2 ^ 15) mod 2 ^ 16 - 2 ^ 15.

Definition ifetch (c : cpu) (addr : Z) : outcome Z := v ← mem_load c addr 4; Ok (s32 v).
Definition fetch (c : cpu) (addr : Z) : outcome Z := v ← mem_load c addr 4; Ok (s32 v).
Definition sfetch (c : cpu) (addr : Z) : outcome Z := v ← mem_load c addr 2; Ok (s16 v).
Definition usfetch (c : cpu) (addr : Z) : outcome Z := mem_load c addr 2.
Definition cfetch (c : cpu) (addr : Z) : outcome Z := v ← mem_load c addr 1; Ok (schar v).
Definition ucfetch (c : cpu) (addr : Z) : outcome Z := mem_load c addr 1.
Definition store (c : cpu) (addr i : Z) : outcome cpu := mem_store c addr 4 (u32 i).
Definition sstore (c : cpu) (addr i : Z) : outcome cpu := mem_store c addr 2 (i mod 2 ^ 16).
Definition cstore (c : cpu) (addr i : Z) : outcome cpu := mem_store c addr 1 (i mod 2 ^ 8).

(** ** The interpreter *)

(** How an iteration of the loop ends: by going on, after a call of
    system_trap() or system_break(), or by exit(code). *)
Inductive turn :=
| Continue (c : cpu)
| system_trap (c : cpu)
| system_break (c : cpu)
| exit (code : Z).

(** Reg[r] = v; break; *)
Definition set_ (c : cpu) (r v : Z) : outcome turn := Ok (Continue (set_R c r v)).

(** u(): an unimplemented instruction ends the program. *)
Definition u : outcome turn := Ok (exit 2).

(** A shift by a register. *)
Definition shift_count (n : Z) : outcome Z := if in_range n 32 then Ok n else Undef.

(** The HI word of MULT and MULTU, from the 16-bit halves of the operands. *)
Definition mult_HI (t1 t2 : Z) : Z :=
  let t1l := Z.land t1 0xffff in
  let t1h := Z.land (Z.shiftr t1 16) 0xffff in
  let t2l := Z.land t2 0xffff in
  let t2h := Z.land (Z.shiftr t2 16) 0xffff in
  s32 (t1h * t2h + Z.shiftr (s32 (t1h * t2l)) 16 + Z.shiftr (s32 (t2h * t1l)) 16).

(** case I_MULT *)
Definition MULT (c : cpu) (t1 t2 : Z) : cpu :=
  let neg := false in
  let '(t1, neg) := if t1 <? 0 then (s32 (- t1), negb neg) else (t1, neg) in
  let '(t2, neg) := if t2 <? 0 then (s32 (- t2), negb neg) else (t2, neg) in
  let LO := s32 (t1 * t2) in
  let HI := mult_HI t1 t2 in
  if neg : bool then
    let LO := s32 (Z.lnot LO + 1) in
    let HI := Z.lnot HI in
    set_HI_LO c (if LO =? 0 then s32 (HI + 1) else HI) LO
  else set_HI_LO c HI LO.

Definition b2i (b : bool) : Z := if b then 1 else 0.

(** case I_SPECIAL *)
Definition special (c : cpu) (instr xpc : Z) : outcome turn :=
  let rs := R c (rs_ instr) in
  let rt := R c (rt_ instr) in
  let rd := rd_ instr in
  match Z.land instr 0x3f with
  | 0x00 (* I_SLL *) => set_ c rd (s32 (Z.shiftl rt (shamt_ instr)))
  | 0x02 (* I_SRL *) => set_ c rd (s32 (Z.shiftr (u32 rt) (shamt_ instr)))
  | 0x03 (* I_SRA *) => set_ c rd (Z.shiftr rt (shamt_ instr))
  | 0x04 (* I_SLLV *) => n ← shift_count rs; set_ c rd (s32 (Z.shiftl rt n))
  | 0x06 (* I_SRLV *) => n ← shift_count rs; set_ c rd (s32 (Z.shiftr (u32 rt) n))
  | 0x07 (* I_SRAV *) => n ← shift_count rs; set_ c rd (Z.shiftr rt n)
  | 0x08 (* I_JR *) => Ok (Continue (set_npc c rs))
  | 0x09 (* I_JALR *) => set_ (set_npc c rs) rd (s32 (xpc + 8))
  | 0x0c (* I_SYSCALL *) => Ok (system_trap c)
  | 0x0d (* I_BREAK *) => Ok (system_break c)
  | 0x10 (* I_MFHI *) => set_ c rd (HI c)
  | 0x11 (* I_MTHI *) => Ok (Continue (set_HI_LO c rs (LO c)))
  | 0x12 (* I_MFLO *) => set_ c rd (LO c)
  | 0x13 (* I_MTLO *) => Ok (Continue (set_HI_LO c (HI c) rs))
  | 0x18 (* I_MULT *) => Ok (Continue (MULT c rs rt))
  | 0x19 (* I_MULTU *) => Ok (Continue (set_HI_LO c (mult_HI rs rt) (s32 (rs * rt))))
  | 0x1a (* I_DIV *) =>
      if (rt =? 0) || (rs =? - 2 ^ 31) && (rt =? -1) then Undef
      else Ok (Continue (set_HI_LO c (Z.rem rs rt) (Z.quot rs rt)))
  | 0x1b (* I_DIVU *) =>
      if u32 rt =? 0 then Undef
      else Ok (Continue (set_HI_LO c (s32 (u32 rs mod u32 rt)) (s32 (u32 rs / u32 rt))))
  | 0x20 (* I_ADD *) | 0x21 (* I_ADDU *) => set_ c rd (s32 (rs + rt))
  | 0x22 (* I_SUB *) | 0x23 (* I_SUBU *) => set_ c rd (s32 (rs - rt))
  | 0x24 (* I_AND *) => set_ c rd (Z.land rs rt)
  | 0x25 (* I_OR *) => set_ c rd (Z.lor rs rt)
  | 0x26 (* I_XOR *) => set_ c rd (Z.lxor rs rt)
  | 0x27 (* I_NOR *) => set_ c rd (Z.lnot (Z.lor rs rt))
  | 0x2a (* I_SLT *) => set_ c rd (b2i (rs <? rt))
  | 0x2b (* I_SLTU *) => set_ c rd (b2i (u32 rs <? u32 rt))
  | _ => u
  end.

(** if (taken) npc = xpc + 4 + (immed(instr)<<2); break; *)
Definition branch (c : cpu) (instr xpc : Z) (taken : bool) : outcome turn :=
  Ok (Continue (if taken then set_npc c (s32 (xpc + 4 + Z.shiftl (immed instr) 2)) else c)).

(** case I_BCOND *)
Definition bcond (c : cpu) (instr xpc : Z) : outcome turn :=
  let link := set_R c 31 (s32 (xpc + 8)) in
  match rt_ instr with
  | 0x00 (* I_BLTZ *) => branch c instr xpc (R c (rs_ instr) <? 0)
  | 0x01 (* I_BGEZ *) => branch c instr xpc (R c (rs_ instr) >=? 0)
  | 0x10 (* I_BLTZAL *) => branch link instr xpc (R link (rs_ instr) <? 0)
  | 0x11 (* I_BGEZAL *) => branch link instr xpc (R link (rs_ instr) >=? 0)
  | _ => u
  end.

(** Reg[rt(instr)] = ...fetch(Reg[rs(instr)] + immed(instr)); break; *)
Definition load_ (o : outcome Z) (c : cpu) (r : Z) : outcome turn := v ← o; set_ c r v.

Definition stored (o : outcome cpu) : outcome turn := c ← o; Ok (Continue c).

(** The switch on the opcode. *)
Definition switch (c : cpu) (instr xpc : Z) : outcome turn :=
  let rs := R c (rs_ instr) in
  let rt := R c (rt_ instr) in
  let addr := s32 (rs + immed instr) in
  let target := s32 (Z.lor (Z.land (u32 xpc) 0xf0000000) (Z.shiftl (Z.land instr 0x03ffffff) 2)) in
  match Z.land (Z.shiftr instr 26) 0x3f with
  | 0x00 (* I_SPECIAL *) => special c instr xpc
  | 0x01 (* I_BCOND *) => bcond c instr xpc
  | 0x02 (* I_J *) => Ok (Continue (set_npc c target))
  | 0x03 (* I_JAL *) => Ok (Continue (set_npc (set_R c 31 (s32 (xpc + 8))) target))
  | 0x04 (* I_BEQ *) => branch c instr xpc (rs =? rt)
  | 0x05 (* I_BNE *) => branch c instr xpc (negb (rs =? rt))
  | 0x06 (* I_BLEZ *) => branch c instr xpc (rs <=? 0)
  | 0x07 (* I_BGTZ *) => branch c instr xpc (rs >? 0)
  | 0x08 (* I_ADDI *) | 0x09 (* I_ADDIU *) => set_ c (rt_ instr) addr
  | 0x0a (* I_SLTI *) => set_ c (rt_ instr) (b2i (rs <? immed instr))
  | 0x0b (* I_SLTIU *) => set_ c (rt_ instr) (b2i (u32 rs <? u32 (immed instr)))
  | 0x0c (* I_ANDI *) => set_ c (rt_ instr) (Z.land rs (immed instr))
  | 0x0d (* I_ORI *) => set_ c (rt_ instr) (Z.lor rs (immed instr))
  | 0x0e (* I_XORI *) => set_ c (rt_ instr) (Z.lxor rs (immed instr))
  | 0x0f (* I_LUI *) => set_ c (rt_ instr) (s32 (Z.shiftl instr 16))
  | 0x20 (* I_LB *) => load_ (cfetch c addr) c (rt_ instr)
  | 0x21 (* I_LH *) => load_ (sfetch c addr) c (rt_ instr)
  | 0x22 (* I_LWL *) =>
      w ← fetch c (Z.land addr (-4));
      set_ c (rt_ instr)
        (Z.lor (Z.land rt (Z.shiftr (-1) (8 * Z.land (- addr) 3))) (s32 (Z.shiftl w (8 * Z.land addr 3))))
  | 0x23 (* I_LW *) => load_ (fetch c addr) c (rt_ instr)
  | 0x24 (* I_LBU *) => load_ (ucfetch c addr) c (rt_ instr)
  | 0x25 (* I_LHU *) => load_ (usfetch c addr) c (rt_ instr)
  | 0x26 (* I_LWR *) =>
      w ← fetch c (Z.land addr (-4));
      let old := Z.land rt (s32 (Z.shiftl (-1) (8 * Z.land addr 3))) in
      let old := if Z.land addr 3 =? 0 then 0 else old in
      set_ c (rt_ instr) (Z.lor old (Z.shiftr w (8 * Z.land (- addr) 3)))
  | 0x28 (* I_SB *) => stored (cstore c addr rt)
  | 0x29 (* I_SH *) => stored (sstore c addr rt)
  | 0x2a (* I_SWL *) => u
  | 0x2b (* I_SW *) => stored (store c addr rt)
  | 0x2e (* I_SWR *) => u
  | 0x30 | 0x31 | 0x32 | 0x33 | 0x38 | 0x39 | 0x3a | 0x3b
  | 0x10 | 0x11 | 0x12 | 0x13 (* I_LWC*, I_SWC*, I_COP* *) => Ok (exit 2)
  | _ => u
  end.

(** One iteration of the for loop (tracing off). *)
Definition cycle (c : cpu) : outcome turn :=
  let xpc := pc c in
  let c := mkCpu (Reg c) (HI c) (LO c) (mem c) (npc c) (s32 (npc c + 4)) (s32 (icount c + 1)) in
  instr ← ifetch c xpc;
  let c := set_R c 0 0 in
  if negb (instr =? 0) then switch c instr xpc else Ok (Continue c).

(** [n] iterations; a trap, a breakpoint or an exit ends them earlier. *)
Fixpoint cycles (n : nat) (c : cpu) : outcome turn :=
  match n with
  | O => Ok (Continue c)
  | S n =>
      t ← cycle c;
      match t with Continue c => cycles n c | t => Ok t end
  end.

(** The loop that copies the arguments: strcpy, store(aci, ai), and on. *)
Fixpoint push_args (c : cpu) (aci ai : Z) (argv : list (list Z)) : outcome cpu :=
  match argv with
  | [] => Ok c
  | s :: argv =>
      let n := Z.of_nat (length s) + 1 in
      c ← (if (memoffset <=? ai) && (ai + n <=? memoffset + MEMSIZE)
           then Ok (set_mem c (mem_write (mem c) (ai - memoffset) (s ++ [0]))) else Undef);
      c ← store c aci ai;
      push_args c (aci + 4) (ai + n) argv
  end.

(** runprogram(startpc, argc, argv) before its loop. *)
Definition runprogram_setup (c : cpu) (startpc : Z) (argv : list (list Z)) : outcome cpu :=
  let i := MEMSIZE - 1024 + memoffset in
  let c := mkCpu (<[29%nat := i]> (Reg c)) (HI c) (LO c) (mem c) startpc (s32 (startpc + 4)) 0 in
  c ← store c i (Z.of_nat (length argv));
  push_args c (i + 4) (i + 4 + 32) argv.

(** ** ilog2 *)

Definition ilog2_step (s : Z * Z) (stage : Z * Z) : Z * Z :=
  let '(i, l) := s in
  let '(mask, n) := stage in
  let j := Z.land (u32 i) mask in
  if negb (j =? 0) then (j, l + n) else (i, l).

Definition ilog2 (i : Z) : Z :=
  if i =? 0 then 0
  else (foldl ilog2_step (i, 1)
          [(0xffff0000, 16); (0xff00ff00, 8); (0xf0f0f0f0, 4); (0xcccccccc, 2); (0xaaaaaaaa, 1)]).2.
End Execute.
