(* ===== verification/ExecuteProofs.v ===== *)
(** * bin/execute.c against machine/mipssim.cc: two interpreters of one
    instruction set

    The stand-alone interpreter has no load delay slot and no translation, and
    the two differ on some operands.  [agrees] says, instruction by
    instruction, when they do not; the main theorem is a lock-step simulation
    of the simulated machine by execute.c over any run that stays in it. *)

From Stdlib Require Import ZArith Lia Bool.
From S2P Require Import Prelude Bytes Machine Mips MipsMult MipsProofs Execute.

Local Open Scope Z_scope.

Module ExecuteProofs.
Import Execute.

(** ** The instruction fields *)

Lemma field_u32 v k n : 0 <= k → 0 <= n → k + n <= 32 →
  Z.land (Z.shiftr (u32 v) k) (Z.ones n) = Z.land (Z.shiftr v k) (Z.ones n).
Proof.
  intros Hk Hn Hkn. apply Z.bits_inj'. intros i Hi. rewrite !Z.land_spec, !Z.shiftr_spec by lia.
  destruct (Z.ltb_spec i n); [by rewrite testbit_u32 by lia|].
  by rewrite Z.ones_spec_high, !andb_false_r by lia.
Qed.

Lemma low_u32 v n : 0 <= n <= 32 → Z.land (u32 v) (Z.ones n) = Z.land v (Z.ones n).
Proof. intros. pose proof (field_u32 v 0 n) as Hf. rewrite !Z.shiftr_0_r in Hf. apply Hf; lia. Qed.

Lemma lor_neg_pow2 v : Z.lor v (-0x8000) = v mod 2 ^ 15 - 2 ^ 15.
Proof.
  assert (Hl : Z.land (v mod 2 ^ 15) (- 2 ^ 15) = 0).
  { apply Z.bits_inj'. intros i Hi. rewrite Z.land_spec, Z.bits_0.
    destruct (Z.ltb_spec i 15); [|by rewrite Z.mod_pow2_bits_high by lia].
    change (- 2 ^ 15) with (-1 * 2 ^ 15). by rewrite Z.mul_pow2_bits_low, andb_false_r by lia. }
  change (v mod 2 ^ 15 - 2 ^ 15) with (v mod 2 ^ 15 + - 2 ^ 15).
  rewrite Z.add_nocarry_lxor, Z.lxor_lor by done. apply Z.bits_inj'. intros i Hi.
  rewrite !Z.lor_spec. destruct (Z.ltb_spec i 15).
  - by rewrite Z.mod_pow2_bits_low by lia.
  - change (-0x8000) with (-1 * 2 ^ 15). change (- 2 ^ 15) with (-1 * 2 ^ 15).
    rewrite Z.mul_pow2_bits by lia. change (-1) with (Z.lnot 0).
    by rewrite Z.lnot_spec, Z.bits_0, !orb_true_r by lia.
Qed.

(** The macro immed() is the sign extension Decode does. *)
Lemma immed_extra v :
  (if negb (Z.land (Z.land (u32 v) 0xffff) 0x8000 =? 0)
   then s32 (Z.lor (Z.land (u32 v) 0xffff) 0xffff0000) else Z.land (u32 v) 0xffff) = immed v.
Proof.
  change 0xffff with (Z.ones 16). rewrite low_u32, land_ones_mod by lia.
  pose proof (Z.mod_pos_bound v (2 ^ 16) ltac:(lia)). rewrite sign_extend by lia.
  unfold immed. rewrite lor_neg_pow2. change 0x7fff with (Z.ones 15). rewrite land_ones_mod by lia.
  change 0x8000 with (2 ^ 15). rewrite land_pow2_eqb, negb_involutive, Z.testbit_odd by lia.
  rewrite Z.shiftr_div_pow2 by lia.
  pose proof (Zmod_odd (v / 2 ^ 15)) as Ho.
  destruct (Z.odd (v / 2 ^ 15)); destruct (Z.ltb_spec (v mod 2 ^ 16) (2 ^ 15));
    Z.to_euclidean_division_equations; lia.
Qed.

Lemma immed_range v : - 2 ^ 15 <= immed v < 2 ^ 15.
Proof.
  rewrite <- immed_extra. change 0xffff with (Z.ones 16). rewrite land_ones_mod by lia.
  pose proof (Z.mod_pos_bound (u32 v) (2 ^ 16) ltac:(lia)). rewrite sign_extend by lia.
  destruct (Z.ltb_spec (u32 v mod 2 ^ 16) (2 ^ 15)); lia.
Qed.

Definition op_ (v : Z) : Z := Z.land (Z.shiftr v 26) 0x3f.

Definition extra_ (f : Format) (v : Z) : Z :=
  match f with IFMT => immed v | RFMT => shamt_ v | JFMT => Z.land v 0x3ffffff end.

Lemma Decode_row v o f :
  opTable !! Z.to_nat (op_ v) = Some (o, f) →
  Decode (u32 v) = mkInstr
    (match o with
     | SPECIAL => default OP_RES (specialTable !! Z.to_nat (Z.land v 0x3f))
     | BCOND =>
        let i := Z.land (u32 v) 0x1f0000 in
        if i =? 0 then OP_BLTZ
        else if i =? 0x10000 then OP_BGEZ
        else if i =? 0x100000 then OP_BLTZAL
        else if i =? 0x110000 then OP_BGEZAL
        else OP_UNIMP
     | o => o
     end) (rs_ v) (rt_ v) (rd_ v) (extra_ f v).
Proof.
  unfold Decode, op_, rs_, rt_, rd_, extra_, shamt_. intros Ho.
  rewrite immed_extra. change 0x3f with (Z.ones 6) in *. change 0x1f with (Z.ones 5).
  change 0x3ffffff with (Z.ones 26). rewrite !field_u32, !low_u32 by lia. rewrite Ho.
  by destruct o, f.
Qed.

Lemma bcond_field v : Z.land (u32 v) 0x1f0000 = rt_ v * 2 ^ 16.
Proof.
  unfold rt_. rewrite <- Z.shiftl_mul_pow2 by lia. apply Z.bits_inj'. intros i Hi.
  rewrite Z.shiftl_spec, !Z.land_spec by lia. change 0x1f0000 with (Z.shiftl (Z.ones 5) 16).
  change 0x1f with (Z.ones 5). rewrite Z.shiftl_spec by lia. destruct (Z.ltb_spec (i - 16) 0).
  - rewrite (Z.testbit_neg_r (Z.ones 5)) by lia. by rewrite !andb_false_r.
  - rewrite Z.shiftr_spec by lia. replace (i - 16 + 16) with i by lia.
    destruct (Z.ltb_spec (i - 16) 5); [by rewrite testbit_u32 by lia|].
    by rewrite Z.ones_spec_high, !andb_false_r by lia.
Qed.

(** ** The relation between the two machines *)

(** The registers as the program sees them once the pending load is done. *)
Definition eff (m : Machine) (k : Z) : Z :=
  if k =? 0 then 0 else if k =? reg m LoadReg then reg m LoadValueReg else reg m k.

(** Every byte the program can address is the byte of execute.c's array. *)
Definition mem_rel (f : Z → Z) (m : Machine) : Prop := ∀ a p m',
  int32 a → Translate m a 1 false = Ok (Phys p, m') →
  memoffset <= a < memoffset + MEMSIZE ∧ mainMemory m !! Z.to_nat p = Some (f (a - memoffset)).

(** No two addresses are mapped to one byte. *)
Definition unaliased (m : Machine) : Prop := ∀ a b p m1 m2,
  int32 a → int32 b → Translate m a 1 false = Ok (Phys p, m1) →
  Translate m b 1 false = Ok (Phys p, m2) → a = b.

Record sim (c : cpu) (m : Machine) : Prop := {
  sim_len : length (Reg c) = 32%nat;
  sim_regs : ∀ k, 1 <= k < 32 → R c k = eff m k;
  sim_HI : HI c = reg m HiReg;
  sim_LO : LO c = reg m LoReg;
  sim_pc : pc c = reg m PCReg;
  sim_npc : npc c = reg m NextPCReg;
  sim_mem : mem_rel (mem c) m;
  sim_unaliased : unaliased m;
}.

(** ** Memory *)

Lemma Translate_same m1 m2 a s w p m1' :
  same_map m1 m2 → Translate m1 a s w = Ok (Phys p, m1') →
  ∃ m2', Translate m2 a s w = Ok (Phys p, m2').
Proof.
  intros Hs Ht. pose proof (Translate_proper m1 m2 a s w Hs) as Hp. rewrite Ht in Hp.
  apply orel_Ok_l in Hp as ([r m2'] & -> & Hr & _). simpl in Hr. subst r. by exists m2'.
Qed.

Lemma mem_rel_same f m m' :
  same_map m m' → mainMemory m' = mainMemory m → mem_rel f m → mem_rel f m'.
Proof.
  intros Hs Hm Hf a p m1 Ha Ht. rewrite Hm.
  destruct (Translate_same m' m a 1 false p m1) as [m2 H2]; [by symmetry|done|]. by eapply Hf.
Qed.

Lemma unaliased_same m m' : same_map m m' → unaliased m → unaliased m'.
Proof.
  intros Hs Hu a b p m1 m2 Ha Hb H1 H2. symmetry in Hs.
  destruct (Translate_same _ _ _ _ _ _ _ Hs H1) as [n1 E1].
  destruct (Translate_same _ _ _ _ _ _ _ Hs H2) as [n2 E2]. by eapply Hu.
Qed.

Lemma misaligned_mod a s : s = 1 ∨ s = 2 ∨ s = 4 → misaligned a s = false → a mod s = 0.
Proof.
  intros Hs Ha. unfold misaligned in Ha. destruct Hs as [-> | [-> | ->]]; simpl in Ha.
  - apply Z.mod_1_r.
  - apply negb_false_iff, Z.eqb_eq in Ha. change 1 with (Z.ones 1) in Ha.
    by rewrite Z.land_ones in Ha by lia.
  - rewrite orb_false_r in Ha. apply negb_false_iff, Z.eqb_eq in Ha. change 3 with (Z.ones 2) in Ha.
    by rewrite Z.land_ones in Ha by lia.
Qed.

(** The bytes of a word translated at once translate one by one. *)
Lemma Translate_byte m a s w p m' i :
  wf_tr m → s = 1 ∨ s = 2 ∨ s = 4 → int32 a → Translate m a s w = Ok (Phys p, m') →
  0 <= i < s →
  a mod s = 0 ∧ int32 (a + i) ∧ ∃ m1, Translate m (a + i) 1 false = Ok (Phys (p + i), m1).
Proof.
  intros Hwf Hs Ha Ht Hi.
  assert (Hal : misaligned a s = false).
  { unfold Translate in Ht. by destruct (misaligned a s). }
  pose proof (misaligned_mod a s Hs Hal) as Hmod.
  assert (Hai : int32 (a + i)).
  { unfold int32 in *. destruct Hs as [-> | [-> | ->]]; Z.to_euclidean_division_equations; lia. }
  split; [done|]. split; [done|].
  destruct (Translate_spec m a s w Hwf Hs) as (r & m0 & H0 & _ & _ & _ & Hr).
  rewrite Ht in H0. injection H0 as <- <-. destruct Hr as (l & e & Hf & _ & Hpp & -> & _ & Hoff).
  assert (Hu : u32 (a + i) = u32 a + i).
  { unfold u32, int32, PageSize, SectorSize in *. Z.to_euclidean_division_equations. lia. }
  assert (Hd : u32 (a + i) / PageSize = u32 a / PageSize ∧
               u32 (a + i) mod PageSize = u32 a mod PageSize + i).
  { rewrite Hu. unfold PageSize, SectorSize in *. Z.to_euclidean_division_equations. lia. }
  destruct Hd as [Hd Hm].
  destruct (Translate_spec m (a + i) 1 false Hwf ltac:(auto)) as (r & m1 & H1 & _ & _ & _ & Hr).
  rewrite H1. destruct r as [exc|q].
  - exfalso. unfold Translate in H1. cbn [misaligned] in H1.
    assert (Hna : misaligned (a + i) 1 = false) by done. rewrite Hna in H1.
    inv_ok. rewrite Hd, Hf in *. simplify_eq/=. rewrite andb_false_r in *.
    destruct (Z.geb_spec (u32 (physicalPage e)) NumPhysPages); [lia|]. inv_ok. done.
  - destruct Hr as (l' & e' & Hf' & _ & _ & -> & _ & _). rewrite Hd, Hf in Hf'. simplify_eq.
    exists m1. do 3 f_equal. lia.
Qed.

Lemma valid_access_aligned f m a s w p m' :
  wf_tr m → s = 1 ∨ s = 2 ∨ s = 4 → int32 a → mem_rel f m →
  Translate m a s w = Ok (Phys p, m') → valid_access a s = true.
Proof.
  intros Hwf Hs Ha Hf Ht.
  destruct (Translate_byte m a s w p m' 0 Hwf Hs Ha Ht) as (Hmod & H0 & m1 & H1); [lia|].
  destruct (Translate_byte m a s w p m' (s - 1) Hwf Hs Ha Ht) as (_ & H2 & m2 & H3); [lia|].
  apply Hf in H1 as [H1 _]; [|done]. apply Hf in H3 as [H3 _]; [|done].
  unfold valid_access. rewrite Hmod, !andb_true_iff, !Z.leb_le. split; [lia|done].
Qed.

(** A load sees the bytes the simulated machine sees. *)
Lemma mem_load_sim c m a s v m' :
  wf_tr m → wf_mem m → s = 1 ∨ s = 2 ∨ s = 4 → int32 a → mem_rel (mem c) m →
  ReadMem m a s = Ok (inr v, m') →
  ∃ bs, Forall byte bs ∧ length bs = Z.to_nat s ∧
    load_value bs s = Ok v ∧ mem_load c a s = Ok (le_combine bs) ∧
    same_map m m' ∧ registers m' = registers m ∧ mainMemory m' = mainMemory m.
Proof.
  intros Hwf [Hlen Hby] Hs Ha Hf HR.
  destruct (ReadMem_spec m a s Hwf (conj Hlen Hby) Hs) as (r & m0 & H0 & Hsm & Hreg & Hmm & _).
  rewrite HR in H0. injection H0 as <- <-. unfold ReadMem in HR.
  apply bind_Ok_inv in HR as ([tr m1] & Ht & HR). destruct tr as [exc|p]; [by simplify_eq|].
  apply bind_Ok_inv in HR as (bs & Hbs & HR). apply bind_Ok_inv in HR as (v' & Hv & HR).
  simplify_eq. destruct (Translate_fits m a s false p m' Hwf Hs Ht) as [Hp0 Hp1].
  unfold mem_bytes in Hbs. rewrite Hmm in Hbs. destruct (_ && _); [|done]. injection Hbs as <-.
  exists (bytes_at (mainMemory m) p s).
  split; [by apply Forall_take, Forall_drop|].
  assert (Hbl : length (bytes_at (mainMemory m) p s) = Z.to_nat s).
  { apply bytes_at_length; lia. }
  split; [done|]. split; [done|]. split; [|done].
  unfold mem_load. rewrite (valid_access_aligned _ _ _ _ _ _ _ Hwf Hs Ha Hf Ht). do 2 f_equal.
  apply list_eq. intros i. destruct (decide (i < Z.to_nat s)%nat) as [Hi|Hi].
  - rewrite list_lookup_fmap, lookup_seqZ_lt by lia. simpl.
    destruct (Translate_byte m a s false p m' (Z.of_nat i) Hwf Hs Ha Ht) as (_ & Hai & m2 & H2); [lia|].
    apply Hf in H2 as [_ H2]; [|done]. unfold bytes_at. rewrite lookup_take_lt, lookup_drop by lia.
    rewrite Z2Nat.inj_add, Nat2Z.id in H2 by lia. rewrite H2. f_equal. f_equal. lia.
  - rewrite !lookup_ge_None_2; [done|lia|]. rewrite length_fmap, length_seqZ. lia.
Qed.

Lemma store_bytes_split s v : s = 1 ∨ s = 2 ∨ s = 4 →
  store_bytes s v = Ok (le_split (Z.to_nat s) (v mod 2 ^ (8 * s))).
Proof.
  intros [-> | [-> | ->]]; unfold store_bytes, ShortToMachine, ShortToHost, ShortToHost_on,
    WordToMachine, WordToHost, WordToHost_on, HOST_IS_BIG_ENDIAN; cbn [Z.eqb Pos.eqb].
  - change 0xff with (Z.ones 8). by rewrite land_ones_mod.
  - change 0xffff with (Z.ones 16). by rewrite land_ones_mod.
  - done.
Qed.

(** A store changes the bytes the simulated machine changes. *)
Lemma mem_store_sim c m a s v m' :
  wf_tr m → wf_mem m → s = 1 ∨ s = 2 ∨ s = 4 → int32 a → mem_rel (mem c) m → unaliased m →
  WriteMem m a s v = Ok (inr tt, m') →
  ∃ f, mem_store c a s (v mod 2 ^ (8 * s)) = Ok (set_mem c f) ∧ mem_rel f m' ∧
    same_map m m' ∧ registers m' = registers m.
Proof.
  intros Hwf Hmem Hs Ha Hf Hu HW.
  destruct (WriteMem_spec m a s v Hwf Hmem Hs) as (r & m0 & H0 & Hsm & Hreg & Hr).
  rewrite HW in H0. injection H0 as <- <-.
  destruct Hr as (p & bs & m1 & Ht & Hbs & Hl & Hp0 & Hp1 & _ & Hm').
  rewrite store_bytes_split in Hbs by done. injection Hbs as Hbs.
  unfold mem_store. rewrite (valid_access_aligned _ _ _ _ _ _ _ Hwf Hs Ha Hf Ht), Hbs.
  eexists. split; [done|]. split; [|done]. destruct Hmem as [Hlen _].
  intros b q m2 Hb Hq. destruct (Translate_same m' m b 1 false q m2) as [m3 H3]; [by symmetry|done|].
  destruct (Hf b q m3 Hb H3) as [Hrange Hbyte]. split; [done|].
  pose proof (Translate_fits m b 1 false q m3 Hwf ltac:(auto) H3) as [Hq0 Hq1].
  rewrite Hm', lookup_blit by lia. unfold mem_write.
  replace (b - memoffset - (a - memoffset)) with (b - a) by lia.
  case_decide as Hd.
  - destruct (Translate_byte m a s true p m1 (q - p) Hwf Hs Ha Ht) as (_ & Hai & m4 & H4); [lia|].
    replace (p + (q - p)) with q in H4 by lia. pose proof (Hu _ _ _ _ _ Hb Hai H3 H4) as ->.
    destruct (Z.leb_spec (a - memoffset) (a + (q - p) - memoffset)); [|lia].
    replace (Z.to_nat (a + (q - p) - a)) with (Z.to_nat q - Z.to_nat p)%nat by lia.
    destruct (lookup_lt_is_Some_2 bs (Z.to_nat q - Z.to_nat p)) as [x Hx]; [lia|]. by rewrite Hx.
  - rewrite Hbyte. destruct (Z.leb_spec (a - memoffset) (b - memoffset)) as [Hle|]; [|done].
    rewrite lookup_ge_None_2; [done|].
    destruct (Z.ltb_spec (b - a) s) as [Hlt|]; [|lia]. exfalso.
    destruct (Translate_byte m a s true p m1 (b - a) Hwf Hs Ha Ht) as (_ & _ & m4 & H4); [lia|].
    replace (a + (b - a)) with b in H4 by lia. rewrite H3 in H4. injection H4 as Hqp _. lia.
Qed.

(** ** Registers *)

Lemma R_set_R c r v k : length (Reg c) = 32%nat → 0 <= r < 32 → 0 <= k →
  R (set_R c r v) k = if k =? r then v else R c k.
Proof.
  intros Hl Hr Hk. unfold R, set_R; cbn [Reg]. destruct (Z.eqb_spec k r) as [->|Hne].
  - by rewrite list_lookup_insert_eq by lia.
  - by rewrite list_lookup_insert_ne by lia.
Qed.

(** The registers an instruction reads, or writes at once. *)
Definition touches (instr : Instruction) : list Z :=
  match opCode instr with
  | OP_J => []
  | OP_JAL => [R31]
  | OP_BGEZAL | OP_BLTZAL => [rs instr; R31]
  | OP_BGEZ | OP_BLTZ | OP_BGTZ | OP_BLEZ | OP_JR | OP_MTHI | OP_MTLO => [rs instr]
  | OP_LB | OP_LBU | OP_LH | OP_LHU | OP_LW => [rs instr]
  | OP_LUI => [rt instr]
  | OP_MFHI | OP_MFLO => [rd instr]
  | OP_JALR => [rs instr; rd instr]
  | OP_SLL | OP_SRL | OP_SRA => [rt instr; rd instr]
  | OP_BEQ | OP_BNE | OP_DIV | OP_DIVU | OP_MULT | OP_MULTU | OP_SB | OP_SH | OP_SW
  | OP_ADDI | OP_ADDIU | OP_SLTI | OP_SLTIU | OP_ANDI | OP_ORI | OP_XORI => [rs instr; rt instr]
  | _ => [rs instr; rt instr; rd instr]
  end.

(** The instruction after a load does not use the loaded register. *)
Definition slot_free (instr : Instruction) (m : Machine) : bool :=
  (reg m LoadReg =? 0) || forallb (λ r, negb (r =? reg m LoadReg)) (touches instr).

(** The instruction is not itself in the delay slot of a taken branch. *)
Definition sequential (m : Machine) : bool := reg m NextPCReg =? s32 (reg m PCReg + 4).

Definition small (z : Z) : bool := (- 2 ^ 16 <? z) && (z <? 2 ^ 16).

(** When the two interpreters do the same.  Where they differ: mipssim.cc's OR
    ignores rt and its SRL shifts arithmetically; execute.c sign-extends the
    immediates of ANDI, ORI and XORI, does not mask shift counts, does not
    check divisors and loses the carries of a product's high word; a branch in
    a delay slot is relative to different addresses; JALR with rs = rd. *)
Definition operands_agree (instr : Instruction) (m : Machine) : bool :=
  let rs_ := reg m (rs instr) in
  let rt_ := reg m (rt instr) in
  match opCode instr with
  | OP_OR => Z.lor rs_ rt_ =? rs_
  | OP_SRL => (0 <=? rt_) || (extra instr =? 0)
  | OP_SRLV => in_range rs_ 32 && ((0 <=? rt_) || (rs_ =? 0))
  | OP_SLLV | OP_SRAV => in_range rs_ 32
  | OP_ANDI | OP_ORI | OP_XORI => 0 <=? extra instr
  | OP_MULT => small rs_ && small rt_
  | OP_MULTU => in_range rs_ (2 ^ 16) && in_range rt_ (2 ^ 16)
  | OP_DIV | OP_DIVU => negb (rt_ =? 0)
  | OP_JALR => sequential m && negb (rs instr =? rd instr)
  | OP_BEQ | OP_BNE | OP_BLEZ | OP_BGTZ | OP_BLTZ | OP_BGEZ | OP_BLTZAL | OP_BGEZAL => sequential m
  | OP_J | OP_JAL =>
      sequential m &&
      (Z.land (u32 (reg m PCReg)) 0xf0000000 =?
       Z.land (u32 (s32 (reg m NextPCReg + 4))) 0xf0000000)
  | OP_LWL | OP_LWR | OP_SWL | OP_SWR => false
  | _ => true
  end.

Definition agrees (instr : Instruction) (m : Machine) : bool :=
  slot_free instr m && operands_agree instr m.

(** What the switch of execute.c has to leave when that of mipssim.cc leaves
    [m2], the address [pc'] and the pending load [lr], [lv]. *)
Record after (c : cpu) (m m2 : Machine) (pc' lr lv : Z) : Prop := {
  af_len : length (Reg c) = 32%nat;
  af_regs : ∀ k, 1 <= k < 32 →
    R c k = if k =? lr then lv else if k =? reg m LoadReg then reg m LoadValueReg else reg m2 k;
  af_HI : HI c = reg m2 HiReg;
  af_LO : LO c = reg m2 LoReg;
  af_pc : pc c = reg m NextPCReg;
  af_npc : npc c = pc';
  af_mem : mem_rel (mem c) m2;
}.

Definition tracks (m : Machine) (t : outcome turn) (r : outcome exec_result) : Prop :=
  match r with
  | Ok (Break m2 pc' lr lv) => ∃ c, t = Ok (Continue c) ∧ after c m m2 pc' lr lv
  | _ => True
  end.

(** ** Operand values *)

Lemma s32_cong a b k : a = b + k * 2 ^ 32 → s32 a = s32 b.
Proof. intros ->. apply s32_add_mul. Qed.

Lemma srl_value x n : int32 x → 0 <= n < 32 → 0 <= x ∨ n = 0 →
  s32 (Z.shiftr (u32 x) n) = Z.shiftr x n.
Proof.
  intros Hx Hn [H0 | ->].
  - unfold int32 in Hx. rewrite u32_id by lia. apply s32_id, int32_shiftr; [done|lia].
  - rewrite !Z.shiftr_0_r, s32_u32. by apply s32_id.
Qed.

Lemma land_31_id n : 0 <= n < 32 → Z.land n 0x1f = n.
Proof. intros. change 0x1f with (Z.ones 5). rewrite land_ones_mod by lia. by apply Z.mod_small. Qed.

Lemma immed_zero_ext v : 0 <= immed v → Z.land (immed v) 0xffff = immed v.
Proof.
  intros. pose proof (immed_range v). change 0xffff with (Z.ones 16).
  rewrite land_ones_mod by lia. apply Z.mod_small. lia.
Qed.

Lemma immed_mod v : ∃ k, v = immed v + k * 2 ^ 16.
Proof.
  rewrite <- immed_extra. change 0xffff with (Z.ones 16). rewrite low_u32, land_ones_mod by lia.
  pose proof (Z.mod_pos_bound v (2 ^ 16) ltac:(lia)). rewrite sign_extend by lia.
  destruct (Z.ltb_spec (v mod 2 ^ 16) (2 ^ 15)).
  - exists (v / 2 ^ 16). Z.to_euclidean_division_equations; lia.
  - exists (v / 2 ^ 16 + 1). Z.to_euclidean_division_equations; lia.
Qed.

Lemma lui_value v : s32 (Z.shiftl v 16) = s32 (Z.shiftl (immed v) 16).
Proof.
  destruct (immed_mod v) as [k Hk]. rewrite !Z.shiftl_mul_pow2 by lia.
  apply (s32_cong _ _ k). lia.
Qed.

Lemma target_value v :
  u32 (IndexToAddr (Z.land v 0x3ffffff)) = Z.shiftl (Z.land v 0x3ffffff) 2.
Proof.
  unfold IndexToAddr. rewrite u32_s32. apply u32_id. change 0x3ffffff with (Z.ones 26).
  rewrite land_ones_mod, Z.shiftl_mul_pow2 by lia.
  pose proof (Z.mod_pos_bound v (2 ^ 26) ltac:(lia)). lia.
Qed.

Lemma branch_value a x : s32 (a + 4 + Z.shiftl x 2) = s32 (s32 (a + 4) + IndexToAddr x).
Proof.
  unfold IndexToAddr. destruct (s32_eqm (a + 4)) as [k ->]. destruct (s32_eqm (Z.shiftl x 2)) as [j ->].
  apply (s32_cong _ _ (- k - j)). lia.
Qed.

Lemma link_value a : s32 (a + 8) = s32 (s32 (a + 4) + 4).
Proof. destruct (s32_eqm (a + 4)) as [k ->]. apply (s32_cong _ _ (- k)). lia. Qed.

Lemma sign_value x : int32 x → (Z.land x SIGN_BIT =? 0) = negb (x <? 0).
Proof. intros. change SIGN_BIT with (2 ^ 31). rewrite land_pow2_eqb by lia. by rewrite testbit_31_neg. Qed.

Lemma mult_HI_small a b : 0 <= a < 2 ^ 16 → 0 <= b < 2 ^ 16 → mult_HI a b = 0.
Proof.
  intros Ha Hb. unfold mult_HI. rewrite !(Z.shiftr_div_pow2 a), !(Z.shiftr_div_pow2 b) by lia.
  by rewrite !(Z.div_small _ (2 ^ 16)), !Z.land_0_l, !Z.mul_0_l by lia.
Qed.

Lemma int32_word_inj a b : int32 a → int32 b → u32 a = u32 b → a = b.
Proof. intros Ha Hb H. rewrite <- (s32_id a), <- (s32_id b), <- (s32_u32 a), H, s32_u32 by done. done. Qed.

(** Two words of a product are determined by it. *)
Lemma dw_words h l h' l' : int32 h → int32 h' → int32 l → int32 l' →
  dw h (u32 l) = dw h' (u32 l') → h = h' ∧ l = l'.
Proof.
  intros Hh Hh' Hl Hl' H. destruct (dw_inj h (u32 l) h' (u32 l') (u32_range l) (u32_range l') H) as [-> Hw].
  split; [done|]. by apply int32_word_inj.
Qed.

Lemma MULTU_value a b : 0 <= a < 2 ^ 16 → 0 <= b < 2 ^ 16 →
  Mult a b false = (mult_HI a b, s32 (a * b)).
Proof.
  intros Ha Hb. destruct (Mult_product a b) as [_ H]; [unfold int32; lia..|].
  destruct (Mult a b false) as [h l]. destruct H as (Hh & Hl & H).
  rewrite mult_HI_small by done. rewrite !(u32_id a), !(u32_id b) in H by lia.
  assert (u32 h = 0 ∧ u32 l = u32 (s32 (a * b))) as [Eh El].
  { rewrite u32_s32, (u32_id (a * b)) by nia. pose proof (u32_range l). pose proof (u32_range h).
    unfold dw in H. assert (0 <= a * b < 2 ^ 32) by nia. lia. }
  f_equal; apply int32_word_inj; try done; apply s32_range.
Qed.

(** The signed product of operands of 16 bits and a sign. *)
Definition MULT_words (t1 t2 : Z) : Z * Z :=
  let c := MULT (mkCpu [] 0 0 (λ _, 0) 0 0 0) t1 t2 in (HI c, LO c).

Lemma MULT_set c t1 t2 : MULT c t1 t2 = set_HI_LO c (MULT_words t1 t2).1 (MULT_words t1 t2).2.
Proof.
  unfold MULT_words, MULT. destruct (t1 <? 0), (t2 <? 0); cbn [negb]; try done;
    by destruct (_ =? 0).
Qed.

Lemma MULT_value a b : - 2 ^ 16 < a < 2 ^ 16 → - 2 ^ 16 < b < 2 ^ 16 →
  Mult a b true = MULT_words a b.
Proof.
  intros Ha Hb. destruct (Mult_product a b) as [H _]; [unfold int32; lia..|].
  destruct (Mult a b true) as [h l]. destruct H as (Hh & Hl & H).
  assert (Hneg : ∀ p, 0 <= p < 2 ^ 32 →
    let l' := s32 (Z.lnot (s32 p) + 1) in
    let h' := if l' =? 0 then s32 (Z.lnot 0 + 1) else Z.lnot 0 in
    int32 h' ∧ int32 l' ∧ dw h' (u32 l') = - p).
  { intros p Hp l' h'. assert (El : l' = s32 (- p)).
    { unfold l', Z.lnot. destruct (s32_eqm p) as [k ->]. apply (s32_cong _ _ (- k)). lia. }
    split; [|split]; [unfold h', int32; destruct (_ =? 0); vm_compute; split; congruence|apply s32_range|].
    unfold h'. rewrite El. change (s32 (Z.lnot 0 + 1)) with 0. change (Z.lnot 0) with (-1).
    rewrite u32_s32. unfold dw, u32, s32. destruct (Z.eqb_spec ((- p + 2 ^ 31) mod 2 ^ 32 - 2 ^ 31) 0);
      Z.to_euclidean_division_equations; lia. }
  assert (Hpos : ∀ p, 0 <= p < 2 ^ 32 → int32 0 ∧ int32 (s32 p) ∧ dw 0 (u32 (s32 p)) = p).
  { intros p Hp. split; [by apply int32_small|]. split; [apply s32_range|].
    rewrite u32_s32, u32_id by done. unfold dw. lia. }
  assert (Hw : let '(h', l') := MULT_words a b in int32 h' ∧ int32 l' ∧ dw h' (u32 l') = a * b).
  { unfold MULT_words, MULT. destruct (Z.ltb_spec a 0), (Z.ltb_spec b 0); cbn [negb].
    all: rewrite ?(s32_id (- a)), ?(s32_id (- b)) by (unfold int32; lia).
    all: rewrite mult_HI_small by lia; cbn [set_HI_LO HI LO].
    - replace (a * b) with (- a * - b) by lia. apply Hpos. nia.
    - replace (a * b) with (- (- a * b)) by lia. apply Hneg. nia.
    - replace (a * b) with (- (a * - b)) by lia. apply Hneg. nia.
    - apply Hpos. nia. }
  destruct (MULT_words a b) as [h' l']. destruct Hw as (Hh' & Hl' & Hw).
  destruct (dw_words h l h' l') as [-> ->]; try done. congruence.
Qed.

(** ** One instruction, by shape *)

Section Track.
Context (c : cpu) (m : Machine) (v : Z).
Context (Hm : wf_machine m) (Hlen : length (Reg c) = 32%nat).
Context (Hregs : ∀ k, 0 <= k < 32 → R c k = eff m k).
Context (HHI : HI c = reg m HiReg) (HLO : LO c = reg m LoReg).
Context (Hpc : pc c = reg m NextPCReg) (Hnpc : npc c = s32 (reg m NextPCReg + 4)).
Context (Hmem : mem_rel (mem c) m) (Hun : unaliased m).

Let xpc := reg m PCReg.
Let pcAfter := s32 (reg m NextPCReg + 4).

(** The register is not the one the pending load writes. *)
Definition free (r : Z) : Prop := reg m LoadReg = 0 ∨ r ≠ reg m LoadReg.

Lemma slot_free_touches instr r : slot_free instr m = true → r ∈ touches instr → free r.
Proof.
  unfold slot_free, free. intros [H0%Z.eqb_eq | H1]%orb_true_iff Hr; [by left|right].
  rewrite forallb_forall in H1. apply list_elem_of_In, H1 in Hr.
  by apply negb_true_iff, Z.eqb_neq in Hr.
Qed.

Lemma R_free r : 0 <= r < 32 → free r → R c r = reg m r.
Proof.
  intros Hr Hf. rewrite Hregs by done. unfold eff.
  destruct (Z.eqb_spec r 0) as [->|]; [by rewrite (wr_zero _ (wm_regs _ Hm))|].
  destruct (Z.eqb_spec r (reg m LoadReg)); [|done]. destruct Hf; lia.
Qed.

Lemma regs_length : Z.of_nat (length (registers m)) = 40.
Proof. by rewrite (wr_length _ (wm_regs _ Hm)). Qed.

(** Registers, HI, LO and the next pc change; memory does not. *)
Lemma after_set h l r w pc' : 0 <= r < 32 → free r →
  after (set_R (set_npc (set_HI_LO c h l) pc') r w) m
    (set_reg (set_reg (set_reg m HiReg h) LoReg l) r w) pc' 0 0.
Proof.
  intros Hr Hf. pose proof regs_length. unfold HiReg, LoReg in *. split; try done.
  - cbn [Reg set_R set_npc set_HI_LO]. by rewrite length_insert.
  - intros k Hk. rewrite R_set_R by (done || lia).
    do 3 rewrite reg_set_reg by (rewrite ?length_set_reg; lia).
    change (R (set_npc (set_HI_LO c h l) pc') k) with (R c k). rewrite Hregs by lia.
    unfold eff, free in *. case_Z; try lia; try done.
  - unfold HiReg, LoReg in *. do 3 rewrite reg_set_reg by (rewrite ?length_set_reg; lia). case_Z; try lia; done.
  - unfold HiReg, LoReg in *. do 3 rewrite reg_set_reg by (rewrite ?length_set_reg; lia). case_Z; try lia; done.
  - apply (mem_rel_same _ m); [by split|done|done].
Qed.

Lemma set_reg_same k : set_reg m k (reg m k) = m.
Proof.
  unfold set_reg, reg, set_registers. destruct (registers m !! Z.to_nat k) as [x|] eqn:E.
  - simpl. rewrite list_insert_id by done. by destruct m.
  - rewrite list_insert_ge; [by destruct m|]. by apply lookup_ge_None.
Qed.

Lemma keep_HI_LO : set_HI_LO c (reg m HiReg) (reg m LoReg) = c.
Proof. unfold set_HI_LO. rewrite <- HHI, <- HLO. by destruct c. Qed.

Lemma after_reg r w pc' : 0 <= r < 32 → free r →
  after (set_R (set_npc c pc') r w) m (set_reg m r w) pc' 0 0.
Proof.
  intros Hr Hf. pose proof (after_set (reg m HiReg) (reg m LoReg) r w pc' Hr Hf) as Ha.
  by rewrite keep_HI_LO, !set_reg_same in Ha.
Qed.

Lemma after_HI_LO h l :
  after (set_HI_LO c h l) m (set_reg (set_reg m HiReg h) LoReg l) pcAfter 0 0.
Proof.
  pose proof regs_length. unfold HiReg, LoReg in *. split; try done.
  - intros k Hk. do 2 rewrite reg_set_reg by (rewrite ?length_set_reg; lia).
    change (R (set_HI_LO c h l) k) with (R c k). rewrite Hregs by lia.
    unfold eff. case_Z; try lia; done.
  - unfold HiReg, LoReg in *. do 2 rewrite reg_set_reg by (rewrite ?length_set_reg; lia). case_Z; try lia; done.
  - unfold HiReg, LoReg in *. do 2 rewrite reg_set_reg by (rewrite ?length_set_reg; lia). case_Z; try lia; done.
  - apply (mem_rel_same _ m); [by split|done|done].
Qed.

Lemma after_npc pc' : after (set_npc c pc') m m pc' 0 0.
Proof.
  split; try done. intros k Hk. change (R (set_npc c pc') k) with (R c k). rewrite Hregs by lia.
  unfold eff. case_Z; try lia; done.
Qed.

Lemma npc_same : set_npc c pcAfter = c.
Proof. unfold set_npc, pcAfter. rewrite <- Hnpc. by destruct c. Qed.

(** The shapes of the switch. *)
Lemma track_set r w w' : 0 <= r < 32 → free r → w = w' →
  tracks m (set_ c r w) (assign pcAfter m r w').
Proof.
  intros Hr Hf <-. eexists. split; [done|]. pose proof (after_reg r w pcAfter Hr Hf) as Ha.
  by rewrite npc_same in Ha.
Qed.

Lemma track_jump pc' pc'' : pc' = pc'' →
  tracks m (Ok (Continue (set_npc c pc'))) (jump_ m pc'').
Proof. intros <-. eexists. split; [done|]. apply after_npc. Qed.

Lemma track_link r w pc' w' pc'' : 0 <= r < 32 → free r → w = w' → pc' = pc'' →
  tracks m (Ok (Continue (set_R (set_npc c pc') r w))) (jump_ (set_reg m r w') pc'').
Proof. intros Hr Hf <- <-. eexists. split; [done|]. by apply after_reg. Qed.

Lemma track_nop : tracks m (Ok (Continue c)) (break_ pcAfter m).
Proof. eexists. split; [done|]. pose proof (after_npc pcAfter) as Ha. by rewrite npc_same in Ha. Qed.

Lemma track_HI_LO h l h' l' : h = h' → l = l' →
  tracks m (Ok (Continue (set_HI_LO c h l))) (break_ pcAfter (set_reg (set_reg m HiReg h') LoReg l')).
Proof. intros <- <-. eexists. split; [done|]. apply after_HI_LO. Qed.

Lemma set_HI_LO_comm h l :
  set_reg (set_reg m LoReg l) HiReg h = set_reg (set_reg m HiReg h) LoReg l.
Proof.
  unfold set_reg, set_registers; cbn [registers mainMemory tlb pageTable pageTableSize ptables singleStep].
  f_equal. apply list_insert_insert_ne. done.
Qed.

Lemma track_load a s (o : outcome Z) (conv : Z → Z) instr k :
  rt instr = rt_ v → s = 1 ∨ s = 2 ∨ s = 4 → int32 a →
  o = (w ← mem_load c a s; Ok (conv w)) →
  (∀ bs w m', Forall byte bs → length bs = Z.to_nat s → load_value bs s = Ok w →
     k w m' = loading instr pcAfter m' (conv (le_combine bs))) →
  tracks m (load_ o c (rt_ v)) (reading m a s k).
Proof.
  intros Hrt Hs Ha -> Hk. unfold reading.
  destruct (ReadMem_spec m a s (wm_tr _ Hm) (wm_mem _ Hm) Hs) as (r & m' & HR & _).
  rewrite HR; cbn [mbind outcome_bind]. destruct r as [[e b]|w]; [done|].
  destruct (mem_load_sim c m a s w m' (wm_tr _ Hm) (wm_mem _ Hm) Hs Ha Hmem HR)
    as (bs & Hb & Hl & Hlv & -> & Hsm & Hreg & Hmm).
  rewrite (Hk bs w m' Hb Hl Hlv). unfold loading, load_, set_. cbn [mbind outcome_bind tracks].
  eexists. split; [done|]. pose proof (land_31_range (Z.shiftr v 16)) as Hr. fold (rt_ v) in Hr.
  unfold reg. rewrite Hrt. split; try done; try (unfold reg; rewrite Hreg; done).
  - cbn [Reg set_R]. by rewrite length_insert.
  - intros j Hj. unfold reg. rewrite Hreg, R_set_R, Hregs by (done || lia).
    unfold eff, reg. destruct (Z.eqb_spec j 0); [lia|done].
  - by eapply mem_rel_same.
Qed.

Lemma track_store a s w w' : s = 1 ∨ s = 2 ∨ s = 4 → int32 a → w = w' →
  tracks m (stored (mem_store c a s (w mod 2 ^ (8 * s)))) (writing pcAfter m a s w').
Proof.
  intros Hs Ha <-. unfold writing.
  destruct (WriteMem_spec m a s w (wm_tr _ Hm) (wm_mem _ Hm) Hs) as (r & m' & HW & _).
  rewrite HW; cbn [mbind outcome_bind]. destruct r as [[e b]|[]]; [done|].
  destruct (mem_store_sim c m a s w m' (wm_tr _ Hm) (wm_mem _ Hm) Hs Ha Hmem Hun HW)
    as (f & -> & Hf & Hsm & Hreg).
  eexists. split; [done|]. unfold reg. split; try done; try (unfold reg; rewrite Hreg; done).
  - intros k Hk. change (R (set_mem c f) k) with (R c k). unfold reg. rewrite Hregs, Hreg by lia.
    unfold eff, reg. case_Z; try lia; done.
Qed.

(** ** The cases of the two switches *)

Lemma op_cases (P : Z → Prop) n : Forall P (seqZ 0 64) → 0 <= n < 64 → P n.
Proof. intros HP Hn. eapply Forall_forall in HP; [done|]. by apply elem_of_seqZ. Qed.

Ltac unfold_ops := let l := eval vm_compute in (seqZ 0 64) in change (seqZ 0 64) with l.

Ltac in_list := first [apply list_elem_of_here | apply list_elem_of_further; in_list].

Lemma land_63_range z : 0 <= Z.land z 0x3f < 64.
Proof. change 0x3f with (Z.ones 6). rewrite land_ones_mod by lia. by apply Z.mod_pos_bound. Qed.

Definition agreed (instr : Instruction) : Prop := agrees instr m = true.

Lemma agreed_free instr r : agreed instr → r ∈ touches instr → free r.
Proof. unfold agreed, agrees. intros [H _]%andb_true_iff. by apply slot_free_touches. Qed.

Lemma agreed_operands instr : agreed instr → operands_agree instr m = true.
Proof. unfold agreed, agrees. by intros [_ H]%andb_true_iff. Qed.

Lemma R_touched instr r : agreed instr → r ∈ touches instr → 0 <= r < 32 → R c r = reg m r.
Proof. intros Ha Hr Hb. apply R_free; [done|]. by eapply agreed_free. Qed.

Lemma rs_range : 0 <= rs_ v < 32.
Proof. apply land_31_range. Qed.
Lemma rt_range : 0 <= rt_ v < 32.
Proof. apply land_31_range. Qed.
Lemma rd_range : 0 <= rd_ v < 32.
Proof. apply land_31_range. Qed.
Lemma shamt_range : 0 <= shamt_ v < 32.
Proof. apply land_31_range. Qed.

Lemma set_reg_LO h : set_reg (set_reg m HiReg h) LoReg (reg m LoReg) = set_reg m HiReg h.
Proof.
  rewrite <- set_HI_LO_comm. by rewrite (set_reg_same LoReg).
Qed.

Notation SP o := (mkInstr o (rs_ v) (rt_ v) (rd_ v) (shamt_ v)).

Lemma reg_int k : int32 (reg m k).
Proof. by apply reg_ok. Qed.

Lemma shift_count_in n : in_range n 32 = true → shift_count n = Ok n ∧ Z.land n 0x1f = n ∧ 0 <= n < 32.
Proof.
  intros Hn. unfold shift_count. rewrite Hn. apply in_range_true in Hn. split; [done|].
  by rewrite land_31_id.
Qed.

Lemma sequential_eq : sequential m = true → reg m NextPCReg = s32 (xpc + 4).
Proof. by intros ?%Z.eqb_eq. Qed.

Lemma special_tracks o n :
  specialTable !! Z.to_nat n = Some o → Z.land v 0x3f = n → 0 <= n < 64 →
  agreed (SP o) →
  tracks m (special c v xpc) (exec_ADD_BNE (SP o) pcAfter m).
Proof.
  intros Ho Hn Hrange Ha. unfold special. rewrite Hn. clear Hn.
  pose proof rs_range as Hrs. pose proof rt_range as Hrt. pose proof rd_range as Hrd.
  pose proof (R_touched (SP o) (rs_ v) Ha) as Es. pose proof (R_touched (SP o) (rt_ v) Ha) as Et.
  pose proof (agreed_free (SP o) (rd_ v) Ha) as Fd. pose proof (agreed_operands _ Ha) as Hop. clear Ha.
  revert Ho. pattern n. refine (op_cases _ n _ Hrange). clear n Hrange. unfold_ops.
  repeat (apply Forall_cons; split; [cbn; intros [= <-]|]); [..|constructor].
  all: try exact I.
  all: cbn [touches opCode rs rt rd operands_agree extra] in Es, Et, Fd, Hop.
  all: try rewrite Es by (in_list || done); try rewrite Et by (in_list || done).
  all: try (assert (free (rd_ v)) by (apply Fd; in_list)).
  all: cbn [exec_ADD_BNE exec_DIV_JR exec_LB_LWR exec_MFHI_SRLV exec_SUB_SWR exec_rest opCode rs rt rd extra].
  all: try (apply track_set; done).
  - (* SRL *) apply track_set; [done..|]. apply srl_value; [apply reg_int|apply shamt_range|].
    apply orb_true_iff in Hop as [H0%Z.leb_le | H0%Z.eqb_eq]; [by left|by right].
  - (* SLLV *) destruct (shift_count_in _ Hop) as (-> & -> & _). by apply track_set.
  - (* SRLV *) apply andb_true_iff in Hop as [Hn Hop].
    destruct (shift_count_in _ Hn) as (-> & -> & Hn'). apply track_set; [done..|].
    apply srl_value; [apply reg_int|done|].
    apply orb_true_iff in Hop as [H0%Z.leb_le | H0%Z.eqb_eq]; [by left|by right].
  - (* SRAV *) destruct (shift_count_in _ Hop) as (-> & -> & _). by apply track_set.
  - (* JR *) by apply track_jump.
  - (* JALR *) apply andb_true_iff in Hop as [Hq%sequential_eq Hne%negb_true_iff%Z.eqb_neq].
    rewrite reg_set_reg by (rewrite ?regs_length; lia).
    destruct (Z.eqb_spec (rs_ v) (rd_ v)); [done|].
    apply track_link; [done..| |done]. rewrite Hq. apply link_value.
  - (* MTHI *) unfold assign. rewrite <- (set_reg_LO (reg m (rs_ v))). by apply track_HI_LO.
  - (* MTLO *) unfold assign.
    pose proof (track_HI_LO (HI c) (reg m (rs_ v)) (reg m HiReg) _ HHI eq_refl) as Ht.
    by rewrite set_reg_same in Ht.
  - (* MULT *) apply andb_true_iff in Hop as [H1 H2]. unfold small in H1, H2.
    apply andb_true_iff in H1 as [H1%Z.ltb_lt H1'%Z.ltb_lt].
    apply andb_true_iff in H2 as [H2%Z.ltb_lt H2'%Z.ltb_lt].
    rewrite MULT_set, MULT_value by done. destruct (MULT_words _ _) as [h l]. by apply track_HI_LO.
  - (* MULTU *) apply andb_true_iff in Hop as [H1%in_range_true H2%in_range_true].
    rewrite MULTU_value by done. by apply track_HI_LO.
  - (* DIV *) apply negb_true_iff in Hop. rewrite Hop. cbn [orb]. destruct (_ && _); [done|].
    rewrite set_HI_LO_comm. by apply track_HI_LO.
  - (* DIVU *) destruct (Z.eqb_spec (u32 (reg m (rt_ v))) 0) as [H0|].
    + exfalso. apply negb_true_iff, Z.eqb_neq in Hop. apply Hop.
      apply int32_word_inj; [apply reg_int|by apply int32_small|done].
    + rewrite set_HI_LO_comm. by apply track_HI_LO.
  - (* ADD *) destruct (_ && _); [done|]. by apply track_set.
  - (* SUB *) destruct (_ && _); [done|]. by apply track_set.
  - (* OR *) apply Z.eqb_eq in Hop. apply track_set; [done..|]. by rewrite Hop, Z.lor_diag.
Qed.

(** if (taken) npc = ...: a branch, and a branch that links. *)
Lemma track_branch (b b' : bool) : reg m NextPCReg = s32 (xpc + 4) → b = b' →
  tracks m (branch c v xpc b)
    (if b' then jump_ m (s32 (reg m NextPCReg + IndexToAddr (immed v))) else break_ pcAfter m).
Proof.
  intros Hq <-. unfold branch. destruct b; [|apply track_nop].
  apply track_jump. rewrite Hq. apply branch_value.
Qed.

Lemma track_branch_link (b b' : bool) : reg m NextPCReg = s32 (xpc + 4) → free R31 → b = b' →
  let m' := set_reg m R31 (s32 (reg m NextPCReg + 4)) in
  tracks m (branch (set_R c 31 (s32 (xpc + 8))) v xpc b)
    (if b' then jump_ m' (s32 (reg m' NextPCReg + IndexToAddr (immed v))) else break_ pcAfter m').
Proof.
  intros Hq Hf <- m'. unfold branch.
  assert (Hk : reg m' NextPCReg = reg m NextPCReg).
  { unfold m'. rewrite reg_set_reg by (rewrite ?regs_length; unfold R31, NextPCReg; lia). done. }
  assert (Hl : s32 (xpc + 8) = s32 (reg m NextPCReg + 4)) by (rewrite Hq; apply link_value).
  destruct b.
  - rewrite Hk. apply (track_link 31); [lia|done|done|]. rewrite Hq. apply branch_value.
  - rewrite <- npc_same at 1. by apply (track_link 31).
Qed.

Lemma R_link instr w : agreed instr → rs_ v ∈ touches instr →
  R (set_R c 31 w) (rs_ v) = reg (set_reg m R31 w) (rs_ v).
Proof.
  intros Ha Hin. pose proof rs_range as Hrs. rewrite R_set_R by (done || lia).
  rewrite reg_set_reg by (rewrite ?regs_length; unfold R31; lia).
  rewrite (R_touched instr) by done. done.
Qed.

Notation IP o f := (mkInstr o (rs_ v) (rt_ v) (rd_ v) (extra_ f v)).

Lemma reg_link_int k r w : int32 (reg (set_reg m r (s32 w)) k).
Proof. apply reg_int32, set_reg_int32; [by apply Forall_regs|apply s32_range]. Qed.

Ltac bcond_start n Ha Hq :=
  replace (rt_ v) with n in * by lia; intros Ha;
  pose proof (sequential_eq (agreed_operands _ Ha)) as Hq;
  cbn [exec_ADD_BNE opCode rs rt rd extra].

Lemma bcond_tracks :
  op_ v = 1 → agreed (Decode (u32 v)) →
  tracks m (bcond c v xpc) (exec_ADD_BNE (Decode (u32 v)) pcAfter m).
Proof.
  intros Ho. rewrite (Decode_row v BCOND IFMT) by (by rewrite Ho). cbv zeta.
  rewrite bcond_field. pose proof rt_range as Hrt. pose proof rs_range as Hrs.
  unfold bcond. change (2 ^ 16) with 65536. cbn [extra_].
  assert (Hlink : reg m NextPCReg = s32 (xpc + 4) → s32 (xpc + 8) = s32 (reg m NextPCReg + 4)).
  { intros ->. apply link_value. }
  destruct (Z.eqb_spec (rt_ v * 65536) 0) as [E|].
  { bcond_start 0 Ha Hq. apply track_branch; [done|].
    rewrite (R_touched _ _ Ha) by (in_list || done). rewrite sign_value by apply reg_int.
    by rewrite negb_involutive. }
  destruct (Z.eqb_spec (rt_ v * 65536) 0x10000) as [E|].
  { bcond_start 1 Ha Hq. apply track_branch; [done|].
    rewrite (R_touched _ _ Ha) by (in_list || done). rewrite sign_value by apply reg_int.
    by rewrite Z.geb_leb, Z.leb_antisym. }
  destruct (Z.eqb_spec (rt_ v * 65536) 0x100000) as [E|].
  { bcond_start 16 Ha Hq.
    apply track_branch_link; [done|by eapply (agreed_free _ _ Ha); in_list|].
    rewrite (R_link _ _ Ha) by in_list. rewrite Hlink by done. rewrite sign_value by apply reg_link_int.
    by rewrite negb_involutive. }
  destruct (Z.eqb_spec (rt_ v * 65536) 0x110000) as [E|].
  { bcond_start 17 Ha Hq.
    apply track_branch_link; [done|by eapply (agreed_free _ _ Ha); in_list|].
    rewrite (R_link _ _ Ha) by in_list. rewrite Hlink by done. rewrite sign_value by apply reg_link_int.
    by rewrite Z.geb_leb, Z.leb_antisym. }
  done.
Qed.

(** The conversions of the loads. *)
Lemma byte_value bs : Forall byte bs → length bs = 1%nat →
  let x := le_combine bs in
  (if negb (Z.land (schar x) 0x80 =? 0) then s32 (Z.lor (schar x) 0xffffff00)
   else Z.land (schar x) 0xff) = schar x ∧ Z.land (schar x) 0xff = x.
Proof.
  intros Hb Hl. pose proof (le_combine_range bs Hb) as Hc. rewrite Hl in Hc. cbv zeta.
  generalize dependent (le_combine bs). intros x Hx.
  assert (HF : Forall (λ x, (if negb (Z.land (schar x) 0x80 =? 0)
    then s32 (Z.lor (schar x) 0xffffff00) else Z.land (schar x) 0xff) = schar x ∧
    Z.land (schar x) 0xff = x) (seqZ 0 256)).
  { apply (bool_decide_unpack _). by vm_compute. }
  eapply Forall_forall in HF; [exact HF|]. by apply elem_of_seqZ.
Qed.

Lemma half_value bs : Forall byte bs → length bs = 2%nat →
  let x := le_combine bs in
  (if negb (Z.land x 0x8000 =? 0) then s32 (Z.lor x 0xffff0000) else Z.land x 0xffff) = s16 x ∧
  Z.land x 0xffff = x.
Proof.
  intros Hb Hl. pose proof (le_combine_range bs Hb) as Hc. rewrite Hl in Hc. cbv zeta.
  change (2 ^ (8 * Z.of_nat 2)) with (2 ^ 16) in Hc. generalize dependent (le_combine bs). intros x Hx.
  assert (Hx' : Z.land x 0xffff = x).
  { change 0xffff with (Z.ones 16). rewrite land_ones_mod by lia. by apply Z.mod_small. }
  split; [|done]. rewrite Hx', sign_extend by done. unfold s16.
  destruct (Z.ltb_spec x (2 ^ 15)); Z.to_euclidean_division_equations; lia.
Qed.

Lemma load_value_1 bs : load_value bs 1 = Ok (schar (le_combine bs)).
Proof. done. Qed.
Lemma load_value_2 bs : load_value bs 2 = Ok (le_combine bs).
Proof. done. Qed.
Lemma load_value_4 bs : load_value bs 4 = Ok (s32 (le_combine bs)).
Proof. done. Qed.

Lemma ucfetch_id a : ucfetch c a = (w ← mem_load c a 1; Ok w).
Proof. unfold ucfetch. by destruct (mem_load c a 1). Qed.
Lemma usfetch_id a : usfetch c a = (w ← mem_load c a 2; Ok w).
Proof. unfold usfetch. by destruct (mem_load c a 2). Qed.

Ltac load_case s conv bs Hb Hl :=
  lazymatch goal with Ha : agreed ?i |- _ => eapply (track_load _ s _ conv i) end;
  [done|auto|apply s32_range|done|];
  let w := fresh "w" in let m' := fresh "m'" in let Hw := fresh "Hw" in
  intros bs w m' Hb Hl Hw; first [rewrite load_value_1 in Hw | rewrite load_value_2 in Hw |
    rewrite load_value_4 in Hw]; injection Hw as <-.

Lemma switch_tracks :
  agreed (Decode (u32 v)) →
  tracks m (switch c v xpc) (exec_ADD_BNE (Decode (u32 v)) pcAfter m).
Proof.
  intros Ha. unfold switch. fold (op_ v). pose proof (land_63_range (Z.shiftr v 26)) as Hr.
  fold (op_ v) in Hr.
  destruct (Z.eqb_spec (op_ v) 0) as [E0|H0].
  { rewrite E0. pose proof (land_63_range v) as Hf. rewrite (Decode_row v SPECIAL RFMT) in * by (by rewrite E0).
    destruct (lookup_lt_is_Some_2 specialTable (Z.to_nat (Z.land v 0x3f))) as [o Ho]; [simpl; lia|].
    rewrite Ho in *. by eapply special_tracks. }
  destruct (Z.eqb_spec (op_ v) 1) as [E1|H1].
  { rewrite E1. by apply bcond_tracks. }
  destruct (lookup_lt_is_Some_2 opTable (Z.to_nat (op_ v))) as [[o f] Ho]; [simpl; lia|].
  rewrite (Decode_row v o f Ho) in *. pose proof rs_range as Hrs. pose proof rt_range as Hrt.
  revert H0 H1 Ho Ha. generalize (op_ v) Hr. intros n Hn. pattern n. refine (op_cases _ n _ Hn).
  clear n Hn Hr. unfold_ops.
  repeat (apply Forall_cons; split; [cbn; intros H0 H1 [= <- <-] Ha|]); [..|constructor].
  all: try done.
  all: try exact I.
  all: pose proof (agreed_operands _ Ha) as Hop.
  all: cbn [operands_agree opCode rs rt rd extra extra_] in Hop.
  all: try rewrite (R_touched _ (rs_ v) Ha) by (in_list || done);
       try rewrite (R_touched _ (rt_ v) Ha) by (in_list || done).
  all: try (assert (free (rt_ v)) by (apply (agreed_free _ _ Ha); in_list)).
  all: cbn [exec_ADD_BNE exec_DIV_JR exec_LB_LWR exec_MFHI_SRLV exec_SUB_SWR exec_rest opCode rs rt rd extra extra_].
  all: try discriminate Hop.
  all: try (apply track_set; done).
  all: try (apply track_branch; [by apply sequential_eq|done]).
  all: try (apply track_store; [auto|apply s32_range|done]).
  1-2: apply andb_true_iff in Hop as [Hq%sequential_eq Hregion%Z.eqb_eq].
  - (* J *) apply track_jump. fold pcAfter xpc in Hregion. by rewrite target_value, Hregion.
  - (* JAL *) fold pcAfter xpc in Hregion. rewrite target_value, <- Hregion.
    apply (track_link 31); [lia|by apply (agreed_free _ _ Ha); in_list| |done].
    rewrite Hq. apply link_value.
  - (* ADDI *) destruct (_ && _); [done|]. by apply track_set.
  - (* ANDI *) apply Z.leb_le in Hop. apply track_set; [done..|]. by rewrite immed_zero_ext.
  - (* ORI *) apply Z.leb_le in Hop. apply track_set; [done..|]. by rewrite immed_zero_ext.
  - (* XORI *) apply Z.leb_le in Hop. apply track_set; [done..|]. by rewrite immed_zero_ext.
  - (* LUI *) apply track_set; [done..|]. apply lui_value.
  - (* LB *) load_case 1 schar bs Hb Hl. destruct (byte_value bs Hb Hl) as [E _]. revert E.
    rewrite andb_true_r. destruct (negb _); by intros ->.
  - (* LH *) destruct (negb _); [done|]. load_case 2 s16 bs Hb Hl.
    destruct (half_value bs Hb Hl) as [E _]. revert E. rewrite andb_true_r. destruct (negb _); by intros ->.
  - (* LW *) destruct (negb _); [done|]. by load_case 4 s32 bs Hb Hl.
  - (* LBU *) rewrite ucfetch_id. load_case 1 (λ x : Z, x) bs Hb Hl.
    destruct (byte_value bs Hb Hl) as [_ E]. by rewrite andb_false_r, E.
  - (* LHU *) rewrite usfetch_id. destruct (negb _); [done|]. load_case 2 (λ x : Z, x) bs Hb Hl.
    destruct (half_value bs Hb Hl) as [_ E]. by rewrite andb_false_r, E.
Qed.
End Track.

(** ** One instruction *)

(** The end of OneInstruction: the pending load, then the program counters. *)
Lemma finish_sim c m m2 pc' lr lv m3 :
  wf_machine m → exec_ok m (Break m2 pc' lr lv) → after c m m2 pc' lr lv → unaliased m →
  DelayedLoad m2 lr lv = Ok m3 →
  let m4 := set_reg m3 PrevPCReg (reg m3 PCReg) in
  let m5 := set_reg m4 PCReg (reg m4 NextPCReg) in
  sim c (set_reg m5 NextPCReg pc').
Proof.
  intros Hm ([Hs Hmem Hfr] & Hl & Hf & Hpc & Hlv & Hlr & Hk) [Hal Har HHI HLO Hap Han Ham] Hun HD.
  pose proof (wm_regs _ Hm) as [Hl0 _ Hz Hld]. rewrite Hl0 in Hl.
  assert (HLR : reg m2 LoadReg = reg m LoadReg) by (apply Hk; done).
  destruct (DelayedLoad_spec m2 lr lv) as (m3' & HD' & Hm3 & Hl3 & Hf3 & Hk3); try done.
  { by rewrite HLR. }
  { unfold int32, NumGPRegs in *. lia. }
  rewrite HD in HD'. injection HD' as <-.
  assert (Hlz : Z.of_nat (length (registers m3)) = 40) by (rewrite Hl3; done).
  intros m4 m5.
  assert (HK : ∀ k, 0 <= k < 40 → reg (set_reg m5 NextPCReg pc') k =
     if k =? NextPCReg then pc' else if k =? PCReg then reg m NextPCReg
     else if k =? PrevPCReg then reg m PCReg else reg m3 k).
  { intros k Hrange. unfold m5, m4, PrevPCReg, PCReg, NextPCReg, LoadReg, LoadValueReg, NumGPRegs, NumTotalRegs in *.
    do 4 rewrite reg_set_reg by (rewrite ?length_set_reg, ?Hlz; lia).
    rewrite !Hk3 by lia. rewrite HLR, !Hk by lia. case_Z; try lia; done. }
  unfold PrevPCReg, PCReg, NextPCReg, LoadReg, LoadValueReg, HiReg, LoReg, NumGPRegs, NumTotalRegs in *.
  assert (Hs5 : same_map m (set_reg m5 35 pc')).
  { unfold m5, m4. rewrite Hm3. destruct Hs. by split. }
  split; unfold PCReg, NextPCReg, LoadReg, LoadValueReg, HiReg, LoReg in *; try done.
  - intros k Hkr. rewrite Har by done. unfold eff, LoadReg, LoadValueReg. rewrite !HK, !Hk3 by lia.
    rewrite HLR, (Hk 38) by lia. case_Z; try lia; done.
  - rewrite HHI, HK, Hk3 by lia. case_Z; try lia; done.
  - rewrite HLO, HK, Hk3 by lia. case_Z; try lia; done.
  - by rewrite Hap, HK by lia.
  - by rewrite Han, HK by lia.
  - apply (mem_rel_same _ m2); [|by unfold m5, m4; rewrite Hm3|done].
    etrans; [|exact Hs5]. by symmetry.
  - by eapply unaliased_same.
Qed.

(** The next instruction is one the interpreters agree on. *)
Definition next_agrees (m : Machine) : bool :=
  match ReadMem m (reg m PCReg) 4 with
  | Ok (inr raw, _) => agrees (Decode (u32 raw)) m
  | _ => false
  end.

Lemma agrees_same instr m m' : registers m' = registers m → agrees instr m' = agrees instr m.
Proof. intros H. unfold agrees, slot_free, operands_agree, sequential, reg. by rewrite H. Qed.

(** The registers of runprogram when the switch is entered. *)
Definition entered (c : cpu) : cpu :=
  set_R (mkCpu (Reg c) (HI c) (LO c) (mem c) (npc c) (s32 (npc c + 4)) (s32 (icount c + 1))) 0 0.

Lemma entered_R c k : length (Reg c) = 32%nat → 0 <= k < 32 →
  R (entered c) k = if k =? 0 then 0 else R c k.
Proof. intros Hl Hk. unfold entered. by rewrite R_set_R by (done || lia). Qed.

Lemma entered_nop c : length (Reg c) = 32%nat →
  set_ (entered c) 0 0 = Ok (Continue (entered c)).
Proof.
  intros Hl. unfold set_, entered, set_R; cbn [Reg HI LO mem pc npc icount].
  by rewrite list_insert_insert_eq.
Qed.

Lemma cycle_sim c m m' :
  wf_machine m → sim c m → next_agrees m = true → OneInstruction m = Ok (Next, m') →
  ∃ c', cycle c = Ok (Continue c') ∧ sim c' m'.
Proof.
  intros Hm [Hlen Hregs HHI HLO Hpc Hnpc Hmem Hun] Hag HO. unfold OneInstruction in HO.
  pose proof (reg_ok m Hm PCReg) as Hp.
  destruct (ReadMem_spec m (reg m PCReg) 4 (wm_tr _ Hm) (wm_mem _ Hm) ltac:(auto))
    as (r & m1 & HR & Hs & Hr & Hmm & Hv). unfold next_agrees in Hag. rewrite HR in Hag, HO.
  cbn [mbind outcome_bind] in HO. destruct r as [[e bad]|raw]; [done|].
  assert (Hm1 : wf_machine m1) by by eapply wf_machine_same.
  assert (Hreg : ∀ k, reg m1 k = reg m k) by (intros; unfold reg; by rewrite Hr).
  assert (Hif : ifetch (mkCpu (Reg c) (HI c) (LO c) (mem c) (npc c) (s32 (npc c + 4))
    (s32 (icount c + 1))) (pc c) = Ok raw).
  { unfold ifetch. rewrite Hpc.
    destruct (mem_load_sim (mkCpu (Reg c) (HI c) (LO c) (mem c) (npc c) (s32 (npc c + 4))
      (s32 (icount c + 1))) m (reg m PCReg) 4 raw m1 (wm_tr _ Hm) (wm_mem _ Hm))
      as (bs & _ & _ & Hlv & -> & _); [auto|done|done|done|]. rewrite load_value_4 in Hlv. done. }
  assert (Ht : tracks m1 (if negb (raw =? 0) then switch (entered c) raw (reg m1 PCReg)
    else Ok (Continue (entered c)))
    (exec_ADD_BNE (Decode (u32 raw)) (s32 (reg m1 NextPCReg + 4)) m1)).
  { assert (Hsw : ∀ w, agreed m1 (Decode (u32 w)) → tracks m1 (switch (entered c) w (reg m1 PCReg))
      (exec_ADD_BNE (Decode (u32 w)) (s32 (reg m1 NextPCReg + 4)) m1)).
    { intros w Hw. apply switch_tracks; try done.
      - unfold entered, set_R; cbn [Reg]. by rewrite length_insert.
      - intros k Hk. rewrite entered_R by done. unfold eff. rewrite !Hreg.
        destruct (Z.eqb_spec k 0); [done|]. rewrite Hregs by lia. unfold eff.
        by destruct (Z.eqb_spec k 0).
      - by rewrite Hreg, <- HHI.
      - by rewrite Hreg, <- HLO.
      - by rewrite Hreg, <- Hnpc.
      - by rewrite Hreg, <- Hnpc.
      - by apply (mem_rel_same _ m).
      - by eapply unaliased_same. }
    specialize (Hsw raw). unfold agreed in Hsw. rewrite (agrees_same _ m m1 Hr) in Hsw.
    destruct (Z.eqb_spec raw 0) as [->|]; [|by apply Hsw].
    specialize (Hsw Hag). change (switch (entered c) 0 (reg m1 PCReg)) with
      (set_ (entered c) 0 (s32 (Z.shiftl (R (entered c) 0) 0))) in Hsw.
    rewrite entered_R in Hsw by (done || lia). change (s32 (Z.shiftl _ 0)) with 0 in Hsw.
    by rewrite entered_nop in Hsw. }
  unfold cycle. rewrite Hif. cbn [mbind outcome_bind]. fold (entered c).
  rewrite Hpc, <- Hreg.
  pose proof (exec_ADD_BNE_ok (Decode (u32 raw)) (s32 (reg m1 NextPCReg + 4)) m1 (Decode_wf _)
    ltac:(apply s32_range) Hm1 ltac:(apply wf_op_block, Decode_wf)) as Hex.
  destruct (exec_ADD_BNE _ _ _) as [x| | | |]; cbn [mbind outcome_bind exec_post tracks] in *; try done.
  destruct x as [m2 pc' lr lv|m2 e bad].
  - destruct Ht as (c' & Hc' & Ha). exists c'. split; [done|].
    apply bind_Ok_inv in HO as (m3 & HD & HO). cbv zeta in HO. injection HO as <-.
    eapply (finish_sim c' m1 m2 pc' lr lv m3); try done. by eapply unaliased_same.
  - apply bind_Ok_inv in HO as (m3 & _ & HO). done.
Qed.

(** ** Runs *)

(** [n] instructions of the simulated machine, none of which traps and on all
    of which the interpreters agree. *)
Fixpoint agreeing_run (n : nat) (m : Machine) : option Machine :=
  match n with
  | O => Some m
  | S n =>
      if next_agrees m then
        match OneInstruction m with
        | Ok (Next, m') => agreeing_run n m'
        | _ => None
        end
      else None
  end.

Lemma OneInstruction_wf m m' : wf_machine m → OneInstruction m = Ok (Next, m') → wf_machine m'.
Proof.
  intros Hm HO. pose proof (OneInstruction_spec m Hm) as H. rewrite HO in H.
  destruct H as [Hr [Hs Hmem _] _ _ _]. split; [done| |done]. by eapply wf_tr_same, Hm.
Qed.

(** C15: the two MIPS interpreters of the repository agree.  From related states
    (execute.c's registers are the simulated machine's once the pending load is
    done, the counters and HI and LO are equal, and every byte the program can
    address is the same), any number of instructions that mipssim.cc runs
    without a trap, loads and stores included, and whose operands are ones on
    which the two programs do not differ, are run by execute.c without an
    error, to a related state.  A load in mipssim.cc takes effect one
    instruction later; the relation accounts for it, so the theorem needs only
    that the instruction in the slot does not use the loaded register. *)
Theorem interpreters_agree n c m m' :
  wf_machine m → sim c m → agreeing_run n m = Some m' →
  ∃ c', cycles n c = Ok (Continue c') ∧ sim c' m' ∧ wf_machine m'.
Proof.
  revert c m. induction n as [|n IH]; intros c m Hm Hc; cbn [agreeing_run cycles].
  { intros [= <-]. by exists c. }
  destruct (next_agrees m) eqn:Hag; [|done].
  destruct (OneInstruction m) as [[[|] m1]| | | |] eqn:HO; try done. intros Hrun.
  destruct (cycle_sim c m m1 Hm Hc Hag HO) as (c1 & -> & Hc1).
  apply (IH c1 m1); [by eapply OneInstruction_wf|done|done].
Qed.

(** A program that sums 5 + 4 + ... + 1 in a loop, stores the sum, loads it and
    doubles it; the delay slots of the loads and branches are filled. *)
Definition sum_program : list Z :=
  [encode_I 0x0f 0 4 0x1000;                (* lui   r4,0x1000 *)
   encode_I 0x09 0 2 5;                     (* addiu r2,r0,5 *)
   encode_R 3 2 3 0 0x21;                   (* loop: addu r3,r3,r2 *)
   encode_I 0x09 2 2 (-1);                  (* addiu r2,r2,-1 *)
   encode_I 0x05 2 0 (-3);                  (* bne   r2,r0,loop *)
   encode_I 0x2b 4 3 0x100;                 (* sw    r3,0x100(r4) *)
   encode_I 0x23 4 5 0x100;                 (* lw    r5,0x100(r4) *)
   0;                                       (* nop *)
   encode_R 5 5 6 0 0x20;                   (* add   r6,r5,r5 *)
   encode_J 0x02 (0x10000024 / 4);          (* here: j here *)
   0].

Definition sum_bytes : list Z := words_to_bytes sum_program.

Definition sum_tlb : list TranslationEntry :=
  mkTE 0x80000 3 true false false false :: replicate 3 (mkTE 0 0 false false false false).

(** The simulated machine with the program in frame 3, mapped at memoffset. *)
Definition sum_machine : Machine :=
  let m := Machine_new_tlb (mkTE 0 0 false false false false) false in
  let m := set_tlb m sum_tlb in
  let m := set_memory m (blit (mainMemory m) 1536 sum_bytes) in
  set_reg (set_reg (set_reg m 29 (MEMSIZE - 1024 + memoffset)) PCReg memoffset) NextPCReg (memoffset + 4).

Definition sum_cpu : outcome cpu :=
  runprogram_setup (mkCpu (replicate 32 0) 0 0 (λ i, default 0 (sum_bytes !! Z.to_nat i)) 0 0 0)
    memoffset [].

Lemma sum_wf_tr : wf_tr sum_machine.
Proof. split; vm_compute; reflexivity. Qed.

Lemma sum_wf : wf_machine sum_machine.
Proof.
  split; [|exact sum_wf_tr|].
  - split.
    + vm_compute; reflexivity.
    + unfold sum_machine. repeat (apply set_reg_int32; [|by vm_compute]).
      apply Forall_replicate. by apply int32_small.
    + vm_compute; reflexivity.
    + vm_compute; split; congruence.
  - split.
    + cbn [sum_machine]. vm_compute. reflexivity.
    + unfold sum_machine. cbn [mainMemory set_reg set_registers set_memory set_tlb Machine_new_tlb Machine_new].
      unfold blit. apply Forall_app; split; [apply Forall_take; by apply Forall_replicate|].
      apply Forall_app; split; [apply words_to_bytes_bytes|apply Forall_drop; by apply Forall_replicate].
Qed.

Lemma sum_find vpn : find_tlb sum_tlb vpn (seqZ 0 TLBSize) =
  if 0x80000 =? vpn then Ok (Some (0, mkTE 0x80000 3 true false false false)) else Ok None.
Proof. cbv -[Z.eqb]. by destruct (Z.eqb 524288 vpn). Qed.

(** The program addresses one page, at memoffset, which is frame 3. *)
Lemma sum_translate a p m' : int32 a → Translate sum_machine a 1 false = Ok (Phys p, m') →
  ∃ i, 0 <= i < 512 ∧ a = memoffset + i ∧ p = 1536 + i.
Proof.
  intros Ha Ht. destruct (Translate_spec sum_machine a 1 false sum_wf_tr ltac:(auto))
    as (r & m1 & H & _ & _ & _ & Hr). rewrite Ht in H. injection H as <- <-.
  destruct Hr as (l & e & Hf & _ & _ & -> & _ & _). unfold find_entry in Hf.
  change (tlb sum_machine) with (Some sum_tlb) in Hf. cbv iota beta in Hf. rewrite sum_find in Hf.
  destruct (Z.eqb_spec 0x80000 (u32 a / PageSize)) as [E|]; [|done]. injection Hf as <- <-.
  exists (u32 a mod PageSize). cbn [physicalPage]. change (u32 3) with 3.
  unfold int32, u32, PageSize, SectorSize, memoffset in *.
  Z.to_euclidean_division_equations. lia.
Qed.

(** The byte execute.c holds is the one the simulated machine holds. *)
Definition same_bytes (f : Z → Z) : bool :=
  forallb (λ i, bool_decide (mainMemory sum_machine !! Z.to_nat (1536 + i) = Some (f i))) (seqZ 0 512).

Definition same_regs (c : cpu) : bool :=
  forallb (λ k, R c k =? eff sum_machine k) (seqZ 1 31).

Lemma sum_sim c : length (Reg c) = 32%nat → same_regs c = true → same_bytes (mem c) = true →
  HI c = 0 → LO c = 0 → pc c = memoffset → npc c = memoffset + 4 → sim c sum_machine.
Proof.
  unfold same_regs, same_bytes. rewrite !forallb_forall. intros Hl Hr Hb HH HL Hp Hn.
  split; try done.
  - intros k Hk. apply Z.eqb_eq, Hr, list_elem_of_In, elem_of_seqZ. lia.
  - intros a p m' Ha Ht. destruct (sum_translate a p m' Ha Ht) as (i & Hi & -> & ->).
    split; [unfold MEMSIZE; lia|]. replace (memoffset + i - memoffset) with i by lia.
    apply (bool_decide_unpack _), Is_true_true, Hb, list_elem_of_In, elem_of_seqZ. lia.
  - intros a b p m1 m2 Ha Hb' H1 H2. destruct (sum_translate a p m1 Ha H1) as (i & Hi & -> & ->).
    destruct (sum_translate b _ m2 Hb' H2) as (j & Hj & -> & E). lia.
Qed.

Definition sum_ready (o : outcome cpu) : bool :=
  match o with
  | Ok c => Nat.eqb (length (Reg c)) 32 && same_regs c && same_bytes (mem c) && (HI c =? 0) &&
      (LO c =? 0) && (pc c =? memoffset) && (npc c =? memoffset + 4)
  | _ => false
  end.

Lemma sum_cpu_sim o : sum_ready o = true → ∃ c, o = Ok c ∧ sim c sum_machine.
Proof.
  destruct o as [c| | | |]; try done. unfold sum_ready. rewrite !andb_true_iff, !Z.eqb_eq, Nat.eqb_eq.
  intros H. exists c. split; [done|]. apply sum_sim; tauto.
Qed.

Definition sum_result (o : option Machine) : bool :=
  match o with Some m => eff m 6 =? 30 | None => false end.

Lemma interpreters_agree_witness :
  ∃ c c' m', sum_cpu = Ok c ∧ agreeing_run 40 sum_machine = Some m' ∧
    cycles 40 c = Ok (Continue c') ∧ R c' 6 = 30.
Proof.
  destruct (sum_cpu_sim sum_cpu) as (c & Hc & Hs); [vm_compute; reflexivity|].
  assert (Hr : sum_result (agreeing_run 40 sum_machine) = true) by (vm_compute; reflexivity).
  destruct (agreeing_run 40 sum_machine) as [m'|] eqn:Hm; [|discriminate Hr].
  destruct (interpreters_agree 40 c sum_machine m' sum_wf Hs Hm) as (c' & Hc' & Hs' & _).
  exists c, c', m'. split; [exact Hc|]. split; [reflexivity|]. split; [exact Hc'|].
  rewrite (sim_regs _ _ Hs') by lia. apply Z.eqb_eq. exact Hr.
Defined.

(** ** ilog2 *)

(** All set bits of [i] have indices that agree with [L] from bit [k] up. *)
Definition narrowed (k i L : Z) : Prop :=
  Z.testbit i L = true ∧ ∀ n, 0 <= n → Z.testbit i n = true → n <= L ∧ n / 2 ^ k = L / 2 ^ k.

Lemma half_div n k : 0 <= k → n / 2 ^ k = 2 * (n / 2 ^ (k + 1)) + (if Z.odd (n / 2 ^ k) then 1 else 0).
Proof.
  intros Hk. rewrite Z.pow_add_r, <- Z.div_div by lia. change (2 ^ 1) with 2.
  pose proof (Zmod_odd (n / 2 ^ k)) as Ho. pose proof (Z.div_mod (n / 2 ^ k) 2 ltac:(lia)).
  destruct (Z.odd _); lia.
Qed.

Lemma ilog2_stage k mask i l L : 0 <= k → 0 <= L < 32 →
  (∀ n, 0 <= n < 32 → Z.testbit mask n = Z.odd (n / 2 ^ k)) →
  narrowed (k + 1) (u32 i) L →
  let '(i', l') := ilog2_step (i, l) (mask, 2 ^ k) in
  narrowed k (u32 i') L ∧ l' = l + (if Z.odd (L / 2 ^ k) then 2 ^ k else 0).
Proof.
  intros Hk HL Hmask [Htop Hall]. cbn [ilog2_step].
  assert (Hj : ∀ n, 0 <= n → Z.testbit (Z.land (u32 i) mask) n =
    Z.testbit (u32 i) n && Z.odd (n / 2 ^ k)).
  { intros n Hn. rewrite Z.land_spec. destruct (Z.ltb_spec n 32); [by rewrite Hmask by lia|].
    by rewrite testbit_u32_high by lia. }
  assert (Hju : u32 (Z.land (u32 i) mask) = Z.land (u32 i) mask).
  { apply Z.bits_inj'. intros n Hn. destruct (Z.ltb_spec n 32); [by rewrite testbit_u32 by lia|].
    rewrite testbit_u32_high, Hj, testbit_u32_high by lia. done. }
  pose proof (half_div L k Hk) as HdL.
  destruct (Z.eqb_spec (Z.land (u32 i) mask) 0) as [E|E]; cbn [negb].
  - pose proof (Hj L ltac:(lia)) as HjL. rewrite E, Z.bits_0, Htop in HjL. simpl in HjL.
    rewrite <- HjL in *. split; [|lia]. split; [done|]. intros n Hn Hb.
    destruct (Hall n Hn Hb) as [Hle Hd]. split; [done|]. pose proof (half_div n k Hk) as Hdn.
    pose proof (Hj n Hn) as Hjn. rewrite E, Z.bits_0, Hb in Hjn. simpl in Hjn.
    rewrite <- Hjn in Hdn. lia.
  - rewrite Hju.
    destruct (Z.odd (L / 2 ^ k)) eqn:HoL.
    + split; [|lia]. split; [by rewrite Hj, Htop, HoL by lia|]. intros n Hn Hb.
      rewrite Hj in Hb by done. apply andb_true_iff in Hb as [Hb Ho].
      destruct (Hall n Hn Hb) as [Hle Hd]. split; [done|]. pose proof (half_div n k Hk) as Hdn.
      rewrite Ho in Hdn. lia.
    + exfalso. apply E. apply Z.bits_inj'. intros n Hn. rewrite Hj, Z.bits_0 by done.
      destruct (Z.testbit (u32 i) n) eqn:Hb; [|done]. destruct (Z.odd (n / 2 ^ k)) eqn:Ho; [|done].
      destruct (Hall n Hn Hb) as [Hle Hd]. pose proof (half_div n k Hk) as Hdn. rewrite Ho in Hdn.
      pose proof (Z.div_le_mono n L (2 ^ k) ltac:(lia) Hle). lia.
Qed.

Ltac stage k mask Hin Hout :=
  lazymatch goal with
  | HL : 0 <= ?L < 32,
    Hmask : ∀ k mask, forallb _ _ = true → _ |- context [ilog2_step (?i, ?l) (mask, ?p)] =>
      let Hs := fresh "Hs" in let i' := fresh "i" in let l' := fresh "l" in
      pose proof (ilog2_stage k mask i l L ltac:(lia) HL
        (Hmask k mask ltac:(vm_compute; reflexivity)) Hin) as Hs;
      change (ilog2_step (i, l) (mask, p)) with (ilog2_step (i, l) (mask, 2 ^ k));
      destruct (ilog2_step (i, l) (mask, 2 ^ k)) as [i' l']; destruct Hs as [Hout ->]
  end.

(** The five stages of ilog2 find the index of the highest set bit of the
    argument read as unsigned, plus one. *)
Lemma ilog2_spec i : int32 i → i ≠ 0 → ilog2 i = Z.log2 (u32 i) + 1.
Proof.
  intros Hi Hne. assert (Hu : u32 i ≠ 0).
  { intros E. apply Hne, int32_word_inj; [done|by apply int32_small|done]. }
  pose proof (u32_range i) as Hr. set (L := Z.log2 (u32 i)).
  assert (HL : 0 <= L < 32).
  { split; [apply Z.log2_nonneg|]. apply Z.log2_lt_pow2; lia. }
  assert (H5 : narrowed 5 (u32 i) L).
  { split; [apply Z.bit_log2; lia|]. intros n Hn Hb.
    assert (n <= L). { destruct (Z.leb_spec n L); [done|]. rewrite Z.bits_above_log2 in Hb by lia. done. }
    split; [done|]. by rewrite !Z.div_small by lia. }
  assert (Hmask : ∀ k mask, forallb (λ n, eqb (Z.testbit mask n) (Z.odd (n / 2 ^ k))) (seqZ 0 32) = true →
    ∀ n, 0 <= n < 32 → Z.testbit mask n = Z.odd (n / 2 ^ k)).
  { intros k mask Hf n Hn. rewrite forallb_forall in Hf. apply eqb_prop, Hf, list_elem_of_In.
    apply elem_of_seqZ. lia. }
  unfold ilog2. destruct (Z.eqb_spec i 0); [done|]. cbn [foldl].
  stage 4 0xffff0000 H5 H4. stage 3 0xff00ff00 H4 H3. stage 2 0xf0f0f0f0 H3 H2.
  stage 1 0xcccccccc H2 H1. stage 0 0xaaaaaaaa H1 H0. cbn [snd].
  assert (HF : Forall (λ L, 1 + (if Z.odd (L / 2 ^ 4) then 2 ^ 4 else 0) +
    (if Z.odd (L / 2 ^ 3) then 2 ^ 3 else 0) + (if Z.odd (L / 2 ^ 2) then 2 ^ 2 else 0) +
    (if Z.odd (L / 2 ^ 1) then 2 ^ 1 else 0) + (if Z.odd (L / 2 ^ 0) then 2 ^ 0 else 0) = L + 1)
    (seqZ 0 32)).
  { apply (bool_decide_unpack _). by vm_compute. }
  eapply Forall_forall in HF; [exact HF|]. apply elem_of_seqZ. lia.
Qed.
End ExecuteProofs.
