(* ===== verification/Coff.v ===== *)
(** * bin/coff2noff.c, bin/coff2flat.c, bin/coff.h, bin/noff.h: making executables

    The cross compiler leaves a COFF file; coff2noff turns it into the NOFF
    file that AddrSpace loads, and coff2flat into a memory image.  The host has
    4-byte longs and is little endian (the branch of WordToHost and ShortToHost
    that swaps nothing).  Both programs read and write UNIX files by descriptor:
    the input is a list of bytes with a read position, the output a list of
    bytes.  Opening the files, and a write the host refuses, are outside the
    model; every other exit(1) is an error value.  The NOFF header's fields that
    no section sets are uninitialised stack memory, a parameter. *)

From Stdlib Require Import ZArith Lia Bool Ascii String.
From S2P Require Import Prelude Bytes Machine AddrSpace.

Local Open Scope Z_scope.

Module Coff.

(** ** coff.h *)

Definition MIPSELMAGIC : Z := 0x0162.
Definition OMAGIC : Z := 263.   (* 0407 *)

Definition sizeof_filehdr : Z := 20.
Definition sizeof_aouthdr : Z := 56.
Definition sizeof_scnhdr : Z := 40.

Record filehdr := mkFilehdr {
  f_magic : Z;
  f_nscns : Z;
  f_timdat : Z;
  f_symptr : Z;
  f_nsyms : Z;
  f_opthdr : Z;
  f_flags : Z;
}.

Record scnhdr := mkScnhdr {
  s_name : list Z;
  s_paddr : Z;
  s_vaddr : Z;
  s_size : Z;
  s_scnptr : Z;
  s_relptr : Z;
  s_lnnoptr : Z;
  s_nreloc : Z;
  s_nlnno : Z;
  s_flags : Z;
}.

(** Fields of a struct read as bytes. *)
Definition ushort_at (bs : list Z) (off : Z) : Z := le_combine (bytes_at bs off 2).
Definition short_at (bs : list Z) (off : Z) : Z := (ushort_at bs off + 2 ^ 15) mod 2 ^ 16 - 2 ^ 15.
Definition long_at (bs : list Z) (off : Z) : Z := s32 (le_combine (bytes_at bs off 4)).

Definition filehdr_of (bs : list Z) : filehdr :=
  mkFilehdr (ushort_at bs 0) (ushort_at bs 2) (long_at bs 4) (long_at bs 8) (long_at bs 12)
    (ushort_at bs 16) (ushort_at bs 18).

Definition scnhdr_of (bs : list Z) : scnhdr :=
  mkScnhdr (bytes_at bs 0 8) (long_at bs 8) (long_at bs 12) (long_at bs 16) (long_at bs 20)
    (long_at bs 24) (long_at bs 28) (ushort_at bs 32) (ushort_at bs 34) (long_at bs 36).

(** ** Errors *)

(** The messages before exit(1); coff2noff also removes its output file. *)
Inductive failure :=
| TooShort
| NotMIPSEL
| NotOMAGIC
| DataAndRdata
| BssAndSbss
| UnknownSegment (name : list Z).

Inductive conv (A : Type) :=
| Good (a : A)
| exit1 (e : failure)
| Undefined.
Arguments Good {A} a.
Arguments exit1 {A} e.
Arguments Undefined {A}.

#[export] Instance conv_bind : MBind conv := λ A B f o,
  match o with Good a => f a | exit1 e => exit1 e | Undefined => Undefined end.

Definition check (b : bool) (e : failure) : conv unit := if b then Good () else exit1 e.

(** A loop over the sections; exit() leaves it. *)
Fixpoint each {A S} (f : S → A → conv S) (s : S) (l : list A) : conv S :=
  match l with
  | [] => Good s
  | a :: l => s ← f s a; each f s l
  end.

(** ** Files *)

(** Read(fd, buf, nBytes) at position [pos]: the bytes and the new position. *)
Definition Read (inp : list Z) (pos nBytes : Z) : conv (list Z * Z) :=
  if nBytes <? 0 then Undefined
  else if pos + nBytes <=? Z.of_nat (length inp) then Good (bytes_at inp pos nBytes, pos + nBytes)
  else exit1 TooShort.

(** lseek(fd, off, 0): a negative offset is refused and the position stays. *)
Definition lseek (pos off : Z) : Z := if off <? 0 then pos else off.

(** write() at a position of a file: what lies between the end of the file and
    the position becomes zeros. *)
Definition write_at (file : list Z) (pos : Z) (bs : list Z) : list Z :=
  take (Z.to_nat pos) (file ++ replicate (Z.to_nat pos - length file) 0) ++ bs ++
  drop (Z.to_nat pos + length bs) file.

(** The characters of a C string constant. *)
Definition chars (s : string) : list Z := (λ c, Z.of_nat (nat_of_ascii c)) <$> String.list_ascii_of_string s.

(** !strcmp(s_name, s), which looks no further than the end of [s]. *)
Definition is_name (name : list Z) (s : string) : bool :=
  bool_decide (take (S (String.length s)) name = chars s ++ [0]).

(** ** coff2noff *)

(** The locals of main(): the read position, inNoffFile, noffH and the output
    written so far. *)
Record conv_state := mkConv {
  cv_pos : Z;
  inNoffFile : Z;
  noffH : NoffHeader;
  cv_out : list Z;
}.

(** lseek(fdIn, s_scnptr, 0); Read(...); Write(...); inNoffFile += s_size; *)
Definition copy_section (inp : list Z) (st : conv_state) (h : NoffHeader) (s : scnhdr)
  : conv conv_state :=
  '(buffer, pos) ← Read inp (lseek (cv_pos st) (s_scnptr s)) (s_size s);
  Good (mkConv pos (s32 (inNoffFile st + s_size s)) h (cv_out st ++ buffer)).

(** The body of the loop over the sections. *)
Definition convert_section (inp : list Z) (st : conv_state) (s : scnhdr) : conv conv_state :=
  let h := noffH st in
  let seg := mkSegment (s_paddr s) (inNoffFile st) (s_size s) in
  if s_size s =? 0 then Good st
  else if is_name (s_name s) ".text" then
    copy_section inp st (mkNoff (noffMagic h) seg (initData h) (uninitData h)) s
  else if is_name (s_name s) ".data" || is_name (s_name s) ".rdata" then
    _ ← check (seg_size (initData h) =? 0) DataAndRdata;
    copy_section inp st (mkNoff (noffMagic h) (code h) seg (uninitData h)) s
  else if is_name (s_name s) ".bss" || is_name (s_name s) ".sbss" then
    let u := uninitData h in
    let set u := mkConv (cv_pos st) (inNoffFile st)
                   (mkNoff (noffMagic h) (code h) (initData h) u) (cv_out st) in
    if negb (seg_size u =? 0) then
      if s_paddr s =? s32 (virtualAddr u + seg_size u) then exit1 BssAndSbss
      else Good (set (mkSegment (virtualAddr u) (inFileAddr u) (s32 (seg_size u + s_size s))))
    else Good (set (mkSegment (s_paddr s) (inFileAddr u) (s_size s)))
  else exit1 (UnknownSegment (s_name s)).

(** noffH as it is written: ten ints. *)
Definition header_bytes (h : NoffHeader) : list Z :=
  words_to_bytes (u32 <$>
    [noffMagic h;
     virtualAddr (code h); inFileAddr (code h); seg_size (code h);
     virtualAddr (initData h); inFileAddr (initData h); seg_size (initData h);
     virtualAddr (uninitData h); inFileAddr (uninitData h); seg_size (uninitData h)]).

(** The array of section headers. *)
Definition sections_of (n : Z) (bs : list Z) : list scnhdr :=
  (λ i, scnhdr_of (bytes_at bs (i * sizeof_scnhdr) sizeof_scnhdr)) <$> seqZ 0 n.

(** "initialize the NOFF header, in case not all the segments are defined" *)
Definition init_noffH (garbage : NoffHeader) : NoffHeader :=
  let init (s : Segment) := mkSegment (virtualAddr s) (inFileAddr s) 0 in
  mkNoff NOFFMAGIC (init (code garbage)) (init (initData garbage)) (init (uninitData garbage)).

(** main() after the files are open: the NOFF file. *)
Definition coff2noff (garbage : NoffHeader) (inp : list Z) : conv (list Z) :=
  '(bs, pos) ← Read inp 0 sizeof_filehdr;
  let fileh := filehdr_of bs in
  _ ← check (f_magic fileh =? MIPSELMAGIC) NotMIPSEL;
  '(bs, pos) ← Read inp pos sizeof_aouthdr;
  _ ← check (short_at bs 0 =? OMAGIC) NotOMAGIC;
  let numsections := f_nscns fileh in
  '(bs, pos) ← Read inp pos (numsections * sizeof_scnhdr);
  st ← each (convert_section inp)
         (mkConv pos sizeof_NoffHeader (init_noffH garbage) (replicate (Z.to_nat sizeof_NoffHeader) 0))
         (sections_of numsections bs);
  Good (write_at (cv_out st) 0 (header_bytes (noffH st))).

(** ** coff2flat *)

Definition StackSize : Z := 1024.

(** The locals: the read position, top and the output. *)
Record flat_state := mkFlat { fl_pos : Z; fl_top : Z; fl_out : list Z }.

Definition flatten_section (inp : list Z) (st : flat_state) (s : scnhdr) : conv flat_state :=
  let top := if s32 (s_paddr s + s_size s) >? fl_top st then s32 (s_paddr s + s_size s) else fl_top st in
  if negb (is_name (s_name s) ".bss") && negb (is_name (s_name s) ".sbss") then
    '(buffer, pos) ← Read inp (lseek (fl_pos st) (s_scnptr s)) (s_size s);
    Good (mkFlat pos top (fl_out st ++ buffer))
  else Good (mkFlat (fl_pos st) top (fl_out st)).

Definition coff2flat (inp : list Z) : conv (list Z) :=
  '(bs, pos) ← Read inp 0 sizeof_filehdr;
  let fileh := filehdr_of bs in
  _ ← check (f_magic fileh =? MIPSELMAGIC) NotMIPSEL;
  '(bs, pos) ← Read inp pos sizeof_aouthdr;
  _ ← check (short_at bs 0 =? OMAGIC) NotOMAGIC;
  '(bs, pos) ← Read inp pos (f_nscns fileh * sizeof_scnhdr);
  st ← each (flatten_section inp) (mkFlat pos 0 []) (sections_of (f_nscns fileh) bs);
  let at_ := lseek (Z.of_nat (length (fl_out st))) (s32 (fl_top st + StackSize - 4)) in
  Good (write_at (fl_out st) at_ [0; 0; 0; 0]).
End Coff.
