(* ===== verification/CoffProofs.v ===== *)
(** * Theorems on coff2noff, and on the pair coff2noff and AddrSpace *)

From Stdlib Require Import ZArith Lia Bool Ascii String.
From S2P Require Import Prelude Bytes Bitmap Machine AddrSpace AddrSpaceProofs Coff.

Local Open Scope string_scope.
Local Open Scope list_scope.
Local Open Scope Z_scope.

Module CoffProofs.
Import Coff.

(** ** The sections of a COFF file *)

(** The three kinds of section that coff2noff places. *)
Definition text (s : scnhdr) : bool := negb (s_size s =? 0) && is_name (s_name s) ".text".
Definition data (s : scnhdr) : bool :=
  negb (s_size s =? 0) && (is_name (s_name s) ".data" || is_name (s_name s) ".rdata").
Definition bss (s : scnhdr) : bool :=
  negb (s_size s =? 0) && (is_name (s_name s) ".bss" || is_name (s_name s) ".sbss").

Definition only (p : scnhdr → bool) (l : list scnhdr) : list scnhdr := filter (λ s, p s = true) l.

(** A section whose bytes lie in the file. *)
Definition wf_section (inp : list Z) (s : scnhdr) : Prop :=
  s_size s = 0 ∨ (0 < s_size s ∧
  (bss s = true ∨ ((text s = true ∨ data s = true) ∧ 0 <= s_scnptr s ∧
    s_scnptr s + s_size s <= Z.of_nat (length inp)))).

Definition total (l : list scnhdr) : Z := foldr (λ s n, s_size s + n) 0 l.

(** The bytes of the section are at the place of the output the segment names. *)
Definition placed (inp out : list Z) (seg : Segment) (s : scnhdr) : Prop :=
  virtualAddr seg = s_paddr s ∧ seg_size seg = s_size s ∧ sizeof_NoffHeader <= inFileAddr seg ∧
  inFileAddr seg + s_size s <= Z.of_nat (length out) ∧
  bytes_at out (inFileAddr seg) (s_size s) = bytes_at inp (s_scnptr s) (s_size s).

Definition seg_inv (inp out : list Z) (seg : Segment) (l : list scnhdr) : Prop :=
  match l with
  | [] => seg_size seg = 0
  | [s] => placed inp out seg s
  | _ => False
  end.

(** After the sections [pre]. *)
Record inv (inp : list Z) (pre : list scnhdr) (st : conv_state) : Prop := {
  inv_out : inNoffFile st = Z.of_nat (length (cv_out st)) ∧
    inNoffFile st = sizeof_NoffHeader + total (only text pre) + total (only data pre);
  inv_magic : noffMagic (noffH st) = NOFFMAGIC;
  inv_code : seg_inv inp (cv_out st) (code (noffH st)) (only text pre);
  inv_data : seg_inv inp (cv_out st) (initData (noffH st)) (only data pre);
  inv_bss : seg_size (uninitData (noffH st)) = total (only bss pre);
  inv_bytes : Forall byte (cv_out st);
}.

Lemma only_snoc p l s : only p (l ++ [s]) = only p l ++ (if p s then [s] else []).
Proof.
  unfold only. rewrite filter_app. f_equal. rewrite filter_cons, filter_nil.
  destruct (p s); by case_decide.
Qed.

Lemma total_app l1 l2 : total (l1 ++ l2) = total l1 + total l2.
Proof. unfold total. induction l1 as [|s l1 IH]; simpl; lia. Qed.

Lemma name_inj s a b : is_name s a = true → is_name s b = true → (String.length a <= String.length b)%nat →
  chars a ++ [0] = take (S (String.length a)) (chars b ++ [0]).
Proof.
  unfold is_name. intros H1%bool_decide_eq_true_1 H2%bool_decide_eq_true_1 Hl.
  rewrite <- H1, <- H2, take_take. f_equal. lia.
Qed.

(** No section is of two kinds. *)
Lemma kinds_disjoint s :
  (text s = true → data s = false ∧ bss s = false) ∧ (data s = true → bss s = false).
Proof.
  assert (Hd : ∀ a b, is_name (s_name s) a = true →
    (String.length a <=? String.length b)%nat = true →
    bool_decide (chars a ++ [0] = take (S (String.length a)) (chars b ++ [0])) = false →
    is_name (s_name s) b = false).
  { intros a b Ha Hl%Nat.leb_le Hne%bool_decide_eq_false_1.
    destruct (is_name (s_name s) b) eqn:Hb; [|done]. destruct Hne. by eapply name_inj. }
  unfold text, data, bss. destruct (s_size s =? 0); [done|]. cbn [negb andb].
  split.
  - intros Ht. rewrite (Hd ".text" ".data"), (Hd ".text" ".rdata"), (Hd ".text" ".sbss") by done.
    destruct (is_name (s_name s) ".bss") eqn:Hb; [|done].
    rewrite (Hd ".bss" ".text") in Ht by done. done.
  - intros [Ht|Ht]%orb_true_iff.
    + rewrite (Hd ".data" ".sbss") by done. destruct (is_name (s_name s) ".bss") eqn:Hb; [|done].
      rewrite (Hd ".bss" ".data") in Ht by done. done.
    + destruct (is_name (s_name s) ".bss") eqn:Hb; [by rewrite (Hd ".bss" ".rdata") in Ht by done|].
      destruct (is_name (s_name s) ".sbss") eqn:Hs; [by rewrite (Hd ".sbss" ".rdata") in Ht by done|].
      done.
Qed.

Lemma text_only s : text s = true → data s = false ∧ bss s = false.
Proof. apply kinds_disjoint. Qed.

Lemma data_only s : data s = true → text s = false ∧ bss s = false.
Proof.
  intros Hd. split; [|by apply kinds_disjoint]. destruct (text s) eqn:E; [|done].
  destruct (text_only s E). congruence.
Qed.

Lemma bss_only s : bss s = true → text s = false ∧ data s = false.
Proof.
  intros Hb. split.
  - destruct (text s) eqn:E; [|done]. destruct (text_only s E). congruence.
  - destruct (data s) eqn:E; [|done]. destruct (data_only s E). congruence.
Qed.

(** ** The loop *)

Lemma placed_app inp out bs seg s : placed inp out seg s → placed inp (out ++ bs) seg s.
Proof.
  intros (H1 & H2 & H3 & H4 & H5). split_and!; try done; [rewrite length_app; lia|].
  rewrite <- H5. unfold bytes_at, sizeof_NoffHeader in *. destruct (Z.leb_spec 0 (s_size s)).
  - rewrite drop_app_le by lia. rewrite take_app_le; [done|]. rewrite length_drop. lia.
  - replace (Z.to_nat (s_size s)) with O by lia. done.
Qed.

Lemma seg_inv_app inp out bs seg l : seg_inv inp out seg l → seg_inv inp (out ++ bs) seg l.
Proof. destruct l as [|s [|]]; try done. apply placed_app. Qed.

(** The section just copied is placed at the end. *)
Lemma placed_new inp out s :
  sizeof_NoffHeader <= Z.of_nat (length out) → 0 <= s_scnptr s → 0 < s_size s →
  s_scnptr s + s_size s <= Z.of_nat (length inp) →
  placed inp (out ++ bytes_at inp (s_scnptr s) (s_size s))
    (mkSegment (s_paddr s) (Z.of_nat (length out)) (s_size s)) s.
Proof.
  intros Ho Hp Hs Hl. assert (Hn : length (bytes_at inp (s_scnptr s) (s_size s)) = Z.to_nat (s_size s)).
  { apply bytes_at_length; lia. }
  split_and!; try done.
  - rewrite length_app, Hn. simpl. lia.
  - cbn [inFileAddr]. unfold bytes_at at 1. rewrite Nat2Z.id, drop_app_length.
    apply take_ge. lia.
Qed.

Lemma copy_section_ok inp st h s :
  0 <= s_scnptr s → 0 < s_size s → s_scnptr s + s_size s <= Z.of_nat (length inp) →
  copy_section inp st h s =
  Good (mkConv (s_scnptr s + s_size s) (s32 (inNoffFile st + s_size s)) h
    (cv_out st ++ bytes_at inp (s_scnptr s) (s_size s))).
Proof.
  intros Hp Hs Hl. unfold copy_section, lseek, Read.
  destruct (Z.ltb_spec (s_scnptr s) 0); [lia|]. destruct (Z.ltb_spec (s_size s) 0); [lia|].
  destruct (Z.leb_spec (s_scnptr s + s_size s) (Z.of_nat (length inp))); [done|lia].
Qed.

Lemma total_nonneg inp l : Forall (wf_section inp) l → 0 <= total l.
Proof. induction 1 as [|s l [Hs|[Hs _]] _ IH]; simpl; lia. Qed.

Lemma only_wf inp p l : Forall (wf_section inp) l → Forall (wf_section inp) (only p l).
Proof.
  rewrite !Forall_forall. intros Hl s Hs. apply Hl. by apply list_elem_of_filter in Hs as [_ Hs].
Qed.

(** The conditions of the three tests, for a section that is not empty. *)
Lemma convert_section_unfold inp st s : s_size s ≠ 0 →
  let h := noffH st in
  let seg := mkSegment (s_paddr s) (inNoffFile st) (s_size s) in
  convert_section inp st s =
  if text s then copy_section inp st (mkNoff (noffMagic h) seg (initData h) (uninitData h)) s
  else if data s then
    _ ← check (seg_size (initData h) =? 0) DataAndRdata;
    copy_section inp st (mkNoff (noffMagic h) (code h) seg (uninitData h)) s
  else if bss s then
    let u := uninitData h in
    let set u := mkConv (cv_pos st) (inNoffFile st)
                   (mkNoff (noffMagic h) (code h) (initData h) u) (cv_out st) in
    if negb (seg_size u =? 0) then
      if s_paddr s =? s32 (virtualAddr u + seg_size u) then exit1 BssAndSbss
      else Good (set (mkSegment (virtualAddr u) (inFileAddr u) (s32 (seg_size u + s_size s))))
    else Good (set (mkSegment (s_paddr s) (inFileAddr u) (s_size s)))
  else exit1 (UnknownSegment (s_name s)).
Proof.
  intros Hs. unfold convert_section, text, data, bss.
  by destruct (Z.eqb_spec (s_size s) 0).
Qed.

Lemma convert_section_ok inp pre s st :
  Forall byte inp → inv inp pre st → Forall (wf_section inp) pre → wf_section inp s →
  (∀ p, p ∈ [text; data; bss] → (length (only p (pre ++ [s])) <= 1)%nat) →
  total (only text (pre ++ [s])) + total (only data (pre ++ [s])) < 2 ^ 30 →
  ∃ st', convert_section inp st s = Good st' ∧ inv inp (pre ++ [s]) st'.
Proof.
  intros Hby [[Ho1 Ho2] Hmg Hc Hd Hb Hob] Hpre Hs Hone Hsmall.
  pose proof (total_nonneg inp _ (only_wf inp text pre Hpre)) as Ht0.
  pose proof (total_nonneg inp _ (only_wf inp data pre Hpre)) as Hd0.
  pose proof (Hone text ltac:(set_solver)) as H1. pose proof (Hone data ltac:(set_solver)) as H2.
  pose proof (Hone bss ltac:(set_solver)) as H3. clear Hone.
  assert (Hcopy : Forall byte (cv_out st ++ bytes_at inp (s_scnptr s) (s_size s))).
  { apply Forall_app. split; [done|]. by apply Forall_take, Forall_drop. }
  rewrite only_snoc, length_app in H1. rewrite only_snoc, length_app in H2.
  rewrite only_snoc, length_app in H3. rewrite !only_snoc, !total_app in Hsmall.
  destruct Hs as [Hz | (Hpos & Hs)].
  { exists st. unfold convert_section, text, data, bss. rewrite Hz, Z.eqb_refl. split; [done|].
    split; rewrite ?only_snoc; unfold text, data, bss; rewrite ?Hz; cbn; rewrite ?app_nil_r; done. }
  rewrite convert_section_unfold by lia. cbv zeta.
  destruct Hs as [Hbss | ([Ht | Hda] & Hp & Hl)].
  - (* bss *)
    destruct (bss_only s Hbss) as [Ht Hda]. rewrite Ht, Hda, Hbss in *. simpl in H3.
    assert (Hnil : only bss pre = []) by (apply length_zero_iff_nil; lia).
    rewrite Hb, Hnil. cbn [total foldr Z.eqb negb]. eexists. split; [done|].
    split; rewrite ?only_snoc, ?Ht, ?Hda, ?Hbss, ?app_nil_r; try done.
    rewrite Hnil. cbn. lia.
  - (* text *)
    destruct (text_only s Ht) as [Hda Hbss]. rewrite Ht, Hda, Hbss in *. simpl in H1. rewrite copy_section_ok by done.
    assert (Hnil : only text pre = []) by (apply length_zero_iff_nil; lia).
    eexists. split; [done|]. rewrite Hnil in *. cbn [total foldr] in *.
    split; cbn [inNoffFile cv_out noffH noffMagic code initData uninitData];
      rewrite ?only_snoc, ?Ht, ?Hda, ?Hbss, ?app_nil_r, ?Hnil; try done.
    + rewrite length_app, bytes_at_length by lia. unfold sizeof_NoffHeader in *.
      rewrite s32_id by (unfold int32; lia). cbn [total foldr app]. lia.
    + cbn [app seg_inv]. rewrite Ho1. apply placed_new; try done. lia.
    + by apply seg_inv_app.
  - (* data *)
    destruct (data_only s Hda) as [Ht Hbss]. rewrite Ht, Hda, Hbss in *. simpl in H2. rewrite copy_section_ok by done.
    assert (Hnil : only data pre = []) by (apply length_zero_iff_nil; lia).
    rewrite Hnil in *. cbn [total foldr seg_inv] in *. rewrite Hd. cbn [check Z.eqb mbind conv_bind].
    eexists. split; [done|].
    split; cbn [inNoffFile cv_out noffH noffMagic code initData uninitData];
      rewrite ?only_snoc, ?Ht, ?Hda, ?Hbss, ?app_nil_r, ?Hnil; try done.
    + rewrite length_app, bytes_at_length by lia. unfold sizeof_NoffHeader in *.
      rewrite s32_id by (unfold int32; lia). cbn [total foldr app]. lia.
    + by apply seg_inv_app.
    + cbn [app seg_inv]. rewrite Ho1. apply placed_new; try done. lia.
Qed.

(** A filtered prefix is no longer than the whole, and its sizes no larger. *)
Lemma only_prefix p pre l : (length (only p pre) <= length (only p (pre ++ l)))%nat.
Proof. unfold only. rewrite filter_app, length_app. lia. Qed.

Lemma total_prefix inp p pre l : Forall (wf_section inp) l →
  total (only p pre) <= total (only p (pre ++ l)).
Proof.
  intros Hl. unfold only. rewrite filter_app, total_app.
  pose proof (total_nonneg inp _ (only_wf inp p l Hl)). unfold only in *. lia.
Qed.

Lemma each_ok inp l : Forall byte inp → ∀ pre st,
  inv inp pre st → Forall (wf_section inp) (pre ++ l) →
  (∀ p, p ∈ [text; data; bss] → (length (only p (pre ++ l)) <= 1)%nat) →
  total (only text (pre ++ l)) + total (only data (pre ++ l)) < 2 ^ 30 →
  ∃ st', each (convert_section inp) st l = Good st' ∧ inv inp (pre ++ l) st'.
Proof.
  intros Hby. induction l as [|s l IH]; intros pre st Hinv Hwf Hone Hsmall.
  { exists st. by rewrite app_nil_r. }
  rewrite cons_middle, (app_assoc pre) in *.
  assert (Hwl : Forall (wf_section inp) l) by (by apply Forall_app in Hwf as [_ ?]).
  destruct (convert_section_ok inp pre s st) as (st1 & H1 & Hinv1); try done.
  - by apply Forall_app in Hwf as [[? _]%Forall_app _].
  - apply Forall_app in Hwf as [[_ Hs]%Forall_app _]. by inversion Hs.
  - intros p Hp. pose proof (only_prefix p (pre ++ [s]) l). specialize (Hone p Hp). lia.
  - pose proof (total_prefix inp text (pre ++ [s]) l Hwl).
    pose proof (total_prefix inp data (pre ++ [s]) l Hwl). lia.
  - cbn [each]. rewrite H1. cbn [mbind conv_bind].
    destruct (IH (pre ++ [s]) st1 Hinv1 Hwf Hone Hsmall) as (st' & H' & Hinv'). by exists st'.
Qed.

(** ** The header *)

Definition norm_segment (s : Segment) : Segment :=
  mkSegment (s32 (virtualAddr s)) (s32 (inFileAddr s)) (s32 (seg_size s)).

Lemma header_bytes_length h : length (header_bytes h) = 40%nat.
Proof. unfold header_bytes. by rewrite words_to_bytes_length. Qed.

(** Reading back the ten ints coff2noff writes. *)
Lemma noff_header_roundtrip h rest :
  header_of (bytes_at (header_bytes h ++ rest) 0 sizeof_NoffHeader) =
  mkNoff (s32 (noffMagic h)) (norm_segment (code h)) (norm_segment (initData h))
    (norm_segment (uninitData h)).
Proof.
  unfold bytes_at. rewrite drop_0. rewrite take_app_length' by (by rewrite header_bytes_length).
  unfold header_of, header_bytes. set (ws := u32 <$> _).
  change 10%nat with (length ws). rewrite bytes_words_roundtrip.
  - unfold ws, norm_segment. cbv [fmap list_fmap lookup list_lookup default from_option id]. by rewrite !s32_u32.
  - apply Forall_fmap, Forall_true. intros x. apply u32_range.
Qed.

(** The header goes over the zeros the output starts with. *)
Lemma write_header (out bs : list Z) : length bs = 40%nat → write_at out 0 bs = bs ++ drop 40 out.
Proof. intros Hl. unfold write_at. simpl. by rewrite Hl. Qed.

Lemma bytes_at_after (out bs : list Z) off n : length bs = 40%nat → (40 <= length out)%nat → 40 <= off →
  bytes_at (bs ++ drop 40 out) off n = bytes_at out off n.
Proof.
  intros Hb Ho Hoff. unfold bytes_at. f_equal. rewrite drop_app_ge by lia. rewrite drop_drop.
  f_equal. lia.
Qed.

Lemma placed_header inp out h seg s :
  40 <= Z.of_nat (length out) < 2 ^ 31 → 0 <= s_size s → int32 (s_paddr s) →
  placed inp out seg s → placed inp (header_bytes h ++ drop 40 out) (norm_segment seg) s.
Proof.
  intros Ho Hs Hpa (P1 & P2 & P3 & P4 & P5). unfold sizeof_NoffHeader in *.
  unfold placed, norm_segment; cbn [virtualAddr inFileAddr seg_size].
  rewrite P1, P2, !s32_id by (done || unfold int32; lia).
  rewrite bytes_at_after, length_app, header_bytes_length, length_drop by
    (rewrite ?header_bytes_length; lia || done).
  unfold sizeof_NoffHeader. split_and!; try done; lia.
Qed.

Lemma seg_inv_header inp out h seg l :
  40 <= Z.of_nat (length out) < 2 ^ 31 → Forall (λ s, 0 <= s_size s ∧ int32 (s_paddr s)) l →
  seg_inv inp out seg l → seg_inv inp (header_bytes h ++ drop 40 out) (norm_segment seg) l.
Proof.
  intros Ho Hl. destruct l as [|s [|]]; cbn [seg_inv]; [|apply Forall_cons in Hl as [[? ?] _]; by apply placed_header|done].
  unfold norm_segment. cbn [seg_size]. by intros ->.
Qed.

(** ** What a COFF file has to look like *)

(** A MIPSEL OMAGIC file whose section headers and contents are in the file, with
    at most one section each of text, of initialised data and of uninitialised
    data that is not empty; empty sections may be there too, as in the files under
    test/, whose .data is empty. *)
Record wf_coff (inp : list Z) (secs : list scnhdr) : Prop := {
  wc_bytes : Forall byte inp;
  wc_magic : f_magic (filehdr_of (bytes_at inp 0 sizeof_filehdr)) = MIPSELMAGIC;
  wc_omagic : short_at (bytes_at inp sizeof_filehdr sizeof_aouthdr) 0 = OMAGIC;
  wc_headers : let n := f_nscns (filehdr_of (bytes_at inp 0 sizeof_filehdr)) in
    sizeof_filehdr + sizeof_aouthdr + n * sizeof_scnhdr <= Z.of_nat (length inp) ∧
    secs = sections_of n (bytes_at inp (sizeof_filehdr + sizeof_aouthdr) (n * sizeof_scnhdr));
  wc_sections : Forall (wf_section inp) secs;
  wc_one : ∀ p, p ∈ [text; data; bss] → (length (only p secs) <= 1)%nat;
  wc_small : total (only text secs) + total (only data secs) + total (only bss secs) < 2 ^ 30;
}.

Lemma ushort_nonneg inp off : Forall byte inp → 0 <= ushort_at inp off.
Proof.
  intros Hb. unfold ushort_at. apply le_combine_range. by apply Forall_take, Forall_drop.
Qed.

Lemma Read_ok inp pos n : 0 <= n → pos + n <= Z.of_nat (length inp) →
  Read inp pos n = Good (bytes_at inp pos n, pos + n).
Proof.
  intros Hn Hl. unfold Read. destruct (Z.ltb_spec n 0); [lia|].
  destruct (Z.leb_spec (pos + n) (Z.of_nat (length inp))); [done|lia].
Qed.

Lemma sections_int32 n bs s : s ∈ sections_of n bs → int32 (s_paddr s).
Proof. unfold sections_of. intros (i & -> & _)%list_elem_of_fmap. apply s32_range. Qed.

(** The NOFF file of a well-formed COFF file. *)
Lemma coff2noff_ok garbage inp secs :
  wf_coff inp secs →
  ∃ out h, coff2noff garbage inp = Good out ∧ exec_header out h ∧ Forall byte out ∧
    seg_inv inp out (code h) (only text secs) ∧ seg_inv inp out (initData h) (only data secs) ∧
    seg_size (uninitData h) = total (only bss secs).
Proof.
  intros [Hby Hmg Hom [Hlen Hsecs] Hwf Hone Hsmall]. cbv zeta in Hlen, Hsecs.
  set (n := f_nscns (filehdr_of (bytes_at inp 0 sizeof_filehdr))) in *.
  assert (Hn : 0 <= n).
  { unfold n. cbn [f_nscns filehdr_of]. apply ushort_nonneg. by apply Forall_take, Forall_drop. }
  unfold coff2noff, sizeof_filehdr, sizeof_aouthdr, sizeof_scnhdr in *.
  rewrite Read_ok by lia. cbn [mbind conv_bind]. cbv zeta. rewrite Hmg. cbn [check Z.eqb Pos.eqb MIPSELMAGIC mbind conv_bind].
  rewrite Read_ok by lia. cbn [mbind conv_bind]. rewrite Z.add_0_l, Hom.
  cbn [check Z.eqb Pos.eqb OMAGIC mbind conv_bind]. fold n.
  rewrite Read_ok by lia. cbn [mbind conv_bind]. change (20 + 56) with 76 in *.
  pose proof (total_nonneg inp _ (only_wf inp bss secs Hwf)) as Hb0.
  pose proof (total_nonneg inp _ (only_wf inp text secs Hwf)) as Ht0.
  pose proof (total_nonneg inp _ (only_wf inp data secs Hwf)) as Hd0.
  destruct (each_ok inp secs Hby [] (mkConv (76 + n * 40) sizeof_NoffHeader (init_noffH garbage)
    (replicate (Z.to_nat sizeof_NoffHeader) 0))) as (st & Hst & Hinv).
  - split; try done. cbn [cv_out]. by apply Forall_replicate.
  - done.
  - done.
  - cbn [app]. lia.
  - rewrite <- Hsecs, Hst. cbn [mbind conv_bind app] in *.
    destruct Hinv as [[Ho1 Ho2] Hmagic Hc Hd Hb Hob].
    assert (Hl : ∀ p, Forall (λ s, 0 <= s_size s ∧ int32 (s_paddr s)) (only p secs)).
    { intros p. apply Forall_forall. intros s [_ Hin]%list_elem_of_filter. split.
      - destruct (proj1 (Forall_forall _ _) Hwf s Hin) as [?|[? _]]; lia.
      - rewrite Hsecs in Hin. by eapply sections_int32. }
    eexists _, _. split; [done|]. rewrite write_header by apply header_bytes_length.
    unfold exec_header, sizeof_NoffHeader in *. split_and!.
    + rewrite length_app, header_bytes_length, length_drop. lia.
    + reflexivity.
    + rewrite noff_header_roundtrip. cbn [noffMagic]. by rewrite Hmagic.
    + apply Forall_app. split; [|by apply Forall_drop]. apply words_to_bytes_bytes.
    + rewrite noff_header_roundtrip. cbn [code]. apply seg_inv_header; [lia|apply Hl|done].
    + rewrite noff_header_roundtrip. cbn [initData]. apply seg_inv_header; [lia|apply Hl|done].
    + rewrite noff_header_roundtrip. cbn [uninitData norm_segment seg_size]. rewrite Hb.
      apply s32_id. unfold int32. lia.
Qed.

(** ** From the COFF file to memory *)

Lemma lookup_bytes {A} (l : list A) off n i : 0 <= off → 0 <= i < n →
  bytes_at l off n !! Z.to_nat i = l !! Z.to_nat (off + i).
Proof.
  intros Ho Hi. unfold bytes_at. rewrite lookup_take_lt, lookup_drop by lia. f_equal. lia.
Qed.

Lemma placed_byte inp out seg s i : placed inp out seg s → 0 <= s_scnptr s → 0 <= i < s_size s →
  out !! Z.to_nat (inFileAddr seg + i) = inp !! Z.to_nat (s_scnptr s + i).
Proof.
  intros (_ & _ & Ho & _ & Hb) Hs Hi. unfold sizeof_NoffHeader in *.
  rewrite <- (lookup_bytes out (inFileAddr seg) (s_size s) i), Hb by lia.
  by rewrite lookup_bytes by lia.
Qed.

Lemma only_wf_section inp p l s : Forall (wf_section inp) l → only p l = [s] →
  wf_section inp s ∧ p s = true.
Proof.
  intros Hl Hs. assert (Hin : s ∈ only p l) by (rewrite Hs; by left).
  apply list_elem_of_filter in Hin as [Hp Hin]. split; [|done]. by eapply Forall_forall in Hl.
Qed.

(** A section that is copied lies in the input. *)
Lemma copied_section inp s : wf_section inp s → text s = true ∨ data s = true →
  0 < s_size s ∧ 0 <= s_scnptr s.
Proof.
  intros [Hz | (Hpos & [Hb | (_ & ? & _)])] Hk; [|by destruct (bss_only s Hb); destruct Hk; congruence|done].
  unfold text, data in Hk. rewrite Hz in Hk. by destruct Hk.
Qed.

(** A segment of the header is the total of its sections, and its bytes, if any,
    are in the output. *)
Lemma seg_inv_size inp out seg l : Forall (wf_section inp) l → seg_inv inp out seg l →
  seg_size seg = total l ∧ 0 <= seg_size seg ∧
  (0 < seg_size seg → 0 <= inFileAddr seg ∧ inFileAddr seg + seg_size seg <= Z.of_nat (length out)).
Proof.
  intros Hl Hs. pose proof (total_nonneg inp l Hl) as H0. destruct l as [|s [|]]; [| |done]; cbn in *.
  - lia.
  - destruct Hs as (_ & E & H1 & H2 & _). unfold sizeof_NoffHeader in *. lia.
Qed.

(** C16: from the compiler's output to a running program.  coff2noff accepts every
    well-formed COFF file (with or without initialised and uninitialised data).
    If moreover the file is linked the way the loader needs it (text at address 0,
    the initialised data, if there is any, right after it) and enough frames are
    clear for the text, the data and the stack, then the address space built from
    the NOFF file holds, at their virtual addresses, exactly the bytes the COFF file
    has for the text and the data, and zeros in the uninitialised data and the
    stack. *)
Theorem executable_pipeline {B} `{BitAllocLaws B} garbage inp secs :
  wf_coff inp secs →
  ∃ out, coff2noff garbage inp = Good out ∧
    ∀ tx g m (b : B), only text secs = [tx] → s_paddr tx = 0 →
      Forall (λ dt, s_paddr dt = s_size tx) (only data secs) →
      wf_mem m → ba_ok b → ba_size b = NumPhysPages →
      divRoundUp (s_size tx + total (only data secs) + total (only bss secs) + UserStackSize) PageSize
        <= NumPhysPages - Z.of_nat (size (ba_used b)) →
      ∃ sp m' b' t, AddrSpace_new (Some out) g m b = Ok (sp, m', b') ∧ ptables m' !! as_pageTable sp = Some t ∧
        (∀ i, 0 <= i < s_size tx → vbyte t m' (s_paddr tx + i) = inp !! Z.to_nat (s_scnptr tx + i)) ∧
        (∀ dt i, dt ∈ only data secs → 0 <= i < s_size dt →
           vbyte t m' (s_paddr dt + i) = inp !! Z.to_nat (s_scnptr dt + i)) ∧
        (∀ a, s_size tx + total (only data secs) <= a < numPages sp * PageSize → vbyte t m' a = Some 0).
Proof.
  intros Hc. destruct (coff2noff_ok garbage inp secs Hc) as (out & h & Hout & Hh & Hby & Hct & Hcd & Hbss).
  exists out. split; [exact Hout|]. intros tx g m b Htx Hptx Hpdt Hm Hok Hsz Hfit.
  destruct Hc as [_ _ _ _ Hwf _ Hsmall]. rewrite Htx in Hct, Hsmall. cbn [total foldr seg_inv] in Hct, Hsmall.
  pose proof (total_nonneg inp _ (only_wf inp bss secs Hwf)) as Hb0.
  destruct (seg_inv_size inp out _ _ (only_wf inp data secs Hwf) Hcd) as (D2 & D3 & D4).
  destruct (only_wf_section _ _ _ _ Hwf Htx) as [Wtx Ktx].
  destruct (copied_section inp tx Wtx ltac:(auto)) as [Stx Otx].
  pose proof Hct as (C1 & C2 & C3 & C4 & _). unfold sizeof_NoffHeader in C3.
  assert (Hpages : space_pages h =
    divRoundUp (s_size tx + total (only data secs) + total (only bss secs) + UserStackSize) PageSize).
  { unfold space_pages. rewrite C2, D2, Hbss, u32_id by (unfold UserStackSize; lia). done. }
  destruct (AddrSpace_new_ok out h g m b) as (sp & m' & b' & t & Hnew & Hns); try done.
  { split; try done; try lia. }
  { by rewrite Hpages. }
  exists sp, m', b', t. split; [done|].
  destruct Hns as [[Hnp _] [_ Hpt] _ _ _ Himg _ _ _].
  destruct (space_pages_bounds h) as [_ Hroom]; try lia. rewrite Hnp in *. rewrite C2, D2 in Hroom.
  split; [rewrite Hpt; apply lookup_insert_eq|]. split_and!.
  - intros i Hi. rewrite Himg, Hptx, Z.add_0_l by lia. unfold image. rewrite C2.
    destruct (Z.ltb_spec i (s_size tx)); [|lia].
    by apply (placed_byte inp out (code h) tx).
  - intros dt i Hin Hi. pose proof (proj1 (Forall_forall _ _) Hpdt dt Hin) as Hp.
    assert (Hone : only data secs = [dt]).
    { destruct (only data secs) as [|d [|]]; [by apply elem_of_nil in Hin|by apply list_elem_of_singleton in Hin as ->|done]. }
    rewrite Hone in *. cbn [total foldr seg_inv] in *.
    destruct (only_wf_section _ _ _ _ Hwf Hone) as [Wdt Kdt].
    destruct (copied_section inp dt Wdt ltac:(auto)) as [_ Odt].
    rewrite Himg, Hp by lia. unfold image. rewrite C2, D2.
    destruct (Z.ltb_spec (s_size tx + i) (s_size tx)), (Z.ltb_spec (s_size tx + i) (s_size tx + (s_size dt + 0))); try lia.
    replace (s_size tx + i - s_size tx) with i by lia. by apply (placed_byte inp out (initData h) dt).
  - intros a Ha. rewrite Himg by lia. unfold image. rewrite C2, D2.
    destruct (Z.ltb_spec a (s_size tx)), (Z.ltb_spec a (s_size tx + total (only data secs))); try lia. done.
Qed.

(** A COFF file with 600 bytes of text, 8 of data, 16 of bss and an empty
    .rdata section. *)
Definition demo_name (s : string) : list Z := chars s ++ replicate (8 - String.length s) 0.

Definition demo_scnhdr (name : string) (paddr size scnptr : Z) : list Z :=
  demo_name name ++ words_to_bytes [paddr; paddr; size; scnptr; 0; 0; 0; 0].

Definition demo_coff : list Z :=
  le_split 2 MIPSELMAGIC ++ le_split 2 4 ++ replicate 16 0 ++
  le_split 2 OMAGIC ++ replicate 54 0 ++
  demo_scnhdr ".text" 0 600 236 ++ demo_scnhdr ".rdata" 0 0 0 ++
  demo_scnhdr ".data" 600 8 836 ++ demo_scnhdr ".bss" 608 16 0 ++
  replicate 600 170 ++ [1; 2; 3; 4; 5; 6; 7; 8].

Definition demo_sections : list scnhdr := sections_of 4 (bytes_at demo_coff 76 160).

Definition demo_text : scnhdr := mkScnhdr (demo_name ".text") 0 0 600 236 0 0 0 0 0.
Definition demo_data : scnhdr := mkScnhdr (demo_name ".data") 600 600 8 836 0 0 0 0 0.

(** A file of the shape of test/halt.coff: text, an empty .data and an empty .bss. *)
Definition halt_coff : list Z :=
  le_split 2 MIPSELMAGIC ++ le_split 2 3 ++ replicate 16 0 ++
  le_split 2 OMAGIC ++ replicate 54 0 ++
  demo_scnhdr ".text" 0 400 208 ++ demo_scnhdr ".data" 400 0 608 ++ demo_scnhdr ".bss" 400 0 0 ++
  replicate 12 0 ++ replicate 400 12.

Definition halt_sections : list scnhdr := sections_of 3 (bytes_at halt_coff 76 120).
Definition halt_text : scnhdr := mkScnhdr (demo_name ".text") 0 0 400 208 0 0 0 0 0.

(** The conditions of [wf_coff], evaluated. *)
Definition check_coff (inp : list Z) (secs : list scnhdr) : bool :=
  forallb (λ b, (0 <=? b) && (b <? 256)) inp &&
  forallb (λ s, (s_size s =? 0) || (0 <? s_size s) && (bss s || (text s || data s) &&
    (0 <=? s_scnptr s) && (s_scnptr s + s_size s <=? Z.of_nat (length inp)))) secs &&
  forallb (λ p, (length (only p secs) <=? 1)%nat) [text; data; bss].

Lemma check_coff_ok inp secs : check_coff inp secs = true →
  Forall byte inp ∧ Forall (wf_section inp) secs ∧ ∀ p, p ∈ [text; data; bss] → (length (only p secs) <= 1)%nat.
Proof.
  unfold check_coff. intros [[Hb Hs]%andb_true_iff Ho]%andb_true_iff. rewrite forallb_forall in Hb, Hs, Ho.
  split_and!.
  - apply Forall_forall. intros b Hin%list_elem_of_In%Hb. unfold byte. lia.
  - apply Forall_forall. intros s Hin%list_elem_of_In%Hs.
    unfold wf_section. destruct (text s), (data s), (bss s); cbn [orb andb] in Hin; lia.
  - intros p Hin%list_elem_of_In%Ho. by apply Nat.leb_le.
Qed.

Lemma demo_wf_coff : wf_coff demo_coff demo_sections.
Proof.
  destruct (check_coff_ok demo_coff demo_sections) as (H1 & H2 & H3); [vm_compute; reflexivity|].
  split; [exact H1| | | |exact H2|exact H3|]; try (vm_compute; reflexivity).
  split; [vm_compute; discriminate|reflexivity].
Qed.

Lemma halt_wf_coff : wf_coff halt_coff halt_sections.
Proof.
  destruct (check_coff_ok halt_coff halt_sections) as (H1 & H2 & H3); [vm_compute; reflexivity|].
  split; [exact H1| | | |exact H2|exact H3|]; try (vm_compute; reflexivity).
  split; [vm_compute; discriminate|reflexivity].
Qed.

Lemma executable_pipeline_witness :
  (∃ out sp m' b' t, coff2noff (mkNoff 7 (mkSegment 7 7 7) (mkSegment 7 7 7) (mkSegment 7 7 7)) demo_coff
      = Good out ∧
    AddrSpace_new (Some out) (mkSpace 0 0) demo_machine demo_bits = Ok (sp, m', b') ∧
    vbyte t m' 602 = Some 3) ∧
  (∃ out sp m' b' t, coff2noff (mkNoff 7 (mkSegment 7 7 7) (mkSegment 7 7 7) (mkSegment 7 7 7)) halt_coff
      = Good out ∧
    AddrSpace_new (Some out) (mkSpace 0 0) demo_machine demo_bits = Ok (sp, m', b') ∧
    vbyte t m' 399 = Some 12).
Proof.
  split.
  - destruct (executable_pipeline (B := BitMap) (mkNoff 7 (mkSegment 7 7 7) (mkSegment 7 7 7) (mkSegment 7 7 7))
      demo_coff demo_sections demo_wf_coff) as (out & H1 & H2).
    destruct (H2 demo_text (mkSpace 0 0) demo_machine demo_bits) as (sp & m' & b' & t & H3 & _ & _ & H4 & _).
    + vm_compute. reflexivity.
    + reflexivity.
    + assert (Hd : only data demo_sections = [demo_data]) by (vm_compute; reflexivity). rewrite Hd.
      repeat constructor.
    + exact demo_wf_mem.
    + exact (proj1 demo_bits_ok).
    + exact (proj2 demo_bits_ok).
    + vm_compute. discriminate.
    + exists out, sp, m', b', t. split; [exact H1|]. split; [exact H3|].
      assert (Hd : only data demo_sections = [demo_data]) by (vm_compute; reflexivity). rewrite Hd in H4.
      pose proof (H4 demo_data 2 ltac:(constructor) ltac:(vm_compute; split; congruence)) as H5. exact H5.
  - destruct (executable_pipeline (B := BitMap) (mkNoff 7 (mkSegment 7 7 7) (mkSegment 7 7 7) (mkSegment 7 7 7))
      halt_coff halt_sections halt_wf_coff) as (out & H1 & H2).
    destruct (H2 halt_text (mkSpace 0 0) demo_machine demo_bits) as (sp & m' & b' & t & H3 & _ & H4 & _).
    + vm_compute. reflexivity.
    + reflexivity.
    + assert (Hd : only data halt_sections = []) by (vm_compute; reflexivity). rewrite Hd. constructor.
    + exact demo_wf_mem.
    + exact (proj1 demo_bits_ok).
    + exact (proj2 demo_bits_ok).
    + vm_compute. discriminate.
    + exists out, sp, m', b', t. split; [exact H1|]. split; [exact H3|].
      pose proof (H4 399 ltac:(vm_compute; split; congruence)) as H5. exact H5.
Defined.

(** ** coff2flat *)

(** The sections coff2flat copies, and the end of the image they describe. *)
Definition copied (s : scnhdr) : bool := negb (is_name (s_name s) ".bss") && negb (is_name (s_name s) ".sbss").

Definition flat_bytes (inp : list Z) (l : list scnhdr) : list Z :=
  l ≫= λ s, if copied s then bytes_at inp (s_scnptr s) (s_size s) else [].

Definition flat_end (top : Z) (l : list scnhdr) : Z := foldl (λ t s, Z.max t (s_paddr s + s_size s)) top l.

Definition in_file (inp : list Z) (s : scnhdr) : Prop :=
  0 <= s_size s ∧ int32 (s_paddr s + s_size s) ∧ 0 <= s_scnptr s ∧
  (copied s = true → s_scnptr s + s_size s <= Z.of_nat (length inp)).

Lemma flatten_section_ok inp st s : in_file inp s →
  ∃ pos, flatten_section inp st s =
    Good (mkFlat pos (Z.max (fl_top st) (s_paddr s + s_size s)) (fl_out st ++ flat_bytes inp [s])).
Proof.
  intros (Hs & Hi & Hp & Hc). unfold flatten_section. fold (copied s). rewrite s32_id by done.
  assert (Ht : (if s_paddr s + s_size s >? fl_top st then s_paddr s + s_size s else fl_top st) =
    Z.max (fl_top st) (s_paddr s + s_size s)).
  { destruct (Z.gtb_spec (s_paddr s + s_size s) (fl_top st)); lia. }
  rewrite Ht. unfold flat_bytes. rewrite bind_singleton. destruct (copied s).
  - unfold lseek. destruct (Z.ltb_spec (s_scnptr s) 0); [lia|]. rewrite Read_ok by auto. by eexists.
  - rewrite app_nil_r. by eexists.
Qed.

(** The contents are written one after the other, whatever the addresses. *)
Lemma flatten_ok inp l : ∀ st, Forall (in_file inp) l →
  ∃ pos, each (flatten_section inp) st l =
    Good (mkFlat pos (flat_end (fl_top st) l) (fl_out st ++ flat_bytes inp l)).
Proof.
  induction l as [|s l IH]; intros st Hl; cbn [each].
  { exists (fl_pos st). cbn. rewrite app_nil_r. by destruct st. }
  apply Forall_cons in Hl as [Hs Hl]. destruct (flatten_section_ok inp st s Hs) as [p Hp].
  rewrite Hp. cbn [mbind conv_bind].
  destruct (IH (mkFlat p (Z.max (fl_top st) (s_paddr s + s_size s)) (fl_out st ++ flat_bytes inp [s])) Hl)
    as [pos Hpos]. exists pos. rewrite Hpos. cbn [fl_top fl_out flat_end foldl].
  unfold flat_bytes. rewrite !bind_cons, app_nil_r. by rewrite <- app_assoc.
Qed.
End CoffProofs.
