(* ===== verification/Stacks.v ===== *)
(** * c++example: the stacks of the C++ primer

    The abstract class Stack of inheritstack.h is a type class of operations
    with laws; ArrayStack (an array and an index) and ListStack (a linked list
    of heap cells, c++example/list.cc) are its instances.  Stack::SelfTest and
    the comparison of the two are proved against the interface.  The class of
    stack.cc and the template of templatestack.cc are the array code at other
    element types. *)

From Stdlib Require Import ZArith Lia Bool.
From S2P Require Import Prelude.

Local Open Scope Z_scope.

(** ** The interface: class Stack of inheritstack.h *)

Class Stack (S : Type) := {
  Push : S → Z → outcome S;
  Pop : S → outcome (Z * S);
  Full : S → bool;
  Empty : S → bool;
}.

(** What a stack promises: [st_rep s l], the stack holds the sequence [l], the
    top first; [st_room] is how many values it can hold, if there is a bound. *)
Class StackLaws (S : Type) `{Stack S} := {
  st_rep : S → list Z → Prop;
  st_room : S → option Z;
  st_Push s l v : st_rep s l → Full s = false →
    ∃ s', Push s v = Ok s' ∧ st_rep s' (v :: l) ∧ st_room s' = st_room s;
  st_Pop s l : st_rep s l →
    match l with
    | [] => Pop s = Aborted
    | v :: l => ∃ s', Pop s = Ok (v, s') ∧ st_rep s' l ∧ st_room s' = st_room s
    end;
  st_Empty s l : st_rep s l → Empty s = bool_decide (l = []);
  st_Full s l : st_rep s l →
    Full s = match st_room s with
             | Some n => Z.of_nat (length l) =? n
             | None => false
             end;
}.

(** ** An array and an index: templatestack.cc *)

Module Template.
Section Template.
Context {T : Type}.

Record StackT := mkStackT { size : Z; top : Z; stack : list T }.

(** Stack<T>::Stack; [garbage] is the content of the new array. *)
Definition StackT_new (garbage : T) (sz : Z) : outcome StackT :=
  _ ← ASSERT (sz >=? 1);
  Ok (mkStackT sz 0 (replicate (Z.to_nat sz) garbage)).

Definition FullT (s : StackT) : bool := top s =? size s.
Definition EmptyT (s : StackT) : bool := top s =? 0.

(** stack[top++] = value *)
Definition PushT (s : StackT) (value : T) : outcome StackT :=
  _ ← ASSERT (negb (FullT s));
  a ← aset (stack s) (top s) value;
  Ok (mkStackT (size s) (top s + 1) a).

(** return (stack[--top]) *)
Definition PopT (s : StackT) : outcome (T * StackT) :=
  _ ← ASSERT (negb (EmptyT s));
  v ← aget (stack s) (top s - 1);
  Ok (v, mkStackT (size s) (top s - 1) (stack s)).

Record okT (s : StackT) : Prop := {
  ok_size : Z.of_nat (length (stack s)) = size s;
  ok_top : 0 <= top s <= size s;
}.

Definition contentsT (s : StackT) : list T := reverse (take (Z.to_nat (top s)) (stack s)).

Lemma contentsT_length s : okT s → Z.of_nat (length (contentsT s)) = top s.
Proof. intros [Hs Ht]. unfold contentsT. rewrite length_reverse, length_take. lia. Qed.

Lemma PushT_ok s v : okT s → FullT s = false →
  ∃ s', PushT s v = Ok s' ∧ okT s' ∧ contentsT s' = v :: contentsT s ∧ size s' = size s.
Proof.
  intros [Hs Ht] Hf. unfold PushT. rewrite Hf. unfold FullT in Hf. apply Z.eqb_neq in Hf.
  cbn [negb ASSERT mbind outcome_bind]. rewrite aset_in_range by lia.
  eexists. split; [done|]. split_and!; try done.
  - split; cbn [stack size top]; [by rewrite length_insert|lia].
  - unfold contentsT; cbn [stack top].
    replace (Z.to_nat (top s + 1)) with (S (Z.to_nat (top s))) by lia.
    erewrite take_S_r by (apply list_lookup_insert_eq; lia).
    by rewrite take_insert_ge, reverse_snoc by lia.
Qed.

Lemma PopT_ok s : okT s →
  match contentsT s with
  | [] => PopT s = Aborted
  | v :: l => ∃ s', PopT s = Ok (v, s') ∧ okT s' ∧ contentsT s' = l ∧ size s' = size s
  end.
Proof.
  intros Hok. pose proof (contentsT_length s Hok) as Hl. destruct Hok as [Hs Ht].
  unfold PopT, EmptyT. destruct (Z.eqb_spec (top s) 0) as [E|E].
  { destruct (contentsT s); [done|simpl in Hl; lia]. }
  cbn [negb ASSERT mbind outcome_bind].
  destruct (aget_in_range (stack s) (top s - 1)) as (x & -> & Hx); [lia|]. cbn [mbind outcome_bind].
  unfold contentsT. replace (Z.to_nat (top s)) with (S (Z.to_nat (top s - 1))) by lia.
  rewrite (take_S_r _ _ x) by done. rewrite reverse_snoc.
  eexists. split; [done|]. split_and!; try done. split; cbn [stack size top]; [done|lia].
Qed.
End Template.
Arguments StackT T : clear implicits.
End Template.

(** ** ArrayStack *)

Module ArrayStack.
Import Template.

Definition ArrayStack : Type := StackT Z.

Definition ArrayStack_new (garbage sz : Z) : outcome ArrayStack := StackT_new garbage sz.

#[export] Instance ArrayStack_Stack : Stack ArrayStack := {
  Push := PushT;
  Pop := PopT;
  Full := FullT;
  Empty := EmptyT;
}.

#[export] Program Instance ArrayStack_laws : StackLaws ArrayStack := {
  st_rep s l := okT s ∧ contentsT s = l;
  st_room s := Some (size s);
}.
Next Obligation.
  intros s l v [Hok <-] Hf. destruct (PushT_ok s v Hok Hf) as (s' & H1 & H2 & H3 & H4).
  exists s'. by rewrite H4.
Qed.
Next Obligation.
  intros s l [Hok <-]. pose proof (PopT_ok s Hok) as H. destruct (contentsT s); [done|].
  destruct H as (s' & H1 & H2 & H3 & H4). exists s'. by rewrite H4.
Qed.
Next Obligation.
  intros s l [Hok <-]. pose proof (contentsT_length s Hok) as Hl. cbn. unfold EmptyT.
  destruct (contentsT s); simpl in Hl; case_bool_decide; try done;
    destruct (Z.eqb_spec (top s) 0); try done; lia.
Qed.
Next Obligation. intros s l [Hok <-]. cbn. by rewrite contentsT_length. Qed.

Lemma ArrayStack_new_ok garbage sz : 1 <= sz →
  ∃ s, ArrayStack_new garbage sz = Ok s ∧ st_rep s [] ∧ st_room s = Some sz.
Proof.
  intros Hsz. unfold ArrayStack_new, StackT_new. destruct (Z.geb_spec sz 1); [|lia].
  eexists. split; [done|]. split; [|done]. split; [|done].
  split; cbn [stack size top]; [rewrite length_replicate; lia|lia].
Qed.
End ArrayStack.

(** ** ListStack on c++example/list.cc *)

Module ListStack.

Record ListElement := mkElement { next : option Z; item : Z }.

(** class List, with the heap its elements live in. *)
Record LList := mkLList { first : option Z; last : option Z; heap : gmap Z ListElement }.

Definition List_new : LList := mkLList None None ∅.

Definition List_Empty (l : LList) : bool := bool_decide (first l = None).

Definition Prepend (l : LList) (value : Z) : LList :=
  let element := fresh (dom (heap l)) in
  let h := <[element := mkElement None value]> (heap l) in
  if List_Empty l then mkLList (Some element) (Some element) h
  else mkLList (Some element) (last l) (<[element := mkElement (first l) value]> h).

Definition Remove (l : LList) : outcome (Z * LList) :=
  _ ← ASSERT (negb (List_Empty l));
  match first l with
  | None => Undef
  | Some element =>
      match heap l !! element with
      | None => Undef
      | Some e =>
          let '(f, la) := if bool_decide (first l = last l) then (None, None) else (next e, last l) in
          Ok (item e, mkLList f la (delete element (heap l)))
      end
  end.

(** List::~List: Remove() until the list is empty. *)
Fixpoint List_delete (fuel : nat) (l : LList) : outcome LList :=
  match fuel with
  | O => NoFuel
  | S fuel => if List_Empty l then Ok l else '(_, l) ← Remove l; List_delete fuel l
  end.

#[export] Instance ListStack_Stack : Stack LList := {
  Push s value := Ok (Prepend s value);
  Pop s := _ ← ASSERT (negb (List_Empty s)); Remove s;
  Full _ := false;
  Empty := List_Empty;
}.

(** The list is the cells at [addrs], linked in order, and the heap has no
    other cell. *)
Record linked (l : LList) (addrs items : list Z) : Prop := {
  lk_first : first l = head addrs;
  lk_last : last l = list.last addrs;
  lk_nodup : NoDup addrs;
  lk_length : length addrs = length items;
  lk_cells : ∀ i a, addrs !! i = Some a →
    ∃ x, items !! i = Some x ∧ heap l !! a = Some (mkElement (addrs !! S i) x);
  lk_dom : ∀ a, is_Some (heap l !! a) → a ∈ addrs;
}.

Lemma linked_new : linked List_new [] [].
Proof.
  split; try done; [apply NoDup_nil_2|]. intros a [x Hx]. cbn in Hx. by rewrite lookup_empty in Hx.
Qed.

Lemma linked_Empty l addrs items : linked l addrs items → List_Empty l = bool_decide (items = []).
Proof.
  intros [Hf _ _ Hl _ _]. unfold List_Empty. rewrite Hf.
  destruct addrs, items; simpl in *; try done; by repeat case_bool_decide.
Qed.

Lemma linked_Prepend l addrs items v : linked l addrs items →
  ∃ a, linked (Prepend l v) (a :: addrs) (v :: items).
Proof.
  intros [Hf Hla Hnd Hl Hc Hd]. set (a := fresh (dom (heap l))). exists a.
  assert (Ha : heap l !! a = None) by (apply not_elem_of_dom, is_fresh).
  assert (Hna : a ∉ addrs).
  { intros [i Hi]%list_elem_of_lookup. destruct (Hc i a Hi) as (x & _ & Hx). congruence. }
  assert (Hfst : first (Prepend l v) = Some a ∧ last (Prepend l v) = list.last (a :: addrs) ∧
    heap (Prepend l v) = <[a := mkElement (head addrs) v]> (heap l)).
  { unfold Prepend, List_Empty. fold a. rewrite Hf, Hla. destruct addrs as [|b addrs]; simpl; [done|].
    by rewrite insert_insert_eq. }
  destruct Hfst as (H1 & H2 & H3).
  split; [done|done|by apply NoDup_cons|simpl; lia| |].
  - intros [|i] b Hb; simpl in Hb.
    + injection Hb as <-. exists v. split; [done|]. rewrite H3, lookup_insert_eq. by destruct addrs.
    + destruct (Hc i b Hb) as (x & Hx & Hh). exists x. split; [done|]. rewrite H3, lookup_insert_ne; [done|].
      intros ->. apply Hna. by eapply list_elem_of_lookup_2.
  - intros b Hb. rewrite H3 in Hb. apply lookup_insert_is_Some' in Hb as [<-|Hb]; [by left|].
    right. by apply Hd.
Qed.

Lemma linked_Remove l a addrs v items : linked l (a :: addrs) (v :: items) →
  ∃ l', Remove l = Ok (v, l') ∧ linked l' addrs items.
Proof.
  intros [Hf Hla Hnd Hl Hc Hd]. destruct (Hc 0%nat a eq_refl) as (x & Hx & Hh).
  simpl in Hx, Hh. injection Hx as <-. apply NoDup_cons in Hnd as [Hna Hnd].
  unfold Remove, List_Empty. rewrite Hf, Hla. change (head (a :: addrs)) with (Some a).
  rewrite (bool_decide_eq_false_2 (Some a = None)) by done. cbn [negb ASSERT mbind outcome_bind]. rewrite Hh.
  assert (Hcells : ∀ i b, addrs !! i = Some b → ∃ x, items !! i = Some x ∧
    delete a (heap l) !! b = Some (mkElement (addrs !! S i) x)).
  { intros i b Hb. destruct (Hc (S i) b Hb) as (x & Hx & Hxh). exists x. split; [done|].
    rewrite lookup_delete_ne; [done|]. intros ->. apply Hna. by eapply list_elem_of_lookup_2. }
  assert (Hdom : ∀ b, is_Some (delete a (heap l) !! b) → b ∈ addrs).
  { intros b [y Hy]. apply lookup_delete_Some in Hy as [Hne Hy].
    assert (Hin : b ∈ a :: addrs) by (apply Hd; by eexists). apply elem_of_cons in Hin as [->|Hin]; done. }
  destruct addrs as [|b addrs].
  - rewrite bool_decide_eq_true_2 by done. eexists. split; [done|].
    split; try done. simpl in *. lia.
  - rewrite bool_decide_eq_false_2.
    + eexists. split; [done|]. split; try done. simpl in *. lia.
    + intros E. apply Hna. rewrite last_cons_cons in E. symmetry in E.
      by apply last_Some_elem_of.
Qed.

#[export] Program Instance ListStack_laws : StackLaws LList := {
  st_rep s l := ∃ addrs, linked s addrs l;
  st_room s := None;
}.
Next Obligation.
  intros s l v [addrs Hs] _. destruct (linked_Prepend s addrs l v Hs) as [a Ha].
  exists (Prepend s v). split; [done|]. split; [by eexists|done].
Qed.
Next Obligation.
  intros s l [addrs Hs]. cbn. rewrite (linked_Empty s addrs l Hs).
  destruct l as [|v l]; [done|]. destruct addrs as [|a addrs]; [by destruct Hs|].
  destruct (linked_Remove s a addrs v l Hs) as (s' & H1 & H2).
  exists s'. split; [done|]. split; [by eexists|done].
Qed.
Next Obligation. intros s l [addrs Hs]. by apply (linked_Empty s addrs). Qed.
Next Obligation. done. Qed.

Lemma List_new_ok : st_rep List_new [].
Proof. exists []. apply linked_new. Qed.

(** The destructor frees every cell, whatever is on the list. *)
Lemma List_delete_ok items : ∀ l addrs fuel,
  linked l addrs items → (length items < fuel)%nat →
  ∃ l', List_delete fuel l = Ok l' ∧ heap l' = ∅.
Proof.
  induction items as [|v items IH]; intros l addrs [|fuel] Hl Hf; try (simpl in Hf; lia);
    cbn [List_delete]; rewrite (linked_Empty l addrs _ Hl); destruct addrs as [|a addrs];
    try (destruct Hl; done).
  - exists l. split; [done|]. destruct Hl as [_ _ _ _ _ Hd]. apply map_empty. intros a.
    destruct (heap l !! a) eqn:E; [|done]. assert (Hin : a ∈ []) by (apply Hd; by eexists). set_solver.
  - destruct (linked_Remove l a addrs v items Hl) as (l' & -> & Hl'). cbn [mbind outcome_bind bool_decide].
    apply (IH l' addrs); [done|simpl in Hf; lia].
Qed.
End ListStack.

(** ** Stack::SelfTest *)

Inductive message := pushing (v : Z) | popping (v : Z).

Section SelfTest.
Context {S : Type} `{StackLaws S}.

(** for (i = 0; i < numToPush; i++) { ASSERT(!Full()); ... Push(count++); } *)
Fixpoint push_loop (n : nat) (count : Z) (s : S) (out : list message) : outcome (S * list message) :=
  match n with
  | O => Ok (s, out)
  | Datatypes.S n =>
      _ ← ASSERT (negb (Full s));
      s ← Push s count;
      push_loop n (s32 (count + 1)) s (out ++ [pushing count])
  end.

(** while (!Empty()) ... Pop() *)
Fixpoint pop_loop (fuel : nat) (s : S) (out : list message) : outcome (S * list message) :=
  match fuel with
  | O => NoFuel
  | Datatypes.S fuel =>
      if negb (Empty s) then
        '(v, s) ← Pop s;
        pop_loop fuel s (out ++ [popping v])
      else Ok (s, out)
  end.

Definition SelfTest (fuel : nat) (numToPush : Z) (s : S) : outcome (S * list message) :=
  '(s, out) ← push_loop (Z.to_nat numToPush) 17 s [];
  pop_loop fuel s out.

Lemma push_loop_ok n : ∀ count s l out,
  st_rep s l → int32 count → count + Z.of_nat n < 2 ^ 31 →
  match st_room s with Some r => Z.of_nat (length l + n) <= r | None => True end →
  ∃ s', push_loop n count s out = Ok (s', out ++ (pushing <$> seqZ count (Z.of_nat n))) ∧
    st_rep s' (reverse (seqZ count (Z.of_nat n)) ++ l).
Proof.
  induction n as [|n IH]; intros count s l out Hs Hc Hn Hr.
  { exists s. cbn. by rewrite app_nil_r. }
  assert (Hf : Full s = false).
  { rewrite (st_Full s l Hs). destruct (st_room s) as [r|]; [|done]. apply Z.eqb_neq. lia. }
  cbn [push_loop]. rewrite Hf. cbn [negb ASSERT mbind outcome_bind].
  destruct (st_Push s l count Hs Hf) as (s1 & -> & Hs1 & Hr1). cbn [mbind outcome_bind].
  rewrite s32_id by (unfold int32 in *; lia).
  destruct (IH (count + 1) s1 (count :: l) (out ++ [pushing count])) as (s2 & -> & Hs2);
    [done|unfold int32 in *; lia|lia| |].
  { rewrite Hr1. destruct (st_room s); [|done]. simpl length. lia. }
  exists s2. rewrite (seqZ_cons count (Z.of_nat (Datatypes.S n))) by lia.
  replace (Z.pred (Z.of_nat (Datatypes.S n))) with (Z.of_nat n) by lia. change (Z.succ count) with (count + 1).
  rewrite fmap_cons, <- app_assoc, reverse_cons, <- app_assoc. done.
Qed.

Lemma pop_loop_ok l : ∀ s out fuel, st_rep s l → (length l < fuel)%nat →
  ∃ s', pop_loop fuel s out = Ok (s', out ++ (popping <$> l)) ∧ st_rep s' [].
Proof.
  induction l as [|v l IH]; intros s out [|fuel] Hs Hf; try (simpl in Hf; lia); cbn [pop_loop];
    rewrite (st_Empty s _ Hs); cbn [bool_decide negb].
  { exists s. by rewrite app_nil_r. }
  pose proof (st_Pop s _ Hs) as (s1 & -> & Hs1 & _). cbn [mbind outcome_bind negb].
  destruct (IH s1 (out ++ [popping v]) fuel Hs1) as (s2 & E & Hs2); [simpl in Hf; lia|].
  exists s2. rewrite fmap_cons. rewrite E, <- app_assoc. done.
Qed.
End SelfTest.


(** SelfTest prints the numbers it pushes, then the same ones in the opposite
    order, on any stack with room for them. *)
Lemma SelfTest_ok {S} `{StackLaws S} (s : S) n fuel :
  st_rep s [] → 0 <= n < 2 ^ 30 → (Z.to_nat n < fuel)%nat →
  match st_room s with Some r => n <= r | None => True end →
  ∃ s', SelfTest fuel n s = Ok (s', (pushing <$> seqZ 17 n) ++ (popping <$> reverse (seqZ 17 n))) ∧
    st_rep s' [].
Proof.
  intros Hs Hn Hf Hr. unfold SelfTest.
  destruct (push_loop_ok (Z.to_nat n) 17 s [] [] Hs) as (s1 & -> & Hs1);
    [unfold int32; lia|lia| |].
  { destruct (st_room s); [|done]. simpl. lia. }
  rewrite Z2Nat.id in * by lia. rewrite app_nil_r in Hs1. cbn [mbind outcome_bind app].
  apply pop_loop_ok; [done|]. rewrite length_reverse, length_seqZ. lia.
Qed.

(** ** The two implementations behind one interface *)

Inductive op := DoPush (v : Z) | DoPop | AskEmpty.
Inductive obs := Pushed | Popped (v : Z) | IsEmpty (b : bool).

(** What a client sees of a sequence of calls; Pop on an empty stack fails an
    assertion and ends the program. *)
Fixpoint run {S} `{Stack S} (ops : list op) (s : S) : outcome (list obs) :=
  match ops with
  | [] => Ok []
  | DoPush v :: ops => s ← Push s v; r ← run ops s; Ok (Pushed :: r)
  | DoPop :: ops => '(v, s) ← Pop s; r ← run ops s; Ok (Popped v :: r)
  | AskEmpty :: ops => r ← run ops s; Ok (IsEmpty (Empty s) :: r)
  end.

(** The same calls on a mathematical sequence. *)
Fixpoint reference (ops : list op) (l : list Z) : outcome (list obs) :=
  match ops with
  | [] => Ok []
  | DoPush v :: ops => r ← reference ops (v :: l); Ok (Pushed :: r)
  | DoPop :: ops => match l with [] => Aborted | v :: l => r ← reference ops l; Ok (Popped v :: r) end
  | AskEmpty :: ops => r ← reference ops l; Ok (IsEmpty (bool_decide (l = [])) :: r)
  end.

(** The stack never holds more than [sz] values, [d] of which are there now. *)
Fixpoint fits (sz : Z) (d : nat) (ops : list op) : bool :=
  match ops with
  | [] => true
  | DoPush _ :: ops => (Z.of_nat d <? sz) && fits sz (S d) ops
  | DoPop :: ops => match d with O => true | S d => fits sz d ops end
  | AskEmpty :: ops => fits sz d ops
  end.

Lemma run_reference {S} `{StackLaws S} ops : ∀ (s : S) l,
  st_rep s l → match st_room s with Some r => fits r (length l) ops = true | None => True end →
  run ops s = reference ops l.
Proof.
  induction ops as [|[v| |] ops IH]; intros s l Hs Hr; cbn [run reference fits] in *; [done|..].
  - assert (Hf : Full s = false).
    { rewrite (st_Full s l Hs). destruct (st_room s); [|done].
      apply andb_true_iff in Hr as [Hlt%Z.ltb_lt _]. apply Z.eqb_neq. lia. }
    destruct (st_Push s l v Hs Hf) as (s' & -> & Hs' & Hr'). cbn [mbind outcome_bind].
    rewrite (IH s' (v :: l)); [done|done|]. rewrite Hr'. destruct (st_room s); [|done].
    by apply andb_true_iff in Hr as [_ Hr].
  - pose proof (st_Pop s l Hs) as Hp. destruct l as [|v l]; [by rewrite Hp|].
    destruct Hp as (s' & -> & Hs' & Hr'). cbn [mbind outcome_bind].
    rewrite (IH s' l); [done|done|]. by rewrite Hr'.
  - rewrite (IH s l), (st_Empty s l) by done. done.
Qed.

Import ArrayStack ListStack.

(** ArrayStack and ListStack are the same to a client: every sequence of calls
    on a new ArrayStack that does not overflow it gives the results of the same
    calls on a new ListStack, the failed assertion of a Pop too many included,
    and both give those of a mathematical sequence. *)
Theorem stacks_equivalent garbage sz ops s :
  ArrayStack.ArrayStack_new garbage sz = Ok s → fits sz 0 ops = true →
  run ops s = run ops ListStack.List_new ∧ run ops s = reference ops [].
Proof.
  intros Hnew Hfit. assert (Hsz : 1 <= sz).
  { unfold ArrayStack.ArrayStack_new, Template.StackT_new in Hnew.
    destruct (Z.geb_spec sz 1); [done|]. discriminate. }
  destruct (ArrayStack.ArrayStack_new_ok garbage sz Hsz) as (s' & Hs' & Hrep & Hroom).
  rewrite Hnew in Hs'. injection Hs' as <-.
  rewrite (run_reference ops s []) by (try rewrite Hroom; done).
  by rewrite (run_reference ops ListStack.List_new [] ListStack.List_new_ok).
Qed.

Lemma stacks_equivalent_witness :
  ∃ s, ArrayStack.ArrayStack_new 99 2 = Ok s ∧
    run [DoPush 5; DoPush 6; DoPop; AskEmpty; DoPush 7; DoPop; DoPop; AskEmpty] s =
    run [DoPush 5; DoPush 6; DoPop; AskEmpty; DoPush 7; DoPop; DoPop; AskEmpty] ListStack.List_new.
Proof.
  destruct (ArrayStack.ArrayStack_new 99 2) as [s| | | |] eqn:E; try discriminate E.
  exists s. split; [reflexivity|]. apply (stacks_equivalent 99 2 _ s E). reflexivity.
Defined.

(** ** stack.cc and the test of templatestack.cc

    The class of stack.cc is the template at int, declared by itself; both
    programs fill a stack of ten places and empty it again. *)

Module FillTest.
Import Template.

Section FillTest.
Context {T : Type} (next : T → T).

(** What the test prints: [inl v] is "pushing v", [inr v] "popping v". *)
Definition printed : Type := list (T + T).

(** while (!Full()) { ...; Push(count++); } *)
Fixpoint fill_loop (fuel : nat) (count : T) (s : StackT T) (out : printed) : outcome (StackT T * printed) :=
  match fuel with
  | O => NoFuel
  | S fuel =>
      if negb (FullT s) then s ← PushT s count; fill_loop fuel (next count) s (out ++ [inl count])
      else Ok (s, out)
  end.

(** while (!Empty()) ... Pop() *)
Fixpoint drain_loop (fuel : nat) (s : StackT T) (out : printed) : outcome (StackT T * printed) :=
  match fuel with
  | O => NoFuel
  | S fuel =>
      if negb (EmptyT s) then '(v, s) ← PopT s; drain_loop fuel s (out ++ [inr v])
      else Ok (s, out)
  end.

(** Stack<T>::SelfTest(start); the fuel is the capacity and one for the last test. *)
Definition SelfTestT (start : T) (s : StackT T) : outcome (StackT T * printed) :=
  let fuel := S (Z.to_nat (size s)) in
  '(s, out) ← fill_loop fuel start s [];
  drain_loop fuel s out.

(** start, next start, ... *)
Fixpoint counts (n : nat) (start : T) : list T :=
  match n with O => [] | S n => start :: counts n (next start) end.

Lemma length_counts n : ∀ x, length (counts n x) = n.
Proof. induction n as [|n IH]; intros x; simpl; [done|by rewrite IH]. Qed.

Lemma fill_loop_ok n : ∀ fuel count s out, okT s → size s - top s = Z.of_nat n → (n < fuel)%nat →
  ∃ s', fill_loop fuel count s out = Ok (s', out ++ (inl <$> counts n count)) ∧ okT s' ∧ size s' = size s ∧
    contentsT s' = reverse (counts n count) ++ contentsT s.
Proof.
  induction n as [|n IH]; intros [|fuel] count s out Hok Hn Hf; try lia; cbn [fill_loop]; unfold FullT at 1.
  { destruct (Z.eqb_spec (top s) (size s)); [|lia]. exists s. by rewrite app_nil_r. }
  destruct (Z.eqb_spec (top s) (size s)) as [|Hne]; [lia|]. cbn [negb].
  destruct (PushT_ok s count Hok) as (s1 & -> & Hok1 & Hc1 & Hs1); [by apply Z.eqb_neq|]. cbn [mbind outcome_bind].
  pose proof (contentsT_length s Hok) as L0. pose proof (contentsT_length s1 Hok1) as L1. rewrite Hc1 in L1. simpl in L1.
  destruct (IH fuel (next count) s1 (out ++ [inl count])) as (s2 & -> & Hok2 & Hs2 & Hc2); [done|lia|lia|].
  exists s2. cbn [counts]. rewrite fmap_cons, <- app_assoc, reverse_cons, <- app_assoc. split_and!; try done; [lia|].
  by rewrite Hc2, Hc1.
Qed.

Lemma drain_loop_ok l : ∀ fuel s out, okT s → contentsT s = l → (length l < fuel)%nat →
  ∃ s', drain_loop fuel s out = Ok (s', out ++ (inr <$> l)) ∧ contentsT s' = [].
Proof.
  induction l as [|v l IH]; intros [|fuel] s out Hok Hc Hf; try (simpl in Hf; lia); cbn [drain_loop]; unfold EmptyT at 1;
    pose proof (contentsT_length s Hok) as L; rewrite Hc in L; simpl in L; (destruct (Z.eqb_spec (top s) 0); [try lia|try lia]); cbn [negb].
  { exists s. by rewrite app_nil_r. }
  pose proof (PopT_ok s Hok) as Hp. rewrite Hc in Hp. destruct Hp as (s1 & -> & Hok1 & Hc1 & _). cbn [mbind outcome_bind].
  destruct (IH fuel s1 (out ++ [inr v]) Hok1 Hc1) as (s2 & -> & Hs2); [simpl in Hf; lia|]. exists s2.
  by rewrite fmap_cons, <- app_assoc.
Qed.

(** The test terminates without a failed assertion: it prints as many values as
    the stack holds, and then the same ones in the opposite order. *)
Theorem SelfTestT_ok garbage start n : 1 <= n →
  ∃ s s', StackT_new garbage n = Ok s ∧ contentsT s' = [] ∧
    SelfTestT start s = Ok (s', (inl <$> counts (Z.to_nat n) start) ++ (inr <$> reverse (counts (Z.to_nat n) start))).
Proof.
  intros Hn. unfold StackT_new. destruct (Z.geb_spec n 1); [|lia].
  set (s := mkStackT n 0 (replicate (Z.to_nat n) garbage)). assert (Hok : okT s) by (split; cbn; [rewrite length_replicate; lia|lia]).
  destruct (fill_loop_ok (Z.to_nat n) (S (Z.to_nat n)) start s [] Hok) as (s1 & H1 & Hok1 & _ & Hc1); [cbn; lia|lia|]. change (contentsT s) with (@nil T) in Hc1. rewrite app_nil_r in Hc1.
  destruct (drain_loop_ok _ (S (Z.to_nat n)) s1 (inl <$> counts (Z.to_nat n) start) Hok1 Hc1) as (s2 & H2 & H3).
  { rewrite length_reverse, length_counts. lia. }
  exists s, s2. split; [reflexivity|]. split; [exact H3|]. unfold SelfTestT. cbn [size s]. rewrite H1. exact H2.
Qed.
End FillTest.

(** stack.cc: count is an int. *)
Definition next_int (v : Z) : Z := s32 (v + 1).

Definition IntStack : Type := StackT Z.
Definition IntStack_new (garbage sz : Z) : outcome IntStack := StackT_new garbage sz.
Definition IntStack_Push (s : IntStack) (value : Z) : outcome IntStack := PushT s value.
Definition IntStack_Pop (s : IntStack) : outcome (Z * IntStack) := PopT s.
Definition IntStack_Full (s : IntStack) : bool := FullT s.
Definition IntStack_Empty (s : IntStack) : bool := EmptyT s.
Definition IntStack_SelfTest (s : IntStack) : outcome (IntStack * list (Z + Z)) := SelfTestT next_int 17 s.

Definition stack_main (garbage : Z) : outcome (list (Z + Z)) :=
  s ← IntStack_new garbage 10;
  '(_, out) ← IntStack_SelfTest s;
  Ok out.

(** templatestack.cc: a stack of ints from 17 and one of chars from 'a'. *)
Definition next_char (c : Z) : Z := (c + 2 ^ 7 + 1) mod 2 ^ 8 - 2 ^ 7.

Definition templatestack_main (garbage1 garbage2 : Z) : outcome (list (Z + Z) * list (Z + Z)) :=
  s1 ← StackT_new garbage1 10;
  s2 ← StackT_new garbage2 10;
  '(_, out1) ← SelfTestT next_int 17 s1;
  '(_, out2) ← SelfTestT next_char 97 s2;
  Ok (out1, out2).

Theorem stack_main_prints g : stack_main g = Ok ((inl <$> seqZ 17 10) ++ (inr <$> reverse (seqZ 17 10))).
Proof.
  unfold stack_main, IntStack_new, IntStack_SelfTest. destruct (SelfTestT_ok next_int g 17 10) as (s & s' & -> & _ & H); [lia|]. cbn [mbind outcome_bind].
  rewrite H. reflexivity.
Qed.

Theorem templatestack_main_prints g1 g2 : ∃ out1 out2, templatestack_main g1 g2 = Ok (out1, out2) ∧
  stack_main g1 = Ok out1 ∧ out2 = (inl <$> seqZ 97 10) ++ (inr <$> reverse (seqZ 97 10)).
Proof.
  rewrite stack_main_prints. unfold templatestack_main. destruct (SelfTestT_ok next_int g1 17 10) as (s1 & s1' & -> & _ & H1); [lia|].
  destruct (SelfTestT_ok next_char g2 97 10) as (s2 & s2' & -> & _ & H2); [lia|]. cbn [mbind outcome_bind].
  rewrite H1. cbn [mbind outcome_bind]. rewrite H2. cbn [mbind outcome_bind]. eexists _, _. by split_and!.
Qed.
End FillTest.
