(* ===== verification/FsTest.v ===== *)
(** * filesys/fstest.cc: copying files in, printing them, the performance test

    Copy moves a UNIX file into the Nachos file system and Print shows a Nachos
    file, both in chunks of ten bytes; they are the -cp and -p commands of the
    kernel.  PerformanceTest writes, reads and removes a large file.  The
    routines run on the file system of FileSys; what they print is returned.
    The theorems compose with the contract of FileSysSpec. *)

From Stdlib Require Import ZArith Lia Bool.
From S2P Require Import Prelude Bytes Bitmap Storage FileHdr OpenFile Directory FileSys FileSysProofs FileSysSpec.

Local Open Scope Z_scope.

Module FsTest.

Definition TransferSize : Z := 10.

(** The messages of the routines. *)
Inductive message :=
| Copy_no_input
| Copy_no_output
| Print_no_file
| Perf_no_create
| Perf_no_open
| Perf_no_write
| Perf_no_read
| Perf_no_remove.

Section FsTest.
Context {D : Type} `{SectorStore D} `{!Uninit}.
Context (fileSystem : FileSystem).

(** while ((amountRead = fread(buffer, sizeof(char), TransferSize, fp)) > 0)
        openFile->Write(buffer, amountRead); *)
Fixpoint copy_loop (fuel : nat) (openFile : OpenFile) (fp : list Z) : ST D unit :=
  match fuel with
  | O => st_lift NoFuel
  | S fuel =>
      let buffer := take (Z.to_nat TransferSize) fp in
      let amountRead := Z.of_nat (length buffer) in
      if amountRead >? 0 then
        '(_, openFile) ← Write openFile buffer amountRead;
        copy_loop fuel openFile (drop (Z.to_nat TransferSize) fp)
      else mret ()
  end.

(** Copy(from, to); [from] is the contents of the UNIX file, None when fopen
    fails.  The type field of the opened file is left as it is by Open. *)
Definition Copy (from : option (list Z)) (to : list Z) (garbage_type : Z) : ST D (option message) :=
  match from with
  | None => mret (Some Copy_no_input)
  | Some fp =>
      let fileLength := Z.of_nat (length fp) in
      made ← Create fileSystem to fileLength;
      if negb made then mret (Some Copy_no_output)
      else
        o ← Open fileSystem to garbage_type;
        match o with
        | None => st_lift Aborted
        | Some openFile => _ ← copy_loop (S (length fp)) openFile fp; mret None
        end
  end.

(** while ((amountRead = openFile->Read(buffer, TransferSize)) > 0) printf(...) *)
Fixpoint print_loop (fuel : nat) (openFile : OpenFile) (out : list Z) : ST D (list Z) :=
  match fuel with
  | O => st_lift NoFuel
  | S fuel =>
      '(buffer, openFile) ← Read openFile TransferSize;
      if Z.of_nat (length buffer) >? 0 then print_loop fuel openFile (out ++ buffer)
      else mret out
  end.

Definition Print (fuel : nat) (name : list Z) (garbage_type : Z) : ST D (message + list Z) :=
  o ← Open fileSystem name garbage_type;
  match o with
  | None => mret (inl Print_no_file)
  | Some openFile => out ← print_loop fuel openFile []; mret (inr out)
  end.

(** ** The performance test *)

(** "TestFile" and "1234567890" *)
Definition FileName : list Z := [84; 101; 115; 116; 70; 105; 108; 101].
Definition Contents : list Z := [49; 50; 51; 52; 53; 54; 55; 56; 57; 48].
Definition ContentSize : Z := Z.of_nat (length Contents).
Definition FileSize : Z := ContentSize * 5000.

(** for (i = 0; i < FileSize; i += ContentSize): [n] iterations are left. *)
Fixpoint write_loop (n : nat) (openFile : OpenFile) : ST D (list message) :=
  match n with
  | O => mret []
  | S n =>
      '(numBytes, openFile) ← Write openFile Contents ContentSize;
      if numBytes <? 10 then mret [Perf_no_write] else write_loop n openFile
  end.

Definition FileWrite (garbage_type : Z) : ST D (list message) :=
  made ← Create fileSystem FileName 0;
  if negb made then mret [Perf_no_create]
  else
    o ← Open fileSystem FileName garbage_type;
    match o with
    | None => mret [Perf_no_open]
    | Some openFile => write_loop (Z.to_nat (FileSize / ContentSize)) openFile
    end.

Fixpoint read_loop (n : nat) (openFile : OpenFile) : ST D (list message) :=
  match n with
  | O => mret []
  | S n =>
      '(buffer, openFile) ← Read openFile ContentSize;
      if (Z.of_nat (length buffer) <? 10) || negb (bool_decide (buffer = Contents))
      then mret [Perf_no_read] else read_loop n openFile
  end.

Definition FileRead (garbage_type : Z) : ST D (list message) :=
  o ← Open fileSystem FileName garbage_type;
  match o with
  | None => mret [Perf_no_open]
  | Some openFile => read_loop (Z.to_nat (FileSize / ContentSize)) openFile
  end.

Definition PerformanceTest (garbage_type : Z) : ST D (list message) :=
  m1 ← FileWrite garbage_type;
  m2 ← FileRead garbage_type;
  gone ← FileSys.Remove fileSystem FileName;
  mret (m1 ++ m2 ++ (if (gone : bool) then [] else [Perf_no_remove])).
End FsTest.

(** ** Theorems *)

Section Theorems.
Context `{!Uninit} {D : Type} `{SectorLaws D}.

Lemma open_known d fs nm gt M c : represents d fs M → M !! key nm = Some c →
  ∃ d' f, Open fs nm gt d = Ok (Some f, d') ∧ represents d' fs M ∧
    open_for (ss_data d') fs (key nm) f ∧ seekPosition f = 0.
Proof.
  intros (Hd & Hi & Hf) Hk. destruct (Open_ok d fs nm gt Hd Hi) as (d' & Ho & Hok & Hda).
  rewrite <- Hda in Ho, Hi, Hf.
  destruct (names (ss_data d') fs !! key nm) as [s|] eqn:Hn.
  - exists d', (mkOF (hdr_at (ss_data d') s) 0 gt). split; [exact Ho|]. split; [done|].
    split; [|done]. by exists s.
  - apply files_lookup_None in Hn. congruence.
Qed.

Lemma open_unknown d fs nm gt M : represents d fs M → M !! key nm = None →
  ∃ d', Open fs nm gt d = Ok (None, d') ∧ represents d' fs M.
Proof.
  intros (Hd & Hi & Hf) Hk. destruct (Open_ok d fs nm gt Hd Hi) as (d' & Ho & Hok & Hda).
  rewrite <- Hf, files_lookup_None in Hk. rewrite Hk in Ho. exists d'. split; [exact Ho|].
  by rewrite <- Hda in Hi, Hf.
Qed.

(** A write that fits changes the file and nothing else. *)
Lemma write_known d fs k f M c bs p :
  represents d fs M → open_for (ss_data d) fs k f → M !! k = Some c → seekPosition f = p → 0 <= p →
  int32 (p + Z.of_nat (length bs)) → Forall byte bs →
  let w := Z.max 0 (Z.min (Z.of_nat (length bs)) (Z.of_nat (length c) - p)) in
  ∃ d' f', Write f bs (Z.of_nat (length bs)) d = Ok ((w, f'), d') ∧
    represents d' fs (<[k := blit c (Z.to_nat p) (take (Z.to_nat w) bs)]> M) ∧
    open_for (ss_data d') fs k f' ∧ seekPosition f' = p + w.
Proof.
  intros (Hd & Hi & Hf) Ho Hk Hp Hp0 Hint Hb w.
  destruct (write_file_ok d fs k f bs (Z.of_nat (length bs)) p Hd Hi Ho Hp0 Hint ltac:(lia) Hb)
    as (d' & c' & Hc' & Hw & Hok & Hi' & Hf' & Hopen).
  rewrite Hf, Hk in Hc'. injection Hc' as <-. fold w in Hw, Hf'.
  unfold Write. rewrite Hp, (st_bind_eq _ _ _ _ _ Hw).
  eexists d', _. split; [done|]. split; [split_and!; [done|done|by rewrite Hf', Hf]|].
  split; [|done]. destruct (Hopen k f Ho) as (s & Hs1 & Hs2). by exists s.
Qed.

Lemma read_known d fs k f M c n p :
  represents d fs M → open_for (ss_data d) fs k f → M !! k = Some c → seekPosition f = p → 0 <= p →
  int32 (p + n) →
  ∃ d' f', Read f n d = Ok ((bytes_at c p n, f'), d') ∧ represents d' fs M ∧
    open_for (ss_data d') fs k f' ∧ seekPosition f' = p + Z.of_nat (length (bytes_at c p n)).
Proof.
  intros (Hd & Hi & Hf) Ho Hk Hp Hp0 Hint.
  destruct (read_file_ok d fs k f n p Hd Hi Ho Hp0 Hint) as (d' & c' & Hc' & Hr & Hok & Hda).
  rewrite Hf, Hk in Hc'. injection Hc' as <-. unfold Read. rewrite Hp, (st_bind_eq _ _ _ _ _ Hr).
  eexists d', _. split; [done|]. unfold represents. rewrite Hda. split; [done|]. split; [|done].
  destruct Ho as (s & Hs1 & Hs2). by exists s.
Qed.
End Theorems.

Section CopyPrint.
Context `{!Uninit} {D : Type} `{SectorLaws D}.

Lemma take_own_length {A} n (l : list A) : take (length (take n l)) l = take n l.
Proof. rewrite <- (take_drop n l) at 2. apply take_app_length. Qed.

(** The chunks written so far are the front of the file. *)
Lemma copy_loop_ok fs k M fuel : ∀ d f c pre rem,
  represents d fs (<[k := c]> M) → open_for (ss_data d) fs k f →
  seekPosition f = Z.of_nat (length pre) → length c = (length pre + length rem)%nat →
  take (length pre) c = pre → Forall byte rem → Z.of_nat (length c) < 2 ^ 30 → (length rem < fuel)%nat →
  ∃ d', copy_loop fuel f rem d = Ok (tt, d') ∧ represents d' fs (<[k := pre ++ rem]> M).
Proof.
  induction fuel as [|fuel IH]; intros d f c pre rem HR Ho Hp Hl Ht Hb Hsmall Hf; [lia|].
  cbn [copy_loop]. unfold TransferSize. change (Z.to_nat 10) with 10%nat.
  destruct (Z.gtb_spec (Z.of_nat (length (take 10 rem))) 0) as [Hn|Hn]; rewrite length_take in Hn.
  - set (b := take 10 rem) in *. assert (Hbl : length b = min 10 (length rem)) by apply length_take.
    destruct (write_known d fs k f (<[k := c]> M) c b (Z.of_nat (length pre)) HR Ho) as
      (d1 & f1 & Hw & HR1 & Ho1 & Hp1); [by rewrite lookup_insert_eq|done|lia| |by apply Forall_take|].
    { unfold int32. lia. }
    rewrite (st_bind_eq _ _ _ _ _ Hw). rewrite insert_insert_eq, Nat2Z.id in HR1.
    replace (Z.max 0 (Z.min (Z.of_nat (length b)) (Z.of_nat (length c) - Z.of_nat (length pre))))
      with (Z.of_nat (length b)) in * by lia.
    rewrite Nat2Z.id, (take_ge b) in HR1 by lia.
    assert (Hpre : take (length (pre ++ b)) (blit c (length pre) b) = pre ++ b).
    { unfold blit. rewrite Ht, app_assoc. apply take_app_length. }
    destruct (IH d1 f1 (blit c (length pre) b) (pre ++ b) (drop 10 rem)) as (d2 & H2 & HR2); try done.
    + rewrite Hp1, length_app. lia.
    + rewrite length_blit, length_app, length_drop by lia. lia.
    + by apply Forall_drop.
    + rewrite length_blit by lia. lia.
    + rewrite length_drop. lia.
    + exists d2. split; [exact H2|]. rewrite <- app_assoc in HR2. unfold b in HR2. by rewrite take_drop in HR2.
  - destruct rem as [|x rem]; [|simpl in Hn; lia]. exists d. split; [done|].
    rewrite app_nil_r. simpl in Hl. rewrite Nat.add_0_r in Hl. rewrite take_ge in Ht by lia. by subst c.
Qed.

(** What is printed so far is the front of the file. *)
Lemma print_loop_ok fs k M c fuel : ∀ d f out,
  represents d fs M → M !! k = Some c → open_for (ss_data d) fs k f →
  seekPosition f = Z.of_nat (length out) → take (length out) c = out → (length out <= length c)%nat →
  Z.of_nat (length c) < 2 ^ 30 → (length c - length out < fuel)%nat →
  ∃ d', print_loop fuel f out d = Ok (c, d') ∧ represents d' fs M.
Proof.
  induction fuel as [|fuel IH]; intros d f out HR Hk Ho Hp Ht Hle Hsmall Hf; [lia|].
  cbn [print_loop].
  destruct (read_known d fs k f M c TransferSize (Z.of_nat (length out)) HR Ho Hk Hp) as
    (d1 & f1 & Hr & HR1 & Ho1 & Hp1); [lia|unfold TransferSize, int32; lia|].
  rewrite (st_bind_eq _ _ _ _ _ Hr).
  assert (Hb : bytes_at c (Z.of_nat (length out)) TransferSize = take 10 (drop (length out) c)).
  { unfold bytes_at. by rewrite Nat2Z.id. }
  rewrite Hb in *. set (b := take 10 (drop (length out) c)) in *.
  assert (Hbl : length b = min 10 (length c - length out)) by (unfold b; by rewrite length_take, length_drop).
  destruct (Z.gtb_spec (Z.of_nat (length b)) 0) as [Hn|Hn].
  - apply (IH d1 f1 (out ++ b)); try done; rewrite ?length_app; try lia.
    rewrite <- take_take_drop, Ht. f_equal. apply take_own_length.
  - exists d1. rewrite <- Ht, take_ge by lia. done.
Qed.
End CopyPrint.

Section Main.
Context `{!Uninit} {D : Type} `{SectorLaws D}.

(** Create answers as the specification says. *)
Lemma create_known d fs M nm n : represents d fs M → Forall byte nm → int32 n → n <= MaxFileSize →
  if can_create M (key nm) n then
    ∃ d' c, Create fs nm n d = Ok (true, d') ∧ represents d' fs (<[key nm := c]> M) ∧
      Z.of_nat (length c) = Z.max 0 n
  else ∃ d', Create fs nm n d = Ok (false, d') ∧ represents d' fs M.
Proof.
  intros (Hd & Hi & Hf) Hb Hn Hmax. pose proof (Create_ok d fs nm n Hd Hi Hb Hn) as HC.
  cbv zeta in HC. rewrite Hf in HC. apply max_size_fits in Hmax.
  destruct (can_create M (key nm) n).
  - destruct (Z.leb_spec (divRoundUp n SectorSize) NumDirect); [|lia].
    destruct HC as (d' & c & HC & Hok & Hi' & Hf' & Hl). by exists d', c.
  - destruct HC as (d' & HC & Hok & Hda). exists d'. split; [done|]. unfold represents. by rewrite Hda.
Qed.

(** C17: Copy and Print compose to the identity.  If there is room for a file of
    its size under a new name, Copy puts a UNIX file of any length up to the
    largest file into the Nachos file system, ten bytes at a time, changing no
    other file, and Print of that name then shows exactly the bytes of the UNIX
    file; neither fails an assertion.  If the name exists or space or the
    directory is full, Copy says so and the file system is as it was; so it is
    when the UNIX file cannot be opened, and Print of an unknown name prints
    nothing but its message. *)
Theorem Copy_Print d fs M bs to gt :
  represents d fs M → Forall byte to → Forall byte bs → Z.of_nat (length bs) <= MaxFileSize →
  (if can_create M (key to) (Z.of_nat (length bs)) then
     ∃ d', Copy fs (Some bs) to gt d = Ok (None, d') ∧ represents d' fs (<[key to := bs]> M) ∧
       ∃ d'', Print fs (S (length bs)) to gt d' = Ok (inr bs, d'') ∧
         represents d'' fs (<[key to := bs]> M)
   else ∃ d', Copy fs (Some bs) to gt d = Ok (Some Copy_no_output, d') ∧ represents d' fs M) ∧
  Copy fs None to gt d = Ok (Some Copy_no_input, d) ∧
  (M !! key to = None → ∃ d', Print fs 1 to gt d = Ok (inl Print_no_file, d') ∧ represents d' fs M).
Proof.
  intros HR Hto Hbs Hmax. split; [|split; [done|]].
  2: { intros Hk. destruct (open_unknown d fs to gt M HR Hk) as (d' & Ho & HR').
       exists d'. unfold Print. by rewrite (st_bind_eq _ _ _ _ _ Ho). }
  assert (Hsz : Z.of_nat (length bs) < 2 ^ 30).
  { unfold MaxFileSize, SectorSize in Hmax. rewrite NumDirect_eq in Hmax. lia. }
  pose proof (create_known d fs M to (Z.of_nat (length bs)) HR Hto ltac:(unfold int32; lia) Hmax) as HC.
  destruct (can_create M (key to) (Z.of_nat (length bs))).
  - destruct HC as (d1 & c & HC & HR1 & Hl).
    destruct (open_known d1 fs to gt (<[key to := c]> M) c HR1) as (d2 & f & Ho & HR2 & Hof & Hp);
      [by rewrite lookup_insert_eq|].
    destruct (copy_loop_ok fs (key to) M (S (length bs)) d2 f c [] bs HR2 Hof Hp) as (d3 & Hc & HR3);
      try done; try (simpl; lia); try lia.
    exists d3. split.
    { unfold Copy. rewrite (st_bind_eq _ _ _ _ _ HC). cbn [negb].
      rewrite (st_bind_eq _ _ _ _ _ Ho). cbv iota beta. by rewrite (st_bind_eq _ _ _ _ _ Hc). }
    split; [done|].
    destruct (open_known d3 fs to gt (<[key to := bs]> M) bs HR3) as (d4 & g & Ho' & HR4 & Hog & Hpg);
      [by rewrite lookup_insert_eq|].
    destruct (print_loop_ok fs (key to) (<[key to := bs]> M) bs (S (length bs)) d4 g [] HR4) as (d5 & Hpr & HR5);
      try done; try (by rewrite lookup_insert_eq); try (simpl; lia).
    exists d5. split; [|done]. unfold Print. rewrite (st_bind_eq _ _ _ _ _ Ho'). cbv iota beta.
    by rewrite (st_bind_eq _ _ _ _ _ Hpr).
  - destruct HC as (d1 & HC & HR1). exists d1. split; [|done]. unfold Copy.
    by rewrite (st_bind_eq _ _ _ _ _ HC).
Qed.

(** PerformanceTest cannot succeed: FileWrite creates its file with size 0, and
    files do not grow, so that the first Write stores nothing, and neither does
    the first Read find anything.  The test removes the file again. *)
Theorem PerformanceTest_fails d fs M gt :
  represents d fs M → can_create M (key FileName) 0 = true →
  ∃ d', PerformanceTest fs gt d = Ok ([Perf_no_write; Perf_no_read], d') ∧ represents d' fs M.
Proof.
  intros HR Hcan. assert (Hfn : Forall byte FileName) by (repeat constructor; unfold byte; lia).
  pose proof (create_known d fs M FileName 0 HR Hfn ltac:(unfold int32; lia)
    ltac:(unfold MaxFileSize, SectorSize; rewrite NumDirect_eq; lia)) as HC.
  assert (Hnew : M !! key FileName = None).
  { unfold can_create in Hcan. destruct (M !! key FileName); [|done]. discriminate. }
  rewrite Hcan in HC. destruct HC as (d1 & c & HC & HR1 & Hl).
  destruct c as [|x c]; [|simpl in Hl; lia].
  destruct (open_known d1 fs FileName gt _ [] HR1) as (d2 & f & Ho & HR2 & Hof & Hp);
    [by rewrite lookup_insert_eq|].
  destruct (write_known d2 fs (key FileName) f _ [] Contents 0 HR2 Hof) as (d3 & f3 & Hw & HR3 & _);
    [by rewrite lookup_insert_eq|done|lia|unfold int32; simpl; lia|repeat constructor; unfold byte; lia|].
  rewrite insert_insert_eq in HR3.
  destruct (open_known d3 fs FileName gt _ [] HR3) as (d4 & g & Ho' & HR4 & Hog & Hpg);
    [by rewrite lookup_insert_eq|].
  destruct (read_known d4 fs (key FileName) g _ [] ContentSize 0 HR4 Hog) as (d5 & g5 & Hr & HR5 & _);
    [by rewrite lookup_insert_eq|done|lia|unfold int32, ContentSize; simpl; lia|].
  destruct HR5 as (Hd5 & Hi5 & Hf5). pose proof (Remove_ok d5 fs FileName Hd5 Hi5) as HRm.
  cbv zeta in HRm. rewrite Hf5, lookup_insert_eq in HRm.
  destruct HRm as (d6 & Hrm & Hok6 & Hi6 & Hf6). exists d6. split.
  2: { split_and!; [done|done|]. by rewrite Hf6, delete_insert_id. }
  unfold PerformanceTest.
  assert (HFW : FileWrite fs gt d = Ok ([Perf_no_write], d3)).
  { unfold FileWrite. rewrite (st_bind_eq _ _ _ _ _ HC). cbn [negb]. rewrite (st_bind_eq _ _ _ _ _ Ho).
    cbv iota beta. change (Z.to_nat (FileSize / ContentSize)) with (S (Nat.pred 5000)).
    cbn [write_loop]. by rewrite (st_bind_eq _ _ _ _ _ Hw). }
  assert (HFR : FileRead fs gt d3 = Ok ([Perf_no_read], d5)).
  { unfold FileRead. rewrite (st_bind_eq _ _ _ _ _ Ho'). cbv iota beta.
    change (Z.to_nat (FileSize / ContentSize)) with (S (Nat.pred 5000)).
    cbn [read_loop]. by rewrite (st_bind_eq _ _ _ _ _ Hr). }
  rewrite (st_bind_eq _ _ _ _ _ HFW), (st_bind_eq _ _ _ _ _ HFR). by rewrite (st_bind_eq _ _ _ _ _ Hrm).
Qed.
End Main.

(** A UNIX file of 25 bytes copied to a newly formatted disk under "readme". *)
Definition demo_unix : list Z := seqZ 65 25.

Lemma Copy_Print_witness :
  ∃ fs d d' d'', represents (D := RamDisk) d fs ∅ ∧ Copy fs (Some demo_unix) demo_name 0 d = Ok (None, d') ∧
    Print fs 26 demo_name 0 d' = Ok (inr demo_unix, d'').
Proof.
  destruct (format_ok (D := RamDisk) blank_disk 0 0 blank_disk_ok) as (fs & d & _ & Hok & Hi & Hf).
  assert (HR : represents d fs ∅) by exact (conj Hok (conj Hi Hf)).
  destruct (Copy_Print d fs ∅ demo_unix demo_name 0 HR) as (HC & _).
  - repeat constructor; unfold byte; lia.
  - unfold demo_unix. repeat constructor; unfold byte; lia.
  - unfold MaxFileSize, SectorSize. rewrite NumDirect_eq. vm_compute. discriminate.
  - destruct HC as (d' & H1 & _ & d'' & H2 & _). exists fs, d, d', d''. split; [exact HR|].
    split; [exact H1|exact H2].
Defined.

Lemma PerformanceTest_fails_witness :
  ∃ fs d d', represents (D := RamDisk) d fs ∅ ∧
    PerformanceTest fs 0 d = Ok ([Perf_no_write; Perf_no_read], d').
Proof.
  destruct (format_ok (D := RamDisk) blank_disk 0 0 blank_disk_ok) as (fs & d & _ & Hok & Hi & Hf).
  assert (HR : represents d fs ∅) by exact (conj Hok (conj Hi Hf)).
  destruct (PerformanceTest_fails d fs ∅ 0 HR ltac:(vm_compute; reflexivity)) as (d' & H1 & _).
  exists fs, d, d'. split; [exact HR|exact H1].
Defined.
End FsTest.
