(* ===== verification/Boot.v ===== *)
(** * threads/main.cc, threads/system.cc, threads/utility.cc: start-up

    The command line, which two loops of main.cc and one of system.cc read, each
    with its own idea of how many operands a flag has; the construction of the
    global objects by Initialize and their destruction by Cleanup; and what main
    does then.  The #ifdef symbols of a kernel are the fields of [build].  The
    procedures main calls are the values of [call]; a call that never returns
    ends the list of calls. *)

From Stdlib Require Import ZArith QArith Lia Bool Ascii String.
From S2P Require Import Prelude Bytes Machine Interrupt Sched.

Local Open Scope Z_scope.

(** The symbols a Makefile defines. *)
Record build := mkBuild {
  THREADS : bool;
  USER_PROGRAM : bool;
  FILESYS_NEEDED : bool;
  FILESYS : bool;
  NETWORK : bool;
}.

(** The DEFINES of the Makefiles of the five kernels. *)
Definition threads_build : build := mkBuild false true true false false.
Definition userprog_build : build := mkBuild false true true false false.
Definition filesys_build : build := mkBuild true true true true false.
Definition vm_build : build := mkBuild false true true false false.
Definition network_build : build := mkBuild false true true true true.

(** ** The C library: strchr, atoi, atof *)

Definition char_code (c : ascii) : Z := Z.of_N (N_of_ascii c).

Fixpoint str_has (s : string) (c : ascii) : bool :=
  match s with
  | EmptyString => false
  | String c' s => (c =? c')%char || str_has s c
  end.

(** strchr(s, c) != 0: the terminating NUL is part of the string. *)
Definition strchr (s : string) (c : ascii) : bool := (c =? "000")%char || str_has s c.

Definition isspace (c : ascii) : bool :=
  let n := char_code c in (n =? 32) || (9 <=? n) && (n <=? 13).
Definition isdigit (c : ascii) : bool := let n := char_code c in (48 <=? n) && (n <=? 57).

Fixpoint skip_space (s : string) : string :=
  match s with
  | String c s' => if isspace c then skip_space s' else s
  | EmptyString => s
  end.

(** The sign, and the text after it. *)
Definition sign (s : string) : Z * string :=
  match s with
  | String "-" s' => (-1, s')
  | String "+" s' => (1, s')
  | _ => (1, s)
  end.

(** The value of the leading digits, their number, and the text after them. *)
Fixpoint digits (acc : Z) (n : Z) (s : string) : Z * Z * string :=
  match s with
  | String c s' => if isdigit c then digits (10 * acc + (char_code c - 48)) (n + 1) s' else (acc, n, s)
  | EmptyString => (acc, n, s)
  end.

(** atoi; the result is undefined when it does not fit. *)
Definition atoi (s : string) : outcome Z :=
  let '(sg, s) := sign (skip_space s) in
  let '(v, _, _) := digits 0 0 s in
  if bool_decide (int32 (sg * v)) then Ok (sg * v) else Undef.

(** atof on decimal fractions, exactly: no exponents, hexadecimal numbers,
    infinities, and no rounding. *)
Definition atof (s : string) : Q :=
  let '(sg, s) := sign (skip_space s) in
  let '(v, _, s) := digits 0 0 s in
  let '(v, k) := match s with
                 | String "." s => let '(v, k, _) := digits v 0 s in (v, k)
                 | _ => (v, 0)
                 end in
  Qmake (sg * v) (Z.to_pos (10 ^ k)).

(** ** threads/utility.cc *)

(** DebugInit sets enableFlags, which is NULL before. *)
Definition DebugInit (flagList : string) : option string := Some flagList.

Definition DebugIsEnabled (enableFlags : option string) (flag : ascii) : bool :=
  match enableFlags with
  | Some flags => strchr flags flag || strchr flags "+"
  | None => false
  end.

(** ** The command line *)

(** A loop [for (argc--, argv++; argc > 0; argc -= argCount, argv += argCount)];
    [body] sees the arguments that are left and returns argCount. *)
Fixpoint arg_loop {S} (body : list string → S → outcome (S * nat)) (fuel : nat) (argv : list string) (s : S)
  : outcome S :=
  match argv with
  | [] => Ok s
  | _ =>
      match fuel with
      | O => NoFuel
      | S fuel =>
          '(s, argCount) ← body argv s;
          arg_loop body fuel (drop argCount argv) s
      end
  end.

(** *(argv + 1) after ASSERT(argc > 1), and *argv otherwise not needed. *)
Definition operand (argv : list string) : outcome string :=
  match argv with
  | _ :: a :: _ => Ok a
  | _ => Aborted
  end.

(** The variables of Initialize the loop sets; [seed] is the argument of the last
    call of RandomInit. *)
Record Settings := mkSettings {
  debugArgs : string;
  randomYield : bool;
  seed : option Z;
  debugUserProg : bool;
  format : bool;
  rely : Q;
  netname : Z;
}.

Definition default_settings : Settings := mkSettings EmptyString false None false false 1 0.

Definition set_debugArgs (x : Settings) (d : string) : Settings :=
  mkSettings d (randomYield x) (seed x) (debugUserProg x) (format x) (rely x) (netname x).
Definition set_seed (x : Settings) (r : Z) : Settings :=
  mkSettings (debugArgs x) true (Some r) (debugUserProg x) (format x) (rely x) (netname x).
Definition set_debugUserProg (x : Settings) : Settings :=
  mkSettings (debugArgs x) (randomYield x) (seed x) true (format x) (rely x) (netname x).
Definition set_format (x : Settings) : Settings :=
  mkSettings (debugArgs x) (randomYield x) (seed x) (debugUserProg x) true (rely x) (netname x).
Definition set_rely (x : Settings) (q : Q) : Settings :=
  mkSettings (debugArgs x) (randomYield x) (seed x) (debugUserProg x) (format x) q (netname x).
Definition set_netname (x : Settings) (n : Z) : Settings :=
  mkSettings (debugArgs x) (randomYield x) (seed x) (debugUserProg x) (format x) (rely x) n.

Section Build.
Context (b : build).

(** The body of the loop of Initialize. *)
Definition Initialize_arg (argv : list string) (x : Settings) : outcome (Settings * nat) :=
  let arg := default EmptyString (head argv) in
  '(x, argCount) ←
    (if (arg =? "-d")%string then
       match argv with
       | _ :: a :: _ => Ok (set_debugArgs x a, 2%nat)
       | _ => Ok (set_debugArgs x "+", 1%nat)
       end
     else if (arg =? "-rs")%string then
       a ← operand argv; r ← atoi a; Ok (set_seed x r, 2%nat)
     else Ok (x, 1%nat));
  let x := if USER_PROGRAM b && (arg =? "-s")%string then set_debugUserProg x else x in
  let x := if FILESYS_NEEDED b && (arg =? "-f")%string then set_format x else x in
  if NETWORK b && (arg =? "-l")%string then
    a ← operand argv; Ok (set_rely x (atof a), 2%nat)
  else if NETWORK b && (arg =? "-m")%string then
    a ← operand argv; n ← atoi a; Ok (set_netname x n, 2%nat)
  else Ok (x, argCount).

(** The arguments after the name of the program. *)
Definition Initialize_args (argv : list string) : outcome Settings :=
  arg_loop Initialize_arg (length argv) argv default_settings.

(** ** main *)

Inductive call :=
| CallThreadTest (testnum : Z)
| CallCopyright
| CallStartProcess (file : string)
| CallConsoleTest (in_out : option (string * string))
| CallHalt
| CallCopy (from to : string)
| CallPrint (file : string)
| CallRemove (file : string)
| CallList
| CallFSPrint
| CallPerformanceTest
| CallDelay (seconds : Z)
| CallMailTest (farAddr : Z)
| CallFinish.

(** The body of the first loop, which is there with THREADS: argv[0][1] of an
    empty argument is past its end, and atoi(argv[1]) of the last argument is
    atoi(NULL). *)
Definition threads_arg (argv : list string) (testnum : Z) : outcome (Z * nat) :=
  match default EmptyString (head argv) with
  | EmptyString => Undef
  | String _ (String "q" _) =>
      match argv with
      | _ :: a :: _ => n ← atoi a; Ok (n, 2%nat)
      | _ => Undef
      end
  | _ => Ok (1, 1%nat)
  end.

(** The body of the second loop.  The calls are collected in order; StartProcess
    and Halt do not return, MailTest ends in Halt: the flag says that main
    does not go on. *)
Definition main_arg (argv : list string) (calls : list call) : outcome (list call * nat * bool) :=
  let arg := default EmptyString (head argv) in
  let calls := if (arg =? "-z")%string then calls ++ [CallCopyright] else calls in
  '(calls, argCount, stop) ←
    (if USER_PROGRAM b && (arg =? "-x")%string then
       f ← operand argv; Ok (calls ++ [CallStartProcess f], 2%nat, true)
     else if USER_PROGRAM b && (arg =? "-c")%string then
       match argv with
       | [_] => Ok (calls ++ [CallConsoleTest None; CallHalt], 1%nat, true)
       | _ :: i :: o :: _ => Ok (calls ++ [CallConsoleTest (Some (i, o)); CallHalt], 3%nat, true)
       | _ => Aborted
       end
     else Ok (calls, 1%nat, false));
  if (stop : bool) then Ok (calls, argCount, true)
  else
    '(calls, argCount) ←
      (if FILESYS b then
         if (arg =? "-cp")%string then
           match argv with
           | _ :: u :: n :: _ => Ok (calls ++ [CallCopy u n], 3%nat)
           | _ => Aborted
           end
         else if (arg =? "-p")%string then
           f ← operand argv; Ok (calls ++ [CallPrint f], 2%nat)
         else if (arg =? "-r")%string then
           f ← operand argv; Ok (calls ++ [CallRemove f], 2%nat)
         else if (arg =? "-l")%string then Ok (calls ++ [CallList], argCount)
         else if (arg =? "-D")%string then Ok (calls ++ [CallFSPrint], argCount)
         else if (arg =? "-t")%string then Ok (calls ++ [CallPerformanceTest], argCount)
         else Ok (calls, argCount)
       else Ok (calls, argCount));
    if NETWORK b && (arg =? "-o")%string then
      a ← operand argv; n ← atoi a;
      Ok (calls ++ [CallDelay 2; CallMailTest n], 2%nat, true)
    else Ok (calls, argCount, false).

(** How main ends: in a call that does not return, or in a fault between calls. *)
Inductive ending := InCall | AssertFailed | Undefined | OutOfFuel.

Fixpoint main_loop (fuel : nat) (argv : list string) (calls : list call) : list call * ending :=
  match argv with
  | [] => (calls ++ [CallFinish], InCall)
  | _ =>
      match fuel with
      | O => (calls, OutOfFuel)
      | S fuel =>
          match main_arg argv calls with
          | Ok (calls, _, true) => (calls, InCall)
          | Ok (calls, argCount, false) => main_loop fuel (drop argCount argv) calls
          | Aborted | Halted => (calls, AssertFailed)
          | Undef => (calls, Undefined)
          | NoFuel => (calls, OutOfFuel)
          end
      end
  end.

(** main after Initialize.  The first loop leaves argc at 0 or below, so the
    second one finds no arguments then. *)
Definition main (argv : list string) : list call * ending :=
  if THREADS b then
    match arg_loop threads_arg (length argv) argv 1 with
    | Ok testnum => main_loop 0 [] [CallThreadTest testnum]
    | Aborted | Halted => ([], AssertFailed)
    | Undef => ([], Undefined)
    | NoFuel => ([], OutOfFuel)
    end
  else main_loop (length argv) argv [].
End Build.

(** ** The language of the command line

    The flags of the usage text of main.cc, with their operands.  [Freliability]
    is the flag the code reads for the reliability of the network, [Fn] the one
    the usage text names. *)
Inductive flag :=
| Fd (debugflags : string)
| Frs (seed : string)
| Fz
| Fs
| Fx (file : string)
| Fc (in_out : string * string)
| Ff
| Fcp (from to : string)
| Fp (file : string)
| Fr (file : string)
| Fl
| FD
| Ft
| Fn (reliability : string)
| Freliability (reliability : string)
| Fm (machine : string)
| Fo (machine : string).

Definition render1 (f : flag) : list string :=
  match f with
  | Fd d => ["-d"; d]
  | Frs r => ["-rs"; r]
  | Fz => ["-z"]
  | Fs => ["-s"]
  | Fx p => ["-x"; p]
  | Fc (i, o) => ["-c"; i; o]
  | Ff => ["-f"]
  | Fcp u n => ["-cp"; u; n]
  | Fp p => ["-p"; p]
  | Fr p => ["-r"; p]
  | Fl => ["-l"]
  | FD => ["-D"]
  | Ft => ["-t"]
  | Fn r => ["-n"; r]
  | Freliability r => ["-l"; r]
  | Fm m => ["-m"; m]
  | Fo m => ["-o"; m]
  end%string.

Definition render (fs : list flag) : list string := concat (map render1 fs).

(** An operand that is not taken for a flag. *)
Definition plain (s : string) : bool :=
  match s with String "-" _ => false | _ => true end.

Definition number (s : string) : bool := match atoi s with Ok _ => true | _ => false end.
Definition number_of (s : string) : Z := match atoi s with Ok n => n | _ => 0 end.

(** The command lines the three loops agree on. *)
Definition flag_ok (b : build) (f : flag) : bool :=
  match f with
  | Fd s | Fx s | Fp s | Fr s | Fn s => plain s
  | Frs s | Fo s | Fm s => plain s && number s
  | Fc (i, o) | Fcp i o => plain i && plain o
  | Fl => negb (NETWORK b)
  | Freliability s => plain s && NETWORK b
  | Fz | Fs | Ff | FD | Ft => true
  end.

(** What a flag means to Initialize. *)
Definition flag_setting (b : build) (x : Settings) (f : flag) : Settings :=
  match f with
  | Fd s => set_debugArgs x s
  | Frs s => set_seed x (number_of s)
  | Fs => if USER_PROGRAM b then set_debugUserProg x else x
  | Ff => if FILESYS_NEEDED b then set_format x else x
  | Freliability s => set_rely x (atof s)
  | Fm s => if NETWORK b then set_netname x (number_of s) else x
  | _ => x
  end.

(** What a flag means to main. *)
Definition flag_calls (b : build) (f : flag) : list call :=
  match f with
  | Fz => [CallCopyright]
  | Fx p => if USER_PROGRAM b then [CallStartProcess p] else []
  | Fc io => if USER_PROGRAM b then [CallConsoleTest (Some io); CallHalt] else []
  | Fcp u n => if FILESYS b then [CallCopy u n] else []
  | Fp p => if FILESYS b then [CallPrint p] else []
  | Fr p => if FILESYS b then [CallRemove p] else []
  | Fl | Freliability _ => if FILESYS b then [CallList] else []
  | FD => if FILESYS b then [CallFSPrint] else []
  | Ft => if FILESYS b then [CallPerformanceTest] else []
  | Fo s => if NETWORK b then [CallDelay 2; CallMailTest (number_of s)] else []
  | _ => []
  end.

(** The calls that never return, and the calls up to the first of them. *)
Definition never_returns (c : call) : bool :=
  match c with
  | CallStartProcess _ | CallHalt | CallMailTest _ | CallFinish => true
  | _ => false
  end.

Fixpoint until_stop (cs : list call) : list call :=
  match cs with
  | [] => []
  | c :: cs => c :: if never_returns c then [] else until_stop cs
  end.

(** ** The loops, without fuel *)

(** With fuel for all arguments, the loop ends in [r]. *)
Definition loops {S} (body : list string → S → outcome (S * nat)) argv (s : S) (r : outcome S) : Prop :=
  ∀ fuel, (length argv <= fuel)%nat → arg_loop body fuel argv s = r.

Lemma loops_nil {S} body (s : S) : loops body [] s (Ok s).
Proof. by intros [|fuel] _. Qed.

Lemma loops_step {S} body a argv (s s' : S) n r :
  body (a :: argv) s = Ok (s', Datatypes.S n) → loops body (drop n argv) s' r → loops body (a :: argv) s r.
Proof.
  intros Hb Hl [|fuel] Hf; [simpl in Hf; lia|]. cbn [arg_loop]. rewrite Hb. cbn [mbind outcome_bind skipn].
  apply Hl. rewrite length_drop. simpl in Hf. lia.
Qed.

Definition main_ends b argv calls (r : list call * ending) : Prop :=
  ∀ fuel, (length argv <= fuel)%nat → main_loop b fuel argv calls = r.

Lemma main_nil b calls : main_ends b [] calls (calls ++ [CallFinish], InCall).
Proof. by intros [|fuel] _. Qed.

Lemma main_step b a argv calls calls' n r :
  main_arg b (a :: argv) calls = Ok (calls', S n, false) → main_ends b (drop n argv) calls' r →
  main_ends b (a :: argv) calls r.
Proof.
  intros Hb Hl [|fuel] Hf; [simpl in Hf; lia|]. cbn [main_loop]. rewrite Hb. cbn [skipn].
  apply Hl. rewrite length_drop. simpl in Hf. lia.
Qed.

Lemma main_stop b a argv calls calls' n :
  main_arg b (a :: argv) calls = Ok (calls', n, true) → main_ends b (a :: argv) calls (calls', InCall).
Proof. intros Hb [|fuel] Hf; [simpl in Hf; lia|]. cbn [main_loop]. by rewrite Hb. Qed.

(** ** One argument *)

Lemma plain_eqb s t : plain s = true → (s =? String "-" t)%string = false.
Proof. intros Hp. apply String.eqb_neq. by intros ->. Qed.

Lemma Initialize_arg_plain b a argv x : plain a = true → Initialize_arg b (a :: argv) x = Ok (x, 1%nat).
Proof.
  intros Hp. unfold Initialize_arg. cbn [head default]. rewrite !plain_eqb by done.
  by rewrite !andb_false_r.
Qed.

Lemma main_arg_plain b a argv calls : plain a = true → main_arg b (a :: argv) calls = Ok (calls, 1%nat, false).
Proof.
  intros Hp. unfold main_arg. cbn [head default]. rewrite !plain_eqb by done.
  rewrite !andb_false_r. by destruct (FILESYS b).
Qed.

Lemma number_atoi s : number s = true → atoi s = Ok (number_of s).
Proof. unfold number, number_of. by destruct (atoi s). Qed.

(** ** One flag *)

(** Splits a conjunction of booleans and names the parts that matter. *)
Ltac flag_hyps H :=
  repeat match type of H with
  | (_ && _) = true => let H' := fresh H in apply andb_true_iff in H as [H' H]
  end.

(** The operand of the flag, which the loop meets as an argument. *)
Ltac skip_operand :=
  first [eapply (loops_step _ _ _ _ _ 0); [by apply Initialize_arg_plain|]
        |eapply (main_step _ _ _ _ _ 0); [by apply main_arg_plain|]].

Lemma Initialize_flag b f argv x r : flag_ok b f = true →
  loops (Initialize_arg b) argv (flag_setting b x f) r → loops (Initialize_arg b) (render1 f ++ argv) x r.
Proof.
  destruct b as [th up fn fs nw]. intros Hf Hl.
  destruct f as [d|sd| | |p|[i o]| |u n|p|p| | | |q|q|m|m]; cbn in Hf, Hl |- *; flag_hyps Hf;
    repeat match goal with H : number _ = true |- _ => apply number_atoi in H end.
  all: try (destruct up); try (destruct fn); try (destruct nw); try discriminate.
  all: first [eapply (loops_step _ _ _ _ _ 1); [cbn; rewrite ?Hf; reflexivity|exact Hl]
             |eapply (loops_step _ _ _ _ _ 0); [reflexivity|]; cbn [drop]; repeat skip_operand; exact Hl].
Qed.

Lemma main_flag b f argv calls r : flag_ok b f = true →
  existsb never_returns (flag_calls b f) = false →
  main_ends b argv (calls ++ flag_calls b f) r → main_ends b (render1 f ++ argv) calls r.
Proof.
  destruct b as [th up fn fs nw]. intros Hf Hs Hl.
  destruct f as [d|sd| | |p|[i o]| |u n|p|p| | | |q|q|m|m]; cbn in Hf, Hs, Hl |- *; flag_hyps Hf.
  all: try (destruct up); try (destruct fs); try (destruct nw); try discriminate.
  all: rewrite ?app_nil_r in Hl.
  all: first [eapply (main_step _ _ _ _ _ 2); [reflexivity|exact Hl]
             |eapply (main_step _ _ _ _ _ 1); [reflexivity|exact Hl]
             |eapply (main_step _ _ _ _ _ 0); [reflexivity|]; cbn [drop]; repeat skip_operand; exact Hl].
Qed.

Lemma main_flag_stop b f argv calls : flag_ok b f = true →
  existsb never_returns (flag_calls b f) = true →
  main_ends b (render1 f ++ argv) calls (calls ++ flag_calls b f, InCall).
Proof.
  destruct b as [th up fn fs nw]. intros Hf Hs.
  destruct f as [d|sd| | |p|[i o]| |u n|p|p| | | |q|q|m|m]; cbn in Hf, Hs |- *; flag_hyps Hf;
    repeat match goal with H : number _ = true |- _ => apply number_atoi in H end.
  all: try (destruct up); try (destruct fs); try (destruct nw); try discriminate.
  all: eapply main_stop; cbn; rewrite ?Hf; reflexivity.
Qed.

Lemma Initialize_flags b fs x : Forall (λ f, flag_ok b f = true) fs →
  loops (Initialize_arg b) (render fs) x (Ok (foldl (flag_setting b) x fs)).
Proof.
  intros H. revert x. induction H as [|f fs Hf _ IH]; intros x; [apply loops_nil|].
  unfold render. cbn [map concat foldl]. by apply Initialize_flag, IH.
Qed.

(** The calls of a flag either all return or end in one that does not. *)
Lemma until_stop_flag b f cs : until_stop (flag_calls b f ++ cs) =
  flag_calls b f ++ if existsb never_returns (flag_calls b f) then [] else until_stop cs.
Proof.
  destruct b as [th up fn fs nw]. destruct f as [d|sd| | |p|[i o]| |u n|p|p| | | |q|q|m|m];
    cbn; try destruct up; try destruct fs; try destruct nw; reflexivity.
Qed.

Lemma main_flags b fs calls : Forall (λ f, flag_ok b f = true) fs →
  main_ends b (render fs) calls
    (calls ++ until_stop (concat (map (flag_calls b) fs) ++ [CallFinish]), InCall).
Proof.
  intros H. revert calls. induction H as [|f fs Hf _ IH]; intros calls; [apply main_nil|].
  unfold render. cbn [map concat]. rewrite <- app_assoc, until_stop_flag.
  destruct (existsb never_returns (flag_calls b f)) eqn:Hs.
  - rewrite app_nil_r. by apply main_flag_stop.
  - apply main_flag; [done|done|]. rewrite app_assoc. apply IH.
Qed.

(** C18: the command line means what its flags mean.  A kernel without THREADS
    that is started with flags of the usage text, each with its operands (which
    are not flags themselves, and are numbers where numbers are expected), takes
    exactly the settings of the flags, later ones overriding earlier ones, and
    then makes exactly the calls the flags stand for, in order, up to the first
    that does not return; without such a call main finishes its thread.  Flags of
    parts the kernel was built without have no effect.  In a kernel with the
    network, the reliability flag is -l, and with the file system it also lists the
    directory; -n is ignored. *)
Theorem command_line b fs : THREADS b = false → Forall (λ f, flag_ok b f = true) fs →
  Initialize_args b (render fs) = Ok (foldl (flag_setting b) default_settings fs) ∧
  main b (render fs) = (until_stop (concat (map (flag_calls b) fs) ++ [CallFinish]), InCall).
Proof.
  intros Hb Hf. split.
  - by apply Initialize_flags.
  - unfold main. rewrite Hb. by apply (main_flags b fs []).
Qed.

(** Formatting the disk, copying a file to it and printing it. *)
Lemma command_line_witness :
  Initialize_args network_build ["-f"; "-cp"; "unix"; "nachos"; "-m"; " 7"; "-p"; "nachos"; "-o"; "2"; "-D"]%string =
    Ok (mkSettings EmptyString false None false true 1 7) ∧
  main network_build ["-f"; "-cp"; "unix"; "nachos"; "-m"; " 7"; "-p"; "nachos"; "-o"; "2"; "-D"]%string =
    ([CallCopy "unix" "nachos"; CallPrint "nachos"; CallDelay 2; CallMailTest 2]%string, InCall).
Proof.
  apply (command_line network_build [Ff; Fcp "unix" "nachos"; Fm " 7"; Fp "nachos"; Fo "2"; FD]%string);
    [reflexivity|repeat (constructor; [reflexivity|]); constructor].
Defined.

(** A kernel built with THREADS never gets to the flags of the other parts: its
    first loop has used up the arguments.  filesys/Makefile defines THREADS, so
    that kernel neither copies nor prints files. *)
Theorem threads_build_ignores b argv : THREADS b = true →
  (∃ n, main b argv = ([CallThreadTest n; CallFinish], InCall)) ∨ main b argv = ([], Undefined).
Proof.
  intros Hb. unfold main. rewrite Hb.
  assert (H : ∀ fuel argv n, (length argv <= fuel)%nat →
    (∃ m, arg_loop threads_arg fuel argv n = Ok m) ∨ arg_loop threads_arg fuel argv n = Undef).
  { clear. induction fuel as [|fuel IH]; intros [|a argv] n Hf; cbn [arg_loop]; eauto; [simpl in Hf; lia|].
    assert (Hb : threads_arg (a :: argv) n = Undef ∨
      ∃ m k, threads_arg (a :: argv) n = Ok (m, S k)).
    { unfold threads_arg, atoi. cbn [head default].
      repeat (case_match; simplify_eq; cbn [mbind outcome_bind]; eauto). }
    destruct Hb as [->|(m & k & ->)]; cbn [mbind outcome_bind]; [by right|].
    apply IH. cbn [drop]. rewrite length_drop. simpl in Hf. lia. }
  destruct (H (length argv) argv 1) as [[n ->]| ->]; [lia| |by right].
  left. by exists n.
Qed.
