(* ===== verification/BootKernel.v ===== *)
(** * threads/system.cc: the kernel Initialize builds, and Cleanup

    Initialize reads the command line, starts the interrupt controller, the timer
    and the main thread and enables interrupts; [Initialize] is that part, and its
    [Boot] holds the controller as it is when Enable returns.  The constructors of
    the other global objects follow, in the main thread with interrupts on: here
    they contribute the semaphores they make and the objects Cleanup deletes,
    while what they do as a thread (the disk requests of the file system, forking
    the postal worker) is part of the main thread's code, which is a parameter of
    the step relation of Sched.  threads/threadtest.cc is run on the result. *)

From Stdlib Require Import ZArith Lia Bool String.
From S2P Require Import Prelude Bytes Machine Interrupt InterruptProofs Sched SchedProofs Boot.

Local Open Scope Z_scope.

(** The global pointers of system.cc. *)
Inductive global :=
| G_stats | G_interrupt | G_scheduler | G_timer | G_currentThread | G_machine | G_gSynchConsole
| G_gPhysPageBitMap | G_addrLock | G_semTab | G_pTab | G_synchDisk | G_fileSystem | G_postOffice.

#[export] Instance global_eq_dec : EqDecision global.
Proof. solve_decision. Defined.

(** The initial values of the semaphores each constructor makes, in order. *)
Definition global_sems (g : global) : list Z :=
  match g with
  | G_gSynchConsole => [0; 0; 1; 1]  (* synchReadAvail, synchWriteAvail, RLineBlock, WLineBlock *)
  | G_addrLock => [1]
  | G_pTab => [1; 0; 0; 1]           (* bmsem; joinsem, exitsem, multex of process 0 *)
  | G_synchDisk => [0]
  | G_postOffice => [0; 0]           (* messageAvailable, messageSent *)
  | _ => []
  end.

Section Initialize.
Context {L : Type}.

Record Boot := mkBoot {
  bt_settings : Settings;
  bt_debug : option string;
  bt_timer : option (Timer unit);
  bt_sys : Sys unit Z;
  bt_kernel : Kernel L;
  bt_live : list global;
}.

(** new Semaphore(name, v) for each value, at the next addresses. *)
Definition new_sems (k : Kernel L) (vs : list Z) : Kernel L :=
  foldl (λ k v, set_sems k (<[Z.of_nat (size (semaphores k)) := Semaphore_new v]> (semaphores k))) k vs.

(** The objects of one #ifdef group, if it is compiled in. *)
Definition construct (on : bool) (gs : list global) (x : Kernel L * list global) : Kernel L * list global :=
  if on then (new_sems x.1 (concat (map global_sems gs)), x.2 ++ gs) else x.

(** The #ifdef groups at the end of Initialize. *)
Definition construct_all (b : build) (x : Kernel L * list global) : Kernel L * list global :=
  let x := construct (USER_PROGRAM b)
    [G_machine; G_gSynchConsole; G_gPhysPageBitMap; G_addrLock; G_semTab; G_pTab] x in
  let x := construct (FILESYS b) [G_synchDisk] x in
  let x := construct (FILESYS_NEEDED b) [G_fileSystem] x in
  construct (NETWORK b) [G_postOffice] x.

(** if (randomYield) timer = new Timer(TimerInterruptHandler, 0, randomYield); *)
Definition boot_timer (randomYield : bool) (random : Z) (s : Sys unit Z) : outcome (option (Timer unit) * Sys unit Z) :=
  if randomYield
  then '(t, s) ← Timer_new tt 0 tt 0 randomYield random s; Ok (Some t, s)
  else Ok (None, s).

(** The only handler there can be while Initialize runs. *)
Definition boot_call (timer : option (Timer unit)) : unit → Z → Sys unit Z → outcome (Sys unit Z) :=
  match timer with Some t => timer_call t | None => λ _ _ s, Ok s end.

(** Initialize up to Enable, with the semaphores and the list of the objects
    constructed after it.  [random] is what Random() returns for the timer,
    [garbage] what the register array of a new Thread holds, and [after] the code
    the main thread goes on with. *)
Definition Initialize (b : build) (argv : list string) (random : Z) (garbage : list Z) (after : L)
  : outcome Boot :=
  x ← Initialize_args b argv;
  let enableFlags := DebugInit (debugArgs x) in
  let s := mkSys Interrupt_new Statistics_new None random in
  '(timer, s) ← boot_timer (randomYield x) random s;
  let main_thread := Sched.setStatus (Thread_new garbage after) RUNNING in
  let live := [G_stats; G_interrupt; G_scheduler] ++ (if randomYield x then [G_timer] else []) ++ [G_currentThread] in
  '(yield, s) ← Enable (boot_call timer) s;
  let k := mkKernel {[ 0 := main_thread ]} 0 (Exec after) [] None ∅ (Machine_new (debugUserProg x))
             (level (interrupt s)) false in
  k ← (if (yield : bool) then Yield k (currentThread k) after else Ok k);
  let '(k, live) := construct_all b (k, live) in
  Ok (mkBoot x enableFlags timer s k live).
End Initialize.

Arguments Boot : clear implicits.



Section BootProofs.
Context {L : Type}.
Implicit Types (k : Kernel L) (th : Thread L).

















End BootProofs.


(** ** threads/threadtest.cc *)

(** The control points of the test: [SimpleThread which num] is at the printf
    of the loop, [SimpleYield which num] at the Yield after it. *)
Inductive tt_pc :=
| ThreadTest1
| SimpleThread (which num : Z)
| SimpleYield (which num : Z)
| NoTest.

(** ThreadTest: switch (testnum). *)
Definition ThreadTest (testnum : Z) : tt_pc := if testnum =? 1 then ThreadTest1 else NoTest.

(** When SimpleThread returns, the forked thread's ThreadRoot and the rest of main
    both call Finish. *)
Definition threadtest_code (l : tt_pc) : kop tt_pc :=
  match l with
  | ThreadTest1 => OpFork (SimpleThread 1 0) (SimpleThread 0 0)
  | SimpleThread which num => if num <? 5 then OpStep (SimpleYield which num) else OpFinish
  | SimpleYield which num => OpYield (SimpleThread which (num + 1))
  | NoTest => OpFinish
  end.

(** The line the next step of the running thread prints: *** thread %d looped %d
    times. *)
Definition prints (k : Kernel tt_pc) : list (Z * Z) :=
  match ctl k with
  | Exec (SimpleThread which num) => if num <? 5 then [(which, num)] else []
  | _ => []
  end.

(** Runs the kernel without interrupts, until the machine idles. *)
Fixpoint run_test (fuel : nat) (k : Kernel tt_pc) (out : list (Z * Z)) : outcome (list (Z * Z) * Kernel tt_pc) :=
  if match ctl k with Idling => true | _ => false end then Ok (out, k)
  else
    match fuel with
    | O => NoFuel
    | S fuel => k' ← step threadtest_code k; run_test fuel k' (out ++ prints k)
    end.

(** The kernel the test starts with, on any machine. *)
Definition test_kernel (m : Machine) : Kernel tt_pc :=
  let main_thread := Sched.setStatus (Thread_new (replicate 40 0) (ThreadTest 1)) RUNNING in
  let k := mkKernel {[ 0 := main_thread ]} 0 (Exec (ThreadTest 1)) [] None ∅ m IntOn false in
  (construct_all filesys_build (k, [])).1.

Lemma run_test_kernel m : ∃ k,
  run_test 60 (test_kernel m) [] = Ok (concat (map (λ num, [(0, num); (1, num)]) [0; 1; 2; 3; 4]), k) ∧
  threads k !! 0 = None ∧ Forall (λ p, th_susp p.2 = InFinish) (map_to_list (threads k)).
Proof.
  eexists. split; [vm_compute; reflexivity|]. split; [vm_compute; reflexivity|]. vm_compute. repeat constructor.
Qed.

(** The ping-pong of the test: with a kernel without -rs there is no timer, and
    the two threads print in turn; in the end both have finished.  The forked thread
    ran last, so it has not been deleted, and the main thread has. *)
Theorem ThreadTest_ping_pong : ∃ bt out k,
  Initialize filesys_build ["-q"; "1"]%string 0 (replicate 40 0) (ThreadTest 1) = Ok bt ∧
  bt_timer bt = None ∧
  run_test 60 (bt_kernel bt) [] = Ok (out, k) ∧
  out = concat (map (λ num, [(0, num); (1, num)]) [0; 1; 2; 3; 4]) ∧
  threads k !! 0 = None ∧ Forall (λ p, th_susp p.2 = InFinish) (map_to_list (threads k)).
Proof.
  assert (H : ∃ bt, Initialize filesys_build ["-q"; "1"]%string 0 (replicate 40 0) (ThreadTest 1) = Ok bt ∧
    bt_timer bt = None ∧ bt_kernel bt = test_kernel (Machine_new false)).
  { unfold Initialize. change (Initialize_args filesys_build _) with (Ok default_settings).
    cbn [mbind outcome_bind randomYield default_settings boot_timer].
    assert (He : ∃ s, Enable (boot_call None) (mkSys Interrupt_new Statistics_new None 0) = Ok (false, s) ∧
      level (interrupt s) = IntOn) by (eexists; split; vm_compute; reflexivity).
    destruct He as (s & -> & Hl). cbn [mbind outcome_bind debugUserProg]. rewrite Hl. unfold test_kernel, construct_all, construct.
    cbn [USER_PROGRAM FILESYS FILESYS_NEEDED NETWORK filesys_build fst snd].
    eexists. split; [reflexivity|]. split; reflexivity. }
  destruct H as (bt & Hi & Ht & Hk). destruct (run_test_kernel (Machine_new false)) as (k & Hr & Hf).
  eexists bt, _, k. rewrite Hk. exact (conj Hi (conj Ht (conj Hr (conj eq_refl Hf)))).
Qed.
