(* ===== verification/Switch.v ===== *)
(** * threads/switch.c, threads/switch.h, Thread::StackAllocate: the context switch

    The assembly code of SWITCH and ThreadRoot, run instruction by instruction.
    Words of memory are at addresses that are plain integers; the hypotheses on
    where objects and stacks lie keep the words apart.  Two hosts: the i386, which
    Makefile.dep selects, and the MIPS.  Sched assumes of SWITCH that a thread goes
    on where it called SWITCH, and that a new thread runs its function; the
    theorems here show it of the code. *)

From Stdlib Require Import ZArith Lia Bool.
From S2P Require Import Prelude Bytes Sched.

Local Open Scope Z_scope.

(** ** Memory *)

Definition memory := Z → Z.

Definition upd (m : memory) (a v : Z) : memory := λ b, if b =? a then v else m b.

Lemma upd_eq m a v b : b = a → upd m a v b = v.
Proof. intros ->. unfold upd. by rewrite Z.eqb_refl. Qed.

Lemma upd_ne m a v b : b ≠ a → upd m a v b = m b.
Proof. intros H. unfold upd. by apply Z.eqb_neq in H as ->. Qed.

(** Reads through writes, where lia can tell the addresses apart. *)
Ltac mem_simpl :=
  repeat match goal with
  | |- context [upd ?m ?a ?v ?b] => first [rewrite (upd_ne m a v b) by lia | rewrite (upd_eq m a v b) by lia]
  end.

(** No word of [a .. a+4n) is one of [b .. b+4k). *)
Definition apart (a n b k : Z) : Prop := a + 4 * n <= b ∨ b + 4 * k <= a.

Definition StackSize : Z := 4 * 1024.

Module I386.

(** ** switch.h, HOST_i386: offsets in a Thread object *)

Definition _ESP : Z := 0.
Definition _EAX : Z := 4.
Definition _EBX : Z := 8.
Definition _ECX : Z := 12.
Definition _EDX : Z := 16.
Definition _EBP : Z := 20.
Definition _ESI : Z := 24.
Definition _EDI : Z := 28.
Definition _PC : Z := 32.

Definition PCState : Z := _PC / 4 - 1.
Definition FPState : Z := _EBP / 4 - 1.
Definition InitialPCState : Z := _ESI / 4 - 1.
Definition InitialArgState : Z := _EDX / 4 - 1.
Definition WhenDonePCState : Z := _EDI / 4 - 1.
Definition StartupPCState : Z := _ECX / 4 - 1.

Inductive reg := eax | ebx | ecx | edx | esp | ebp | esi | edi.

Record regs := mkRegs { r_eax : Z; r_ebx : Z; r_ecx : Z; r_edx : Z; r_esp : Z; r_ebp : Z; r_esi : Z; r_edi : Z }.

Definition get (r : regs) (x : reg) : Z :=
  match x with
  | eax => r_eax r | ebx => r_ebx r | ecx => r_ecx r | edx => r_edx r
  | esp => r_esp r | ebp => r_ebp r | esi => r_esi r | edi => r_edi r
  end.

Definition put (r : regs) (x : reg) (v : Z) : regs :=
  let 'mkRegs a b c d s p i j := r in
  match x with
  | eax => mkRegs v b c d s p i j | ebx => mkRegs a v c d s p i j
  | ecx => mkRegs a b v d s p i j | edx => mkRegs a b c v s p i j
  | esp => mkRegs a b c d v p i j | ebp => mkRegs a b c d s v i j
  | esi => mkRegs a b c d s p v j | edi => mkRegs a b c d s p i v
  end.

Definition InitialPC : reg := esi.
Definition InitialArg : reg := edx.
Definition WhenDonePC : reg := edi.
Definition StartupPC : reg := ecx.

(** The instructions the two routines use, source operand first. *)
Inductive instr :=
| movl_rr (src dst : reg)
| movl_load (off : Z) (base dst : reg)
| movl_store (src : reg) (off : Z) (base : reg)
| movl_load_abs (addr : Z) (dst : reg)
| movl_store_abs (src : reg) (addr : Z)
| pushl (src : reg)
| popl (dst : reg)
| call (target : reg)
| ret.

Record state := mkState { rg : regs; mem : memory }.

(** Where control goes on: at the next instruction, at a function that is called,
    or at a return address. *)
Inductive next := Next | CallTo (f : Z) | ReturnTo (a : Z).

(** One instruction; [here] is the address of the next one. *)
Definition step1 (here : Z) (i : instr) (s : state) : next * state :=
  let '(mkState r m) := s in
  match i with
  | movl_rr x y => (Next, mkState (put r y (get r x)) m)
  | movl_load off b y => (Next, mkState (put r y (m (get r b + off))) m)
  | movl_store x off b => (Next, mkState r (upd m (get r b + off) (get r x)))
  | movl_load_abs a y => (Next, mkState (put r y (m a)) m)
  | movl_store_abs x a => (Next, mkState r (upd m a (get r x)))
  | pushl x => (Next, mkState (put r esp (get r esp - 4)) (upd m (get r esp - 4) (get r x)))
  | popl y => (Next, mkState (put (put r esp (get r esp + 4)) y (m (get r esp))) m)
  | call x => (CallTo (get r x), mkState (put r esp (get r esp - 4)) (upd m (get r esp - 4) here))
  | ret => (ReturnTo (m (get r esp)), mkState (put r esp (get r esp + 4)) m)
  end.

(** A call that was made: the function, and the word where its first argument is. *)
Record called := mkCalled { c_func : Z; c_arg : Z }.

(** Code at address [at_]; the addresses of its instructions are consecutive.
    [callee] is what a called function does up to its return.  The result: the
    calls made and, if the code returns, the return address and the state. *)
Fixpoint run (callee : Z → state → state) (at_ : Z) (code : list instr) (s : state)
  : list called * option (Z * state) :=
  match code with
  | [] => ([], None)
  | i :: code =>
      match step1 (at_ + 1) i s with
      | (Next, s) => run callee (at_ + 1) code s
      | (ReturnTo a, s) => ([], Some (a, s))
      | (CallTo f, s) =>
          let '(cs, r) := run callee (at_ + 1) code (callee f s) in
          (mkCalled f (mem s (get (rg s) esp + 4)) :: cs, r)
      end
  end.

(** ** switch.c, HOST_i386 *)

Definition ThreadRoot_code : list instr :=
  [ pushl ebp;
    movl_rr esp ebp;
    pushl InitialArg;
    call StartupPC;
    call InitialPC;
    call WhenDonePC;
    movl_rr ebp esp;
    popl ebp;
    ret ].

Definition SWITCH_code (_eax_save : Z) : list instr :=
  [ movl_store_abs eax _eax_save;
    movl_load 4 esp eax;
    movl_store ebx _EBX eax;
    movl_store ecx _ECX eax;
    movl_store edx _EDX eax;
    movl_store esi _ESI eax;
    movl_store edi _EDI eax;
    movl_store ebp _EBP eax;
    movl_store esp _ESP eax;
    movl_load_abs _eax_save ebx;
    movl_store ebx _EAX eax;
    movl_load 0 esp ebx;
    movl_store ebx _PC eax;
    movl_load 8 esp eax;
    movl_load _EAX eax ebx;
    movl_store_abs ebx _eax_save;
    movl_load _EBX eax ebx;
    movl_load _ECX eax ecx;
    movl_load _EDX eax edx;
    movl_load _ESI eax esi;
    movl_load _EDI eax edi;
    movl_load _EBP eax ebp;
    movl_load _ESP eax esp;
    movl_load _PC eax eax;
    movl_store eax 4 esp;
    movl_load_abs _eax_save eax;
    ret ].

(** SWITCH calls nothing: where it returns to, and the state then. *)
Definition SWITCH (_eax_save : Z) (s : state) : option (Z * state) :=
  (run (λ _ s, s) 0 (SWITCH_code _eax_save) s).2.

(** ** Thread::StackAllocate

    [t] is the Thread object, whose first words are stackTop and machineState;
    [stack] the array from AllocBoundedArray; the last four are the addresses of
    functions. *)
Definition StackAllocate (m : memory) (t stack func arg ThreadRoot InterruptEnable ThreadFinish : Z) : memory :=
  let stackTop := stack + 4 * (StackSize - 4) in
  let stackTop := stackTop - 4 in
  let m := upd m stackTop ThreadRoot in
  let m := upd m stack STACK_FENCEPOST in
  let m := upd m t stackTop in
  let machineState := t + 4 in
  let m := upd m (machineState + 4 * PCState) ThreadRoot in
  let m := upd m (machineState + 4 * StartupPCState) InterruptEnable in
  let m := upd m (machineState + 4 * InitialPCState) func in
  let m := upd m (machineState + 4 * InitialArgState) arg in
  upd m (machineState + 4 * WhenDonePCState) ThreadFinish.

(** ** What SWITCH does *)

(** The registers saved in a Thread object, and the state of a thread that has
    called SWITCH: [s_at] is the object, in the state [s] on entry. *)
Definition saved (m : memory) (t : Z) : regs :=
  mkRegs (m (t + _EAX)) (m (t + _EBX)) (m (t + _ECX)) (m (t + _EDX)) (m (t + _ESP)) (m (t + _EBP))
    (m (t + _ESI)) (m (t + _EDI)).

(** The layout SWITCH(t1, t2) needs: two Thread objects, the variable _eax_save,
    the three words on the stack of the caller and the two on the stack it
    switches to do not overlap. *)
Record layout (_eax_save : Z) (s : state) (t1 t2 : Z) : Prop := {
  lo_t1 : mem s (get (rg s) esp + 4) = t1;
  lo_t2 : mem s (get (rg s) esp + 8) = t2;
  lo_threads : apart t1 9 t2 9;
  lo_save1 : apart _eax_save 1 t1 9;
  lo_save2 : apart _eax_save 1 t2 9;
  lo_stack1 : apart (get (rg s) esp) 3 t1 9;
  lo_stack_save : apart (get (rg s) esp) 3 _eax_save 1;
  lo_new2 : apart (mem s (t2 + _ESP)) 2 t2 9;
  lo_new1 : apart (mem s (t2 + _ESP)) 2 t1 9;
  lo_new_save : apart (mem s (t2 + _ESP)) 2 _eax_save 1;
}.

(** ** Symbolic execution *)

Lemma run_Next callee at_ i code s s' :
  step1 (at_ + 1) i s = (Next, s') → run callee at_ (i :: code) s = run callee (at_ + 1) code s'.
Proof. intros H. cbn [run]. by rewrite H. Qed.

Lemma run_call callee at_ x code r m :
  let s := mkState (put r esp (get r esp - 4)) (upd m (get r esp - 4) (at_ + 1)) in
  (run callee at_ (call x :: code) (mkState r m)).1 =
    mkCalled (get r x) (mem s (get (rg s) esp + 4)) :: (run callee (at_ + 1) code (callee (get r x) s)).1.
Proof. cbn [run step1]. by destruct (run _ _ _ _). Qed.

Ltac offsets := unfold _ESP, _EAX, _EBX, _ECX, _EDX, _EBP, _ESI, _EDI, _PC in *.

(** One instruction, with what it loads simplified; [hyps] rewrites with known
    contents of memory. *)
Ltac sym hyps :=
  erewrite run_Next by (cbn [step1 get put r_eax r_ebx r_ecx r_edx r_esp r_ebp r_esi r_edi];
    rewrite ?Z.add_0_r; mem_simpl; hyps; reflexivity).

Lemma SWITCH_spec _eax_save s t1 t2 : layout _eax_save s t1 t2 →
  let sp' := mem s (t2 + _ESP) in
  ∃ s', SWITCH _eax_save s = Some (mem s sp', s') ∧
    rg s' = put (saved (mem s) t2) esp (sp' + 4) ∧
    saved (mem s') t1 = rg s ∧ mem s' (t1 + _PC) = mem s (get (rg s) esp) ∧
    ∀ a, apart a 1 t1 9 → a ≠ _eax_save → a ≠ sp' + 4 → mem s' a = mem s a.
Proof.
  intros [H1 H2 H3 H4 H5 H6 H7 H8 H9 H10] sp'. destruct s as [[a b c d sp bp si di] m].
  unfold sp', saved, apart in *. clear sp'. offsets. cbn [rg mem get r_esp] in *. rewrite ?Z.add_0_r in *.
  unfold SWITCH, SWITCH_code. offsets. do 26 sym ltac:(rewrite ?H1, ?H2).
  cbn [run step1 get put r_esp snd]. mem_simpl.
  eexists. split; [reflexivity|]. cbn [rg mem put]. split_and!.
  - reflexivity.
  - mem_simpl. reflexivity.
  - mem_simpl. reflexivity.
  - intros x Hx Hs Hn. mem_simpl. reflexivity.
Qed.

(** C20: a thread that calls SWITCH returns from it when it is switched to again.
    Let t1 call SWITCH(t1, t2) in state [s0].  Later, in a state [s2] of which only
    this is known, that the saved registers of t1 and the return address on its
    stack are still there, some thread t3 calls SWITCH(t3, t1).  That call returns
    to the return address of the first, with all eight registers as they were and
    the return address popped: to t1, SWITCH is a call that did nothing. *)
Theorem switch_resumes _eax_save s0 t1 t2 a1 s1 s2 t3 :
  layout _eax_save s0 t1 t2 → SWITCH _eax_save s0 = Some (a1, s1) →
  saved (mem s2) t1 = saved (mem s1) t1 → mem s2 (get (rg s0) esp) = mem s0 (get (rg s0) esp) →
  layout _eax_save s2 t3 t1 →
  ∃ s3, SWITCH _eax_save s2 = Some (mem s0 (get (rg s0) esp), s3) ∧
    rg s3 = put (rg s0) esp (get (rg s0) esp + 4).
Proof.
  intros Hl Hs Hsv Hra Hl'. destruct (SWITCH_spec _ _ _ _ Hl) as (s1' & Hs' & _ & Hsave & _).
  rewrite Hs in Hs'. injection Hs' as _ <-. rewrite Hsave in Hsv.
  destruct (SWITCH_spec _ _ _ _ Hl') as (s3 & Hs3 & Hr & _).
  assert (Hsp : mem s2 (t1 + _ESP) = get (rg s0) esp) by (rewrite <- Hsv; reflexivity).
  rewrite Hsp, Hra in Hs3. rewrite Hsp, Hsv in Hr. eauto.
Qed.

(** The C calling convention, for a function that reads [args] words of
    arguments: it pops its return address, keeps ebx, esi, edi and ebp, and leaves
    the stack above its arguments alone. *)
Definition cdecl (args : Z) (s s' : state) : Prop :=
  get (rg s') esp = get (rg s) esp + 4 ∧ get (rg s') ebx = get (rg s) ebx ∧
  get (rg s') esi = get (rg s) esi ∧ get (rg s') edi = get (rg s) edi ∧
  get (rg s') ebp = get (rg s) ebp ∧
  ∀ a, get (rg s) esp + 4 * (1 + args) <= a → mem s' a = mem s a.

(** ThreadRoot calls StartupPC, then InitialPC with InitialArg, then WhenDonePC. *)
Lemma ThreadRoot_calls callee at_ s :
  (∀ s', cdecl 0 s' (callee (get (rg s) StartupPC) s')) →
  (∀ s', cdecl 1 s' (callee (get (rg s) InitialPC) s')) →
  ∃ w1 w3, (run callee at_ ThreadRoot_code s).1 =
    [ mkCalled (get (rg s) StartupPC) w1; mkCalled (get (rg s) InitialPC) (get (rg s) InitialArg);
      mkCalled (get (rg s) WhenDonePC) w3 ].
Proof.
  intros H1 H2. destruct s as [[a b c d sp bp si di] m].
  unfold ThreadRoot_code, StartupPC, InitialPC, InitialArg, WhenDonePC in *.
  cbn [rg get r_ecx r_esi r_edx r_edi] in *. do 3 sym idtac.
  rewrite run_call. cbn [get put rg mem r_ecx r_esp]. set (s1 := mkState _ _).
  pose proof (H1 s1) as Hc1. destruct (callee c s1) as [[a' b' c' d' sp' bp' si' di'] m'].
  destruct Hc1 as (Hsp & _ & Hsi & Hdi & _ & Hm). unfold s1 in Hsp, Hsi, Hdi, Hm. clear s1.
  cbn [rg mem get r_esp r_esi r_edi] in Hsp, Hsi, Hdi, Hm. subst sp' si' di'.
  rewrite run_call. cbn [get put rg mem r_esi r_esp]. set (s2 := mkState _ _).
  pose proof (H2 s2) as Hc2. destruct (callee si s2) as [[a'' b'' c'' d'' sp'' bp'' si'' di''] m''].
  destruct Hc2 as (_ & _ & _ & Hdi' & _ & _). unfold s2 in Hdi'. clear s2. cbn [rg get r_edi] in Hdi'. subst di''.
  rewrite run_call. cbn [get put rg mem r_edi r_esp]. destruct (callee di _) as [[] ?]. cbn [run step1 fst].
  eexists _, _. f_equal. f_equal. f_equal. mem_simpl. rewrite Hm by lia. mem_simpl. reflexivity.
Qed.

(** What StackAllocate leaves in the Thread object and on the stack. *)
Lemma StackAllocate_ok m t stack func arg ThreadRoot InterruptEnable ThreadFinish :
  apart stack StackSize t 9 →
  let m1 := StackAllocate m t stack func arg ThreadRoot InterruptEnable ThreadFinish in
  let stackTop := stack + 4 * (StackSize - 4) - 4 in
  m1 (t + _ESP) = stackTop ∧ m1 stackTop = ThreadRoot ∧ m1 stack = STACK_FENCEPOST ∧
  m1 (t + _ECX) = InterruptEnable ∧ m1 (t + _ESI) = func ∧ m1 (t + _EDX) = arg ∧ m1 (t + _EDI) = ThreadFinish.
Proof.
  unfold apart, StackAllocate, StackSize. cbv zeta. offsets.
  change PCState with 7. change StartupPCState with 2. change InitialPCState with 5.
  change InitialArgState with 3. change WhenDonePCState with 6. intros Hap.
  split_and!; mem_simpl; reflexivity.
Qed.

(** C21: a forked thread runs its function.  StackAllocate prepares the Thread
    object [t] and its stack.  When some thread then calls SWITCH(t1, t), SWITCH
    returns into ThreadRoot, which enables interrupts, calls the function with its
    argument and calls ThreadFinish when the function returns, whatever the
    functions do, as long as they keep to the C calling convention. *)
Theorem fork_runs_function _eax_save m t stack func arg ThreadRoot InterruptEnable ThreadFinish s t1 callee :
  apart stack StackSize t 9 →
  let m1 := StackAllocate m t stack func arg ThreadRoot InterruptEnable ThreadFinish in
  (∀ a, t <= a < t + 36 → mem s a = m1 a) → (∀ a, stack <= a < stack + 4 * StackSize → mem s a = m1 a) →
  layout _eax_save s t1 t →
  (∀ s', cdecl 0 s' (callee InterruptEnable s')) → (∀ s', cdecl 1 s' (callee func s')) →
  ∃ s' w1 w3, SWITCH _eax_save s = Some (ThreadRoot, s') ∧
    (run callee ThreadRoot ThreadRoot_code s').1 =
      [mkCalled InterruptEnable w1; mkCalled func arg; mkCalled ThreadFinish w3].
Proof.
  intros Hap m1 Ht Hst Hl He Hf. destruct (SWITCH_spec _ _ _ _ Hl) as (s' & Hs & Hr & _).
  destruct (StackAllocate_ok m t stack func arg ThreadRoot InterruptEnable ThreadFinish Hap)
    as (M1 & M2 & _ & M4 & M5 & M6 & M7). fold m1 in M1, M2, M4, M5, M6, M7.
  unfold saved in Hr. rewrite !Ht in Hr by (offsets; lia). rewrite (Ht (t + _ESP)) in Hs by (offsets; lia).
  rewrite M1, M4, M5, M6, M7 in Hr. rewrite M1, Hst, M2 in Hs by (unfold StackSize; lia). exists s'.
  assert (Hregs : get (rg s') StartupPC = InterruptEnable ∧ get (rg s') InitialPC = func ∧
    get (rg s') InitialArg = arg ∧ get (rg s') WhenDonePC = ThreadFinish) by (by rewrite Hr).
  destruct Hregs as (R1 & R2 & R3 & R4).
  destruct (ThreadRoot_calls callee ThreadRoot s') as (w1 & w3 & Hc); [by rewrite R1|by rewrite R2|].
  rewrite R1, R2, R3, R4 in Hc. exists w1, w3. split; [exact Hs|exact Hc].
Qed.

(** ** Examples *)

(** Thread objects at 1000 and 2000, _eax_save at 500, stacks at 10000 and
    100000; thread 1000 calls SWITCH(1000, 2000) with the return address 77. *)
Definition demo_state : state :=
  mkState (mkRegs 1 2 3 4 10000 5 6 7)
    (upd (upd (upd (upd (upd (λ _, 0) 2000 20000) 20000 88) 10000 77) 10004 1000) 10008 2000).

(** The other thread, running with its stack pointer at 20000, calls SWITCH(2000,
    1000) with the return address 99. *)
Definition demo_later (s1 : state) : state :=
  mkState (mkRegs 9 9 9 9 20000 9 9 9) (upd (upd (upd (mem s1) 20000 99) 20004 2000) 20008 1000).

Lemma switch_resumes_witness : ∃ a1 s1 s3,
  SWITCH 500 demo_state = Some (a1, s1) ∧ SWITCH 500 (demo_later s1) = Some (77, s3) ∧
  rg s3 = mkRegs 1 2 3 4 10004 5 6 7.
Proof.
  assert (Hl : layout 500 demo_state 1000 2000).
  { split; [reflexivity|reflexivity|..]; unfold apart; vm_compute; first [left; discriminate|right; discriminate]. }
  destruct (SWITCH_spec 500 demo_state 1000 2000 Hl) as (s1 & Hs1 & _ & Hsv & _ & Hm).
  destruct (switch_resumes 500 demo_state 1000 2000 88 s1 (demo_later s1) 2000) as (s3 & H3 & Hr).
  - exact Hl.
  - exact Hs1.
  - unfold demo_later, saved. offsets. cbn [mem]. mem_simpl. reflexivity.
  - change (upd (upd (upd (mem s1) 20000 99) 20004 2000) 20008 1000 10000 = 77). mem_simpl.
    rewrite Hm; [reflexivity|unfold apart; lia|lia|vm_compute; discriminate].
  - assert (Hsp : mem s1 1000 = 10000) by (injection Hsv as _ _ _ _ H _ _ _; exact H).
    split; unfold demo_later, apart; offsets; cbn [mem rg get r_esp]; mem_simpl; try reflexivity; try lia;
      change (1000 + 0) with 1000; rewrite Hsp; lia.
  - exists 88, s1, s3. split; [exact Hs1|]. split; [exact H3|exact Hr].
Defined.

(** Forking thread 2000 with its stack at 100000; the functions return at once. *)
Definition demo_forked : state :=
  mkState (mkRegs 1 2 3 4 10000 5 6 7)
    (upd (upd (upd (StackAllocate (λ _, 0) 2000 100000 11 42 12 13 14) 10000 77) 10004 1000) 10008 2000).

Definition demo_return (f : Z) (s : state) : state := mkState (put (rg s) esp (get (rg s) esp + 4)) (mem s).

Lemma demo_return_cdecl f args s : cdecl args s (demo_return f s).
Proof. destruct s as [[] m]. by split_and!. Qed.

Lemma fork_runs_function_witness : ∃ s' w1 w3, SWITCH 500 demo_forked = Some (12, s') ∧
  (run demo_return 12 ThreadRoot_code s').1 = [mkCalled 13 w1; mkCalled 11 42; mkCalled 14 w3].
Proof.
  assert (Hap : apart 100000 StackSize 2000 9) by (right; vm_compute; discriminate).
  destruct (StackAllocate_ok (λ _, 0) 2000 100000 11 42 12 13 14 Hap) as (M1 & _).
  apply (fork_runs_function 500 (λ _, 0) 2000 100000 11 42 12 13 14 demo_forked 1000 demo_return Hap).
  - intros a Ha. unfold demo_forked. cbn [mem]. mem_simpl. reflexivity.
  - intros a Ha. unfold demo_forked. cbn [mem]. mem_simpl. reflexivity.
  - split; [reflexivity|reflexivity|..]; unfold demo_forked, apart; cbn [mem rg get r_esp]; try (left; discriminate);
      try (right; discriminate); mem_simpl; rewrite M1; unfold StackSize; lia.
  - intros s. apply demo_return_cdecl.
  - intros s. apply demo_return_cdecl.
Defined.
End I386.

Module MIPS.

(** ** switch.h, HOST_MIPS *)

Definition SP : Z := 0.
Definition S0 : Z := 4.
Definition S1 : Z := 8.
Definition S2 : Z := 12.
Definition S3 : Z := 16.
Definition S4 : Z := 20.
Definition S5 : Z := 24.
Definition S6 : Z := 28.
Definition S7 : Z := 32.
Definition FP : Z := 36.
Definition PC : Z := 40.

Definition mips_PCState : Z := PC / 4 - 1.
Definition mips_InitialPCState : Z := S0 / 4 - 1.
Definition mips_InitialArgState : Z := S1 / 4 - 1.
Definition mips_WhenDonePCState : Z := S2 / 4 - 1.
Definition mips_StartupPCState : Z := S3 / 4 - 1.

(** The symbolic register names of switch.c. *)
Definition z : Z := 0.
Definition a0 : Z := 4.
Definition a1 : Z := 5.
Definition s0 : Z := 16.
Definition s1 : Z := 17.
Definition s2 : Z := 18.
Definition s3 : Z := 19.
Definition s4 : Z := 20.
Definition s5 : Z := 21.
Definition s6 : Z := 22.
Definition s7 : Z := 23.
Definition sp : Z := 29.
Definition fp : Z := 30.
Definition ra : Z := 31.

Definition mips_InitialPC : Z := s0.
Definition mips_InitialArg : Z := s1.
Definition mips_WhenDonePC : Z := s2.
Definition mips_StartupPC : Z := s3.

(** The instructions, as the assembler takes them: it fills the delay slots. *)
Inductive instr :=
| or_ (rd rs rt : Z)
| move (rd rs : Z)
| sw (rt off base : Z)
| lw (rt off base : Z)
| jal (r : Z)
| j (r : Z).

(** Registers by number, as words of another memory. *)
Record state := mkState { rg : memory; mem : memory }.

Inductive next := Next | CallTo (f : Z) | JumpTo (a : Z).

Definition step1 (here : Z) (i : instr) (s : state) : next * state :=
  let '(mkState r m) := s in
  match i with
  | or_ rd rs rt => (Next, mkState (upd r rd (Z.lor (r rs) (r rt))) m)
  | move rd rs => (Next, mkState (upd r rd (r rs)) m)
  | sw rt off b => (Next, mkState r (upd m (r b + off) (r rt)))
  | lw rt off b => (Next, mkState (upd r rt (m (r b + off))) m)
  | jal x => (CallTo (r x), mkState (upd r ra here) m)
  | j x => (JumpTo (r x), mkState r m)
  end.

(** A call that was made, with its argument register. *)
Record called := mkCalled { c_func : Z; c_a0 : Z }.

Fixpoint run (callee : Z → state → state) (at_ : Z) (code : list instr) (s : state)
  : list called * option (Z * state) :=
  match code with
  | [] => ([], None)
  | i :: code =>
      match step1 (at_ + 1) i s with
      | (Next, s) => run callee (at_ + 1) code s
      | (JumpTo a, s) => ([], Some (a, s))
      | (CallTo f, s) =>
          let '(cs, r) := run callee (at_ + 1) code (callee f s) in
          (mkCalled f (rg s a0) :: cs, r)
      end
  end.

(** ** switch.c, HOST_MIPS *)

Definition mips_ThreadRoot_code : list instr :=
  [ or_ fp z z;
    jal mips_StartupPC;
    move a0 mips_InitialArg;
    jal mips_InitialPC;
    jal mips_WhenDonePC ].

Definition mips_SWITCH_code : list instr :=
  [ sw sp SP a0;
    sw s0 S0 a0;
    sw s1 S1 a0;
    sw s2 S2 a0;
    sw s3 S3 a0;
    sw s4 S4 a0;
    sw s5 S5 a0;
    sw s6 S6 a0;
    sw s7 S7 a0;
    sw fp FP a0;
    sw ra PC a0;
    lw sp SP a1;
    lw s0 S0 a1;
    lw s1 S1 a1;
    lw s2 S2 a1;
    lw s3 S3 a1;
    lw s4 S4 a1;
    lw s5 S5 a1;
    lw s6 S6 a1;
    lw s7 S7 a1;
    lw fp FP a1;
    lw ra PC a1;
    j ra ].

Definition mips_SWITCH (s : state) : option (Z * state) := (run (λ _ s, s) 0 mips_SWITCH_code s).2.

Definition mips_StackAllocate (m : memory) (t stack func arg ThreadRoot InterruptEnable ThreadFinish : Z) : memory :=
  let stackTop := stack + 4 * (StackSize - 4) in
  let m := upd m stack STACK_FENCEPOST in
  let m := upd m t stackTop in
  let machineState := t + 4 in
  let m := upd m (machineState + 4 * mips_PCState) ThreadRoot in
  let m := upd m (machineState + 4 * mips_StartupPCState) InterruptEnable in
  let m := upd m (machineState + 4 * mips_InitialPCState) func in
  let m := upd m (machineState + 4 * mips_InitialArgState) arg in
  upd m (machineState + 4 * mips_WhenDonePCState) ThreadFinish.

(** ** What SWITCH does *)

(** The registers a Thread object keeps, with their places in it. *)
Definition kept : list (Z * Z) :=
  [ (sp, SP); (s0, S0); (s1, S1); (s2, S2); (s3, S3); (s4, S4); (s5, S5); (s6, S6); (s7, S7); (fp, FP); (ra, PC) ].

Lemma mips_run_Next callee at_ i code s s' :
  step1 (at_ + 1) i s = (Next, s') → run callee at_ (i :: code) s = run callee (at_ + 1) code s'.
Proof. intros H. cbn [run]. by rewrite H. Qed.

Lemma run_jal callee at_ x code r m :
  let s := mkState (upd r ra (at_ + 1)) m in
  (run callee at_ (jal x :: code) (mkState r m)).1 =
    mkCalled (r x) (rg s a0) :: (run callee (at_ + 1) code (callee (r x) s)).1.
Proof. cbn [run step1]. by destruct (run _ _ _ _). Qed.

Ltac names := unfold z, a0, a1, s0, s1, s2, s3, s4, s5, s6, s7, sp, fp, ra,
  SP, S0, S1, S2, S3, S4, S5, S6, S7, FP, PC in *.

Ltac sym := erewrite mips_run_Next by (cbn [step1]; mem_simpl; reflexivity).

(** SWITCH(t1, t2): the registers move to t1 and come from t2. *)
Lemma mips_SWITCH_spec s : apart (rg s a0) 11 (rg s a1) 11 →
  ∃ s', mips_SWITCH s = Some (mem s (rg s a1 + PC), s') ∧
    Forall (λ p, rg s' p.1 = mem s (rg s a1 + p.2) ∧ mem s' (rg s a0 + p.2) = rg s p.1) kept ∧
    ∀ a, apart a 1 (rg s a0) 11 → mem s' a = mem s a.
Proof.
  destruct s as [r m]. unfold mips_SWITCH, mips_SWITCH_code, kept, apart. cbn [rg mem]. names. intros Hap.
  do 22 sym. cbn [run step1 snd]. mem_simpl. eexists. split; [reflexivity|]. cbn [rg mem]. split.
  - repeat constructor; cbn [fst snd]; mem_simpl; reflexivity.
  - intros a Ha. mem_simpl. reflexivity.
Qed.

(** A thread goes on after SWITCH with the registers it had. *)
Theorem mips_switch_resumes st0 a st1 st2 :
  apart (rg st0 a0) 11 (rg st0 a1) 11 → mips_SWITCH st0 = Some (a, st1) →
  apart (rg st2 a0) 11 (rg st2 a1) 11 → rg st2 a1 = rg st0 a0 →
  (∀ b, rg st0 a0 <= b < rg st0 a0 + 44 → mem st2 b = mem st1 b) →
  ∃ st3, mips_SWITCH st2 = Some (rg st0 ra, st3) ∧ Forall (λ p, rg st3 p.1 = rg st0 p.1) kept.
Proof.
  intros H0 Hs H2 Ht Hm. destruct (mips_SWITCH_spec st0 H0) as (st1' & Hs' & Hk & _).
  rewrite Hs in Hs'. injection Hs' as _ <-.
  destruct (mips_SWITCH_spec st2 H2) as (st3 & Hs3 & Hk3 & _). rewrite Ht in Hs3, Hk3. exists st3.
  assert (Hall : Forall (λ p, mem st2 (rg st0 a0 + p.2) = rg st0 p.1) kept).
  { eapply Forall_impl; [apply Forall_and; split; [exact Hk|]|].
    - instantiate (1 := λ p, 0 <= p.2 < 44). unfold kept. names. repeat constructor; cbn; lia.
    - intros p [[_ H] Hp]. rewrite Hm by lia. exact H. }
  split.
  - rewrite Hs3. unfold kept in Hall. rewrite !Forall_cons in Hall.
    destruct Hall as (_ & _ & _ & _ & _ & _ & _ & _ & _ & _ & H & _). cbn [fst snd] in H. by rewrite H.
  - eapply Forall_impl; [apply Forall_and; split; [exact Hk3|exact Hall]|]. intros p [[H _] H']. congruence.
Qed.

Lemma mips_switch_resumes_witness : ∃ a st1 st3,
  let st0 := mkState (upd (upd (upd (λ r, r) a0 1000) a1 2000) ra 77) (λ _, 0) in
  mips_SWITCH st0 = Some (a, st1) ∧
  mips_SWITCH (mkState (upd (upd (λ r, 0) a0 2000) a1 1000) (mem st1)) = Some (77, st3) ∧ rg st3 s3 = 19.
Proof.
  set (st0 := mkState (upd (upd (upd (λ r, r) a0 1000) a1 2000) ra 77) (λ _, 0)).
  assert (H0 : apart (rg st0 a0) 11 (rg st0 a1) 11) by (left; vm_compute; discriminate).
  destruct (mips_SWITCH_spec st0 H0) as (st1 & Hs & _).
  destruct (mips_switch_resumes st0 _ st1 (mkState (upd (upd (λ r, 0) a0 2000) a1 1000) (mem st1)) H0 Hs)
    as (st3 & H3 & Hk); [right; vm_compute; discriminate|reflexivity|done|].
  eexists _, st1, st3. split; [exact Hs|]. split; [exact H3|].
  unfold kept in Hk. rewrite !Forall_cons in Hk. destruct Hk as (_ & _ & _ & _ & H & _). exact H.
Defined.

Lemma mips_StackAllocate_ok m t stack func arg ThreadRoot InterruptEnable ThreadFinish :
  apart stack StackSize t 11 →
  let m1 := mips_StackAllocate m t stack func arg ThreadRoot InterruptEnable ThreadFinish in
  m1 (t + PC) = ThreadRoot ∧ m1 (t + S0) = func ∧ m1 (t + S1) = arg ∧ m1 (t + S2) = ThreadFinish ∧
  m1 (t + S3) = InterruptEnable.
Proof.
  unfold apart, mips_StackAllocate, StackSize. cbv zeta. names.
  change mips_PCState with 9. change mips_StartupPCState with 3. change mips_InitialPCState with 0.
  change mips_InitialArgState with 1. change mips_WhenDonePCState with 2. intros Hap.
  split_and!; mem_simpl; reflexivity.
Qed.

(** A forked thread runs its function. *)
Theorem mips_fork_runs_function m t stack func arg ThreadRoot InterruptEnable ThreadFinish st callee :
  apart stack StackSize t 11 →
  let m1 := mips_StackAllocate m t stack func arg ThreadRoot InterruptEnable ThreadFinish in
  (∀ a, t <= a < t + 44 → mem st a = m1 a) → apart (rg st a0) 11 t 11 → rg st a1 = t →
  (∀ f st' p, p ∈ kept → p.1 ≠ ra → rg (callee f st') p.1 = rg st' p.1) →
  ∃ st' w1 w3, mips_SWITCH st = Some (ThreadRoot, st') ∧
    (run callee ThreadRoot mips_ThreadRoot_code st').1 =
      [mkCalled InterruptEnable w1; mkCalled func arg; mkCalled ThreadFinish w3].
Proof.
  intros Hap m1 Hm Ht1 Ht Hc. rewrite <- Ht in Ht1. destruct (mips_SWITCH_spec st Ht1) as (st' & Hs & Hk & _). rewrite Ht in Hs, Hk.
  unfold kept in Hk. rewrite !Forall_cons in Hk. cbn [fst snd] in Hk.
  destruct Hk as ([K0 _] & [K1 _] & [K2 _] & [K3 _] & [K4 _] & _ & _ & _ & _ & _ & [K5 _] & _).
  rewrite Hm in K1, K2, K3, K4, K5, Hs by (names; lia).
  destruct (mips_StackAllocate_ok m t stack func arg ThreadRoot InterruptEnable ThreadFinish Hap) as (M0 & M1 & M2 & M3 & M4).
  fold m1 in M0, M1, M2, M3, M4. rewrite M1 in K1. rewrite M2 in K2. rewrite M3 in K3. rewrite M4 in K4. rewrite M0 in Hs.
  assert (Hin : ∀ f st'', rg (callee f st'') s0 = rg st'' s0 ∧ rg (callee f st'') s1 = rg st'' s1 ∧ rg (callee f st'') s2 = rg st'' s2).
  { intros f st''. split_and!; [apply (Hc f st'' (s0, S0))|apply (Hc f st'' (s1, S1))|apply (Hc f st'' (s2, S2))];
      first [by repeat constructor|vm_compute; discriminate]. }
  exists st'. rewrite Hs. destruct st' as [r m']. cbn [rg] in K1, K2, K3, K4.
  unfold mips_ThreadRoot_code. sym. rewrite run_jal. set (c1 := mkCalled _ _). set (x1 := mkState (upd _ ra _) _).
  destruct (Hin (upd r fp (Z.lor (r z) (r z)) mips_StartupPC) x1) as (I1 & I2 & I3).
  destruct (callee _ x1) as [r2 m2]. cbn [rg x1] in I1, I2, I3. sym. rewrite run_jal. set (c2 := mkCalled _ _). set (x2 := mkState (upd _ ra _) _).
  destruct (Hin (upd r2 a0 (r2 mips_InitialArg) mips_InitialPC) x2) as (_ & _ & J3).
  destruct (callee _ x2) as [r3 m3]. cbn [rg x2] in J3. rewrite run_jal. set (c3 := mkCalled _ _). cbn [run fst].
  unfold mips_InitialPC, mips_InitialArg, mips_StartupPC, mips_WhenDonePC in *. cbn [rg] in *. names.
  exists (c_a0 c1), (c_a0 c3). split; [reflexivity|]. unfold c1, c2, c3. cbn [c_a0 rg].
  rewrite J3. mem_simpl. rewrite I1, I2, I3. mem_simpl. by rewrite K1, K2, K3, K4.
Qed.
End MIPS.
