(* ===== verification/SwitchSnake.v ===== *)
(** * threads/switch.c, threads/switch.h, Thread::StackAllocate on the HP PA-RISC

    The HOST_SNAKE part of the context switch, with the branch delay slots the
    code itself fills.  The stack of this host grows upwards.  The theorems are
    those of Switch for the other hosts. *)

From Stdlib Require Import ZArith Lia Bool.
From S2P Require Import Prelude Bytes Sched Switch.

Local Open Scope Z_scope.

Module Snake.

(** ** switch.h, HOST_SNAKE: offsets in a Thread object *)

Definition SP : Z := 0.
Definition S0 : Z := 4.
Definition S1 : Z := 8.
Definition S2 : Z := 12.
Definition S3 : Z := 16.
Definition S4 : Z := 20.
Definition S5 : Z := 24.
Definition S6 : Z := 28.
Definition S7 : Z := 32.
Definition S8 : Z := 36.
Definition S9 : Z := 40.
Definition S10 : Z := 44.
Definition S11 : Z := 48.
Definition S12 : Z := 52.
Definition S13 : Z := 56.
Definition S14 : Z := 60.
Definition S15 : Z := 64.
Definition PC : Z := 68.

Definition snake_PCState : Z := PC / 4 - 1.
Definition snake_InitialPCState : Z := S0 / 4 - 1.
Definition snake_InitialArgState : Z := S1 / 4 - 1.
Definition snake_WhenDonePCState : Z := S2 / 4 - 1.
Definition snake_StartupPCState : Z := S3 / 4 - 1.

(** rp = r2, sp = r30, arg0 = r26, arg1 = r25; register 0 reads as zero. *)
Definition rp : Z := 2.
Definition sp : Z := 30.
Definition arg0 : Z := 26.
Definition arg1 : Z := 25.

Definition snake_InitialPC : Z := 3.
Definition snake_InitialArg : Z := 4.
Definition snake_WhenDonePC : Z := 5.
Definition snake_StartupPC : Z := 6.

(** Operands in the order of the assembler: the target comes last. *)
Inductive instr :=
| or_ (r1 r2 t : Z)
| stw (r off base : Z)
| ldw (off base t : Z)
| ble (base : Z)
| bv (base : Z).

Record state := mkState { rg : memory; mem : memory }.

(** An instruction that does not branch. *)
Definition straight (i : instr) (s : state) : option state :=
  let '(mkState r m) := s in
  match i with
  | or_ r1 r2 t => Some (mkState (upd r t (Z.lor (r r1) (r r2))) m)
  | stw x off b => Some (mkState r (upd m (r b + off) (r x)))
  | ldw off b t => Some (mkState (upd r t (m (r b + off))) m)
  | ble _ | bv _ => None
  end.

(** A call that was made: where to, with the argument and the return address it got. *)
Record called := mkCalled { c_func : Z; c_arg0 : Z; c_rp : Z }.

(** A branch takes its target, and [ble] puts the address after the delay slot in
    r31, before the instruction in the delay slot runs. *)
Fixpoint run (callee : Z → state → state) (at_ : Z) (code : list instr) (s : state)
  : list called * option (Z * state) :=
  match code with
  | [] => ([], None)
  | ble b :: slot :: code =>
      let f := rg s b in
      match straight slot (mkState (upd (rg s) 31 (at_ + 2)) (mem s)) with
      | None => ([], None)
      | Some s =>
          let '(cs, r) := run callee (at_ + 2) code (callee f s) in
          (mkCalled f (rg s arg0) (rg s rp) :: cs, r)
      end
  | bv b :: slot :: _ =>
      let a := rg s b in ([], match straight slot s with Some s => Some (a, s) | None => None end)
  | i :: code =>
      match straight i s with
      | Some s => run callee (at_ + 1) code s
      | None => ([], None)
      end
  end.

(** ** switch.c, HOST_SNAKE *)

Definition snake_ThreadRoot_code : list instr :=
  [ ble snake_StartupPC;
    or_ 31 0 rp;
    or_ snake_InitialArg 0 arg0;
    ble snake_InitialPC;
    or_ 31 0 rp;
    ble snake_WhenDonePC;
    or_ 31 0 rp ].

Definition snake_SWITCH_code : list instr :=
  [ stw sp SP arg0;
    stw 3 S0 arg0;
    stw 4 S1 arg0;
    stw 5 S2 arg0;
    stw 6 S3 arg0;
    stw 7 S4 arg0;
    stw 8 S5 arg0;
    stw 9 S6 arg0;
    stw 10 S7 arg0;
    stw 11 S8 arg0;
    stw 12 S9 arg0;
    stw 13 S10 arg0;
    stw 14 S11 arg0;
    stw 15 S12 arg0;
    stw 16 S13 arg0;
    stw 17 S14 arg0;
    stw 18 S15 arg0;
    stw rp PC arg0;
    ldw SP arg1 sp;
    ldw S0 arg1 3;
    ldw S1 arg1 4;
    ldw S2 arg1 5;
    ldw S3 arg1 6;
    ldw S4 arg1 7;
    ldw S5 arg1 8;
    ldw S6 arg1 9;
    ldw S7 arg1 10;
    ldw S8 arg1 11;
    ldw S9 arg1 12;
    ldw S10 arg1 13;
    ldw S11 arg1 14;
    ldw S12 arg1 15;
    ldw S13 arg1 16;
    ldw S14 arg1 17;
    ldw PC arg1 rp;
    bv rp;
    ldw S15 arg1 18 ].

Definition snake_SWITCH (s : state) : option (Z * state) := (run (λ _ s, s) 0 snake_SWITCH_code s).2.

(** Thread::StackAllocate: the stack starts after a frame marker of 64 bytes and
    its fence is the last word. *)
Definition snake_StackAllocate (m : memory) (t stack func arg ThreadRoot InterruptEnable ThreadFinish : Z) : memory :=
  let stackTop := stack + 4 * 16 in
  let m := upd m t stackTop in
  let m := upd m (stack + 4 * (StackSize - 1)) STACK_FENCEPOST in
  let machineState := t + 4 in
  let m := upd m (machineState + 4 * snake_PCState) ThreadRoot in
  let m := upd m (machineState + 4 * snake_StartupPCState) InterruptEnable in
  let m := upd m (machineState + 4 * snake_InitialPCState) func in
  let m := upd m (machineState + 4 * snake_InitialArgState) arg in
  upd m (machineState + 4 * snake_WhenDonePCState) ThreadFinish.

(** ** What SWITCH does *)

(** The registers a Thread object keeps, with their places in it. *)
Definition kept : list (Z * Z) :=
  [ (sp, SP); (3, S0); (4, S1); (5, S2); (6, S3); (7, S4); (8, S5); (9, S6); (10, S7); (11, S8); (12, S9);
    (13, S10); (14, S11); (15, S12); (16, S13); (17, S14); (18, S15); (rp, PC) ].

Lemma run_stw callee at_ x off b code r m :
  run callee at_ (stw x off b :: code) (mkState r m) = run callee (at_ + 1) code (mkState r (upd m (r b + off) (r x))).
Proof. reflexivity. Qed.

Lemma run_ldw callee at_ off b t code r m :
  run callee at_ (ldw off b t :: code) (mkState r m) = run callee (at_ + 1) code (mkState (upd r t (m (r b + off))) m).
Proof. reflexivity. Qed.

Lemma run_or callee at_ r1 r2 t code r m :
  run callee at_ (or_ r1 r2 t :: code) (mkState r m) =
    run callee (at_ + 1) code (mkState (upd r t (Z.lor (r r1) (r r2))) m).
Proof. reflexivity. Qed.

(** A call whose delay slot moves the return address from r31 to rp. *)
Lemma run_ble callee at_ b code r m : r 0 = 0 →
  let s := mkState (upd (upd r 31 (at_ + 2)) rp (at_ + 2)) m in
  (run callee at_ (ble b :: or_ 31 0 rp :: code) (mkState r m)).1 =
    mkCalled (r b) (r arg0) (at_ + 2) :: (run callee (at_ + 2) code (callee (r b) s)).1.
Proof.
  intros H0. cbn [run straight rg mem]. unfold rp, arg0. mem_simpl. rewrite H0, Z.lor_0_r.
  by destruct (run _ _ _ _).
Qed.

Ltac names := unfold sp, rp, arg0, arg1, SP, S0, S1, S2, S3, S4, S5, S6, S7, S8, S9, S10, S11, S12, S13, S14, S15, PC in *.

(** SWITCH(t1, t2): the registers move to t1 and come from t2. *)
Lemma snake_SWITCH_spec s : apart (rg s arg0) 18 (rg s arg1) 18 →
  ∃ s', snake_SWITCH s = Some (mem s (rg s arg1 + PC), s') ∧
    Forall (λ p, rg s' p.1 = mem s (rg s arg1 + p.2) ∧ mem s' (rg s arg0 + p.2) = rg s p.1) kept ∧
    (∀ a, apart a 1 (rg s arg0) 18 → mem s' a = mem s a) ∧ rg s' 0 = rg s 0.
Proof.
  destruct s as [r m]. unfold snake_SWITCH, snake_SWITCH_code, kept, apart. cbn [rg mem]. names. intros Hap.
  do 18 rewrite run_stw. do 17 (rewrite run_ldw; mem_simpl). cbn [run straight rg mem snd]. mem_simpl.
  eexists. split; [reflexivity|]. cbn [rg mem]. split_and!.
  - repeat constructor; cbn [fst snd]; mem_simpl; reflexivity.
  - intros a Ha. mem_simpl. reflexivity.
  - mem_simpl. reflexivity.
Qed.

Lemma kept_offsets : Forall (λ p : Z * Z, 0 <= p.2 < 72) kept.
Proof. unfold kept. names. repeat constructor; cbn; lia. Qed.

(** A thread goes on after SWITCH with the registers it had. *)
Theorem snake_switch_resumes st0 a st1 st2 :
  apart (rg st0 arg0) 18 (rg st0 arg1) 18 → snake_SWITCH st0 = Some (a, st1) →
  apart (rg st2 arg0) 18 (rg st2 arg1) 18 → rg st2 arg1 = rg st0 arg0 →
  (∀ b, rg st0 arg0 <= b < rg st0 arg0 + 72 → mem st2 b = mem st1 b) →
  ∃ st3, snake_SWITCH st2 = Some (rg st0 rp, st3) ∧ Forall (λ p, rg st3 p.1 = rg st0 p.1) kept.
Proof.
  intros H0 Hs H2 Ht Hm. destruct (snake_SWITCH_spec st0 H0) as (st1' & Hs' & Hk & _).
  rewrite Hs in Hs'. injection Hs' as _ <-.
  destruct (snake_SWITCH_spec st2 H2) as (st3 & Hs3 & Hk3 & _). rewrite Ht in Hs3, Hk3. exists st3.
  assert (Hall : Forall (λ p, mem st2 (rg st0 arg0 + p.2) = rg st0 p.1) kept).
  { eapply Forall_impl; [apply Forall_and; split; [exact Hk|exact kept_offsets]|].
    intros p [[_ H] Hp]. rewrite Hm by lia. exact H. }
  split.
  - rewrite Hs3. rewrite Forall_forall in Hall. pose proof (Hall (rp, PC) ltac:(unfold kept; set_solver)) as H. cbn [fst snd] in H. by rewrite H.
  - eapply Forall_impl; [apply Forall_and; split; [exact Hk3|exact Hall]|]. intros p [[H _] H']. congruence.
Qed.

Lemma snake_StackAllocate_ok m t stack func arg ThreadRoot InterruptEnable ThreadFinish :
  apart stack StackSize t 18 →
  let m1 := snake_StackAllocate m t stack func arg ThreadRoot InterruptEnable ThreadFinish in
  m1 (t + PC) = ThreadRoot ∧ m1 (t + S0) = func ∧ m1 (t + S1) = arg ∧ m1 (t + S2) = ThreadFinish ∧
  m1 (t + S3) = InterruptEnable ∧ m1 (t + SP) = stack + 64.
Proof.
  unfold apart, snake_StackAllocate, StackSize. cbv zeta. names.
  change snake_PCState with 16. change snake_StartupPCState with 3. change snake_InitialPCState with 0.
  change snake_InitialArgState with 1. change snake_WhenDonePCState with 2. intros Hap.
  split_and!; mem_simpl; reflexivity.
Qed.

(** What a called procedure keeps: the callee-save registers and register 0. *)
Definition keeps (callee : Z → state → state) : Prop :=
  ∀ f s x, x ∈ [0; 3; 4; 5; 6] → rg (callee f s) x = rg s x.

(** A forked thread enables interrupts, runs its function on its argument and
    finishes; each call returns behind its delay slot. *)
Theorem snake_fork_runs_function m t stack func arg ThreadRoot InterruptEnable ThreadFinish st callee :
  apart stack StackSize t 18 →
  let m1 := snake_StackAllocate m t stack func arg ThreadRoot InterruptEnable ThreadFinish in
  (∀ a, t <= a < t + 72 → mem st a = m1 a) → apart (rg st arg0) 18 t 18 → rg st arg1 = t → rg st 0 = 0 →
  keeps callee →
  ∃ st' w1 w3, snake_SWITCH st = Some (ThreadRoot, st') ∧ rg st' sp = stack + 64 ∧
    (run callee ThreadRoot snake_ThreadRoot_code st').1 =
      [mkCalled InterruptEnable w1 (ThreadRoot + 2); mkCalled func arg (ThreadRoot + 5);
       mkCalled ThreadFinish w3 (ThreadRoot + 7)].
Proof.
  intros Hap m1 Hm Ht1 Ht Hz Hc. rewrite <- Ht in Ht1.
  destruct (snake_SWITCH_spec st Ht1) as (st' & Hs & Hk & _ & H0). rewrite Ht in Hs, Hk. rewrite Hz in H0.
  destruct (snake_StackAllocate_ok m t stack func arg ThreadRoot InterruptEnable ThreadFinish Hap) as (M0 & M1 & M2 & M3 & M4 & M5).
  fold m1 in M0, M1, M2, M3, M4, M5.
  assert (Hk' : ∀ x o, (x, o) ∈ kept → 0 <= o < 72 → rg st' x = m1 (t + o)).
  { intros x o Hin Ho. rewrite Forall_forall in Hk. destruct (Hk _ Hin) as [E _]. cbn [fst snd] in E. rewrite E. apply Hm. lia. }
  pose proof (Hk' sp SP ltac:(unfold kept; set_solver) ltac:(names; lia)) as K5.
  pose proof (Hk' 3 S0 ltac:(unfold kept; set_solver) ltac:(names; lia)) as K1.
  pose proof (Hk' 4 S1 ltac:(unfold kept; set_solver) ltac:(names; lia)) as K2.
  pose proof (Hk' 5 S2 ltac:(unfold kept; set_solver) ltac:(names; lia)) as K3.
  pose proof (Hk' 6 S3 ltac:(unfold kept; set_solver) ltac:(names; lia)) as K4.
  rewrite M1 in K1. rewrite M2 in K2. rewrite M3 in K3. rewrite M4 in K4. rewrite M5 in K5.
  rewrite Hm in Hs by (names; lia). rewrite M0 in Hs.
  destruct st' as [r m']. cbn [rg] in *.
  exists (mkState r m'). enough (∃ w1 w3, (run callee ThreadRoot snake_ThreadRoot_code (mkState r m')).1 = _) as (w1 & w3 & G)
    by (exists w1, w3; split; [exact Hs|]; split; [exact K5|exact G]).
  unfold snake_ThreadRoot_code, snake_StartupPC, snake_InitialArg, snake_InitialPC, snake_WhenDonePC. rewrite run_ble by exact H0.
  set (x1 := mkState _ m'). pose proof (Hc (r 6) x1) as C1. destruct (callee (r 6) x1) as [r1 m1']. cbn [rg x1] in C1.
  rewrite run_or, run_ble by (names; mem_simpl; rewrite C1 by set_solver; mem_simpl; exact H0).
  set (x2 := mkState _ m1'). match goal with |- context [callee ?f x2] => pose proof (Hc f x2) as C2; destruct (callee f x2) as [r2 m2'] end.
  cbn [rg x2] in C2. rewrite run_ble by (rewrite C2 by set_solver; names; mem_simpl; rewrite C1 by set_solver; mem_simpl; exact H0).
  cbn [run fst]. names.
  assert (E : ∀ x, x ∈ [0; 3; 4; 5; 6] → r1 x = r x).
  { intros x Hx. rewrite C1 by done. assert (x = 0 ∨ x = 3 ∨ x = 4 ∨ x = 5 ∨ x = 6) as Hx' by set_solver. mem_simpl. reflexivity. }
  rewrite (C2 5) by set_solver. mem_simpl. rewrite !E by set_solver. rewrite H0, Z.lor_0_r, K1, K2, K3, K4.
  replace (ThreadRoot + 2 + 1 + 2) with (ThreadRoot + 5) by lia.
  replace (ThreadRoot + 5 + 2) with (ThreadRoot + 7) by lia. eexists _, _. reflexivity.
Qed.
End Snake.
