(* ===== verification/Disasm.v ===== *)
(** * bin/d.c, bin/opstrings.c, bin/disasm.c, and the trace of machine/mipssim.cc:
    two disassemblers

    dump_ascii of bin/d.c writes an instruction as text, with the tables of
    bin/opstrings.c; disasm of bin/disasm.c does it for the text section of a
    program that load_section put into memory.  The simulated machine has a table
    of its own (opStrings of machine/mipssim.h) to trace the instructions it runs.
    What dump_ascii prints is first an operation and a list of operands, which
    [text] writes out as the calls of printf do. *)

From Stdlib Require Import ZArith Lia Bool Ascii String DecimalString.
From S2P Require Import Prelude Bytes Machine Mips MipsProofs Execute ExecuteProofs.

Local Open Scope Z_scope.

Module Disasm.
Import Execute.Execute ExecuteProofs.ExecuteProofs.

(** ** instr.h *)

Definition off26 (i : Z) : Z := s32 (Z.shiftl (Z.land i (2 ^ 26 - 1)) 2).
Definition top4 (i : Z) : Z := Z.land i (Z.lnot (2 ^ 28 - 1)).
Definition off16 (i : Z) : Z := s32 (Z.shiftl (immed i) 2).

(** ** opstrings.c *)

Definition normalops : list string :=
  [ "special"; "bcond"; "j"; "jal"; "beq"; "bne"; "blez"; "bgtz";
    "addi"; "addiu"; "slti"; "sltiu"; "andi"; "ori"; "xori"; "lui";
    "cop0"; "cop1"; "cop2"; "cop3"; "024"; "025"; "026"; "027";
    "030"; "031"; "032"; "033"; "034"; "035"; "036"; "037";
    "lb"; "lh"; "lwl"; "lw"; "lbu"; "lhu"; "lwr"; "047";
    "sb"; "sh"; "swl"; "sw"; "054"; "055"; "swr"; "057";
    "lwc0"; "lwc1"; "lwc2"; "lwc3"; "064"; "065"; "066"; "067";
    "swc0"; "swc1"; "swc2"; "swc3"; "074"; "075"; "076"; "077" ]%string.

Definition specialops : list string :=
  [ "sll"; "001"; "srl"; "sra"; "sllv"; "005"; "srlv"; "srav";
    "jr"; "jalr"; "012"; "013"; "syscall"; "break"; "016"; "017";
    "mfhi"; "mthi"; "mflo"; "mtlo"; "024"; "025"; "026"; "027";
    "mult"; "multu"; "div"; "divu"; "034"; "035"; "036"; "037";
    "add"; "addu"; "sub"; "subu"; "and"; "or"; "xor"; "nor";
    "050"; "051"; "slt"; "sltu"; "054"; "055"; "056"; "057";
    "060"; "061"; "062"; "063"; "064"; "065"; "066"; "067";
    "070"; "071"; "072"; "073"; "074"; "075"; "076"; "077" ]%string.

(** ** d.c *)

Definition regstrings : list string :=
  [ "0"; "r1"; "r2"; "r3"; "r4"; "r5"; "r6"; "r7"; "r8"; "r9";
    "r10"; "r11"; "r12"; "r13"; "r14"; "r15"; "r16"; "r17"; "r18"; "r19";
    "r20"; "r21"; "r22"; "r23"; "r24"; "r25"; "r26"; "r27"; "gp"; "sp";
    "r30"; "r31" ]%string.

(** What a format of printf writes: a register by its name, %08x, 0x%x, and
    0x%x(%s). *)
Inductive operand :=
| OReg (r : Z)
| OAddr (v : Z)
| OHex (v : Z)
| OMem (v r : Z).

Definition table_at (t : list string) (i : Z) : string := default EmptyString (t !! Z.to_nat i).

(** switch (opcode) of the SPECIAL instructions. *)
Definition special_operands (opcode i : Z) : list operand :=
  match opcode with
  | 0x00 | 0x02 | 0x03 (* I_SLL I_SRL I_SRA *) => [OReg (rd_ i); OReg (rt_ i); OHex (shamt_ i)]
  | 0x04 | 0x06 | 0x07 (* I_SLLV I_SRLV I_SRAV *) => [OReg (rd_ i); OReg (rt_ i); OReg (rs_ i)]
  | 0x08 | 0x09 | 0x12 | 0x13 (* I_JR I_JALR I_MFLO I_MTLO *) => [OReg (rs_ i)]
  | 0x10 | 0x11 (* I_MFHI I_MTHI *) => [OReg (rd_ i)]
  | 0x18 | 0x19 | 0x1a | 0x1b (* I_MULT I_MULTU I_DIV I_DIVU *) => [OReg (rs_ i); OReg (rt_ i)]
  | 0x20 | 0x21 | 0x22 | 0x23 | 0x24 | 0x25 | 0x26 | 0x27 (* I_ADD to I_NOR *)
  | 0x2a | 0x2b (* I_SLT I_SLTU *) => [OReg (rd_ i); OReg (rs_ i); OReg (rt_ i)]
  | _ => []
  end.

(** switch (opcode) of the others. *)
Definition normal_operands (opcode i pc : Z) : list operand :=
  match opcode with
  | 0x02 | 0x03 (* I_J I_JAL *) => [OAddr (Z.lor (top4 pc) (off26 i))]
  | 0x04 | 0x05 (* I_BEQ I_BNE *) => [OReg (rt_ i); OReg (rs_ i); OAddr (s32 (s32 (off16 i + pc) + 4))]
  | 0x08 | 0x09 | 0x0a | 0x0b | 0x0c | 0x0d | 0x0e (* I_ADDI to I_XORI *) =>
      [OReg (rt_ i); OReg (rs_ i); OHex (immed i)]
  | 0x0f (* I_LUI *) => [OReg (rt_ i); OHex (immed i)]
  | 0x20 | 0x21 | 0x22 | 0x23 | 0x24 | 0x25 | 0x26 (* I_LB to I_LWR *)
  | 0x28 | 0x29 | 0x2a | 0x2b | 0x2e (* I_SB I_SH I_SWL I_SW I_SWR *)
  | 0x30 | 0x31 | 0x32 | 0x33 | 0x38 | 0x39 | 0x3a | 0x3b (* I_LWC0 to I_SWC3 *) =>
      [OReg (rt_ i); OMem (immed i) (rs_ i)]
  | _ => []
  end.

Definition bcond_name (i : Z) : string :=
  match rt_ i with
  | 0x00 => "bltz"
  | 0x01 => "bgez"
  | 0x10 => "bltzal"
  | 0x11 => "bgezal"
  | _ => "BCOND"
  end%string.

(** The operation and the operands dump_ascii prints; None for nop, after which no
    tab is printed. *)
Definition dump (i pc : Z) : option (string * list operand) :=
  let opcode := Z.shiftr (u32 i) 26 in
  if i =? 0 then None
  else if opcode =? 0 then
    let opcode := Z.land i 0x3f in Some (table_at specialops opcode, special_operands opcode i)
  else if opcode =? 1 then Some (bcond_name i, [OReg (rs_ i); OAddr (s32 (s32 (off16 i + pc) + 4))])
  else Some (table_at normalops opcode, normal_operands opcode i pc).

(** ** printf *)

Definition hex_digit (d : Z) : ascii :=
  ascii_of_N (Z.to_N (if d <? 10 then 48 + d else 87 + d)).

(** The digits of an unsigned int, [n] of them. *)
Fixpoint hex_digits (n : nat) (v : Z) : string :=
  match n with
  | O => EmptyString
  | S n => (hex_digits n (v / 16) ++ String (hex_digit (v mod 16)) EmptyString)%string
  end.

Fixpoint strip_zeros (s : string) : string :=
  match s with
  | String c ((String _ _) as s') => if (c =? "0")%char then strip_zeros s' else s
  | _ => s
  end.

Definition fmt_08x (v : Z) : string := hex_digits 8 (u32 v).
Definition fmt_x (v : Z) : string := strip_zeros (hex_digits 8 (u32 v)).
Definition tab : string := String (ascii_of_nat 9) EmptyString.
Definition newline : string := String (ascii_of_nat 10) EmptyString.

Definition operand_text (o : operand) : string :=
  match o with
  | OReg r => table_at regstrings r
  | OAddr v => fmt_08x v
  | OHex v => ("0x" ++ fmt_x v)%string
  | OMem v r => ("0x" ++ fmt_x v ++ "(" ++ table_at regstrings r ++ ")")%string
  end.

(** dump_ascii with longdis set, as it is. *)
Definition dump_ascii (i pc : Z) : string :=
  (fmt_08x pc ++ ": " ++ fmt_08x i ++ "  " ++ tab ++
   match dump i pc with
   | None => "nop"
   | Some (name, ops) => name ++ tab ++ String.concat "," (map operand_text ops)
   end)%string.

Example dump_lw : dump_ascii (s32 0x8fbf0014) 0x10000000 =
  ("10000000: 8fbf0014  " ++ tab ++ "lw" ++ tab ++ "r31,0x14(sp)")%string.
Proof. reflexivity. Qed.

(** ** disasm.c *)

(** A section header, of the fields load_section reads. *)
Record SCNHDR := mkScn { s_vaddr : Z; s_size : Z; s_scnptr : Z }.

(** load_section: getc of the file, which gives EOF, the char 255, after its end;
    None is exit(1). *)
Fixpoint load_bytes (n : nat) (file : list Z) (pos pc : Z) (mem : Z → Z) : option (Z → Z) :=
  match n with
  | O => Some mem
  | S n =>
      if pc - memoffset >=? MEMSIZE then None
      else load_bytes n file (pos + 1) (pc + 1)
             (mem_write mem (pc - memoffset) [default 255 (file !! Z.to_nat pos)])
  end.

Definition load_section (hd : SCNHDR) (file : list Z) (mem : Z → Z) : option (Z → Z) :=
  if negb (s_scnptr hd =? 0)
  then load_bytes (Z.to_nat (s_size hd)) file (s_scnptr hd) (s_vaddr hd) mem else Some mem.

(** load_program: the sections that are there, in the order .text, .rdata, .data,
    .sdata, .sbss, .bss; ldnshread, of the COFF library, found them in the file. *)
Definition load_program (sections : list (option SCNHDR)) (file : list Z) (mem : Z → Z) : option (Z → Z) :=
  foldl (λ m hd, m ← m; match hd with Some hd => load_section hd file m | None => Some m end) (Some mem) sections.

(** disasm: dis1 for each word of the text section, from memoffset on. *)
Fixpoint disasm_loop (n : nat) (mem : Z → Z) (pc : Z) : outcome string :=
  match n with
  | O => Ok EmptyString
  | S n =>
      instr ← fetch (mkCpu [] 0 0 mem pc 0 0) pc;
      rest ← disasm_loop n mem (pc + 4);
      Ok (dump_ascii instr pc ++ newline ++ rest)%string
  end.

Definition disasm (texthead : SCNHDR) (mem : Z → Z) : outcome string :=
  disasm_loop (Z.to_nat ((s_size texthead + 3) / 4)) mem memoffset.

(** ** The trace of OneInstruction (machine/mipssim.h, machine/mipssim.cc) *)

Inductive RegType := NONE | RS | RT | RD | EXTRA.

(** opStrings, indexed by the op code. *)
Definition opStrings (o : OpCode) : string * (RegType * RegType * RegType) :=
  match o with
  | OP_ADD => ("ADD r%d,r%d,r%d", (RD, RS, RT))
  | OP_ADDI => ("ADDI r%d,r%d,%d", (RT, RS, EXTRA))
  | OP_ADDIU => ("ADDIU r%d,r%d,%d", (RT, RS, EXTRA))
  | OP_ADDU => ("ADDU r%d,r%d,r%d", (RD, RS, RT))
  | OP_AND => ("AND r%d,r%d,r%d", (RD, RS, RT))
  | OP_ANDI => ("ANDI r%d,r%d,%d", (RT, RS, EXTRA))
  | OP_BEQ => ("BEQ r%d,r%d,%d", (RS, RT, EXTRA))
  | OP_BGEZ => ("BGEZ r%d,%d", (RS, EXTRA, NONE))
  | OP_BGEZAL => ("BGEZAL r%d,%d", (RS, EXTRA, NONE))
  | OP_BGTZ => ("BGTZ r%d,%d", (RS, EXTRA, NONE))
  | OP_BLEZ => ("BLEZ r%d,%d", (RS, EXTRA, NONE))
  | OP_BLTZ => ("BLTZ r%d,%d", (RS, EXTRA, NONE))
  | OP_BLTZAL => ("BLTZAL r%d,%d", (RS, EXTRA, NONE))
  | OP_BNE => ("BNE r%d,r%d,%d", (RS, RT, EXTRA))
  | OP_DIV => ("DIV r%d,r%d", (RS, RT, NONE))
  | OP_DIVU => ("DIVU r%d,r%d", (RS, RT, NONE))
  | OP_J => ("J %d", (EXTRA, NONE, NONE))
  | OP_JAL => ("JAL %d", (EXTRA, NONE, NONE))
  | OP_JALR => ("JALR r%d,r%d", (RD, RS, NONE))
  | OP_JR => ("JR r%d,r%d", (RD, RS, NONE))
  | OP_LB => ("LB r%d,%d(r%d)", (RT, EXTRA, RS))
  | OP_LBU => ("LBU r%d,%d(r%d)", (RT, EXTRA, RS))
  | OP_LH => ("LH r%d,%d(r%d)", (RT, EXTRA, RS))
  | OP_LHU => ("LHU r%d,%d(r%d)", (RT, EXTRA, RS))
  | OP_LUI => ("LUI r%d,%d", (RT, EXTRA, NONE))
  | OP_LW => ("LW r%d,%d(r%d)", (RT, EXTRA, RS))
  | OP_LWL => ("LWL r%d,%d(r%d)", (RT, EXTRA, RS))
  | OP_LWR => ("LWR r%d,%d(r%d)", (RT, EXTRA, RS))
  | OP_MFHI => ("MFHI r%d", (RD, NONE, NONE))
  | OP_MFLO => ("MFLO r%d", (RD, NONE, NONE))
  | OP_MTHI => ("MTHI r%d", (RS, NONE, NONE))
  | OP_MTLO => ("MTLO r%d", (RS, NONE, NONE))
  | OP_MULT => ("MULT r%d,r%d", (RS, RT, NONE))
  | OP_MULTU => ("MULTU r%d,r%d", (RS, RT, NONE))
  | OP_NOR => ("NOR r%d,r%d,r%d", (RD, RS, RT))
  | OP_OR => ("OR r%d,r%d,r%d", (RD, RS, RT))
  | OP_ORI => ("ORI r%d,r%d,%d", (RT, RS, EXTRA))
  | OP_RFE => ("RFE", (NONE, NONE, NONE))
  | OP_SB => ("SB r%d,%d(r%d)", (RT, EXTRA, RS))
  | OP_SH => ("SH r%d,%d(r%d)", (RT, EXTRA, RS))
  | OP_SLL => ("SLL r%d,r%d,%d", (RD, RT, EXTRA))
  | OP_SLLV => ("SLLV r%d,r%d,r%d", (RD, RT, RS))
  | OP_SLT => ("SLT r%d,r%d,r%d", (RD, RS, RT))
  | OP_SLTI => ("SLTI r%d,r%d,%d", (RT, RS, EXTRA))
  | OP_SLTIU => ("SLTIU r%d,r%d,%d", (RT, RS, EXTRA))
  | OP_SLTU => ("SLTU r%d,r%d,r%d", (RD, RS, RT))
  | OP_SRA => ("SRA r%d,r%d,%d", (RD, RT, EXTRA))
  | OP_SRAV => ("SRAV r%d,r%d,r%d", (RD, RT, RS))
  | OP_SRL => ("SRL r%d,r%d,%d", (RD, RT, EXTRA))
  | OP_SRLV => ("SRLV r%d,r%d,r%d", (RD, RT, RS))
  | OP_SUB => ("SUB r%d,r%d,r%d", (RD, RS, RT))
  | OP_SUBU => ("SUBU r%d,r%d,r%d", (RD, RS, RT))
  | OP_SW => ("SW r%d,%d(r%d)", (RT, EXTRA, RS))
  | OP_SWL => ("SWL r%d,%d(r%d)", (RT, EXTRA, RS))
  | OP_SWR => ("SWR r%d,%d(r%d)", (RT, EXTRA, RS))
  | OP_XOR => ("XOR r%d,r%d,r%d", (RD, RS, RT))
  | OP_XORI => ("XORI r%d,r%d,%d", (RT, RS, EXTRA))
  | OP_SYSCALL => ("SYSCALL", (NONE, NONE, NONE))
  | OP_UNIMP => ("Unimplemented", (NONE, NONE, NONE))
  | OP_RES => ("Reserved", (NONE, NONE, NONE))
  | SPECIAL | BCOND => ("Shouldn't happen", (NONE, NONE, NONE))
  end%string.

Definition TypeToReg (r : RegType) (i : Instruction) : Z :=
  match r with
  | RS => rs i
  | RT => rt i
  | RD => rd i
  | EXTRA => extra i
  | NONE => -1
  end.

(** printf with conversions %d only. *)
Fixpoint printf_d (format : string) (args : list Z) : string :=
  match format, args with
  | String "%" (String "d" f), v :: args => (NilZero.string_of_int (Z.to_int v) ++ printf_d f args)%string
  | String c f, _ => String c (printf_d f args)
  | EmptyString, _ => EmptyString
  end.

(** The numbers OneInstruction passes to printf. *)
Definition trace_args (i : Instruction) : list Z :=
  let '(a, b, c) := (opStrings (opCode i)).2 in [TypeToReg a i; TypeToReg b i; TypeToReg c i].

(** The line OneInstruction prints under DebugIsEnabled('m'). *)
Definition trace (i : Instruction) (pc : Z) : string :=
  ("At PC = 0x" ++ fmt_x pc ++ ": " ++ printf_d (opStrings (opCode i)).1 (trace_args i) ++ newline)%string.

Example trace_lw : trace (Decode 0x8fbf0014) 0 = ("At PC = 0x0: LW r31,20(r29)" ++ newline)%string.
Proof. reflexivity. Qed.

(** ** Agreement *)

Definition lower_char (c : ascii) : ascii :=
  let n := N_of_ascii c in if ((65 <=? n) && (n <=? 90))%N then ascii_of_N (n + 32) else c.

(** The first word of a text, in lower case. *)
Fixpoint first_word (s : string) : string :=
  match s with
  | String " " _ | EmptyString => EmptyString
  | String c s => String (lower_char c) (first_word s)
  end.

(** Where a taken branch with offset [n] and a jump with index [n] go, as in
    OneInstruction, from an instruction at [pc] that is not itself in a delay
    slot. *)
Definition branch_address (pc n : Z) : Z := s32 (s32 (pc + 4) + IndexToAddr n).
Definition jump_address (pc n : Z) : Z :=
  s32 (Z.lor (Z.land (u32 (s32 (s32 (pc + 4) + 4))) 0xf0000000) (u32 (IndexToAddr n))).

Definition is_branch (o : OpCode) : bool :=
  match o with
  | OP_BEQ | OP_BNE | OP_BGEZ | OP_BGEZAL | OP_BGTZ | OP_BLEZ | OP_BLTZ | OP_BLTZAL => true
  | _ => false
  end.
Definition is_jump (o : OpCode) : bool := match o with OP_J | OP_JAL => true | _ => false end.

(** The operand of dump_ascii that corresponds to a number [n] the trace prints with
    %d for a field: the register of that number; the address a branch or jump with
    that offset or index goes to; otherwise the same number. *)
Definition corresponding (o : OpCode) (pc : Z) (r : RegType) (n : Z) : list operand :=
  match r with
  | NONE => []
  | EXTRA => [if is_branch o then OAddr (branch_address pc n)
              else if is_jump o then OAddr (jump_address pc n) else OHex n]
  | _ => [OReg n]
  end.

(** The operands that correspond to the numbers [ns] of the trace, in order. *)
Definition corresponds (o : OpCode) (pc : Z) (ns : list Z) : list operand :=
  match (opStrings o).2, ns with
  | (RT, EXTRA, RS), [a; n; b] => [OReg a; OMem n b]
  | (r1, r2, r3), [n1; n2; n3] =>
      corresponding o pc r1 n1 ++ corresponding o pc r2 n2 ++ corresponding o pc r3 n3
  | _, _ => []
  end.

(** The instructions of which dump_ascii prints something else. *)
Definition deviates (o : OpCode) : bool :=
  match o with
  | OP_BEQ | OP_BNE | OP_BLEZ | OP_BGTZ | OP_JR | OP_JALR | OP_MFLO | OP_MTHI => true
  | _ => false
  end.

(** What dump_ascii prints. *)
Definition dump_operands (i : Instruction) (pc : Z) : list operand :=
  match opCode i with
  | OP_BEQ | OP_BNE => [OReg (rt i); OReg (rs i); OAddr (branch_address pc (extra i))]
  | OP_BLEZ | OP_BGTZ => []
  | OP_JR | OP_JALR | OP_MFLO => [OReg (rs i)]
  | OP_MTHI => [OReg (rd i)]
  | o => corresponds o pc (trace_args i)
  end.

Lemma dump_branch_target v pc : s32 (s32 (off16 v + pc) + 4) = s32 (s32 (pc + 4) + IndexToAddr (immed v)).
Proof.
  unfold off16, IndexToAddr. destruct (s32_eqm (Z.shiftl (immed v) 2)) as [k ->].
  destruct (s32_eqm (Z.shiftl (immed v) 2 + k * 2 ^ 32 + pc)) as [k1 ->]. destruct (s32_eqm (pc + 4)) as [k2 ->].
  apply (s32_cong _ _ (k1 - k2)). lia.
Qed.

Lemma dump_opcode v : Z.shiftr (u32 v) 26 = op_ v.
Proof.
  unfold op_. change 0x3f with (Z.ones 6). rewrite <- field_u32 by lia. rewrite land_ones_mod by lia.
  rewrite Z.mod_small; [done|]. rewrite Z.shiftr_div_pow2 by lia. pose proof (u32_range v).
  split; [apply Z.div_pos; lia|]. apply Z.div_lt_upper_bound; lia.
Qed.

Lemma lor_above q x : 0 <= x < 2 ^ 28 → Z.lor (q * 2 ^ 28) x = q * 2 ^ 28 + x.
Proof.
  intros Hx. symmetry. rewrite Z.add_nocarry_lxor, Z.lxor_lor; try done.
  all: apply Z.bits_inj'; intros i Hi; rewrite Z.land_spec, Z.bits_0; destruct (Z.ltb_spec i 28);
    [by rewrite Z.mul_pow2_bits_low by lia|].
  all: rewrite <- (Z.mod_small x (2 ^ 28)) by lia; by rewrite Z.mod_pow2_bits_high, andb_false_r by lia.
Qed.

Lemma region_bits a : 0 <= a < 2 ^ 32 → Z.land a 0xf0000000 = a / 2 ^ 28 * 2 ^ 28.
Proof.
  intros Ha. rewrite <- Z.shiftr_div_pow2, <- Z.shiftl_mul_pow2 by lia. apply Z.bits_inj'. intros i Hi.
  change 0xf0000000 with (Z.shiftl (Z.ones 4) 28). rewrite Z.land_spec, !Z.shiftl_spec by lia.
  destruct (Z.ltb_spec (i - 28) 0); [by rewrite !(Z.testbit_neg_r _ (i - 28)), andb_false_r by lia|].
  rewrite Z.shiftr_spec by lia. replace (i - 28 + 28) with i by lia.
  destruct (Z.ltb_spec (i - 28) 4); [by rewrite Z.ones_spec_low, andb_true_r by lia|].
  rewrite Z.ones_spec_high, andb_false_r by lia. rewrite <- (Z.mod_small a (2 ^ 32)) by lia.
  by rewrite Z.mod_pow2_bits_high by lia.
Qed.

(** The addresses of J and JAL, where the delay slot and the instruction after it
    are in the 256 MB region of the jump. *)
Definition same_region (pc : Z) : bool :=
  Z.land (u32 pc) 0xf0000000 =? Z.land (u32 (s32 (s32 (pc + 4) + 4))) 0xf0000000.

Lemma dump_jump_target v pc : int32 pc → same_region pc = true →
  Z.lor (top4 pc) (off26 v) =
  s32 (Z.lor (Z.land (u32 (s32 (s32 (pc + 4) + 4))) 0xf0000000) (u32 (IndexToAddr (Z.land v 0x3ffffff)))).
Proof.
  intros Hpc Hr%Z.eqb_eq. rewrite <- Hr, target_value. unfold top4, off26. change (2 ^ 26 - 1) with 0x3ffffff.
  assert (Hx : 0 <= Z.shiftl (Z.land v 0x3ffffff) 2 < 2 ^ 28).
  { change 0x3ffffff with (Z.ones 26). rewrite land_ones_mod, Z.shiftl_mul_pow2 by lia.
    pose proof (Z.mod_pos_bound v (2 ^ 26) ltac:(lia)). lia. }
  rewrite (s32_id (Z.shiftl _ 2)) by (unfold int32; lia). set (x := Z.shiftl _ 2) in *.
  rewrite region_bits by apply u32_range. rewrite lor_above by done.
  change (2 ^ 28 - 1) with (Z.ones 28). rewrite <- Z.ldiff_land, Z.ldiff_ones_r by lia.
  rewrite Z.shiftl_mul_pow2, Z.shiftr_div_pow2, lor_above by lia.
  destruct (u32_eqm pc) as [k ->]. unfold int32 in Hpc.
  replace (pc + k * 2 ^ 32) with (pc + k * 16 * 2 ^ 28) by lia. rewrite Z.div_add by lia.
  replace ((pc / 2 ^ 28 + k * 16) * 2 ^ 28 + x) with (pc / 2 ^ 28 * 2 ^ 28 + x + k * 2 ^ 32) by lia.
  rewrite s32_add_mul, s32_id; [done|]. unfold int32. Z.to_euclidean_division_equations. lia.
Qed.

(** What is printed for the instructions of the three groups. *)
Definition printed (v pc : Z) : option (string * list operand) :=
  let i := Decode (u32 v) in
  Some (first_word (opStrings (opCode i)).1, dump_operands i pc).

Definition implemented (o : OpCode) : bool := match o with OP_UNIMP | OP_RES => false | _ => true end.

Lemma six_bits z : 0 <= Z.land z 0x3f < 64.
Proof. change 0x3f with (Z.ones 6). rewrite land_ones_mod by lia. by apply Z.mod_pos_bound. Qed.

(** Case analysis on a number below 64. *)
Lemma six_bit_cases (P : Z → Prop) n : Forall P (seqZ 0 64) → 0 <= n < 64 → P n.
Proof. intros HP Hn. eapply Forall_forall in HP; [done|]. by apply elem_of_seqZ. Qed.

Ltac each_op n Hn :=
  pattern n; refine (six_bit_cases _ n _ Hn); clear n Hn;
  let l := eval vm_compute in (seqZ 0 64) in change (seqZ 0 64) with l.

Lemma dump_special v pc : v ≠ 0 → op_ v = 0 → implemented (opCode (Decode (u32 v))) = true →
  dump v pc = printed v pc.
Proof.
  intros H0 Ho. unfold printed, dump. rewrite dump_opcode, Ho, (Decode_row v SPECIAL RFMT) by (by rewrite Ho).
  apply Z.eqb_neq in H0 as ->. cbn [Z.eqb opCode]. pose proof (six_bits v) as Hf. revert Hf.
  generalize (Z.land v 0x3f). intros n Hn. each_op n Hn.
  repeat (apply Forall_cons; split; [cbn; intros Hi; first [discriminate Hi|reflexivity]|]). constructor.
Qed.

Lemma dump_bcond v pc : v ≠ 0 → op_ v = 1 → implemented (opCode (Decode (u32 v))) = true →
  dump v pc = printed v pc.
Proof.
  intros H0 Ho. unfold printed, dump. rewrite dump_opcode, Ho, (Decode_row v BCOND IFMT) by (by rewrite Ho).
  apply Z.eqb_neq in H0 as ->. cbv zeta. rewrite bcond_field, dump_branch_target. cbn [Z.eqb opCode].
  change (2 ^ 16) with 65536. unfold bcond_name.
  destruct (Z.eqb_spec (rt_ v * 65536) 0); [assert (rt_ v = 0) as -> by lia; reflexivity|].
  destruct (Z.eqb_spec (rt_ v * 65536) 0x10000); [assert (rt_ v = 1) as -> by lia; reflexivity|].
  destruct (Z.eqb_spec (rt_ v * 65536) 0x100000); [assert (rt_ v = 16) as -> by lia; reflexivity|].
  destruct (Z.eqb_spec (rt_ v * 65536) 0x110000); [assert (rt_ v = 17) as -> by lia; reflexivity|].
  discriminate.
Qed.

Lemma dump_normal v pc : int32 pc → same_region pc = true →
  v ≠ 0 → op_ v ≠ 0 → op_ v ≠ 1 → implemented (opCode (Decode (u32 v))) = true →
  dump v pc = printed v pc.
Proof.
  intros Hpc Hreg H0 Hs Hb. unfold printed, dump. rewrite dump_opcode. apply Z.eqb_neq in H0 as ->.
  pose proof (six_bits (Z.shiftr v 26)) as Hr. fold (op_ v) in Hr.
  destruct (lookup_lt_is_Some_2 opTable (Z.to_nat (op_ v))) as [[o f] Ho]; [simpl; lia|].
  rewrite (Decode_row v o f Ho). revert Hs Hb Ho. generalize (op_ v) Hr. intros n Hn. clear Hr. each_op n Hn.
  repeat (apply Forall_cons; split; [intros Hs Hb [= <- <-] Hi; first [done|discriminate Hi|
    unfold normal_operands; rewrite ?dump_branch_target, ?dump_jump_target by done; reflexivity]|]). constructor.
Qed.

(** ** Where the processor goes *)

Lemma reg_link m r v : r ≠ 31 → 0 <= r → reg (set_reg m 31 v) r = reg m r.
Proof.
  intros Hne Hr. unfold reg, set_reg, set_registers. cbn [registers].
  rewrite list_lookup_insert_ne by lia. done.
Qed.

Lemma branch_goes i pcAfter m m' pc' r x : is_branch (opCode i) = true →
  exec_ADD_BNE i pcAfter m = Ok (Break m' pc' r x) →
  pc' = pcAfter ∨ pc' = s32 (reg m NextPCReg + IndexToAddr (extra i)).
Proof.
  unfold exec_ADD_BNE, jump_, break_. destruct (opCode i); try discriminate; intros _;
    unfold R31; rewrite ?(reg_link m NextPCReg) by (unfold NextPCReg; lia).
  all: repeat case_match; intros [= _ <- _ _]; auto.
Qed.

Lemma jump_goes i pcAfter m m' pc' r x : is_jump (opCode i) = true →
  exec_ADD_BNE i pcAfter m = Ok (Break m' pc' r x) →
  pc' = s32 (Z.lor (Z.land (u32 pcAfter) 0xf0000000) (u32 (IndexToAddr (extra i)))).
Proof.
  unfold exec_ADD_BNE, exec_DIV_JR, jump_. destruct (opCode i); try discriminate; intros _ [= _ <- _ _]; done.
Qed.

(** The branches and jumps whose address dump_ascii prints. *)
Definition prints_address (o : OpCode) : bool :=
  match o with OP_BLEZ | OP_BGTZ => false | o => is_branch o || is_jump o end.

Lemma dump_operands_address i pc : prints_address (opCode i) = true →
  OAddr (if is_jump (opCode i) then jump_address pc (extra i) else branch_address pc (extra i)) ∈ dump_operands i pc.
Proof.
  unfold dump_operands, corresponds, corresponding, trace_args.
  destruct (opCode i); try discriminate; intros _; cbn; set_solver.
Qed.

Lemma dump_printed v pc : int32 pc → same_region pc = true → v ≠ 0 →
  implemented (opCode (Decode (u32 v))) = true → dump v pc = printed v pc.
Proof.
  intros Hpc Hreg H0 Hi. destruct (decide (op_ v = 0)); [by apply dump_special|].
  destruct (decide (op_ v = 1)); [by apply dump_bcond|]. by apply dump_normal.
Qed.

(** The operands dump_ascii prints, against the numbers of the trace. *)
Lemma dump_operands_trace i pc :
  let o := opCode i in let ns := trace_args i in let ops := dump_operands i pc in
  (deviates o = false → ops = corresponds o pc ns) ∧
  (o = OP_BEQ ∨ o = OP_BNE → ∃ a b n, ns = [a; b; n] ∧ ops = [OReg b; OReg a; OAddr (branch_address pc n)]) ∧
  (o = OP_BLEZ ∨ o = OP_BGTZ → ops = []) ∧
  (o = OP_JR ∨ o = OP_JALR → ∃ d s, ns = [d; s; -1] ∧ ops = [OReg s]) ∧
  (o = OP_MFLO → ns = [rd i; -1; -1] ∧ ops = [OReg (rs i)]) ∧
  (o = OP_MTHI → ns = [rs i; -1; -1] ∧ ops = [OReg (rd i)]).
Proof.
  cbv zeta. unfold dump_operands, trace_args. split_and!.
  - by destruct (opCode i).
  - intros [-> | ->]; by eexists _, _, _.
  - by intros [-> | ->].
  - intros [-> | ->]; by eexists _, _.
  - by intros ->.
  - by intros ->.
Qed.

(** C22: the two disassemblers agree, and with the processor.  Take an instruction
    word other than 0 (which dump_ascii prints as nop) that the simulated machine
    implements, at a pc such that the instruction after its delay slot is in the
    same 256 MB region.  The trace of OneInstruction prints the format of the table
    opStrings with the numbers [ns], in decimal; dump_ascii of bin/d.c prints the
    same operation in lower case, and operands that correspond to these numbers:
    the register with the number, the same number (in hex), and for the offset of
    a branch or the index of a jump the address it leads to.  The exceptions: beq
    and bne have their registers swapped, blez and bgtz no operands, jr and jalr
    only rs, and mflo and mthi show the wrong field as the register.  When the
    processor runs a branch or jump of which dump_ascii prints an address, it goes
    on after the delay slot either in line or at that address. *)
Theorem disassemblers_agree v pc : int32 pc → same_region pc = true → v ≠ 0 →
  let i := Decode (u32 v) in let o := opCode i in let ns := trace_args i in
  implemented o = true →
  ∃ ops, trace i pc = ("At PC = 0x" ++ fmt_x pc ++ ": " ++ printf_d (opStrings o).1 ns ++ newline)%string ∧
    dump v pc = Some (first_word (opStrings o).1, ops) ∧
    (deviates o = false → ops = corresponds o pc ns) ∧
    (o = OP_BEQ ∨ o = OP_BNE → ∃ a b n, ns = [a; b; n] ∧ ops = [OReg b; OReg a; OAddr (branch_address pc n)]) ∧
    (o = OP_BLEZ ∨ o = OP_BGTZ → ops = []) ∧
    (o = OP_JR ∨ o = OP_JALR → ∃ d s, ns = [d; s; -1] ∧ ops = [OReg s]) ∧
    (o = OP_MFLO → ns = [rd i; -1; -1] ∧ ops = [OReg (rs i)]) ∧
    (o = OP_MTHI → ns = [rs i; -1; -1] ∧ ops = [OReg (rd i)]) ∧
    ∀ m m' pc' r x, reg m NextPCReg = s32 (pc + 4) → prints_address o = true →
      exec_ADD_BNE i (s32 (reg m NextPCReg + 4)) m = Ok (Break m' pc' r x) →
      pc' = s32 (reg m NextPCReg + 4) ∨ OAddr pc' ∈ ops.
Proof.
  intros Hpc Hreg H0 i o ns Hi. exists (dump_operands i pc). split; [done|]. split; [by apply dump_printed|].
  destruct (dump_operands_trace i pc) as (T1 & T2 & T3 & T4 & T5 & T6). split_and!; try done.
  intros m m' pc' r x Hn Hp Hex. pose proof (dump_operands_address i pc Hp) as Hin. unfold o in *.
  destruct (is_jump (opCode i)) eqn:Hj.
  - apply jump_goes in Hex as ->; [|done]. right. rewrite Hn. exact Hin.
  - apply branch_goes in Hex as [->| ->]; [by left| |by destruct (opCode i)].
    right. rewrite Hn. exact Hin.
Qed.

(** A branch back by four instructions: beq r2, r0, -5; and lw r31, 20(r29). *)
Lemma disassemblers_agree_witness :
  (∃ ops, trace (Decode 0x1040fffb) 0x100 = ("At PC = 0x100: BEQ r2,r0,-5" ++ newline)%string ∧
     dump 0x1040fffb 0x100 = Some ("beq"%string, ops) ∧
     ∃ a b n, trace_args (Decode 0x1040fffb) = [a; b; n] ∧ ops = [OReg b; OReg a; OAddr (branch_address 0x100 n)]) ∧
  (∃ ops, dump (s32 0x8fbf0014) 0 = Some ("lw"%string, ops) ∧ ops = [OReg 31; OMem 20 29]).
Proof.
  split.
  - destruct (disassemblers_agree 0x1040fffb 0x100) as (ops & H0 & H1 & _ & H2 & _);
      [unfold int32; lia|reflexivity|discriminate|reflexivity|].
    exists ops. split; [exact H0|]. split; [exact H1|]. apply H2. left. reflexivity.
  - destruct (disassemblers_agree (s32 0x8fbf0014) 0) as (ops & _ & H1 & H2 & _);
      [unfold int32; lia|reflexivity|discriminate|reflexivity|].
    exists ops. split; [exact H1|exact (H2 eq_refl)].
Defined.

(** mflo r5 is printed with the register 0, and blez without operands. *)
Lemma dump_mflo : dump 0x2812 0 = Some ("mflo"%string, [OReg 0]) ∧ rd (Decode 0x2812) = 5.
Proof. done. Qed.
Lemma dump_blez : dump 0x18400003 0 = Some ("blez"%string, []) ∧ trace_args (Decode 0x18400003) = [2; 3; -1].
Proof. done. Qed.

(** ** The listing of a program *)

(** The words of the text section in the file, and their listing. *)
Fixpoint text_words (file : list Z) (n : nat) : list Z :=
  match n with
  | O => []
  | S n => s32 (le_combine (take 4 file)) :: text_words (drop 4 file) n
  end.

Fixpoint listing (words : list Z) (pc : Z) : string :=
  match words with
  | [] => EmptyString
  | w :: ws => (dump_ascii w pc ++ newline ++ listing ws (pc + 4))%string
  end.

Lemma load_bytes_ok n file : ∀ pos pc mem, 0 <= pos → memoffset <= pc →
  pc - memoffset + Z.of_nat n <= MEMSIZE →
  ∃ mem', load_bytes n file pos pc mem = Some mem' ∧
    ∀ a, mem' a = if (pc - memoffset <=? a) && (a <? pc - memoffset + Z.of_nat n)
                  then default 255 (file !! Z.to_nat (pos + (a - (pc - memoffset)))) else mem a.
Proof.
  induction n as [|n IH]; intros pos pc mem Hpos Hpc Hn.
  { exists mem. split; [done|]. intros a.
    destruct (Z.leb_spec (pc - memoffset) a), (Z.ltb_spec a (pc - memoffset + Z.of_nat 0)); try done; lia. }
  cbn [load_bytes]. rewrite Z.geb_leb. destruct (Z.leb_spec MEMSIZE (pc - memoffset)); [lia|].
  destruct (IH (pos + 1) (pc + 1) (mem_write mem (pc - memoffset) [default 255 (file !! Z.to_nat pos)]))
    as (mem' & Hl & Hm); [lia..|]. exists mem'. split; [done|]. intros a. rewrite Hm. unfold mem_write.
  destruct (Z.leb_spec (pc + 1 - memoffset) a), (Z.ltb_spec a (pc + 1 - memoffset + Z.of_nat n)),
    (Z.leb_spec (pc - memoffset) a), (Z.ltb_spec a (pc - memoffset + Z.of_nat (S n))); try lia; cbn [andb]; try done.
  - do 3 f_equal. lia.
  - rewrite lookup_ge_None_2; [done|]. simpl. lia.
  - replace (Z.to_nat (a - (pc - memoffset))) with 0%nat by lia. cbn [lookup list_lookup].
    replace (pos + (a - (pc - memoffset))) with pos by lia. done.
Qed.

Lemma disasm_loop_ok file n : ∀ pc mem, memoffset <= pc → pc mod 4 = 0 →
  pc - memoffset + 4 * Z.of_nat n <= MEMSIZE → (4 * n <= length file)%nat →
  (∀ k, 0 <= k < 4 * Z.of_nat n → mem (pc - memoffset + k) = default 255 (file !! Z.to_nat k)) →
  disasm_loop n mem pc = Ok (listing (text_words file n) pc).
Proof.
  revert file. induction n as [|n IH]; intros file pc mem Hpc Ha Hn Hf Hm; [done|].
  cbn [disasm_loop text_words listing]. unfold fetch, mem_load, valid_access.
  destruct (Z.leb_spec memoffset pc); [|lia]. destruct (Z.leb_spec (pc + 4) (memoffset + MEMSIZE)); [|lia].
  rewrite Ha. cbn [andb Z.eqb]. cbn [mbind outcome_bind Execute.mem].
  assert (Hw : (λ i, mem (pc - memoffset + i)) <$> seqZ 0 4 = take 4 file).
  { destruct file as [|b0 [|b1 [|b2 [|b3 file]]]]; cbn [length] in Hf; try lia.
    change (seqZ 0 4) with [0; 1; 2; 3]. cbn [fmap list_fmap take].
    rewrite !Hm by lia. done. }
  rewrite Hw. cbn [mbind outcome_bind]. rewrite (IH (drop 4 file)); [done|lia| |lia|rewrite length_drop; lia|].
  - rewrite <- Z.add_mod_idemp_l, Ha by lia. done.
  - intros k Hk. replace (pc + 4 - memoffset + k) with (pc - memoffset + (k + 4)) by lia. rewrite Hm by lia.
    rewrite lookup_drop. do 2 f_equal. lia.
Qed.

(** Loading the text section of a program and disassembling it prints one line
    for each word of the section in the file, in order. *)
Theorem disasm_listing hd file mem n : s_vaddr hd = memoffset → 0 < s_scnptr hd →
  s_size hd = 4 * Z.of_nat n → s_size hd <= MEMSIZE → s_scnptr hd + s_size hd <= Z.of_nat (length file) →
  ∃ mem', load_section hd file mem = Some mem' ∧
    disasm hd mem' = Ok (listing (text_words (drop (Z.to_nat (s_scnptr hd)) file) n) memoffset).
Proof.
  intros Hv Hp Hs Hm Hf. unfold load_section. destruct (Z.eqb_spec (s_scnptr hd) 0); [lia|]. cbn [negb].
  destruct (load_bytes_ok (Z.to_nat (s_size hd)) file (s_scnptr hd) (s_vaddr hd) mem) as (mem' & Hl & Hmem);
    [lia|lia|lia|]. exists mem'. split; [done|]. unfold disasm.
  replace (Z.to_nat ((s_size hd + 3) / 4)) with n by (rewrite Hs; Z.to_euclidean_division_equations; lia).
  apply disasm_loop_ok; [lia|done|lia|rewrite length_drop; lia|].
  intros k Hk. rewrite Hmem, Hv, lookup_drop.
  destruct (Z.leb_spec (memoffset - memoffset) (memoffset - memoffset + k)); [|lia].
  destruct (Z.ltb_spec (memoffset - memoffset + k) (memoffset - memoffset + Z.of_nat (Z.to_nat (s_size hd)))); [|lia].
  cbn [andb]. do 2 f_equal. lia.
Qed.

(** ** bin/main.c: the loader of the interpreter

    LOADSECTION of main.c looks at the size of memory only after it has filled
    it.  Like disasm.c it reads the file through a stream it has closed, which
    works where the library gives ldopen the same stream again; both models read
    the bytes of the file. *)
Fixpoint main_load_bytes (n : nat) (file : list Z) (pos pc : Z) (mem : Z → Z) : outcome (Z → Z) :=
  match n with
  | O => Ok mem
  | S n =>
      if in_range (pc - memoffset) MEMSIZE
      then main_load_bytes n file (pos + 1) (pc + 1)
             (mem_write mem (pc - memoffset) [default 255 (file !! Z.to_nat pos)])
      else Undef
  end.

(** LOADSECTION; None is exit(1). *)
Definition LOADSECTION (head : SCNHDR) (file : list Z) (mem : Z → Z) : outcome (option (Z → Z)) :=
  if negb (s_scnptr head =? 0) then
    mem ← main_load_bytes (Z.to_nat (s_size head)) file (s_scnptr head) (s_vaddr head) mem;
    let pc := s_vaddr head + Z.of_nat (Z.to_nat (s_size head)) in
    if pc - memoffset >=? MEMSIZE then Ok None else Ok (Some mem)
  else Ok (Some mem).

Lemma main_load_bytes_eq n file : ∀ pos pc mem, memoffset <= pc →
  main_load_bytes n file pos pc mem =
    if pc - memoffset + Z.of_nat n <=? MEMSIZE
    then match load_bytes n file pos pc mem with Some mem' => Ok mem' | None => Undef end
    else if (n =? 0)%nat then Ok mem else Undef.
Proof.
  induction n as [|n IH]; intros pos pc mem Hpc; [by destruct (_ <=? _)|].
  cbn [main_load_bytes load_bytes Nat.eqb]. unfold in_range. rewrite Z.geb_leb.
  destruct (Z.leb_spec 0 (pc - memoffset)); [|lia].
  destruct (Z.ltb_spec (pc - memoffset) MEMSIZE), (Z.leb_spec MEMSIZE (pc - memoffset)); try lia; cbn [andb].
  - rewrite IH by lia. replace (pc + 1 - memoffset + Z.of_nat n) with (pc - memoffset + Z.of_nat (S n)) by lia.
    destruct (Z.leb_spec (pc - memoffset + Z.of_nat (S n)) MEMSIZE); [done|]. destruct n; [lia|done].
  - destruct (Z.leb_spec (pc - memoffset + Z.of_nat (S n)) MEMSIZE); [lia|done].
Qed.

(** The two loaders, on a section of the file that is not empty and starts in
    memory: below the end of memory they load the same bytes; a section that
    ends exactly there is loaded by disasm.c and refused by main.c; one that goes
    beyond is refused by disasm.c, and main.c writes outside its memory. *)
Theorem loaders_compare hd file mem : memoffset <= s_vaddr hd → 0 < s_size hd → 0 < s_scnptr hd →
  let last := s_vaddr hd - memoffset + s_size hd in
  (last < MEMSIZE → ∃ mem', load_section hd file mem = Some mem' ∧ LOADSECTION hd file mem = Ok (Some mem')) ∧
  (last = MEMSIZE → is_Some (load_section hd file mem) ∧ LOADSECTION hd file mem = Ok None) ∧
  (MEMSIZE < last → LOADSECTION hd file mem = Undef).
Proof.
  intros Hv Hs Hp last. unfold load_section, LOADSECTION. destruct (Z.eqb_spec (s_scnptr hd) 0); [lia|]. cbn [negb].
  rewrite main_load_bytes_eq by done. rewrite Z2Nat.id by lia. rewrite Z.geb_leb.
  replace (s_vaddr hd + s_size hd - memoffset) with last by (unfold last; lia). fold last. split_and!; intros Hl.
  - destruct (load_bytes_ok (Z.to_nat (s_size hd)) file (s_scnptr hd) (s_vaddr hd) mem) as (mem' & H & _); [lia|lia|unfold last in Hl; lia|].
    rewrite H. destruct (Z.leb_spec last MEMSIZE); [|lia]. cbn [mbind outcome_bind].
    destruct (Z.leb_spec MEMSIZE last); [lia|]. eauto.
  - destruct (load_bytes_ok (Z.to_nat (s_size hd)) file (s_scnptr hd) (s_vaddr hd) mem) as (mem' & H & _); [lia|lia|unfold last in Hl; lia|].
    rewrite H. destruct (Z.leb_spec last MEMSIZE); [|lia]. cbn [mbind outcome_bind].
    destruct (Z.leb_spec MEMSIZE last); [|lia]. eauto.
  - destruct (Z.leb_spec last MEMSIZE); [lia|]. destruct (Nat.eqb_spec (Z.to_nat (s_size hd)) 0); [lia|done].
Qed.
End Disasm.
