(* ===== verification/UserLib.v ===== *)
(** * test/start.c: the library of user programs

    The assembly code linked to every user program: the stubs of the system calls.
    Their words are executed on the simulated machine. *)

From Stdlib Require Import ZArith Lia Bool String.
From S2P Require Import Prelude Bytes Machine Mips MipsProofs AddrSpace AddrSpaceProofs UserMem STable Exception.
From S2P Require Import Unix StubFS SimWorld ExceptionProofs.

Local Open Scope Z_scope.

(** ** start.c *)

(** The instructions of start.c as the assembler encodes them: a number is put in
    16 bits, and j of a register is jr, with nop in its delay slot. *)
Definition addiu (rt rs imm : Z) : Z := 0x24000000 + rs * 2 ^ 21 + rt * 2 ^ 16 + imm.
Definition syscall_ : Z := 0x0000000c.
Definition jr (rs : Z) : Z := rs * 2 ^ 21 + 8.
Definition nop : Z := 0.

Definition stub (code : Z) : list Z := [addiu 2 0 code; syscall_; jr 31; nop].

(** The stubs of the file, in order. *)
Definition stubs : list (string * Z) :=
  [ ("Halt", SC_Halt); ("Exit", SC_Exit); ("Exec", SC_Exec); ("Join", SC_Join); ("Create", SC_Create);
    ("Open", SC_Open); ("Read", SC_Read); ("Write", SC_Write); ("Close", SC_Close); ("Fork", SC_Fork);
    ("Yield", SC_Yield); ("ReadInt", SC_ReadInt); ("PrintInt", SC_PrintInt); ("ReadChar", SC_ReadChar);
    ("PrintChar", SC_PrintChar); ("ReadString", SC_ReadString); ("PrintString", SC_PrintString);
    ("CreateSemaphore", SC_CreateSemaphore); ("Signal", SC_Signal); ("Wait", SC_Wait) ]%string.

(** The words at an address, as the machine fetches them. *)
Definition holds (m : Machine) (a : Z) (code : list Z) : bool :=
  forallb (λ p, match ReadMem m (a + 4 * Z.of_nat p.1) 4 with
                | Ok (inr v, _) => v =? s32 p.2
                | _ => false
                end) (imap (λ k w, (k, w)) code).

(** What the processor relies on in its registers. *)
Record regs_ok (m : Machine) : Prop := {
  ro_length : length (registers m) = Z.to_nat NumTotalRegs;
  ro_int : Forall int32 (registers m);
  ro_load : 0 <= reg m LoadReg < NumGPRegs;
}.

(** The same program: the same translations and the same memory. *)
Definition same_program (m m' : Machine) : Prop := same_map m m' ∧ mainMemory m' = mainMemory m.

Lemma same_program_trans m1 m2 m3 : same_program m1 m2 → same_program m2 m3 → same_program m1 m3.
Proof. intros [H1 H2] [H3 H4]. split; [by etrans|by rewrite H4]. Qed.

Lemma same_program_set_reg m n v : same_program m (set_reg m n v).
Proof. by split. Qed.

Lemma ReadMem_same m m' a v m1 : wf_tr m → same_program m m' → ReadMem m a 4 = Ok (inr v, m1) →
  ∃ m2, ReadMem m' a 4 = Ok (inr v, m2) ∧ same_program m' m2 ∧ registers m2 = registers m'.
Proof.
  intros Hwf [Hs Hm] Hr. pose proof (wf_tr_same _ _ Hs Hwf) as Hwf'. unfold ReadMem in *.
  destruct (Translate_spec m a 4 false Hwf ltac:(auto)) as (r & n1 & H1 & _ & _ & Hm1 & _).
  destruct (Translate_spec m' a 4 false Hwf' ltac:(auto)) as (r' & n2 & H2 & Hs2 & Hr2 & Hm2 & _).
  pose proof (Translate_proper m m' a 4 false Hs) as Hp. rewrite H1, H2 in Hp. destruct Hp as [Hp _]. cbn in Hp. subst r'.
  rewrite H1 in Hr. rewrite H2. cbn [mbind outcome_bind] in *. destruct r as [e|p]; [done|].
  unfold mem_bytes in *. rewrite Hm2, Hm. rewrite Hm1 in Hr.
  apply bind_Ok_inv in Hr as (bs & -> & Hr). apply bind_Ok_inv in Hr as (v' & Hv & [= <- <-]).
  cbn [mbind outcome_bind]. rewrite Hv. cbn [mbind outcome_bind]. eexists. split; [done|]. split; [by split|done].
Qed.

Lemma holds_fetch m m' a code k w : wf_tr m → holds m a code = true → code !! k = Some w → same_program m m' →
  ∃ m2, ReadMem m' (a + 4 * Z.of_nat k) 4 = Ok (inr (s32 w), m2) ∧ same_program m' m2 ∧ registers m2 = registers m'.
Proof.
  intros Hwf Hh Hk Hs. unfold holds in Hh. rewrite forallb_forall in Hh.
  assert (Hin : In (k, w) (imap (λ k w, (k, w)) code)).
  { apply list_elem_of_In, elem_of_lookup_imap. eauto. }
  specialize (Hh _ Hin). cbn [fst snd] in Hh.
  destruct (ReadMem m (a + 4 * Z.of_nat k) 4) as [[[|v] m1]| | | |] eqn:Hr; try discriminate Hh.
  apply Z.eqb_eq in Hh as ->. by eapply ReadMem_same.
Qed.

(** The registers after an instruction that ends with break: [m1] is the machine
    when the switch is left, [pcAfter] the next pc. *)
Lemma Break_step m m1 raw m2 pcAfter : ReadMem m (reg m PCReg) 4 = Ok (inr raw, m1) →
  exec_ADD_BNE (Decode (u32 raw)) (s32 (reg m1 NextPCReg + 4)) m1 = Ok (Break m2 pcAfter 0 0) →
  regs_ok m2 → int32 pcAfter →
  ∃ m', OneInstruction m = Ok (Next, m') ∧ regs_ok m' ∧ same_program m2 m' ∧
    ∀ k, 0 <= k < NumTotalRegs → reg m' k =
      if k =? NextPCReg then pcAfter else if k =? PCReg then reg m2 NextPCReg
      else if k =? PrevPCReg then reg m2 PCReg
      else if k =? 0 then 0 else if k =? LoadValueReg then 0 else if k =? LoadReg then 0
      else if k =? reg m2 LoadReg then reg m2 LoadValueReg else reg m2 k.
Proof.
  intros Hr Hx [Hl Hi Hld] Hpc. unfold OneInstruction. rewrite Hr. cbn [mbind outcome_bind]. rewrite Hx.
  cbn [mbind outcome_bind].
  destruct (DelayedLoad_spec m2 0 0) as (m3 & -> & Hm3 & Hl3 & Hi3 & Hreg); [done|done|done|by unfold int32|by unfold int32|].
  cbn [mbind outcome_bind]. eexists. split; [reflexivity|].
  assert (Hz : Z.of_nat (length (registers m3)) = 40) by (rewrite Hl3; done).
  assert (Hall : ∀ k, 0 <= k < NumTotalRegs →
    reg (set_reg (set_reg (set_reg m3 PrevPCReg (reg m3 PCReg)) PCReg
      (reg (set_reg m3 PrevPCReg (reg m3 PCReg)) NextPCReg)) NextPCReg pcAfter) k =
      if k =? NextPCReg then pcAfter else if k =? PCReg then reg m3 NextPCReg
      else if k =? PrevPCReg then reg m3 PCReg else reg m3 k).
  { intros k Hk. unfold NextPCReg, PCReg, PrevPCReg, NumTotalRegs in *.
    rewrite !reg_set_reg by (rewrite ?length_set_reg, ?Hz; lia). done. }
  split; [split|split].
  - rewrite !length_set_reg. exact Hl3.
  - repeat apply set_reg_int32; try done; apply reg_int32; [done|by repeat apply set_reg_int32; try apply reg_int32].
  - rewrite Hall, !Hreg by done. unfold LoadReg, NextPCReg, PCReg, PrevPCReg, LoadValueReg, NumGPRegs. cbn. lia.
  - rewrite Hm3. by split.
  - assert (Hpcs : ∀ k, NumGPRegs < k < LoadReg → reg m3 k = reg m2 k).
    { intros k Hk. unfold NumGPRegs, LoadReg in Hk, Hld. rewrite Hreg by (unfold NumTotalRegs; lia).
      unfold LoadReg, LoadValueReg in *.
      repeat match goal with |- context [k =? ?x] => destruct (Z.eqb_spec k x); [lia|] end. done. }
    intros k Hk. rewrite Hall, !Hpcs, Hreg by done. done.
Qed.

(** ... and after one that raises an exception with no bad address. *)
Lemma Trap_step m m1 raw m2 e : ReadMem m (reg m PCReg) 4 = Ok (inr raw, m1) →
  exec_ADD_BNE (Decode (u32 raw)) (s32 (reg m1 NextPCReg + 4)) m1 = Ok (Raise m2 e 0) → regs_ok m2 →
  ∃ m', OneInstruction m = Ok (Trap e, m') ∧ regs_ok m' ∧ same_program m2 m' ∧
    ∀ k, 0 <= k < NumTotalRegs → reg m' k =
      if k =? 0 then 0 else if k =? LoadValueReg then 0 else if k =? LoadReg then 0
      else if k =? reg m2 LoadReg then reg m2 LoadValueReg else if k =? BadVAddrReg then 0 else reg m2 k.
Proof.
  intros Hr Hx [Hl Hi Hld]. unfold OneInstruction. rewrite Hr. cbn [mbind outcome_bind]. rewrite Hx.
  cbn [mbind outcome_bind]. unfold RaiseException.
  assert (Hz : Z.of_nat (length (registers m2)) = 40) by (rewrite Hl; done).
  assert (Hb : ∀ k, 0 <= k → reg (set_reg m2 BadVAddrReg 0) k = if k =? BadVAddrReg then 0 else reg m2 k).
  { intros k Hk. rewrite reg_set_reg by (rewrite ?Hz; unfold BadVAddrReg; lia). done. }
  destruct (DelayedLoad_spec (set_reg m2 BadVAddrReg 0) 0 0) as (m3 & -> & Hm3 & Hl3 & Hi3 & Hreg);
    [by rewrite length_set_reg|by rewrite Hb|by apply set_reg_int32|done|done|].
  cbn [mbind outcome_bind]. eexists. split; [reflexivity|]. split.
  { split; try done. rewrite Hreg by done. unfold LoadReg, LoadValueReg, NumGPRegs. cbn. lia. }
  split; [rewrite Hm3; by split|]. intros k Hk. rewrite Hreg, !Hb by (unfold LoadReg, LoadValueReg; lia). done.
Qed.

(** The four words, decoded. *)
Lemma Decode_addiu code : 0 <= code < 20 → Decode (u32 (s32 (addiu 2 0 code))) = mkInstr OP_ADDIU 0 2 0 code.
Proof.
  intros Hc. assert (Hin : code ∈ seqZ 0 20) by (by apply elem_of_seqZ). revert Hin.
  change (seqZ 0 20) with [0;1;2;3;4;5;6;7;8;9;10;11;12;13;14;15;16;17;18;19].
  rewrite !elem_of_cons, elem_of_nil. intros Hin. repeat destruct Hin as [->|Hin]; try reflexivity. done.
Qed.

Lemma stubs_code name code : (name, code) ∈ stubs → 0 <= code < 20.
Proof.
  unfold stubs. rewrite !elem_of_cons, elem_of_nil. intros Hin.
  repeat destruct Hin as [[= _ ->]|Hin]; try (vm_compute; split; [discriminate|reflexivity]). done.
Qed.

(** Evaluates the tests of a register number against constants. *)
Ltac reg_tests :=
  unfold NextPCReg, PCReg, PrevPCReg, LoadReg, LoadValueReg, BadVAddrReg, NumGPRegs, NumTotalRegs in *;
  repeat match goal with
  | |- context [?k =? ?x] => destruct (Z.eqb_spec k x); try lia
  end.

Lemma regs_ok_set m n v : regs_ok m → int32 v → 0 <= n < 34 → regs_ok (set_reg m n v).
Proof.
  intros [Hl Hi Hld] Hv Hn. split; [by rewrite length_set_reg|by apply set_reg_int32|].
  rewrite reg_set_reg by (rewrite ?Hl; unfold LoadReg, NumTotalRegs; lia). by reg_tests.
Qed.

Lemma regs_ok_same m m' : registers m' = registers m → regs_ok m → regs_ok m'.
Proof. intros Hr [Hl Hi Hld]. unfold reg in *. split; unfold reg; by rewrite Hr. Qed.

(** The stub up to the trap. *)
Lemma stub_traps m a code : 0 <= code < 20 → wf_tr m → regs_ok m → holds m a (stub code) = true →
  int32 a → a + 16 < 2 ^ 31 → reg m 0 = 0 → reg m PCReg = a → reg m NextPCReg = a + 4 → reg m LoadReg = 0 →
  ∃ m1 m2, OneInstruction m = Ok (Next, m1) ∧ OneInstruction m1 = Ok (Trap SyscallException, m2) ∧
    regs_ok m2 ∧ same_program m m2 ∧ reg m2 2 = code ∧ (∀ k, 0 <= k < 34 → k ≠ 2 → reg m2 k = reg m k) ∧
    reg m2 PCReg = a + 4 ∧ reg m2 NextPCReg = a + 8 ∧ reg m2 LoadReg = 0.
Proof.
  intros Hc Hwf Hok Hh Ha Hae H0 Hpc Hnpc Hld.
  destruct (holds_fetch m m a (stub code) 0 (addiu 2 0 code) Hwf Hh eq_refl) as (n1 & Hf1 & Hs1 & Hr1); [by split|].
  rewrite Z.add_0_r, <- Hpc in Hf1. pose proof (regs_ok_same _ _ Hr1 Hok) as Hok1.
  assert (Hreg1 : ∀ k, reg n1 k = reg m k) by (intros k; unfold reg; by rewrite Hr1).
  assert (Hci : int32 code) by (unfold int32; lia).
  destruct (Break_step m n1 _ (set_reg n1 2 code) (a + 8) Hf1) as (m1 & Ho1 & Hk1 & Hp1 & Hg1).
  { rewrite Decode_addiu by done. cbn [exec_ADD_BNE opCode rs rt extra assign break_]. rewrite !Hreg1, H0, Hnpc, Z.add_0_l.
    unfold int32 in Ha. rewrite (s32_id code) by done. rewrite (s32_id (a + 4 + 4)) by (unfold int32; lia).
    replace (a + 4 + 4) with (a + 8) by lia. reflexivity. }
  { apply regs_ok_set; [done|done|lia]. }
  { unfold int32 in *. lia. }
  assert (Hn1 : ∀ k, 0 <= k → reg (set_reg n1 2 code) k = if k =? 2 then code else reg m k).
  { intros k Hk. rewrite reg_set_reg, Hreg1 by (rewrite ?(ro_length _ Hok1); unfold NumTotalRegs; lia). done. }
  assert (Hg : ∀ k, 0 <= k < NumTotalRegs → k ≠ 0 → reg m1 k = if k =? NextPCReg then a + 8 else if k =? PCReg then a + 4
    else if k =? PrevPCReg then a else if k =? LoadValueReg then 0 else if k =? LoadReg then 0 else if k =? 2 then code else reg m k).
  { intros k Hk Hk0. rewrite Hg1, !Hn1 by (done || lia). rewrite Hld, Hpc, Hnpc. by reg_tests. }
  assert (Hsp1 : same_program m m1).
  { eapply same_program_trans; [exact Hs1|]. eapply same_program_trans; [apply same_program_set_reg|exact Hp1]. }
  destruct (holds_fetch m m1 a (stub code) 1 syscall_ Hwf Hh eq_refl Hsp1) as (n2 & Hf2 & Hs2 & Hr2).
  assert (Hreg2 : ∀ k, reg n2 k = reg m1 k) by (intros k; unfold reg; by rewrite Hr2).
  assert (Hpc1 : reg m1 PCReg = a + 4) by (rewrite Hg by done; done).
  change (a + 4 * Z.of_nat 1) with (a + 4) in Hf2. rewrite <- Hpc1 in Hf2.
  destruct (Trap_step m1 n2 _ n2 SyscallException Hf2) as (m2 & Ho2 & Hk2 & Hp2 & Hg2).
  { reflexivity. }
  { by apply (regs_ok_same _ _ Hr2). }
  assert (Hall : ∀ k, 0 <= k < NumTotalRegs → k ≠ 0 → k ≠ BadVAddrReg → reg m2 k = reg m1 k).
  { intros k Hk Hk0 Hkb. rewrite Hg2, !Hreg2 by done. rewrite (Hg LoadReg), (Hg LoadValueReg) by done. rewrite Hg by done.
    by reg_tests. }
  exists m1, m2. split_and!; try done.
  - eapply same_program_trans; [exact Hsp1|]. by eapply same_program_trans.
  - rewrite Hall, Hg by done. done.
  - intros k Hk Hne. destruct (decide (k = 0)) as [->|Hk0]; [rewrite Hg2, H0 by done; done|].
    rewrite Hall, Hg by (unfold NumTotalRegs, BadVAddrReg; lia). by reg_tests.
  - by rewrite Hall by done.
  - by rewrite Hall, Hg by done.
  - by rewrite Hall, Hg by done.
Qed.

(** A fetch of the k-th word of the code, at the program counter. *)
Lemma fetch_at m a code k w : wf_tr m → holds m a code = true → code !! k = Some w →
  ∀ m', same_program m m' → reg m' PCReg = a + 4 * Z.of_nat k →
  ∃ m2, ReadMem m' (reg m' PCReg) 4 = Ok (inr (s32 w), m2) ∧ same_program m' m2 ∧ registers m2 = registers m'.
Proof. intros Hwf Hh Hk m' Hs ->. by eapply holds_fetch. Qed.

(** A nop at the program counter. *)
Lemma nop_step m raw : wf_tr m → regs_ok m → ReadMem m (reg m PCReg) 4 = Ok (inr (s32 nop), raw) →
  same_program m raw → registers raw = registers m → reg m 0 = 0 → reg m LoadReg = 0 →
  ∃ m', OneInstruction m = Ok (Next, m') ∧ regs_ok m' ∧ same_program m m' ∧
    (∀ k, 0 <= k < 34 → reg m' k = reg m k) ∧ reg m' PCReg = reg m NextPCReg ∧
    reg m' NextPCReg = s32 (reg m NextPCReg + 4) ∧ reg m' LoadReg = 0.
Proof.
  intros Hwf Hok Hf Hs Hr H0 Hld. assert (Hreg : ∀ k, reg raw k = reg m k) by (intros k; unfold reg; by rewrite Hr).
  pose proof (regs_ok_same _ _ Hr Hok) as Hok2.
  destruct (Break_step m raw _ (set_reg raw 0 0) (s32 (reg m NextPCReg + 4)) Hf) as (m2 & Ho2 & Hk2 & Hp2 & Hg2).
  { change (Decode (u32 (s32 nop))) with (mkInstr OP_SLL 0 0 0 0).
    cbn [exec_ADD_BNE exec_DIV_JR exec_LB_LWR exec_MFHI_SRLV opCode rs rt rd extra]. rewrite !Hreg.
    rewrite H0. reflexivity. }
  { apply regs_ok_set; [done|done|lia]. }
  { apply s32_range. }
  assert (Hn2 : ∀ k, 0 <= k → reg (set_reg raw 0 0) k = if k =? 0 then 0 else reg m k).
  { intros k Hk. rewrite reg_set_reg, Hreg by (rewrite ?(ro_length _ Hok2); unfold NumTotalRegs; lia). done. }
  exists m2. split_and!; try done.
  - eapply same_program_trans; [exact Hs|]. eapply same_program_trans; [apply same_program_set_reg|exact Hp2].
  - intros k Hk. rewrite Hg2, !Hn2 by (unfold NumTotalRegs, LoadReg, LoadValueReg, PCReg, NextPCReg; lia).
    rewrite Hld. reg_tests; subst; done.
  - rewrite Hg2, Hn2 by done. done.
  - rewrite Hg2 by done. done.
  - rewrite Hg2 by done. done.
Qed.

(** The stub after the trap. *)
Lemma stub_returns m a code : wf_tr m → regs_ok m → holds m a (stub code) = true →
  reg m 0 = 0 → reg m PCReg = a + 8 → reg m NextPCReg = a + 12 → reg m LoadReg = 0 →
  ∃ m1 m2, OneInstruction m = Ok (Next, m1) ∧ OneInstruction m1 = Ok (Next, m2) ∧
    regs_ok m2 ∧ same_program m m2 ∧ (∀ k, 0 <= k < 34 → reg m2 k = reg m k) ∧
    reg m2 PCReg = reg m 31 ∧ reg m2 NextPCReg = s32 (reg m 31 + 4).
Proof.
  intros Hwf Hok Hh H0 Hpc Hnpc Hld.
  destruct (fetch_at m a _ 2 (jr 31) Hwf Hh eq_refl m) as (n1 & Hf1 & Hs1 & Hr1); [by split|done|].
  assert (Hreg1 : ∀ k, reg n1 k = reg m k) by (intros k; unfold reg; by rewrite Hr1).
  assert (H31 : int32 (reg m 31)) by apply reg_int32, Hok.
  destruct (Break_step m n1 _ n1 (reg m 31) Hf1) as (m1 & Ho1 & Hk1 & Hp1 & Hg1).
  { rewrite <- (Hreg1 31). reflexivity. }
  { by apply (regs_ok_same _ _ Hr1). }
  { done. }
  assert (Hg : ∀ k, 0 <= k < NumTotalRegs → reg m1 k = if k =? NextPCReg then reg m 31 else if k =? PCReg then a + 12
    else if k =? PrevPCReg then a + 8 else if k =? LoadValueReg then 0 else if k =? LoadReg then 0 else reg m k).
  { intros k Hk. rewrite Hg1, !Hreg1 by done. rewrite Hld, Hpc, Hnpc. reg_tests; subst; done. }
  assert (Hsp1 : same_program m m1) by (by eapply same_program_trans).
  destruct (fetch_at m a _ 3 nop Hwf Hh eq_refl m1 Hsp1) as (n2 & Hf2 & Hs2 & Hr2); [by rewrite Hg by done|].
  destruct (nop_step m1 n2) as (m2 & Ho2 & Hk2 & Hp2 & Hg2 & Hpc2 & Hnpc2 & _); try done.
  { eapply wf_tr_same; [exact (proj1 Hsp1)|done]. }
  { by rewrite Hg by done. }
  { by rewrite Hg by done. }
  exists m1, m2. split_and!; try done.
  - by eapply same_program_trans.
  - intros k Hk. rewrite Hg2, Hg by (unfold NumTotalRegs; lia). by reg_tests.
  - rewrite Hpc2, Hg by done. done.
  - rewrite Hnpc2, Hg by done. done.
Qed.

Lemma wf_regs_ok m : wf_regs m → regs_ok m.
Proof. by intros [H1 H2 _ H4]. Qed.

(** The registers after the handler advanced the program counters [n] times. *)
Lemma called_regs t n m m' k : wf_regs m → called t n m m' → 0 <= k < NumTotalRegs → k ≠ 2 →
  reg m' k = reg (Nat.iter n AdvanceProgramCounter m) k.
Proof. intros _ Hc. apply (ca_same _ _ _ _ Hc). Qed.

Lemma length_Advance m : length (registers (AdvanceProgramCounter m)) = length (registers m).
Proof. unfold AdvanceProgramCounter. by rewrite !length_set_reg. Qed.

(** C23: the stubs of start.c make system calls.  A user program whose memory holds
    the stub of a system call, and which calls it (the program counter at the
    stub, no load pending), traps after two instructions with SyscallException:
    r2 holds the code of the call, the arguments and all other registers of the
    program are as the caller left them, and memory is unchanged.  If the handler
    of the kernel returns to the process, and the stub is still in its memory, then
    for every call but those on semaphores two more instructions return to the
    caller, with the result in r2 and every other register as at the call.  The
    calls on semaphores do not return: the handler has advanced the counters twice,
    so the jump of the stub is skipped, only the nop after it is run, and the
    program goes on at the end of the stub; if another stub lies there, it makes
    that system call, with the same arguments. *)
Theorem syscall_stub {W} `{Services W} name code m t a (g : Globals W) :
  (name, code) ∈ stubs → wf_regs m → user_space m t → holds m a (stub code) = true → int32 a → a + 32 < 2 ^ 31 →
  reg m PCReg = a → reg m NextPCReg = a + 4 → reg m LoadReg = 0 →
  ∃ m1 m2, OneInstruction m = Ok (Next, m1) ∧ OneInstruction m1 = Ok (Trap SyscallException, m2) ∧
    reg m2 2 = code ∧ (∀ k, 0 <= k < 34 → k ≠ 2 → reg m2 k = reg m k) ∧ same_program m m2 ∧
    ∀ m3 g', ExceptionHandler SyscallException (m2, g) = Ok (Returned, (m3, g')) → holds m3 a (stub code) = true →
      if is_sem code then
        ∃ m4, OneInstruction m3 = Ok (Next, m4) ∧ reg m4 PCReg = a + 16 ∧ reg m4 NextPCReg = a + 20 ∧
          (∀ k, 0 <= k < 34 → k ≠ 2 → reg m4 k = reg m k) ∧ same_program m3 m4 ∧
          ∀ name' code', (name', code') ∈ stubs → holds m4 (a + 16) (stub code') = true →
            ∃ m5 m6, OneInstruction m4 = Ok (Next, m5) ∧ OneInstruction m5 = Ok (Trap SyscallException, m6) ∧
              reg m6 2 = code' ∧ ∀ k, 0 <= k < 34 → k ≠ 2 → reg m6 k = reg m k
      else
        ∃ m4 m5, OneInstruction m3 = Ok (Next, m4) ∧ OneInstruction m4 = Ok (Next, m5) ∧
          reg m5 PCReg = reg m 31 ∧ reg m5 NextPCReg = s32 (reg m 31 + 4) ∧ reg m5 2 = reg m3 2 ∧
          (∀ k, 0 <= k < 34 → k ≠ 2 → reg m5 k = reg m k) ∧ same_program m3 m5.
Proof.
  intros Hin Hok Hus Hh Ha Hae Hpc Hnpc Hld. pose proof (wr_zero _ Hok) as H0.
  destruct (stub_traps m a code (stubs_code _ _ Hin) (user_space_wf_tr _ _ Hus) (wf_regs_ok _ Hok) Hh Ha ltac:(lia) H0 Hpc Hnpc Hld)
    as (m1 & m2 & Ho1 & Ho2 & Hk2 & Hp2 & Hr2 & Hrest & Hpc2 & Hnpc2 & Hld2).
  exists m1, m2. split_and!; try done. intros m3 g' Hex Hh3.
  assert (Hw2 : wf_regs m2) by (destruct Hk2; split; try done; by rewrite Hrest by done).
  assert (Hu2 : user_space m2 t).
  { eapply user_space_same; [exact (proj1 Hp2)| |exact Hus]. destruct Hus as [_ _ _ _ _ Hm]. unfold wf_mem in *.
    by rewrite (proj2 Hp2). }
  pose proof (ExceptionHandler_called t m2 g m3 g' Hw2 Hu2 Hex) as Hc. rewrite Hr2 in Hc.
  pose proof (wf_regs_ok _ (ca_regs _ _ _ _ Hc)) as Hok3. pose proof (user_space_wf_tr _ _ (ca_space _ _ _ _ Hc)) as Hwf3.
  pose proof (ca_same _ _ _ _ Hc) as Hs3. pose proof (ro_length _ Hk2) as Hl2. unfold int32 in Ha.
  destruct (is_sem code).
  - assert (Hg3 : ∀ k, 0 <= k < NumTotalRegs → k ≠ 2 → reg m3 k = if k =? NextPCReg then a + 16 else if k =? PCReg then a + 12
      else if k =? PrevPCReg then a + 8 else reg m2 k).
    { intros k Hk Hne. rewrite Hs3 by done. cbn [Nat.iter nat_rect].
      rewrite !Advance_reg by (rewrite ?length_Advance; first [done|unfold PCReg, NextPCReg; lia]).
      rewrite Hpc2, Hnpc2. reg_tests; rewrite ?s32_id by (unfold int32; rewrite ?s32_id by (unfold int32; lia); lia); lia || done. }
    destruct (fetch_at m3 a _ 3 nop Hwf3 Hh3 eq_refl m3) as (n3 & Hf3 & Hsp3 & Hr3); [by split|by rewrite Hg3|].
    destruct (nop_step m3 n3) as (m4 & Ho4 & Hk4 & Hp4 & Hg4 & Hpc4 & Hnpc4 & Hld4); try done.
    { rewrite Hg3, Hrest by done. done. }
    { by rewrite Hg3 by done. }
    assert (Hall : ∀ k, 0 <= k < 34 → k ≠ 2 → reg m4 k = reg m k).
    { intros k Hk Hne. rewrite Hg4, Hg3 by (unfold NumTotalRegs; lia). rewrite <- Hrest by done. by reg_tests. }
    rewrite Hg3 in Hpc4, Hnpc4 by done. change (NextPCReg =? NextPCReg) with true in *. cbn iota in *.
    rewrite s32_id in Hnpc4 by (unfold int32; lia). exists m4. split_and!; try done; [lia|].
    intros name' code' Hin' Hh4.
    destruct (stub_traps m4 (a + 16) code' (stubs_code _ _ Hin')) as (m5 & m6 & Ho5 & Ho6 & _ & _ & Hr6 & Hrest6 & _);
      [eapply wf_tr_same; [exact (proj1 Hp4)|done]|done|done|unfold int32; lia|lia|by rewrite Hall by done
      |done|rewrite Hnpc4; lia|done|].
    exists m5, m6. split_and!; try done. intros k Hk Hne. by rewrite Hrest6, Hall by done.
  - assert (Hg3 : ∀ k, 0 <= k < NumTotalRegs → k ≠ 2 → reg m3 k = if k =? NextPCReg then a + 12 else if k =? PCReg then a + 8
      else if k =? PrevPCReg then a + 4 else reg m2 k).
    { intros k Hk Hne. rewrite Hs3 by done. cbn [Nat.iter nat_rect]. rewrite !Advance_reg by first [done|lia].
      rewrite Hpc2, Hnpc2. reg_tests; rewrite ?s32_id by (unfold int32; lia); lia || done. }
    destruct (stub_returns m3 a code Hwf3 Hok3 Hh3) as (m4 & m5 & Ho4 & Ho5 & _ & Hp5 & Hg5 & Hpc5 & Hnpc5).
    { rewrite Hg3, Hrest by done. done. }
    { by rewrite Hg3 by done. }
    { by rewrite Hg3 by done. }
    { by rewrite Hg3 by done. }
    assert (H31 : reg m3 31 = reg m 31) by (rewrite Hg3, Hrest by done; done).
    exists m4, m5. rewrite H31 in Hpc5, Hnpc5. split_and!; try done.
    + by rewrite Hg5 by done.
    + intros k Hk Hne. rewrite Hg5, Hg3 by (unfold NumTotalRegs; lia). rewrite <- Hrest by done. by reg_tests.
Qed.


(** A program of one page, with the stubs of PrintChar and CreateSemaphore, and the
    one of Signal after it, at address 0. *)
Definition stub_table : list TranslationEntry := [mkTE 0 0 true false false false].
Definition stub_words : list Z := stub SC_PrintChar ++ stub SC_CreateSemaphore ++ stub SC_Signal.
Definition stub_machine (pc : Z) : Machine :=
  mkMachine (<[4%nat := 65]> (<[31%nat := 64]> (<[34%nat := pc]> (<[35%nat := pc + 4]> (replicate 40 0)))))
    (concat (map (le_split 4) stub_words) ++ replicate (Z.to_nat (MemorySize - 48)) 0)
    None (Some 7) 1 {[ 7 := stub_table ]} false.

(** The machine after the two instructions up to the trap, and after the handler. *)
Definition trapped (m : Machine) : Machine :=
  match OneInstruction m with
  | Ok (_, m1) => match OneInstruction m1 with Ok (_, m2) => m2 | _ => m1 end
  | _ => m
  end.

Lemma trapped_eq m m1 m2 r1 r2 : OneInstruction m = Ok (r1, m1) → OneInstruction m1 = Ok (r2, m2) → trapped m = m2.
Proof. unfold trapped. by intros -> ->. Qed.

Definition served_machine (m : Machine) : option Machine :=
  match ExceptionHandler SyscallException (m, sim_globals) with Ok (Returned, (m3, _)) => Some m3 | _ => None end.

Lemma served_machine_Some m m3 : served_machine m = Some m3 →
  ∃ g', ExceptionHandler SyscallException (m, sim_globals) = Ok (Returned, (m3, g')).
Proof.
  unfold served_machine. destruct (ExceptionHandler _ _) as [[[|] [m' g']]| | | |]; try done.
  intros [= ->]. by exists g'.
Qed.

Lemma stub_machine_ok pc : int32 pc → int32 (pc + 4) → wf_regs (stub_machine pc) ∧ user_space (stub_machine pc) stub_table.
Proof.
  intros H1 H2. split.
  - split; [done| |done|done]. unfold stub_machine. cbn [registers].
    apply Forall_insert; [|unfold int32; lia]. apply Forall_insert; [|unfold int32; lia].
    apply Forall_insert; [|done]. apply Forall_insert; [|done]. apply Forall_replicate. unfold int32. lia.
  - split; [reflexivity|by exists 7, stub_table|reflexivity|..].
    + split; [apply (bool_decide_unpack _); vm_compute; exact I|]. repeat constructor; vm_compute; discriminate.
    + repeat constructor.
    + unfold wf_mem. cbn [stub_machine mainMemory]. split.
      { rewrite length_app, length_replicate. change (length (concat (map (le_split 4) stub_words))) with 48%nat.
        unfold MemorySize, NumPhysPages, PageSize, SectorSize. lia. }
      apply Forall_app. split.
      * apply (bool_decide_unpack _). vm_compute. exact I.
      * apply Forall_replicate. unfold byte. lia.
Qed.

(** PrintChar returns to address 64; CreateSemaphore ends up in Signal. *)
Lemma syscall_stub_witness :
  (∃ m1 m2 m3 m5, OneInstruction (stub_machine 0) = Ok (Next, m1) ∧ OneInstruction m1 = Ok (Trap SyscallException, m2) ∧
     reg m2 2 = SC_PrintChar ∧ reg m2 4 = 65 ∧ served_machine m2 = Some m3 ∧ reg m5 PCReg = 64 ∧ same_program m3 m5) ∧
  (∃ m2 m3 m4 m6, reg m2 2 = SC_CreateSemaphore ∧ served_machine m2 = Some m3 ∧ OneInstruction m3 = Ok (Next, m4) ∧
     reg m4 PCReg = 32 ∧ reg m6 2 = SC_Signal).
Proof.
  split.
  - destruct (stub_machine_ok 0) as [Hr Hu]; [unfold int32; lia..|].
    destruct (syscall_stub "PrintChar" SC_PrintChar (stub_machine 0) stub_table 0 sim_globals)
      as (m1 & m2 & H1 & H2 & H3 & H4 & _ & H5);
      [apply (bool_decide_unpack _); vm_compute; exact I|exact Hr|exact Hu|vm_compute; reflexivity
      |unfold int32; lia|lia|reflexivity|reflexivity|reflexivity|].
    pose proof (trapped_eq _ _ _ _ _ H1 H2) as Ht.
    assert (Hs : match served_machine (trapped (stub_machine 0)) with
      | Some m => holds m 0 (stub SC_PrintChar) | None => false end = true) by (vm_compute; reflexivity).
    rewrite Ht in Hs. destruct (served_machine m2) as [m3|] eqn:E3; [|discriminate Hs].
    destruct (served_machine_Some m2 m3 E3) as (g' & He).
    destruct (H5 m3 g' He Hs) as (m4 & m5 & _ & _ & H6 & _ & _ & _ & H7).
    exists m1, m2, m3, m5. split; [exact H1|]. split; [exact H2|]. split; [exact H3|].
    split; [apply (H4 4); lia|]. split; [exact E3|]. split; [exact H6|exact H7].
  - destruct (stub_machine_ok 16) as [Hr Hu]; [unfold int32; lia..|].
    destruct (syscall_stub "CreateSemaphore" SC_CreateSemaphore (stub_machine 16) stub_table 16 sim_globals)
      as (m1 & m2 & H1 & H2 & H3 & _ & _ & H5);
      [apply (bool_decide_unpack _); vm_compute; exact I|exact Hr|exact Hu|vm_compute; reflexivity
      |unfold int32; lia|lia|reflexivity|reflexivity|reflexivity|].
    pose proof (trapped_eq _ _ _ _ _ H1 H2) as Ht.
    assert (Hs : match served_machine (trapped (stub_machine 16)) with
      | Some m => holds m 16 (stub SC_CreateSemaphore) && match OneInstruction m with
                  | Ok (_, m4) => holds m4 32 (stub SC_Signal) | _ => false end
      | None => false end = true) by (vm_compute; reflexivity).
    rewrite Ht in Hs. destruct (served_machine m2) as [m3|] eqn:E3; [|discriminate Hs].
    apply andb_true_iff in Hs as [Hs1 Hs2].
    destruct (served_machine_Some m2 m3 E3) as (g' & He).
    destruct (H5 m3 g' He Hs1) as (m4 & H6 & H7 & _ & _ & _ & H8). rewrite H6 in Hs2.
    destruct (H8 "Signal"%string SC_Signal) as (m5 & m6 & _ & _ & H9 & _);
      [apply (bool_decide_unpack _); vm_compute; exact I|exact Hs2|].
    exists m2, m3, m4, m6. split; [exact H3|]. split; [exact E3|]. split; [exact H6|]. split; [exact H7|exact H9].
Defined.
