(* ===== verification/UserPrograms.v ===== *)
(** * test/sort.c, test/matmult.c: two user programs

    C programs for the simulated machine, as functions of their global arrays; the
    sizes of the arrays are parameters, with the constants of the programs as
    instances.  An access outside an array is undefined. *)

From Stdlib Require Import ZArith Lia Bool.
From S2P Require Import Prelude Bytes.

Local Open Scope Z_scope.

Module Sort.

(** The body of the inner loop. *)
Definition compare_swap (A : list Z) (j : Z) : outcome (list Z) :=
  x ← aget A j;
  y ← aget A (j + 1);
  if x >? y then
    let tmp := x in
    A ← aset A j y;
    aset A (j + 1) tmp
  else Ok A.

(** for (j = i; j < (n - 1 - i); j++) *)
Definition pass (n : Z) (A : list Z) (i : Z) : outcome (list Z) :=
  foldM compare_swap A (seqZ i (n - 1 - i - i)).

(** for (i = 0; i < n - 1; i++) *)
Definition sort (n : Z) (A : list Z) : outcome (list Z) := foldM (pass n) A (seqZ 0 (n - 1)).

(** main with arrays of [n] ints: the argument of Exit. *)
Definition sort_main (n : Z) : outcome Z :=
  A ← foldM (λ A i, aset A i (n - i)) (replicate (Z.to_nat n) 0) (seqZ 0 n);
  A ← sort n A;
  aget A 0.

Definition sort_size : Z := 1024.

Lemma compare_swap_ok A j : 0 <= j → j + 1 < Z.of_nat (length A) →
  ∃ x y A', A !! Z.to_nat j = Some x ∧ A !! Z.to_nat (j + 1) = Some y ∧ compare_swap A j = Ok A' ∧
    A' = (if x >? y then <[Z.to_nat (j + 1) := x]> (<[Z.to_nat j := y]> A) else A) ∧ A' ≡ₚ A.
Proof.
  intros Hj Hl. unfold compare_swap.
  destruct (aget_in_range A j) as (x & Hx & Hxl); [lia|]. destruct (aget_in_range A (j + 1)) as (y & Hy & Hyl); [lia|].
  rewrite Hx, Hy. cbn [mbind outcome_bind]. exists x, y. destruct (x >? y) eqn:E; [|by eauto 10].
  rewrite aset_in_range by lia. cbn [mbind outcome_bind]. rewrite aset_in_range by (rewrite length_insert; lia).
  eexists. split_and!; try done. by apply Permutation_insert_swap.
Qed.

(** A pass from [i] on keeps the elements, and those before [i]. *)
Lemma compare_swaps_ok A l i : Forall (λ j, 0 <= i <= j ∧ j + 1 < Z.of_nat (length A)) l →
  ∃ A', foldM compare_swap A l = Ok A' ∧ A' ≡ₚ A ∧ length A' = length A ∧ take (Z.to_nat i) A' = take (Z.to_nat i) A.
Proof.
  intros Hl. destruct (foldM_inv (λ A', A' ≡ₚ A ∧ length A' = length A ∧ take (Z.to_nat i) A' = take (Z.to_nat i) A)
    compare_swap l A) as (A' & Hf & HP); [done| |eauto].
  intros A1 j Hj (Hp & Hlen & Ht). rewrite Forall_forall in Hl. specialize (Hl j Hj). rewrite <- Hlen in Hl.
  destruct (compare_swap_ok A1 j) as (x & y & A2 & _ & _ & Hc & HA2 & Hp2); [lia..|].
  exists A2. split; [done|]. split; [by rewrite Hp2|]. subst A2. destruct (x >? y); [|done].
  rewrite !length_insert. split; [done|]. rewrite !take_insert_ge by lia. done.
Qed.

Lemma pass_ok n A i : 0 <= i → Z.of_nat (length A) = n →
  ∃ A', pass n A i = Ok A' ∧ A' ≡ₚ A ∧ length A' = length A ∧ take (Z.to_nat i) A' = take (Z.to_nat i) A.
Proof.
  intros Hi Hn. apply compare_swaps_ok, Forall_forall. intros j Hj%elem_of_seqZ. lia.
Qed.

(** The first pass puts the smaller of the first two elements first. *)
Lemma pass_first n A x y : Z.of_nat (length A) = n → 2 <= n → A !! 0%nat = Some x → A !! 1%nat = Some y →
  ∃ A', pass n A 0 = Ok A' ∧ A' ≡ₚ A ∧ length A' = length A ∧ A' !! 0%nat = Some (Z.min x y).
Proof.
  intros Hn H2 Hx Hy. unfold pass. rewrite seqZ_cons by lia. cbn [foldM].
  destruct (compare_swap_ok A 0) as (x' & y' & A1 & Hx' & Hy' & Hc & HA1 & Hp1); [lia..|].
  change (Z.to_nat 0) with 0%nat in *. change (Z.to_nat (0 + 1)) with 1%nat in *.
  rewrite Hx in Hx'. rewrite Hy in Hy'. injection Hx' as <-. injection Hy' as <-. rewrite Hc.
  assert (Hl1 : length A1 = length A) by (subst A1; destruct (x >? y); rewrite ?length_insert; done).
  destruct (compare_swaps_ok A1 (seqZ (Z.succ 0) (Z.pred (n - 1 - 0 - 0))) 1) as (A2 & Hf & Hp2 & Hl2 & Ht).
  { apply Forall_forall. intros j Hj%elem_of_seqZ. rewrite Hl1. lia. }
  exists A2. split; [done|]. split; [by rewrite Hp2, Hp1|]. split; [lia|].
  assert (H0 : A2 !! 0%nat = A1 !! 0%nat).
  { rewrite <- (lookup_take_lt A2 (Z.to_nat 1)), <- (lookup_take_lt A1 (Z.to_nat 1)) by lia. by rewrite Ht. }
  rewrite H0. subst A1. rewrite Z.gtb_ltb. destruct (Z.ltb_spec y x).
  - rewrite list_lookup_insert_ne, list_lookup_insert_eq by lia. f_equal. lia.
  - rewrite Hx. f_equal. lia.
Qed.

(** The loops of sort.c return, with the elements of the array; in front is the
    smaller of the first two, since only the first pass looks at the first
    element. *)
Theorem sort_result n A x y : Z.of_nat (length A) = n → 2 <= n → A !! 0%nat = Some x → A !! 1%nat = Some y →
  ∃ A', sort n A = Ok A' ∧ A' ≡ₚ A ∧ A' !! 0%nat = Some (Z.min x y).
Proof.
  intros Hn H2 Hx Hy. unfold sort. rewrite seqZ_cons by lia. cbn [foldM].
  destruct (pass_first n A x y Hn H2 Hx Hy) as (A1 & -> & Hp1 & Hl1 & H01).
  destruct (foldM_inv (λ A', A' ≡ₚ A ∧ length A' = length A ∧ A' !! 0%nat = Some (Z.min x y))
    (pass n) (seqZ (Z.succ 0) (Z.pred (n - 1))) A1) as (A2 & Hf & Hp2 & _ & H02); [done| |eauto].
  intros A3 i Hi%elem_of_seqZ (Hp3 & Hl3 & H03).
  destruct (pass_ok n A3 i) as (A4 & H4 & Hp4 & Hl4 & Ht4); [lia..|]. exists A4. split; [done|].
  split; [by rewrite Hp4|]. split; [lia|].
  rewrite <- H03, <- (lookup_take_lt A4 (Z.to_nat i)), <- (lookup_take_lt A3 (Z.to_nat i)) by lia. by rewrite Ht4.
Qed.

(** The array after the first loop of main. *)
Lemma init_ok n : 0 <= n →
  ∃ A, foldM (λ A i, aset A i (n - i)) (replicate (Z.to_nat n) 0) (seqZ 0 n) = Ok A ∧
    Z.of_nat (length A) = n ∧ ∀ i, 0 <= i < n → A !! Z.to_nat i = Some (n - i).
Proof.
  intros Hn. destruct (foldM_seqZ (λ k A, Z.of_nat (length A) = n ∧ ∀ i, 0 <= i < k → A !! Z.to_nat i = Some (n - i))
    (λ A i, aset A i (n - i)) n (replicate (Z.to_nat n) 0)) as (A & Hf & Hl & Ha).
  - done.
  - rewrite length_replicate. split; lia.
  - intros i A Hi (Hl & Ha). rewrite aset_in_range by lia. eexists. split; [done|]. rewrite length_insert.
    split; [done|]. intros k Hk. destruct (decide (k = i)) as [->|Hne].
    + by rewrite list_lookup_insert_eq by lia.
    + rewrite list_lookup_insert_ne by lia. apply Ha. lia.
  - eauto.
Qed.

(** On the array n, n - 1, ..., 1 of main the program exits with n - 1, the largest
    element but one: sort.c does not sort. *)
Theorem sort_exit n : 2 <= n → sort_main n = Ok (n - 1).
Proof.
  intros Hn. unfold sort_main. destruct (init_ok n) as (A & -> & Hl & Ha); [lia|]. cbn [mbind outcome_bind].
  destruct (sort_result n A n (n - 1) Hl Hn) as (A' & -> & _ & H0).
  { pose proof (Ha 0 ltac:(lia)) as H0. rewrite Z.sub_0_r in H0. exact H0. }
  { exact (Ha 1 ltac:(lia)). }
  cbn [mbind outcome_bind]. unfold aget. cbn [Z.leb]. change (Z.to_nat 0) with 0%nat. rewrite H0. f_equal. lia.
Qed.

Corollary sort_exits_1023 : sort_main sort_size = Ok 1023.
Proof. apply sort_exit. unfold sort_size. lia. Qed.
End Sort.

Module MatMult.

Definition Dim : Z := 20.

(** M[i][j] *)
Definition mget (M : list (list Z)) (i j : Z) : outcome Z := r ← aget M i; aget r j.
Definition mset (M : list (list Z)) (i j v : Z) : outcome (list (list Z)) :=
  r ← aget M i; r ← aset r j v; aset M i r.

(** for (k = 0; k < n; k++) C[i][j] += A[i][k] * B[k][j]; *)
Definition accumulate (n : Z) (A B : list (list Z)) (i j : Z) (C : list (list Z)) (k : Z) : outcome (list (list Z)) :=
  a ← mget A i k;
  b ← mget B k j;
  c ← mget C i j;
  mset C i j (s32 (c + s32 (a * b))).

(** The three loops. *)
Definition multiply (n : Z) (A B C : list (list Z)) : outcome (list (list Z)) :=
  foldM (λ C i, foldM (λ C j, foldM (accumulate n A B i j) C (seqZ 0 n)) C (seqZ 0 n)) C (seqZ 0 n).

(** The initialisation of one array by the first loops: M[i][j] = f(i, j). *)
Definition minit (n : Z) (f : Z → Z → Z) (M : list (list Z)) : outcome (list (list Z)) :=
  foldM (λ M i, foldM (λ M j, mset M i j (f i j)) M (seqZ 0 n)) M (seqZ 0 n).

(** main: the argument of Exit. *)
Definition matmult_main (n : Z) : outcome Z :=
  let zero := replicate (Z.to_nat n) (replicate (Z.to_nat n) 0) in
  A ← minit n (λ i j, i) zero;
  B ← minit n (λ i j, j) zero;
  C ← minit n (λ i j, 0) zero;
  C ← multiply n A B C;
  mget C (n - 1) (n - 1).

(** ** Matrices as functions *)

Definition mat (n : Z) (f : Z → Z → Z) : list (list Z) := map (λ i, map (f i) (seqZ 0 n)) (seqZ 0 n).

Lemma mat_ext n f g : (∀ i j, 0 <= i < n → 0 <= j < n → f i j = g i j) → mat n f = mat n g.
Proof.
  intros H. apply map_ext_in. intros i Hi%list_elem_of_In%elem_of_seqZ.
  apply map_ext_in. intros j Hj%list_elem_of_In%elem_of_seqZ. apply H; lia.
Qed.

Lemma map_seqZ_lookup {A} (f : Z → A) n i : 0 <= i < n → map f (seqZ 0 n) !! Z.to_nat i = Some (f i).
Proof.
  intros Hi. change ((f <$> seqZ 0 n) !! Z.to_nat i = Some (f i)).
  rewrite list_lookup_fmap, lookup_seqZ_lt by lia. simpl. do 2 f_equal. lia.
Qed.

Lemma map_seqZ_aget {A} (f : Z → A) n i : 0 <= i < n → aget (map f (seqZ 0 n)) i = Ok (f i).
Proof. intros Hi. unfold aget. rewrite map_seqZ_lookup by done. by destruct (Z.leb_spec 0 i); [|lia]. Qed.

Lemma map_seqZ_aset {A} (f : Z → A) n i v : 0 <= i < n →
  aset (map f (seqZ 0 n)) i v = Ok (map (λ k, if k =? i then v else f k) (seqZ 0 n)).
Proof.
  intros Hi. rewrite aset_in_range by (rewrite length_map, length_seqZ; lia). f_equal. apply list_eq. intros k.
  destruct (decide (Z.of_nat k < n)) as [Hk|Hk].
  - rewrite <- (Nat2Z.id k), map_seqZ_lookup by lia. destruct (Z.eqb_spec (Z.of_nat k) i) as [->|Hne].
    + apply list_lookup_insert_eq. rewrite length_map, length_seqZ. lia.
    + rewrite list_lookup_insert_ne by lia. apply map_seqZ_lookup. lia.
  - rewrite !lookup_ge_None_2; [done|rewrite length_map, length_seqZ; lia|rewrite length_insert, length_map, length_seqZ; lia].
Qed.

Lemma mget_mat n f i j : 0 <= i < n → 0 <= j < n → mget (mat n f) i j = Ok (f i j).
Proof. intros Hi Hj. unfold mget, mat. rewrite map_seqZ_aget by done. cbn. by rewrite map_seqZ_aget. Qed.

Lemma mset_mat n f i j v : 0 <= i < n → 0 <= j < n →
  mset (mat n f) i j v = Ok (mat n (λ i' j', if (i' =? i) && (j' =? j) then v else f i' j')).
Proof.
  intros Hi Hj. unfold mset, mat. rewrite map_seqZ_aget by done. cbn [mbind outcome_bind].
  rewrite map_seqZ_aset by done. cbn [mbind outcome_bind]. rewrite map_seqZ_aset by done. f_equal.
  apply map_ext. intros k. destruct (Z.eqb_spec k i) as [->|]; [|done].
  by apply map_ext.
Qed.

Lemma replicate_mat n v : 0 <= n → replicate (Z.to_nat n) (replicate (Z.to_nat n) v) = mat n (λ _ _, v).
Proof.
  intros Hn. assert (H : ∀ A (x : A), replicate (Z.to_nat n) x = map (λ _, x) (seqZ 0 n)).
  { intros A x. apply list_eq. intros k. destruct (decide (Z.of_nat k < n)).
    - rewrite <- (Nat2Z.id k), map_seqZ_lookup by lia. apply lookup_replicate_2. lia.
    - rewrite !lookup_ge_None_2; [done|rewrite length_map, length_seqZ; lia|rewrite length_replicate; lia]. }
  unfold mat. by rewrite !H.
Qed.

(** ** The loops *)

(** The two outer loops over all i and j, where the body of the inner one changes
    the element (i, j) of [f] into that of [g]. *)
Lemma sweep n f g body : 0 <= n →
  (∀ h i j, 0 <= i < n → 0 <= j < n → h i j = f i j →
     body (mat n h) i j = Ok (mat n (λ i' j', if (i' =? i) && (j' =? j) then g i j else h i' j'))) →
  foldM (λ C i, foldM (λ C j, body C i j) C (seqZ 0 n)) (mat n f) (seqZ 0 n) = Ok (mat n g).
Proof.
  intros Hn Hb.
  destruct (foldM_seqZ (λ i C, C = mat n (λ i' j', if i' <? i then g i' j' else f i' j'))
    (λ C i, foldM (λ C j, body C i j) C (seqZ 0 n)) n (mat n f)) as (C & -> & ->).
  - done.
  - apply mat_ext. intros i j Hi Hj. destruct (Z.ltb_spec i 0); [lia|done].
  - intros i C Hi ->.
    destruct (foldM_seqZ (λ j C, C = mat n (λ i' j', if (i' <? i) || (i' =? i) && (j' <? j) then g i' j' else f i' j'))
      (λ C j, body C i j) n (mat n (λ i' j', if i' <? i then g i' j' else f i' j'))) as (C & -> & ->).
    + done.
    + apply mat_ext. intros i' j' Hi' Hj'. destruct (Z.ltb_spec j' 0); [lia|]. by rewrite andb_false_r, orb_false_r.
    + intros j C Hj ->. rewrite Hb; [|done|done|].
      * eexists. split; [reflexivity|]. apply mat_ext. intros i' j' Hi' Hj'.
        destruct (Z.eqb_spec i' i), (Z.eqb_spec j' j), (Z.ltb_spec i' i), (Z.ltb_spec j' j), (Z.ltb_spec j' (j + 1));
          cbn; try lia; subst; done.
      * destruct (Z.ltb_spec i i); [lia|]. destruct (Z.ltb_spec j j); [lia|]. by rewrite andb_false_r.
    + eexists. split; [reflexivity|]. apply mat_ext. intros i' j' Hi' Hj'.
      destruct (Z.ltb_spec i' i), (Z.eqb_spec i' i), (Z.ltb_spec j' n), (Z.ltb_spec i' (i + 1)); cbn; try lia; done.
  - f_equal. apply mat_ext. intros i j Hi Hj. destruct (Z.ltb_spec i n); [done|lia].
Qed.

Lemma minit_mat n f h : 0 <= n → minit n f (mat n h) = Ok (mat n f).
Proof. intros Hn. apply sweep; [done|]. intros h' i j Hi Hj _. by apply mset_mat. Qed.

(** The sum of the first [k] products. *)
Fixpoint sum (k : nat) (t : Z → Z) : Z :=
  match k with O => 0 | S k => sum k t + t (Z.of_nat k) end.

Definition product (n : Z) (a b : Z → Z → Z) (i j : Z) : Z := s32 (sum (Z.to_nat n) (λ k, a i k * b k j)).

Lemma s32_sum x y : s32 (s32 x + s32 y) = s32 (x + y).
Proof.
  destruct (s32_eqm x) as [p ->]. destruct (s32_eqm y) as [q ->].
  replace (x + p * 2 ^ 32 + (y + q * 2 ^ 32)) with (x + y + (p + q) * 2 ^ 32) by lia. apply s32_add_mul.
Qed.

(** matmult.c multiplies: on n by n matrices of ints, with C zero, the three loops
    leave in C[i][j] the sum of the A[i][k] * B[k][j], modulo 2^32. *)
Theorem multiply_correct n a b : 0 <= n →
  multiply n (mat n a) (mat n b) (mat n (λ _ _, 0)) = Ok (mat n (product n a b)).
Proof.
  intros Hn. apply sweep; [done|]. intros h i j Hi Hj Hz.
  destruct (foldM_seqZ (λ k C, C = mat n (λ i' j', if (i' =? i) && (j' =? j)
      then s32 (sum (Z.to_nat k) (λ k, a i k * b k j)) else h i' j'))
    (accumulate n (mat n a) (mat n b) i j) n (mat n h)) as (C & -> & ->).
  - done.
  - apply mat_ext. intros i' j' Hi' Hj'. destruct (Z.eqb_spec i' i), (Z.eqb_spec j' j); cbn; subst; done.
  - intros k C Hk ->. unfold accumulate. repeat (rewrite mget_mat by done; cbn [mbind outcome_bind]).
    rewrite !Z.eqb_refl. cbn [andb]. rewrite mset_mat by done. eexists. split; [reflexivity|].
    apply mat_ext. intros i' j' Hi' Hj'. destruct ((i' =? i) && (j' =? j)); [|done].
    replace (Z.to_nat (k + 1)) with (S (Z.to_nat k)) by lia. cbn [sum]. rewrite s32_sum, Z2Nat.id by lia. done.
  - done.
Qed.

Lemma sum_const k c : sum k (λ _, c) = Z.of_nat k * c.
Proof. induction k as [|k IH]; [done|]. cbn [sum]. rewrite IH. lia. Qed.

(** The program with its matrices i and j exits with n (n - 1)^2. *)
Theorem matmult_exit n : 1 <= n → matmult_main n = Ok (s32 (n * ((n - 1) * (n - 1)))).
Proof.
  intros Hn. unfold matmult_main. rewrite replicate_mat by lia. rewrite minit_mat by lia. cbn [mbind outcome_bind].
  rewrite minit_mat by lia. cbn [mbind outcome_bind]. rewrite minit_mat by lia. cbn [mbind outcome_bind].
  rewrite multiply_correct by lia. cbn [mbind outcome_bind]. rewrite mget_mat by lia. unfold product.
  rewrite sum_const, Z2Nat.id by lia. done.
Qed.

Corollary matmult_exits_7220 : matmult_main Dim = Ok 7220.
Proof. apply matmult_exit. unfold Dim. lia. Qed.
End MatMult.
