(* ===== verification/ProgTest.v ===== *)
(** * userprog/progtest.cc: the console test, and running a program

    StartProcess loads a program and prepares the machine to run it.  ConsoleTest
    echoes what is typed until a 'q'.  It has a console of its own and
    two semaphores with handlers that are those of the synchronous console; they
    are the semaphores synchReadAvail and synchWriteAvail of the model. *)

From Stdlib Require Import ZArith Lia Bool.
From S2P Require Import Prelude Bytes Machine Interrupt InterruptProofs Bitmap AddrSpace AddrSpaceProofs UserMem SchedProofs Console ConsoleProofs.

Local Open Scope Z_scope.

(** readAvail->P(); ch = console->GetChar(); console->PutChar(ch); writeDone->P(); *)
Definition echo (s : CSys) : outcome (Z * CSys) :=
  s ← P synchReadAvail s;
  let '(ch, s) := GetChar s in
  s ← PutChar s ch;
  s ← P synchWriteAvail s;
  Ok (ch, s).

Fixpoint echo_loop (fuel : nat) (s : CSys) : outcome CSys :=
  match fuel with
  | O => NoFuel
  | S fuel =>
      '(ch, s) ← echo s;
      if ch =? 113 (* 'q' *) then Ok s else echo_loop fuel s
  end.

(** new Console, two semaphores with value 0, and the loop; every turn of it takes
    a key. *)
Definition ConsoleTest (kbd : list key) (s : CSys) : outcome CSys :=
  s ← Console_new kbd [] s;
  let w := rest s in
  let s := set_rest s (mkWorld (cons w) (mkSem 0 []) (mkSem 0 []) (read_line_block w) (write_line_block w) (readyList w)) in
  echo_loop (length kbd) s.

Lemma exact_poll1 x : input_ok x → exact x → exact (poll1 x).
Proof.
  intros [Hn _] [Hk Ha]. unfold poll1, exact, buffered in *. destruct x as [l i a]. cbn [kbd inc avail] in *.
  destruct (Z.eqb_spec i EOF) as [->|Hne]; cbn [negb length] in *; [|split; [done|]; apply Z.eqb_neq in Hne; cbn; rewrite Hne; exact Ha].
  destruct l as [|[|c|] l]; cbn [kbd inc avail] in *; [done|split; [set_solver|done]| |set_solver].
  split; [set_solver|]. destruct (Z.eqb_spec c EOF) as [->|]; [set_solver|]. cbn. lia.
Qed.

Lemma exact_polls x y : polls x y → input_ok x → exact x → exact y.
Proof.
  induction 1 as [x|x y z -> _ IH]; [done|]. intros Hx He. apply IH; [apply (poll1_props x Hx)|by apply exact_poll1].
Qed.

Lemma exact_announced x : exact x → announced x.
Proof. intros [_ H]. unfold announced. lia. Qed.

(** One turn of the loop echoes the next character. *)
Lemma echo_ok s n x disp r l c cs : quiet s n x disp r l → exact x → typed x = c :: cs →
  n + work x + 320 < 2 ^ 31 →
  ∃ s' n' x', echo s = Ok (c, s') ∧ quiet s' n' x' (disp ++ [c]) r l ∧ exact x' ∧ typed x' = cs ∧
    n' + work x' <= n + work x + 110 ∧ n <= n'.
Proof.
  intros Hq He Ht Hb.
  destruct (P_read s n x disp r l Hq (exact_announced x He)) as (s1 & n1 & x1 & HP & Hq1 & Ht1 & _ & Hwk & Hn & Htk);
    [by rewrite Ht|lia|].
  destruct (Htk He) as (E1 & E2 & E3). unfold echo. rewrite HP. cbn [mbind outcome_bind].
  destruct Hq1 as (k & t & m & -> & Hn1 & Hk & Hk2 & Hm & Hx1). destruct x1 as [kb i a]. cbn [kbd inc avail] in E1, E2, E3. subst a.
  assert (Hg : GetChar (busy IntOn [poll_at k] SystemMode t m (world false [] (mkInput kb i 0) disp r l)) =
    (i, busy IntOn [poll_at k] SystemMode t m (world false [] (mkInput kb EOF 0) disp r l))) by done.
  rewrite Hg. rewrite Ht in Ht1. unfold typed, buffered in Ht1. cbn [inc kbd] in Ht1.
  apply Z.eqb_neq in E2 as E2'. rewrite E2' in Ht1. injection Ht1 as -> Hcs.
  assert (Hx2 : input_ok (mkInput kb EOF 0)) by (split; [apply Hx1|done]).
  assert (Hwx : work (mkInput kb EOF 0) = work (mkInput kb c 0)) by done.
  assert (Hq2 : quiet (busy IntOn [poll_at k] SystemMode t m (world false [] (mkInput kb EOF 0) disp r l)) n1
    (mkInput kb EOF 0) disp r l) by (exists k, t, m; split_and!; try done; lia).
  assert (0 <= work (mkInput kb c 0)) by (unfold work; cbn; lia).
  destruct (write_char _ n1 (mkInput kb EOF 0) disp r l c Hq2) as (s' & x' & Hw & Hq' & Hp); [lia|].
  destruct (polls_props _ _ Hp Hx2) as (_ & Ht' & _ & Hwk' & _).
  destruct (PutChar _ c) as [s2| | | |]; try discriminate Hw. cbn [mbind outcome_bind] in *. rewrite Hw. cbn [mbind outcome_bind].
  exists s', (n1 + 110), x'. split_and!; try done; try lia.
  - eapply exact_polls; [exact Hp|done|]. by split.
  - rewrite Ht'. exact Hcs.
Qed.

(** The loop echoes up to the first 'q'. *)
Lemma echo_loop_ok cs : ∀ fuel s n x disp r l rst, quiet s n x disp r l → exact x → 113 ∉ cs →
  typed x = cs ++ 113 :: rst → (length cs < fuel)%nat → n + work x + 110 * Z.of_nat (length cs) + 320 < 2 ^ 31 →
  ∃ s' n' x', echo_loop fuel s = Ok s' ∧ quiet s' n' x' (disp ++ cs ++ [113]) r l ∧ typed x' = rst.
Proof.
  induction cs as [|c cs IH]; intros fuel s n x disp r l rst Hq He Hno Ht Hf Hb; destruct fuel as [|fuel]; cbn [length] in *; try lia.
  - destruct (echo_ok s n x disp r l 113 rst Hq He Ht) as (s' & n' & x' & Ho & Hq' & _ & Ht' & _); [lia|].
    exists s', n', x'. cbn [echo_loop]. rewrite Ho. done.
  - destruct (echo_ok s n x disp r l c (cs ++ 113 :: rst) Hq He Ht) as (s1 & n1 & x1 & Ho & Hq1 & He1 & Ht1 & Hw1 & Hn1); [lia|].
    destruct (IH fuel s1 n1 x1 (disp ++ [c]) r l rst Hq1 He1) as (s' & n' & x' & Hl & Hq' & Ht'); [set_solver|done|lia|lia|].
    exists s', n', x'. cbn [echo_loop]. rewrite Ho. cbn [mbind outcome_bind].
    destruct (Z.eqb_spec c 113) as [->|_]; [set_solver|]. split; [done|]. split; [|done].
    by rewrite <- app_assoc in Hq'.
Qed.

(** ConsoleTest echoes every character typed, in order, up to and including the
    first 'q', whatever the pace of the keyboard, and then returns, leaving the
    characters after the 'q' unread. *)
Theorem ConsoleTest_echoes kb cs rst : EndOfFile ∉ kb → Key EOF ∉ kb → 113 ∉ cs →
  keys kb = cs ++ 113 :: rst → 220 * Z.of_nat (length kb) + 320 < 2 ^ 31 →
  ∃ s' n' x', ConsoleTest kb (mkSys (mkInterrupt IntOn [] false false SystemMode) Statistics_new None
      (mkWorld (mkConsole [] [] false EOF) (mkSem 0 []) (mkSem 0 []) (mkSem 0 []) (mkSem 0 []) [])) = Ok s' ∧
    quiet s' n' x' (cs ++ [113]) 0 0 ∧ typed x' = rst.
Proof.
  intros Hn He Hno Hk Hb.
  assert (Hlen : (length (keys kb) <= length kb)%nat).
  { clear. unfold keys. induction kb as [|[|c|] kb IH]; cbn in *; try destruct (c =? EOF); cbn; lia. }
  rewrite Hk, length_app in Hlen. cbn [length] in Hlen.
  apply (echo_loop_ok cs (length kb) _ 0 (mkInput kb EOF 0) [] 0 0 rst).
  - exists 100, Statistics_new, None. split_and!; try done; lia.
  - by split.
  - done.
  - exact Hk.
  - lia.
  - unfold work. cbn [avail kbd]. lia.
Qed.

(** ** StartProcess *)

Section StartProcess.
Context {B : Type} `{BitAllocLaws B}.

(** StartProcess up to machine->Run(). *)
Definition StartProcess (executable : option (list Z)) (garbage : AddrSpace) (m : Machine) (b : B)
  : outcome (AddrSpace * Machine * B) :=
  '(space, m, b) ← AddrSpace_new executable garbage m b;
  m ← InitRegisters space m;
  Ok (space, RestoreState space m, b).

Lemma zero_registers m : length (registers m) = Z.to_nat NumTotalRegs →
  foldM (λ m i, WriteRegister m i 0) m (seqZ 0 NumTotalRegs) = Ok (set_registers m (replicate (Z.to_nat NumTotalRegs) 0)).
Proof.
  intros Hl. destruct (foldM_seqZ (λ k m', ∃ rs, m' = set_registers m rs ∧ length rs = Z.to_nat NumTotalRegs ∧
      take (Z.to_nat k) rs = replicate (Z.to_nat k) 0)
    (λ m i, WriteRegister m i 0) NumTotalRegs m) as (m' & -> & rs & -> & Hrs & Ht).
  - done.
  - exists (registers m). by destruct m.
  - intros i m' Hi (rs & -> & Hrs & Ht). rewrite WriteRegister_ok by done. eexists. split; [done|].
    exists (<[Z.to_nat i := 0]> rs). split; [done|]. split; [by rewrite length_insert|].
    replace (Z.to_nat (i + 1)) with (S (Z.to_nat i)) by lia.
    rewrite (take_S_r _ _ 0) by (apply list_lookup_insert_eq; rewrite Hrs; unfold NumTotalRegs in *; lia).
    rewrite take_insert_ge, Ht by lia. by rewrite replicate_S_end.
  - rewrite take_ge in Ht by lia. by rewrite Ht.
Qed.

(** Running a program from the command line.  If the executable is well formed and
    fits in memory, StartProcess leaves the machine ready to run it: the program
    counters at its first two instructions, the stack pointer below the end of its
    space, the other registers zero, and translation through its page table, where
    every address of the space holds the byte of the program. *)
Theorem StartProcess_starts file h g m (b : B) :
  wf_mem m → tlb m = None → length (registers m) = Z.to_nat NumTotalRegs →
  ba_ok b → ba_size b = NumPhysPages → exec_header file h → wf_exec file h →
  space_pages h <= NumPhysPages - Z.of_nat (size (ba_used b)) →
  ∃ sp m' b' t, StartProcess (Some file) g m b = Ok (sp, m', b') ∧ user_space m' t ∧
    (∀ a, 0 <= a < space_size t → vbyte t m' a = image file h a) ∧
    ∀ k, 0 <= k < NumTotalRegs → reg m' k =
      if k =? StackReg then s32 (space_size t - 16) else if k =? NextPCReg then 4 else 0.
Proof.
  intros Hm Htlb Hl Hok Hsz Hh Hw Hfit.
  destruct (AddrSpace_new_ok file h g m b Hm Hok Hsz Hh Hw Hfit) as (sp & m1 & b1 & t & Hnew & Hns).
  destruct Hns as [[_ Hpages] [_ Htab] Hfresh [Hfr _] _ Himg _ Hmem (Hregs & Htl & _ & _)].
  unfold StartProcess. rewrite Hnew. cbn [mbind outcome_bind]. unfold InitRegisters.
  rewrite zero_registers by (by rewrite Hregs). cbn [mbind outcome_bind].
  rewrite !WriteRegister_ok by done. cbn [mbind outcome_bind]. rewrite WriteRegister_ok by done.
  cbn [mbind outcome_bind]. rewrite WriteRegister_ok by done. cbn [mbind outcome_bind].
  eexists _, _, b1, t. split; [reflexivity|]. split; [|split].
  - split; cbn; try done.
    + by rewrite Htl.
    + exists (as_pageTable sp), t. split; [done|]. rewrite Htab. split; [apply lookup_insert_eq|done].
    + apply Forall_lookup. intros i e He. by destruct (Hfresh i e He) as (_ & ? & ? & _).
  - intros a Ha. apply Himg. unfold space_size in Ha. lia.
  - intros k Hk. unfold space_size. rewrite <- Hpages.
    change (default 0 ((<[Z.to_nat StackReg := s32 (Z.of_nat (length t) * PageSize - 16)]>
      (<[Z.to_nat NextPCReg := 4]> (<[Z.to_nat PCReg := 0]> (replicate (Z.to_nat NumTotalRegs) 0)))) !! Z.to_nat k) =
      if k =? StackReg then s32 (Z.of_nat (length t) * PageSize - 16) else if k =? NextPCReg then 4 else 0).
    unfold StackReg, NextPCReg, PCReg, NumTotalRegs in *.
    destruct (Z.eqb_spec k 29) as [->|]; [by rewrite list_lookup_insert_eq by (rewrite !length_insert, length_replicate; lia)|].
    rewrite list_lookup_insert_ne by lia.
    destruct (Z.eqb_spec k 35) as [->|]; [by rewrite list_lookup_insert_eq by (rewrite !length_insert, length_replicate; lia)|].
    rewrite list_lookup_insert_ne by lia. destruct (decide (k = 34)) as [->|].
    + by rewrite list_lookup_insert_eq by (rewrite length_replicate; lia).
    + rewrite list_lookup_insert_ne by lia. by rewrite lookup_replicate_2 by lia.
Qed.
End StartProcess.
