(* ===== verification/NetTest.v ===== *)
(** * network/nettest.cc: two machines that write to each other

    MailTest as a thread of a machine of Network: it sends a letter to box 0 of
    the other machine, reads the letter of the other from its own box 0, sends an
    acknowledgement to the box named in that letter, and reads the
    acknowledgement of its own letter from box 1.  The threads of the two
    machines run interleaved with the interrupts and postal workers of all
    machines. *)

From Stdlib Require Import ZArith QArith Lia Bool Ascii String.
From S2P Require Import Prelude Bytes Network NetworkProofs.

Local Open Scope Z_scope.

(** A string constant with its NUL. *)
Definition c_bytes (s : string) : list Z :=
  List.map (λ c, Z.of_N (N_of_ascii c)) (list_ascii_of_string s) ++ [0].

Definition hello : list Z := c_bytes "Hello there!".
Definition ack : list Z := c_bytes "Got it!".

(** %s of printf: the bytes up to the first NUL. *)
Fixpoint c_string (bs : list Z) : outcome (list Z) :=
  match bs with
  | [] => Undef
  | b :: bs => if b =? 0 then Ok [] else r ← c_string bs; Ok (b :: r)
  end.

(** Where the thread is; after the first letter it keeps the headers. *)
Inductive mt_pc :=
| SendHello
| HelloSent
| GetHello
| SendAck (inPktHdr : PacketHeader) (inMailHdr : MailHeader)
| AckSent
| GetAck
| Halted.

(** The thread: its program counter, its buffer, and the lines it has printed. *)
Record Tester := mkTester { t_pc : mt_pc; t_buffer : list Z; t_out : list (list Z * Z * Z) }.

Definition set_pc (t : Tester) (p : mt_pc) : Tester := mkTester p (t_buffer t) (t_out t).

(** The call of the post office the thread is at. *)
Definition mt_action (farAddr random : Z) (pad : list Z) (t : Tester) : option action :=
  match t_pc t with
  | SendHello => Some (DoSend farAddr (mkMH 0 1 (Z.of_nat (length hello))) hello random pad)
  | HelloSent | AckSent => Some SenderReturn
  | GetHello => Some (DoReceive 0)
  | SendAck inPktHdr inMailHdr =>
      Some (DoSend (pk_from inPktHdr) (mkMH (mh_from inMailHdr) 1 (Z.of_nat (length ack))) ack random pad)
  | GetAck => Some (DoReceive 1)
  | Halted => None
  end.

(** Receive copies the data into the buffer; printf prints it. *)
Definition mt_print (t : Tester) (m : Mail) (next : mt_pc) : outcome Tester :=
  let buffer := blit (t_buffer t) 0 (data m) in
  s ← c_string buffer;
  Ok (mkTester next buffer (t_out t ++ [(s, pk_from (pktHdr m), mh_from (mailHdr m))])).

Definition mt_after (t : Tester) (ev : list event) : outcome Tester :=
  match t_pc t, ev with
  | SendHello, _ => Ok (set_pc t HelloSent)
  | HelloSent, _ => Ok (set_pc t GetHello)
  | GetHello, [Received _ _ m] => mt_print t m (SendAck (pktHdr m) (mailHdr m))
  | SendAck _ _, _ => Ok (set_pc t AckSent)
  | AckSent, _ => Ok (set_pc t GetAck)
  | GetAck, [Received _ _ m] => mt_print t m Halted
  | _, _ => Undef
  end.

(** A step of MailTest(farAddr) on machine [a]; None while it waits or has halted. *)
Definition MailTest_step (farAddr : Z) (s : Net) (a random : Z) (pad : list Z) (t : Tester)
  : option (outcome (Net * list event * Tester)) :=
  x ← mt_action farAddr random pad t;
  r ← act s a x;
  Some (r ← r; t' ← mt_after t r.2; Ok (r, t')).

Definition device (x : action) : bool :=
  match x with PollInterrupt | SendInterrupt | WorkerWait | WorkerDeliver => true | _ => false end.

Definition running (T : gmap Z Tester) (a : Z) : bool :=
  match T !! a with Some t => match t_pc t with Halted => false | _ => true end | None => true end.

(** Runs of the machines: [far] is the operand of -o on each; a machine that has
    halted does nothing more. *)
Inductive mt_reach (far : Z → Z) (s0 : Net) (T0 : gmap Z Tester) : Net → list event → gmap Z Tester → Prop :=
| mt_refl : mt_reach far s0 T0 s0 [] T0
| mt_device s tr T a x s' ev : mt_reach far s0 T0 s tr T → device x = true → running T a = true →
    act s a x = Some (Ok (s', ev)) → mt_reach far s0 T0 s' (tr ++ ev) T
| mt_thread s tr T a random pad t s' ev t' : mt_reach far s0 T0 s tr T → T !! a = Some t →
    MailTest_step (far a) s a random pad t = Some (Ok (s', ev, t')) →
    mt_reach far s0 T0 s' (tr ++ ev) (<[a := t']> T).

(** ** Nothing disappears *)

Lemma act_keeps K s tr a x s' ev c : net_ok K s tr → act s a x = Some (Ok (s', ev)) →
  is_Some (nodes s !! c) → is_Some (nodes s' !! c).
Proof.
  intros Hs Hact Hc. pose proof (act_ok K s tr a x s' ev Hs Hact) as Hs'. unfold act in Hact. destruct (nodes s !! a) as [n|] eqn:Ha; [|done]. cbn [mbind option_bind] in Hact.
  assert (Hput : ∀ n', is_Some (nodes (put_node s a n') !! c)).
  { intros n'. cbn [put_node nodes]. rewrite lookup_insert_is_Some'. by right. }
  destruct x as [to h d r pad|box| | | | |].
  - destruct (typed_args to h d r pad) eqn:Ht; [|done]. injection Hact as Hact.
    destruct (typed_args_spec _ _ _ _ _ Ht) as (_ & _ & _ & _ & Hp).
    rewrite (PostOffice_Send_eq K s tr a n to h d r pad Hs Ha (Send_legal K _ _ _ _ _ _ _ _ _ _ _ Hs Ha Ht Hact) Hp) in Hact.
    destruct (loses n r); [injection Hact as <- <-; apply Hput|].
    destruct (sockets s !! to); [|done]. injection Hact as <- _. apply Hput.
  - injection Hact as Hact. unfold PostOffice_Receive in Hact.
    repeat (apply bind_Ok_inv in Hact as ([] & _ & Hact) || (apply bind_Ok_inv in Hact as (? & _ & Hact); repeat case_match)).
    all: simplify_eq; apply Hput.
  - injection Hact as Hact. apply bind_Ok_inv in Hact as (s1 & Hck & Hact). simplify_eq. unfold CheckPktAvail in Hck.
    repeat case_match; simplify_eq; try done; try apply Hput.
    all: repeat (apply bind_Ok_inv in Hck as (? & _ & Hck)); simplify_eq; try done; apply Hput.
  - repeat case_match; simplify_eq. apply Hput.
  - repeat case_match; simplify_eq. apply Hput.
  - repeat case_match; simplify_eq. apply bind_Ok_inv in Hact as (? & _ & Hact). simplify_eq. apply Hput.
  - repeat case_match; simplify_eq. apply Hput.
Qed.

(** ** What the test prints *)

Section MailTest.
Context (K a b : Z) (far : Z → Z).
Context (HK : 2 <= K) (Hfara : far a = b) (Hfarb : far b = a).

(** The letters the two machines write. *)
Definition letter (x : Z) : Mail :=
  mkMail (mkPH (far x) x (Z.of_nat (length hello) + 12)) (mkMH 0 1 (Z.of_nat (length hello))) hello.
Definition ack_letter (x : Z) : Mail :=
  mkMail (mkPH (far x) x (Z.of_nat (length ack) + 12)) (mkMH 1 1 (Z.of_nat (length ack))) ack.

(** The lines a machine prints: text, sender, box to reply to. *)
Definition transcript (x : Z) : list (list Z * Z * Z) :=
  [(removelast hello, far x, 1); (removelast ack, far x, 1)].

Definition tester_ok (x : Z) (t : Tester) : Prop :=
  length (t_buffer t) = Z.to_nat MaxMailSize ∧
  match t_pc t with
  | SendHello | HelloSent | GetHello => t_out t = []
  | SendAck p h => p = pktHdr (letter (far x)) ∧ h = mailHdr (letter (far x)) ∧ t_out t = take 1 (transcript x)
  | AckSent | GetAck => t_out t = take 1 (transcript x)
  | Halted => t_out t = transcript x
  end.

Record mt_inv (s : Net) (tr : list event) (T : gmap Z Tester) : Prop := {
  mi_net : net_ok K s tr;
  mi_nodes : is_Some (nodes s !! a) ∧ is_Some (nodes s !! b);
  mi_sent m : Sent m ∈ tr → ∃ x, (x = a ∨ x = b) ∧ (m = letter x ∨ m = ack_letter x);
  mi_testers x t : T !! x = Some t → (x = a ∨ x = b) ∧ tester_ok x t;
}.

Lemma far_far x : x = a ∨ x = b → far (far x) = x ∧ (far x = a ∨ far x = b).
Proof. intros [-> | ->]; rewrite ?Hfara, ?Hfarb; auto. Qed.

Lemma sent_in tr c j m : m ∈ sent tr c j → Sent m ∈ tr ∧ pk_to (pktHdr m) = c ∧ mh_to (mailHdr m) = j.
Proof.
  unfold sent. rewrite list_elem_of_omap. intros ([m'|m'|? ? m'] & Hin & He); try done.
  case_bool_decide; simplify_eq. naive_solver.
Qed.

(** Mail received by a tester is a letter of the other machine. *)
Lemma received_letter s tr T x j m s' :
  mt_inv s tr T → x = a ∨ x = b → j = 0 ∨ j = 1 → act s x (DoReceive j) = Some (Ok (s', [Received x j m])) →
  m = if j =? 0 then letter (far x) else ack_letter (far x).
Proof.
  intros HI Hx Hj Hact. pose proof (act_ok K _ _ _ _ _ _ (mi_net _ _ _ HI) Hact) as Hs'.
  assert (is_Some (nodes s' !! x)) as [n Hn].
  { eapply act_keeps; [apply HI|done|]. destruct (mi_nodes _ _ _ HI). by destruct Hx as [-> | ->]. }
  destruct (proj1 (ne_dom _ _ _ Hs' x) ltac:(eauto)) as [q Hq].
  destruct (ne_node _ _ _ Hs' x n q Hn Hq) as (cur & ms & _ & Heq). specialize (Heq j ltac:(lia)).
  assert (Hin : m ∈ sent (tr ++ [Received x j m]) x j).
  { rewrite Heq, received_app. apply elem_of_app. left. apply elem_of_app. right. unfold received. cbn [omap list_omap].
    rewrite bool_decide_true by done. by left. }
  apply sent_in in Hin as (Hin & Hto & Hbox). apply elem_of_app in Hin as [Hin|Hin]; [|by apply list_elem_of_singleton in Hin].
  destruct (mi_sent _ _ _ HI m Hin) as (y & Hy & Hm). destruct (far_far x Hx), (far_far y Hy).
  destruct Hm as [-> | ->]; cbn in Hto, Hbox; subst j x; destruct Hj as [?|?]; try done; by rewrite H1.
Qed.

Lemma c_string_bytes s rest : 0 ∉ s → c_string (s ++ 0 :: rest) = Ok s.
Proof.
  intros H. induction s as [|x s IH]; [done|]. cbn [c_string app]. apply not_elem_of_cons in H as [Hx H].
  destruct (Z.eqb_spec x 0); [lia|]. by rewrite IH.
Qed.

Lemma print_text t m next s : length (t_buffer t) = Z.to_nat MaxMailSize → data m = s ++ [0] → 0 ∉ s →
  (length s < Z.to_nat MaxMailSize)%nat →
  ∃ t', mt_print t m next = Ok t' ∧ t_pc t' = next ∧ length (t_buffer t') = Z.to_nat MaxMailSize ∧
    t_out t' = t_out t ++ [(s, pk_from (pktHdr m), mh_from (mailHdr m))].
Proof.
  intros Hl Hd Hs Hlen. unfold mt_print. rewrite Hd, blit_0 by (rewrite length_app; simpl; lia).
  rewrite <- app_assoc. cbn [app]. rewrite c_string_bytes by done. cbn [mbind outcome_bind]. eexists. split; [reflexivity|]. cbn.
  split; [done|]. split; [|done]. rewrite length_app. cbn [length]. rewrite length_drop, length_app. simpl. lia.
Qed.

Lemma hello_text : hello = removelast hello ++ [0] ∧ 0 ∉ removelast hello ∧ length hello = 13%nat.
Proof. split_and!; [done| |done]. apply (bool_decide_unpack _). vm_compute. exact I. Qed.

Lemma ack_text : ack = removelast ack ++ [0] ∧ 0 ∉ removelast ack ∧ length ack = 8%nat.
Proof. split_and!; [done| |done]. apply (bool_decide_unpack _). vm_compute. exact I. Qed.

(** What a send shows. *)
Lemma send_event s tr x to h d r pad s' ev : net_ok K s tr → act s x (DoSend to h d r pad) = Some (Ok (s', ev)) →
  0 <= mh_length h <= MaxMailSize → ev = [Lost (mkMail (mkPH to x (mh_length h + 12)) h (take (Z.to_nat (mh_length h)) d))] ∨
  ev = [Sent (mkMail (mkPH to x (mh_length h + 12)) h (take (Z.to_nat (mh_length h)) d))].
Proof.
  intros Hs Hact Hl. unfold act in Hact. destruct (nodes s !! x) as [n|] eqn:Hn; [|done]. cbn [mbind option_bind] in Hact.
  destruct (typed_args to h d r pad) eqn:Ht; [|done]. injection Hact as Hact.
  destruct (typed_args_spec _ _ _ _ _ Ht) as (_ & _ & _ & _ & Hp).
  rewrite (PostOffice_Send_eq K s tr x n to h d r pad Hs Hn (Send_legal K _ _ _ _ _ _ _ _ _ _ _ Hs Hn Ht Hact) Hp) in Hact.
  destruct (proj1 (ne_dom _ _ _ Hs x) ltac:(eauto)) as [q Hq]. destruct (ne_node _ _ _ Hs x n q Hn Hq) as (cur & ms & Hok & _).
  destruct (no_ident _ _ _ _ _ _ Hok) as [Hid _]. unfold outgoing in Hact. rewrite Hid, u32_id in Hact by (unfold MaxMailSize, MaxPacketSize, MaxWireSize in *; lia).
  destruct (loses n r); [simplify_eq; by left|]. destruct (sockets s !! to); simplify_eq. by right.
Qed.

(** What a receive shows. *)
Lemma receive_event s x j s' ev : act s x (DoReceive j) = Some (Ok (s', ev)) → ∃ m, ev = [Received x j m].
Proof.
  unfold act. destruct (nodes s !! x) as [n|]; [|done]. cbn [mbind option_bind]. intros Hact. injection Hact as Hact. unfold PostOffice_Receive in Hact.
  apply bind_Ok_inv in Hact as (? & _ & Hact). apply bind_Ok_inv in Hact as (? & _ & Hact).
  apply bind_Ok_inv in Hact as ([m bx] & _ & Hact). apply bind_Ok_inv in Hact as (? & _ & Hact).
  apply bind_Ok_inv in Hact as (? & _ & Hact). simplify_eq. eauto.
Qed.

Lemma quiet_event s x y s' ev : device y = true ∨ y = SenderReturn → act s x y = Some (Ok (s', ev)) → ev = [].
Proof.
  unfold act. destruct (nodes s !! x) as [n|]; [|done]. cbn [mbind option_bind].
  intros Hy Hact. destruct y; try (destruct Hy; discriminate); repeat case_match; simplify_eq; try done.
  all: try injection Hact as Hact; apply bind_Ok_inv in Hact as (? & _ & Hact); by simplify_eq.
Qed.

Lemma mt_inv_step s tr T x y s' ev T' : mt_inv s tr T → act s x y = Some (Ok (s', ev)) →
  (∀ m, Sent m ∈ ev → ∃ x, (x = a ∨ x = b) ∧ (m = letter x ∨ m = ack_letter x)) →
  (∀ z t, T' !! z = Some t → T !! z = Some t ∨ (z = a ∨ z = b) ∧ tester_ok z t) → mt_inv s' (tr ++ ev) T'.
Proof.
  intros HI Hact Hev HT. destruct HI as [Hn Hd Hs Ht]. split.
  - by eapply act_ok.
  - split; eapply act_keeps; try done; apply Hd.
  - intros m Hm. apply elem_of_app in Hm as [Hm|Hm]; auto.
  - intros z t Hz. destruct (HT z t Hz); auto.
Qed.

(** A step of the thread of machine [x], by cases on where it is. *)
Lemma mt_thread_ok s tr T x random pad t s' ev t' : mt_inv s tr T → T !! x = Some t →
  MailTest_step (far x) s x random pad t = Some (Ok (s', ev, t')) → mt_inv s' (tr ++ ev) (<[x := t']> T).
Proof.
  intros HI Ht Hstep. destruct (mi_testers _ _ _ HI x t Ht) as [Hx [Hlen Hpc]]. pose proof (mi_net _ _ _ HI) as Hnet.
  destruct (far_far x Hx) as [Hff Hfx]. unfold MailTest_step in Hstep. destruct (mt_action (far x) random pad t) as [y|] eqn:Hy; [|done].
  cbn [mbind option_bind] in Hstep. destruct (act s x y) as [r|] eqn:Hact; [|done]. cbn [mbind option_bind] in Hstep.
  injection Hstep as Hstep. apply bind_Ok_inv in Hstep as ([s1 ev1] & -> & Hstep). cbn [snd] in Hstep.
  apply bind_Ok_inv in Hstep as (t1 & Haf & Hstep). simplify_eq.
  enough ((∀ m, Sent m ∈ ev → ∃ z, (z = a ∨ z = b) ∧ (m = letter z ∨ m = ack_letter z)) ∧ tester_ok x t') as [Hev Hok].
  { eapply mt_inv_step; [done|done|done|]. intros z tz Hz. apply lookup_insert_Some in Hz as [[<- <-]|[_ Hz]]; auto. }
  unfold mt_action, mt_after in *. unfold tester_ok. destruct hello_text as (Hh1 & Hh2 & Hh3), ack_text as (Ha1 & Ha2 & Ha3).
  destruct (t_pc t) as [| | |ph mh| | |] eqn:Epc; simplify_eq.
  - split; [|by split]. intros m Hm. apply (send_event _ tr) in Hact; [|done|by rewrite Hh3].
    exists x. split; [done|]. left. destruct Hact as [-> | ->]; apply list_elem_of_singleton in Hm; by simplify_eq.
  - apply quiet_event in Hact as ->; [|by right]. split; [set_solver|by split].
  - destruct (receive_event _ _ _ _ _ Hact) as [m ->]. rewrite (received_letter _ _ _ _ 0 _ _ HI Hx (or_introl eq_refl) Hact) in Haf.
    cbn [Z.eqb] in Haf. destruct (print_text t (letter (far x)) (SendAck (pktHdr (letter (far x))) (mailHdr (letter (far x)))) (removelast hello))
      as (t1 & Hp & Hpc1 & Hlen1 & Hout); [done|done|done|vm_compute; lia|]. rewrite Hp in Haf. injection Haf as <-. rewrite Hpc1.
    split; [set_solver|]. split; [done|]. split; [done|]. split; [done|]. by rewrite Hout, Hpc.
  - destruct Hpc as (-> & -> & Hout). split; [|by split]. intros m Hm. apply (send_event _ tr) in Hact; [|done|by rewrite Ha3].
    exists x. split; [done|]. right. destruct Hact as [-> | ->]; apply list_elem_of_singleton in Hm; by simplify_eq.
  - apply quiet_event in Hact as ->; [|by right]. split; [set_solver|by split].
  - destruct (receive_event _ _ _ _ _ Hact) as [m ->]. rewrite (received_letter _ _ _ _ 1 _ _ HI Hx (or_intror eq_refl) Hact) in Haf.
    cbn [Z.eqb] in Haf. destruct (print_text t (ack_letter (far x)) Halted (removelast ack))
      as (t1 & Hp & Hpc1 & Hlen1 & Hout); [done|done|done|vm_compute; lia|]. rewrite Hp in Haf. injection Haf as <-. rewrite Hpc1.
    split; [set_solver|]. split; [done|]. by rewrite Hout, Hpc.
Qed.

(** The threads as they start. *)
Definition testers (ga gb : list Z) : gmap Z Tester :=
  {[a := mkTester SendHello ga []; b := mkTester SendHello gb []]}.

Lemma mt_reach_inv s0 ga gb s tr T : started K s0 → is_Some (nodes s0 !! a) → is_Some (nodes s0 !! b) →
  length ga = Z.to_nat MaxMailSize → length gb = Z.to_nat MaxMailSize →
  mt_reach far s0 (testers ga gb) s tr T → mt_inv s tr T.
Proof.
  intros Hs Ha Hb Hga Hgb Hr. induction Hr as [|s tr T x y s' ev _ IH Hy _ Hact|s tr T x random pad t s' ev t' _ IH Ht Hstep].
  - split; [apply started_ok; [lia|done]|done|set_solver|]. unfold testers. intros x t Hx.
    apply lookup_insert_Some in Hx as [[<- <-]|[_ Hx]]; [by split; [auto|]|]. apply lookup_singleton_Some in Hx as [<- <-]. by split; [auto|].
  - eapply mt_inv_step; [done|done| |auto]. apply quiet_event in Hact as ->; [set_solver|by left].
  - by eapply mt_thread_ok.
Qed.

Lemma in_box_or_not s tr x j n : net_ok K s tr → nodes s !! x = Some n → 0 <= j < K → in_box n j ≠ [] →
  ∃ s' ev, act s x (DoReceive j) = Some (Ok (s', ev)).
Proof.
  intros Hs Hn Hj Hb. destruct (proj1 (ne_dom _ _ _ Hs x) ltac:(eauto)) as [q Hq].
  destruct (ne_node _ _ _ Hs x n q Hn Hq) as (cur & ms & Hok & _). pose proof (no_boxes _ _ _ _ _ _ Hok) as Hnb.
  pose proof (in_box_lookup n j ltac:(lia)) as Hbox. destruct (in_box n j) as [|m bx] eqn:E; [done|].
  pose proof (no_stored _ _ _ _ _ _ Hok _ _ Hbox) as Hst. apply Forall_cons in Hst as [Hm _]. destruct (mo_len _ _ _ Hm) as [Hl _].
  unfold act. rewrite Hn. cbn [mbind option_bind]. unfold PostOffice_Receive. rewrite Z.geb_leb.
  destruct (Z.leb_spec 0 j); [|lia]. destruct (Z.ltb_spec j (numBoxes n)); [|lia]. cbn [andb ASSERT mbind outcome_bind].
  rewrite (proj2 (aget_Ok (boxes n) j (m :: bx))) by (split; [unfold numBoxes in *; lia|done]). cbn [mbind outcome_bind SynchList_Remove].
  unfold aset, in_range. unfold numBoxes in *. destruct (Z.leb_spec 0 j); [|lia]. destruct (Z.ltb_spec j (Z.of_nat (length (boxes n)))); [|lia].
  cbn [andb mbind outcome_bind].
  destruct (Z.leb_spec (mh_length (mailHdr m)) MaxMailSize); [|lia]. cbn. eauto.
Qed.

Lemma after_receive s tr T x t j m s' : mt_inv s tr T → T !! x = Some t → t_pc t = GetHello ∧ j = 0 ∨ t_pc t = GetAck ∧ j = 1 →
  act s x (DoReceive j) = Some (Ok (s', [Received x j m])) → ∃ t', mt_after t [Received x j m] = Ok t'.
Proof.
  intros HI Ht Hj Hact. destruct (mi_testers _ _ _ HI x t Ht) as [Hx [Hlen _]].
  assert (Hm : m = if j =? 0 then letter (far x) else ack_letter (far x)) by (eapply received_letter; [done|done|naive_solver|done]).
  destruct hello_text as (Hh1 & Hh2 & _), ack_text as (Ha1 & Ha2 & _). unfold mt_after.
  destruct Hj as [[-> ->]|[-> ->]]; cbn [Z.eqb] in Hm; subst m.
  - edestruct (print_text t (letter (far x))) as (t1 & Hp & _); [done|exact Hh1|done|vm_compute; lia|]. eauto.
  - edestruct (print_text t (ack_letter (far x))) as (t1 & Hp & _); [done|exact Ha1|done|vm_compute; lia|]. eauto.
Qed.

Lemma send_returns s tr x n to h d r pad o : net_ok K s tr → nodes s !! x = Some n → is_Some (nodes s !! to) →
  0 <= mh_to h < K → mh_length h <= MaxMailSize → mh_length h <= Z.of_nat (length d) →
  act s x (DoSend to h d r pad) = Some o → ∃ s' ev, o = Ok (s', ev).
Proof.
  intros Hs Hn Hto Hb Hl Hd Hact. unfold act in Hact. rewrite Hn in Hact. cbn [mbind option_bind] in Hact.
  destruct (typed_args to h d r pad) eqn:Ht; [|done]. injection Hact as <-. destruct (typed_args_spec _ _ _ _ _ Ht) as (H1 & H2 & H3 & H4 & H5).
  destruct (proj1 (ne_dom _ _ _ Hs to) Hto) as [q Hq]. rewrite (PostOffice_Send_eq K s tr x n to h d r pad Hs Hn), Hq by (done || by split).
  destruct (loses n r); eauto.
Qed.

(** A call of the post office by a tester: it returns, or finds an empty box. *)
Lemma step_outcome s tr T x t n y o random pad : mt_inv s tr T → T !! x = Some t → nodes s !! x = Some n →
  mt_action (far x) random pad t = Some y → act s x y = Some o →
  (∃ s' ev t', o = Ok (s', ev) ∧ mt_after t ev = Ok t') ∨
  o = Aborted ∧ (t_pc t = GetHello ∧ in_box n 0 = [] ∨ t_pc t = GetAck ∧ in_box n 1 = []).
Proof.
  intros HI Ht Hn Hy Hact. pose proof (mi_net _ _ _ HI) as Hnet. destruct (mi_testers _ _ _ HI x t Ht) as [Hx [Hlen Hpc]].
  destruct (far_far x Hx) as [Hff Hfx]. assert (Hfar : is_Some (nodes s !! far x)) by (destruct (mi_nodes _ _ _ HI); by destruct Hfx as [-> | ->]).
  assert (Hrecv : ∀ j, j = 0 ∨ j = 1 → t_pc t = GetHello ∧ j = 0 ∨ t_pc t = GetAck ∧ j = 1 → act s x (DoReceive j) = Some o →
    (∃ s' ev t', o = Ok (s', ev) ∧ mt_after t ev = Ok t') ∨ o = Aborted ∧ in_box n j = []).
  { intros j Hj01 Hj Ha. destruct (proj1 (ne_dom _ _ _ Hnet x) ltac:(eauto)) as [q Hq].
    destruct (ne_node _ _ _ Hnet x n q Hn Hq) as (cur & ms & Hok & _). pose proof (no_boxes _ _ _ _ _ _ Hok) as Hnb.
    destruct (decide (in_box n j = [])) as [He|He].
    - right. rewrite (receive_empty_aborts s x n j Hn) in Ha by (done || lia). by simplify_eq.
    - left. destruct (in_box_or_not s tr x j n Hnet Hn ltac:(lia) He) as (s' & ev & Ha'). rewrite Ha in Ha'. simplify_eq.
      destruct (receive_event _ _ _ _ _ Ha) as [m ->]. destruct (after_receive _ _ _ _ _ _ _ _ HI Ht Hj Ha) as [t' Haf]. eauto. }
  unfold mt_action in Hy. destruct (t_pc t) as [| | |ph mh| | |] eqn:Epc; simplify_eq.
  - left. apply (send_returns s tr x n) in Hact as (s' & ev & ->); [|done|done|done|cbn; lia|vm_compute; discriminate|cbn; lia].
    unfold mt_after. rewrite Epc. eauto.
  - left. unfold act in Hact. rewrite Hn in Hact. cbn [mbind option_bind] in Hact. case_match; simplify_eq. unfold mt_after. rewrite Epc. eauto.
  - destruct (Hrecv 0) as [?|[]]; auto.
  - destruct Hpc as (-> & -> & _). left. cbn [letter pktHdr mailHdr pk_from mh_from] in Hact.
    apply (send_returns s tr x n) in Hact as (s' & ev & ->); [|done|done|done|cbn; lia|vm_compute; discriminate|cbn; lia].
    unfold mt_after. rewrite Epc. eauto.
  - left. unfold act in Hact. rewrite Hn in Hact. cbn [mbind option_bind] in Hact. case_match; simplify_eq. unfold mt_after. rewrite Epc. eauto.
  - destruct (Hrecv 1) as [?|[]]; auto.
Qed.

(** The two machines print what they should.  However the threads, interrupts and
    postal workers are interleaved, and whatever the network loses, the lines a
    machine has printed are a beginning of: the greeting of the other machine,
    then its acknowledgement; both, when it has halted.  A step of the thread never
    fails, except that it stops the kernel when it reads a box that is still
    empty, since Condition::Wait is not implemented. *)
Theorem MailTest_transcript s0 ga gb s tr T x t : started K s0 → is_Some (nodes s0 !! a) → is_Some (nodes s0 !! b) →
  length ga = Z.to_nat MaxMailSize → length gb = Z.to_nat MaxMailSize →
  mt_reach far s0 (testers ga gb) s tr T → T !! x = Some t →
  t_out t `prefix_of` transcript x ∧ (t_pc t = Halted → t_out t = transcript x) ∧
  ∀ random pad n r, nodes s !! x = Some n → MailTest_step (far x) s x random pad t = Some r →
    (∃ s' ev t', r = Ok (s', ev, t')) ∨
    r = Aborted ∧ (t_pc t = GetHello ∧ in_box n 0 = [] ∨ t_pc t = GetAck ∧ in_box n 1 = []).
Proof.
  intros Hs Ha Hb Hga Hgb Hr Ht. pose proof (mt_reach_inv _ _ _ _ _ _ Hs Ha Hb Hga Hgb Hr) as HI.
  destruct (mi_testers _ _ _ HI x t Ht) as [Hx [Hlen Hpc]]. destruct (far_far x Hx) as [Hff Hfx]. pose proof (mi_net _ _ _ HI) as Hnet.
  split_and!.
  - assert (∃ k, t_out t = take k (transcript x)) as [k ->]; [|apply prefix_take].
    destruct (t_pc t); [by exists 0%nat|by exists 0%nat|by exists 0%nat|exists 1%nat; apply Hpc|by exists 1%nat|by exists 1%nat|by exists 2%nat].
  - by intros E; rewrite E in Hpc.
  - intros random pad n r Hn Hstep. unfold MailTest_step in Hstep. destruct (mt_action (far x) random pad t) as [y|] eqn:Hy; [|done].
    cbn [mbind option_bind] in Hstep. destruct (act s x y) as [o|] eqn:Hact; [|done]. injection Hstep as <-.
    destruct (step_outcome _ _ _ _ _ _ _ _ _ _ HI Ht Hn Hy Hact) as [(s' & ev & t' & -> & Haf)|[-> He]]; [|by right].
    left. cbn. rewrite Haf. cbn. eauto.
Qed.
End MailTest.

(** Both machines get through: a run without losses, in which each machine reads
    its boxes after the mail has arrived. *)
Module TwoTesters.
Import TwoMachines.

Definition far (x : Z) : Z := 3 - x.

(** A schedule: a step of the thread of a machine, or of its devices. *)
Fixpoint play (s : Net) (T : gmap Z Tester) (l : list (Z * option action)) : option (Net * gmap Z Tester) :=
  match l with
  | [] => Some (s, T)
  | (x, Some y) :: l =>
      if device y && running T x then
        match act s x y with Some (Ok (s, _)) => play s T l | _ => None end
      else None
  | (x, None) :: l =>
      match T !! x with
      | Some t =>
          match MailTest_step (far x) s x 7 zeros t with
          | Some (Ok (s, _, t)) => play s (<[x := t]> T) l
          | _ => None
          end
      | None => None
      end
  end.

Definition delivered (x : Z) : list (Z * option action) :=
  [(x, Some PollInterrupt); (x, Some WorkerWait); (x, Some WorkerDeliver)].
Definition both (l : Z → list (Z * option action)) : list (Z * option action) := l 1 ++ l 2.
Definition round : list (Z * option action) :=
  both (λ x, [(x, None); (x, Some SendInterrupt); (x, None)]) ++ both delivered ++ both (λ x, [(x, None)]).

Lemma play_reach s0 T0 l : ∀ s tr T s' T', mt_reach far s0 T0 s tr T → play s T l = Some (s', T') →
  ∃ tr', mt_reach far s0 T0 s' tr' T'.
Proof.
  induction l as [|[x [y|]] l IH]; intros s tr T s' T' Hr Hp; cbn [play] in Hp; [simplify_eq; eauto| |].
  - destruct (device y) eqn:Hd, (running T x) eqn:Hru; try done. cbn [andb] in Hp.
    destruct (act s x y) as [[[s1 ev]| | | |]|] eqn:Ha; try done. eapply IH; [|done]. by eapply mt_device.
  - destruct (T !! x) as [t|] eqn:Ht; [|done]. destruct (MailTest_step _ _ _ _ _ _) as [[[[s1 ev] t1]| | | |]|] eqn:Ha; try done.
    eapply IH; [|done]. by eapply mt_thread.
Qed.

Definition halted_with (t : option Tester) (out : list (list Z * Z * Z)) : bool :=
  match t with Some t => match t_pc t with Halted => bool_decide (t_out t = out) | _ => false end | None => false end.

Definition ended (o : option (Net * gmap Z Tester)) : bool :=
  match o with
  | Some (_, T) => halted_with (T !! 1) (transcript far 1) && halted_with (T !! 2) (transcript far 2)
  | None => false
  end.

Lemma halted_with_spec t out : halted_with t out = true → ∃ t', t = Some t' ∧ t_pc t' = Halted ∧ t_out t' = out.
Proof. destruct t as [t|]; [|done]. cbn. destruct (t_pc t) eqn:E; try done. intros H%bool_decide_eq_true. eauto. Qed.

Lemma ended_spec s T : ended (Some (s, T)) = true → ∃ t1 t2, T !! 1 = Some t1 ∧ T !! 2 = Some t2 ∧
  t_pc t1 = Halted ∧ t_pc t2 = Halted ∧ t_out t1 = transcript far 1 ∧ t_out t2 = transcript far 2.
Proof.
  cbn [ended]. intros [(t1 & ? & ? & ?)%halted_with_spec (t2 & ? & ? & ?)%halted_with_spec]%andb_true_iff. exists t1, t2. auto 10.
Qed.

Lemma story_ends : ended (play net0 (testers 1 2 (replicate 40 0) (replicate 40 0)) (round ++ round)) = true.
Proof. vm_compute. reflexivity. Qed.

Theorem MailTest_completes : ∃ s tr T t1 t2,
  mt_reach far net0 (testers 1 2 (replicate 40 0) (replicate 40 0)) s tr T ∧
  T !! 1 = Some t1 ∧ T !! 2 = Some t2 ∧ t_pc t1 = Halted ∧ t_pc t2 = Halted ∧
  t_out t1 = transcript far 1 ∧ t_out t2 = transcript far 2.
Proof.
  destruct (play net0 (testers 1 2 (replicate 40 0) (replicate 40 0)) (round ++ round)) as [[s T]|] eqn:Hp;
    [|exfalso; revert Hp; vm_compute; discriminate].
  destruct (play_reach net0 (testers 1 2 (replicate 40 0) (replicate 40 0)) _ _ [] _ s T (mt_refl _ _ _) Hp) as [tr Hr].
  pose proof story_ends as He. rewrite Hp in He. destruct (ended_spec s T He) as (t1 & t2 & H).
  exists s, tr, T, t1, t2. split; [exact Hr|exact H].
Qed.
End TwoTesters.
