(* ===== verification/Interp.v ===== *)
(** * bin/system.c and bin/main.c: the stand-alone interpreter as a program

    Execute models the loop of runprogram up to a system call.  Here are the
    system calls, which the interpreter passes on to the UNIX host, the options
    of its command line, the loading of the sections, and the whole program.
    The host is an interface: what it returns and stores is any function that
    keeps the laws of HostLaws. *)

From Stdlib Require Import ZArith Lia Bool Ascii String.
From S2P Require Import Prelude Bytes Execute Boot Disasm.
Import Execute.

Local Open Scope Z_scope.

Module Interp.

(** ** The host *)

(** The calls system.c makes, on a state of the host.  Counts are size_t; read
    gives back the bytes it stored, ioctl what it made of the memory. *)
Class Host (W : Type) := {
  h_read : W → Z → Z → W * Z * list Z;
  h_write : W → Z → list Z → W * Z;
  h_open : W → list Z → Z → Z → W * Z;
  h_lseek : W → Z → Z → Z → W * Z;
  h_ioctl : W → Z → Z → Z → (Z → Z) → W * Z * (Z → Z);
  h_getpagesize : Z;
}.

(** POSIX: read stores as many bytes as it returns, none when it fails, and at
    most as many as it was asked for. *)
Class HostLaws (W : Type) `{Host W} := {
  read_law w fd n : 0 <= n → let '(_, r, bs) := h_read w fd n in
    Z.of_nat (length bs) = Z.max 0 r ∧ Z.of_nat (length bs) <= n;
}.

(** ** system.c *)

(** The numbers system.c names in its comments. *)
Definition SYS_exit : Z := 1.
Definition SYS_read : Z := 3.
Definition SYS_write : Z := 4.
Definition SYS_open : Z := 5.
Definition SYS_close : Z := 6.
Definition SYS_lseek : Z := 19.
Definition SYS_ioctl : Z := 54.
Definition SYS_fstat : Z := 62.
Definition SYS_getpagesize : Z := 64.

(** u_to_int_addr: the place in [mem] of a user pointer. *)
Definition u_to_int_addr (ptr : Z) : Z := ptr - memoffset.

Definition u_to_int_fd (fd : Z) : Z := fd.

(** [n] bytes at a user pointer, all in [mem]. *)
Definition in_mem (ptr n : Z) : bool := (0 <=? u_to_int_addr ptr) && (u_to_int_addr ptr + n <=? MEMSIZE).

Definition bytes_from (f : Z → Z) (i n : Z) : list Z := f <$> seqZ i n.

(** The string at a place in [mem]; None when no NUL follows. *)
Fixpoint string_at (fuel : nat) (f : Z → Z) (i : Z) : option (list Z) :=
  match fuel with
  | O => None
  | S fuel =>
      if in_range i MEMSIZE then
        if f i =? 0 then Some [] else s ← string_at fuel f (i + 1); Some (f i :: s)
      else None
  end.

(** The request of ioctl: terminal requests of size 8 become requests of size 6. *)
Definition ioctl_request (o1 : Z) : Z :=
  let size := Z.land (Z.shiftr o1 16) 0x7f in
  let ioctl_group := schar (Z.land (Z.shiftr o1 8) 0x00ff) in
  if (ioctl_group =? 116) && (size =? 8)
  then Z.lor (Z.land o1 (Z.lnot (Z.shiftl 0x7f 16))) (Z.shiftl 6 16) else o1.

Section System.
Context {W : Type} `{Host W}.

(** system_trap (tracing off): the state afterwards, or exit(code).  A pointer
    that leaves [mem] makes the host read or write elsewhere; fstat gets a user
    pointer that was not converted. *)
Definition do_system_trap (w : W) (c : cpu) : outcome (W * (cpu + Z)) :=
  let syscallno := R c 2 in
  let o0 := R c 4 in
  let o1 := R c 5 in
  let o2 := R c 6 in
  let ret c r := inl (set_R c 1 r) : cpu + Z in
  if syscallno =? SYS_exit then Ok (w, inr 0)
  else if syscallno =? SYS_read then
    if in_mem o1 (u32 o2) then
      let '(w, r, bs) := h_read w (u_to_int_fd o0) (u32 o2) in
      Ok (w, ret (set_mem c (mem_write (mem c) (u_to_int_addr o1) bs)) r)
    else Undef
  else if syscallno =? SYS_write then
    if in_mem o1 (u32 o2) then
      let '(w, r) := h_write w (u_to_int_fd o0) (bytes_from (mem c) (u_to_int_addr o1) (u32 o2)) in
      Ok (w, ret c r)
    else Undef
  else if syscallno =? SYS_open then
    match string_at (Z.to_nat MEMSIZE) (mem c) (u_to_int_addr o0) with
    | Some path => let '(w, r) := h_open w path o1 o2 in Ok (w, ret c r)
    | None => Undef
    end
  else if syscallno =? SYS_close then Ok (w, ret c 0)
  else if syscallno =? 17 then
    let r := (Z.quot o0 8192 + 1) * 8192 in
    if bool_decide (int32 r) then Ok (w, ret c r) else Undef
  else if syscallno =? SYS_lseek then
    let '(w, r) := h_lseek w (u_to_int_fd o0) o1 o2 in Ok (w, ret c (s32 r))
  else if syscallno =? SYS_ioctl then
    let '(w, r, f) := h_ioctl w (u_to_int_fd o0) (ioctl_request o1) (u_to_int_addr o2) (mem c) in
    Ok (w, ret (set_R (set_mem c f) 1 r) 0)
  else if syscallno =? SYS_fstat then Undef
  else if syscallno =? SYS_getpagesize then Ok (w, ret c h_getpagesize)
  else Ok (w, inr 2).

(** runprogram's loop with the system calls: the state after [fuel] instructions,
    or the exit code. *)
Fixpoint interpret (fuel : nat) (w : W) (c : cpu) : outcome (W * (cpu + Z)) :=
  match fuel with
  | O => Ok (w, inl c)
  | S fuel =>
      t ← cycle c;
      match t with
      | Continue c => interpret fuel w c
      | system_trap c | system_break c =>
          '(w, r) ← do_system_trap w c;
          match r with inl c => interpret fuel w c | inr code => Ok (w, inr code) end
      | exit code => Ok (w, inr code)
      end
  end.
End System.

(** ** main.c *)

Record options := mkOptions {
  TRACE : bool; Traptrace : bool; Regtrace : bool;
  NROWS : Z; ASSOC : Z; LINESIZE : Z; RAND : bool; LRD : bool;
}.

Definition default_options : options := mkOptions false false false 64 1 4 false false.

Definition set_cache (o : options) (n a l : Z) (kind : string) : options :=
  mkOptions (TRACE o) (Traptrace o) (Regtrace o) n a l
    (match kind with String "r" _ => true | _ => false end)
    (match kind with String "l" (String "r" (String "d" _)) => true | _ => false end).

(** The letters of one argument; m takes the next four arguments, and it does so
    before the letters behind it are looked at. *)
Fixpoint letters (s : string) (args : list string) (o : options) : outcome (options * list string) :=
  match s with
  | EmptyString => Ok (o, args)
  | String x s =>
      match x with
      | "t"%char => letters s args (mkOptions true (Traptrace o) (Regtrace o) (NROWS o) (ASSOC o) (LINESIZE o) (RAND o) (LRD o))
      | "T"%char => letters s args (mkOptions (TRACE o) true (Regtrace o) (NROWS o) (ASSOC o) (LINESIZE o) (RAND o) (LRD o))
      | "r"%char => letters s args (mkOptions (TRACE o) (Traptrace o) true (NROWS o) (ASSOC o) (LINESIZE o) (RAND o) (LRD o))
      | "m"%char =>
          match args with
          | n :: a :: l :: kind :: args =>
              n ← atoi n; a ← atoi a; l ← atoi l; letters s args (set_cache o n a l kind)
          | _ => Undef
          end
      | _ => letters s args o
      end
  end.

(** while (argc > 1 && argv[1][0] == '-'); [args] is argv[1 ..]. *)
Fixpoint options_loop (fuel : nat) (args : list string) (o : options) : outcome (options * list string) :=
  match args with
  | String "-" s :: rest =>
      match fuel with
      | O => NoFuel
      | S fuel => '(o, rest) ← letters s rest o; options_loop fuel rest o
      end
  | _ => Ok (o, args)
  end.

(** load_program: the sections that are there, one after the other; None is exit(1). *)
Definition main_load_program (sections : list (option Disasm.SCNHDR)) (file : list Z) (m : Z → Z)
  : outcome (option (Z → Z)) :=
  foldM (λ m hd, match m, hd with
                 | Some m, Some hd => Disasm.LOADSECTION hd file m
                 | m, _ => Ok m
                 end) (Some m) sections.

(** A COFF file as the library ldfcn sees it. *)
Record ldfile := mkLd { TYPE : Z; sections : list (option Disasm.SCNHDR); contents : list Z }.

Definition string_bytes (s : string) : list Z := List.map char_code (list_ascii_of_string s).

(** main: [ldopen] is None for a file that cannot be opened; the program is run
    for [fuel] instructions. *)
Definition interp_main {W} `{Host W} (ldopen : string → option ldfile) (args : list string) (fuel : nat) (w : W)
  : outcome (options * W * (cpu + Z)) :=
  '(o, rest) ← options_loop (length args) args default_options;
  let filename := default "a.out"%string (head rest) in
  if (999 <? Z.of_nat (String.length filename)) then Undef
  else
    match ldopen filename with
    | None => Ok (o, w, inr 0)
    | Some ld =>
        if negb (TYPE ld =? 0x162) then Ok (o, w, inr 0)
        else
          m ← main_load_program (sections ld) (contents ld) (λ _, 0);
          match m with
          | None => Ok (o, w, inr 1)
          | Some m =>
              let argv := match rest with [] => ["a.out"%string] | _ => rest end in
              c ← runprogram_setup (mkCpu (replicate 32 0) 0 0 m 0 0 0) memoffset (List.map string_bytes argv);
              '(w, r) ← interpret fuel w c;
              Ok (o, w, r)
          end
    end.

(** ** What the system calls do *)

Section SystemProofs.
Context {W : Type} `{HostLaws W}.

(** The calls whose pointers stay in memory. *)
Definition legal_call (c : cpu) : bool :=
  let n := R c 2 in
  if (n =? SYS_read) || (n =? SYS_write) then in_mem (R c 5) (u32 (R c 6))
  else if n =? SYS_open then
    match string_at (Z.to_nat MEMSIZE) (mem c) (u_to_int_addr (R c 4)) with Some _ => true | None => false end
  else if n =? 17 then R c 4 <? 2 ^ 31 - 8192
  else negb (n =? SYS_fstat).

(** Only register 1 changes, and memory in the buffer of a read or by ioctl. *)
Record trap_frame (c c' : cpu) : Prop := {
  tf_regs k : 0 <= k → k ≠ 1 → R c' k = R c k;
  tf_rest : HI c' = HI c ∧ LO c' = LO c ∧ pc c' = pc c ∧ npc c' = npc c ∧ icount c' = icount c;
  tf_mem i : R c 2 ≠ SYS_ioctl →
    R c 2 ≠ SYS_read ∨ ¬ (u_to_int_addr (R c 5) <= i < u_to_int_addr (R c 5) + u32 (R c 6)) → mem c' i = mem c i;
}.

Lemma R_set_1 c v k : 0 <= k → k ≠ 1 → R (set_R c 1 v) k = R c k.
Proof. intros Hk Hne. unfold R, set_R. cbn [Reg]. by rewrite list_lookup_insert_ne by lia. Qed.

Lemma frame_ret c v : trap_frame c (set_R c 1 v).
Proof. split; [intros; by apply R_set_1|done|done]. Qed.

Lemma mem_write_outside f a bs i : ¬ (a <= i < a + Z.of_nat (length bs)) → mem_write f a bs i = f i.
Proof.
  intros Hi. unfold mem_write. destruct (Z.leb_spec a i); [|done]. by rewrite lookup_ge_None_2 by lia.
Qed.

Lemma mem_write_inside f a bs i : 0 <= i → mem_write f a bs (a + i) = default (f (a + i)) (bs !! Z.to_nat i).
Proof.
  intros Hi. unfold mem_write. destruct (Z.leb_spec a (a + i)); [|lia]. replace (a + i - a) with i by lia. by destruct (bs !! _).
Qed.

(** A system call with pointers into memory returns to the program or ends it,
    with code 0 for exit and 2 for an unknown call; the program sees the result in
    register 1, and nothing else changes but the buffer of a read. *)
Theorem system_trap_safe w c : length (Reg c) = 32%nat → Forall int32 (Reg c) → legal_call c = true →
  ∃ w' r, do_system_trap w c = Ok (w', r) ∧
    match r with inl c' => trap_frame c c' | inr code => code = (if R c 2 =? SYS_exit then 0 else 2) end.
Proof.
  intros Hlen Hint Hl. assert (H4 : int32 (R c 4)).
  { unfold R. destruct (Reg c !! Z.to_nat 4) eqn:E; [|by unfold int32]. by eapply Forall_lookup_1 in E. }
  unfold legal_call in Hl. unfold do_system_trap.
  destruct (Z.eqb_spec (R c 2) SYS_exit) as [E|E]; [by eexists _, _|].
  destruct (Z.eqb_spec (R c 2) SYS_read) as [Er|Er].
  { cbn [orb] in Hl. rewrite Hl. pose proof (read_law w (u_to_int_fd (R c 4)) (u32 (R c 6)) ltac:(apply u32_range)) as Hr.
    destruct (h_read _ _ _) as [[w' r] bs]. destruct Hr as (_ & Hn). eexists _, _. split; [reflexivity|]. split; [|done|].
    - intros k Hk Hne. by rewrite R_set_1.
    - intros i _ [?|Hi]; [done|]. cbn [mem set_R set_mem]. apply mem_write_outside. lia. }
  destruct (Z.eqb_spec (R c 2) SYS_write) as [Ew|Ew].
  { cbn [orb] in Hl. rewrite Hl. destruct (h_write _ _ _). (eexists _, _; split; [reflexivity|apply frame_ret]). }
  cbn [orb] in Hl. destruct (Z.eqb_spec (R c 2) SYS_open) as [Eo|Eo].
  { destruct (string_at _ _ _); [|done]. destruct (h_open _ _ _ _). (eexists _, _; split; [reflexivity|apply frame_ret]). }
  destruct (Z.eqb_spec (R c 2) SYS_close); [(eexists _, _; split; [reflexivity|apply frame_ret])|].
  destruct (Z.eqb_spec (R c 2) 17).
  { apply Z.ltb_lt in Hl. rewrite bool_decide_true; [(eexists _, _; split; [reflexivity|apply frame_ret])|]. unfold int32 in *. Z.to_euclidean_division_equations. lia. }
  destruct (Z.eqb_spec (R c 2) SYS_lseek); [destruct (h_lseek _ _ _ _); (eexists _, _; split; [reflexivity|apply frame_ret])|].
  destruct (Z.eqb_spec (R c 2) SYS_ioctl) as [Ei|Ei].
  { destruct (h_ioctl _ _ _ _ _) as [[w' r] f]. eexists _, _. split; [reflexivity|]. split; [|done|done].
    intros k Hk Hne. by rewrite !R_set_1. }
  destruct (Z.eqb_spec (R c 2) SYS_fstat); [done|].
  destruct (Z.eqb_spec (R c 2) SYS_getpagesize); [eexists _, _; split; [reflexivity|apply frame_ret]|]. by eexists _, _.
Qed.

(** read puts the bytes of the host into the buffer and their number into
    register 1; write gives the host the bytes of the buffer. *)
Theorem system_read_write w c : length (Reg c) = 32%nat → in_mem (R c 5) (u32 (R c 6)) = true →
  (R c 2 = SYS_read → let '(w', r, bs) := h_read w (R c 4) (u32 (R c 6)) in
     ∃ c', do_system_trap w c = Ok (w', inl c') ∧ R c' 1 = r ∧
       bytes_from (mem c') (u_to_int_addr (R c 5)) (Z.of_nat (length bs)) = bs) ∧
  (R c 2 = SYS_write → let '(w', r) := h_write w (R c 4) (bytes_from (mem c) (u_to_int_addr (R c 5)) (u32 (R c 6))) in
     ∃ c', do_system_trap w c = Ok (w', inl c') ∧ R c' 1 = r ∧ mem c' = mem c).
Proof.
  intros Hlen Hm. assert (H1 : ∀ c' v, length (Reg c') = 32%nat → R (set_R c' 1 v) 1 = v).
  { intros c' v Hc. unfold R, set_R. cbn [Reg]. by rewrite list_lookup_insert_eq by lia. }
  unfold do_system_trap. split; intros E; rewrite E; cbn [Z.eqb]; rewrite Hm; unfold u_to_int_fd.
  - cbn. destruct (h_read _ _ _) as [[w' r] bs]. eexists. split; [reflexivity|]. split; [by apply H1|].
    cbn [set_R set_mem mem]. unfold bytes_from. apply list_eq. intros i. rewrite list_lookup_fmap.
    destruct (decide (i < length bs)%nat) as [Hi|Hi].
    + rewrite lookup_seqZ_lt by lia. cbn. rewrite mem_write_inside, Nat2Z.id by lia.
      by destruct (lookup_lt_is_Some_2 bs i Hi) as [x ->].
    + rewrite lookup_seqZ_ge by lia. by rewrite lookup_ge_None_2 by lia.
  - cbn. destruct (h_write _ _ _) as [w' r]. eexists. split; [reflexivity|]. split; [by apply H1|done].
Qed.

(** Between system calls the program runs as in Execute. *)
Lemma interpret_cycles n k (w : W) : ∀ c c', cycles n c = Ok (Continue c') → interpret (n + k) w c = interpret k w c'.
Proof.
  induction n as [|n IH]; intros c c' Hc; cbn [cycles] in Hc; [by simplify_eq|].
  cbn [Nat.add interpret]. destruct (cycle c) as [t| | | |]; try done. cbn [mbind outcome_bind] in *.
  destruct t; try done. by apply IH.
Qed.
End SystemProofs.

(** ** The options *)

Lemma letters_args s : ∀ args o o' args', letters s args o = Ok (o', args') → (length args' <= length args)%nat.
Proof.
  induction s as [|x s IH]; intros args o o' args' Hs; cbn [letters] in Hs; [by simplify_eq|].
  repeat case_match; try done; try (by apply IH in Hs).
  all: repeat (apply bind_Ok_inv in Hs as (? & _ & Hs)); apply IH in Hs; simpl; lia.
Qed.

Lemma atoi_fuel s : atoi s ≠ NoFuel.
Proof. unfold atoi. by repeat case_match. Qed.

Lemma atoi_bind_fuel {A} s (f : Z → outcome A) : (∀ z, f z ≠ NoFuel) → (z ← atoi s; f z) ≠ NoFuel.
Proof. intros Hf. pose proof (atoi_fuel s). destruct (atoi s); [apply Hf|done|done|done|done]. Qed.

Lemma letters_fuel s : ∀ args o, letters s args o ≠ NoFuel.
Proof.
  induction s as [|x s IH]; intros args o; cbn [letters]; [done|].
  repeat case_match; try done; try apply IH.
  repeat (apply atoi_bind_fuel; intros). apply IH.
Qed.

(** The loop over the options ends, whatever the arguments. *)
Theorem options_loop_ends args : ∀ fuel o, (length args <= fuel)%nat → options_loop fuel args o ≠ NoFuel.
Proof.
  intros fuel. revert args. induction fuel as [|fuel IH]; intros [|a args] o Hf; cbn [options_loop]; try done; [simpl in Hf; lia|].
  repeat case_match; try done. pose proof (letters_fuel s args o) as Hl. destruct (letters s args o) as [[o' rest]| | | |] eqn:E; try done.
  cbn [mbind outcome_bind]. apply IH. apply letters_args in E. simpl in Hf. lia.
Qed.

(** -tm 2 1 8 lrd takes its four operands; the file follows. *)
Example options_example : options_loop 6 ["-tm"; "2"; "1"; "8"; "lrd"; "prog"]%string default_options =
  Ok (mkOptions true false false 2 1 8 false true, ["prog"]%string).
Proof. reflexivity. Qed.

(** ** A program from its file to its output *)

(** A host with a terminal: what is still to be typed, and what was displayed. *)
#[local] Instance terminal : Host (list Z * list Z) := {
  h_read w fd n := if fd =? 0 then (drop (Z.to_nat n) w.1, w.2, Z.of_nat (length (take (Z.to_nat n) w.1)), take (Z.to_nat n) w.1)
                   else (w, -1, []);
  h_write w fd bs := if fd =? 1 then (w.1, w.2 ++ bs, Z.of_nat (length bs)) else (w, -1);
  h_open w _ _ _ := (w, -1);
  h_lseek w _ _ _ := (w, -1);
  h_ioctl w _ _ _ f := (w, -1, f);
  h_getpagesize := 4096;
}.

#[local] Instance terminal_laws : HostLaws (list Z * list Z).
Proof.
  split. intros w fd n Hn. cbn. destruct (fd =? 0); [|done]. rewrite length_take. lia.
Qed.

(** read(0, buf, 64); write(1, buf, r1); exit. *)
Definition echo_program : list Z :=
  [0x3c051000; 0x24a50200; 0x24040000; 0x24060040; 0x24020003; 0x0000000c;
   0x00203021; 0x24040001; 0x24020004; 0x0000000c; 0x24020001; 0x0000000c].

Definition echo_file : ldfile :=
  mkLd 0x162 [Some (Disasm.mkScn memoffset 48 100); None; None; None; None; None]
    (replicate 100 0 ++ words_to_bytes echo_program).

(** The interpreter, started as "-r echo", copies a line and exits with 0. *)
Example interp_echo :
  match interp_main (λ name, if (name =? "echo")%string then Some echo_file else None) ["-r"; "echo"]%string 100
          ([104; 105; 10], []) with
  | Ok (o, w, inr code) => Regtrace o = true ∧ w = ([], [104; 105; 10]) ∧ code = 0
  | _ => False
  end.
Proof. vm_compute. done. Qed.
End Interp.
